(* ===== verification/_CoqProject ===== *)
-Q . S2P
Prelude.v
Kernel.v
Mem.v
Mp.v
Gates.v
Kalloc.v
Spinlock.v
Rand.v
Sched.v
Lottery.v
Mailbox.v
Monitor.v
Sleeplock.v
Pipe.v
Bio.v
Ide.v
Boot.v
Log.v
Logcrash.v
Logtxn.v
Ulib.v
Printf.v
Grep.v
Vm.v
Vmspace.v
Vmops.v
Vmkern.v
Vmcopy.v
Console.v
Apic.v
Rtc.v
Kbd.v
Kst.v
Inode.v
Device.v
Line.v
Fs.v
Mkfs.v
Fsblock.v
Fsfile.v
Fsinode.v
Fsio.v
Fseq.v
Fscrash.v
Mkfsok.v
File.v
Filewrite.v
Mkfsmain.v
Linethm.v
Dir.v
Dirthm.v
Filethm.v
Proc.v
Forkthm.v
Main.v
Mainmem.v
Mainthm.v
Sysarg.v
Exec.v
Sysproc.v
Sysfile.v
Trap.v
Programs.v
Twoprocs.v
Mailtest.v
Mailtest2.v
Sh.v
Shparse.v
Schedtest.v
Umalloc.v
