(* ===== verification/Prelude.v ===== *)
(** * A verification library for xv6-reimagined

    xv6-reimagined is a small Unix for the x86: a kernel with a lottery
    scheduler and mailboxes for messages between processes, a file system with a
    log, the program mkfs that makes a disk image, and user programs with a shell
    and a C library.  This library models it, function by function, and proves
    what the parts promise each other and the user.  A definition has the name of
    the C function it translates; the parts of a split function add to it.

    ** How the code is modelled

    - Integers are [Z], wrapped to the width of the C type by [u8] to [s32] where
      the code can exceed it (this file).  Memory is a map from addresses to bytes
      (Mem), and page tables, the free list and kernel stacks lie in it.
    - Kernel code is in the monad [K] of the file Kernel: it holds spin locks,
      changes a state, and returns, gives up the CPU in [sched], panics or spins
      for ever.  The state is a record per component; [Has] says that a state
      contains a component, and [lift] runs the component's code there.  [kst]
      (Kst) is the whole kernel, [machine] (Main) adds the hardware's tables.
    - A blocking call is split where it sleeps: [ksend] runs to the first
      [sleep], [ksend_wake] from there on.  Interleavings are step relations over
      these parts (Mailbox, Monitor, Ide), over single memory accesses
      (Spinlock), or over system calls (Twoprocs).
    - User programs are in the monad [U] of Ulib: functions of a script of the
      kernel's answers that record their calls; or trees of calls (Twoprocs).
    - Hardware and firmware are parameters: the disk controller ([Ata] in Ide),
      the interrupt controllers ([Chips] in Apic), the clock chip ([Rtc] in
      Rtc), the other processors while the machine starts (Mainthm).  What the code
      relies on is a law of the class, and every theorem that uses one has an
      instance as its example.  The addresses of linker symbols ([end], [data])
      and of assembly code are arguments.

    ** The files and the code they model (under src/)

    - Prelude: machine integers, lists, tactics and hints.  Kernel: the monad,
      locks as a list of held names, sleep channels.
    - Mem: string.c.  Kalloc: kalloc.c.  Vm: vm.c; Vmspace says what a page
      directory means, Vmops, Vmkern and Vmcopy what the operations do to it.
    - Spinlock: spinlock.c one memory access at a time.  Sleeplock: sleeplock.c.
      Monitor: the interface between data behind a lock and its sleepers, which
      Sleeplock, Pipe, Logtxn and Ide implement.
    - Rand: rand.c.  Sched: the scheduling half of proc.c; Lottery: its theorems.
      Proc: process creation and exit in proc.c; Forkthm: what fork gives a child.
    - Mailbox: mailbox.c.  Pipe: pipe.c.
    - Bio: bio.c and memide.c.  Ide: ide.c.  Log: log.c; Logcrash and Logtxn:
      crashes, recovery and transactions.
    - Inode and Fs: fs.c; Fsblock, Fsinode, Fsfile, Fsio, Fseq and Fscrash:
      what the operations do to the files on disk.  Dir, Dirthm: directories.
      File: file.c and pipealloc; Filewrite, Filethm: reads, writes and crashes.
    - Mkfs: mkfs.c; Mkfsok, Mkfsmain: the image it makes, read by the kernel.
    - Console, Device: console.c and the data path of uart.c; Kbd: kbd.c; Line,
      Linethm: the line discipline.
    - Boot: bootmain.c.  Mp: mp.c.  Gates: descriptors of mmu.h, seginit, tvinit,
      idtinit.  Apic: lapic.c, ioapic.c, picirq.c, uartinit.  Rtc: cmostime.
      Main: main.c; Mainmem, Mainthm: the state it leaves.
    - Sysarg, Trap: syscall.c and trap.c.  Sysproc: sysproc.c.  Sysfile:
      sysfile.c.  Exec: exec.c.
    - Ulib: ulib.c.  Printf: printf.c.  Umalloc: umalloc.c.  Grep: grep.c.
      Programs: cat, wc, echo, ln, rm, mkdir, kill, init, zombie and ls.  Sh,
      Shparse: sh.c.
    - Twoprocs, Mailtest, Mailtest2: testmailbox.c and testmailbox2.c.
      Schedtest: schedtest.c, forktest.c and stressfs.c.

    ** What the theorems show

    - The lottery: over the rounds of a period of the generator every process
      runs in exact proportion to its tickets, none starves, a pass of the
      scheduler does what proc.c says; with more than 65536 tickets the draw
      never ends.
    - Messages: a mailbox is a one-place channel and no sleeper misses its
      wakeup; a pipe is a queue, and its sleepers miss no wakeup unless a write
      that fails stops half way; all in every interleaving.  The mailbox test
      program passes in every interleaving if fork succeeds, and hangs if it
      fails.
    - Locks: mutual exclusion of spin locks and sleep locks.
    - Memory: the allocator hands out each page once; allocuvm, copyuvm and
      copyout do what they should to the address space and nothing to any other
      page, also when memory runs out; fork copies the process or gives all back.
    - The disk: the cache refines the disk, and ide.c refines memide.c, so the
      files above need only the latter.  A transaction is atomic over crashes,
      at any write and during recovery.
    - Files: filewrite splices the bytes in, stays within the log and is
      crash-safe; what is written is read back; a directory is a map; mkfs makes a file system on which the
      kernel reads the bytes mkfs was given.
    - The machine: the boot loader loads the kernel file, mpinit reads the
      firmware's tables, main ends in the scheduler with every page accounted for
      and the first process runnable, and user code can enter the kernel through
      the system call gate only.  The clock is read between two of its updates.
    - The console implements an abstract line discipline.  The shell's parser
      ends and reads back the text of a command; grep decides the language of its
      pattern and prints the matching lines of an input that arrives in pieces
      of whole lines.
    - Where the code does not do what it means to, the theorem says what it does
      (Lottery, Pipe, Grep, Mailtest, Dirthm, Mp).

    ** Loops and fuel

    Recursion follows the code's own counter where it has one (blocks, pages,
    entries of a table, digits of a number).  A loop with no such bound takes a
    fuel.  The theorems give enough of it: 17 draws in [random_at_most], a
    depth computed from the line in the shell's parser, the number of answers in
    a user program ([rounds]), the sectors of a segment in the boot loader, the
    entries of the table in [mpinit], the reads before the clock is left alone in
    [cmostime].  Where the code does not end, the theorem says that no fuel is
    enough.  The mailbox test makes at most 545 calls (Mailtest).

    ** Not modelled

    - Assembly (bootasm.S, entry.S, entryother.S, swtch.S, trapasm.S, usys.S,
      initcode.S, the vectors that vectors.pl makes): mode and stack switches.
      [sched] ends a run and a [_wake] function starts the next; the boot
      loader ends with the address it calls.
    - usertests.c: some fifty checks of the kernel from outside, each a straight
      sequence of system calls with no state of its own; what they expect is
      stated by the theorems on the components.
    - Timing, caches and memory order weaker than interleaving; the kernel code
      between [acquire] and [release] is one step, by the mutual exclusion that
      Spinlock proves.
    - Console messages of vm.c and of mkfs, and declarations without code. *)

From Stdlib Require Import ZArith Lia String Ascii.
From stdpp Require Import prelude list numbers strings option.
#[global] Open Scope Z_scope.
#[global] Set Default Goal Selector "!".

(** ** Machine integers

    The kernel is compiled for i386 ([-m32]): [int], [long] and pointers have
    32 bits, [short] 16 and [char] 8.  A C integer is a [Z]; [uN] and [sN] are
    the conversions to an unsigned and a signed type of [N] bits. *)

Definition u8 (z : Z) : Z := z mod 2 ^ 8.
Definition u16 (z : Z) : Z := z mod 2 ^ 16.
Definition u32 (z : Z) : Z := z mod 2 ^ 32.
Definition s8 (z : Z) : Z := (z + 2 ^ 7) mod 2 ^ 8 - 2 ^ 7.
Definition s16 (z : Z) : Z := (z + 2 ^ 15) mod 2 ^ 16 - 2 ^ 15.
Definition s32 (z : Z) : Z := (z + 2 ^ 31) mod 2 ^ 32 - 2 ^ 31.

Lemma u8_bound z : 0 <= u8 z < 256.
Proof. unfold u8. apply (Z.mod_pos_bound z (2 ^ 8)). lia. Qed.

Lemma u16_bound z : 0 <= u16 z < 65536.
Proof. unfold u16. apply (Z.mod_pos_bound z (2 ^ 16)). lia. Qed.

Lemma u32_bound z : 0 <= u32 z < 4294967296.
Proof. unfold u32. apply (Z.mod_pos_bound z (2 ^ 32)). lia. Qed.

Lemma s32_bound z : -2147483648 <= s32 z < 2147483648.
Proof.
  unfold s32. pose proof (Z.mod_pos_bound (z + 2 ^ 31) (2 ^ 32)). lia.
Qed.

Lemma u8_id z : 0 <= z < 256 -> u8 z = z.
Proof. intros. unfold u8. apply Z.mod_small. lia. Qed.

Lemma u16_id z : 0 <= z < 65536 -> u16 z = z.
Proof. intros. unfold u16. apply Z.mod_small. lia. Qed.

Lemma u32_id z : 0 <= z < 4294967296 -> u32 z = z.
Proof. intros. unfold u32. apply Z.mod_small. lia. Qed.

Lemma s32_id z : -2147483648 <= z < 2147483648 -> s32 z = z.
Proof. intros. unfold s32. rewrite Z.mod_small; lia. Qed.

Lemma s32_u32 z : s32 (u32 z) = s32 z.
Proof. unfold s32, u32. by rewrite Zplus_mod_idemp_l. Qed.

Lemma u32_add_idemp_l a b : u32 (u32 a + b) = u32 (a + b).
Proof. unfold u32. apply Z.add_mod_idemp_l. lia. Qed.

Lemma u32_sub_idemp_l a b : u32 (u32 a - b) = u32 (a - b).
Proof. unfold u32. apply Zminus_mod_idemp_l. Qed.

Lemma u32_sub_idemp_r a b : u32 (a - u32 b) = u32 (a - b).
Proof. unfold u32. apply Zminus_mod_idemp_r. Qed.

Create Rewrite HintDb width.
#[export] Hint Rewrite u8_id u16_id u32_id s32_id using lia : width.

(** ** The memory layout of memlayout.h and mmu.h *)

Definition PGSIZE : Z := 4096.
Definition PHYSTOP : Z := 0xE000000.
Definition KERNBASE : Z := 0x80000000.
Definition V2P (a : Z) : Z := u32 (a - KERNBASE).
Definition P2V (a : Z) : Z := u32 (a + KERNBASE).
Definition PGROUNDUP (a : Z) : Z := Z.land (u32 (a + PGSIZE - 1)) (Z.lnot (PGSIZE - 1)).
Definition PGROUNDDOWN (a : Z) : Z := Z.land a (Z.lnot (PGSIZE - 1)).

Lemma land_lnot_page a : Z.land a (Z.lnot (PGSIZE - 1)) = PGSIZE * (a / PGSIZE).
Proof.
  unfold PGSIZE. change (4096 - 1) with (Z.ones 12). rewrite <- Z.ldiff_land, Z.ldiff_ones_r by lia.
  rewrite Z.shiftl_mul_pow2, Z.shiftr_div_pow2 by lia. change (2 ^ 12) with 4096. lia.
Qed.

Lemma PGROUNDDOWN_spec a :
  PGROUNDDOWN a mod PGSIZE = 0 /\ PGROUNDDOWN a <= a < PGROUNDDOWN a + PGSIZE.
Proof.
  unfold PGROUNDDOWN. rewrite land_lnot_page. unfold PGSIZE.
  pose proof (Z.div_mod a 4096 ltac:(lia)). pose proof (Z.mod_pos_bound a 4096 ltac:(lia)).
  split; [|lia]. rewrite Z.mul_comm. by apply Z.mod_mul.
Qed.

Lemma PGROUNDUP_spec a :
  0 <= a -> a + PGSIZE - 1 < 2 ^ 32 ->
  PGROUNDUP a mod PGSIZE = 0 /\ a <= PGROUNDUP a < a + PGSIZE.
Proof.
  intros Ha Hb. unfold PGROUNDUP. rewrite u32_id by (unfold PGSIZE in *; lia).
  pose proof (PGROUNDDOWN_spec (a + PGSIZE - 1)) as [? ?]. unfold PGROUNDDOWN in *. lia.
Qed.

(** ** Lists indexed and summed with [Z] *)

(** The characters of a string literal. *)
Definition str (s : string) : list Z := (fun c => Z.of_nat (nat_of_ascii c)) <$> list_ascii_of_string s.

Definition Zsum (l : list Z) : Z := foldr Z.add 0 l.

Lemma Zsum_app l1 l2 : Zsum (l1 ++ l2) = Zsum l1 + Zsum l2.
Proof. unfold Zsum. induction l1 as [|x l1 IH]; simpl; lia. Qed.

Lemma Zsum_nonneg l : Forall (fun x => 0 <= x) l -> 0 <= Zsum l.
Proof. unfold Zsum. induction 1; simpl; lia. Qed.

Lemma Forall_elem {A} (P : A -> Prop) l : Forall P l <-> forall x, x ∈ l -> P x.
Proof. rewrite List.Forall_forall. by setoid_rewrite list_elem_of_In. Qed.

Create Rewrite HintDb len.
#[export] Hint Rewrite @length_app @length_take @length_drop @length_fmap
  @length_replicate @length_insert @length_alter @length_seq @length_seqZ : len.

(** [len] closes goals on list lengths and linear arithmetic. *)
Ltac len := simpl in *; do 3 (autorewrite with len in *; cbn [length] in *); try lia.

(** Case analysis on the first boolean test or [decide] of the goal. *)
Ltac case_test :=
  match goal with
  | |- context [if decide ?P then _ else _] => destruct (decide P)
  | |- context [Z.ltb ?a ?b] => destruct (Z.ltb_spec a b)
  | |- context [Z.leb ?a ?b] => destruct (Z.leb_spec a b)
  | |- context [Z.eqb ?a ?b] => destruct (Z.eqb_spec a b)
  | |- context [if ?b then _ else _] => destruct b eqn:?
  end; cbn [andb orb negb].
