(* ===== verification/Kernel.v ===== *)
(** * The kernel monad: locks, sleep channels and outcomes

    Kernel code runs on a CPU that holds a list of spin locks and changes a
    state.  A computation ends in one of four ways: it returns; it gives up
    the CPU in [sched] (the process sleeps or yields, and the CPU goes back to
    the scheduler); it panics; or it spins forever.  The code between [acquire]
    and [release] is one step of the CPU that runs it: the spin locks
    themselves are the subject of the file Spinlock. *)

From Stdlib Require Import ZArith Lia String.
From stdpp Require Import prelude list numbers strings option.
From S2P Require Import Prelude.

(** ** Spin locks and sleep channels

    One constructor per lock object of the kernel.  A channel is the address
    passed to [sleep] and [wakeup]; distinct objects have distinct channels. *)

Inductive lockid : Type :=
  | LPtable | LKmem | LLog | LBcache | LIcache | LFtable | LTicks | LCons | LIde
  | LMailbox (i : nat) | LPipe (a : Z)
  | LSleepBuf (i : nat) | LSleepInode (i : nat).

Inductive chan : Type :=
  | ChProc (i : nat)
  | ChMailbox (i : nat)
  | ChPipeRead (a : Z) | ChPipeWrite (a : Z)
  | ChLog | ChTicks | ChInput
  | ChBuf (i : nat)
  | ChSleepBuf (i : nat) | ChSleepInode (i : nat).

#[export] Instance lockid_eq_dec : EqDecision lockid.
Proof. solve_decision. Defined.

#[export] Instance chan_eq_dec : EqDecision chan.
Proof. solve_decision. Defined.

(** ** Outcomes and the monad *)

Inductive outcome (S A : Type) : Type :=
  | Ret (a : A) (h : list lockid) (s : S)
  | Sched (s : S)
  | Panic (msg : string)
  | Spin.

Arguments Ret {S A} a h s.
Arguments Sched {S A} s.
Arguments Panic {S A} msg.
Arguments Spin {S A}.

Definition K (S A : Type) : Type := list lockid -> S -> outcome S A.

#[export] Instance K_ret S : MRet (K S) := fun A a h s => Ret a h s.

#[export] Instance K_bind S : MBind (K S) := fun A B f c h s =>
  match c h s with
  | Ret a h s => f a h s
  | Sched s => Sched s
  | Panic msg => Panic msg
  | Spin => Spin
  end.

Section ops.
Context {S : Type}.

Definition panic {A} (msg : string) : K S A := fun _ _ => Panic msg.
Definition spin {A} : K S A := fun _ _ => Spin.
Definition gets {A} (f : S -> A) : K S A := fun h s => Ret (f s) h s.
Definition modify (f : S -> S) : K S unit := fun h s => Ret tt h (f s).
Definition held : K S (list lockid) := fun h s => Ret h h s.

(** [acquire] panics when this CPU already holds the lock. *)
Definition acquire (l : lockid) : K S unit := fun h s =>
  if bool_decide (l ∈ h) then Panic "acquire" else Ret tt (l :: h) s.

(** [release] panics when this CPU does not hold the lock. *)
Definition release (l : lockid) : K S unit := fun h s =>
  if bool_decide (l ∈ h) then Ret tt (filter (fun x => x <> l) h) s
  else Panic "release".

Definition when (b : bool) (c : K S unit) : K S unit := if b then c else mret ().
End ops.

(** ** State components

    [Has T S]: the state [S] has a component [T].  Operations of a component
    are written once, for any state that contains it. *)

Class Has (T S : Type) := {
  get_part : S -> T;
  put_part : T -> S -> S;
  get_put_part : forall t s, get_part (put_part t s) = t;
  put_get_part : forall s, put_part (get_part s) s = s;
  put_put_part : forall t t' s, put_part t (put_part t' s) = put_part t s;
}.

#[export, refine] Instance Has_refl T : Has T T :=
  {| get_part := fun s => s; put_part := fun t _ => t |}.
Proof. all: done. Defined.

Create Rewrite HintDb parts.
#[export] Hint Rewrite @get_put_part @put_get_part @put_put_part : parts.

(** ** Reasoning about runs *)

Lemma bind_unfold {S A B} (c : K S A) (f : A -> K S B) h s :
  (c ≫= f) h s = match c h s with
                 | Ret a h s => f a h s
                 | Sched s => Sched s
                 | Panic msg => Panic msg
                 | Spin => Spin
                 end.
Proof. done. Qed.

Lemma acquire_free {S} l h (s : S) : l ∉ h -> acquire l h s = Ret tt (l :: h) s.
Proof. intros. unfold acquire. by rewrite bool_decide_eq_false_2. Qed.

Lemma release_top {S} l h (s : S) : l ∉ h -> release l (l :: h) s = Ret tt h s.
Proof.
  intros Hl. unfold release. rewrite bool_decide_eq_true_2 by left. f_equal.
  rewrite filter_cons_False by (intros Hne; by apply Hne).
  induction h as [|x h IH]; [done|]. apply not_elem_of_cons in Hl as [Hx Hl].
  rewrite filter_cons_True by congruence. by rewrite IH.
Qed.

(** [sleep] takes [ptable.lock] before it lets go of the caller's lock. *)
Lemma release_second {S} l k (s : S) : k <> l -> release l [k; l] s = Ret tt [k] s.
Proof.
  intros Hk. unfold release. rewrite bool_decide_eq_true_2 by set_solver. f_equal.
  rewrite filter_cons_True by done. by rewrite filter_cons_False by naive_solver.
Qed.

Lemma mret_run {S A} (a : A) h (s : S) : (mret a : K S A) h s = Ret a h s.
Proof. done. Qed.

Lemma gets_run {S A} (f : S -> A) h s : gets f h s = Ret (f s) h s.
Proof. done. Qed.

Lemma modify_run {S} (f : S -> S) h s : modify f h s = Ret tt h (f s).
Proof. done. Qed.

Lemma held_run {S} h (s : S) : held h s = Ret h h s.
Proof. done. Qed.

(** A lock that is not among those held. *)
Ltac not_held :=
  solve [ repeat first [ apply not_elem_of_nil | apply not_elem_of_cons; split; [congruence|] ]
        | assumption | set_solver ].

(** Symbolic execution of kernel code: the head operation, one at a time. *)
Ltac kstep_base :=
  first [ rewrite bind_unfold | rewrite mret_run | rewrite gets_run | rewrite modify_run
        | rewrite held_run
        | rewrite acquire_free by not_held
        | rewrite release_top by not_held ];
  cbv beta iota.

(** Code for a component, run in a state that contains the component. *)
Definition lift {T S A} `{!Has T S} (c : K T A) : K S A := fun h s =>
  match c h (get_part s) with
  | Ret a h t => Ret a h (put_part t s)
  | Sched t => Sched (put_part t s)
  | Panic msg => Panic msg
  | Spin => Spin
  end.

(** A component of a component. *)
Definition Has_trans {T U S} (H1 : Has T U) (H2 : Has U S) : Has T S.
Proof.
  refine {| get_part := fun s => get_part (get_part s);
            put_part := fun t s => put_part (put_part t (get_part s)) s |}.
  - intros. by rewrite !get_put_part.
  - intros. by rewrite !put_get_part.
  - intros. by rewrite get_put_part, !put_put_part.
Defined.
