(* ===== verification/Mem.v ===== *)
(** * Memory and the string routines (src/string.c, stosb/stosl of src/x86.h)

    Memory maps an address to a byte.  A pointer the code only reads through
    is the function from an offset to the byte there ([ptr]), so that the same
    routine runs on kernel memory and on the bytes of a disk block. *)

From Stdlib Require Import ZArith Lia String.
From stdpp Require Import prelude list numbers option.
From S2P Require Import Prelude.

Definition mem : Type := Z -> Z.
Definition ptr : Type := Z -> Z.

Definition mem_ok (m : mem) : Prop := forall a, 0 <= m a < 256.

(** The pointer [a] into memory [m], and a pointer to the first of the bytes [l]. *)
Definition at_addr (m : mem) (a : Z) : ptr := fun i => m (a + i).
Definition bytes_ptr (l : list Z) : ptr := fun i => nth (Z.to_nat i) l 0.
Definition shift (p : ptr) (k : Z) : ptr := fun i => p (k + i).

(** ** Loads and stores *)

Definition load_bytes (m : mem) (a : Z) (n : Z) : list Z := m <$> seqZ a n.
Definition store_bytes (m : mem) (a : Z) (l : list Z) : mem := fun x =>
  if (a <=? x) && (x <? a + Z.of_nat (length l)) then nth (Z.to_nat (x - a)) l 0 else m x.

(** The [i]-th byte of an integer, and the four bytes of a 32-bit one. *)
Definition byte_of (v : Z) (i : Z) : Z := Z.land (Z.shiftr v (8 * i)) 255.
Definition le32 (v : Z) : list Z := [byte_of v 0; byte_of v 1; byte_of v 2; byte_of v 3].
Definition le16 (v : Z) : list Z := [byte_of v 0; byte_of v 1].
Definition of_le (l : list Z) : Z := foldr (fun b v => b + 256 * v) 0 l.

Definition load8 (m : mem) (a : Z) : Z := m a.
Definition store8 (m : mem) (a v : Z) : mem := store_bytes m a [u8 v].
Definition load32 (m : mem) (a : Z) : Z := of_le (load_bytes m a 4).
Definition store32 (m : mem) (a v : Z) : mem := store_bytes m a (le32 v).

(** ** String instructions of x86.h: [cnt] units are stored from [addr] *)

Definition stosb (m : mem) (addr data cnt : Z) : mem := fun x =>
  if (addr <=? x) && (x <? addr + cnt) then byte_of data 0 else m x.
Definition stosl (m : mem) (addr data cnt : Z) : mem := fun x =>
  if (addr <=? x) && (x <? addr + 4 * cnt) then byte_of data ((x - addr) mod 4) else m x.

(** ** string.c *)

Definition memset (m : mem) (dst c n : Z) : mem :=
  if (Z.rem (s32 dst) 4 =? 0) && (n mod 4 =? 0) then
    let c := Z.land c 0xFF in
    stosl m dst (Z.lor (Z.lor (Z.lor (Z.shiftl c 24) (Z.shiftl c 16)) (Z.shiftl c 8)) c) (n / 4)
  else stosb m dst c n.

Fixpoint memcmp_loop (n : nat) (s1 s2 : ptr) (i : Z) : Z :=
  match n with
  | O => 0
  | S n => if s1 i =? s2 i then memcmp_loop n s1 s2 (i + 1) else s1 i - s2 i
  end.
Definition memcmp (v1 v2 : ptr) (n : Z) : Z := memcmp_loop (Z.to_nat n) v1 v2 0.

(** The two loops of [memmove]: downwards from the ends, upwards from the starts. *)
Fixpoint copy_down (n : nat) (m : mem) (d s : Z) : mem :=
  match n with
  | O => m
  | S n => copy_down n (store8 m (d - 1) (m (s - 1))) (d - 1) (s - 1)
  end.
Fixpoint copy_up (n : nat) (m : mem) (d s : Z) : mem :=
  match n with
  | O => m
  | S n => copy_up n (store8 m d (m s)) (d + 1) (s + 1)
  end.
Definition memmove (m : mem) (dst src n : Z) : mem :=
  if (src <? dst) && (dst <? src + n) then copy_down (Z.to_nat n) m (dst + n) (src + n)
  else copy_up (Z.to_nat n) m dst src.
Definition memcpy (m : mem) (dst src n : Z) : mem := memmove m dst src n.

Fixpoint strncmp_loop (n : nat) (p q : ptr) (i : Z) : Z :=
  match n with
  | O => 0
  | S n => if negb (p i =? 0) && (p i =? q i) then strncmp_loop n p q (i + 1)
           else u8 (p i) - u8 (q i)
  end.
Definition strncmp (p q : ptr) (n : Z) : Z := strncmp_loop (Z.to_nat n) p q 0.

(** [strncpy] and [safestrcpy]: the bytes stored at the destination. *)
Fixpoint strncpy_loop (n : nat) (t : ptr) (i : Z) : list Z :=
  match n with
  | O => []
  | S n => t i :: (if t i =? 0 then replicate n 0 else strncpy_loop n t (i + 1))
  end.
Definition strncpy (t : ptr) (n : Z) : list Z := strncpy_loop (Z.to_nat n) t 0.

Fixpoint safestrcpy_loop (n : nat) (t : ptr) (i : Z) : list Z :=
  match n with
  | O => [0]
  | S n => t i :: (if t i =? 0 then [0] else safestrcpy_loop n t (i + 1))
  end.
Definition safestrcpy (t : ptr) (n : Z) : list Z :=
  if n <=? 0 then [] else safestrcpy_loop (Z.to_nat (n - 1)) t 0.

(** [strlen] looks at no more than [fuel] bytes. *)
Fixpoint strlen_loop (fuel : nat) (s : ptr) (n : Z) : option Z :=
  match fuel with
  | O => None
  | S fuel => if s n =? 0 then Some n else strlen_loop fuel s (n + 1)
  end.
Definition strlen (fuel : nat) (s : ptr) : option Z := strlen_loop fuel s 0.

(** ** Bytes of integers *)

Lemma byte_of_bound v i : 0 <= byte_of v i < 256.
Proof.
  unfold byte_of. change 255 with (Z.ones 8). rewrite Z.land_ones by lia.
  apply Z.mod_pos_bound. lia.
Qed.

Lemma byte_of_div v i : 0 <= i -> byte_of v i = (v / 2 ^ (8 * i)) mod 256.
Proof.
  intros. unfold byte_of. change 255 with (Z.ones 8).
  rewrite Z.land_ones, Z.shiftr_div_pow2 by lia. done.
Qed.

Lemma of_le32 v : of_le (le32 v) = u32 v.
Proof.
  unfold of_le, le32, u32. cbn [foldr]. rewrite !byte_of_div by lia.
  change (2 ^ (8 * 0)) with 1. change (2 ^ (8 * 1)) with 256. change (2 ^ (8 * 2)) with 65536.
  change (2 ^ (8 * 3)) with 16777216. change (2 ^ 32) with 4294967296.
  pose proof (Z.div_mod v 256 ltac:(lia)). pose proof (Z.div_mod (v / 256) 256 ltac:(lia)).
  pose proof (Z.div_mod (v / 65536) 256 ltac:(lia)).
  pose proof (Z.div_mod (v / 16777216) 256 ltac:(lia)).
  pose proof (Z.div_mod v 4294967296 ltac:(lia)).
  rewrite Z.div_1_r.
  assert (v / 65536 = v / 256 / 256) as E1 by (rewrite Z.div_div by lia; done).
  assert (v / 16777216 = v / 65536 / 256) as E2 by (rewrite Z.div_div by lia; done).
  assert (v / 4294967296 = v / 16777216 / 256) as E3 by (rewrite Z.div_div by lia; done).
  lia.
Qed.

Lemma of_le16 v : of_le (le16 v) = u16 v.
Proof.
  unfold of_le, le16, u16. cbn [foldr]. rewrite !byte_of_div by lia.
  change (2 ^ (8 * 0)) with 1. change (2 ^ (8 * 1)) with 256. change (2 ^ 16) with 65536.
  pose proof (Z.div_mod v 256 ltac:(lia)). pose proof (Z.div_mod (v / 256) 256 ltac:(lia)).
  pose proof (Z.div_mod v 65536 ltac:(lia)). rewrite Z.div_1_r.
  assert (v / 65536 = v / 256 / 256) as E1 by (rewrite Z.div_div by lia; done).
  lia.
Qed.

Lemma of_le_bound l : Forall (fun b => 0 <= b < 256) l -> 0 <= of_le l < 256 ^ Z.of_nat (length l).
Proof.
  induction 1 as [|b l Hb Hl IH]; [done|]. cbn [of_le foldr length].
  fold (of_le l). rewrite Nat2Z.inj_succ, Z.pow_succ_r by lia. lia.
Qed.

Lemma le32_length v : length (le32 v) = 4%nat.
Proof. done. Qed.

(** ** Loads after stores *)

Lemma length_load_bytes m a n : length (load_bytes m a n) = Z.to_nat n.
Proof. unfold load_bytes. by len. Qed.
#[export] Hint Rewrite length_load_bytes : len.

Lemma store_bytes_in m a l i x :
  l !! i = Some x -> store_bytes m a l (a + Z.of_nat i) = x.
Proof.
  intros Hi. pose proof (lookup_lt_Some _ _ _ Hi). unfold store_bytes.
  rewrite (proj2 (Z.leb_le _ _)), (proj2 (Z.ltb_lt _ _)) by lia. simpl.
  replace (Z.to_nat (a + Z.of_nat i - a)) with i by lia. by apply nth_lookup_Some.
Qed.

Lemma store_bytes_out m a l x :
  x < a \/ a + Z.of_nat (length l) <= x -> store_bytes m a l x = m x.
Proof. intros. unfold store_bytes. repeat case_test; simpl; done || lia. Qed.

Lemma load_bytes_ext m m' a n :
  (forall x, a <= x < a + n -> m x = m' x) -> load_bytes m a n = load_bytes m' a n.
Proof.
  intros H. apply list_fmap_ext. intros i x Hi. apply H.
  apply lookup_seqZ in Hi as [-> ?]. lia.
Qed.

Lemma load_store_same m a l : load_bytes (store_bytes m a l) a (Z.of_nat (length l)) = l.
Proof.
  apply list_eq. intros i. unfold load_bytes. rewrite list_lookup_fmap.
  destruct (l !! i) as [x|] eqn:Hi.
  - pose proof (lookup_lt_Some _ _ _ Hi). rewrite lookup_seqZ_lt by lia. simpl.
    f_equal. by apply store_bytes_in.
  - apply lookup_ge_None in Hi. by rewrite lookup_seqZ_ge by lia.
Qed.

Lemma load_store_other m a l b n :
  b + n <= a \/ a + Z.of_nat (length l) <= b ->
  load_bytes (store_bytes m a l) b n = load_bytes m b n.
Proof. intros. apply load_bytes_ext. intros x Hx. apply store_bytes_out. lia. Qed.

Lemma load32_same m a v : load32 (store32 m a v) a = u32 v.
Proof.
  unfold load32, store32. change 4 with (Z.of_nat (length (le32 v))).
  rewrite load_store_same. apply of_le32.
Qed.

Lemma load32_other m a v b : b + 4 <= a \/ a + 4 <= b -> load32 (store32 m a v) b = load32 m b.
Proof. intros. unfold load32, store32. rewrite load_store_other by (rewrite le32_length; lia). done. Qed.

Lemma load32_ext m m' a : (forall x, a <= x < a + 4 -> m x = m' x) -> load32 m a = load32 m' a.
Proof. intros. unfold load32. by rewrite (load_bytes_ext m m'). Qed.

Lemma load32_bound m a : mem_ok m -> 0 <= load32 m a < 2 ^ 32.
Proof.
  intros Hm. apply (of_le_bound (load_bytes m a 4)). apply Forall_fmap, Forall_elem. intros. apply Hm.
Qed.

Lemma store_bytes_ok m a l :
  mem_ok m -> Forall (fun b => 0 <= b < 256) l -> mem_ok (store_bytes m a l).
Proof.
  intros Hm Hl x. unfold store_bytes. repeat case_test; simpl; try apply Hm.
  rewrite Forall_elem in Hl. apply Hl.
  destruct (lookup_lt_is_Some_2 l (Z.to_nat (x - a))) as [y Hy]; [lia|].
  rewrite (nth_lookup_Some _ _ _ y) by done. by eapply list_elem_of_lookup_2.
Qed.

Lemma store32_ok m a v : mem_ok m -> mem_ok (store32 m a v).
Proof. intros. apply store_bytes_ok; [done|]. repeat constructor; apply byte_of_bound. Qed.

(** ** memset *)

Lemma replicated_byte c i :
  0 <= i < 4 ->
  byte_of (Z.lor (Z.lor (Z.lor (Z.shiftl (Z.land c 255) 24) (Z.shiftl (Z.land c 255) 16))
                        (Z.shiftl (Z.land c 255) 8)) (Z.land c 255)) i = byte_of c 0.
Proof.
  intros Hi. unfold byte_of. change 255 with (Z.ones 8). apply Z.bits_inj'. intros n Hn.
  rewrite !Z.land_spec, !Z.shiftr_spec by lia. rewrite !Z.lor_spec, !Z.shiftl_spec by lia.
  rewrite !Z.land_spec. rewrite (Z.testbit_ones_nonneg 8 n) by lia.
  destruct (Z.ltb_spec n 8); [|by rewrite !andb_false_r].
  assert (i = 0 \/ i = 1 \/ i = 2 \/ i = 3) as [->|[->|[->| ->]]] by lia;
    rewrite !Z.testbit_ones by lia;
    repeat (case_test; try lia); simpl; rewrite ?andb_false_r, ?andb_true_r, ?orb_false_r, ?orb_false_l;
    f_equal; lia.
Qed.

(** Both branches of [memset] store the low byte of [c] in [n] places. *)
Lemma memset_spec m dst c n x :
  0 <= n ->
  memset m dst c n x = if decide (dst <= x < dst + n) then u8 c else m x.
Proof.
  intros Hn. unfold memset.
  assert (byte_of c 0 = u8 c) as Hc by (rewrite byte_of_div by lia; by rewrite Z.div_1_r).
  destruct (_ && _) eqn:E.
  - apply andb_prop in E as [_ E%Z.eqb_eq].
    assert (4 * (n / 4) = n) as H4 by (pose proof (Z.div_mod n 4 ltac:(lia)); lia).
    unfold stosl. rewrite H4. repeat case_test; simpl; try lia; try done.
    rewrite replicated_byte by (apply Z.mod_pos_bound; lia). done.
  - unfold stosb. repeat case_test; simpl; try lia; done.
Qed.

Lemma memset_ok m dst c n : 0 <= n -> mem_ok m -> mem_ok (memset m dst c n).
Proof.
  intros Hn Hm x. rewrite memset_spec by done. case_decide; [apply u8_bound|apply Hm].
Qed.

Lemma load_memset m dst c n a k :
  0 <= n -> dst <= a -> a + k <= dst + n -> load_bytes (memset m dst c n) a k = replicate (Z.to_nat k) (u8 c).
Proof.
  intros. apply list_eq. intros i. unfold load_bytes. rewrite list_lookup_fmap.
  destruct (decide (i < Z.to_nat k)%nat).
  - rewrite lookup_seqZ_lt, lookup_replicate_2 by lia. simpl. by rewrite memset_spec, decide_True by lia.
  - rewrite lookup_seqZ_ge by lia. symmetry. apply lookup_replicate_None. lia.
Qed.

Lemma load_memset_other m dst c n a k :
  0 <= n -> a + k <= dst \/ dst + n <= a -> load_bytes (memset m dst c n) a k = load_bytes m a k.
Proof.
  intros. apply load_bytes_ext. intros. by rewrite memset_spec, decide_False by lia.
Qed.

(** ** memmove *)

Lemma store8_at m a v x : store8 m a v x = if decide (x = a) then u8 v else m x.
Proof.
  unfold store8, store_bytes. cbn [length]. repeat case_test; simpl; try lia; try done.
  by replace (Z.to_nat (x - a)) with 0%nat by lia.
Qed.

Lemma copy_up_spec n m d s x :
  mem_ok m -> d <= s \/ s + Z.of_nat n <= d ->
  copy_up n m d s x = if decide (d <= x < d + Z.of_nat n) then m (s + (x - d)) else m x.
Proof.
  revert m d s. induction n as [|n IH]; intros m d s Hm Hds; cbn [copy_up].
  { rewrite decide_False by lia. done. }
  rewrite IH; [|by apply store_bytes_ok; [|repeat constructor; apply u8_bound]|lia].
  rewrite !store8_at, u8_id by apply Hm. repeat case_decide; try lia; f_equal; lia.
Qed.

Lemma copy_down_spec n m d s x :
  mem_ok m -> s <= d \/ d + Z.of_nat n <= s ->
  copy_down n m d s x = if decide (d - Z.of_nat n <= x < d) then m (s - (d - x)) else m x.
Proof.
  revert m d s. induction n as [|n IH]; intros m d s Hm Hds; cbn [copy_down].
  { rewrite decide_False by lia. done. }
  rewrite IH; [|by apply store_bytes_ok; [|repeat constructor; apply u8_bound]|lia].
  rewrite !store8_at, u8_id by apply Hm. repeat case_decide; try lia; f_equal; lia.
Qed.

(** [memmove] copies [n] bytes as if through a temporary, whatever the
    overlap of source and destination, and changes nothing else. *)
Lemma memmove_at m dst src n x :
  mem_ok m -> 0 <= n ->
  memmove m dst src n x = if decide (dst <= x < dst + n) then m (src + (x - dst)) else m x.
Proof.
  intros Hm Hn. unfold memmove.
  destruct (Z.ltb_spec src dst), (Z.ltb_spec dst (src + n)); cbn [andb].
  1: rewrite copy_down_spec by (done || lia).
  2-4: rewrite copy_up_spec by (done || lia).
  all: repeat case_decide; try lia; f_equal; lia.
Qed.

Lemma memmove_ok m dst src n : mem_ok m -> 0 <= n -> mem_ok (memmove m dst src n).
Proof. intros Hm Hn x. rewrite memmove_at by done. case_decide; apply Hm. Qed.

Lemma load_memmove m dst src n :
  mem_ok m -> 0 <= n -> load_bytes (memmove m dst src n) dst n = load_bytes m src n.
Proof.
  intros. apply list_eq. intros i. unfold load_bytes. rewrite !list_lookup_fmap.
  destruct (decide (Z.of_nat i < n)).
  - rewrite !lookup_seqZ_lt by lia. simpl. rewrite memmove_at, decide_True by (done || lia).
    do 2 f_equal. lia.
  - by rewrite !lookup_seqZ_ge by lia.
Qed.

Lemma load_memmove_other m dst src n a k :
  mem_ok m -> 0 <= n -> a + k <= dst \/ dst + n <= a ->
  load_bytes (memmove m dst src n) a k = load_bytes m a k.
Proof.
  intros. apply load_bytes_ext. intros. by rewrite memmove_at, decide_False by (done || lia).
Qed.

(** ** Bounded C strings: [chars p i n] is the string at [p + i], cut at [n] bytes *)

Fixpoint chars (n : nat) (p : ptr) (i : Z) : list Z :=
  match n with
  | O => []
  | S n => if p i =? 0 then [] else p i :: chars n p (i + 1)
  end.

Lemma length_chars n p i : (length (chars n p i) <= n)%nat.
Proof.
  revert i. induction n as [|n IH]; intros i; simpl; [lia|].
  case_test; simpl; [lia|]. specialize (IH (i + 1)). lia.
Qed.

Lemma chars_nonzero n p i : Forall (fun c => c <> 0) (chars n p i).
Proof.
  revert i. induction n as [|n IH]; intros i; simpl; [constructor|].
  case_test; constructor; auto.
Qed.

(** [strncmp] is 0 exactly on equal strings. *)
Lemma strncmp_loop_zero n p q i :
  (forall j, 0 <= p j < 256) -> (forall j, 0 <= q j < 256) ->
  strncmp_loop n p q i = 0 <-> chars n p i = chars n q i.
Proof.
  intros Hp Hq. revert i. induction n as [|n IH]; intros i; cbn [strncmp_loop chars]; [done|].
  rewrite !u8_id by done.
  destruct (Z.eqb_spec (p i) 0), (Z.eqb_spec (q i) 0), (Z.eqb_spec (p i) (q i)); cbn [negb andb];
    try (split; [lia|done || (intros [=]; lia)]); try (split; [done|lia]).
  rewrite IH. split; [|naive_solver]. intros ->. by f_equal.
Qed.

Lemma strncmp_zero p q n :
  (forall j, 0 <= p j < 256) -> (forall j, 0 <= q j < 256) ->
  strncmp p q n = 0 <-> chars (Z.to_nat n) p 0 = chars (Z.to_nat n) q 0.
Proof. apply strncmp_loop_zero. Qed.

Lemma strncpy_loop_length n t i : length (strncpy_loop n t i) = n.
Proof.
  revert i. induction n as [|n IH]; intros i; [done|]. simpl.
  case_test; [by len|by rewrite IH].
Qed.

Lemma length_strncpy t n : length (strncpy t n) = Z.to_nat n.
Proof. apply strncpy_loop_length. Qed.
#[export] Hint Rewrite length_strncpy : len.

Lemma chars_cons n b l i :
  0 <= i -> chars n (bytes_ptr (b :: l)) (i + 1) = chars n (bytes_ptr l) i.
Proof.
  revert i. induction n as [|n IH]; intros i Hi; [done|]. cbn [chars].
  assert (bytes_ptr (b :: l) (i + 1) = bytes_ptr l i) as ->
    by (unfold bytes_ptr; replace (Z.to_nat (i + 1)) with (S (Z.to_nat i)) by lia; done).
  case_test; [done|]. f_equal. apply IH. lia.
Qed.

(** [strncpy] copies the string: the copy reads back as the original. *)
Lemma chars_strncpy_loop n t i : chars n (bytes_ptr (strncpy_loop n t i)) 0 = chars n t i.
Proof.
  revert i. induction n as [|n IH]; intros i; [done|]. cbn [strncpy_loop chars].
  assert (forall l, bytes_ptr (t i :: l) 0 = t i) as -> by done.
  case_test; [done|]. f_equal. rewrite (chars_cons n _ _ 0) by lia. apply IH.
Qed.

Lemma chars_strncpy t n : chars (Z.to_nat n) (bytes_ptr (strncpy t n)) 0 = chars (Z.to_nat n) t 0.
Proof. apply chars_strncpy_loop. Qed.

Lemma strncpy_bytes t n : (forall j, 0 <= t j < 256) -> Forall (fun b => 0 <= b < 256) (strncpy t n).
Proof.
  intros Ht. unfold strncpy.
  assert (forall k i, Forall (fun b => 0 <= b < 256) (strncpy_loop k t i)) as H; [|apply H].
  induction k as [|k IH]; intros i; [constructor|].
  cbn [strncpy_loop]. constructor; [apply Ht|]. case_test; [|apply IH].
  apply Forall_replicate. lia.
Qed.

(** [safestrcpy] stores at most [n] bytes: the string cut at [n - 1] bytes and a NUL. *)
Lemma safestrcpy_loop_length k t i : (1 <= length (safestrcpy_loop k t i) <= S k)%nat.
Proof.
  revert i. induction k as [|k IH]; intros i; simpl; [lia|]. case_test; simpl; [lia|].
  specialize (IH (i + 1)). lia.
Qed.

Lemma chars_safestrcpy_loop k t i :
  chars (S k) (bytes_ptr (safestrcpy_loop k t i)) 0 = chars k t i.
Proof.
  revert i. induction k as [|k IH]; intros i; [done|].
  remember (S k) as k1 eqn:Hk. cbn [safestrcpy_loop chars]. subst k1. cbn [safestrcpy_loop].
  assert (forall l, bytes_ptr (t i :: l) 0 = t i) as -> by done. cbn [chars].
  case_test; [done|]. f_equal. rewrite <- (IH (i + 1)).
  apply (chars_cons (S k) _ _ 0). lia.
Qed.

Lemma chars_safestrcpy t n :
  0 < n ->
  (length (safestrcpy t n) <= Z.to_nat n)%nat /\
  chars (Z.to_nat n) (bytes_ptr (safestrcpy t n)) 0 = chars (Z.to_nat (n - 1)) t 0.
Proof.
  intros Hn. unfold safestrcpy. rewrite (proj2 (Z.leb_gt _ _)) by lia.
  pose proof (safestrcpy_loop_length (Z.to_nat (n - 1)) t 0). split; [lia|].
  replace (Z.to_nat n) with (S (Z.to_nat (n - 1))) by lia. apply chars_safestrcpy_loop.
Qed.

(** [memcmp] is 0 exactly when the [n] bytes are the same. *)
Lemma memcmp_zero p q n :
  memcmp p q n = 0 <-> forall j, 0 <= j < n -> p j = q j.
Proof.
  unfold memcmp.
  assert (forall k i, memcmp_loop k p q i = 0 <-> forall j, i <= j < i + Z.of_nat k -> p j = q j) as H.
  { induction k as [|k IH]; intros i; cbn [memcmp_loop]; [split; [lia|done]|].
    case_test.
    - rewrite IH. split; intros H' j Hj; [|apply H'; lia].
      destruct (decide (j = i)) as [->|]; [done|]. apply H'. lia.
    - split; [lia|]. intros H'. specialize (H' i). lia. }
  rewrite H. split; intros H' j Hj; apply H'; lia.
Qed.

(** [strlen] finds the end of a string that ends within the fuel. *)
Lemma strlen_spec fuel p k :
  0 <= k < Z.of_nat fuel -> p k = 0 -> (forall j, 0 <= j < k -> p j <> 0) -> strlen fuel p = Some k.
Proof.
  intros Hk H0 Hn. unfold strlen.
  assert (forall f i, 0 <= i -> i <= k < i + Z.of_nat f -> strlen_loop f p i = Some k) as H;
    [|apply H; lia].
  induction f as [|f IH]; intros i Hi Hik; [lia|]. cbn [strlen_loop]. case_test.
  - f_equal. destruct (decide (i = k)); [done|]. exfalso. apply (Hn i); lia.
  - apply IH; [lia|]. destruct (decide (i = k)); [congruence|lia].
Qed.

(** ** Fields of a block of bytes *)

(** [l] with the bytes [new] stored from offset [off]. *)
Definition splice (off : nat) (new l : list Z) : list Z := take off l ++ new ++ drop (off + length new) l.

Definition get32 (l : list Z) (off : nat) : Z := of_le (take 4 (drop off l)).
Definition put32 (off : nat) (v : Z) (l : list Z) : list Z := splice off (le32 v) l.
Definition get16 (l : list Z) (off : nat) : Z := of_le (take 2 (drop off l)).
Definition put16 (off : nat) (v : Z) (l : list Z) : list Z := splice off (le16 v) l.

Lemma length_splice off new l : (off + length new <= length l)%nat -> length (splice off new l) = length l.
Proof. intros. unfold splice. len. Qed.

Lemma take_drop_splice off new l :
  (off + length new <= length l)%nat -> take (length new) (drop off (splice off new l)) = new.
Proof.
  intros. unfold splice. rewrite drop_app_length' by (rewrite length_take; lia).
  by rewrite take_app_length.
Qed.

Lemma lookup_splice_other off new l i :
  (off + length new <= length l)%nat -> (i < off \/ off + length new <= i)%nat -> splice off new l !! i = l !! i.
Proof.
  intros Hl Hi. unfold splice. destruct (decide (i < off)%nat).
  - rewrite lookup_app_l by (rewrite length_take; lia). by rewrite lookup_take_lt by lia.
  - rewrite lookup_app_r by (rewrite length_take; lia). rewrite length_take.
    rewrite lookup_app_r by lia. rewrite lookup_drop. f_equal. lia.
Qed.

Lemma take_drop_splice_other off new l k n :
  (off + length new <= length l)%nat -> (k + n <= off \/ off + length new <= k)%nat ->
  take n (drop k (splice off new l)) = take n (drop k l).
Proof.
  intros Hl Hk. apply list_eq. intros i. destruct (decide (i < n)%nat).
  - rewrite !lookup_take_lt, !lookup_drop by lia. apply lookup_splice_other; lia.
  - by rewrite !lookup_take_ge by lia.
Qed.

Lemma length_put32 off v l : (off + 4 <= length l)%nat -> length (put32 off v l) = length l.
Proof. intros. apply length_splice. done. Qed.

Lemma get_put32 off v l : (off + 4 <= length l)%nat -> get32 (put32 off v l) off = u32 v.
Proof.
  intros. unfold get32, put32. change 4%nat with (length (le32 v)). rewrite take_drop_splice by done. apply of_le32.
Qed.

Lemma get_put32_other off off' v l :
  (off + 4 <= length l)%nat -> (off' + 4 <= off \/ off + 4 <= off')%nat -> get32 (put32 off v l) off' = get32 l off'.
Proof. intros. unfold get32, put32. by rewrite take_drop_splice_other. Qed.

Lemma length_put16 off v l : (off + 2 <= length l)%nat -> length (put16 off v l) = length l.
Proof. intros. apply length_splice. done. Qed.

Lemma get_put16 off v l : (off + 2 <= length l)%nat -> get16 (put16 off v l) off = u16 v.
Proof.
  intros. unfold get16, put16. change 2%nat with (length (le16 v)). rewrite take_drop_splice by done. apply of_le16.
Qed.

Definition bytes_ok (l : list Z) : Prop := Forall (fun b => 0 <= b < 256) l.

Lemma splice_bytes off new l : bytes_ok new -> bytes_ok l -> bytes_ok (splice off new l).
Proof.
  intros Hn Hl. unfold bytes_ok, splice. rewrite !Forall_app. split; [by apply Forall_take|].
  split; [done|by apply Forall_drop].
Qed.

Lemma le32_bytes v : bytes_ok (le32 v).
Proof. repeat constructor; apply byte_of_bound. Qed.

Lemma le16_bytes v : bytes_ok (le16 v).
Proof. repeat constructor; apply byte_of_bound. Qed.

Lemma get32_bound l off : bytes_ok l -> 0 <= get32 l off < 2 ^ 32.
Proof.
  intros Hl. unfold get32.
  pose proof (of_le_bound (take 4 (drop off l)) ltac:(by apply Forall_take, Forall_drop)) as H.
  rewrite length_take in H. split; [lia|].
  apply (Z.lt_le_trans _ (256 ^ Z.of_nat (4 `min` length (drop off l)))); [lia|].
  change (2 ^ 32) with (256 ^ 4). apply Z.pow_le_mono_r; lia.
Qed.
