(* ===== verification/Mp.v ===== *)
(** * Finding the processors (src/mp.h, src/mp.c)

    [mpinit] reads the tables the firmware has left in memory: the processors,
    the I/O APIC and the address of the local APICs.  An address of the tables
    is a 32-bit integer; a structure is read at the offsets of its fields. *)

From Stdlib Require Import ZArith Lia String.
From stdpp Require Import prelude numbers strings option gmap list.
From S2P Require Import Prelude Kernel Mem.

Definition NCPU : Z := 8.
Definition MPPROC : Z := 0x00.
Definition MPBUS : Z := 0x01.
Definition MPIOAPIC : Z := 0x02.
Definition MPIOINTR : Z := 0x03.
Definition MPLINTR : Z := 0x04.

(** The sizes of the structures. *)
Definition sizeof_mp : Z := 16.
Definition sizeof_mpconf : Z := 44.
Definition sizeof_mpproc : Z := 20.
Definition sizeof_mpioapic : Z := 8.

(** Memory, the variables [cpus] (the identifiers of the local APICs), [ncpu],
    [ioapicid] and [lapic], and the interrupt mode register. *)
Record mpst : Type := mkMpst {
  mp_mem : mem;
  cpus : list Z;
  ncpu : Z;
  ioapicid : Z;
  lapic : Z;
  imcr_sel : Z;
  imcr : Z }.

Definition set_mp_mem v s := mkMpst v (cpus s) (ncpu s) (ioapicid s) (lapic s) (imcr_sel s) (imcr s).
Definition set_cpus v s := mkMpst (mp_mem s) v (ncpu s) (ioapicid s) (lapic s) (imcr_sel s) (imcr s).
Definition set_ncpu v s := mkMpst (mp_mem s) (cpus s) v (ioapicid s) (lapic s) (imcr_sel s) (imcr s).
Definition set_ioapicid v s := mkMpst (mp_mem s) (cpus s) (ncpu s) v (lapic s) (imcr_sel s) (imcr s).
Definition set_lapic v s := mkMpst (mp_mem s) (cpus s) (ncpu s) (ioapicid s) v (imcr_sel s) (imcr s).
Definition set_imcr_sel v s := mkMpst (mp_mem s) (cpus s) (ncpu s) (ioapicid s) (lapic s) v (imcr s).
Definition set_imcr v s := mkMpst (mp_mem s) (cpus s) (ncpu s) (ioapicid s) (lapic s) (imcr_sel s) v.

Definition mload16 (m : mem) (a : Z) : Z := of_le (load_bytes m a 2).

Definition sum (m : mem) (addr len : Z) : Z := u8 (foldl (fun s i => s + m (addr + i)) 0 (seqZ 0 len)).

(** The loop of [mpsearch1], at most [fuel] rounds; 0 if there is none. *)
Fixpoint mpsearch1_loop (fuel : nat) (m : mem) (p e : Z) : Z :=
  match fuel with
  | O => 0
  | S fuel =>
      if p <? e then
        if (memcmp (at_addr m p) (bytes_ptr (str "_MP_")) 4 =? 0) && (sum m p sizeof_mp =? 0) then p
        else mpsearch1_loop fuel m (u32 (p + sizeof_mp)) e
      else 0
  end.
Definition mpsearch1 (m : mem) (a len : Z) : Z :=
  let addr := P2V a in
  mpsearch1_loop (Z.to_nat (len / sizeof_mp + 1)) m addr (u32 (addr + len)).

Definition mpsearch (m : mem) : Z :=
  let bda := P2V 0x400 in
  let p := Z.shiftl (Z.lor (Z.shiftl (m (bda + 0x0F)) 8) (m (bda + 0x0E))) 4 in
  let first :=
    if negb (p =? 0) then mpsearch1 m p 1024
    else
      let p := (Z.lor (Z.shiftl (m (bda + 0x14)) 8) (m (bda + 0x13))) * 1024 in
      mpsearch1 m (u32 (p - 1024)) 1024 in
  if negb (first =? 0) then first else mpsearch1 m 0xF0000 0x10000.

(** The addresses of the two structures, if both are good. *)
Definition mpconfig (m : mem) : option (Z * Z) :=
  let mp := mpsearch m in
  if (mp =? 0) || (load32 m (mp + 4) =? 0) then None
  else
    let conf := P2V (load32 m (mp + 4)) in
    if negb (memcmp (at_addr m conf) (bytes_ptr (str "PCMP")) 4 =? 0) then None
    else
      let version := m (conf + 6) in
      if negb (version =? 1) && negb (version =? 4) then None
      else if negb (sum m conf (mload16 m (conf + 4)) =? 0) then None
      else Some (mp, conf).

(** The [for] loop of [mpinit].  In the [default] case [break] leaves the
    [switch], and the loop goes on with the same [p]. *)
Fixpoint mpinit_loop (fuel : nat) (p e ismp : Z) : K mpst Z :=
  match fuel with
  | O => spin
  | S fuel =>
      if p <? e then
        m ← gets mp_mem;
        let type := m p in
        if type =? MPPROC then
          n ← gets ncpu;
          when (n <? NCPU)
            (modify (fun s => set_cpus (<[Z.to_nat (ncpu s) := m (p + 1)]> (cpus s)) s);;
             modify (fun s => set_ncpu (ncpu s + 1) s));;
          mpinit_loop fuel (u32 (p + sizeof_mpproc)) e ismp
        else if type =? MPIOAPIC then
          modify (set_ioapicid (m (p + 1)));;
          mpinit_loop fuel (u32 (p + sizeof_mpioapic)) e ismp
        else if (type =? MPBUS) || (type =? MPIOINTR) || (type =? MPLINTR) then
          mpinit_loop fuel (u32 (p + 8)) e ismp
        else mpinit_loop fuel p e 0
      else mret ismp
  end.

(** [fuel] bounds the rounds of the loop. *)
Definition mpinit (fuel : nat) : K mpst unit :=
  m ← gets mp_mem;
  match mpconfig m with
  | None => panic "Expect to run on an SMP"
  | Some (mp, conf) =>
      modify (set_lapic (load32 m (conf + 36)));;
      ismp ← mpinit_loop fuel (u32 (conf + sizeof_mpconf)) (u32 (conf + mload16 m (conf + 4))) 1;
      if ismp =? 0 then panic "Didn't find a suitable machine"
      else
        when (negb (m (mp + 12) =? 0))
          (modify (set_imcr_sel 0x70);;
           modify (fun s => set_imcr (Z.lor (imcr s) 1) s))
  end.

(** ** The configuration table *)

(** The entries of the table; the bytes nobody reads are [rest]. *)
Inductive mpentry : Type :=
  | Proc (apicid : Z) (rest : list Z)
  | Ioapic (apicno : Z) (rest : list Z)
  | Other (type : Z) (rest : list Z).

Definition entry_bytes (e : mpentry) : list Z :=
  match e with
  | Proc a r => MPPROC :: a :: r
  | Ioapic a r => MPIOAPIC :: a :: r
  | Other t r => t :: r
  end.

Definition entry_ok (e : mpentry) : Prop :=
  match e with
  | Proc a r => length r = 18%nat
  | Ioapic a r => length r = 6%nat
  | Other t r => (t = MPBUS \/ t = MPIOINTR \/ t = MPLINTR) /\ length r = 7%nat
  end.

(** What an entry means: the first eight processors are taken, and the last
    I/O APIC. *)
Definition add_entry (s : mpst) (e : mpentry) : mpst :=
  match e with
  | Proc a _ => if ncpu s <? NCPU then set_ncpu (ncpu s + 1) (set_cpus (<[Z.to_nat (ncpu s) := a]> (cpus s)) s) else s
  | Ioapic a _ => set_ioapicid a s
  | Other _ _ => s
  end.

(** The bytes [l] are in memory at [a]. *)
Definition bytes_at (m : mem) (a : Z) (l : list Z) : Prop := forall i x, l !! i = Some x -> m (a + Z.of_nat i) = x.

Lemma bytes_at_app m a l l' : bytes_at m a (l ++ l') <-> bytes_at m a l /\ bytes_at m (a + Z.of_nat (length l)) l'.
Proof.
  split.
  - intros H. split; intros i x Hx; [apply H; by apply lookup_app_l_Some|].
    rewrite <- Z.add_assoc, <- Nat2Z.inj_add. apply H. rewrite lookup_app_r by lia. rewrite <- Hx. f_equal. lia.
  - intros [H1 H2] i x [Hx|[Hl Hx]]%lookup_app_Some; [by apply H1|]. rewrite <- (H2 _ _ Hx). f_equal. lia.
Qed.

Lemma add_entry_mem s e : mp_mem (add_entry s e) = mp_mem s.
Proof. destruct e; cbn; [|done..]. by case_match. Qed.

(** Known entries are read one after the other. *)
Lemma mpinit_loop_run es : forall fuel p e ismp h s, Forall entry_ok es ->
  bytes_at (mp_mem s) p (concat (entry_bytes <$> es)) -> 0 <= p -> p + Z.of_nat (length (concat (entry_bytes <$> es))) <= e < 2 ^ 32 ->
  mpinit_loop (length es + fuel) p e ismp h s =
  mpinit_loop fuel (p + Z.of_nat (length (concat (entry_bytes <$> es)))) e ismp h (foldl add_entry s es).
Proof.
  induction es as [|x es IH]; intros fuel p e ismp h s Hok Hm Hp Hb; cbn [fmap list_fmap concat length] in *; [by rewrite Z.add_0_r|].
  apply Forall_cons in Hok as [He Hok]. rewrite length_app in *. apply bytes_at_app in Hm as [Hm1 Hm2].
  assert (8 <= Z.of_nat (length (entry_bytes x))) as Hl by (destruct x; cbn in *; lia).
  cbn [Nat.add mpinit_loop]. rewrite (proj2 (Z.ltb_lt _ _)) by lia. repeat kstep_base. pose proof (add_entry_mem s x) as Em.
  specialize (IH fuel (p + Z.of_nat (length (entry_bytes x))) e ismp h (add_entry s x) Hok ltac:(by rewrite Em) ltac:(lia) ltac:(lia)).
  rewrite <- Z.add_assoc, <- Nat2Z.inj_add in IH. cbn [foldl].
  assert (forall y l, entry_bytes x = y :: l -> mp_mem s p = y) as Htype.
  { intros y l E. rewrite <- (Hm1 0%nat y) by (by rewrite E). f_equal. lia. }
  assert (forall y z l, entry_bytes x = y :: z :: l -> mp_mem s (p + 1) = z) as Hsnd by (intros y z l E; exact (Hm1 1%nat z ltac:(by rewrite E))).
  destruct x as [a r|a r|t r]; cbn [entry_bytes entry_ok] in *.
  - rewrite (Htype _ _ eq_refl), (Hsnd _ _ _ eq_refl). change (MPPROC =? MPPROC) with true. cbv iota. repeat kstep_base.
    cbn [length] in *. rewrite He in *. rewrite u32_id by (unfold sizeof_mpproc; lia).
    cbn [add_entry] in *. unfold sizeof_mpproc. destruct (ncpu s <? NCPU); cbn [when]; [repeat kstep_base|rewrite mret_run]; exact IH.
  - rewrite (Htype _ _ eq_refl), (Hsnd _ _ _ eq_refl). change (MPIOAPIC =? MPPROC) with false. change (MPIOAPIC =? MPIOAPIC) with true. cbv iota. repeat kstep_base.
    cbn [length] in *. rewrite He in *. rewrite u32_id by (unfold sizeof_mpioapic; lia). exact IH.
  - destruct He as [Ht He]. rewrite (Htype _ _ eq_refl). cbn [length] in *. rewrite He in *.
    assert (u32 (p + 8) = p + Z.of_nat 8) as Hu by (rewrite u32_id; lia). destruct Ht as [->|[->| ->]]; cbn -[u32 mpinit_loop Z.of_nat Nat.add]; rewrite Hu; exact IH.
Qed.

Lemma mpinit_loop_end fuel p e ismp h s : (0 < fuel)%nat -> e <= p -> mpinit_loop fuel p e ismp h s = Ret ismp h s.
Proof. intros Hf Hp. destruct fuel; [lia|]. cbn [mpinit_loop]. by rewrite (proj2 (Z.ltb_ge _ _)). Qed.

(** An entry of a type that is not known is read again and again. *)
Lemma mpinit_loop_unknown fuel p e ismp h s : p < e -> 4 < mp_mem s p -> mpinit_loop fuel p e ismp h s = Spin.
Proof.
  intros Hp Ht. revert ismp. induction fuel as [|fuel IH]; intros ismp; [done|]. cbn [mpinit_loop]. rewrite (proj2 (Z.ltb_lt _ _)) by done.
  repeat kstep_base. unfold MPPROC, MPIOAPIC, MPBUS, MPIOINTR, MPLINTR. rewrite !(proj2 (Z.eqb_neq (mp_mem s p) _)) by lia. cbn [orb]. apply IH.
Qed.

(** More rounds do not change a result. *)
Lemma mpinit_loop_more k fuel p e ismp h s : mpinit_loop (k + fuel) p e ismp h s = Spin -> mpinit_loop fuel p e ismp h s = Spin.
Proof.
  revert p ismp s. induction fuel as [|fuel IH]; intros p ismp s; [done|]. rewrite Nat.add_succ_r. cbn [mpinit_loop].
  case_match; [|done]. repeat kstep_base. case_match.
  { repeat kstep_base. destruct (ncpu s <? NCPU); cbn [when]; [repeat kstep_base|rewrite !mret_run]; apply IH. }
  case_match; [repeat kstep_base; apply IH|]. case_match; apply IH.
Qed.

(** ** mpinit *)

Lemma bytes_at_load m a l : bytes_at m a l -> load_bytes m a (Z.of_nat (length l)) = l.
Proof.
  intros H. apply list_eq. intros i. unfold load_bytes. rewrite list_lookup_fmap. destruct (l !! i) as [x|] eqn:E.
  - pose proof (lookup_lt_Some _ _ _ E). rewrite lookup_seqZ_lt by lia. cbn. f_equal. by rewrite <- (H i x E).
  - apply lookup_ge_None in E. by rewrite lookup_seqZ_ge by lia.
Qed.

Lemma sum_bytes m a l : bytes_at m a l -> sum m a (Z.of_nat (length l)) = u8 (foldl Z.add 0 l).
Proof.
  intros H. unfold sum. f_equal. assert (forall js acc, foldl (fun s i => s + m (a + i)) acc js = foldl Z.add acc ((fun i => m (a + i)) <$> js)) as E.
  { induction js as [|i js IH]; intros acc; [done|]. apply IH. }
  rewrite E. f_equal. rewrite <- (bytes_at_load m a l H) at 2. unfold load_bytes. apply list_eq. intros i. rewrite !list_lookup_fmap.
  destruct (decide (i < length l)%nat); [rewrite !lookup_seqZ_lt by lia|rewrite !lookup_seqZ_ge by lia; done]. cbn. by rewrite Z.add_0_l.
Qed.

Lemma memcmp_bytes m a l : bytes_at m a l -> memcmp (at_addr m a) (bytes_ptr l) (Z.of_nat (length l)) = 0.
Proof.
  intros H. apply memcmp_zero. intros j Hj. unfold at_addr, bytes_ptr. destruct (lookup_lt_is_Some_2 l (Z.to_nat j)) as [x Hx]; [lia|].
  rewrite (nth_lookup_Some _ _ _ _ Hx). rewrite <- (H _ _ Hx). f_equal. lia.
Qed.

(** A table with the entries [body]: its length, version and checksum, and the
    address of the local APICs; the other fields are not read. *)
Definition mp_table (len ver chk : Z) (product oem : list Z) (lap : Z) (x : list Z) (body : list Z) : list Z :=
  str "PCMP" ++ le16 len ++ [ver; chk] ++ product ++ oem ++ le32 lap ++ x ++ body.

Record good_table (m : mem) (conf ver lap : Z) (body : list Z) : Prop := mkGood {
  gt_bytes : exists chk product oem x, length product = 20%nat /\ length oem = 8%nat /\ length x = 4%nat /\
    let t := mp_table (44 + Z.of_nat (length body)) ver chk product oem lap x body in
    bytes_at m conf t /\ u8 (foldl Z.add 0 t) = 0;
  gt_ver : ver = 1 \/ ver = 4;
  gt_lap : 0 <= lap < 2 ^ 32;
  gt_conf : 0 <= conf;
  gt_len : 44 + Z.of_nat (length body) < 2 ^ 16;
  gt_end : conf + 44 + Z.of_nat (length body) < 2 ^ 32 }.

(** What [mpconfig] and [mpinit] read in the header. *)
Lemma table_parts m conf ver lap body : good_table m conf ver lap body ->
  let len := 44 + Z.of_nat (length body) in
  memcmp (at_addr m conf) (bytes_ptr (str "PCMP")) 4 = 0 /\ m (conf + 6) = ver /\ mload16 m (conf + 4) = len /\
  sum m conf len = 0 /\ load32 m (conf + 36) = lap /\ bytes_at m (conf + 44) body.
Proof.
  intros [(chk & product & oem & x & L1 & L2 & L3 & Ht & Hsum) _ Hlap _ Hlen _] len. cbv zeta in Ht, Hsum. fold len in Ht, Hsum.
  pose proof (sum_bytes _ _ _ Ht) as Hs. rewrite Hsum in Hs. unfold mp_table in *.
  replace (Z.of_nat (length _)) with len in Hs by (unfold len; rewrite !length_app, L1, L2, L3; change (length (str "PCMP")) with 4%nat; change (length (le16 _)) with 2%nat; change (length (le32 _)) with 4%nat; cbn [length]; lia).
  apply bytes_at_app in Ht as [T1 Ht]. change (Z.of_nat (length (str "PCMP"))) with 4 in Ht.
  apply bytes_at_app in Ht as [T2 Ht]. change (Z.of_nat (length (le16 len))) with 2 in Ht. rewrite <- Z.add_assoc in Ht. change (4 + 2) with 6 in Ht.
  apply bytes_at_app in Ht as [T3 Ht]. change (Z.of_nat (length [ver; chk])) with 2 in Ht. rewrite <- Z.add_assoc in Ht. change (6 + 2) with 8 in Ht.
  apply bytes_at_app in Ht as [_ Ht]. rewrite L1, <- Z.add_assoc in Ht. change (8 + Z.of_nat 20) with 28 in Ht.
  apply bytes_at_app in Ht as [_ Ht]. rewrite L2, <- Z.add_assoc in Ht. change (28 + Z.of_nat 8) with 36 in Ht.
  apply bytes_at_app in Ht as [T4 Ht]. change (Z.of_nat (length (le32 lap))) with 4 in Ht. rewrite <- Z.add_assoc in Ht. change (36 + 4) with 40 in Ht.
  apply bytes_at_app in Ht as [_ T5]. rewrite L3, <- Z.add_assoc in T5. change (40 + Z.of_nat 4) with 44 in T5.
  split_and!; [exact (memcmp_bytes _ _ _ T1)|rewrite <- (T3 0%nat ver eq_refl); f_equal; lia| |exact Hs| |exact T5].
  - unfold mload16. pose proof (bytes_at_load _ _ _ T2) as E. change (Z.of_nat (length (le16 len))) with 2 in E. rewrite E, of_le16, u16_id; [done|]. unfold len. lia.
  - unfold load32. pose proof (bytes_at_load _ _ _ T4) as E. change (Z.of_nat (length (le32 lap))) with 4 in E. rewrite E, of_le32, u32_id; [done|lia].
Qed.

Lemma mpconfig_run m phys ver lap body : mpsearch m <> 0 -> load32 m (mpsearch m + 4) = phys -> phys <> 0 -> good_table m (P2V phys) ver lap body ->
  mpconfig m = Some (mpsearch m, P2V phys).
Proof.
  intros H1 H2 H3 G. destruct (table_parts _ _ _ _ _ G) as (P1 & P2 & P3 & P4 & _). unfold mpconfig. rewrite H2.
  rewrite (proj2 (Z.eqb_neq _ _) H1), (proj2 (Z.eqb_neq _ _) H3). cbn [orb]. rewrite P1, P2, P3, P4. cbn [Z.eqb negb].
  destruct (gt_ver _ _ _ _ _ G) as [-> | ->]; done.
Qed.

Lemma entries_length es : Forall entry_ok es -> (8 * length es <= length (concat (entry_bytes <$> es)))%nat.
Proof.
  induction 1 as [|e es He _ IH]; [done|]. cbn [fmap list_fmap concat length]. rewrite length_app. destruct e; cbn in *; lia.
Qed.

Section table.
Context (s : mpst) (ver lap : Z) (es : list mpentry) (tail : list Z).
Let m := mp_mem s.
Let conf := P2V (load32 m (mpsearch m + 4)).
Let body := concat (entry_bytes <$> es).
Hypothesis Hmp : mpsearch m <> 0.
Hypothesis Haddr : load32 m (mpsearch m + 4) <> 0.
Hypothesis Htable : good_table m conf ver lap (body ++ tail).
Hypothesis Hes : Forall entry_ok es.

(** The loop, past the known entries. *)
Lemma mpinit_entries fuel h :
  mpinit_loop (length es + fuel) (u32 (conf + sizeof_mpconf)) (u32 (conf + mload16 m (conf + 4))) 1 h (set_lapic lap s) =
  mpinit_loop fuel (conf + 44 + Z.of_nat (length body)) (conf + 44 + Z.of_nat (length body + length tail)) 1 h (foldl add_entry (set_lapic lap s) es).
Proof.
  destruct (table_parts _ _ _ _ _ Htable) as (_ & _ & P3 & _ & _ & P6). apply bytes_at_app in P6 as [P6 _].
  pose proof (gt_conf _ _ _ _ _ Htable). pose proof (gt_len _ _ _ _ _ Htable) as G5. pose proof (gt_end _ _ _ _ _ Htable) as G6. rewrite length_app in P3, G5, G6.
  unfold sizeof_mpconf. rewrite P3, !u32_id by lia. rewrite Z.add_assoc. rewrite (mpinit_loop_run es) by (done || (fold body; lia)). done.
Qed.

(** A table with nothing but known entries. *)
Lemma mpinit_run fuel h : tail = [] -> (Z.to_nat 8192 <= fuel)%nat ->
  let s1 := foldl add_entry (set_lapic lap s) es in
  mpinit fuel h s = Ret tt h (if m (mpsearch m + 12) =? 0 then s1 else set_imcr (Z.lor (imcr s1) 1) (set_imcr_sel 0x70 s1)).
Proof.
  intros Ht Hf s1. destruct (table_parts _ _ _ _ _ Htable) as (_ & _ & _ & _ & P5 & _). pose proof (entries_length es Hes) as Hn. fold body in Hn.
  pose proof (gt_len _ _ _ _ _ Htable) as G5. rewrite length_app in G5.
  unfold mpinit. repeat kstep_base. fold m. rewrite (mpconfig_run m _ _ _ _ Hmp eq_refl Haddr Htable). fold conf. repeat kstep_base. fold m.
  replace fuel with (length es + (fuel - length es))%nat by lia. rewrite P5, mpinit_entries.
  rewrite mpinit_loop_end by (rewrite ?Ht; cbn [length]; lia). cbn [Z.eqb]. fold s1. destruct (m (mpsearch m + 12) =? 0); [done|]. cbn [negb when]. by repeat kstep_base.
Qed.

(** A table with an unknown entry. *)
Lemma mpinit_stuck t r fuel h : tail = t :: r -> 4 < t -> mpinit fuel h s = Spin.
Proof.
  intros Ht H4. destruct (table_parts _ _ _ _ _ Htable) as (_ & _ & _ & _ & P5 & P6). apply bytes_at_app in P6 as [_ P7].
  unfold mpinit. repeat kstep_base. fold m. rewrite (mpconfig_run m _ _ _ _ Hmp eq_refl Haddr Htable). fold conf. repeat kstep_base. fold m.
  rewrite P5, (mpinit_loop_more (length es)); [done|]. rewrite mpinit_entries, mpinit_loop_unknown; [done|rewrite Ht; cbn [length]; lia|].
  assert (forall l s0, mp_mem (foldl add_entry s0 l) = mp_mem s0) as Em by (induction l as [|e l IH]; intros s0; [done|]; cbn; by rewrite IH, add_entry_mem).
  rewrite Em. cbn [mp_mem set_lapic]. rewrite Ht in P7. pose proof (P7 0%nat t eq_refl) as E. rewrite Z.add_0_r in E. fold m. by rewrite E.
Qed.
End table.

(** C35: [mpinit] reads the firmware's table.  When [mpsearch] finds a pointer to
    a good table of known entries, the processors are the first eight the
    table lists, in its order, the I/O APIC is the last one it lists and
    [lapic] has the address it gives; interrupts are routed away from the old
    controller if the machine has the register for that.  A round of the loop
    passes at least 8 bytes of the table, of 65535 at most, so that 8192 rounds
    are enough.  When the table has an entry of another type, [mpinit] never
    ends, however many rounds it is given: the [break] of the [default]
    case leaves the [switch] only, and the entry is read again for ever instead
    of leading to the panic that follows the loop. *)
Theorem mpinit_reads_table s ver lap es tail :
  let m := mp_mem s in
  mpsearch m <> 0 -> load32 m (mpsearch m + 4) <> 0 ->
  good_table m (P2V (load32 m (mpsearch m + 4))) ver lap (concat (entry_bytes <$> es) ++ tail) -> Forall entry_ok es ->
  (tail = [] -> forall fuel, (Z.to_nat 8192 <= fuel)%nat ->
   let s1 := foldl add_entry (set_lapic lap s) es in
   mpinit fuel [] s = Ret tt [] (if m (mpsearch m + 12) =? 0 then s1 else set_imcr (Z.lor (imcr s1) 1) (set_imcr_sel 0x70 s1))) /\
  (forall t r, tail = t :: r -> 4 < t -> forall fuel, mpinit fuel [] s = Spin).
Proof.
  intros m H1 H2 G Hes. split; [intros Ht fuel Hf; by eapply (mpinit_run s ver lap es tail)|intros t r Ht H4 fuel; by eapply (mpinit_stuck s ver lap es tail)].
Qed.

(** ** The part of memory that matters *)

Lemma sum_ext m m' a n : (forall x, a <= x < a + n -> m' x = m x) -> sum m' a n = sum m a n.
Proof.
  intros H. unfold sum. f_equal. assert (forall js acc, (forall j, j ∈ js -> 0 <= j < n) -> foldl (fun s i => s + m' (a + i)) acc js = foldl (fun s i => s + m (a + i)) acc js) as E.
  { induction js as [|j js IH]; intros acc Hj; [done|]. cbn. rewrite H by (specialize (Hj j ltac:(by left)); lia). apply IH. intros i Hi. apply Hj. by right. }
  apply E. intros j Hj%elem_of_seqZ. lia.
Qed.

Lemma memcmp_ext p p' q n : (forall i, 0 <= i < n -> p' i = p i) -> memcmp p' q n = memcmp p q n.
Proof.
  intros H. unfold memcmp. assert (forall k i, 0 <= i -> i + Z.of_nat k <= n -> memcmp_loop k p' q i = memcmp_loop k p q i) as E.
  { induction k as [|k IH]; intros i Hi Hk; [done|]. cbn [memcmp_loop]. rewrite H, IH by lia. done. }
  destruct (decide (0 <= n)); [apply E; lia|]. by replace (Z.to_nat n) with 0%nat by lia.
Qed.

Lemma mpsearch1_frame m m' a len : (forall x, KERNBASE + a <= x < KERNBASE + a + len + 16 -> m' x = m x) -> 0 <= a -> 0 <= len -> a + len < 2 ^ 30 ->
  mpsearch1 m' a len = mpsearch1 m a len /\ (mpsearch1 m a len <> 0 -> KERNBASE + a <= mpsearch1 m a len < KERNBASE + a + len).
Proof.
  intros Hm Ha Hl Hb. unfold mpsearch1. assert (P2V a = KERNBASE + a) as -> by (unfold P2V, KERNBASE; rewrite u32_id by lia; lia).
  unfold KERNBASE in *. rewrite (u32_id (_ + len)) by lia. set (lo := 0x80000000 + a) in *.
  assert (forall fuel p, lo <= p -> mpsearch1_loop fuel m' p (lo + len) = mpsearch1_loop fuel m p (lo + len) /\
    (mpsearch1_loop fuel m p (lo + len) <> 0 -> lo <= mpsearch1_loop fuel m p (lo + len) < lo + len)) as E; [|by apply E].
  induction fuel as [|fuel IH]; intros p Hp; [done|]. cbn [mpsearch1_loop]. destruct (Z.ltb_spec p (lo + len)); [|done].
  rewrite (memcmp_ext (at_addr m p)) by (intros i Hi; apply Hm; lia). rewrite (sum_ext m) by (unfold sizeof_mp; intros x Hx; apply Hm; lia).
  case_match; [done|]. apply IH. unfold sizeof_mp. rewrite u32_id by lia. lia.
Qed.

(** The segment of the extended BIOS data area, as the BIOS has left it. *)
Definition ebda (m : mem) : Z := Z.lor (Z.shiftl (m (P2V 0x400 + 0x0F)) 8) (m (P2V 0x400 + 0x0E)).

(** The search looks below 1.0625 megabytes when there is such an area. *)
Lemma mpsearch_frame m m' : (forall x, KERNBASE <= x < KERNBASE + 0x110000 -> m' x = m x) -> 0 < ebda m < 2 ^ 16 ->
  mpsearch m' = mpsearch m /\ (mpsearch m <> 0 -> KERNBASE <= mpsearch m < KERNBASE + 0x110000 - 16).
Proof.
  intros Hm He. unfold mpsearch. cbv zeta. rewrite !(Hm (P2V 0x400 + 0x0F)), !(Hm (P2V 0x400 + 0x0E)) by (vm_compute; split; congruence). fold (ebda m).
  rewrite Z.shiftl_mul_pow2 by lia. rewrite (proj2 (Z.eqb_neq (ebda m * 2 ^ 4) 0)) by lia. cbn [negb].
  destruct (mpsearch1_frame m m' (ebda m * 2 ^ 4) 1024) as [-> B1]; [intros x Hx; apply Hm; lia|lia..|].
  destruct (mpsearch1_frame m m' 0xF0000 0x10000) as [-> B2]; [intros x Hx; apply Hm; lia|lia..|].
  split; [done|]. intros Hne. case_match eqn:E; [|specialize (B2 Hne); unfold KERNBASE in *; lia]. specialize (B1 Hne). unfold KERNBASE in *. lia.
Qed.

Lemma good_table_frame m m' conf ver lap body : good_table m conf ver lap body ->
  (forall x, conf <= x < conf + 44 + Z.of_nat (length body) -> m' x = m x) -> good_table m' conf ver lap body.
Proof.
  intros [(chk & product & oem & x & L1 & L2 & L3 & Ht & Hs) G2 G3 G4 G5 G6] Hm. split; try done. exists chk, product, oem, x. split; [done|]. split; [done|]. split; [done|]. cbv zeta. split; [|done].
  intros i y Hy. rewrite <- (Ht i y Hy). apply Hm. apply lookup_lt_Some in Hy. unfold mp_table in Hy. rewrite !length_app, L1, L2, L3 in Hy.
  change (length (str "PCMP")) with 4%nat in Hy. change (length (le16 _)) with 2%nat in Hy. change (length (le32 _)) with 4%nat in Hy. cbn [length] in Hy. lia.
Qed.

(** ** An example: two processors and an I/O APIC *)

Lemma load_bytes_at m a l : load_bytes m a (Z.of_nat (length l)) = l -> bytes_at m a l.
Proof.
  intros H i x Hx. pose proof (lookup_lt_Some _ _ _ Hx) as Hi. rewrite <- H in Hx. unfold load_bytes in Hx.
  rewrite list_lookup_fmap, lookup_seqZ_lt in Hx by lia. by injection Hx.
Qed.

Definition mp_entries : list mpentry := [Proc 0 (replicate 18 0); Proc 1 (replicate 18 0); Ioapic 2 (replicate 6 0)].
Definition mp_body : list Z := concat (entry_bytes <$> mp_entries).
Definition mp_bytes (chk : Z) : list Z := mp_table 92 4 chk (replicate 20 0) (replicate 8 0) 0xfee00000 (replicate 4 0) mp_body.
Definition mp_chk : Z := u8 (- foldl Z.add 0 (mp_bytes 0)).
Definition mp_float (chk : Z) : list Z := str "_MP_" ++ le32 0x1000 ++ [1; 4; chk; 0; 0; 0; 0; 0].
Definition mp_memory : mem :=
  store_bytes (store_bytes (fun _ => 0) (P2V 0xF0000) (mp_float (u8 (- foldl Z.add 0 (mp_float 0))))) (P2V 0x1000) (mp_bytes mp_chk).
Definition mp_start : mpst := mkMpst mp_memory (replicate 8 0) 0 0 0 0 0.

Lemma mp_memory_table : good_table mp_memory (P2V 0x1000) 4 0xfee00000 mp_body.
Proof.
  split; [|by right|lia|vm_compute; discriminate|vm_compute; reflexivity|vm_compute; reflexivity].
  exists mp_chk, (replicate 20 0), (replicate 8 0), (replicate 4 0). split; [reflexivity|]. split; [reflexivity|]. split; [reflexivity|].
  split; [apply load_bytes_at|]; vm_compute; reflexivity.
Qed.

Lemma mpinit_reads_table_witness : exists s, mpinit (Z.to_nat 8192) [] mp_start = Ret tt [] s /\ ncpu s = 2 /\ take 2 (cpus s) = [0; 1] /\ ioapicid s = 2 /\ lapic s = 0xfee00000.
Proof.
  assert (mpsearch mp_memory = P2V 0xF0000) as Hs by (vm_compute; reflexivity).
  assert (load32 mp_memory (P2V 0xF0000 + 4) = 0x1000) as Hl by (vm_compute; reflexivity).
  destruct (mpinit_reads_table mp_start 4 0xfee00000 mp_entries []) as [H _]; change (mp_mem mp_start) with mp_memory in *; rewrite ?Hs, ?Hl.
  - discriminate.
  - discriminate.
  - exact mp_memory_table.
  - repeat constructor.
  - specialize (H eq_refl _ (le_n _)). rewrite Hs in H. eexists. split; [exact H|]. vm_compute. repeat split.
Defined.
