(* ===== verification/Gates.v ===== *)
(** * Segments and gates (src/mmu.h, seginit and the task state of switchuvm in
    src/vm.c, tvinit and idtinit of src/trap.c, lgdt, lidt and ltr of src/x86.h)

    The tables the processor reads: descriptors are records of bit fields, as
    in mmu.h, and the processor sees the 64 bits they make up.  The theorems say
    what it finds there. *)

From Stdlib Require Import ZArith Lia String.
From stdpp Require Import prelude numbers strings option list.
From S2P Require Import Prelude Kernel.

Definition SEG_KCODE : Z := 1.
Definition SEG_KDATA : Z := 2.
Definition SEG_UCODE : Z := 3.
Definition SEG_UDATA : Z := 4.
Definition SEG_TSS : Z := 5.
Definition NSEGS : nat := 6.
Definition DPL_USER : Z := 3.
Definition STA_X : Z := 0x8.
Definition STA_W : Z := 0x2.
Definition STA_R : Z := 0x2.
Definition STS_T32A : Z := 0x9.
Definition STS_IG32 : Z := 0xE.
Definition STS_TG32 : Z := 0xF.
Definition T_SYSCALL : Z := 64.
Definition T_IRQ0 : Z := 32.
Definition IRQ_TIMER : Z := 0.
Definition IRQ_KBD : Z := 1.
Definition IRQ_COM1 : Z := 4.
Definition IRQ_IDE : Z := 14.
Definition IRQ_ERROR : Z := 19.
Definition IRQ_SPURIOUS : Z := 31.

(** ** Bit fields

    A structure of bit fields is the list of its fields, with their widths,
    from the low bits up; a value stored in a field is cut to its width. *)

Definition field (w v : Z) : Z := v mod 2 ^ w.
Fixpoint pack (l : list (Z * Z)) : Z :=
  match l with
  | [] => 0
  | (w, v) :: l => field w v + 2 ^ w * pack l
  end.
Definition width (l : list (Z * Z)) : Z := foldr (fun x n => fst x + n) 0 l.
(** The [w] bits of [q] from bit [lo] on. *)
Definition bits (q lo w : Z) : Z := (q / 2 ^ lo) mod 2 ^ w.

(** [struct segdesc] *)
Record segdesc : Type := mkSeg {
  lim_15_0 : Z;
  base_15_0 : Z;
  base_23_16 : Z;
  seg_type : Z;
  seg_s : Z;
  seg_dpl : Z;
  seg_p : Z;
  lim_19_16 : Z;
  avl : Z;
  rsv1 : Z;
  db : Z;
  g : Z;
  base_31_24 : Z }.

Definition seg_bits (d : segdesc) : Z :=
  pack [(16, lim_15_0 d); (16, base_15_0 d); (8, base_23_16 d); (4, seg_type d); (1, seg_s d); (2, seg_dpl d); (1, seg_p d);
        (4, lim_19_16 d); (1, avl d); (1, rsv1 d); (1, db d); (1, g d); (8, base_31_24 d)].

Definition SEG (type base lim dpl : Z) : segdesc :=
  mkSeg (Z.land (Z.shiftr lim 12) 0xffff) (Z.land (u32 base) 0xffff)
    (Z.land (Z.shiftr (u32 base) 16) 0xff) type 1 dpl 1
    (Z.shiftr (u32 lim) 28) 0 0 1 1 (Z.shiftr (u32 base) 24).
Definition SEG16 (type base lim dpl : Z) : segdesc :=
  mkSeg (Z.land lim 0xffff) (Z.land (u32 base) 0xffff)
    (Z.land (Z.shiftr (u32 base) 16) 0xff) type 1 dpl 1
    (Z.shiftr (u32 lim) 16) 0 0 1 0 (Z.shiftr (u32 base) 24).
Definition set_seg_s v d := mkSeg (lim_15_0 d) (base_15_0 d) (base_23_16 d) (seg_type d) v (seg_dpl d) (seg_p d) (lim_19_16 d) (avl d) (rsv1 d) (db d) (g d) (base_31_24 d).

(** [struct gatedesc] *)
Record gatedesc : Type := mkGate {
  off_15_0 : Z;
  gate_cs : Z;
  gate_args : Z;
  gate_rsv1 : Z;
  gate_type : Z;
  gate_s : Z;
  gate_dpl : Z;
  gate_p : Z;
  off_31_16 : Z }.

Definition gate_bits (d : gatedesc) : Z :=
  pack [(16, off_15_0 d); (16, gate_cs d); (5, gate_args d); (3, gate_rsv1 d); (4, gate_type d); (1, gate_s d); (2, gate_dpl d);
        (1, gate_p d); (16, off_31_16 d)].

Definition SETGATE (istrap : bool) (sel off d : Z) : gatedesc :=
  mkGate (Z.land (u32 off) 0xffff) sel 0 0 (if istrap then STS_TG32 else STS_IG32) 0 d 1 (Z.shiftr (u32 off) 16).

(** ** The tables of a CPU *)

Definition seg0 : segdesc := mkSeg 0 0 0 0 0 0 0 0 0 0 0 0 0.
Definition gate0 : gatedesc := mkGate 0 0 0 0 0 0 0 0 0.

(** [cpu->gdt], the fields of [cpu->ts] that are set, [idt], and the registers
    with the places of the tables. *)
Record tables : Type := mkTables {
  gdt : list segdesc;
  ts_ss0 : Z;
  ts_esp0 : Z;
  ts_iomb : Z;
  idt : list gatedesc;
  gdtr : list Z;
  idtr : list Z;
  task_reg : Z }.

Definition set_gdt v t := mkTables v (ts_ss0 t) (ts_esp0 t) (ts_iomb t) (idt t) (gdtr t) (idtr t) (task_reg t).
Definition set_ts ss0 esp0 iomb t := mkTables (gdt t) ss0 esp0 iomb (idt t) (gdtr t) (idtr t) (task_reg t).
Definition set_idt v t := mkTables (gdt t) (ts_ss0 t) (ts_esp0 t) (ts_iomb t) v (gdtr t) (idtr t) (task_reg t).
Definition set_gdtr v t := mkTables (gdt t) (ts_ss0 t) (ts_esp0 t) (ts_iomb t) (idt t) v (idtr t) (task_reg t).
Definition set_idtr v t := mkTables (gdt t) (ts_ss0 t) (ts_esp0 t) (ts_iomb t) (idt t) (gdtr t) v (task_reg t).
Definition set_task_reg v t := mkTables (gdt t) (ts_ss0 t) (ts_esp0 t) (ts_iomb t) (idt t) (gdtr t) (idtr t) v.

Definition sizeof_segdesc : Z := 8.
Definition sizeof_gatedesc : Z := 8.
Definition sizeof_taskstate : Z := 104.

(** The array [pd] of [lgdt] and [lidt]: three 16-bit words. *)
Definition pseudo (p size : Z) : list Z := [u16 (size - 1); u16 p; u16 (Z.shiftr (u32 p) 16)].
Definition lgdt (p size : Z) : K tables unit := modify (set_gdtr (pseudo p size)).
Definition lidt (p size : Z) : K tables unit := modify (set_idtr (pseudo p size)).
Definition ltr (sel : Z) : K tables unit := modify (set_task_reg (u16 sel)).

Definition put_seg (i : Z) (d : segdesc) : K tables unit := modify (fun t => set_gdt (<[Z.to_nat i := d]> (gdt t)) t).
Definition put_gate (i : nat) (d : gatedesc) : K tables unit := modify (fun t => set_idt (<[i := d]> (idt t)) t).

(** [gdt_] and [idt_] are the addresses of the tables, [ts_] of the task state. *)
Definition seginit (gdt_ : Z) : K tables unit :=
  put_seg SEG_KCODE (SEG (Z.lor STA_X STA_R) 0 0xffffffff 0);;
  put_seg SEG_KDATA (SEG STA_W 0 0xffffffff 0);;
  put_seg SEG_UCODE (SEG (Z.lor STA_X STA_R) 0 0xffffffff DPL_USER);;
  put_seg SEG_UDATA (SEG STA_W 0 0xffffffff DPL_USER);;
  lgdt gdt_ (Z.of_nat NSEGS * sizeof_segdesc).

(** The part of [switchuvm] that sets up the task state, for the stack [esp0]. *)
Definition switch_ts (ts_ esp0 : Z) : K tables unit :=
  put_seg SEG_TSS (SEG16 STS_T32A ts_ (sizeof_taskstate - 1) 0);;
  modify (fun t => set_gdt (alter (set_seg_s 0) (Z.to_nat SEG_TSS) (gdt t)) t);;
  modify (set_ts (Z.shiftl SEG_KDATA 3) esp0 0xFFFF);;
  ltr (Z.shiftl SEG_TSS 3).

(** The loop of [tvinit], [n] gates from [i] on; [vectors] is in vectors.S. *)
Fixpoint tvinit_loop (vectors : Z -> Z) (n i : nat) : K tables unit :=
  match n with
  | O => mret ()
  | S n => put_gate i (SETGATE false (Z.shiftl SEG_KCODE 3) (vectors (Z.of_nat i)) 0);; tvinit_loop vectors n (S i)
  end.
Definition tvinit (vectors : Z -> Z) : K tables unit :=
  tvinit_loop vectors 256 0;;
  put_gate (Z.to_nat T_SYSCALL) (SETGATE true (Z.shiftl SEG_KCODE 3) (vectors T_SYSCALL) DPL_USER).
Definition idtinit (idt_ : Z) : K tables unit := lidt idt_ (256 * sizeof_gatedesc).

(** ** What the processor reads in a descriptor *)

Definition seg_base (q : Z) : Z := bits q 16 24 + 2 ^ 24 * bits q 56 8.
Definition seg_limit (q : Z) : Z :=
  let l := bits q 0 16 + 2 ^ 16 * bits q 48 4 in
  if bits q 55 1 =? 1 then l * 4096 + 4095 else l.
Definition seg_kind (q : Z) : Z * Z := (bits q 44 1, bits q 40 4).
Definition seg_level (q : Z) : Z := bits q 45 2.
Definition seg_present (q : Z) : Prop := bits q 47 1 = 1.

Definition gate_handler (q : Z) : Z := bits q 0 16 + 2 ^ 16 * bits q 48 16.
Definition gate_selector (q : Z) : Z := bits q 16 16.
Definition gate_kind (q : Z) : Z := bits q 40 5.
Definition gate_level (q : Z) : Z := bits q 45 2.
Definition gate_present (q : Z) : Prop := bits q 47 1 = 1.

(** The limit and the base that [lgdt] and [lidt] load from the array. *)
Definition reg_limit (pd : list Z) : Z := nth 0 pd 0.
Definition reg_base (pd : list Z) : Z := nth 1 pd 0 + 2 ^ 16 * nth 2 pd 0.

(** The segment a selector names. *)
Definition segment (t : tables) (sel : Z) : Z := default 0 (seg_bits <$> gdt t !! Z.to_nat (Z.shiftr sel 3)).

(** [int n] at privilege level [cpl]: the code selector, the handler, and
    whether interrupts stay on; [None] is a protection fault. *)
Definition software_int (t : tables) (cpl n : Z) : option (Z * Z * bool) :=
  match idt t !! Z.to_nat n with
  | Some d =>
      let q := gate_bits d in
      if (bits q 47 1 =? 1) && (cpl <=? gate_level q) then Some (gate_selector q, gate_handler q, gate_kind q =? STS_TG32) else None
  | None => None
  end.
(** An exception or an interrupt of a device is not subject to the level. *)
Definition hardware_int (t : tables) (n : Z) : option (Z * Z * bool) := software_int t 0 n.

(** ** Bit fields in a packed structure *)

Lemma bits_split q lo w1 w2 : 0 <= lo -> 0 <= w1 -> 0 <= w2 -> bits q lo (w1 + w2) = bits q lo w1 + 2 ^ w1 * bits q (lo + w1) w2.
Proof.
  intros. unfold bits. rewrite !Z.pow_add_r, <- Z.div_div by lia. rewrite Z.rem_mul_r by lia. done.
Qed.

Lemma width_pos l : Forall (fun x => 0 <= fst x) l -> 0 <= width l.
Proof. unfold width. induction 1; cbn; lia. Qed.

(** The field at position [k]. *)
Lemma bits_pack l k w v lo : l !! k = Some (w, v) -> Forall (fun x => 0 <= fst x) l -> width (take k l) = lo -> bits (pack l) lo w = field w v.
Proof.
  intros Hk Hl <-. revert k Hk. induction Hl as [|[w0 v0] l H0 Hl IH]; intros k Hk; [done|]. cbn [fst] in H0.
  assert (0 <= w) as Hw by (apply (Forall_lookup_1 (fun x => 0 <= fst x) ((w0, v0) :: l) k (w, v)); [by constructor|done]).
  destruct k as [|k]; cbn [lookup list_lookup take] in *.
  - injection Hk as -> ->. unfold bits, field. cbn [pack width foldr]. change (2 ^ 0) with 1. unfold field. rewrite Z.div_1_r, Z.mul_comm, Z.mod_add by lia. by rewrite Zmod_mod.
  - rewrite <- (IH k Hk). assert (0 <= width (take k l)) as Hn by (by apply width_pos, Forall_take).
    change (width ((w0, v0) :: take k l)) with (w0 + width (take k l)). unfold bits. cbn [pack]. f_equal.
    rewrite Z.pow_add_r, <- Z.div_div by lia. f_equal. unfold field. rewrite Z.mul_comm, Z.div_add by lia. rewrite Z.div_small; [done|]. apply Z.mod_pos_bound. lia.
Qed.

(** The three parts of a base, and the two of an offset, put together. *)
Lemma parts16 v : 0 <= v < 2 ^ 32 -> field 16 (Z.land v 0xffff) + 2 ^ 16 * field 16 (Z.shiftr v 16) = v.
Proof.
  intros H. unfold field. change 0xffff with (Z.ones 16). rewrite Z.land_ones, Z.shiftr_div_pow2 by lia. rewrite Zmod_mod.
  rewrite (Z.mod_small (v / _)); [rewrite Z.add_comm; symmetry; apply Z.div_mod; lia|]. split; [apply Z.div_pos; lia|]. apply Z.div_lt_upper_bound; lia.
Qed.

Lemma parts_base v : 0 <= v < 2 ^ 32 ->
  field 16 (Z.land v 0xffff) + 2 ^ 16 * field 8 (Z.land (Z.shiftr v 16) 0xff) + 2 ^ 24 * field 8 (Z.shiftr v 24) = v.
Proof.
  intros H. rewrite <- (parts16 v H) at 4. rewrite <- Z.add_assoc. f_equal. unfold field. change 0xff with (Z.ones 8).
  rewrite Z.land_ones, !Z.shiftr_div_pow2, Zmod_mod by lia. rewrite (Z.mod_small (v / 2 ^ 24)); cycle 1.
  { split; [apply Z.div_pos; lia|]. apply Z.div_lt_upper_bound; lia. }
  rewrite (Z.mod_small (v / 2 ^ 16) (2 ^ 16)) by (split; [apply Z.div_pos; lia|]; apply Z.div_lt_upper_bound; lia).
  change (2 ^ 24) with (2 ^ 16 * 2 ^ 8). rewrite <- Z.div_div by lia. pose proof (Z.div_mod (v / 2 ^ 16) (2 ^ 8) ltac:(lia)). lia.
Qed.

(** ** What the processor finds *)

Lemma gate_reads istrap sel off d : 0 <= sel < 2 ^ 16 -> 0 <= off < 2 ^ 32 -> 0 <= d < 4 ->
  let q := gate_bits (SETGATE istrap sel off d) in
  gate_present q /\ gate_handler q = off /\ gate_selector q = sel /\ gate_level q = d /\ gate_kind q = (if istrap then STS_TG32 else STS_IG32).
Proof.
  intros Hs Ho Hd q. unfold q, gate_present, gate_handler, gate_selector, gate_level, gate_kind, gate_bits.
  cbn [SETGATE off_15_0 gate_cs gate_args gate_rsv1 gate_type gate_s gate_dpl gate_p off_31_16]. rewrite (bits_split _ 40 4 1) by lia. change (40 + 4) with 44.
  set (l := [(16, _); _; _; _; _; _; _; _; _]). assert (Forall (fun x => 0 <= fst x) l) as Hl by (repeat constructor; cbn; lia).
  rewrite (bits_pack l 0 _ _ 0 eq_refl Hl eq_refl), (bits_pack l 1 _ _ 16 eq_refl Hl eq_refl), (bits_pack l 4 _ _ 40 eq_refl Hl eq_refl), (bits_pack l 5 _ _ 44 eq_refl Hl eq_refl),
    (bits_pack l 6 _ _ 45 eq_refl Hl eq_refl), (bits_pack l 7 _ _ 47 eq_refl Hl eq_refl), (bits_pack l 8 _ _ 48 eq_refl Hl eq_refl).
  rewrite u32_id by lia. split_and!; [done|by apply parts16|by apply Z.mod_small|apply Z.mod_small; lia|by destruct istrap].
Qed.

Lemma pseudo_reads p size : 0 <= p < 2 ^ 32 -> 0 < size <= 2 ^ 16 -> reg_limit (pseudo p size) = size - 1 /\ reg_base (pseudo p size) = p.
Proof.
  intros Hp Hs. unfold reg_limit, reg_base, pseudo. cbn [nth]. rewrite u16_id by lia. split; [done|]. rewrite u32_id by lia.
  rewrite <- (parts16 p Hp) at 3. unfold field. change 0xffff with (Z.ones 16). rewrite Z.land_ones, Zmod_mod by lia. done.
Qed.

Lemma tss_reads ts_ : 0 <= ts_ < 2 ^ 32 -> let q := seg_bits (set_seg_s 0 (SEG16 STS_T32A ts_ (sizeof_taskstate - 1) 0)) in
  seg_present q /\ seg_base q = ts_ /\ seg_limit q = 103 /\ seg_kind q = (0, STS_T32A) /\ seg_level q = 0.
Proof.
  intros Ht q. unfold q, seg_present, seg_base, seg_limit, seg_kind, seg_level, seg_bits.
  cbn [SEG16 set_seg_s lim_15_0 base_15_0 base_23_16 seg_type seg_s seg_dpl seg_p lim_19_16 avl rsv1 db g base_31_24].
  rewrite (bits_split _ 16 16 8) by lia. change (16 + 16) with 32. rewrite u32_id by lia.
  set (l := [(16, _); _; _; _; _; _; _; _; _; _; _; _; _]). assert (Forall (fun x => 0 <= fst x) l) as Hl by (repeat constructor; cbn; lia).
  rewrite (bits_pack l 0 _ _ 0 eq_refl Hl eq_refl), (bits_pack l 1 _ _ 16 eq_refl Hl eq_refl), (bits_pack l 2 _ _ 32 eq_refl Hl eq_refl), (bits_pack l 3 _ _ 40 eq_refl Hl eq_refl),
    (bits_pack l 4 _ _ 44 eq_refl Hl eq_refl), (bits_pack l 5 _ _ 45 eq_refl Hl eq_refl), (bits_pack l 6 _ _ 47 eq_refl Hl eq_refl), (bits_pack l 7 _ _ 48 eq_refl Hl eq_refl),
    (bits_pack l 11 _ _ 55 eq_refl Hl eq_refl), (bits_pack l 12 _ _ 56 eq_refl Hl eq_refl).
  split_and!; [done|by apply parts_base|done..].
Qed.

(** A flat segment of [seginit]. *)
Definition flat (q type level : Z) : Prop :=
  seg_present q /\ seg_base q = 0 /\ seg_limit q = 2 ^ 32 - 1 /\ seg_kind q = (1, type) /\ seg_level q = level.

(** The loop of [tvinit] fills [n] gates. *)
Lemma tvinit_loop_run vectors n : forall i h t, (i + n <= length (idt t))%nat ->
  exists t', tvinit_loop vectors n i h t = Ret tt h t' /\ t' = set_idt (idt t') t /\ length (idt t') = length (idt t) /\
    forall j, idt t' !! j = if decide (i <= j < i + n)%nat then Some (SETGATE false 8 (vectors (Z.of_nat j)) 0) else idt t !! j.
Proof.
  induction n as [|n IH]; intros i h t Hl; cbn [tvinit_loop].
  { exists t. split_and!; [done|by destruct t|done|]. intros j. by rewrite decide_False by lia. }
  unfold put_gate. repeat kstep_base. set (t1 := set_idt _ t). destruct (IH (S i) h t1) as (t' & -> & Hs & Hn & Hg); [cbn; rewrite length_insert; lia|].
  exists t'. split_and!; [done|exact Hs|by rewrite Hn; cbn; rewrite length_insert|].
  intros j. rewrite Hg. destruct (decide (j = i)) as [->|Hj].
  - rewrite decide_False, decide_True by lia. cbn. apply list_lookup_insert_eq. lia.
  - change (idt t1) with (<[i := SETGATE false 8 (vectors (Z.of_nat i)) 0]> (idt t)). rewrite list_lookup_insert_ne by done. destruct (decide (S i <= j < S i + n)%nat), (decide (i <= j < i + S n)%nat); (done || lia).
Qed.

Lemma seginit_run gdt_ h t : length (gdt t) = NSEGS -> exists t', seginit gdt_ h t = Ret tt h t' /\
  t' = set_gdtr (pseudo gdt_ 48) (set_gdt (gdt t') t) /\ length (gdt t') = NSEGS /\
  flat (segment t' 8) 10 0 /\ flat (segment t' 16) 2 0 /\ flat (segment t' 27) 10 3 /\ flat (segment t' 35) 2 3.
Proof.
  intros Hl. unfold seginit, put_seg, lgdt. repeat kstep_base. eexists. split; [done|]. destruct t as [gd ? ? ? ? ? ? ?]. cbn [gdt set_gdt set_gdtr] in *.
  destruct gd as [|? [|? [|? [|? [|? [|? [|]]]]]]]; try discriminate Hl. split_and!; [done|done|..]; repeat split; vm_compute; done.
Qed.

(** C21: entering the kernel.  After [seginit], [tvinit], [idtinit] and the part
    of [switchuvm] that loads the task state, the processor's registers give
    the places of the tables, and a user program can get into the kernel by
    [int 64] only: any other software interrupt is a protection fault.  The
    system call gate leads to [vectors[64]] with interrupts on, every device
    interrupt and exception [n] to [vectors[n]] with interrupts off, both in the
    flat code segment of level 0 and on the kernel stack of the process; port
    instructions of a user program fault, because the I/O map lies beyond the
    limit of the task state. *)
Theorem kernel_entry vectors gdt_ idt_ ts_ esp0 t :
  length (gdt t) = NSEGS -> length (idt t) = 256%nat -> (forall i, 0 <= i < 256 -> 0 <= vectors i < 2 ^ 32) ->
  0 <= gdt_ < 2 ^ 32 -> 0 <= idt_ < 2 ^ 32 -> 0 <= ts_ < 2 ^ 32 ->
  exists t', (seginit gdt_;; tvinit vectors;; idtinit idt_;; switch_ts ts_ esp0) [] t = Ret tt [] t' /\
    reg_limit (idtr t') = 256 * 8 - 1 /\ reg_base (idtr t') = idt_ /\ reg_limit (gdtr t') = 6 * 8 - 1 /\ reg_base (gdtr t') = gdt_ /\
    (forall n, 0 <= n < 256 -> software_int t' 3 n = if n =? 64 then Some (8, vectors 64, true) else None) /\
    (forall n, 0 <= n < 256 -> hardware_int t' n = Some (8, vectors n, n =? 64)) /\
    flat (segment t' 8) 10 0 /\ flat (segment t' (ts_ss0 t')) 2 0 /\ ts_esp0 t' = esp0 /\
    let tss := segment t' (task_reg t') in seg_present tss /\ seg_base tss = ts_ /\ seg_kind tss = (0, STS_T32A) /\ seg_limit tss < ts_iomb t'.
Proof.
  intros Hg Hi Hv Hgd Hid Hts. rewrite bind_unfold. destruct (seginit_run gdt_ [] t Hg) as (t1 & -> & E1 & L1 & K1 & K2 & _ & _).
  unfold tvinit, idtinit, lidt, switch_ts, put_seg, put_gate, ltr. repeat kstep_base.
  destruct (tvinit_loop_run vectors 256 0 [] t1) as (t2 & -> & E2 & L2 & G2); [rewrite E1; cbn; lia|]. assert (length (idt t2) = 256%nat) as L2' by (by rewrite L2, E1).
  repeat kstep_base. eexists. split; [done|]. set (t4 := set_task_reg _ _).
  assert (idtr t4 = pseudo idt_ 2048) as -> by done. assert (gdtr t4 = pseudo gdt_ 48) as -> by (unfold t4; cbn; by rewrite E2, E1).
  destruct (pseudo_reads idt_ 2048 Hid ltac:(lia)) as [-> ->]. destruct (pseudo_reads gdt_ 48 Hgd ltac:(lia)) as [-> ->].
  assert (forall n, 0 <= n < 256 -> idt t4 !! Z.to_nat n = Some (SETGATE (n =? 64) 8 (vectors n) (if n =? 64 then 3 else 0))) as Hgate.
  { intros n Hn. change (idt t4) with (<[64%nat := SETGATE true 8 (vectors 64) 3]> (idt t2)). destruct (Z.eqb_spec n 64) as [->|Hne].
    - apply list_lookup_insert_eq. lia.
    - rewrite list_lookup_insert_ne by lia. rewrite G2, decide_True, Z2Nat.id by lia. done. }
  assert (forall cpl n, 0 <= n < 256 -> software_int t4 cpl n = if cpl <=? (if n =? 64 then 3 else 0) then Some (8, vectors n, n =? 64) else None) as Hint.
  { intros cpl n Hn. unfold software_int. rewrite (Hgate n Hn). cbv zeta.
    destruct (gate_reads (n =? 64) 8 (vectors n) (if n =? 64 then 3 else 0)) as (-> & -> & -> & -> & ->); [lia|by apply Hv|by destruct (n =? 64)|].
    cbn [Z.eqb andb]. destruct (n =? 64); done. }
  assert (forall k, (k < 5)%nat -> gdt t4 !! k = gdt t1 !! k) as Hseg.
  { intros k Hk. unfold t4. cbn [gdt set_task_reg set_ts set_gdt set_idtr set_idt]. change (Z.to_nat SEG_TSS) with 5%nat. rewrite list_lookup_alter_ne, list_lookup_insert_ne by lia. by rewrite E2. }
  do 4 (split; [done|]). split; [|split; [|split; [|split; [|split; [done|]]]]].
  - intros n Hn. rewrite Hint by done. by destruct (Z.eqb_spec n 64) as [->|].
  - intros n Hn. unfold hardware_int. rewrite Hint by done. by destruct (n =? 64).
  - unfold segment in *. rewrite Hseg by (vm_compute; lia). exact K1.
  - change (ts_ss0 t4) with 16. unfold segment in *. rewrite Hseg by (vm_compute; lia). exact K2.
  - assert (segment t4 (task_reg t4) = seg_bits (set_seg_s 0 (SEG16 STS_T32A ts_ (sizeof_taskstate - 1) 0))) as ->.
    { unfold segment. change (Z.to_nat (Z.shiftr (task_reg t4) 3)) with 5%nat. unfold t4. cbn [gdt set_task_reg set_ts set_gdt set_idtr set_idt].
      change (Z.to_nat SEG_TSS) with 5%nat. rewrite list_lookup_alter_eq, list_lookup_insert_eq by (rewrite E2; cbn; rewrite L1; unfold NSEGS; lia). done. }
    destruct (tss_reads ts_ Hts) as (H1 & H2 & H3 & H4 & _). cbv zeta. rewrite H3. split_and!; [done|done|done|vm_compute; done].
Qed.

Lemma kernel_entry_witness : exists t', (seginit 0x80113000;; tvinit (fun i => 0x80100000 + 16 * i);; idtinit 0x80112000;; switch_ts 0x80114000 0x8dfff000) []
    (mkTables (replicate 6 seg0) 0 0 0 (replicate 256 gate0) [] [] 0) = Ret tt [] t' /\
  software_int t' 3 64 = Some (8, 0x80100400, true) /\ software_int t' 3 14 = None.
Proof.
  destruct (kernel_entry (fun i => 0x80100000 + 16 * i) 0x80113000 0x80112000 0x80114000 0x8dfff000
    (mkTables (replicate 6 seg0) 0 0 0 (replicate 256 gate0) [] [] 0)) as (t' & H & _ & _ & _ & _ & Hs & _).
  - reflexivity.
  - reflexivity.
  - intros i Hi. lia.
  - lia.
  - lia.
  - lia.
  - exists t'. split; [exact H|]. split; [apply (Hs 64); lia|apply (Hs 14); lia].
Defined.
