(* ===== verification/Kalloc.v ===== *)
(** * The physical page allocator (src/kalloc.c)

    The free list is threaded through the free pages themselves: the first
    word of a free page is the address of the next one.  [end_] is the linker
    symbol [end], the first address after the kernel image. *)

From Stdlib Require Import ZArith Lia String.
From stdpp Require Import prelude list numbers option relations.
From S2P Require Import Prelude Kernel Mem.

(** Memory, seen through the kernel's map of it, and [kmem]. *)
Record kmstate : Type := mkKmstate {
  phys : mem;
  use_lock : Z;
  freelist : Z }.

Definition set_phys v s := mkKmstate v (use_lock s) (freelist s).
Definition set_use_lock v s := mkKmstate (phys s) v (freelist s).
Definition set_freelist v s := mkKmstate (phys s) (use_lock s) v.

Section kalloc.
Context (end_ : Z).

Definition kfree (v : Z) : K kmstate unit :=
  if negb (v mod PGSIZE =? 0) || (v <? end_) || (PHYSTOP <=? V2P v) then panic "kfree"
  else
    modify (fun s => set_phys (memset (phys s) v 1 PGSIZE) s);;
    lk ← gets use_lock;
    when (negb (lk =? 0)) (acquire LKmem);;
    modify (fun s => set_phys (store32 (phys s) v (freelist s)) s);;
    modify (set_freelist v);;
    lk ← gets use_lock;
    when (negb (lk =? 0)) (release LKmem).

Definition kalloc : K kmstate Z :=
  lk ← gets use_lock;
  when (negb (lk =? 0)) (acquire LKmem);;
  r ← gets freelist;
  when (negb (r =? 0)) (modify (fun s => set_freelist (load32 (phys s) r) s));;
  lk ← gets use_lock;
  when (negb (lk =? 0)) (release LKmem);;
  mret r.

(** [for(; p + PGSIZE <= vend; p += PGSIZE) kfree(p)] *)
Fixpoint freerange_loop (fuel : nat) (p vend : Z) : K kmstate unit :=
  if negb (p + PGSIZE <=? vend) then mret ()
  else
    match fuel with
    | O => spin
    | S fuel => kfree p;; freerange_loop fuel (p + PGSIZE) vend
    end.

(** The range holds no more than [(vend - vstart) / PGSIZE] pages. *)
Definition freerange (vstart vend : Z) : K kmstate unit :=
  freerange_loop (Z.to_nat ((vend - vstart) / PGSIZE)) (PGROUNDUP vstart) vend.

Definition kinit1 (vstart vend : Z) : K kmstate unit :=
  modify (set_use_lock 0);; freerange vstart vend.

Definition kinit2 (vstart vend : Z) : K kmstate unit :=
  freerange vstart vend;; modify (set_use_lock 1).

(** ** The free list *)

(** A page the allocator may hold. *)
Definition page_ok (p : Z) : Prop :=
  p mod PGSIZE = 0 /\ end_ <= p /\ KERNBASE <= p < KERNBASE + PHYSTOP.

(** [ps] is the list threaded from address [a]. *)
Fixpoint threaded (m : mem) (a : Z) (ps : list Z) : Prop :=
  match ps with
  | [] => a = 0
  | p :: ps => a = p /\ page_ok p /\ threaded m (load32 m p) ps
  end.

Record kmem_ok (s : kmstate) (ps : list Z) : Prop := {
  km_mem : mem_ok (phys s);
  km_list : threaded (phys s) (freelist s) ps;
  km_nodup : NoDup ps }.

(** The addresses of a page. *)
Definition in_page (p x : Z) : Prop := p <= x < p + PGSIZE.

Lemma page_bounds p : page_ok p -> 0 < p < 2 ^ 32 /\ V2P p = p - KERNBASE.
Proof. unfold page_ok, V2P, KERNBASE, PHYSTOP. intros (? & ? & ?). split; [lia|]. apply u32_id. lia. Qed.

Lemma pages_apart p q x : p mod PGSIZE = 0 -> q mod PGSIZE = 0 -> in_page p x -> in_page q x -> p = q.
Proof.
  unfold in_page, PGSIZE. intros Hp Hq ??.
  pose proof (Z.div_mod p 4096 ltac:(lia)). pose proof (Z.div_mod q 4096 ltac:(lia)). lia.
Qed.

Lemma threaded_pages m a ps p : threaded m a ps -> p ∈ ps -> page_ok p.
Proof.
  revert a. induction ps as [|q ps IH]; intros a; simpl; [by intros _ ?%not_elem_of_nil|].
  intros (_ & Hq & Ht) [->|Hp]%elem_of_cons; [done|]. by eapply IH.
Qed.

(** The list does not depend on memory outside its pages. *)
Lemma threaded_frame m m' a ps :
  (forall p x, p ∈ ps -> in_page p x -> m' x = m x) -> threaded m a ps -> threaded m' a ps.
Proof.
  revert a. induction ps as [|q ps IH]; intros a Hf; simpl; [done|].
  intros (-> & Hq & Ht). split_and!; [done..|].
  rewrite (load32_ext m' m).
  - apply IH; [|done]. intros p x Hp. apply Hf. by right.
  - intros x Hx. apply (Hf q); [by left|]. unfold in_page, PGSIZE. lia.
Qed.

Lemma in_page_apart v p x :
  v mod PGSIZE = 0 -> p mod PGSIZE = 0 -> p <> v -> in_page p x -> x < v \/ v + PGSIZE <= x.
Proof.
  intros Hv Hp Hne Hx. destruct (decide (in_page v x)) as [Hin|Hout]; [|unfold in_page in Hout; lia].
  destruct Hne. by apply (pages_apart p v x).
Qed.

(** ** What the operations do *)

Lemma kfree_run v h s ps :
  kmem_ok s ps -> page_ok v -> v ∉ ps -> LKmem ∉ h ->
  exists s', kfree v h s = Ret tt h s' /\ kmem_ok s' (v :: ps) /\ use_lock s' = use_lock s /\
    forall x, ~ in_page v x -> phys s' x = phys s x.
Proof.
  intros Hs Hv Hnin Hh. pose proof (page_bounds v Hv) as [Hb Hp]. destruct Hv as (Hal & He & Hr).
  set (s' := set_freelist v (set_phys (store32 (memset (phys s) v 1 PGSIZE) v (freelist s)) s)).
  assert (forall x, ~ in_page v x -> phys s' x = phys s x) as Hout.
  { intros x Hx. unfold s', in_page, PGSIZE in *. simpl. unfold store32.
    rewrite store_bytes_out by (rewrite le32_length; lia).
    by rewrite memset_spec, decide_False by lia. }
  exists s'. split_and!; [| |done|done].
  - unfold kfree. rewrite Hal, (proj2 (Z.ltb_ge _ _)), Hp, (proj2 (Z.leb_gt _ _)) by lia. cbn [Z.eqb negb orb].
    repeat kstep_base. cbn [use_lock set_phys]. destruct (use_lock s =? 0) eqn:E; cbn [negb when];
      repeat kstep_base; cbn [use_lock set_phys set_freelist]; rewrite E; cbn [negb when]; by repeat kstep_base.
  - destruct Hs as [Hm Hl Hnd]. split.
    + apply store32_ok, memset_ok; [unfold PGSIZE; lia|done].
    + cbn [threaded]. split_and!; [done|by split|].
      unfold s'. cbn [phys set_freelist set_phys]. rewrite load32_same.
      rewrite u32_id. 2: { destruct ps as [|q ps]; [rewrite Hl; lia|]. destruct Hl as (-> & Hq & _).
        pose proof (page_bounds q Hq). lia. }
      eapply threaded_frame, Hl. intros p x Hpin Hx. apply Hout. intros Hvx.
      destruct (threaded_pages _ _ _ _ Hl Hpin) as [Hpm _].
      rewrite (pages_apart p v x) in Hpin; done.
    + by constructor.
Qed.

Lemma kalloc_run h s ps :
  kmem_ok s ps -> LKmem ∉ h ->
  exists s', kalloc h s = Ret (hd 0 ps) h s' /\ kmem_ok s' (tail ps) /\
    use_lock s' = use_lock s /\ phys s' = phys s.
Proof.
  intros [Hm Hl Hnd] Hh.
  assert (freelist s = hd 0 ps) as Hf by (destruct ps; naive_solver).
  assert (threaded (phys s) (if hd 0 ps =? 0 then 0 else load32 (phys s) (hd 0 ps)) (tail ps)) as Ht.
  { destruct ps as [|q ps]; [done|]. destruct Hl as (_ & Hq & Ht). simpl.
    pose proof (page_bounds q Hq). by rewrite (proj2 (Z.eqb_neq _ _)) by lia. }
  exists (set_freelist (if hd 0 ps =? 0 then freelist s else load32 (phys s) (hd 0 ps)) s).
  split_and!; [|split|done|done].
  - unfold kalloc. repeat kstep_base.
    destruct (use_lock s =? 0) eqn:E; cbn [negb when]; repeat kstep_base; rewrite Hf;
      destruct (hd 0 ps =? 0); cbn [negb when]; repeat kstep_base; cbn [use_lock set_freelist];
      rewrite E; cbn [negb when]; repeat kstep_base; rewrite <- ?Hf; by destruct s.
  - done.
  - simpl. rewrite Hf. destruct (hd 0 ps =? 0) eqn:E; [|done]. by apply Z.eqb_eq in E as ->.
  - destruct ps; [done|]. by inversion_clear Hnd.
Qed.

(** The whole pages of [p, vend). *)
Definition whole_page (p vend q : Z) : Prop := q mod PGSIZE = 0 /\ p <= q /\ q + PGSIZE <= vend.

Lemma freerange_loop_run fuel p vend h s ps :
  p mod PGSIZE = 0 -> end_ <= p -> KERNBASE <= p -> vend <= KERNBASE + PHYSTOP ->
  vend - p < PGSIZE * (Z.of_nat fuel + 1) ->
  kmem_ok s ps -> LKmem ∉ h -> (forall q, q ∈ ps -> ~ whole_page p vend q) ->
  exists s' ps', freerange_loop fuel p vend h s = Ret tt h s' /\ kmem_ok s' ps' /\
    use_lock s' = use_lock s /\ (forall q, q ∈ ps' <-> q ∈ ps \/ whole_page p vend q) /\
    forall x, x < p \/ vend <= x -> phys s' x = phys s x.
Proof.
  revert p s ps. induction fuel as [|fuel IH]; intros p s ps Hal He Hk Hv Hfuel Hs Hh Hd; cbn [freerange_loop].
  { destruct (Z.leb_spec (p + PGSIZE) vend); [lia|]. cbn [negb].
    eexists s, ps. split_and!; [done..| |done]. unfold whole_page. intros q. split; [auto|]. intros [?|?]; [done|lia]. }
  destruct (Z.leb_spec (p + PGSIZE) vend); cbn [negb].
  2: { eexists s, ps. split_and!; [done..| |done]. unfold whole_page. intros q. split; [auto|]. intros [?|?]; [done|lia]. }
  assert (page_ok p) as Hp by (unfold page_ok, PGSIZE in *; lia).
  assert (p ∉ ps) as Hnin by (intros Hin; apply (Hd p Hin); unfold whole_page; lia).
  destruct (kfree_run p h s ps Hs Hp Hnin Hh) as (s1 & Hr & Hs1 & Hu & Hf1).
  rewrite bind_unfold, Hr.
  destruct (IH (p + PGSIZE) s1 (p :: ps)) as (s' & ps' & Hr' & Hs' & Hu' & Hps & Hf'); try done.
  - unfold PGSIZE in *. rewrite <- Z.add_mod_idemp_r by lia. simpl. by rewrite Z.add_0_r.
  - unfold PGSIZE in *. lia.
  - unfold PGSIZE in *. lia.
  - lia.
  - intros q [->|Hq]%elem_of_cons; unfold whole_page, PGSIZE; [lia|].
    intros (? & ? & ?). apply (Hd q Hq). unfold whole_page, PGSIZE in *. lia.
  - exists s', ps'. split_and!; [done|done|congruence| |].
    2: { intros x Hx. unfold in_page, PGSIZE in *. rewrite Hf' by lia. apply Hf1. lia. }
    intros q. rewrite Hps, elem_of_cons.
    unfold whole_page, PGSIZE in *. split; [naive_solver lia|]. intros [?|(Hq & ? & ?)]; [tauto|].
    destruct (decide (q = p)); [tauto|]. right.
    pose proof (Z.div_mod p 4096 ltac:(lia)). pose proof (Z.div_mod q 4096 ltac:(lia)). lia.
Qed.

Lemma freerange_run vstart vend h s ps :
  end_ <= vstart -> KERNBASE <= vstart <= vend -> vend <= KERNBASE + PHYSTOP ->
  kmem_ok s ps -> LKmem ∉ h -> (forall q, q ∈ ps -> ~ whole_page vstart vend q) ->
  exists s' ps', freerange vstart vend h s = Ret tt h s' /\ kmem_ok s' ps' /\
    use_lock s' = use_lock s /\ (forall q, q ∈ ps' <-> q ∈ ps \/ whole_page vstart vend q) /\
    forall x, x < vstart \/ vend <= x -> phys s' x = phys s x.
Proof.
  intros He Hk Hv Hs Hh Hd. unfold freerange.
  destruct (PGROUNDUP_spec vstart) as [Hal Hr]; [unfold KERNBASE in *; lia|unfold KERNBASE, PHYSTOP, PGSIZE in *; lia|].
  assert (forall q, whole_page (PGROUNDUP vstart) vend q <-> whole_page vstart vend q) as Hw.
  { intros q. unfold whole_page, PGSIZE in *. split; [lia|]. intros (Hq & ? & ?).
    pose proof (Z.div_mod (PGROUNDUP vstart) 4096 ltac:(lia)). pose proof (Z.div_mod q 4096 ltac:(lia)). lia. }
  setoid_rewrite <- Hw. destruct (freerange_loop_run (Z.to_nat ((vend - vstart) / PGSIZE)) (PGROUNDUP vstart) vend h s ps) as (s' & ps' & R1 & R2 & R3 & R4 & R5); try done; try lia.
  - assert (0 <= (vend - vstart) / PGSIZE) by (apply Z.div_pos; unfold PGSIZE; lia).
    rewrite Z2Nat.id by done. unfold PGSIZE in *.
    pose proof (Z.div_mod (vend - vstart) 4096 ltac:(lia)). pose proof (Z.mod_pos_bound (vend - vstart) 4096). lia.
  - intros q Hq. rewrite Hw. by apply Hd.
  - exists s', ps'. split_and!; try done. intros x Hx. apply R5. lia.
Qed.

(** ** The allocator and its clients

    [main] gives the allocator the memory from [end] to [PHYSTOP] in two
    calls.  From then on clients allocate pages, free pages they own, and
    write in pages they own. *)

Definition MID : Z := KERNBASE + 4 * 1024 * 1024.
Definition TOP : Z := KERNBASE + PHYSTOP.

Definition kinit : K kmstate unit := kinit1 end_ MID;; kinit2 MID TOP.

Definition managed (q : Z) : Prop := whole_page end_ TOP q.

Inductive astep : kmstate * list Z -> kmstate * list Z -> Prop :=
  | a_alloc s own v s' :
      kalloc [] s = Ret v [] s' -> v <> 0 -> astep (s, own) (s', v :: own)
  | a_fail s own s' :
      kalloc [] s = Ret 0 [] s' -> astep (s, own) (s', own)
  | a_free s own1 v own2 s' :
      kfree v [] s = Ret tt [] s' -> astep (s, own1 ++ v :: own2) (s', own1 ++ own2)
  | a_write s own m :
      mem_ok m -> (forall x, (forall p, p ∈ own -> ~ in_page p x) -> m x = phys s x) ->
      astep (s, own) (set_phys m s, own).

(** Every managed page is either free or owned by one client. *)
Definition accounted (c : kmstate * list Z) : Prop :=
  exists ps, kmem_ok c.1 ps /\ NoDup (c.2 ++ ps) /\ forall q, managed q <-> q ∈ c.2 ++ ps.

Hypothesis Hend : KERNBASE <= end_ <= MID.

Lemma managed_ok q : managed q -> page_ok q.
Proof. unfold managed, whole_page, page_ok, TOP, PGSIZE. intros. split_and!; lia. Qed.

Lemma kinit_run s0 :
  mem_ok (phys s0) -> freelist s0 = 0 ->
  exists s, kinit [] s0 = Ret tt [] s /\ use_lock s = 1 /\ accounted (s, []).
Proof.
  intros Hm Hf. unfold kinit, kinit1, kinit2. rewrite !bind_unfold. rewrite modify_run.
  destruct (freerange_run end_ MID [] (set_use_lock 0 s0) []) as (s1 & ps1 & Hr1 & Hs1 & Hu1 & Hps1 & _).
  { lia. } { lia. } { unfold MID, KERNBASE, PHYSTOP. lia. }
  { split; [done|by simpl|constructor]. } { set_solver. } { intros q Hq. set_solver. }
  rewrite Hr1, bind_unfold.
  destruct (freerange_run MID TOP [] s1 ps1) as (s2 & ps2 & Hr2 & Hs2 & Hu2 & Hps2 & _).
  { lia. } { unfold MID, TOP, KERNBASE, PHYSTOP. lia. } { unfold TOP. lia. } { done. } { set_solver. }
  { intros q Hq. apply Hps1 in Hq as [?%not_elem_of_nil|Hq]; [done|]. unfold whole_page, PGSIZE in *. lia. }
  rewrite Hr2, modify_run. eexists. split; [done|]. split; [done|].
  destruct Hs2 as [Hm2 Hl2 Hnd2]. exists ps2. split_and!; [by split|done|].
  intros q. cbn [snd app]. rewrite Hps2, Hps1. rewrite elem_of_nil.
  assert (MID mod 4096 = 0) by done. unfold managed, whole_page, PGSIZE, MID, TOP in *.
  split; [|intros [[[]|?]|?]; unfold KERNBASE, PHYSTOP in *; lia]. intros (Hq & ? & ?).
  pose proof (Z.div_mod q 4096 ltac:(lia)).
  destruct (decide (q < KERNBASE + 4 * 1024 * 1024)); [|right; lia].
  left. right. unfold KERNBASE in *. lia.
Qed.

Lemma astep_accounted c c' : astep c c' -> accounted c -> accounted c'.
Proof.
  intros Hstep (ps & Hs & Hnd & Hall). destruct Hstep as [s own v s' Hk Hv|s own s' Hk|s own1 v own2 s' Hk|s own m Hm Hw];
    cbn [fst snd] in *.
  - destruct (kalloc_run [] s ps Hs) as (s1 & Hr & Hs1 & _); [set_solver|].
    rewrite Hr in Hk. simplify_eq. destruct ps as [|v ps]; [done|]. exists ps. cbn [fst snd tail hd] in *.
    split_and!; [done| |].
    + by rewrite <- Permutation_middle in Hnd.
    + intros q. rewrite Hall. set_solver.
  - destruct (kalloc_run [] s ps Hs) as (s1 & Hr & Hs1 & _); [set_solver|].
    rewrite Hr in Hk. simplify_eq. destruct ps as [|v ps]; [by exists []|].
    cbn [hd] in *. subst v. destruct (managed_ok 0) as (_ & _ & ?); [apply Hall; set_solver|]. unfold KERNBASE in *. lia.
  - rewrite <- app_assoc in Hnd, Hall. cbn [app] in *.
    assert (Permutation (own1 ++ v :: own2 ++ ps) ((own1 ++ own2) ++ v :: ps)) as HP.
    { rewrite <- Permutation_middle, <- app_assoc, <- !Permutation_middle. by rewrite app_assoc. }
    rewrite HP in Hnd. setoid_rewrite HP in Hall.
    destruct (kfree_run v [] s ps Hs) as (s1 & Hr & Hs1 & _); [apply managed_ok, Hall; set_solver| |set_solver|].
    + apply NoDup_app in Hnd as (_ & _ & Hnd%NoDup_cons). tauto.
    + rewrite Hr in Hk. simplify_eq. by exists (v :: ps).
  - exists ps. split_and!; [|done|done]. destruct Hs as [Hm0 Hl Hnd0]. split; [done| |done].
    eapply threaded_frame, Hl. intros p x Hp Hx. apply Hw. intros p' Hp' Hx'.
    assert (p = p') as <-.
    { apply (pages_apart p p' x); try done; [by eapply (managed_ok p), Hall; set_solver|
        by eapply (managed_ok p'), Hall; set_solver]. }
    apply NoDup_app in Hnd as (_ & Hnd & _). by apply (Hnd p).
Qed.
End kalloc.

(** C20: the allocator hands out each page of memory to one owner at a time and
    loses none.  After [kinit1] and [kinit2], whatever clients do: pages in use
    are distinct whole pages between [end] and [PHYSTOP]; [kalloc] returns a
    page nobody owns and leaves memory alone, and fails only when every page is
    in use; [kfree] of a page in use succeeds and changes no other page in
    use. *)
Theorem kalloc_exclusive end_ s0 :
  KERNBASE <= end_ <= MID -> mem_ok (phys s0) -> freelist s0 = 0 ->
  exists s1, kinit end_ [] s0 = Ret tt [] s1 /\
    forall s own, rtc (astep end_) (s1, []) (s, own) ->
      NoDup own /\ (forall p, p ∈ own -> managed end_ p) /\
      (exists v s', kalloc [] s = Ret v [] s' /\ phys s' = phys s /\
         if decide (v = 0) then forall q, managed end_ q -> q ∈ own
         else managed end_ v /\ v ∉ own) /\
      (forall p, p ∈ own -> exists s', kfree end_ p [] s = Ret tt [] s' /\
         forall q x, q ∈ own -> q <> p -> in_page q x -> phys s' x = phys s x).
Proof.
  intros Hend Hm Hf. destruct (kinit_run end_ Hend s0 Hm Hf) as (s1 & Hr & _ & Hacc).
  exists s1. split; [done|]. intros s own Hsteps.
  assert (accounted end_ (s, own)) as (ps & Hs & Hnd & Hall).
  { clear Hr. remember (s, own) as c eqn:Hc. clear Hc.
    induction Hsteps as [|x y z Hxy _ IH]; [done|]. eauto using astep_accounted. }
  cbn [fst snd] in *. apply NoDup_app in Hnd as (Hown & Hdisj & Hps).
  split_and!; [done| | |].
  - intros p Hp. apply Hall. set_solver.
  - destruct (kalloc_run end_ [] s ps Hs) as (s' & Hk & _ & _ & Hp); [set_solver|].
    exists (hd 0 ps), s'. split_and!; [done..|]. destruct ps as [|v ps]; cbn [hd].
    + rewrite decide_True by done. intros q Hq. apply Hall in Hq. set_solver.
    + assert (managed end_ v) as Hv by (apply Hall; set_solver).
      pose proof (page_bounds end_ v (managed_ok end_ Hend v Hv)). rewrite decide_False by lia. set_solver.
  - intros p Hp. assert (managed end_ p) as Hpm by (apply Hall; set_solver).
    destruct (kfree_run end_ p [] s ps Hs) as (s' & Hk & _ & _ & Hfr); [by apply managed_ok|set_solver|set_solver|].
    exists s'. split; [done|]. intros q x Hq Hne Hx. apply Hfr. intros Hpx. apply Hne.
    assert (managed end_ q) as Hqm by (apply Hall; set_solver).
    apply (pages_apart q p x); [apply Hqm|apply Hpm|done|done].
Qed.

Lemma kalloc_exclusive_witness :
  exists s1, kinit (KERNBASE + 0x115000) [] (mkKmstate (fun _ => 0) 0 0) = Ret tt [] s1.
Proof.
  destruct (kalloc_exclusive (KERNBASE + 0x115000) (mkKmstate (fun _ => 0) 0 0)) as (s1 & H & _).
  - unfold MID, KERNBASE. lia.
  - intros a. simpl. lia.
  - reflexivity.
  - by exists s1.
Defined.
