(* ===== verification/Spinlock.v ===== *)
(** * Spin locks on a multiprocessor (src/spinlock.c, mycpu of src/proc.c)

    First the code that is local to a CPU: [mycpu], [pushcli], [popcli].  Then
    one lock shared by several CPUs, each of which runs [acquire] and [release]
    one memory access at a time: every read of [lk->locked] and [lk->cpu], the
    [xchg], and every store is a step of its own. *)

From Stdlib Require Import ZArith Lia String.
From stdpp Require Import prelude list numbers strings option relations.
From S2P Require Import Prelude Kernel Mem.

Definition FL_IF : Z := 0x200.

(** ** One CPU *)

(** The interrupt flag of the CPU, and the fields of its [struct cpu]. *)
Record cpu : Type := mkCpu {
  eflags : Z;
  ncli : Z;
  intena : Z }.

Definition set_eflags v c := mkCpu v (ncli c) (intena c).
Definition set_ncli v c := mkCpu (eflags c) v (intena c).
Definition set_intena v c := mkCpu (eflags c) (ncli c) v.

Definition readeflags : K cpu Z := gets eflags.
Definition cli : K cpu unit := modify (fun c => set_eflags (Z.land (eflags c) (Z.lnot FL_IF)) c).
Definition sti : K cpu unit := modify (fun c => set_eflags (Z.lor (eflags c) FL_IF) c).

(** [mycpu]: the entry of [cpus] with this CPU's local APIC number. *)
Fixpoint find_cpu (apicids : list Z) (apicid : Z) (i : nat) : option nat :=
  match apicids with
  | [] => None
  | a :: apicids => if a =? apicid then Some i else find_cpu apicids apicid (Datatypes.S i)
  end.

Definition mycpu (apicids : list Z) (lapicid : Z) : K cpu nat :=
  e ← readeflags;
  if negb (Z.land e FL_IF =? 0) then panic "mycpu called with interrupts enabled\n"
  else match find_cpu apicids lapicid 0 with
       | Some i => mret i
       | None => panic "unknown apicid\n"
       end.

Definition pushcli : K cpu unit :=
  e ← readeflags;
  cli;;
  n ← gets ncli;
  when (n =? 0) (modify (set_intena (Z.land e FL_IF)));;
  modify (fun c => set_ncli (s32 (ncli c + 1)) c).

Definition popcli : K cpu unit :=
  e ← readeflags;
  if negb (Z.land e FL_IF =? 0) then panic "popcli - interruptible"
  else
    modify (fun c => set_ncli (s32 (ncli c - 1)) c);;
    n ← gets ncli;
    if n <? 0 then panic "popcli"
    else
      i ← gets intena;
      when ((n =? 0) && negb (i =? 0)) sti.

(** [holding], of a lock with the fields [locked] and [cpu]. *)
Definition holding (locked : Z) (owner : option nat) (apicids : list Z) (lapicid : Z) : K cpu bool :=
  pushcli;;
  r ← (if locked =? 0 then mret false
       else
         c ← mycpu apicids lapicid;
         mret (bool_decide (owner = Some c)));
  popcli;;
  mret r.

(** [getcallerpcs]: up to ten return addresses along the saved [%ebp]s. *)
Fixpoint callerpcs (n : nat) (m : mem) (ebp : Z) : list Z :=
  match n with
  | O => []
  | S n =>
      if (ebp =? 0) || (ebp <? KERNBASE) || (ebp =? 0xffffffff) then replicate (S n) 0
      else load32 m (u32 (ebp + 4)) :: callerpcs n m (load32 m ebp)
  end.
Definition getcallerpcs (m : mem) (v : Z) : list Z := callerpcs 10 m (u32 (v - 8)).

(** ** One lock, several CPUs *)

(** Where a CPU is in the code.  [acquire]: the two reads of [holding], the
    [xchg] loop, the store of [lk->cpu]; then the critical section; [release]:
    the reads of [holding], the two stores. *)
Inductive pc : Type :=
  | Outside
  | AcqLocked | AcqCpu | AcqXchg | AcqSetCpu
  | Critical
  | RelLocked | RelCpu | RelClear | RelUnlock
  | Panicked.

#[export] Instance pc_eq_dec : EqDecision pc.
Proof. solve_decision. Defined.

Record thread : Type := mkThread { at_pc : pc; on : cpu }.

Record lockstate : Type := mkLock {
  locked : Z;
  lcpu : option nat;
  threads : list thread }.

(** The CPU's part of a step that returns or panics. *)
Definition local (c : K cpu unit) (k : cpu) : option cpu :=
  match c [] k with Ret _ _ k' => Some k' | _ => None end.

(** CPU [i] goes to [p] after the local code [c]. *)
Definition go (p : pc) (c : K cpu unit) (t : thread) : thread :=
  match local c (on t) with
  | Some k => mkThread p k
  | None => mkThread Panicked (on t)
  end.

Definition goto (i : nat) (p : pc) (c : K cpu unit) (s : lockstate) : lockstate :=
  mkLock (locked s) (lcpu s) (alter (go p c) i (threads s)).
Definition store_locked (v : Z) (s : lockstate) : lockstate := mkLock v (lcpu s) (threads s).
Definition store_cpu (v : option nat) (s : lockstate) : lockstate := mkLock (locked s) v (threads s).

Definition nop : K cpu unit := mret ().

(** One memory access by CPU [i].  Outside, it calls [acquire]; in the
    critical section, [release]. *)
Definition access (i : nat) (p : pc) (s : lockstate) : lockstate :=
  match p with
  | Outside => goto i AcqLocked (pushcli;; pushcli) s
  | AcqLocked =>
      if locked s =? 0 then goto i AcqXchg popcli s else goto i AcqCpu nop s
  | AcqCpu =>
      if bool_decide (lcpu s = Some i) then goto i Panicked popcli s else goto i AcqXchg popcli s
  | AcqXchg =>
      if locked s =? 0 then goto i AcqSetCpu nop (store_locked 1 s) else store_locked 1 s
  | AcqSetCpu => goto i Critical nop (store_cpu (Some i) s)
  | Critical => goto i RelLocked pushcli s
  | RelLocked =>
      if locked s =? 0 then goto i Panicked popcli s else goto i RelCpu nop s
  | RelCpu =>
      if bool_decide (lcpu s = Some i) then goto i RelClear popcli s else goto i Panicked popcli s
  | RelClear => goto i RelUnlock nop (store_cpu None s)
  | RelUnlock => goto i Outside popcli (store_locked 0 s)
  | Panicked => s
  end.

Inductive lstep : lockstate -> lockstate -> Prop :=
  | lstep_access i t s : threads s !! i = Some t -> lstep s (access i (at_pc t) s).

(** After [initlock], with [n] CPUs outside the lock and their interrupts on
    or off. *)
Definition initlock (s : lockstate) : lockstate := mkLock 0 None (threads s).
Definition linit (cpus : list cpu) : lockstate :=
  initlock (mkLock 1 (Some 0%nat) (mkThread Outside <$> cpus)).

(** ** Nesting of pushcli and popcli *)

Definition interrupts_off (k : cpu) : Prop := Z.land (eflags k) FL_IF = 0.

(** A CPU between calls: the nesting count is in range, and interrupts are off
    inside a [pushcli]. *)
Definition cpu_ok (k : cpu) : Prop :=
  0 <= ncli k < 2 ^ 30 /\ (0 < ncli k -> interrupts_off k).

(** [k] is the CPU [k0] after [d] more [pushcli]s than [popcli]s. *)
Definition nested (k0 : cpu) (d : Z) (k : cpu) : Prop :=
  ncli k = ncli k0 + d /\
  eflags k = (if d =? 0 then eflags k0 else Z.land (eflags k0) (Z.lnot FL_IF)) /\
  (if ncli k0 =? 0 then 0 < d -> intena k = Z.land (eflags k0) FL_IF else intena k = intena k0).

Lemma cleared_off e : Z.land (Z.land e (Z.lnot FL_IF)) FL_IF = 0.
Proof. rewrite <- Z.land_assoc. change (Z.land (Z.lnot FL_IF) FL_IF) with 0. apply Z.land_0_r. Qed.

Lemma clear_idem e : Z.land (Z.land e (Z.lnot FL_IF)) (Z.lnot FL_IF) = Z.land e (Z.lnot FL_IF).
Proof. by rewrite <- Z.land_assoc, Z.land_diag. Qed.

Lemma clear_off e : Z.land e FL_IF = 0 -> Z.land e (Z.lnot FL_IF) = e.
Proof.
  intros He. apply Z.bits_inj'. intros n Hn. rewrite Z.land_spec, Z.lnot_spec by done.
  assert (Z.testbit (Z.land e FL_IF) n = false) as Hb by (rewrite He; apply Z.bits_0).
  rewrite Z.land_spec in Hb. destruct (Z.testbit e n), (Z.testbit FL_IF n); done.
Qed.

Lemma set_cleared e : Z.land e FL_IF <> 0 -> Z.lor (Z.land e (Z.lnot FL_IF)) FL_IF = e.
Proof.
  intros He.
  assert (Z.testbit e 9 = true) as H9.
  { destruct (Z.testbit e 9) eqn:E; [done|]. destruct He. apply Z.bits_inj'. intros n Hn.
    rewrite Z.land_spec, Z.bits_0. destruct (decide (n = 9)) as [->|Hne]; [by rewrite E|].
    change FL_IF with (2 ^ 9). rewrite Z.pow2_bits_false by done. apply andb_false_r. }
  apply Z.bits_inj'. intros n Hn. rewrite Z.lor_spec, Z.land_spec, Z.lnot_spec by done.
  change FL_IF with (2 ^ 9). destruct (decide (n = 9)) as [->|Hne].
  - by rewrite Z.pow2_bits_true, H9.
  - rewrite Z.pow2_bits_false by done. by rewrite orb_false_r, andb_true_r.
Qed.

Lemma nested_refl k0 : nested k0 0 k0.
Proof. unfold nested. split_and!; [lia|done|]. case_test; [lia|done]. Qed.

Lemma nested_off k0 d k : cpu_ok k0 -> 0 < d -> nested k0 d k -> interrupts_off k.
Proof.
  intros _ Hd (_ & He & _). unfold interrupts_off. rewrite He.
  rewrite (proj2 (Z.eqb_neq _ _)) by lia. apply cleared_off.
Qed.

Lemma pushcli_nested k0 d k h :
  cpu_ok k0 -> 0 <= d < 2 ^ 30 -> nested k0 d k ->
  exists k', pushcli h k = Ret tt h k' /\ nested k0 (d + 1) k'.
Proof.
  intros [Hn Hoff] Hd (Hk & He & Hi). unfold pushcli, readeflags, cli. repeat kstep_base. cbn [ncli set_eflags].
  assert (Z.land (eflags k) (Z.lnot FL_IF) = Z.land (eflags k0) (Z.lnot FL_IF)) as Hc
    by (rewrite He; case_test; [done|apply clear_idem]).
  destruct (Z.eqb_spec (ncli k) 0) as [E|E]; cbn [when]; repeat kstep_base; (eexists; split; [done|]);
    unfold nested; cbn [ncli set_ncli set_intena set_eflags eflags intena];
    rewrite s32_id by lia; rewrite (proj2 (Z.eqb_neq (d + 1) 0)) by lia; split_and!; try lia; try done.
  - assert (d = 0) as -> by lia. rewrite (proj2 (Z.eqb_eq (ncli k0) 0)) by lia. intros _. by rewrite He.
  - revert Hi. case_test; [|done]. intros Hi _. apply Hi. lia.
Qed.

Lemma popcli_nested k0 d k h :
  cpu_ok k0 -> 0 <= d < 2 ^ 30 -> nested k0 (d + 1) k ->
  exists k', popcli h k = Ret tt h k' /\ nested k0 d k'.
Proof.
  intros [Hn Hoff] Hd (Hk & He & Hi). rewrite (proj2 (Z.eqb_neq (d + 1) 0)) in He by lia.
  unfold popcli, readeflags. repeat kstep_base. rewrite He, cleared_off. cbn [Z.eqb negb].
  repeat kstep_base. cbn [ncli set_ncli]. rewrite s32_id by lia. rewrite (proj2 (Z.ltb_ge _ _)) by lia.
  repeat kstep_base. cbn [ncli set_ncli intena].
  destruct (Z.eqb_spec (ncli k - 1) 0) as [E|E], (Z.eqb_spec (intena k) 0) as [E'|E']; cbn [andb negb when]; unfold sti;
    repeat kstep_base; (eexists; split; [done|]);
    unfold nested; cbn [ncli set_ncli set_intena set_eflags eflags intena]; (split; [lia|]); rewrite ?He;
    revert Hi; destruct (Z.eqb_spec (ncli k0) 0), (Z.eqb_spec d 0); intros Hi; subst;
    try (specialize (Hi ltac:(lia))); try lia; try (split; [done|]; first [done|lia|intros; done]).
  - split; [|lia]. apply clear_off. congruence.
  - split; [|lia]. apply set_cleared. congruence.
  - split; [|done]. apply clear_off. apply Hoff. lia.
  - split; [|done]. apply clear_off. apply Hoff. lia.
Qed.

(** ** Mutual exclusion *)

(** The nesting depth of [pushcli] at each point. *)
Definition depth (p : pc) : Z :=
  match p with
  | Outside | Panicked => 0
  | AcqLocked | AcqCpu | RelLocked | RelCpu => 2
  | _ => 1
  end.

(** From the successful [xchg] to the store of 0 the CPU owns the lock; from
    the store of [lk->cpu] to its reset it is the recorded owner. *)
Definition owns (p : pc) : bool :=
  match p with AcqSetCpu | Critical | RelLocked | RelCpu | RelClear | RelUnlock => true | _ => false end.
Definition claims (p : pc) : bool :=
  match p with Critical | RelLocked | RelCpu | RelClear => true | _ => false end.

Record linv (cpus0 : list cpu) (o : option nat) (s : lockstate) : Prop := {
  li_locked : locked s = match o with Some _ => 1 | None => 0 end;
  li_cpu : forall j, lcpu s = Some j -> o = Some j;
  li_thread : forall i t, threads s !! i = Some t ->
    at_pc t <> Panicked /\
    (owns (at_pc t) = true <-> o = Some i) /\
    (claims (at_pc t) = true <-> lcpu s = Some i) /\
    exists k0, cpus0 !! i = Some k0 /\ nested k0 (depth (at_pc t)) (on t) }.

Section mutex.
Context (cpus0 : list cpu).
Hypothesis Hcpus : Forall cpu_ok cpus0.

(** A step of CPU [i] to a point [p]. *)
Lemma goto_inv o o' s l' c' i t p c k' :
  linv cpus0 o s -> threads s !! i = Some t -> p <> Panicked ->
  (forall k0, cpus0 !! i = Some k0 -> cpu_ok k0 -> nested k0 (depth (at_pc t)) (on t) ->
     local c (on t) = Some k' /\ nested k0 (depth p) k') ->
  l' = match o' with Some _ => 1 | None => 0 end -> (forall j, c' = Some j -> o' = Some j) ->
  (owns p = true <-> o' = Some i) -> (claims p = true <-> c' = Some i) ->
  (forall j, j <> i -> (o = Some j <-> o' = Some j) /\ (lcpu s = Some j <-> c' = Some j)) ->
  linv cpus0 o' (goto i p c (mkLock l' c' (threads s))).
Proof.
  intros [Hl Hcpu Ht] Hi Hp Hc Hl' Hc' Ho Hcl Hoth. split; [done|done|]. intros j u Hj. cbn [goto threads lcpu] in *.
  destruct (decide (i = j)) as [<-|Hij].
  - rewrite list_lookup_alter_eq, Hi in Hj. simplify_eq/=.
    destruct (Ht i t Hi) as (_ & _ & _ & k0 & Hk0 & Hn).
    destruct (Hc k0 Hk0) as [Hloc Hn']; [|done|].
    { rewrite Forall_lookup in Hcpus. by eapply Hcpus. }
    unfold go. rewrite Hloc. cbn [at_pc on]. split_and!; [done|done|done|by exists k0].
  - rewrite list_lookup_alter_ne in Hj by done.
    destruct (Ht j u Hj) as (H1 & H2 & H3 & H4). destruct (Hoth j) as [H5 H6]; [done|].
    split_and!; [done|by rewrite H2|by rewrite H3|done].
Qed.

(** [holding] answers, and leaves the CPU's interrupts as they were. *)
Lemma holding_run k locked owner apicids lapicid me h : cpu_ok k -> find_cpu apicids lapicid 0 = Some me ->
  exists k', holding locked owner apicids lapicid h k = Ret (negb (locked =? 0) && bool_decide (owner = Some me)) h k' /\ nested k 0 k'.
Proof.
  intros Hk Hme. unfold holding. rewrite bind_unfold. destruct (pushcli_nested k 0 k h Hk ltac:(lia) (nested_refl k)) as (k1 & -> & N1).
  pose proof (nested_off k 1 k1 Hk ltac:(lia) N1) as Hoff. unfold interrupts_off in Hoff.
  destruct (popcli_nested k 0 k1 h Hk ltac:(lia) N1) as (k2 & R2 & N2). exists k2. split; [|done]. rewrite bind_unfold.
  destruct (locked =? 0); [by rewrite mret_run, bind_unfold, R2|]. unfold mycpu, readeflags. repeat kstep_base. rewrite Hoff. cbn [Z.eqb negb]. rewrite Hme. repeat kstep_base. by rewrite R2.
Qed.

Lemma local_push k0 d k : cpu_ok k0 -> 0 <= d <= 2 -> nested k0 d k ->
  exists k', local pushcli k = Some k' /\ nested k0 (d + 1) k'.
Proof.
  intros H0 Hd Hn. destruct (pushcli_nested k0 d k [] H0) as (k' & Hr & Hn'); [lia|done|].
  exists k'. unfold local. by rewrite Hr.
Qed.

Lemma local_push2 k0 k : cpu_ok k0 -> nested k0 0 k ->
  exists k', local (pushcli;; pushcli) k = Some k' /\ nested k0 2 k'.
Proof.
  intros H0 Hn. destruct (pushcli_nested k0 0 k [] H0) as (k1 & Hr1 & Hn1); [lia|done|].
  destruct (pushcli_nested k0 1 k1 [] H0) as (k2 & Hr2 & Hn2); [lia|done|].
  exists k2. unfold local. by rewrite bind_unfold, Hr1, Hr2.
Qed.

Lemma local_pop k0 d k : cpu_ok k0 -> 0 <= d <= 2 -> nested k0 (d + 1) k ->
  exists k', local popcli k = Some k' /\ nested k0 d k'.
Proof.
  intros H0 Hd Hn. destruct (popcli_nested k0 d k [] H0) as (k' & Hr & Hn'); [lia|done|].
  exists k'. unfold local. by rewrite Hr.
Qed.

Lemma access_inv o s i t :
  linv cpus0 o s -> threads s !! i = Some t -> exists o', linv cpus0 o' (access i (at_pc t) s).
Proof.
  intros Hinv Hi. destruct (li_thread _ _ _ Hinv i t Hi) as (Hnp & Ho & Hcl & k0 & Hk0 & Hn).
  assert (cpu_ok k0) as Hok by (rewrite Forall_lookup in Hcpus; by eapply Hcpus).
  pose proof (li_locked _ _ _ Hinv) as Hl. pose proof (li_cpu _ _ _ Hinv) as Hc.
  assert (s = mkLock (locked s) (lcpu s) (threads s)) as Hs by (by destruct s).
  assert (forall q c k', nested k0 (depth q) k' -> local c (on t) = Some k' ->
    forall k1, cpus0 !! i = Some k1 -> cpu_ok k1 -> nested k1 (depth (at_pc t)) (on t) ->
      local c (on t) = Some k' /\ nested k1 (depth q) k') as Hloc by (intros; by simplify_eq).
  destruct (at_pc t) eqn:Hp; cbn [access owns claims depth] in *;
    (assert (o = Some i) as -> by (by apply Ho)) || (assert (o <> Some i) as Ho' by (rewrite <- Ho; done));
    (assert (lcpu s = Some i) as Hci by (by apply Hcl)) || (assert (lcpu s <> Some i) as Hci by (rewrite <- Hcl; done)).
  - destruct (local_push2 k0 (on t) Hok Hn) as (k' & Hk' & Hn'). exists o. rewrite Hs.
    eapply (goto_inv o o); try done; rewrite ?Hp; by apply Hloc.
  - destruct (local_pop k0 1 (on t) Hok ltac:(lia) Hn) as (k' & Hk' & Hn'). exists o.
    destruct (locked s =? 0); rewrite Hs; eapply (goto_inv o o); try done; rewrite ?Hp; by apply Hloc.
  - destruct (local_pop k0 1 (on t) Hok ltac:(lia) Hn) as (k' & Hk' & Hn'). exists o.
    rewrite bool_decide_eq_false_2 by done. rewrite Hs; eapply (goto_inv o o); try done; rewrite ?Hp; by apply Hloc.
  - destruct o as [j|]; rewrite Hl; cbn [Z.eqb].
    + exists (Some j). unfold store_locked. rewrite <- Hl. by rewrite <- Hs.
    + exists (Some i). unfold store_locked. eapply (goto_inv None (Some i)); try done; rewrite ?Hp; try by apply Hloc.
      * intros j Hj. by apply Hc in Hj.
      * intros j Hj. split; [split; [done|congruence]|done].
  - exists (Some i). unfold store_cpu. eapply (goto_inv (Some i) (Some i)); try done; rewrite ?Hp; try by apply Hloc.
    intros j Hj. split; [done|]. split; [|congruence]. intros Hj'. apply Hc in Hj'. congruence.
  - destruct (local_push k0 1 (on t) Hok ltac:(lia) Hn) as (k' & Hk' & Hn'). exists (Some i). rewrite Hs.
    eapply (goto_inv (Some i) (Some i)); try done; rewrite ?Hp; by apply Hloc.
  - rewrite Hl. cbn [Z.eqb]. exists (Some i). rewrite Hs.
    eapply (goto_inv (Some i) (Some i)); try done; rewrite ?Hp; by apply Hloc.
  - destruct (local_pop k0 1 (on t) Hok ltac:(lia) Hn) as (k' & Hk' & Hn').
    rewrite bool_decide_eq_true_2 by done. exists (Some i). rewrite Hs.
    eapply (goto_inv (Some i) (Some i)); try done; rewrite ?Hp; by apply Hloc.
  - exists (Some i). unfold store_cpu. eapply (goto_inv (Some i) (Some i)); try done; rewrite ?Hp; try by apply Hloc.
    intros j Hj. split; [done|]. split; [congruence|done].
  - destruct (local_pop k0 0 (on t) Hok ltac:(lia) Hn) as (k' & Hk' & Hn').
    exists None. unfold store_locked. eapply (goto_inv (Some i) None); try done; rewrite ?Hp; try by apply Hloc.
    + intros j Hj. assert (Some i = Some j) by auto. congruence.
    + intros j Hj. split; [split; [congruence|done]|done].
  - done.
Qed.
End mutex.

Lemma lreach_inv cpus0 s :
  Forall cpu_ok cpus0 -> rtc lstep (linit cpus0) s -> exists o, linv cpus0 o s.
Proof.
  intros Hok Hr.
  assert (exists o, linv cpus0 o (linit cpus0)) as Hi.
  { exists None. split; [done|done|]. intros i t Ht. cbn [linit initlock threads] in Ht.
    apply list_lookup_fmap_Some in Ht as (k & -> & Hk). cbn [at_pc on owns claims depth].
    split_and!; [done|done|done|]. exists k. split; [done|apply nested_refl]. }
  revert Hi. induction Hr as [|x y z Hxy _ IH]; [done|].
  intros [o Ho]. apply IH. destruct Hxy as [i t s Ht]. by eapply access_inv.
Qed.

(** C26: spin locks exclude.  Whatever the interleaving of the memory accesses
    of the CPUs: no two CPUs are in the critical section; interrupts are off on
    a CPU that is there; neither [acquire] nor [release] nor [popcli] panics;
    and a CPU that is outside has its interrupt flag as it found it. *)
Theorem spinlock_mutex cpus0 s i t :
  Forall cpu_ok cpus0 -> rtc lstep (linit cpus0) s -> threads s !! i = Some t ->
  at_pc t <> Panicked /\
  (at_pc t = Critical -> interrupts_off (on t) /\ locked s = 1 /\
     forall j u, threads s !! j = Some u -> at_pc u = Critical -> j = i) /\
  (at_pc t = Outside -> exists k0, cpus0 !! i = Some k0 /\ eflags (on t) = eflags k0).
Proof.
  intros Hok Hr Ht. destruct (lreach_inv _ _ Hok Hr) as [o [Hl Hc Hthr]].
  destruct (Hthr i t Ht) as (Hnp & Ho & Hcl & k0 & Hk0 & Hn).
  split_and!; [done| |].
  - intros Hp. rewrite Hp in *. assert (o = Some i) as -> by (by apply Ho). split_and!; [|done|].
    + eapply nested_off, Hn; [|done]. rewrite Forall_lookup in Hok. by eapply Hok.
    + intros j u Hu Hpu. destruct (Hthr j u Hu) as (_ & Ho' & _). rewrite Hpu in Ho'.
      assert (Some i = Some j) by (by apply Ho'). congruence.
  - intros Hp. rewrite Hp in *. exists k0. split; [done|]. apply Hn.
Qed.

(** Two CPUs: CPU 1 takes the lock while CPU 0 is between the reads of
    [holding] and its [xchg], which then fails. *)
Definition two_cpus : list cpu := [mkCpu FL_IF 0 0; mkCpu 0 1 0].
Definition interleaving : list nat := [0; 1; 0; 1; 1; 0; 1; 0]%nat.
Definition run_lock (l : list nat) (s : lockstate) : lockstate :=
  fold_left (fun s i => match threads s !! i with Some t => access i (at_pc t) s | None => s end) l s.

Lemma run_lock_steps l s : rtc lstep s (run_lock l s).
Proof.
  revert s. induction l as [|i l IH]; intros s; [constructor|]. cbn [run_lock fold_left].
  destruct (threads s !! i) as [t|] eqn:Ht; [|apply IH].
  eapply rtc_l; [by constructor|apply IH].
Qed.

Lemma spinlock_mutex_witness :
  exists t, threads (run_lock interleaving (linit two_cpus)) !! 1%nat = Some t /\
    at_pc t = Critical /\ interrupts_off (on t) /\ at_pc t <> Panicked.
Proof.
  eexists. split; [vm_compute; reflexivity|]. split; [reflexivity|].
  edestruct (spinlock_mutex two_cpus (run_lock interleaving (linit two_cpus)) 1) as (H1 & H2 & _).
  - repeat constructor; simpl; lia || done.
  - apply run_lock_steps.
  - vm_compute. reflexivity.
  - split; [by apply H2|exact H1].
Defined.
