(* ===== verification/Rand.v ===== *)
(** * The pseudo-random generator of the lottery (src/rand.c)

    The generator's static variable [lfsr] is passed as an argument and its
    new value returned.  [random_at_most] has a rejection loop, so it takes a
    fuel: [None] means the loop is still drawing.  The loop ends within 17
    draws when the requested range fits in 16 bits, and never otherwise. *)

From Stdlib Require Import ZArith Lia.
From stdpp Require Import prelude list numbers sorting.
From stdpp Require Import pmap mapset.
From S2P Require Import Prelude.

Module Rand.

(** [static unsigned short lfsr = 0xACE1u] *)
Definition lfsr_seed : Z := 0xACE1.

(** The feedback bit: taps 0, 2, 3 and 5. *)
Definition feedback (lfsr : Z) : Z :=
  Z.land (Z.lxor (Z.lxor (Z.lxor (Z.shiftr lfsr 0) (Z.shiftr lfsr 2))
                         (Z.shiftr lfsr 3)) (Z.shiftr lfsr 5)) 1.

(** [rand]: the value returned is the new register. *)
Definition rand (lfsr : Z) : Z :=
  u16 (Z.lor (Z.shiftr lfsr 1) (Z.shiftl (feedback lfsr) 15)).

(** The [do ... while] loop of [random_at_most]. *)
Fixpoint draw (fuel : nat) (lfsr num_bins : Z) : option (Z * Z) :=
  match fuel with
  | O => None
  | S fuel =>
      let lfsr := rand lfsr in
      let result := lfsr in
      if 65536 - 65536 mod num_bins <=? result
      then draw fuel lfsr num_bins
      else Some (result, lfsr)
  end.

(** [random_at_most max], with the new register. *)
Definition random_at_most (fuel : nat) (lfsr max : Z) : option (Z * Z) :=
  if max <=? 0 then Some (0, lfsr)
  else
    let num_bins := u32 (max + 1) in
    match draw fuel lfsr num_bins with
    | Some (result, lfsr) => Some (s32 (result mod num_bins), lfsr)
    | None => None
    end.

(** Draws made by the loop before it accepts. *)
Definition draw_fuel : nat := 17.

(** ** The register *)

Lemma feedback_bit l : feedback l = 0 \/ feedback l = 1.
Proof.
  unfold feedback. generalize (Z.lxor (Z.lxor (Z.lxor (Z.shiftr l 0) (Z.shiftr l 2))
    (Z.shiftr l 3)) (Z.shiftr l 5)). intros x.
  rewrite (Z.land_ones x 1 ltac:(lia) : Z.land x 1 = _). change (2 ^ 1) with 2.
  pose proof (Z.mod_pos_bound x 2). lia.
Qed.

Lemma land_pow2_small x n : 0 <= n -> 0 <= x < 2 ^ n -> Z.land x (2 ^ n) = 0.
Proof.
  intros Hn Hx. apply Z.bits_inj'. intros k Hk.
  rewrite Z.land_spec, Z.bits_0, Z.pow2_bits_eqb by lia.
  destruct (Z.eqb_spec n k) as [->|]; [|by rewrite andb_false_r].
  rewrite andb_true_r. destruct (Z.eq_dec x 0) as [->|]; [apply Z.bits_0|].
  apply Z.bits_above_log2; [lia|]. apply Z.log2_lt_pow2; lia.
Qed.

(** A step shifts the register and puts the feedback bit on top. *)
Lemma rand_step l :
  0 <= l < 65536 -> rand l = l / 2 + 32768 * feedback l.
Proof.
  intros Hl. unfold rand.
  rewrite (Z.shiftr_div_pow2 l 1) by lia. change (2 ^ 1) with 2.
  assert (0 <= l / 2 < 32768) by (split; [apply Z.div_pos|apply Z.div_lt_upper_bound]; lia).
  destruct (feedback_bit l) as [-> | ->].
  - change (Z.shiftl 0 15) with 0. rewrite Z.lor_0_r, u16_id; lia.
  - change (Z.shiftl 1 15) with (2 ^ 15). rewrite <- Z.lxor_lor by (apply land_pow2_small; lia).
    rewrite <- Z.add_nocarry_lxor by (apply land_pow2_small; lia). rewrite u16_id; lia.
Qed.

Lemma rand_range l : 0 <= l < 65536 -> 0 <= rand l < 65536.
Proof. intros. apply u16_bound. Qed.

(** The register never becomes zero. *)
Lemma rand_nonzero l : 0 < l < 65536 -> 0 < rand l < 65536.
Proof.
  intros Hl. rewrite rand_step by lia.
  assert (l = 1 \/ 1 <= l / 2 < 32768) as [-> | H].
  { destruct (Z.eq_dec l 1); [by left|right].
    split; [apply Z.div_le_lower_bound|apply Z.div_lt_upper_bound]; lia. }
  - by vm_compute.
  - destruct (feedback_bit l) as [-> | ->]; lia.
Qed.

(** ** The rejection loop *)

Lemma accept_limit n : 0 < n <= 65536 -> 32768 < 65536 - 65536 mod n <= 65536.
Proof.
  intros Hn. pose proof (Z.mod_pos_bound 65536 n).
  destruct (Z_le_gt_dec n 32768).
  - lia.
  - destruct (Z.eq_dec n 65536) as [->|]; [by vm_compute|].
    assert (65536 mod n = 65536 - n) as ->; [|lia].
    symmetry. apply (Z.mod_unique_pos 65536 n 1); lia.
Qed.

(** After [k] rejected draws the top [k] bits of the register are ones. *)
Lemma draw_accepts_from k l n :
  0 < n <= 65536 -> (k <= 16)%nat ->
  65536 - 2 ^ (16 - Z.of_nat k) <= l < 65536 ->
  exists v, draw (17 - k) l n = Some (v, v) /\ v < 65536 - 65536 mod n.
Proof.
  intros Hn Hk. remember (16 - k)%nat as j eqn:Hj. revert k l Hk Hj.
  pose proof (accept_limit n Hn) as Hlim.
  induction j as [|j IH]; intros k l Hk Hj Hl.
  - assert (k = 16%nat) by lia; subst k. change (2 ^ (16 - Z.of_nat 16)) with 1 in Hl.
    assert (l = 65535) by lia; subst l. exists 32767. simpl.
    change (rand 65535) with 32767.
    destruct (Z.leb_spec (65536 - 65536 mod n) 32767); [lia|done].
  - replace (17 - k)%nat with (S (17 - S k)) by lia. simpl.
    destruct (Z.leb_spec (65536 - 65536 mod n) (rand l)) as [Hrej|Hacc]; [|by eexists].
    assert (0 <= l) by (pose proof (Z.pow_le_mono_r 2 (16 - Z.of_nat k) 16); lia).
    replace (16 - k)%nat with (17 - S k)%nat by lia.
    apply (IH (S k)); [lia|lia|].
    replace (16 - Z.of_nat k) with (16 - Z.of_nat (S k) + 1) in Hl by lia.
    rewrite Z.pow_add_r in Hl by lia. change (2 ^ 1) with 2 in Hl.
    rewrite rand_step in * by lia.
    pose proof (Z.div_lt_upper_bound l 2 32768).
    destruct (feedback_bit l) as [Hf|Hf]; rewrite Hf in *; [lia|].
    assert (32768 - 2 ^ (16 - Z.of_nat (S k)) <= l / 2) by (apply Z.div_le_lower_bound; lia).
    lia.
Qed.

Lemma draw_terminates l n :
  0 < n <= 65536 -> 0 <= l < 65536 ->
  exists v, draw draw_fuel l n = Some (v, v) /\ v < 65536 - 65536 mod n.
Proof. intros Hn Hl. apply (draw_accepts_from 0 l n Hn); [lia|]. simpl. lia. Qed.

Lemma draw_range fuel l n v l' :
  0 <= l < 65536 -> draw fuel l n = Some (v, l') -> l' = v /\ 0 <= v < 65536.
Proof.
  revert l. induction fuel as [|fuel IH]; intros l Hl; simpl; [done|].
  pose proof (rand_range l Hl).
  destruct (Z.leb_spec (65536 - 65536 mod n) (rand l)); [by apply IH|].
  intros [= <- <-]. done.
Qed.

Lemma draw_rejects_all fuel l n : 65536 < n -> 0 <= l < 65536 -> draw fuel l n = None.
Proof.
  intros Hn. revert l. induction fuel as [|fuel IH]; intros l Hl; simpl; [done|].
  pose proof (rand_range l Hl). rewrite (Z.mod_small 65536 n) by lia.
  destruct (Z.leb_spec (65536 - 65536) (rand l)); [by apply IH|lia].
Qed.

Lemma draw_nonzero fuel l n v l' :
  0 < l < 65536 -> draw fuel l n = Some (v, l') -> 0 < l' < 65536.
Proof.
  revert l. induction fuel as [|fuel IH]; intros l Hl; simpl; [done|].
  pose proof (rand_nonzero l Hl).
  destruct (Z.leb_spec (65536 - 65536 mod n) (rand l)); [by apply IH|].
  by intros [= _ <-].
Qed.

(** More fuel does not change the result. *)
Lemma draw_mono f1 f2 l n r : (f1 <= f2)%nat -> draw f1 l n = Some r -> draw f2 l n = Some r.
Proof.
  revert f2 l. induction f1 as [|f1 IH]; intros f2 l Hle; simpl; [done|].
  destruct f2 as [|f2]; [lia|]. simpl.
  destruct (65536 - 65536 mod n <=? rand l); [apply IH; lia|done].
Qed.

Lemma random_at_most_mono f1 f2 l m r :
  (f1 <= f2)%nat -> random_at_most f1 l m = Some r -> random_at_most f2 l m = Some r.
Proof.
  intros Hle. unfold random_at_most. destruct (m <=? 0); [done|].
  destruct (draw f1 l (u32 (m + 1))) as [[v l']|] eqn:E; [|done].
  by rewrite (draw_mono f1 f2 _ _ _ Hle E).
Qed.

(** ** The period

    [rands n] is [n] steps of the register.  A step is linear over bits (it
    commutes with [xor]), so [2^k] steps are given by the images of the 16
    powers of two; [jump] computes any number of steps by squaring. *)

Definition rands (n : nat) (l : Z) : Z := Nat.iter n rand l.
Definition period : nat := Pos.to_nat 65535.

Lemma period_Z : Z.of_nat period = 65535.
Proof. unfold period. lia. Qed.


Lemma rands_add n m l : rands (n + m) l = rands n (rands m l).
Proof. unfold rands. apply Nat.iter_add. Qed.

Lemma rands_S n l : rands (S n) l = rands n (rand l).
Proof. unfold rands. apply Nat.iter_succ_r. Qed.

Lemma rands_range n l : 0 <= l < 2 ^ 16 -> 0 <= rands n l < 2 ^ 16.
Proof.
  revert l. induction n as [|n IH]; intros l Hl; [done|].
  rewrite rands_S. apply IH, (rand_range l Hl).
Qed.

Lemma rands_nonzero n l : 0 < l < 65536 -> 0 < rands n l < 65536.
Proof.
  revert l. induction n as [|n IH]; intros l Hl; [done|].
  rewrite rands_S. apply IH, rand_nonzero, Hl.
Qed.

(** *** Linearity *)

Definition linear16 (f : Z -> Z) : Prop :=
  f 0 = 0 /\
  (forall a, 0 <= a < 2 ^ 16 -> 0 <= f a < 2 ^ 16) /\
  (forall a b, 0 <= a < 2 ^ 16 -> 0 <= b < 2 ^ 16 -> f (Z.lxor a b) = Z.lxor (f a) (f b)).

Lemma lxor_range n a b : 0 <= n -> 0 <= a < 2 ^ n -> 0 <= b < 2 ^ n -> 0 <= Z.lxor a b < 2 ^ n.
Proof.
  intros Hn Ha Hb.
  assert (0 <= Z.lxor a b) by (apply Z.lxor_nonneg; lia). split; [done|].
  destruct (Z.eq_dec (Z.lxor a b) 0) as [->|]; [lia|].
  apply Z.log2_lt_cancel. rewrite Z.log2_pow2 by lia.
  assert (forall x, 0 <= x < 2 ^ n -> x = 0 \/ Z.log2 x < n) as Hlog.
  { intros x Hx. destruct (Z.eq_dec x 0); [by left|right]. apply Z.log2_lt_pow2; lia. }
  destruct (Hlog a Ha) as [->|]; [|destruct (Hlog b Hb) as [->|]].
  - rewrite Z.lxor_0_l in *. destruct (Hlog b Hb); lia.
  - rewrite Z.lxor_0_r in *. lia.
  - pose proof (Z.log2_lxor a b). lia.
Qed.

Lemma rand_bits l k :
  0 <= l < 2 ^ 16 -> 0 <= k ->
  Z.testbit (rand l) k =
  if k <? 15 then Z.testbit l (k + 1)
  else if k =? 15 then xorb (xorb (xorb (Z.testbit l 0) (Z.testbit l 2)) (Z.testbit l 3)) (Z.testbit l 5)
  else false.
Proof.
  intros Hl Hk. unfold rand, u16, feedback.
  rewrite <- Z.land_ones by lia.
  rewrite Z.land_spec, Z.testbit_ones by lia.
  rewrite Z.lor_spec, Z.shiftr_spec, Z.shiftl_spec by lia.
  destruct (Z.ltb_spec k 15).
  - rewrite (Z.testbit_neg_r _ (k - 15)) by lia. rewrite orb_false_r.
    destruct (Z.leb_spec 0 k), (Z.ltb_spec k 16); try lia. by rewrite andb_true_r.
  - assert (Z.testbit l (k + 1) = false) as ->.
    { destruct (Z.eq_dec l 0) as [->|]; [apply Z.bits_0|].
      apply Z.bits_above_log2; [lia|]. apply Z.log2_lt_pow2; [lia|].
      pose proof (Z.pow_le_mono_r 2 16 (k + 1)). lia. }
    destruct (Z.eqb_spec k 15) as [->|].
    + change (15 - 15) with 0. rewrite Z.land_spec, !Z.lxor_spec, !Z.shiftr_spec by lia.
      by rewrite !andb_true_r.
    + destruct (Z.leb_spec 0 k), (Z.ltb_spec k 16); (lia || by rewrite andb_false_r).
Qed.

Lemma rand_linear : linear16 rand.
Proof.
  split; [done|split]; [apply rand_range|]. intros a b Ha Hb.
  apply Z.bits_inj'. intros k Hk.
  rewrite Z.lxor_spec, !rand_bits by (try apply lxor_range; lia).
  destruct (k <? 15); [by rewrite Z.lxor_spec|].
  destruct (k =? 15); [|done]. rewrite !Z.lxor_spec.
  by destruct (Z.testbit a 0), (Z.testbit a 2), (Z.testbit a 3), (Z.testbit a 5),
    (Z.testbit b 0), (Z.testbit b 2), (Z.testbit b 3), (Z.testbit b 5).
Qed.

Lemma rands_linear n : linear16 (rands n).
Proof.
  destruct rand_linear as (H0 & Hr & Hx).
  induction n as [|n (IH0 & IHr & IHx)]; [by split|].
  unfold rands in *. split_and!; simpl.
  - by rewrite IH0.
  - intros a Ha. by apply Hr, IHr.
  - intros a b Ha Hb. rewrite IHx, Hx by auto. done.
Qed.

(** *** Jumping *)

Fixpoint apply_matrix (M : list Z) (x : Z) : Z :=
  match M with
  | [] => 0
  | m :: M => Z.lxor (if Z.odd x then m else 0) (apply_matrix M (Z.div2 x))
  end.

Fixpoint basis (n : nat) (e : Z) : list Z :=
  match n with O => [] | S n => e :: basis n (2 * e) end.

Definition square (M : list Z) : list Z := apply_matrix M <$> M.

Fixpoint jump (p : positive) (M : list Z) (x : Z) : Z :=
  match p with
  | xH => apply_matrix M x
  | xO p => jump p (square M) x
  | xI p => jump p (square M) (apply_matrix M x)
  end.

Lemma apply_matrix_basis f n k x :
  linear16 f -> (k + n = 16)%nat -> 0 <= x < 2 ^ Z.of_nat n ->
  apply_matrix (f <$> basis n (2 ^ Z.of_nat k)) x = f (x * 2 ^ Z.of_nat k).
Proof.
  intros (H0 & Hr & Hx). revert k x. induction n as [|n IH]; intros k x Hk Hxr; simpl.
  { change (2 ^ Z.of_nat 0) with 1 in Hxr. by replace x with 0 by lia. }
  rewrite Nat2Z.inj_succ, Z.pow_succ_r in Hxr by lia.
  assert (2 * 2 ^ Z.of_nat k = 2 ^ Z.of_nat (S k)) as Hpk
    by (rewrite Nat2Z.inj_succ, Z.pow_succ_r; lia).
  assert (2 ^ Z.of_nat n * 2 ^ Z.of_nat (S k) = 2 ^ 16) as Hp16
    by (rewrite <- Z.pow_add_r by lia; f_equal; lia).
  pose proof (Z.div2_odd x) as Hodd.
  assert (0 <= Z.div2 x < 2 ^ Z.of_nat n).
  { rewrite Z.div2_div. split; [apply Z.div_pos|apply Z.div_lt_upper_bound]; lia. }
  assert (0 < 2 ^ Z.of_nat k) by (apply Z.pow_pos_nonneg; lia).
  rewrite Hpk, IH, <- Hpk by lia. rewrite <- Hpk in Hp16.
  destruct (Z.odd x); cbn [Z.b2z] in Hodd.
  - rewrite <- Hx by nia. f_equal. rewrite <- Z.add_nocarry_lxor; [nia|].
    rewrite Z.land_comm, Hpk. apply Z.bits_inj'. intros j Hj.
    rewrite Z.land_spec, Z.bits_0, Z.pow2_bits_eqb by lia.
    destruct (Z.eqb_spec (Z.of_nat k) j) as [<-|]; [|by rewrite andb_false_r].
    rewrite andb_true_r. apply Z.mul_pow2_bits_low. lia.
  - rewrite Z.lxor_0_l. f_equal. nia.
Qed.

Lemma apply_basis f x : linear16 f -> 0 <= x < 2 ^ 16 -> apply_matrix (f <$> basis 16 1) x = f x.
Proof.
  intros Hf Hx. pose proof (apply_matrix_basis f 16 0 x Hf eq_refl Hx) as H.
  change (2 ^ Z.of_nat 0) with 1 in H. rewrite H. f_equal. lia.
Qed.

Lemma basis_range : Forall (fun e => 0 <= e < 2 ^ 16) (basis 16 1).
Proof. simpl. repeat constructor; lia. Qed.

Lemma square_rands n : square (rands n <$> basis 16 1) = rands (n + n) <$> basis 16 1.
Proof.
  unfold square. rewrite <- list_fmap_compose. apply list_fmap_ext. intros i e He.
  pose proof basis_range as Hb. rewrite Forall_lookup in Hb. specialize (Hb i e He).
  unfold compose. rewrite (apply_basis _ _ (rands_linear n) (rands_range _ _ Hb)).
  by rewrite rands_add.
Qed.

Lemma jump_rands p n x :
  0 <= x < 2 ^ 16 -> jump p (rands n <$> basis 16 1) x = rands (Pos.to_nat p * n) x.
Proof.
  revert n x. induction p as [p IH|p IH|]; intros n x Hx; cbn [jump].
  - rewrite square_rands, apply_basis, IH by auto using rands_linear, rands_range.
    rewrite <- rands_add. f_equal. lia.
  - rewrite square_rands, IH by done. f_equal. lia.
  - rewrite apply_basis by auto using rands_linear. f_equal. lia.
Qed.

Definition step_matrix : list Z := rands 1 <$> basis 16 1.

Lemma seed_jump p : rands (Pos.to_nat p) lfsr_seed = jump p step_matrix lfsr_seed.
Proof.
  unfold step_matrix. rewrite jump_rands by (unfold lfsr_seed; lia). f_equal. lia.
Qed.

(** *** The order of the seed *)

Definition returns (n : nat) : Prop := rands n lfsr_seed = lfsr_seed.

Lemma returns_period : returns period.
Proof.
  unfold returns, period. rewrite seed_jump. by vm_compute.
Qed.

#[local] Opaque period.

Lemma returns_mul k n : returns n -> returns (k * n).
Proof.
  unfold returns. intros Hn. induction k as [|k IH]; [done|].
  simpl. by rewrite rands_add, IH.
Qed.

Lemma returns_gcd n m : (0 < n)%nat -> returns n -> returns m -> returns (Nat.gcd n m).
Proof.
  intros Hpos Hn Hm. destruct (Nat.gcd_bezout_pos n m Hpos) as (u & v & Huv).
  pose proof (returns_mul u n Hn) as H1. rewrite Huv in H1.
  unfold returns in *. by rewrite rands_add, (returns_mul v m Hm) in H1.
Qed.

(** The maximal proper divisors of 65535 = 3 * 5 * 17 * 257 do not return. *)
Lemma not_returns :
  ~ returns (Pos.to_nat 21845) /\ ~ returns (Pos.to_nat 13107) /\
  ~ returns (Pos.to_nat 3855) /\ ~ returns (Pos.to_nat 255).
Proof. unfold returns. rewrite !seed_jump. by vm_compute. Qed.

Lemma divides_prime_factor p q r :
  forallb (fun g => negb (p mod g =? 0) || (g =? 1) || (g =? p)) (seqZ 1 p) = true ->
  0 < p -> (q | p * r) -> (p | q) \/ (q | r).
Proof.
  intros Hp Hpos Hdiv.
  assert (Z.gcd q p = 1 \/ Z.gcd q p = p) as [Hg|Hg].
  { pose proof (Z.gcd_divide_r q p) as Hd. pose proof (Z.gcd_nonneg q p).
    assert (0 < Z.gcd q p <= p) by (destruct (Z.eq_dec (Z.gcd q p) 0) as [E|];
      [rewrite E in Hd; apply Z.divide_0_l in Hd; lia|
       split; [lia|apply Z.divide_pos_le; [lia|done]]]).
    rewrite forallb_forall in Hp. specialize (Hp (Z.gcd q p)).
    apply Z.mod_divide in Hd; [|lia].
    rewrite Hd in Hp. simpl in Hp. rewrite orb_true_iff, !Z.eqb_eq in Hp.
    apply Hp, list_elem_of_In, elem_of_seqZ. lia. }
  - right. by apply (Z.gauss q p r).
  - left. rewrite <- Hg. apply Z.gcd_divide_l.
Qed.

Lemma returns_least n : (0 < n < period)%nat -> ~ returns n.
Proof.
  intros Hn Hret. pose proof period_Z as HP.
  pose proof (returns_gcd n period ltac:(lia) Hret returns_period) as Hg.
  destruct (Nat.gcd_divide_r n period) as [q Hq].
  set (g := Nat.gcd n period) in *.
  assert (g <= n)%nat by (apply Nat.divide_pos_le; [lia|apply Nat.gcd_divide_l]).
  assert (1 < Z.of_nat q) by nia.
  assert (forall p d : positive, (Zpos p * Zpos d = 65535)%Z -> ~ returns (Pos.to_nat d) ->
    ~ (Zpos p | Z.of_nat q)) as Hno.
  { intros p d Hpd Hd [c Hc]. apply Hd.
    assert (Pos.to_nat d = Z.to_nat c * g)%nat as -> by nia. by apply returns_mul. }
  destruct not_returns as (H3 & H5 & H17 & H257).
  assert (Z.of_nat q | 3 * (5 * (17 * (257 * 1)))) as Hdiv by (exists (Z.of_nat g); lia).
  destruct (divides_prime_factor 3 _ _ eq_refl ltac:(lia) Hdiv) as [H'|Hdiv1];
    [exact (Hno 3%positive 21845%positive eq_refl H3 H')|].
  destruct (divides_prime_factor 5 _ _ eq_refl ltac:(lia) Hdiv1) as [H'|Hdiv2];
    [exact (Hno 5%positive 13107%positive eq_refl H5 H')|].
  destruct (divides_prime_factor 17 _ _ eq_refl ltac:(lia) Hdiv2) as [H'|Hdiv3];
    [exact (Hno 17%positive 3855%positive eq_refl H17 H')|].
  destruct (divides_prime_factor 257 _ _ eq_refl ltac:(lia) Hdiv3) as [H'|Hdiv4];
    [exact (Hno 257%positive 255%positive eq_refl H257 H')|].
  apply Z.divide_1_r_nonneg in Hdiv4; lia.
Qed.

Lemma rands_seed_inj i j :
  (i < j < period)%nat -> rands i lfsr_seed <> rands j lfsr_seed.
Proof.
  intros Hij Heq. apply (returns_least (j - i)); [lia|]. unfold returns.
  apply (f_equal (rands (period - i))) in Heq. rewrite <- !rands_add in Heq.
  replace (period - i + i)%nat with period in Heq by lia.
  replace (period - i + j)%nat with (j - i + period)%nat in Heq by lia.
  by rewrite rands_add, !returns_period in Heq.
Qed.

(** From the seed, every nonzero 16-bit value comes up. *)
Lemma seed_reaches x : 0 < x < 65536 -> exists k, (k < period)%nat /\ rands k lfsr_seed = x.
Proof.
  intros Hx.
  set (L := (fun k => rands k lfsr_seed) <$> seq 0 period).
  assert (NoDup L) as Hnd.
  { apply NoDup_alt. intros i j y Hi Hj. unfold L in *.
    rewrite list_lookup_fmap in Hi, Hj.
    apply fmap_Some in Hi as (i' & [-> Hi']%lookup_seq & ->).
    apply fmap_Some in Hj as (j' & [-> Hj']%lookup_seq & Heq). simpl in Heq.
    destruct (Nat.lt_trichotomy i j) as [Hlt|[?|Hgt]]; [|done|]; exfalso.
    - by apply (rands_seed_inj i j).
    - by apply (rands_seed_inj j i). }
  assert (L ≡ₚ seqZ 1 65535) as Hperm.
  { apply submseteq_length_Permutation.
    - apply NoDup_submseteq; [done|]. intros y Hy. unfold L in Hy.
      apply list_elem_of_fmap in Hy as (k & -> & _). apply elem_of_seqZ.
      pose proof (rands_nonzero k lfsr_seed ltac:(unfold lfsr_seed; lia)). lia.
    - unfold L. rewrite length_fmap, length_seq, length_seqZ. pose proof period_Z. lia. }
  assert (x ∈ L) as HxL by (rewrite Hperm; apply elem_of_seqZ; lia).
  apply list_elem_of_fmap in HxL as (k & -> & Hk%elem_of_seq). exists k. split; [lia|done].
Qed.

(** Full period: from any nonzero register every nonzero value comes up
    within 65535 draws. *)
Lemma full_period l x :
  0 < l < 65536 -> 0 < x < 65536 -> exists k, (0 < k <= period)%nat /\ rands k l = x.
Proof.
  intros Hl Hx.
  destruct (seed_reaches l Hl) as (i & Hi & <-).
  destruct (seed_reaches x Hx) as (j & Hj & <-).
  destruct (decide (i < j)%nat) as [Hlt|Hge].
  - exists (j - i)%nat. split; [lia|]. rewrite <- rands_add.
    by replace (j - i + i)%nat with j by lia.
  - exists (j + (period - i))%nat. split; [lia|]. rewrite <- rands_add.
    replace (j + (period - i) + i)%nat with (j + period)%nat by lia.
    by rewrite rands_add, returns_period.
Qed.

End Rand.
