(* ===== verification/Sched.v ===== *)
(** * The process table and the lottery scheduler (src/proc.h, src/proc.c)

    The scheduling half of proc.c: the process table, [sleep] and [wakeup],
    [yield], [kill], [settickets] and one pass of the [for(;;)] loop of
    [scheduler].  Process creation and exit are in the file Proc. *)

From Stdlib Require Import ZArith Lia String.
From stdpp Require Import prelude list numbers strings option.
From S2P Require Import Prelude Kernel Rand.
Import Rand.

Definition NPROC : nat := 64.
Definition NOFILE : nat := 16.
Definition KSTACKSIZE : Z := 4096.

(** ** Data *)

Inductive procstate : Type := UNUSED | EMBRYO | SLEEPING | RUNNABLE | RUNNING | ZOMBIE.

#[export] Instance procstate_eq_dec : EqDecision procstate.
Proof. solve_decision. Defined.

(** The trap frame: registers pushed by [pusha], segment registers, and what
    the hardware pushes (the padding halves are left out). *)
Record trapframe : Type := mkTf {
  edi : Z; esi : Z; ebp : Z; oesp : Z; ebx : Z; edx : Z; ecx : Z; eax : Z;
  gs : Z; fs : Z; es : Z; ds : Z; trapno : Z;
  err : Z; eip : Z; cs : Z; eflags : Z; esp : Z; ss : Z }.

(** The saved registers of a kernel thread. *)
Record context : Type := mkCtx {
  c_edi : Z; c_esi : Z; c_ebx : Z; c_ebp : Z; c_eip : Z }.

(** [struct proc].  Pointers to a process are indices into the table, open
    files are indices into the file table and [cwd] one into the inode cache;
    [tf] and [ctx] are the frames that lie on the kernel stack. *)
Record proc : Type := mkProc {
  sz : Z;
  pgdir : Z;
  kstack : Z;
  state : procstate;
  pid : Z;
  parent : option nat;
  tf : trapframe;
  ctx : context;
  pchan : option chan;
  killed : Z;
  ofile : list (option nat);
  cwd : option nat;
  name : list Z;
  tickets : Z;
  preempted : Z;
  runticks : Z }.

Definition set_sz v p := mkProc v (pgdir p) (kstack p) (state p) (pid p) (parent p) (tf p) (ctx p) (pchan p) (killed p) (ofile p) (cwd p) (name p) (tickets p) (preempted p) (runticks p).
Definition set_pgdir v p := mkProc (sz p) v (kstack p) (state p) (pid p) (parent p) (tf p) (ctx p) (pchan p) (killed p) (ofile p) (cwd p) (name p) (tickets p) (preempted p) (runticks p).
Definition set_kstack v p := mkProc (sz p) (pgdir p) v (state p) (pid p) (parent p) (tf p) (ctx p) (pchan p) (killed p) (ofile p) (cwd p) (name p) (tickets p) (preempted p) (runticks p).
Definition set_state v p := mkProc (sz p) (pgdir p) (kstack p) v (pid p) (parent p) (tf p) (ctx p) (pchan p) (killed p) (ofile p) (cwd p) (name p) (tickets p) (preempted p) (runticks p).
Definition set_pid v p := mkProc (sz p) (pgdir p) (kstack p) (state p) v (parent p) (tf p) (ctx p) (pchan p) (killed p) (ofile p) (cwd p) (name p) (tickets p) (preempted p) (runticks p).
Definition set_parent v p := mkProc (sz p) (pgdir p) (kstack p) (state p) (pid p) v (tf p) (ctx p) (pchan p) (killed p) (ofile p) (cwd p) (name p) (tickets p) (preempted p) (runticks p).
Definition set_tf v p := mkProc (sz p) (pgdir p) (kstack p) (state p) (pid p) (parent p) v (ctx p) (pchan p) (killed p) (ofile p) (cwd p) (name p) (tickets p) (preempted p) (runticks p).
Definition set_ctx v p := mkProc (sz p) (pgdir p) (kstack p) (state p) (pid p) (parent p) (tf p) v (pchan p) (killed p) (ofile p) (cwd p) (name p) (tickets p) (preempted p) (runticks p).
Definition set_chan v p := mkProc (sz p) (pgdir p) (kstack p) (state p) (pid p) (parent p) (tf p) (ctx p) v (killed p) (ofile p) (cwd p) (name p) (tickets p) (preempted p) (runticks p).
Definition set_killed v p := mkProc (sz p) (pgdir p) (kstack p) (state p) (pid p) (parent p) (tf p) (ctx p) (pchan p) v (ofile p) (cwd p) (name p) (tickets p) (preempted p) (runticks p).
Definition set_ofile v p := mkProc (sz p) (pgdir p) (kstack p) (state p) (pid p) (parent p) (tf p) (ctx p) (pchan p) (killed p) v (cwd p) (name p) (tickets p) (preempted p) (runticks p).
Definition set_cwd v p := mkProc (sz p) (pgdir p) (kstack p) (state p) (pid p) (parent p) (tf p) (ctx p) (pchan p) (killed p) (ofile p) v (name p) (tickets p) (preempted p) (runticks p).
Definition set_name v p := mkProc (sz p) (pgdir p) (kstack p) (state p) (pid p) (parent p) (tf p) (ctx p) (pchan p) (killed p) (ofile p) (cwd p) v (tickets p) (preempted p) (runticks p).
Definition set_tickets v p := mkProc (sz p) (pgdir p) (kstack p) (state p) (pid p) (parent p) (tf p) (ctx p) (pchan p) (killed p) (ofile p) (cwd p) (name p) v (preempted p) (runticks p).
Definition set_preempted v p := mkProc (sz p) (pgdir p) (kstack p) (state p) (pid p) (parent p) (tf p) (ctx p) (pchan p) (killed p) (ofile p) (cwd p) (name p) (tickets p) v (runticks p).
Definition set_runticks v p := mkProc (sz p) (pgdir p) (kstack p) (state p) (pid p) (parent p) (tf p) (ctx p) (pchan p) (killed p) (ofile p) (cwd p) (name p) (tickets p) (preempted p) v.

Definition tf0 : trapframe := mkTf 0 0 0 0 0 0 0 0 0 0 0 0 0 0 0 0 0 0 0.
Definition ctx0 : context := mkCtx 0 0 0 0 0.

(** A slot of the zero-initialised table. *)
Definition proc0 : proc :=
  mkProc 0 0 0 UNUSED 0 None tf0 ctx0 None 0 (replicate NOFILE None) None
         (replicate 16 0) 0 0 0.

(** The process table, the variables of proc.c, the generator of rand.c, and
    the part of [struct cpu] and of the CPU that scheduling changes: the
    running process, the page table register and the kernel stack of the TSS. *)
Record pstate : Type := mkPstate {
  procs : list proc;
  nextpid : Z;
  initproc : option nat;
  lfsr : Z;
  cpu_proc : option nat;
  cr3 : Z;
  esp0 : Z;
  kpgdir : Z }.

Definition set_procs v s := mkPstate v (nextpid s) (initproc s) (lfsr s) (cpu_proc s) (cr3 s) (esp0 s) (kpgdir s).
Definition set_nextpid v s := mkPstate (procs s) v (initproc s) (lfsr s) (cpu_proc s) (cr3 s) (esp0 s) (kpgdir s).
Definition set_initproc v s := mkPstate (procs s) (nextpid s) v (lfsr s) (cpu_proc s) (cr3 s) (esp0 s) (kpgdir s).
Definition set_lfsr v s := mkPstate (procs s) (nextpid s) (initproc s) v (cpu_proc s) (cr3 s) (esp0 s) (kpgdir s).
Definition set_cpu_proc v s := mkPstate (procs s) (nextpid s) (initproc s) (lfsr s) v (cr3 s) (esp0 s) (kpgdir s).
Definition set_cr3 v s := mkPstate (procs s) (nextpid s) (initproc s) (lfsr s) (cpu_proc s) v (esp0 s) (kpgdir s).
Definition set_esp0 v s := mkPstate (procs s) (nextpid s) (initproc s) (lfsr s) (cpu_proc s) (cr3 s) v (kpgdir s).
Definition set_kpgdir v s := mkPstate (procs s) (nextpid s) (initproc s) (lfsr s) (cpu_proc s) (cr3 s) (esp0 s) v.

(** [ptable.proc[i].field = ...] *)
Definition upd (i : nat) (f : proc -> proc) (s : pstate) : pstate :=
  set_procs (alter f i (procs s)) s.

Definition pstate0 : pstate := mkPstate (replicate NPROC proc0) 1 None lfsr_seed None 0 0 0.

Section sched.
Context {S : Type} `{!Has pstate S}.

Definition getp : K S pstate := gets get_part.
Definition modp (f : pstate -> pstate) : K S unit :=
  modify (fun s => put_part (f (get_part s)) s).

(** [myproc()]: 0 is [None].  Callers that dereference it use [curproc]. *)
Definition myproc : K S (option nat) := s ← getp; mret (cpu_proc s).

Definition curproc : K S (nat * proc) :=
  s ← getp;
  match cpu_proc s with
  | Some i => match procs s !! i with
              | Some p => mret (i, p)
              | None => panic "trap"
              end
  | None => panic "trap"
  end.

(** [sched]: the checks, then [swtch] to the scheduler's context. *)
Definition sched {A} : K S A :=
  '(_, p) ← curproc;
  h ← held;
  if negb (bool_decide (LPtable ∈ h)) then panic "sched ptable.lock"
  else if negb (Nat.eqb (length h) 1) then panic "sched locks"
  else if bool_decide (state p = RUNNING) then panic "sched running"
  else (fun _ s => Sched s).

(** [yield] up to its [sched()]; after it, the lock is released. *)
Definition yield {A} : K S A :=
  acquire LPtable;;
  '(i, _) ← curproc;
  modp (upd i (set_preempted 0));;
  modp (upd i (set_state RUNNABLE));;
  sched.

Definition yield_return : K S unit := release LPtable.

(** [sleep] up to its [sched()]. *)
Definition sleep {A} (ch : chan) (lk : lockid) : K S A :=
  o ← myproc;
  match o with
  | None => panic "sleep"
  | Some i =>
      when (negb (bool_decide (lk = LPtable))) (acquire LPtable;; release lk);;
      modp (upd i (set_chan (Some ch)));;
      modp (upd i (set_state SLEEPING));;
      sched
  end.

(** [sleep] after [sched()] comes back: the scheduler left [ptable.lock] held. *)
Definition sleep_return (lk : lockid) : K S unit :=
  '(i, _) ← curproc;
  modp (upd i (set_chan None));;
  when (negb (bool_decide (lk = LPtable))) (release LPtable;; acquire lk).

(** [wakeup1] *)
Definition wake_one (ch : chan) (p : proc) : proc :=
  if bool_decide (state p = SLEEPING) && bool_decide (pchan p = Some ch)
  then set_state RUNNABLE p else p.

Definition wakeup1 (ch : chan) : K S unit :=
  modp (fun s => set_procs (wake_one ch <$> procs s) s).

Definition wakeup (ch : chan) : K S unit :=
  acquire LPtable;; wakeup1 ch;; release LPtable.

(** [kill] *)
Definition kill (n : Z) : K S Z :=
  acquire LPtable;;
  s ← getp;
  match list_find (fun p => pid p = n) (procs s) with
  | Some (i, p) =>
      modp (upd i (set_killed 1));;
      when (bool_decide (state p = SLEEPING)) (modp (upd i (set_state RUNNABLE)));;
      release LPtable;;
      mret 0
  | None => release LPtable;; mret (-1)
  end.

(** [settickets] *)
Definition settickets (n t : Z) : K S Z :=
  if t <=? 0 then mret (-1)
  else
    acquire LPtable;;
    s ← getp;
    match list_find (fun p => pid p = n) (procs s) with
    | Some (i, _) =>
        modp (upd i (set_tickets t));;
        release LPtable;;
        mret 0
    | None => release LPtable;; mret (-1)
    end.

(** ** The scheduler *)

(** The first loop: [int total_tickets] over the runnable processes. *)
Fixpoint total_tickets (ps : list proc) (total : Z) : Z :=
  match ps with
  | [] => total
  | p :: ps =>
      total_tickets ps (if bool_decide (state p = RUNNABLE)
                        then s32 (total + tickets p) else total)
  end.

(** The second loop: the first runnable process at which the running sum
    exceeds the winning ticket. *)
Fixpoint pick (ps : list proc) (i : nat) (counter winner : Z) : option nat :=
  match ps with
  | [] => None
  | p :: ps =>
      if negb (bool_decide (state p = RUNNABLE)) then pick ps (Datatypes.S i) counter winner
      else
        let counter := s32 (counter + tickets p) in
        if winner <? counter then Some i
        else pick ps (Datatypes.S i) counter winner
  end.

(** [switchuvm]: the page table and kernel stack of process [i]. *)
Definition switchuvm (i : nat) : K S unit :=
  s ← getp;
  match procs s !! i with
  | None => panic "switchuvm: no process"
  | Some p =>
      if kstack p =? 0 then panic "switchuvm: no kstack"
      else if pgdir p =? 0 then panic "switchuvm: no pgdir"
      else
        modp (set_esp0 (u32 (kstack p + KSTACKSIZE)));;
        modp (set_cr3 (V2P (pgdir p)))
  end.

Definition switchkvm : K S unit := s ← getp; modp (set_cr3 (V2P (kpgdir s))).

(** One pass of [scheduler] up to [swtch]: the process now running on this
    CPU (with [ptable.lock] still held), or [None] when the pass is over. *)
Definition scheduler (fuel : nat) : K S (option nat) :=
  acquire LPtable;;
  s ← getp;
  let total := total_tickets (procs s) 0 in
  if 0 <? total then
    match random_at_most fuel (lfsr s) (total - 1) with
    | None => spin
    | Some (winner, l) =>
        modp (set_lfsr l);;
        match pick (procs s) 0 0 winner with
        | Some i =>
            modp (set_cpu_proc (Some i));;
            switchuvm i;;
            modp (upd i (set_state RUNNING));;
            mret (Some i)
        | None => release LPtable;; mret None
        end
    end
  else release LPtable;; mret None.

(** The end of the pass, after the process has switched back. *)
Definition scheduler_return : K S unit :=
  switchkvm;;
  modp (set_cpu_proc None);;
  release LPtable.

End sched.

(** ** Running the operations *)

Section runs.
Context {S : Type} `{!Has pstate S}.

Lemma getp_run h (s : S) : getp h s = Ret (get_part s) h s.
Proof. done. Qed.

Lemma modp_run f h (s : S) : modp f h s = Ret tt h (put_part (f (get_part s)) s).
Proof. done. Qed.

Lemma myproc_run h (s : S) : myproc h s = Ret (cpu_proc (get_part s)) h s.
Proof. done. Qed.

Lemma curproc_run h (s : S) i p :
  cpu_proc (get_part s) = Some i -> procs (get_part s) !! i = Some p ->
  curproc h s = Ret (i, p) h s.
Proof.
  intros Hi Hp. unfold curproc. rewrite bind_unfold, getp_run. by rewrite Hi, Hp.
Qed.

Lemma sched_run {A} (s : S) i p :
  cpu_proc (get_part s) = Some i -> procs (get_part s) !! i = Some p -> state p <> RUNNING ->
  @sched S _ A [LPtable] s = Sched s.
Proof.
  intros Hi Hp Hr. unfold sched. rewrite bind_unfold, (curproc_run _ _ i p) by done.
  rewrite bind_unfold. cbn [held length]. rewrite bool_decide_eq_true_2 by set_solver. cbn [negb Nat.eqb].
  by rewrite bool_decide_eq_false_2.
Qed.

Lemma wakeup_run ch h (s : S) :
  LPtable ∉ h ->
  wakeup ch h s =
  Ret tt h (put_part (set_procs (wake_one ch <$> procs (get_part s)) (get_part s)) s).
Proof.
  intros Hh. unfold wakeup, wakeup1. rewrite bind_unfold, acquire_free by done.
  rewrite bind_unfold, modp_run. by apply release_top.
Qed.

Lemma upd_lookup i f s j :
  procs (upd i f s) !! j = if decide (i = j) then f <$> procs s !! i else procs s !! j.
Proof.
  unfold upd. simpl. case_decide as Hij; [subst; apply list_lookup_alter_eq|].
  by apply list_lookup_alter_ne.
Qed.

(** The table after the process in slot [i] has gone to sleep. *)
Definition asleep (i : nat) (ch : chan) (s : pstate) : pstate :=
  upd i (set_state SLEEPING) (upd i (set_chan (Some ch)) s).

Lemma sleep_run {A} ch lk (s : S) i p :
  lk <> LPtable ->
  cpu_proc (get_part s) = Some i -> procs (get_part s) !! i = Some p ->
  @sleep S _ A ch lk [lk] s = Sched (put_part (asleep i ch (get_part s)) s).
Proof.
  intros Hlk Hi Hp. unfold sleep. rewrite bind_unfold, myproc_run, Hi.
  rewrite bool_decide_eq_false_2 by done. cbn [negb when].
  rewrite !bind_unfold, acquire_free by set_solver. rewrite release_second by done.
  rewrite bind_unfold, modp_run, bind_unfold, modp_run. rewrite get_put_part, put_put_part.
  apply (sched_run _ i (set_state SLEEPING (set_chan (Some ch) p))); rewrite ?get_put_part; [done| |done].
  by rewrite !upd_lookup, !decide_True, Hp by done.
Qed.

Lemma sleep_return_run lk (s : S) i p :
  lk <> LPtable ->
  cpu_proc (get_part s) = Some i -> procs (get_part s) !! i = Some p ->
  sleep_return lk [LPtable] s = Ret tt [lk] (put_part (upd i (set_chan None) (get_part s)) s).
Proof.
  intros Hlk Hi Hp. unfold sleep_return. rewrite bind_unfold, (curproc_run _ _ i p) by done.
  rewrite bind_unfold, modp_run, bool_decide_eq_false_2 by done. cbn [negb when].
  rewrite bind_unfold, release_top by set_solver. by rewrite acquire_free by set_solver.
Qed.
End runs.

(** Symbolic execution of kernel code that uses the process table. *)
Ltac kstep :=
  first [ kstep_base
        | rewrite getp_run; cbv beta iota
        | rewrite modp_run; cbv beta iota
        | rewrite myproc_run; cbv beta iota
        | rewrite wakeup_run by not_held; cbv beta iota ];
  autorewrite with parts.
Ltac ksteps := repeat kstep.

(** ** The running process *)

(** The process with number [n] runs on this CPU. *)
Definition current (s : pstate) (n : Z) : Prop :=
  exists i p, cpu_proc s = Some i /\ procs s !! i = Some p /\ pid p = n /\ state p = RUNNING.

(** Some sleeping processes have been made runnable; nothing else happened. *)
Record woke (s s' : pstate) : Prop := {
  wk_rest : s' = set_procs (procs s') s;
  wk_procs : Forall2 (fun p p' => p' = p \/ (state p = SLEEPING /\ p' = set_state RUNNABLE p)) (procs s) (procs s') }.

#[export] Instance woke_refl : Reflexive woke.
Proof.
  intros s. split; [by destruct s|]. apply Forall_Forall2_diag, Forall_true. by left.
Qed.

Lemma woke_trans s1 s2 s3 : woke s1 s2 -> woke s2 s3 -> woke s1 s3.
Proof.
  intros [E1 H1] [E2 H2]. split; [rewrite E2, E1; done|].
  clear E1 E2. revert H1 H2. generalize (procs s1), (procs s2), (procs s3).
  intros l1 l2 l3 H1. revert l3. induction H1 as [|p p' l l' Hp H1 IH]; intros l3 H2.
  - by apply Forall2_nil_inv_l in H2 as ->.
  - apply Forall2_cons_inv_l in H2 as (p'' & l'' & Hp' & H2 & ->). constructor; [|by apply IH].
    destruct Hp as [->|[Hs ->]], Hp' as [->|[Hs' ->]]; auto.
Qed.

Lemma woke_current s s' n : woke s s' -> current s n -> current s' n.
Proof.
  intros [E H] (i & p & Hi & Hp & Hn & Hr). rewrite E.
  destruct (Forall2_lookup_l _ _ _ _ _ H Hp) as (p' & Hp' & [->|[Hs _]]); [|congruence].
  exists i, p. by rewrite E in Hp'.
Qed.

Lemma woke_wakeup ch s : woke s (set_procs (wake_one ch <$> procs s) s).
Proof.
  split; [done|]. cbn. apply Forall2_fmap_r, Forall_Forall2_diag, Forall_true. intros p. unfold wake_one.
  destruct (bool_decide (state p = SLEEPING)) eqn:E; unfold compose; rewrite E; cbn [andb]; [|by left].
  apply bool_decide_eq_true in E. destruct (bool_decide _); [by right|by left].
Qed.
