(* ===== verification/Lottery.v ===== *)
(** * Correctness of the lottery

    The scheduler's two loops give every runnable process exactly its tickets
    among the winning numbers, the draw always ends for at most 65536 tickets
    in total, and over the rounds of a period of the generator every process
    runs in exact proportion to its tickets.  A round is the scheduler's pass,
    the turn of the winner and its [yield]. *)

From Stdlib Require Import ZArith Lia String.
From stdpp Require Import prelude list numbers strings option.
From S2P Require Import Prelude Kernel Rand Sched.
Import Rand.

(** ** The ticket line *)

(** Tickets a process has in the current draw. *)
Definition weight (p : proc) : Z := if bool_decide (state p = RUNNABLE) then tickets p else 0.
Definition tix (ps : list proc) : Z := Zsum (weight <$> ps).

(** No process has a negative number of tickets. *)
Definition tickets_nonneg (ps : list proc) : Prop := Forall (fun p => 0 <= tickets p) ps.

Lemma tix_cons p ps : tix (p :: ps) = weight p + tix ps.
Proof. done. Qed.

Lemma weight_nonneg p : 0 <= tickets p -> 0 <= weight p.
Proof. intros. unfold weight. case_test; lia. Qed.

Lemma tix_nonneg ps : tickets_nonneg ps -> 0 <= tix ps.
Proof.
  intros Hps. induction Hps as [|p ps Hp Hps IH]; [done|].
  rewrite tix_cons. pose proof (weight_nonneg p Hp). lia.
Qed.

Lemma tix_take_S ps j p : ps !! j = Some p -> tix (take (S j) ps) = tix (take j ps) + weight p.
Proof.
  intros Hp. rewrite (take_S_r _ _ _ Hp). unfold tix. rewrite fmap_app, Zsum_app.
  unfold Zsum. simpl. lia.
Qed.

Lemma tix_alter f i ps p :
  ps !! i = Some p -> tix (alter f i ps) = tix ps - weight p + weight (f p).
Proof.
  revert i. induction ps as [|q ps IH]; intros [|i] Hp; try done; simplify_eq/=.
  - rewrite !tix_cons. lia.
  - specialize (IH i Hp). change (alter f (S i) (q :: ps)) with (q :: alter f i ps).
    rewrite !tix_cons. lia.
Qed.

Lemma tix_weight_le ps i p : tickets_nonneg ps -> ps !! i = Some p -> weight p <= tix ps.
Proof.
  intros Hps. revert i. induction Hps as [|q ps Hq Hps IH]; intros [|i] Hp; try done; simplify_eq/=;
    rewrite tix_cons.
  - pose proof (tix_nonneg ps Hps). lia.
  - pose proof (weight_nonneg q Hq). specialize (IH i Hp). lia.
Qed.

Lemma tix_take_le ps j : tickets_nonneg ps -> 0 <= tix (take j ps) <= tix ps.
Proof.
  intros Hps. rewrite <- (take_drop j ps) at 3. unfold tix at 3.
  rewrite fmap_app, Zsum_app. fold (tix (take j ps)) (tix (drop j ps)).
  pose proof (tix_nonneg (take j ps) (Forall_take _ _ _ Hps)).
  pose proof (tix_nonneg (drop j ps) (Forall_drop _ _ _ Hps)). lia.
Qed.

Lemma total_tickets_sum ps c :
  tickets_nonneg ps -> 0 <= c -> c + tix ps < 2 ^ 31 -> total_tickets ps c = c + tix ps.
Proof.
  intros Hps. revert c. induction Hps as [|p ps Hp Hps IH]; intros c Hc Hlt; simpl.
  { unfold tix, Zsum. simpl. lia. }
  rewrite tix_cons in *. pose proof (tix_nonneg ps Hps). pose proof (weight_nonneg p Hp).
  unfold weight in *. destruct (bool_decide _).
  - rewrite s32_id by lia. rewrite IH; lia.
  - rewrite IH; lia.
Qed.

(** Process [j] holds the tickets from [tix (take j ps)] on. *)
Definition owns (ps : list proc) (j : nat) (w : Z) : Prop :=
  exists p, ps !! j = Some p /\ state p = RUNNABLE /\
            tix (take j ps) <= w < tix (take j ps) + tickets p.

Lemma pick_owns ps i c w :
  tickets_nonneg ps -> 0 <= c -> c + tix ps < 2 ^ 31 -> c <= w < c + tix ps ->
  exists j, pick ps i c w = Some (i + j)%nat /\ owns ps j (w - c).
Proof.
  intros Hps. revert i c. induction Hps as [|p ps Hp Hps IH]; intros i c Hc Hlt Hw.
  { unfold tix, Zsum in Hw. simpl in Hw. lia. }
  rewrite tix_cons in *. pose proof (tix_nonneg ps Hps). cbn [pick].
  assert (bool_decide (state p = RUNNABLE) = false \/ state p = RUNNABLE) as [Hs|Hs]
    by (case_bool_decide; auto); [|rewrite bool_decide_eq_true_2 by done]; simpl.
  - rewrite Hs. simpl. unfold weight in *. rewrite Hs in *.
    destruct (IH (S i) c) as (j & Hj & q & Hq & Hrun & Hin); [lia..|].
    exists (S j). split; [rewrite Hj; f_equal; lia|]. exists q. simpl.
    rewrite tix_cons. unfold weight at 1 2. rewrite Hs. by split_and!; [| |lia..].
  - unfold weight in *. rewrite bool_decide_eq_true_2 in * by done.
    rewrite s32_id by lia. destruct (Z.ltb_spec w (c + tickets p)).
    + exists 0%nat. split; [f_equal; lia|]. exists p.
      split_and!; [done|done| |]; unfold tix, Zsum; simpl; lia.
    + destruct (IH (S i) (c + tickets p)) as (j & Hj & q & Hq & Hrun & Hin); [lia..|].
      exists (S j). split; [rewrite Hj; f_equal; lia|]. exists q. simpl.
      rewrite tix_cons. unfold weight at 1 2. rewrite bool_decide_eq_true_2 by done.
      by split_and!; [| |lia..].
Qed.

(** A ticket has one owner. *)
Lemma owns_inj ps i j w : tickets_nonneg ps -> owns ps i w -> owns ps j w -> i = j.
Proof.
  intros Hps (p & Hp & Hrp & Hwp) (q & Hq & Hrq & Hwq).
  assert (forall a b x, (a < b)%nat -> ps !! a = Some x -> state x = RUNNABLE ->
    tix (take a ps) + tickets x <= tix (take b ps)) as Hmono.
  { intros a b x Hab Hx Hrx.
    pose proof (tix_take_S ps a x Hx) as HS. unfold weight in HS.
    rewrite bool_decide_eq_true_2 in HS by done. rewrite <- HS.
    replace (take (S a) ps) with (take (S a) (take b ps)) by (rewrite take_take; f_equal; lia).
    apply tix_take_le, Forall_take, Hps. }
  destruct (Nat.lt_trichotomy i j) as [Hlt|[?|Hlt]]; [|done|].
  - specialize (Hmono _ _ _ Hlt Hp Hrp). lia.
  - specialize (Hmono _ _ _ Hlt Hq Hrq). lia.
Qed.

Lemma owns_range ps j w : tickets_nonneg ps -> owns ps j w -> 0 <= w < tix ps.
Proof.
  intros Hps (p & Hp & Hr & Hw). pose proof (tix_take_S ps j p Hp) as HS.
  unfold weight in HS. rewrite bool_decide_eq_true_2 in HS by done.
  pose proof (tix_take_le ps j Hps). pose proof (tix_take_le ps (S j) Hps). lia.
Qed.

Lemma pick_iff ps j w :
  tickets_nonneg ps -> tix ps < 2 ^ 31 -> 0 <= w < tix ps ->
  pick ps 0 0 w = Some j <-> owns ps j w.
Proof.
  intros Hps Hlt Hw.
  destruct (pick_owns ps 0 0 w Hps) as (k & -> & Hk); [lia..|].
  rewrite Z.sub_0_r in Hk. split.
  - by intros [= <-].
  - intros Hj. f_equal. by eapply owns_inj.
Qed.

(** ** Counting *)

(** The number of elements of a list with a property. *)
Definition count {A} (P : A -> Prop) `{!forall x, Decision (P x)} (l : list A) : nat :=
  length (filter P l).

Section count.
Context {A : Type} (P : A -> Prop) `{!forall x, Decision (P x)}.

Lemma count_cons x l : count P (x :: l) = ((if decide (P x) then 1 else 0) + count P l)%nat.
Proof.
  unfold count. case_decide; [by rewrite filter_cons_True|by rewrite filter_cons_False].
Qed.

Lemma count_app l1 l2 : count P (l1 ++ l2) = (count P l1 + count P l2)%nat.
Proof.
  induction l1 as [|x l1 IH]; [done|]. rewrite <- app_comm_cons, !count_cons, IH. lia.
Qed.

Lemma count_all l : Forall P l -> count P l = length l.
Proof. induction 1; [done|]. rewrite count_cons, decide_True by done. simpl. lia. Qed.

Lemma count_none l : Forall (fun x => ~ P x) l -> count P l = 0%nat.
Proof. induction 1; [done|]. by rewrite count_cons, decide_False. Qed.

Lemma count_fmap {B} (f : B -> A) l : count P (f <$> l) = count (fun y => P (f y)) l.
Proof.
  induction l as [|x l IH]; [done|]. rewrite fmap_cons. unfold count in *.
  destruct (decide (P (f x))).
  - rewrite !filter_cons_True by done. simpl. by f_equal.
  - by rewrite !filter_cons_False.
Qed.

Lemma count_ext (Q : A -> Prop) `{!forall x, Decision (Q x)} l :
  (forall x, x ∈ l -> P x <-> Q x) -> count P l = count Q l.
Proof.
  induction l as [|x l IH]; intros Hiff; [done|]. unfold count in *.
  assert (P x <-> Q x) as Hx by (apply Hiff; left).
  assert (length (filter P l) = length (filter Q l)) as Hl
    by (apply IH; intros; apply Hiff; by right).
  destruct (decide (P x)).
  - rewrite !filter_cons_True by tauto. simpl. by f_equal.
  - by rewrite !filter_cons_False by tauto.
Qed.

Lemma count_perm l1 l2 : l1 ≡ₚ l2 -> count P l1 = count P l2.
Proof. intros Hl. unfold count. by rewrite Hl. Qed.

Lemma count_pos l : (0 < count P l)%nat -> exists x, x ∈ l /\ P x.
Proof.
  unfold count. destruct (filter P l) as [|x l'] eqn:E; [simpl; lia|]. intros _.
  exists x. assert (x ∈ filter P l) as [Hp Hin]%list_elem_of_filter by (rewrite E; left). done.
Qed.
End count.

Lemma count_interval a b m n :
  m <= a -> a <= b -> b <= m + n ->
  count (fun w => a <= w < b) (seqZ m n) = Z.to_nat (b - a).
Proof.
  intros. replace n with ((a - m) + ((b - a) + (m + n - b))) by lia.
  rewrite !seqZ_app by lia. rewrite !count_app.
  rewrite (count_none _ (seqZ m _)), (count_all _ (seqZ _ (b - a))), count_none.
  - rewrite length_seqZ. lia.
  - apply Forall_elem. intros x Hx%elem_of_seqZ. lia.
  - apply Forall_elem. intros x Hx%elem_of_seqZ. lia.
  - apply Forall_elem. intros x Hx%elem_of_seqZ. lia.
Qed.

Lemma count_mod (P : Z -> Prop) T `{!forall x, Decision (P x)}
    `{!forall v, Decision (P (v mod T))} (q : nat) :
  0 < T ->
  count (fun v => P (v mod T)) (seqZ 0 (Z.of_nat q * T)) = (q * count P (seqZ 0 T))%nat.
Proof.
  intros HT. induction q as [|q IH]; [done|].
  replace (Z.of_nat (S q) * T) with (Z.of_nat q * T + T) by lia.
  rewrite seqZ_app, count_app, IH by nia.
  replace (0 + Z.of_nat q * T) with (Z.of_nat q * T + 0) by lia.
  rewrite <- fmap_add_seqZ, count_fmap.
  match goal with |- (_ + ?c = _)%nat => enough (c = count P (seqZ 0 T)) by lia end.
  apply count_ext. intros x Hx%elem_of_seqZ. rewrite Z.add_comm, Z_mod_plus_full, Z.mod_small by lia. done.
Qed.

(** Winning numbers of a process. *)
Lemma share ps j p :
  tickets_nonneg ps -> tix ps < 2 ^ 31 -> ps !! j = Some p -> state p = RUNNABLE ->
  count (fun w => pick ps 0 0 w = Some j) (seqZ 0 (tix ps)) = Z.to_nat (tickets p).
Proof.
  intros Hps Hlt Hp Hr.
  assert (0 <= tickets p) as Hpos by (unfold tickets_nonneg in Hps;
    rewrite Forall_lookup in Hps; by eapply Hps).
  pose proof (tix_take_le ps j Hps). pose proof (tix_take_le ps (S j) Hps) as HS.
  rewrite (tix_take_S ps j p Hp) in HS. unfold weight in HS.
  rewrite bool_decide_eq_true_2 in HS by done.
  replace (tickets p) with (tix (take j ps) + tickets p - tix (take j ps)) by lia.
  rewrite <- (count_interval _ _ 0 (tix ps)) by lia.
  apply count_ext. intros w Hw%elem_of_seqZ.
  rewrite pick_iff by (done || lia). split.
  - intros (q & Hq & _ & Hin). simplify_eq. done.
  - intros Hin. by exists p.
Qed.

(** ** A period of draws *)

(** The next 65535 values of the generator. *)
Definition draws (l : Z) : list Z := (fun k => rands k l) <$> seq 1 period.

Lemma draws_perm l : 0 < l < 65536 -> draws l ≡ₚ seqZ 1 65535.
Proof.
  intros Hl. symmetry. apply submseteq_length_Permutation.
  - apply NoDup_submseteq; [apply NoDup_seqZ|]. intros x Hx%elem_of_seqZ.
    destruct (full_period l x Hl) as (k & Hk & <-); [lia|].
    unfold draws. apply list_elem_of_fmap. exists k. split; [done|]. apply elem_of_seq. lia.
  - unfold draws. rewrite length_fmap, length_seq, length_seqZ. pose proof period_Z. lia.
Qed.

(** A value the generator returns that the rejection loop accepts and that
    makes process [j] win. *)
Definition wins (ps : list proc) (j : nat) (v : Z) : Prop :=
  v < 65536 - 65536 mod tix ps /\ pick ps 0 0 (v mod tix ps) = Some j.

#[export] Instance wins_dec ps j v : Decision (wins ps j v).
Proof. unfold wins. apply _. Defined.

Lemma wins_count_block ps j p :
  tickets_nonneg ps -> 0 < tix ps <= 65536 -> ps !! j = Some p -> state p = RUNNABLE ->
  Z.of_nat (count (wins ps j) (seqZ 0 65536)) = tickets p * (65536 / tix ps).
Proof.
  intros Hps HT Hp Hr. set (T := tix ps) in *. set (q := 65536 / T).
  assert (0 <= tickets p) as Hpos by (unfold tickets_nonneg in Hps;
    rewrite Forall_lookup in Hps; by eapply Hps).
  pose proof (Z.div_mod 65536 T) as Hdm. fold q in Hdm.
  pose proof (Z.mod_pos_bound 65536 T). assert (0 <= q) by (apply Z.div_pos; lia).
  replace 65536 with (Z.of_nat (Z.to_nat q) * T + 65536 mod T) at 1 by lia.
  rewrite seqZ_app, count_app by lia.
  rewrite (count_none _ (seqZ (0 + _) _)); [rewrite Nat.add_0_r|].
  - pose proof (count_mod (fun w => pick ps 0 0 w = Some j) T (Z.to_nat q)) as Hc.
    pose proof (share ps j p Hps ltac:(lia) Hp Hr) as Hs. fold T in Hs. rewrite Hs in Hc.
    rewrite (count_ext _ (fun v => pick ps 0 0 (v mod T) = Some j)); [rewrite Hc by lia; nia|].
    intros v Hv%elem_of_seqZ. unfold wins. fold T. split; [tauto|]. split; [lia|done].
  - apply Forall_elem. intros v Hv%elem_of_seqZ. unfold wins. fold T. lia.
Qed.

(** The generator never returns 0, so ticket 0 has one accepting value less. *)
Lemma wins_count ps j p l :
  0 < l < 65536 ->
  tickets_nonneg ps -> 0 < tix ps <= 65536 -> ps !! j = Some p -> state p = RUNNABLE ->
  Z.of_nat (count (wins ps j) (draws l)) =
  tickets p * (65536 / tix ps) - (if decide (wins ps j 0) then 1 else 0).
Proof.
  intros Hl Hps HT Hp Hr. rewrite (count_perm _ _ _ (draws_perm l Hl)).
  rewrite <- (wins_count_block ps j p) by done.
  change 65536 with (1 + 65535) at 1. rewrite (seqZ_app 0 1) by lia.
  rewrite count_app. change (seqZ 0 1) with [0]. change (0 + 1) with 1.
  rewrite count_cons. case_decide; unfold count at 2; simpl; lia.
Qed.

(** ** The generator over a range *)

Lemma random_at_most_draw fuel l m :
  0 < m < 2 ^ 31 - 1 ->
  random_at_most fuel l m =
  match draw fuel l (m + 1) with
  | Some (v, l') => Some (s32 (v mod (m + 1)), l')
  | None => None
  end.
Proof.
  intros Hm. unfold random_at_most. destruct (Z.leb_spec m 0); [lia|].
  by rewrite u32_id by lia.
Qed.

Lemma random_at_most_total l m :
  0 <= m < 65536 -> 0 <= l < 65536 ->
  exists w l', random_at_most draw_fuel l m = Some (w, l') /\ 0 <= w <= m /\ 0 <= l' < 65536.
Proof.
  intros Hm Hl. destruct (Z.eq_dec m 0) as [->|].
  { exists 0, l. split_and!; [done|lia..]. }
  rewrite random_at_most_draw by lia.
  destruct (draw_terminates l (m + 1)) as (v & Hd & Hv); [lia..|].
  rewrite Hd. destruct (draw_range _ _ _ _ _ Hl Hd) as [_ Hr].
  pose proof (Z.mod_pos_bound v (m + 1)).
  exists (v mod (m + 1)), v. rewrite s32_id by lia. split_and!; [done|lia..].
Qed.

(** ** One pass of the scheduler *)

Lemma total_tix ps : tickets_nonneg ps -> tix ps < 2 ^ 31 -> total_tickets ps 0 = tix ps.
Proof. intros Hps Hlt. rewrite total_tickets_sum by (done || lia). lia. Qed.

(** A runnable process has a kernel stack and a page table. *)
Definition runnable_ready (ps : list proc) : Prop :=
  Forall (fun p => state p = RUNNABLE -> kstack p <> 0 /\ pgdir p <> 0) ps.

(** The state of the table when process [i] starts running. *)
Definition running (s : pstate) (i : nat) (p : proc) (l : Z) : pstate :=
  mkPstate (alter (set_state RUNNING) i (procs s)) (nextpid s) (initproc s) l (Some i)
           (V2P (pgdir p)) (u32 (kstack p + KSTACKSIZE)) (kpgdir s).

Lemma switchuvm_ok (s : pstate) h i p :
  procs s !! i = Some p -> kstack p <> 0 -> pgdir p <> 0 ->
  switchuvm i h s = Ret tt h (set_cr3 (V2P (pgdir p)) (set_esp0 (u32 (kstack p + KSTACKSIZE)) s)).
Proof.
  intros Hp Hk Hd. unfold switchuvm. rewrite bind_unfold. simpl. rewrite Hp.
  destruct (Z.eqb_spec (kstack p) 0); [done|]. by destruct (Z.eqb_spec (pgdir p) 0).
Qed.

Lemma scheduler_draws fuel (s : pstate) w l i p :
  tickets_nonneg (procs s) -> 0 < tix (procs s) < 2 ^ 31 -> runnable_ready (procs s) ->
  random_at_most fuel (lfsr s) (tix (procs s) - 1) = Some (w, l) ->
  pick (procs s) 0 0 w = Some i -> procs s !! i = Some p -> state p = RUNNABLE ->
  scheduler fuel [] s = Ret (Some i) [LPtable] (running s i p l).
Proof.
  intros Hps HT Hready Hw Hpick Hp Hr. unfold scheduler.
  rewrite bind_unfold, acquire_free by set_solver.
  rewrite bind_unfold. cbn [getp gets get_part Has_refl].
  rewrite total_tix by (done || lia). destruct (Z.ltb_spec 0 (tix (procs s))); [|lia].
  rewrite Hw, bind_unfold. cbn [modp modify get_part put_part Has_refl].
  rewrite Hpick, bind_unfold. cbn [modp modify get_part put_part Has_refl].
  unfold runnable_ready in Hready. rewrite Forall_lookup in Hready.
  destruct (Hready i p Hp Hr) as [Hk Hd].
  rewrite bind_unfold, (switchuvm_ok _ _ i p) by done. done.
Qed.

(** After its turn the process is preempted: [trap] calls [yield], which goes
    back to the scheduler, which ends the pass. *)
Definition round (fuel : nat) (s : pstate) : option (nat * pstate) :=
  match scheduler fuel [] s with
  | Ret (Some i) h s =>
      match yield_return h s with
      | Ret _ h s =>
          match @yield pstate _ unit h s with
          | Sched s =>
              match scheduler_return [LPtable] s with
              | Ret _ _ s => Some (i, s)
              | _ => None
              end
          | _ => None
          end
      | _ => None
      end
  | _ => None
  end.

(** [n] rounds, whoever wins. *)
Fixpoint rounds (n : nat) (fuel : nat) (s : pstate) : option pstate :=
  match n with
  | O => Some s
  | S n => match round fuel s with Some (_, s) => rounds n fuel s | None => None end
  end.

(** A round leaves the table as it was, but for the [preempted] flag of the
    process that ran. *)
Definition rested (s : pstate) (i : nat) (p : proc) (l : Z) : pstate :=
  mkPstate (alter (set_preempted 0) i (procs s)) (nextpid s) (initproc s) l None
           (V2P (kpgdir s)) (u32 (kstack p + KSTACKSIZE)) (kpgdir s).

Lemma round_draws fuel (s : pstate) w l i p :
  tickets_nonneg (procs s) -> 0 < tix (procs s) < 2 ^ 31 -> runnable_ready (procs s) ->
  random_at_most fuel (lfsr s) (tix (procs s) - 1) = Some (w, l) ->
  pick (procs s) 0 0 w = Some i -> procs s !! i = Some p -> state p = RUNNABLE ->
  round fuel s = Some (i, rested s i p l).
Proof.
  intros Hps HT Hready Hw Hpick Hp Hr. unfold round.
  rewrite (scheduler_draws fuel s w l i p) by done.
  unfold yield_return. rewrite release_top by set_solver.
  unfold yield. ksteps. rewrite (curproc_run _ _ i (set_state RUNNING p));
    [|done|cbn; by rewrite list_lookup_alter_eq, Hp].
  ksteps. erewrite sched_run; [|done|..|]; cycle 1.
  { cbn [get_part put_part Has_refl]. rewrite !upd_lookup, !decide_True by done. cbn. by rewrite list_lookup_alter_eq, Hp. }
  { done. }
  unfold scheduler_return, switchkvm. ksteps. do 2 f_equal.
  cbn [get_part put_part Has_refl]. unfold rested, running, upd, set_procs, set_cr3, set_cpu_proc.
  cbn [procs nextpid initproc lfsr cpu_proc cr3 esp0 kpgdir]. f_equal.
  apply list_eq. intros k.
  destruct (decide (i = k)) as [<-|]; [|by rewrite !list_lookup_alter_ne by done].
  rewrite !list_lookup_alter_eq, Hp. simpl. f_equal.
  destruct p; simpl in *; unfold set_state, set_preempted; simpl; by subst.
Qed.

(** ** Starvation *)

(** What the scheduler reads of a process. *)
Definition lview (p : proc) : procstate * Z * Z * Z := (state p, tickets p, kstack p, pgdir p).

Section view.
Context (ps ps' : list proc) (Hv : lview <$> ps = lview <$> ps').

Lemma view_lookup j p : ps !! j = Some p -> exists p', ps' !! j = Some p' /\ lview p' = lview p.
Proof.
  intros Hp. apply (f_equal (.!! j)) in Hv. rewrite !list_lookup_fmap, Hp in Hv. simpl in Hv.
  destruct (ps' !! j) as [p'|]; [|done]. injection Hv. intros. exists p'. split; [done|].
  unfold lview. congruence.
Qed.

Lemma view_forall (P : procstate * Z * Z * Z -> Prop) :
  Forall (fun p => P (lview p)) ps -> Forall (fun p => P (lview p)) ps'.
Proof.
  change (Forall (P ∘ lview) ps -> Forall (P ∘ lview) ps').
  rewrite <- (Forall_fmap lview P ps), <- (Forall_fmap lview P ps'). by rewrite Hv.
Qed.

Lemma view_tix : tix ps = tix ps'.
Proof.
  unfold tix. f_equal.
  assert (forall l : list proc, weight <$> l =
    (fun v : procstate * Z * Z * Z => if bool_decide (v.1.1.1 = RUNNABLE) then v.1.1.2 else 0)
      <$> (lview <$> l)) as Hw by (intros l; by rewrite <- list_fmap_compose).
  by rewrite !Hw, Hv.
Qed.
End view.

Lemma view_pick ps ps' i c w : lview <$> ps = lview <$> ps' -> pick ps i c w = pick ps' i c w.
Proof.
  revert ps' i c. induction ps as [|p ps IH]; intros [|p' ps'] i c Hv; try done.
  simpl in Hv. injection Hv as Hs Ht _ _ Hv. simpl. rewrite Hs, Ht.
  case_bool_decide; simpl; [|by apply IH]. destruct (_ <? _); [done|by apply IH].
Qed.

Lemma view_preempted (i : nat) (ps : list proc) : lview <$> alter (set_preempted 0) i ps = lview <$> ps.
Proof.
  apply list_eq. intros k. rewrite !list_lookup_fmap.
  destruct (decide (i = k)) as [<-|]; [|by rewrite list_lookup_alter_ne].
  rewrite list_lookup_alter_eq. by destruct (ps !! i).
Qed.

(** The table allows a draw. *)
Definition drawable (s : pstate) : Prop :=
  tickets_nonneg (procs s) /\ runnable_ready (procs s) /\
  0 < tix (procs s) <= 65536 /\ 0 < lfsr s < 65536.

Lemma drawable_view s s' :
  lview <$> procs s = lview <$> procs s' -> 0 < lfsr s' < 65536 -> drawable s -> drawable s'.
Proof.
  intros Hv Hl (Hps & Hr & HT & _). split_and!.
  - by apply (view_forall _ _ Hv (fun v => 0 <= v.1.1.2)).
  - by apply (view_forall _ _ Hv (fun v => v.1.1.1 = RUNNABLE -> v.1.2 <> 0 /\ v.2 <> 0)).
  - rewrite <- (view_tix _ _ Hv). lia.
  - rewrite <- (view_tix _ _ Hv). lia.
  - lia.
  - lia.
Qed.

(** The value accepted is the first one below the limit. *)
Lemma draw_first fuel l n v l' :
  draw fuel l n = Some (v, l') ->
  l' = v /\ v < 65536 - 65536 mod n /\
  exists k, (0 < k)%nat /\ rands k l = v /\
    forall i, (0 < i < k)%nat -> 65536 - 65536 mod n <= rands i l.
Proof.
  revert l. induction fuel as [|fuel IH]; intros l; simpl; [done|].
  destruct (Z.leb_spec (65536 - 65536 mod n) (rand l)) as [Hrej|Hacc].
  - intros (-> & Hv & k & Hk & Hr & Hfirst)%IH. split_and!; [done|done|].
    exists (S k). rewrite rands_S. split_and!; [lia|done|]. intros [|[|i]] Hi; [lia|done|].
    rewrite rands_S. apply Hfirst. lia.
  - intros [= <- <-]. split_and!; [done|done|]. exists 1%nat. split_and!; [lia|done|lia].
Qed.

(** A round with the value it accepts. *)
Lemma round_first s :
  drawable s -> 1 < tix (procs s) ->
  exists i s' k, (0 < k)%nat /\ round draw_fuel s = Some (i, s') /\
    lview <$> procs s' = lview <$> procs s /\ lfsr s' = rands k (lfsr s) /\
    pick (procs s) 0 0 (rands k (lfsr s) mod tix (procs s)) = Some i /\
    rands k (lfsr s) < 65536 - 65536 mod tix (procs s) /\
    forall a, (0 < a < k)%nat -> 65536 - 65536 mod tix (procs s) <= rands a (lfsr s).
Proof.
  intros (Hps & Hready & HT & Hl) HT1. set (T := tix (procs s)) in *.
  destruct (draw_terminates (lfsr s) T) as (v & Hd & Hv); [lia..|].
  destruct (draw_first _ _ _ _ _ Hd) as (_ & _ & k & Hk & Hr & Hfirst).
  pose proof (Z.mod_pos_bound v T).
  destruct (pick_owns (procs s) 0 0 (v mod T) Hps) as (i & Hpick & p & Hp & Hrun & _); [fold T; lia..|].
  assert (random_at_most draw_fuel (lfsr s) (T - 1) = Some (v mod T, v)) as Hrand.
  { rewrite random_at_most_draw by lia. replace (T - 1 + 1) with T by lia. rewrite Hd.
    by rewrite s32_id by lia. }
  exists i, (rested s i p v), k. rewrite Hr. split_and!; try done.
  - by apply (round_draws draw_fuel s (v mod T) v i p); [|fold T; lia|..].
  - apply view_preempted.
Qed.

Lemma round_reaches t j k s :
  drawable s -> 1 < tix (procs s) -> wins (procs s) j t ->
  (0 < k)%nat -> rands k (lfsr s) = t ->
  exists n s', (n < k)%nat /\ rounds n draw_fuel s = Some s' /\
    exists s'', round draw_fuel s' = Some (j, s'').
Proof.
  revert s. induction (lt_wf k) as [k _ IH]. intros s Hs HT [Hlim Hpick] Hk Ht.
  destruct (round_first s Hs HT) as (i & s' & a & Ha & Hround & Hview & Hl & Hwin & _ & Hfirst).
  destruct (Nat.lt_trichotomy a k) as [Hlt|[->|Hgt]].
  - assert (drawable s') as Hs'.
    { apply (drawable_view s); [done| |done]. rewrite Hl. apply rands_nonzero.
      by destruct Hs as (_ & _ & _ & ?). }
    destruct (IH (k - a)%nat ltac:(lia) s') as (n & s1 & Hn & Hrounds & Hlast); try done.
    + by rewrite (view_tix _ _ Hview).
    + unfold wins. rewrite (view_tix _ _ Hview), (view_pick _ _ _ _ _ Hview). done.
    + lia.
    + rewrite Hl, <- rands_add. by replace (k - a + a)%nat with k by lia.
    + exists (S n), s1. split_and!; [lia| |done]. simpl. by rewrite Hround.
  - rewrite Ht in Hwin. rewrite Hpick in Hwin. injection Hwin as <-.
    exists 0%nat, s. split_and!; [lia|done|]. by exists s'.
  - specialize (Hfirst k ltac:(lia)). lia.
Qed.

(** Some value the generator can return makes the process win. *)
Lemma wins_some ps j p :
  tickets_nonneg ps -> tix ps <= 32768 -> ps !! j = Some p -> state p = RUNNABLE -> 0 < tickets p ->
  exists v, 0 < v < 65536 /\ wins ps j v.
Proof.
  intros Hps HT Hp Hr Ht.
  assert (owns ps j (tix (take j ps))) as Hown by (exists p; split_and!; [done..|lia|lia]).
  pose proof (owns_range ps j _ Hps Hown) as Hw. set (w := tix (take j ps)) in *.
  pose proof (Z.mod_pos_bound 65536 (tix ps)).
  assert (w mod tix ps = w) as Hmod by (apply Z.mod_small; lia).
  destruct (Z.eq_dec w 0) as [Hw0|].
  - exists (tix ps). split; [lia|]. split; [lia|].
    replace (tix ps mod tix ps) with w by (rewrite Z_mod_same_full; lia). by apply pick_iff; [|lia..|].
  - exists w. split; [lia|]. split; [lia|]. rewrite Hmod. by apply pick_iff; [|lia..|].
Qed.

(** With a single ticket the scheduler does not draw. *)
Lemma one_ticket_round s j p :
  drawable s -> tix (procs s) = 1 -> procs s !! j = Some p -> state p = RUNNABLE -> 0 < tickets p ->
  round draw_fuel s = Some (j, rested s j p (lfsr s)).
Proof.
  intros (Hps & Hready & HT & Hl) HT1 Hp Hr Ht.
  assert (owns (procs s) j (tix (take j (procs s)))) as Hown by (exists p; split_and!; [done..|lia|lia]).
  pose proof (owns_range _ j _ Hps Hown).
  assert (tix (take j (procs s)) = 0) as H0 by lia. rewrite H0 in Hown.
  apply (round_draws draw_fuel s 0 (lfsr s) j p); try done; [lia| |].
  - by rewrite HT1.
  - apply pick_iff; [done|lia..|done].
Qed.

(** ** The winners of many rounds *)

(** The processes that run in the next [n] rounds. *)
Fixpoint winners (n : nat) (fuel : nat) (s : pstate) : option (list nat * pstate) :=
  match n with
  | O => Some ([], s)
  | S n =>
      '(i, s) ← round fuel s;
      '(ws, s) ← winners n fuel s;
      Some (i :: ws, s)
  end.

(** The next [m] values of the generator, and those that the rejection loop accepts. *)
Definition vals (m : nat) (l : Z) : list Z := (fun k => rands k l) <$> seq 1 m.
Definition accepted (T : Z) (m : nat) (l : Z) : list Z := filter (fun v => v < 65536 - 65536 mod T) (vals m l).

Lemma vals_split k m l : (0 < k <= m)%nat -> vals m l = vals (k - 1) l ++ rands k l :: vals (m - k) (rands k l).
Proof.
  intros Hk. unfold vals. replace m with ((k - 1) + S (m - k))%nat at 1 by lia. rewrite seq_app, fmap_app. f_equal.
  replace (1 + (k - 1))%nat with k by lia. cbn [seq fmap list_fmap]. f_equal.
  replace (S k) with (k + 1)%nat by lia. rewrite <- (fmap_add_seq k 1), <- list_fmap_compose.
  apply list_fmap_ext. intros i x _. cbn [compose]. by rewrite Nat.add_comm, rands_add.
Qed.

Lemma accepted_none T m l : (forall a, (0 < a <= m)%nat -> 65536 - 65536 mod T <= rands a l) -> accepted T m l = [].
Proof.
  intros H. apply nil_length_inv. change (count (fun v => v < 65536 - 65536 mod T) (vals m l) = 0%nat). apply count_none.
  apply Forall_fmap, Forall_elem. intros a Ha%elem_of_seq. cbn. specialize (H a ltac:(lia)). lia.
Qed.

Lemma accepted_split T k m l : (0 < k <= m)%nat -> (forall a, (0 < a < k)%nat -> 65536 - 65536 mod T <= rands a l) ->
  rands k l < 65536 - 65536 mod T -> accepted T m l = rands k l :: accepted T (m - k) (rands k l).
Proof.
  intros Hk Hrej Hacc. unfold accepted. rewrite (vals_split k m l Hk), list.filter_app, filter_cons_True by done.
  fold (accepted T (k - 1) l). by rewrite accepted_none by (intros a Ha; apply Hrej; lia).
Qed.

(** The rounds give the CPU to the owners of the accepted values, in order. *)
Lemma winners_draw m s :
  drawable s -> 1 < tix (procs s) ->
  let T := tix (procs s) in
  exists ws s', winners (length (accepted T m (lfsr s))) draw_fuel s = Some (ws, s') /\
    Some <$> ws = (fun v => pick (procs s) 0 0 (v mod T)) <$> accepted T m (lfsr s).
Proof.
  revert s. induction (lt_wf m) as [m _ IH]. intros s Hs HT T.
  destruct (round_first s Hs HT) as (i & s1 & k & Hk & Hround & Hview & Hl & Hwin & Hacc & Hfirst). fold T in Hwin, Hacc, Hfirst.
  destruct (decide (m < k)%nat) as [Hmk|Hmk].
  { rewrite accepted_none by (intros a Ha; apply Hfirst; lia). by exists [], s. }
  rewrite (accepted_split T k m) by (done || lia). cbn [length winners fmap list_fmap]. rewrite Hround. cbn [mbind option_bind].
  destruct (IH (m - k)%nat ltac:(lia) s1) as (ws & s2 & Hws & Hpick).
  { apply (drawable_view s); [done| |done]. rewrite Hl. apply rands_nonzero. apply Hs. }
  { by rewrite (view_tix _ _ Hview). }
  rewrite (view_tix _ _ Hview), Hl in Hws, Hpick. fold T in Hws, Hpick. rewrite Hws. cbn [mbind option_bind].
  exists (i :: ws), s2. split; [done|]. cbn [fmap list_fmap]. rewrite Hwin. f_equal. rewrite Hpick.
  apply list_fmap_ext. intros _ v _. by apply view_pick.
Qed.

Lemma winners_single m s j :
  drawable s -> tix (procs s) = 1 -> pick (procs s) 0 0 0 = Some j ->
  exists s', winners m draw_fuel s = Some (replicate m j, s').
Proof.
  revert s. induction m as [|m IH]; intros s Hs HT Hj; [by exists s|]. pose proof Hs as (Hps & _ & _ & Hl).
  pose proof Hj as (p & Hp & Hr & Hw)%pick_iff; [|done|lia..].
  cbn [winners]. rewrite (one_ticket_round s j p) by (done || lia). cbn [mbind option_bind].
  pose proof (view_preempted j (procs s)) as Hview.
  destruct (IH (rested s j p (lfsr s))) as [s' ->]; [by apply (drawable_view s)|cbn [procs rested]; by rewrite (view_tix _ _ Hview)|
    cbn [procs rested]; by rewrite (view_pick _ _ _ _ _ Hview)|]. by exists s'.
Qed.

Lemma winners_accepted m s :
  drawable s -> let T := tix (procs s) in
  exists ws s', winners (length (accepted T m (lfsr s))) draw_fuel s = Some (ws, s') /\
    Some <$> ws = (fun v => pick (procs s) 0 0 (v mod T)) <$> accepted T m (lfsr s).
Proof.
  intros Hs T. destruct (Z.eq_dec T 1) as [HT|HT]; [|apply winners_draw; [done|pose proof Hs as (_ & _ & ? & _); lia]].
  pose proof Hs as (Hps & _ & _ & _). destruct (pick_owns (procs s) 0 0 0 Hps) as (j & Hj & _); [fold T; lia..|].
  destruct (winners_single (length (accepted T m (lfsr s))) s j Hs HT Hj) as [s' Hw]. exists (replicate (length (accepted T m (lfsr s))) j), s'.
  split; [exact Hw|]. rewrite HT. generalize (accepted 1 m (lfsr s)). intros l. induction l as [|v l IH]; [done|].
  cbn [length replicate fmap list_fmap]. rewrite Z.mod_1_r, Hj. f_equal. exact IH.
Qed.

Lemma accepted_length T l : 0 < l < 65536 -> 0 < T <= 65536 -> Z.of_nat (length (accepted T period l)) = 65535 - 65536 mod T.
Proof.
  intros Hl HT. change (length (accepted T period l)) with (count (fun v => v < 65536 - 65536 mod T) (draws l)).
  rewrite (count_perm _ _ _ (draws_perm l Hl)). pose proof (accept_limit T HT).
  rewrite (count_ext _ (fun v => 1 <= v < 65536 - 65536 mod T)) by (intros x Hx%elem_of_seqZ; lia).
  rewrite (count_interval 1 (65536 - 65536 mod T) 1 65535) by lia. lia.
Qed.

Lemma winners_count ps j T m l (ws : list nat) : T = tix ps ->
  Some <$> ws = (fun v => pick ps 0 0 (v mod T)) <$> accepted T m l ->
  count (fun i => i = j) ws = count (wins ps j) (vals m l).
Proof.
  intros -> H. transitivity (count (fun o => o = Some j) (Some <$> ws)).
  { rewrite count_fmap. apply count_ext. intros x _. split; [by intros ->|by intros [=]]. }
  rewrite H, count_fmap. unfold count, accepted. rewrite list_filter_filter. fold (count (wins ps j) (vals m l)).
  apply (count_ext _ (wins ps j)). intros v _. unfold wins. tauto.
Qed.

(** ** The properties of the lottery *)

(** C3: proportional share over a period.  Let [T] be the total that the
    scheduler computes, at most 65536, and let the runnable processes and their
    tickets stay the same.  Over the next [65535 - 65536 mod T] rounds (a round:
    the scheduler's pass with its draw, the turn of the winner ended by [yield],
    and the return to the scheduler) a runnable process with [t] tickets runs
    exactly [t * floor(65536/T)] times, one time less if it owns ticket 0,
    because the generator never returns 0. *)
Theorem lottery_proportional (s : pstate) j p :
  drawable s -> procs s !! j = Some p -> state p = RUNNABLE ->
  let T := total_tickets (procs s) 0 in
  exists ws s', winners (Z.to_nat (65535 - 65536 mod T)) draw_fuel s = Some (ws, s') /\
    Z.of_nat (count (fun i => i = j) ws) =
      tickets p * (65536 / T) - (if decide (pick (procs s) 0 0 0 = Some j) then 1 else 0).
Proof.
  intros Hs Hp Hr T. pose proof Hs as (Hps & _ & HT & Hl).
  assert (T = tix (procs s)) as ET by (apply total_tix; [done|lia]).
  destruct (winners_accepted period s Hs) as (ws & s' & Hw & Hpick). rewrite <- ET in *.
  exists ws, s'. rewrite <- (accepted_length T (lfsr s)), Nat2Z.id by done. split; [exact Hw|].
  rewrite (winners_count (procs s) j T period (lfsr s)) by done. change (vals period (lfsr s)) with (draws (lfsr s)).
  rewrite (wins_count (procs s) j p (lfsr s)), <- ET by (done || lia).
  assert (wins (procs s) j 0 <-> pick (procs s) 0 0 0 = Some j) as Hz.
  { unfold wins. rewrite <- ET, Z.mod_0_l by lia. pose proof (accept_limit T ltac:(lia)). naive_solver lia. }
  f_equal. by repeat case_decide; tauto.
Qed.

(** C30: one pass of [scheduler].  With between 1 and 65536 tickets among the
    runnable processes the pass ends within 17 draws, holding only
    [ptable.lock]: the owner of the drawn ticket is RUNNING on this CPU with its
    page table and kernel stack loaded, and nothing else of the table changed.
    With no ticket the pass releases the lock and changes nothing. *)
Theorem scheduler_pass fuel (s : pstate) :
  (draw_fuel <= fuel)%nat ->
  tickets_nonneg (procs s) -> runnable_ready (procs s) ->
  tix (procs s) <= 65536 -> 0 <= lfsr s < 65536 ->
  (0 < tix (procs s) ->
   exists w l i p,
     random_at_most fuel (lfsr s) (tix (procs s) - 1) = Some (w, l) /\
     owns (procs s) i w /\ procs s !! i = Some p /\ state p = RUNNABLE /\
     scheduler fuel [] s = Ret (Some i) [LPtable] (running s i p l)) /\
  (tix (procs s) = 0 -> scheduler fuel [] s = Ret None [] s).
Proof.
  intros Hfuel Hps Hready HT Hl. split; intros HT0.
  - destruct (random_at_most_total (lfsr s) (tix (procs s) - 1)) as (w & l & Hw & Hwr & Hl'); [lia..|].
    apply (random_at_most_mono _ _ _ _ _ Hfuel) in Hw.
    destruct (pick_owns (procs s) 0 0 w Hps) as (i & Hpick & Hown); [lia..|].
    rewrite Z.sub_0_r in Hown. destruct Hown as (p & Hp & Hr & Hin).
    exists w, l, i, p. split_and!; try done; [by exists p|].
    by apply (scheduler_draws fuel s w l i p); [|lia|..].
  - unfold scheduler. ksteps. cbn [get_part Has_refl]. rewrite total_tix, HT0 by (done || lia).
    cbn [Z.ltb Z.compare]. by ksteps.
Qed.

(** C14: no starvation.  While the runnable processes and their tickets stay the
    same and have at most 32768 tickets together, every runnable process with a
    ticket wins one of the next 65535 rounds (a round: the scheduler's pass,
    the turn of the winner ended by [yield], and the return to the scheduler). *)
Theorem lottery_no_starvation (s : pstate) j p :
  drawable s -> tix (procs s) <= 32768 ->
  procs s !! j = Some p -> state p = RUNNABLE -> 0 < tickets p ->
  exists n s' s'', Z.of_nat n < 65535 /\ rounds n draw_fuel s = Some s' /\
    round draw_fuel s' = Some (j, s'').
Proof.
  intros Hs HT Hp Hr Ht. pose proof period_Z. pose proof Hs as (Hps & _ & HT0 & Hl).
  destruct (Z.eq_dec (tix (procs s)) 1) as [HT1|HT1].
  { pose proof (one_ticket_round s j p Hs HT1 Hp Hr Ht) as Hs'.
    eexists 0%nat, s, _. split_and!; [lia|done..]. }
  destruct (wins_some (procs s) j p Hps HT Hp Hr Ht) as (v & Hv & Hwin).
  destruct (full_period (lfsr s) v Hl Hv) as (k & Hk & Hkv).
  destruct (round_reaches v j k s Hs ltac:(lia) Hwin ltac:(lia) Hkv) as (n & s' & Hn & Hrs & s'' & Hlast).
  exists n, s', s''. split_and!; [lia|done..].
Qed.

(** C38: the scheduler hangs on large ticket counts.  [settickets] accepts any
    positive count; when it brings the tickets of the runnable processes above
    65536, the next pass of [scheduler] never leaves the rejection loop of
    [random_at_most], with [ptable.lock] held. *)
Theorem settickets_hangs_scheduler (s : pstate) n t i p fuel :
  list_find (fun p => pid p = n) (procs s) = Some (i, p) -> state p = RUNNABLE ->
  tickets_nonneg (procs s) -> 65536 < t -> 0 <= lfsr s < 65536 ->
  tix (procs s) + t < 2 ^ 31 ->
  settickets n t [] s = Ret 0 [] (upd i (set_tickets t) s) /\
  scheduler fuel [] (upd i (set_tickets t) s) = Spin.
Proof.
  intros Hfind Hr Hps Ht Hl Hlt. split.
  { unfold settickets. destruct (Z.leb_spec t 0); [lia|]. ksteps. cbn [get_part Has_refl].
    rewrite Hfind. by ksteps. }
  apply list_find_Some in Hfind as (Hp & _ & _).
  assert (tickets_nonneg (procs (upd i (set_tickets t) s))) as Hps'.
  { unfold tickets_nonneg in *. rewrite Forall_lookup in *. intros k q. rewrite upd_lookup.
    case_decide as Hk; [|apply Hps]. rewrite Hp. intros [= <-]. simpl. lia. }
  assert (65536 < tix (procs (upd i (set_tickets t) s)) < 2 ^ 31) as HT.
  { unfold upd. cbn [procs set_procs]. rewrite (tix_alter _ _ _ p Hp).
    assert (0 <= tickets p) by (unfold tickets_nonneg in Hps; rewrite Forall_lookup in Hps; eauto).
    pose proof (tix_weight_le _ _ _ Hps Hp). unfold weight in *. cbn [state tickets set_tickets].
    rewrite Hr in *. rewrite bool_decide_eq_true_2 in * by done. lia. }
  unfold scheduler. ksteps. cbn [get_part Has_refl]. rewrite total_tix by (done || lia).
  destruct (Z.ltb_spec 0 (tix (procs (upd i (set_tickets t) s)))); [|lia].
  rewrite random_at_most_draw by lia. rewrite draw_rejects_all; [done|lia|done].
Qed.

(** ** A concrete table

    Three runnable processes with 10, 20 and 30 tickets. *)

Definition demo_proc (n t : Z) : proc :=
  mkProc 4096 0x80401000 0x80400000 RUNNABLE n None tf0 ctx0 None 0 (replicate NOFILE None) None
         (replicate 16 0) t 0 0.

Definition demo : pstate :=
  mkPstate ([demo_proc 1 10; demo_proc 2 20; demo_proc 3 30] ++ replicate 61 proc0)
           4 (Some 0%nat) lfsr_seed None 0 0 0x80400000.

Lemma demo_nonneg : tickets_nonneg (procs demo).
Proof. unfold tickets_nonneg. apply (bool_decide_unpack _). by vm_compute. Qed.

Lemma demo_ready : runnable_ready (procs demo).
Proof. unfold runnable_ready. apply (bool_decide_unpack _). by vm_compute. Qed.

Lemma demo_tix : tix (procs demo) = 60.
Proof. by vm_compute. Qed.

Lemma demo_drawable : drawable demo.
Proof.
  split_and!; [apply demo_nonneg|apply demo_ready|..]; rewrite ?demo_tix; try lia;
    unfold demo, lfsr_seed; simpl; lia.
Qed.

#[local] Opaque draws.

Lemma lottery_proportional_witness :
  exists ws s', winners (Z.to_nat (65535 - 65536 mod 60)) draw_fuel demo = Some (ws, s') /\
    Z.of_nat (count (fun i => i = 1%nat) ws) = 20 * 1092.
Proof.
  assert (total_tickets (procs demo) 0 = 60) as HT by (by vm_compute).
  destruct (lottery_proportional demo 1 (demo_proc 2 20) demo_drawable eq_refl eq_refl) as (ws & s' & Hw & Hc).
  rewrite HT in Hw, Hc. exists ws, s'. split; [exact Hw|]. etrans; [exact Hc|]. by vm_compute.
Defined.

Lemma scheduler_pass_witness :
  exists w l i p,
    random_at_most draw_fuel (lfsr demo) (tix (procs demo) - 1) = Some (w, l) /\
    owns (procs demo) i w /\ procs demo !! i = Some p /\ state p = RUNNABLE /\
    scheduler draw_fuel [] demo = Ret (Some i) [LPtable] (running demo i p l).
Proof.
  apply (scheduler_pass draw_fuel demo); rewrite ?demo_tix; try lia;
    [apply demo_nonneg|apply demo_ready|].
  unfold demo, lfsr_seed. simpl. lia.
Defined.

Lemma lottery_no_starvation_witness :
  exists n s' s'', Z.of_nat n < 65535 /\ rounds n draw_fuel demo = Some s' /\
    round draw_fuel s' = Some (0%nat, s'').
Proof.
  apply (lottery_no_starvation demo 0 (demo_proc 1 10)); [apply demo_drawable| |done..].
  rewrite demo_tix. lia.
Defined.

Lemma settickets_hangs_scheduler_witness :
  settickets 3 70000 [] demo = Ret 0 [] (upd 2 (set_tickets 70000) demo) /\
  scheduler 1000 [] (upd 2 (set_tickets 70000) demo) = Spin.
Proof.
  apply (settickets_hangs_scheduler demo 3 70000 2 (demo_proc 3 30));
    [done|done|apply demo_nonneg|lia|by split|rewrite demo_tix; lia].
Defined.
