(* ===== verification/Mailbox.v ===== *)
(** * Mailbox IPC (src/mailbox.h, src/mailbox.c)

    [ksend] and [krecv] over the array of mailboxes and the process table they
    sleep and wake in.  A blocking call is split where it gives up the CPU:
    [ksend] runs up to the first [sleep], [ksend_wake] from the return of
    [sleep] to the next one.  A user buffer is the list of the bytes at its
    address. *)

From Stdlib Require Import ZArith Lia String.
From stdpp Require Import prelude list numbers strings option gmap.
From S2P Require Import Prelude Kernel Sched.

Definition NUM_MAILBOXES : Z := 16.
Definition MAILBOX_MSGSIZE : Z := 128.

Record mailbox : Type := mkMailbox {
  msg : list Z;
  msglen : Z;
  full : Z }.

(** The mailboxes and the process table. *)
Record mstate : Type := mkMstate {
  mailboxes : list mailbox;
  mprocs : pstate }.

#[export, refine] Instance Has_mprocs : Has pstate mstate :=
  {| get_part := mprocs; put_part := fun t s => mkMstate (mailboxes s) t |}.
Proof. all: by intros; destruct s. Defined.

Definition mailbox0 : mailbox := mkMailbox (replicate 128 0) 0 0.

(** [mailboxes[c]] *)
Definition get_mb (c : nat) : K mstate mailbox :=
  gets (fun s => default mailbox0 (mailboxes s !! c)).
Definition set_mb (c : nat) (mb : mailbox) : K mstate unit :=
  modify (fun s => mkMstate (<[c := mb]> (mailboxes s)) (mprocs s)).

(** [mailboxinit] *)
Definition mailboxinit (s : mstate) : mstate :=
  mkMstate ((fun mb => mkMailbox (msg mb) 0 0) <$> mailboxes s) (mprocs s).

(** [memmove(mb->msg, buf, len)] *)
Definition overwrite (new old : list Z) : list Z := new ++ drop (length new) old.

(** [ksend] with [mb->lock] held: the [while] loop and what follows it. *)
Definition ksend_loop (c : nat) (buf : list Z) (len : Z) : K mstate Z :=
  mb ← get_mb c;
  if negb (full mb =? 0) then sleep (ChMailbox c) (LMailbox c)
  else
    set_mb c (mkMailbox (overwrite (take (Z.to_nat len) buf) (msg mb)) len 1);;
    wakeup (ChMailbox c);;
    release (LMailbox c);;
    mret 0.

Definition ksend (chan : Z) (buf : list Z) (len : Z) : K mstate Z :=
  if (chan <? 0) || (NUM_MAILBOXES <=? chan) then mret (-1)
  else if (len <=? 0) || (MAILBOX_MSGSIZE <? len) then mret (-1)
  else
    let c := Z.to_nat chan in
    acquire (LMailbox c);;
    ksend_loop c buf len.

(** [ksend] from the return of [sleep]. *)
Definition ksend_wake (chan : Z) (buf : list Z) (len : Z) : K mstate Z :=
  let c := Z.to_nat chan in
  sleep_return (LMailbox c);;
  ksend_loop c buf len.

(** [krecv] with [mb->lock] held.  The result is the return value and the
    bytes stored at [buf]. *)
Definition krecv_loop (c : nat) (maxlen : Z) : K mstate (Z * list Z) :=
  mb ← get_mb c;
  if full mb =? 0 then sleep (ChMailbox c) (LMailbox c)
  else
    let n := if maxlen <? msglen mb then maxlen else msglen mb in
    set_mb c (mkMailbox (msg mb) 0 0);;
    wakeup (ChMailbox c);;
    release (LMailbox c);;
    mret (n, take (Z.to_nat n) (msg mb)).

Definition krecv (chan : Z) (maxlen : Z) : K mstate (Z * list Z) :=
  if (chan <? 0) || (NUM_MAILBOXES <=? chan) then mret (-1, [])
  else if maxlen <=? 0 then mret (-1, [])
  else
    let c := Z.to_nat chan in
    acquire (LMailbox c);;
    krecv_loop c maxlen.

(** [krecv] from the return of [sleep]. *)
Definition krecv_wake (chan : Z) (maxlen : Z) : K mstate (Z * list Z) :=
  let c := Z.to_nat chan in
  sleep_return (LMailbox c);;
  krecv_loop c maxlen.

(** ** What one run of a loop does *)

(** The table after [wakeup(mb)]. *)
Definition woken (c : nat) (s : pstate) : pstate :=
  set_procs (wake_one (ChMailbox c) <$> procs s) s.

Section runs.
Context (c : nat) (mbs : list mailbox) (ps : pstate) (mb : mailbox) (i : nat) (p : proc).
Hypothesis Hmb : mbs !! c = Some mb.
Hypothesis Hi : cpu_proc ps = Some i.
Hypothesis Hp : procs ps !! i = Some p.
#[local] Abbreviation s := (mkMstate mbs ps).

Lemma get_mb_run h : get_mb c h s = Ret mb h s.
Proof. unfold get_mb, gets. simpl. by rewrite Hmb. Qed.

Lemma ksend_loop_run buf len :
  ksend_loop c buf len [LMailbox c] s =
  if full mb =? 0 then
    Ret 0 [] (mkMstate (<[c := mkMailbox (overwrite (take (Z.to_nat len) buf) (msg mb)) len 1]> mbs)
                       (woken c ps))
  else Sched (mkMstate mbs (asleep i (ChMailbox c) ps)).
Proof.
  unfold ksend_loop. rewrite bind_unfold, get_mb_run. destruct (full mb =? 0); cbn [negb].
  - unfold set_mb, modify. ksteps. done.
  - by rewrite (sleep_run _ _ _ i p).
Qed.

Lemma krecv_loop_run maxlen :
  krecv_loop c maxlen [LMailbox c] s =
  if full mb =? 0 then Sched (mkMstate mbs (asleep i (ChMailbox c) ps))
  else
    let n := Z.min maxlen (msglen mb) in
    Ret (n, take (Z.to_nat n) (msg mb)) []
        (mkMstate (<[c := mkMailbox (msg mb) 0 0]> mbs) (woken c ps)).
Proof.
  unfold krecv_loop. rewrite bind_unfold, get_mb_run. destruct (full mb =? 0).
  - by rewrite (sleep_run _ _ _ i p).
  - assert ((if maxlen <? msglen mb then maxlen else msglen mb) = Z.min maxlen (msglen mb)) as ->
      by (destruct (Z.ltb_spec maxlen (msglen mb)); lia).
    unfold set_mb, modify. ksteps. done.
Qed.

Lemma mb_sleep_return_run :
  sleep_return (LMailbox c) [LPtable] s = Ret tt [LMailbox c] (mkMstate mbs (upd i (set_chan None) ps)).
Proof. by rewrite (sleep_return_run _ _ i p). Qed.
End runs.

(** ** The system: processes that call [ksend] and [krecv]

    Each step is one run of kernel code by one process: a call up to its
    return or its [sleep]; a woken process from the return of [sleep]; or a
    step of the rest of the kernel, which may do anything to processes outside
    the mailbox code, and may make a sleeper runnable ([kill], a wakeup). *)

Inductive call : Type :=
  | Send (chan : Z) (buf : list Z) (len : Z)
  | Recv (chan : Z) (maxlen : Z).

Inductive event : Type :=
  | Sent (c : nat) (m : list Z)
  | Got (c : nat) (maxlen : Z) (bytes : list Z).

Definition call_chan (cl : call) : Z := match cl with Send c _ _ | Recv c _ => c end.

(** The user buffer of a [ksend] has [len] bytes ([argptr] checked it). *)
Definition call_ok (cl : call) : Prop :=
  match cl with Send _ buf len => len <= Z.of_nat (length buf) | Recv _ _ => True end.

Definition sent_event (cl : call) (r : Z * list Z) : list event :=
  if r.1 <? 0 then []
  else match cl with
       | Send c buf len => [Sent (Z.to_nat c) (take (Z.to_nat len) buf)]
       | Recv c maxlen => [Got (Z.to_nat c) maxlen r.2]
       end.

Definition start (cl : call) : K mstate (Z * list Z) :=
  match cl with
  | Send c buf len => r ← ksend c buf len; mret (r, [])
  | Recv c maxlen => krecv c maxlen
  end.

Definition resume (cl : call) : K mstate (Z * list Z) :=
  match cl with
  | Send c buf len => r ← ksend_wake c buf len; mret (r, [])
  | Recv c maxlen => krecv_wake c maxlen
  end.

Record system : Type := mkSystem {
  kstate : mstate;
  waiting : gmap nat call;
  trace : list event }.

(** The CPU switches to process [i]. *)
Definition on_cpu (i : nat) (s : mstate) : mstate :=
  mkMstate (mailboxes s) (set_cpu_proc (Some i) (mprocs s)).

(** The scheduler picks process [i]. *)
Definition switch_to (i : nat) (s : mstate) : mstate :=
  mkMstate (mailboxes s) (upd i (set_state RUNNING) (set_cpu_proc (Some i) (mprocs s))).

(** A step of the rest of the kernel. *)
Definition env_step (w : gmap nat call) (ps ps' : pstate) : Prop :=
  forall i, is_Some (w !! i) -> forall p, procs ps !! i = Some p ->
    exists p', procs ps' !! i = Some p' /\ pchan p' = pchan p /\
      (state p' = state p \/ (state p = SLEEPING /\ state p' = RUNNABLE)).

Inductive step : system -> system -> Prop :=
  | step_call i p cl s w tr r s' :
      w !! i = None -> procs (mprocs s) !! i = Some p -> state p = RUNNING -> call_ok cl ->
      start cl [] (on_cpu i s) = Ret r [] s' ->
      step (mkSystem s w tr) (mkSystem s' w (tr ++ sent_event cl r))
  | step_call_sleep i p cl s w tr s' :
      w !! i = None -> procs (mprocs s) !! i = Some p -> state p = RUNNING -> call_ok cl ->
      start cl [] (on_cpu i s) = Sched s' ->
      step (mkSystem s w tr) (mkSystem s' (<[i := cl]> w) tr)
  | step_resume i p cl s w tr r s' :
      w !! i = Some cl -> procs (mprocs s) !! i = Some p -> state p = RUNNABLE ->
      resume cl [LPtable] (switch_to i s) = Ret r [] s' ->
      step (mkSystem s w tr) (mkSystem s' (delete i w) (tr ++ sent_event cl r))
  | step_resume_sleep i p cl s w tr s' :
      w !! i = Some cl -> procs (mprocs s) !! i = Some p -> state p = RUNNABLE ->
      resume cl [LPtable] (switch_to i s) = Sched s' ->
      step (mkSystem s w tr) (mkSystem s' w tr)
  | step_env s w tr ps' :
      env_step w (mprocs s) ps' ->
      step (mkSystem s w tr) (mkSystem (mkMstate (mailboxes s) ps') w tr).

(** After [mailboxinit], with any process table and nobody waiting. *)
Definition initial (ps : pstate) : system :=
  mkSystem (mailboxinit (mkMstate (replicate 16 mailbox0) ps)) ∅ [].

Definition reachable (ps : pstate) (sy : system) : Prop := rtc step (initial ps) sy.

(** ** Invariants *)

(** A mailbox holds a message of 1 to 128 bytes, or is empty. *)
Definition mb_ok (mb : mailbox) : Prop :=
  length (msg mb) = 128%nat /\
  (full mb = 0 \/ (full mb = 1 /\ 1 <= msglen mb <= 128)).

(** The message in a full mailbox. *)
Definition pending (mb : mailbox) : list (list Z) :=
  if full mb =? 0 then [] else [take (Z.to_nat (msglen mb)) (msg mb)].

Definition sent_on (c : nat) (tr : list event) : list (list Z) :=
  omap (fun e => match e with Sent c' m => if decide (c' = c) then Some m else None | _ => None end) tr.
Definition got_on (c : nat) (tr : list event) : list (Z * list Z) :=
  omap (fun e => match e with Got c' n m => if decide (c' = c) then Some (n, m) else None | _ => None end) tr.

(** The history of a mailbox is that of a one-place channel: the messages
    received are the first messages sent, in order, each cut to the size the
    receiver asked for; at most one message is in the mailbox. *)
Definition delivers (m : list Z) (g : Z * list Z) : Prop := g.2 = take (Z.to_nat g.1) m.
Definition channel_ok (c : nat) (tr : list event) (mb : mailbox) : Prop :=
  exists ms, sent_on c tr = ms ++ pending mb /\ Forall2 delivers ms (got_on c tr).

(** The condition a waiting call waits for does not hold. *)
Definition blocked (cl : call) (mb : mailbox) : Prop :=
  match cl with Send _ _ _ => full mb <> 0 | Recv _ _ => full mb = 0 end.

Definition valid_call (cl : call) : Prop :=
  0 <= call_chan cl < NUM_MAILBOXES /\ call_ok cl /\
  match cl with Send _ _ len => 0 < len <= MAILBOX_MSGSIZE | Recv _ n => 0 < n end.

(** Every waiting process either is runnable or sleeps on its mailbox, and
    then the mailbox is in the state it is waiting to leave. *)
Definition waiter_ok (mbs : list mailbox) (ps : pstate) (i : nat) (cl : call) : Prop :=
  valid_call cl /\
  exists p, procs ps !! i = Some p /\
    pchan p = Some (ChMailbox (Z.to_nat (call_chan cl))) /\
    (state p = RUNNABLE \/
     (state p = SLEEPING /\ forall mb, mbs !! Z.to_nat (call_chan cl) = Some mb -> blocked cl mb)).

Record inv (sy : system) : Prop := {
  inv_len : length (mailboxes (kstate sy)) = 16%nat;
  inv_mb : forall c mb, mailboxes (kstate sy) !! c = Some mb -> mb_ok mb /\ channel_ok c (trace sy) mb;
  inv_wait : forall i cl, waiting sy !! i = Some cl ->
    waiter_ok (mailboxes (kstate sy)) (mprocs (kstate sy)) i cl }.

(** ** The invariant is preserved *)

Lemma waiter_frame mbs ps ps' j cl :
  procs ps' !! j = procs ps !! j -> waiter_ok mbs ps j cl -> waiter_ok mbs ps' j cl.
Proof. intros Hj (Hv & p & Hp & Hrest). split; [done|]. exists p. by rewrite Hj. Qed.

(** A [wakeup] on the mailbox that changed leaves no one asleep on it. *)
Lemma waiter_woken mbs mbs' ps c j cl :
  (forall c', c' <> c -> mbs' !! c' = mbs !! c') ->
  waiter_ok mbs ps j cl -> waiter_ok mbs' (woken c ps) j cl.
Proof.
  intros Hmbs (Hv & p & Hp & Hch & Hst). split; [done|].
  exists (wake_one (ChMailbox c) p). simpl. rewrite list_lookup_fmap, Hp.
  split; [done|]. unfold wake_one. rewrite Hch.
  destruct (decide (Z.to_nat (call_chan cl) = c)) as [Hc|Hc].
  - rewrite Hc. rewrite (bool_decide_eq_true_2 (Some _ = _)) by done. rewrite andb_true_r.
    destruct Hst as [Hst|[Hst _]]; rewrite Hst; simpl; (split; [by rewrite Hch, Hc|by left]).
  - rewrite (bool_decide_eq_false_2 (Some _ = _)) by congruence. rewrite andb_false_r.
    split; [done|]. destruct Hst as [?|[? Hb]]; [by left|right]. split; [done|].
    intros mb. rewrite Hmbs by done. apply Hb.
Qed.

Lemma asleep_other i ch ps j : i <> j -> procs (asleep i ch ps) !! j = procs ps !! j.
Proof. intros. unfold asleep. by rewrite !upd_lookup, !decide_False. Qed.

Lemma waiter_asleep mbs ps i p cl :
  valid_call cl -> procs ps !! i = Some p ->
  (forall mb, mbs !! Z.to_nat (call_chan cl) = Some mb -> blocked cl mb) ->
  waiter_ok mbs (asleep i (ChMailbox (Z.to_nat (call_chan cl))) ps) i cl.
Proof.
  intros Hv Hp Hb. split; [done|].
  exists (set_state SLEEPING (set_chan (Some (ChMailbox (Z.to_nat (call_chan cl)))) p)).
  unfold asleep. rewrite !upd_lookup, !decide_True, Hp by done. split_and!; [done..|]. by right.
Qed.

(** Histories. *)
Lemma sent_on_snoc c tr e :
  sent_on c (tr ++ [e]) =
  sent_on c tr ++ match e with Sent c' m => if decide (c' = c) then [m] else [] | _ => [] end.
Proof.
  unfold sent_on. rewrite omap_app. f_equal. simpl. destruct e; [|done]. by case_decide.
Qed.

Lemma got_on_snoc c tr e :
  got_on c (tr ++ [e]) =
  got_on c tr ++ match e with Got c' n m => if decide (c' = c) then [(n, m)] else [] | _ => [] end.
Proof.
  unfold got_on. rewrite omap_app. f_equal. simpl. destruct e; [done|]. by case_decide.
Qed.

Lemma channel_other c c' tr mb e :
  c <> c' -> (match e with Sent x _ | Got x _ _ => x end) = c' ->
  channel_ok c tr mb -> channel_ok c (tr ++ [e]) mb.
Proof.
  intros Hne Hc (ms & Hs & Hg). exists ms. rewrite sent_on_snoc, got_on_snoc.
  destruct e; subst; rewrite decide_False by done; by rewrite !app_nil_r.
Qed.

Lemma take_overwrite new old : take (length new) (overwrite new old) = new.
Proof. unfold overwrite. by rewrite take_app_length. Qed.

Lemma send_mb c tr mb buf len :
  mb_ok mb -> full mb = 0 -> 0 < len <= MAILBOX_MSGSIZE -> len <= Z.of_nat (length buf) ->
  channel_ok c tr mb ->
  let mb' := mkMailbox (overwrite (take (Z.to_nat len) buf) (msg mb)) len 1 in
  mb_ok mb' /\ channel_ok c (tr ++ [Sent c (take (Z.to_nat len) buf)]) mb'.
Proof.
  unfold MAILBOX_MSGSIZE. intros [Hlen _] Hfull Hl Hb (ms & Hs & Hg).
  assert (length (take (Z.to_nat len) buf) = Z.to_nat len) as Htl by (rewrite length_take; lia).
  split.
  - split; [|right; simpl; lia]. simpl. unfold overwrite. rewrite length_app, length_drop. lia.
  - exists ms. rewrite sent_on_snoc, got_on_snoc, decide_True, app_nil_r by done. split; [|done].
    rewrite Hs. unfold pending at 1. rewrite Hfull. simpl. rewrite app_nil_r. f_equal.
    unfold pending. simpl. f_equal. rewrite <- Htl at 2. by rewrite take_overwrite.
Qed.

Lemma recv_mb c tr mb maxlen :
  mb_ok mb -> full mb <> 0 -> 0 < maxlen -> channel_ok c tr mb ->
  let mb' := mkMailbox (msg mb) 0 0 in
  mb_ok mb' /\
  channel_ok c (tr ++ [Got c maxlen (take (Z.to_nat (Z.min maxlen (msglen mb))) (msg mb))]) mb'.
Proof.
  intros [Hlen [?|[_ Hml]]] Hfull Hm (ms & Hs & Hg) mb'; [done|]. split; [split; [done|by left]|].
  unfold pending in Hs. destruct (Z.eqb_spec (full mb) 0); [done|].
  exists (ms ++ [take (Z.to_nat (msglen mb)) (msg mb)]).
  rewrite sent_on_snoc, got_on_snoc, decide_True, app_nil_r by done. split.
  - rewrite Hs. unfold pending. simpl. by rewrite app_nil_r.
  - apply Forall2_app; [done|]. constructor; [|done]. unfold delivers. simpl.
    rewrite take_take. f_equal. lia.
Qed.

Definition loop (cl : call) : K mstate (Z * list Z) :=
  let c := Z.to_nat (call_chan cl) in
  match cl with
  | Send _ buf len => r ← ksend_loop c buf len; mret (r, [])
  | Recv _ maxlen => krecv_loop c maxlen
  end.

Lemma start_cases cl s :
  call_ok cl ->
  start cl [] s = Ret (-1, []) [] s \/
  (valid_call cl /\ start cl [] s = loop cl [LMailbox (Z.to_nat (call_chan cl))] s).
Proof.
  unfold NUM_MAILBOXES, valid_call. destruct cl as [c buf len|c n]; simpl; intros Hok.
  - rewrite bind_unfold. unfold ksend, NUM_MAILBOXES, MAILBOX_MSGSIZE.
    destruct (Z.ltb_spec c 0); [by left|]. destruct (Z.leb_spec 16 c); [by left|].
    destruct (Z.leb_spec len 0); [by left|]. destruct (Z.ltb_spec 128 len); [by left|].
    right. simpl. rewrite bind_unfold, acquire_free by set_solver. split; [lia|done].
  - unfold krecv, NUM_MAILBOXES.
    destruct (Z.ltb_spec c 0); [by left|]. destruct (Z.leb_spec 16 c); [by left|].
    destruct (Z.leb_spec n 0); [by left|].
    right. simpl. rewrite bind_unfold, acquire_free by set_solver. split; [lia|done].
Qed.

Lemma resume_loop cl s i p :
  cpu_proc (mprocs s) = Some i -> procs (mprocs s) !! i = Some p ->
  resume cl [LPtable] s =
  loop cl [LMailbox (Z.to_nat (call_chan cl))] (mkMstate (mailboxes s) (upd i (set_chan None) (mprocs s))).
Proof.
  destruct s as [mbs ps]. simpl. intros Hi Hp. destruct cl; simpl; unfold ksend_wake, krecv_wake;
    rewrite !bind_unfold, (mb_sleep_return_run _ _ _ i p) by done; done.
Qed.

(** One run of the loop: asleep, with the condition false; or done, with the
    message moved and the mailbox's history extended by it. *)
Lemma loop_cases cl mbs ps mb i p :
  let c := Z.to_nat (call_chan cl) in
  valid_call cl -> mbs !! c = Some mb -> mb_ok mb ->
  cpu_proc ps = Some i -> procs ps !! i = Some p ->
  (blocked cl mb /\ loop cl [LMailbox c] (mkMstate mbs ps) = Sched (mkMstate mbs (asleep i (ChMailbox c) ps))) \/
  (exists r mb' e,
     loop cl [LMailbox c] (mkMstate mbs ps) = Ret r [] (mkMstate (<[c := mb']> mbs) (woken c ps)) /\
     sent_event cl r = [e] /\ (match e with Sent x _ | Got x _ _ => x end) = c /\
     mb_ok mb' /\ forall tr, channel_ok c tr mb -> channel_ok c (tr ++ [e]) mb').
Proof.
  intros c (Hc & Hok & Hargs) Hmb Hmbok Hi Hp. unfold loop. fold c.
  destruct cl as [ch buf len|ch n]; simpl in *.
  - rewrite bind_unfold, (ksend_loop_run c mbs ps mb i p) by done.
    destruct (Z.eqb_spec (full mb) 0) as [Hf|Hf]; [right|by left].
    eexists _, _, _. split_and!; [reflexivity|reflexivity|reflexivity|apply (send_mb c [] mb buf len)|]; try done.
    { exists []. unfold pending. by rewrite Hf. }
    intros tr Htr. by apply send_mb.
  - rewrite (krecv_loop_run c mbs ps mb i p) by done.
    destruct (Z.eqb_spec (full mb) 0) as [Hf|Hf]; [by left|right].
    assert (1 <= msglen mb) by (destruct Hmbok as [_ [?|[_ ?]]]; [done|lia]).
    eexists _, _, (Got c n _). split_and!; [reflexivity| |reflexivity|..].
    { unfold sent_event. simpl. destruct (Z.ltb_spec (Z.min n (msglen mb)) 0); [lia|done]. }
    { destruct Hmbok as [? _]. split; [done|by left]. }
    intros tr Htr. by apply recv_mb.
Qed.

Lemma loop_done_inv s w tr mbs' ps' c mb' e i :
  inv (mkSystem s w tr) ->
  mbs' = <[c := mb']> (mailboxes s) ->
  (match e with Sent x _ | Got x _ _ => x end) = c ->
  mb_ok mb' -> (forall mb, mailboxes s !! c = Some mb -> channel_ok c tr mb -> channel_ok c (tr ++ [e]) mb') ->
  (forall j, j <> i -> procs ps' !! j = procs (mprocs s) !! j) ->
  w !! i = None ->
  inv (mkSystem (mkMstate mbs' (woken c ps')) w (tr ++ [e])).
Proof.
  intros [Hlen Hmbs Hw] -> He Hok Hch Hps Hwi. simpl in *. constructor; simpl.
  - by rewrite length_insert.
  - intros c' mb Hc'. apply list_lookup_insert_Some in Hc' as [(<- & <- & Hlt)|[Hne Hc']].
    + destruct (lookup_lt_is_Some_2 _ _ Hlt) as [mb0 Hmb0].
      destruct (Hmbs c mb0 Hmb0). split; [done|]. by eapply Hch.
    + destruct (Hmbs c' mb Hc'). split; [done|]. by apply (channel_other c' c).
  - intros j cl Hj. destruct (decide (j = i)) as [->|Hji]; [by rewrite Hwi in Hj|].
    apply (waiter_woken (mailboxes s)).
    + intros c' Hc'. by rewrite list_lookup_insert_ne.
    + apply (waiter_frame _ (mprocs s)); [by apply Hps|]. by apply Hw.
Qed.

Lemma loop_sleep_inv s w tr ps' cl i p mb :
  inv (mkSystem s w tr) -> valid_call cl ->
  mailboxes s !! Z.to_nat (call_chan cl) = Some mb -> blocked cl mb ->
  (forall j, j <> i -> procs ps' !! j = procs (mprocs s) !! j) ->
  procs ps' !! i = Some p ->
  inv (mkSystem (mkMstate (mailboxes s) (asleep i (ChMailbox (Z.to_nat (call_chan cl))) ps'))
                (<[i := cl]> w) tr).
Proof.
  intros [Hlen Hmbs Hw] Hv Hmb Hb Hps Hp. simpl in *. constructor; simpl; [done..|].
  intros j cl' Hj. apply lookup_insert_Some in Hj as [[<- <-]|[Hne Hj]].
  - apply (waiter_asleep _ _ _ p); [done..|]. intros mb0 Hmb0. by simplify_eq.
  - apply (waiter_frame _ (mprocs s)); [|by apply Hw].
    rewrite asleep_other by done. by apply Hps.
Qed.

Lemma inv_delete s w tr i : inv (mkSystem s w tr) -> inv (mkSystem s (delete i w) tr).
Proof.
  intros [Hlen Hmbs Hw]. constructor; simpl in *; [done..|].
  intros j cl [_ Hj]%lookup_delete_Some. by apply Hw.
Qed.

Lemma inv_frame s w tr ps' i :
  inv (mkSystem s w tr) -> w !! i = None ->
  (forall j, j <> i -> procs ps' !! j = procs (mprocs s) !! j) ->
  inv (mkSystem (mkMstate (mailboxes s) ps') w tr).
Proof.
  intros [Hlen Hmbs Hw] Hwi Hps. constructor; simpl in *; [done..|].
  intros j cl Hj. destruct (decide (j = i)) as [->|]; [by rewrite Hwi in Hj|].
  apply (waiter_frame _ (mprocs s)); [by apply Hps|by apply Hw].
Qed.

Lemma valid_mailbox sy cl :
  inv sy -> valid_call cl -> exists mb, mailboxes (kstate sy) !! Z.to_nat (call_chan cl) = Some mb.
Proof.
  intros [Hlen _ _] [Hc _]. unfold NUM_MAILBOXES in Hc. apply lookup_lt_is_Some_2. lia.
Qed.

Lemma on_cpu_lookup i s j : procs (mprocs (on_cpu i s)) !! j = procs (mprocs s) !! j.
Proof. done. Qed.

Lemma switch_lookup i s p :
  procs (mprocs s) !! i = Some p ->
  procs (mprocs (switch_to i s)) !! i = Some (set_state RUNNING p).
Proof.
  intros Hp. unfold switch_to. cbn [mprocs]. rewrite upd_lookup, decide_True by done.
  simpl. by rewrite Hp.
Qed.

(** The frame of a process that resumes: it runs, with its channel cleared. *)
Lemma resume_frame i s p :
  procs (mprocs s) !! i = Some p ->
  let ps := upd i (set_chan None) (mprocs (switch_to i s)) in
  cpu_proc ps = Some i /\
  procs ps !! i = Some (set_chan None (set_state RUNNING p)) /\
  (forall j, j <> i -> procs ps !! j = procs (mprocs s) !! j).
Proof.
  intros Hp ps. unfold ps, switch_to. cbn [mprocs]. split; [done|]. split.
  - rewrite !upd_lookup, !decide_True by done. simpl. by rewrite Hp.
  - intros j Hj. by rewrite !upd_lookup, !decide_False by done.
Qed.

(** What a call or a resumption that runs the loop does to the invariant. *)
Lemma loop_inv s w tr cl ps i p :
  inv (mkSystem s w tr) -> valid_call cl ->
  cpu_proc ps = Some i -> procs ps !! i = Some p ->
  (forall j, j <> i -> procs ps !! j = procs (mprocs s) !! j) ->
  match loop cl [LMailbox (Z.to_nat (call_chan cl))] (mkMstate (mailboxes s) ps) with
  | Ret r h s' => h = [] /\ inv (mkSystem s' (delete i w) (tr ++ sent_event cl r))
  | Sched s' => inv (mkSystem s' (<[i := cl]> w) tr)
  | _ => False
  end.
Proof.
  intros Hinv Hv Hi Hp Hps. destruct (valid_mailbox _ _ Hinv Hv) as [mb Hmb]. simpl in Hmb.
  pose proof (inv_mb _ Hinv _ _ Hmb) as [Hok _].
  destruct (loop_cases cl (mailboxes s) ps mb i p Hv Hmb Hok Hi Hp)
    as [[Hb ->]|(r & mb' & e & -> & Hev & Hce & Hok' & Hch)].
  - by apply (loop_sleep_inv _ _ _ _ _ _ p mb).
  - split; [done|]. rewrite Hev.
    apply (loop_done_inv s _ _ _ _ _ mb' _ i); try done.
    + by apply inv_delete.
    + intros mb0 Hmb0 Hc0. simplify_eq. by apply Hch.
    + apply lookup_delete_eq.
Qed.

Lemma step_inv sy sy' : inv sy -> step sy sy' -> inv sy'.
Proof.
  intros Hinv Hstep. destruct Hstep as
    [i p cl s w tr r s' Hw Hp Hr Hok Hrun|i p cl s w tr s' Hw Hp Hr Hok Hrun
    |i p cl s w tr r s' Hw Hp Hr Hrun|i p cl s w tr s' Hw Hp Hr Hrun|s w tr ps' Henv].
  - destruct (start_cases cl (on_cpu i s) Hok) as [Hbad|[Hv Hl]].
    + rewrite Hbad in Hrun. injection Hrun as <- <-. simpl. rewrite app_nil_r.
      by apply (inv_frame s _ _ _ i).
    + pose proof (loop_inv s w tr cl (mprocs (on_cpu i s)) i p Hinv Hv eq_refl Hp ltac:(done)) as H.
      rewrite Hl in Hrun. unfold on_cpu at 1 in Hrun. simpl in H. rewrite Hrun in H.
      destruct H as [_ H]. by rewrite delete_id in H.
  - destruct (start_cases cl (on_cpu i s) Hok) as [Hbad|[Hv Hl]]; [by rewrite Hbad in Hrun|].
    pose proof (loop_inv s w tr cl (mprocs (on_cpu i s)) i p Hinv Hv eq_refl Hp ltac:(done)) as H.
    rewrite Hl in Hrun. unfold on_cpu at 1 in Hrun. simpl in H. by rewrite Hrun in H.
  - pose proof (inv_wait _ Hinv _ _ Hw) as [Hv _].
    destruct (resume_frame i s p Hp) as (Hi & Hpi & Hps).
    erewrite resume_loop in Hrun; [|done|by apply switch_lookup].
    pose proof (loop_inv s w tr cl _ i _ Hinv Hv Hi Hpi Hps) as H.
    unfold switch_to in Hrun, H. simpl in Hrun, H. rewrite Hrun in H. by destruct H.
  - pose proof (inv_wait _ Hinv _ _ Hw) as [Hv _].
    destruct (resume_frame i s p Hp) as (Hi & Hpi & Hps).
    erewrite resume_loop in Hrun; [|done|by apply switch_lookup].
    pose proof (loop_inv s w tr cl _ i _ Hinv Hv Hi Hpi Hps) as H.
    unfold switch_to in Hrun, H. simpl in Hrun, H. rewrite Hrun in H. by rewrite insert_id in H.
  - destruct Hinv as [Hlen Hmbs Hwt]. constructor; simpl in *; [done..|].
    intros j cl Hj. destruct (Hwt j cl Hj) as (Hv & p & Hp & Hch & Hst). split; [done|].
    destruct (Henv j (mk_is_Some _ _ Hj) p Hp) as (p' & Hp' & Hch' & Hst').
    exists p'. split; [done|]. split; [congruence|].
    destruct Hst' as [->|[_ ->]]; [done|by left].
Qed.

Lemma initial_inv ps : inv (initial ps).
Proof.
  constructor; [done| |done]. intros c mb Hc. unfold initial, mailboxinit in Hc.
  cbn [kstate mailboxes] in Hc.
  apply list_lookup_fmap_Some in Hc as (mb0 & -> & Hc).
  apply lookup_replicate in Hc as [-> _].
  split; [split; [done|by left]|]. by exists [].
Qed.

Lemma reachable_inv ps sy : reachable ps sy -> inv sy.
Proof.
  unfold reachable. intros H. remember (initial ps) as sy0 eqn:E.
  assert (inv sy0) as H0 by (subst; apply initial_inv). clear E.
  induction H as [|x y z Hxy _ IH]; [done|]. apply IH. by eapply step_inv.
Qed.

(** ** The properties of the mailboxes *)

(** C12: a mailbox is a one-place FIFO channel.  In every state reachable by
    any interleaving of calls of [ksend] and [krecv], wakeups, kills and other
    kernel activity, the messages received from a mailbox are the first
    messages sent to it, in order, each exactly once and cut to the receiver's
    [maxlen]; at most one message (the one stored) is sent and not received. *)
Theorem mailbox_channel ps sy c mb :
  reachable ps sy -> mailboxes (kstate sy) !! c = Some mb ->
  exists ms, sent_on c (trace sy) = ms ++ pending mb /\
             Forall2 delivers ms (got_on c (trace sy)).
Proof. intros Hr Hmb. by apply (inv_mb _ (reachable_inv _ _ Hr) c mb Hmb). Qed.

(** C2: no lost wakeup.  In every reachable state, a process asleep inside
    [ksend] sleeps on a full mailbox and one asleep inside [krecv] on an empty
    one, on the channel of its mailbox: nobody sleeps through the event it
    waits for. *)
Theorem mailbox_no_lost_wakeup ps sy i cl p mb :
  reachable ps sy -> waiting sy !! i = Some cl ->
  procs (mprocs (kstate sy)) !! i = Some p -> state p = SLEEPING ->
  mailboxes (kstate sy) !! Z.to_nat (call_chan cl) = Some mb ->
  pchan p = Some (ChMailbox (Z.to_nat (call_chan cl))) /\ blocked cl mb.
Proof.
  intros Hr Hw Hp Hs Hmb.
  destruct (inv_wait _ (reachable_inv _ _ Hr) _ _ Hw) as (Hv & p' & Hp' & Hch & Hst).
  simplify_eq. split; [done|]. destruct Hst as [?|[_ Hb]]; [congruence|]. by apply Hb.
Qed.

(** Sends and receives never panic, hang or leave a lock held.  In a
    reachable state, a call made by a running process either returns with no
    lock held or gives up the CPU asleep; so does a woken call. *)
Theorem mailbox_calls_complete ps sy i cl p :
  reachable ps sy -> procs (mprocs (kstate sy)) !! i = Some p ->
  (call_ok cl ->
   (exists r s', start cl [] (on_cpu i (kstate sy)) = Ret r [] s') \/
   (exists s', start cl [] (on_cpu i (kstate sy)) = Sched s')) /\
  (waiting sy !! i = Some cl ->
   (exists r s', resume cl [LPtable] (switch_to i (kstate sy)) = Ret r [] s') \/
   (exists s', resume cl [LPtable] (switch_to i (kstate sy)) = Sched s')).
Proof.
  intros Hr Hp. pose proof (reachable_inv _ _ Hr) as Hinv. destruct sy as [s w tr]. simpl in *.
  split.
  - intros Hok. destruct (start_cases cl (on_cpu i s) Hok) as [Hbad|[Hv Hl]]; [by eauto|].
    pose proof (loop_inv s w tr cl (mprocs (on_cpu i s)) i p Hinv Hv eq_refl Hp ltac:(done)) as H.
    rewrite Hl. unfold on_cpu in *. simpl in *. destruct (loop _ _ _); naive_solver.
  - intros Hw. pose proof (inv_wait _ Hinv _ _ Hw) as [Hv _].
    destruct (resume_frame i s p Hp) as (Hi & Hpi & Hps).
    erewrite resume_loop; [|done|by apply switch_lookup].
    pose proof (loop_inv s w tr cl _ i _ Hinv Hv Hi Hpi Hps) as H.
    unfold switch_to in *. simpl in *. destruct (loop _ _ _); naive_solver.
Qed.

(** ** A concrete run

    Process 0 sends two messages to mailbox 2: the second send sleeps.  Then
    process 1 receives the first one. *)

Definition mdemo_ps : pstate :=
  set_procs (set_state RUNNING proc0 :: set_state RUNNING proc0 :: replicate 62 proc0) pstate0.

Definition mdemo_first : call := Send 2 [7; 8; 9] 3.
Definition mdemo_second : call := Send 2 [1] 1.

Definition run_call (i : nat) (cl : call) (sy : system) : system :=
  match start cl [] (on_cpu i (kstate sy)) with
  | Ret r _ s' => mkSystem s' (waiting sy) (trace sy ++ sent_event cl r)
  | Sched s' => mkSystem s' (<[i := cl]> (waiting sy)) (trace sy)
  | _ => sy
  end.

Definition mdemo1 : system := run_call 0 mdemo_first (initial mdemo_ps).
Definition mdemo2 : system := run_call 0 mdemo_second mdemo1.
Definition mdemo3 : system := run_call 1 (Recv 2 2) mdemo2.

Definition is_return {S A} (o : outcome S A) : bool := match o with Ret _ [] _ => true | _ => false end.
Definition is_sched {S A} (o : outcome S A) : bool := match o with Sched _ => true | _ => false end.

Lemma run_call_step i cl sy p :
  waiting sy !! i = None -> procs (mprocs (kstate sy)) !! i = Some p -> state p = RUNNING -> call_ok cl ->
  is_return (start cl [] (on_cpu i (kstate sy))) || is_sched (start cl [] (on_cpu i (kstate sy))) = true ->
  step sy (run_call i cl sy).
Proof.
  intros Hw Hp Hr Hok Hrun. unfold run_call. destruct sy as [s w tr]. simpl in *.
  destruct (start cl [] (on_cpu i s)) as [r [|? ?] s'|s'|?|] eqn:E; try done.
  - by apply (step_call i p).
  - by apply (step_call_sleep i p).
Qed.

Lemma mdemo1_reachable : reachable mdemo_ps mdemo1.
Proof.
  apply rtc_once. eapply run_call_step; [done|reflexivity|done|by vm_compute|by vm_compute].
Qed.

Lemma mdemo2_reachable : reachable mdemo_ps mdemo2.
Proof.
  eapply rtc_r; [apply mdemo1_reachable|].
  eapply run_call_step; [by vm_compute|vm_compute; reflexivity|done|by vm_compute|by vm_compute].
Qed.

Lemma mdemo3_reachable : reachable mdemo_ps mdemo3.
Proof.
  eapply rtc_r; [apply mdemo2_reachable|].
  eapply run_call_step; [by vm_compute|vm_compute; reflexivity|done|by vm_compute|by vm_compute].
Qed.

Lemma mailbox_channel_witness :
  exists ms, [[7; 8; 9]] = ms ++ [] /\ Forall2 delivers ms [(2, [7; 8])].
Proof.
  pose proof (mailbox_channel mdemo_ps mdemo3 2 (default mailbox0 (mailboxes (kstate mdemo3) !! 2%nat))
                mdemo3_reachable) as H.
  vm_compute in H. vm_compute. by apply H.
Defined.

Lemma mailbox_no_lost_wakeup_witness :
  exists mb p, pchan p = Some (ChMailbox 2) /\ blocked mdemo_second mb.
Proof.
  eexists _, _. eapply (mailbox_no_lost_wakeup mdemo_ps mdemo2 0 mdemo_second).
  - apply mdemo2_reachable.
  - by vm_compute.
  - vm_compute. reflexivity.
  - reflexivity.
  - vm_compute. reflexivity.
Defined.

Lemma mailbox_calls_complete_witness :
  ((exists r s', start mdemo_second [] (on_cpu 0 (kstate mdemo2)) = Ret r [] s') \/
   (exists s', start mdemo_second [] (on_cpu 0 (kstate mdemo2)) = Sched s')) /\
  ((exists r s', resume mdemo_second [LPtable] (switch_to 0 (kstate mdemo2)) = Ret r [] s') \/
   (exists s', resume mdemo_second [LPtable] (switch_to 0 (kstate mdemo2)) = Sched s')).
Proof.
  assert (procs (mprocs (kstate mdemo2)) !! 0%nat =
          Some (set_state SLEEPING (set_chan (Some (ChMailbox 2)) (set_state RUNNING proc0))))
    as Hp by (vm_compute; reflexivity).
  destruct (mailbox_calls_complete mdemo_ps mdemo2 0 mdemo_second _ mdemo2_reachable Hp) as [H1 H2].
  split; [apply H1; by vm_compute|apply H2; by vm_compute].
Defined.
