(* ===== verification/Monitor.v ===== *)
(** * Monitors: data behind a spin lock, with [sleep] and [wakeup]

    Sleep locks, pipes, the log's admission of operations and the IDE driver
    are used in the same way: a call takes the lock, looks at the data, and
    either finishes and wakes the processes that may be waiting for what it did,
    or sleeps on a channel and starts its loop again when it is woken.  This file states that
    pattern once, as an interface: [act] says what one turn of a call does to
    the data, [mon_call] and [mon_wake] are the kernel code, and the laws relate them.
    Against the interface it proves, for every interleaving of calls with each
    other and with the rest of the kernel, that invariants of the turns hold
    and that no process sleeps through the event it waits for. *)

From Stdlib Require Import ZArith Lia String.
From stdpp Require Import prelude list numbers strings option gmap relations.
From S2P Require Import Prelude Kernel Sched.

(** The protected data and the process table. *)
Record mon (D : Type) : Type := mkMon {
  mdata : D;
  mtable : pstate }.
Arguments mkMon {D}.
Arguments mdata {D}.
Arguments mtable {D}.

#[export, refine] Instance Has_mtable D : Has pstate (mon D) :=
  {| get_part := mtable; put_part := fun t s => mkMon (mdata s) t |}.
Proof. all: by intros; destruct s. Defined.

(** How a turn ends: the call returns, or it sleeps on a channel and will go on
    as another call. *)
Inductive turn (C R : Type) : Type :=
  | Finish (r : R)
  | Wait (ch : chan) (c : C).
Arguments Finish {C R} r.
Arguments Wait {C R} ch c.

(** The table after [wakeup] on each of the channels. *)
Definition wake_all (chs : list chan) (ps : pstate) : pstate :=
  fold_left (fun ps ch => set_procs (wake_one ch <$> procs ps) ps) chs ps.

(** The outcome of a turn of the process in slot [i]. *)
Definition turn_outcome {D C R} (i : nat) (ps : pstate) (o : D * list chan * turn C R) : outcome (mon D) R :=
  match o with
  | (d, chs, Finish r) => Ret r [] (mkMon d (wake_all chs ps))
  | (d, chs, Wait ch _) => Sched (mkMon d (asleep i ch (wake_all chs ps)))
  end.

(** What a call can see of the calling process. *)
Definition same_view (p q : proc) : Prop := killed p = killed q /\ pid p = pid q.

Class Monitor (D C R : Type) := {
  act : proc -> C -> D -> D * list chan * turn C R;
  (** The turns that the laws cover. *)
  tok : proc -> C -> D -> Prop;
  mon_call : C -> K (mon D) R;
  mon_wake : C -> K (mon D) R;
  dok : D -> Prop;
  cok : C -> Prop;
  (** The calls that a process can be asleep in. *)
  wok : C -> Prop;
  (** The code does what [act] says. *)
  mon_call_run : forall c d ps i p,
    cok c -> dok d -> tok p c d -> cpu_proc ps = Some i -> procs ps !! i = Some p ->
    mon_call c [] (mkMon d ps) = turn_outcome i ps (act p c d);
  mon_wake_run : forall c d ps i p,
    wok c -> dok d -> tok p c d -> cpu_proc ps = Some i -> procs ps !! i = Some p ->
    mon_wake c [LPtable] (mkMon d ps) = turn_outcome i (upd i (set_chan None) ps) (act p c d);
  act_view : forall p q c d, same_view p q -> act p c d = act q c d /\ (tok p c d -> tok q c d);
  (** A turn keeps the data well formed. *)
  act_dok : forall p c d d' chs t, cok c -> dok d -> tok p c d -> act p c d = (d', chs, t) -> dok d';
  act_cok : forall p c d d' chs ch c', cok c -> dok d -> act p c d = (d', chs, Wait ch c') -> cok c' /\ wok c';
  (** A call that goes to sleep would sleep again if nothing happened. *)
  act_waits : forall p c d d' chs ch c', cok c -> dok d -> act p c d = (d', chs, Wait ch c') ->
    exists chs', act p c' d' = (d', chs', Wait ch c');
  (** A turn that ends what a sleeper waits for wakes it. *)
  act_wakes : forall p c d chs ch q c1 d1 chs1 t1, cok c -> cok c1 -> dok d ->
    tok q c1 d -> act p c d = (d, chs, Wait ch c) -> act q c1 d = (d1, chs1, t1) -> ch ∉ chs1 ->
    exists chs', act p c d1 = (d1, chs', Wait ch c) }.

(** ** Calls by many processes *)

(** [act p c d] holds back the caller on [ch]. *)
Definition waits `{Monitor D C R} (p : proc) (c : C) (d : D) (ch : chan) : Prop :=
  exists chs, act p c d = (d, chs, Wait ch c).

(** A turn, as recorded in the history: who, which call, the data before and
    after, and how it ended. *)
Record mevent (D C R : Type) : Type := mkMevent {
  ev_proc : nat; ev_call : C; ev_before : D; ev_after : D; ev_turn : turn C R }.
Arguments mkMevent {D C R}.
Arguments ev_proc {D C R}.
Arguments ev_call {D C R}.
Arguments ev_before {D C R}.
Arguments ev_after {D C R}.
Arguments ev_turn {D C R}.

Record msys (D C R : Type) : Type := mkMsys {
  mstate : mon D;
  mwaiting : gmap nat C;
  mtrace : list (mevent D C R) }.
Arguments mkMsys {D C R}.
Arguments mstate {D C R}.
Arguments mwaiting {D C R}.
Arguments mtrace {D C R}.

Definition running_on (i : nat) (ps : pstate) : pstate := set_cpu_proc (Some i) ps.
Definition scheduled (i : nat) (ps : pstate) : pstate := upd i (set_state RUNNING) (set_cpu_proc (Some i) ps).

(** A step of the rest of the kernel: anything, except that a process waiting
    in a call stays there; it may be made runnable, and [kill] makes the process it
    marks runnable. *)
Definition elsewhere {C} (w : gmap nat C) (ps ps' : pstate) : Prop :=
  forall i, is_Some (w !! i) -> forall p, procs ps !! i = Some p ->
    exists p', procs ps' !! i = Some p' /\ pchan p' = pchan p /\
      ((state p' = state p /\ same_view p' p) \/ state p' = RUNNABLE).

Section machine.
Context `{Monitor D C R}.

(** The turns of the machine are those with [g]. *)
Inductive mstep (g : proc -> C -> D -> Prop) : msys D C R -> msys D C R -> Prop :=
  | ms_return i p c d ps w tr r s' :
      w !! i = None -> procs ps !! i = Some p -> state p = RUNNING -> cok c -> g p c d ->
      mon_call c [] (mkMon d (running_on i ps)) = Ret r [] s' ->
      mstep g (mkMsys (mkMon d ps) w tr) (mkMsys s' w (tr ++ [mkMevent i c d (mdata s') (Finish r)]))
  | ms_sleep i p c d ps w tr s' ch c' :
      w !! i = None -> procs ps !! i = Some p -> state p = RUNNING -> cok c -> g p c d ->
      mon_call c [] (mkMon d (running_on i ps)) = Sched s' ->
      (act p c d).2 = Wait ch c' ->
      mstep g (mkMsys (mkMon d ps) w tr)
            (mkMsys s' (<[i := c']> w) (tr ++ [mkMevent i c d (mdata s') (Wait ch c')]))
  | ms_wake_return i p c d ps w tr r s' :
      w !! i = Some c -> procs ps !! i = Some p -> state p = RUNNABLE -> g p c d ->
      mon_wake c [LPtable] (mkMon d (scheduled i ps)) = Ret r [] s' ->
      mstep g (mkMsys (mkMon d ps) w tr)
            (mkMsys s' (delete i w) (tr ++ [mkMevent i c d (mdata s') (Finish r)]))
  | ms_wake_sleep i p c d ps w tr s' ch c' :
      w !! i = Some c -> procs ps !! i = Some p -> state p = RUNNABLE -> g p c d ->
      mon_wake c [LPtable] (mkMon d (scheduled i ps)) = Sched s' ->
      (act p c d).2 = Wait ch c' ->
      mstep g (mkMsys (mkMon d ps) w tr)
            (mkMsys s' (<[i := c']> w) (tr ++ [mkMevent i c d (mdata s') (Wait ch c')]))
  | ms_elsewhere d ps ps' w tr :
      elsewhere w ps ps' -> mstep g (mkMsys (mkMon d ps) w tr) (mkMsys (mkMon d ps') w tr).

Definition mreach (d0 : D) (ps0 : pstate) (s : msys D C R) : Prop :=
  rtc (mstep tok) (mkMsys (mkMon d0 ps0) ∅ []) s.

(** All turns, also those that the laws of the wakeups do not cover. *)
Definition mreach_any (d0 : D) (ps0 : pstate) (s : msys D C R) : Prop :=
  rtc (mstep (fun _ _ _ => True)) (mkMsys (mkMon d0 ps0) ∅ []) s.

(** ** No lost wakeups, and invariants of the turns *)

Definition wake_proc (chs : list chan) (p : proc) : proc :=
  if bool_decide (state p = SLEEPING) && existsb (fun ch => bool_decide (pchan p = Some ch)) chs
  then set_state RUNNABLE p else p.

Lemma wake_all_lookup chs ps j : procs (wake_all chs ps) !! j = wake_proc chs <$> procs ps !! j.
Proof.
  revert ps. induction chs as [|ch chs IH]; intros ps; cbn [wake_all fold_left].
  - destruct (procs ps !! j) as [p|]; [|done]. simpl. unfold wake_proc. by rewrite andb_false_r.
  - fold (wake_all chs). rewrite IH. cbn [procs set_procs]. rewrite list_lookup_fmap.
    destruct (procs ps !! j) as [p|]; [|done]. cbn [fmap option_fmap option_map]. f_equal.
    unfold wake_one, wake_proc. cbn [existsb].
    destruct (bool_decide (state p = SLEEPING)) eqn:E, (bool_decide (pchan p = Some ch)); cbn [andb orb state set_state];
      rewrite ?E; try done.
Qed.

Lemma wake_all_cpu chs ps : cpu_proc (wake_all chs ps) = cpu_proc ps.
Proof.
  revert ps. induction chs as [|ch chs IH]; intros ps; [done|].
  cbn [wake_all fold_left]. fold (wake_all chs). by rewrite IH.
Qed.

(** A waiting process is runnable, or sleeps on the channel its call waits on. *)
Definition waiter (d : D) (ps : pstate) (i : nat) (c : C) : Prop :=
  (cok c /\ wok c) /\ exists p ch, procs ps !! i = Some p /\ pchan p = Some ch /\
    (state p = RUNNABLE \/ (state p = SLEEPING /\ waits p c d ch)).

Lemma waiter_other d ps j c p0 c0 d' chs t :
  waiter d ps j c -> cok c0 -> tok p0 c0 d -> dok d -> act p0 c0 d = (d', chs, t) -> waiter d' (wake_all chs ps) j c.
Proof.
  intros (Hc & p & ch & Hp & Hch & Hst) Hc0 Htok Hd Hact. split; [done|].
  exists (wake_proc chs p), ch. rewrite wake_all_lookup, Hp. split; [done|]. unfold wake_proc.
  destruct Hst as [Hst|[Hst [chs0 Hw]]].
  { rewrite Hst. simpl. auto. }
  rewrite Hst, Hch, (bool_decide_eq_true_2 (SLEEPING = SLEEPING)) by done. cbn [andb].
  destruct (existsb _ _) eqn:E; [by cbn; auto|]. split; [done|]. right. split; [done|].
  eapply act_wakes; [apply Hc|apply Hc0|done|apply Htok|done|done|]. intros Hin.
  assert (existsb (fun ch0 => bool_decide (Some ch = Some ch0)) chs = true) as E'; [|by rewrite E' in E].
  apply existsb_exists. exists ch. split; [by apply list_elem_of_In|by apply bool_decide_eq_true_2].
Qed.

Lemma mwaiter_frame d ps ps' j c : procs ps' !! j = procs ps !! j -> waiter d ps j c -> waiter d ps' j c.
Proof. intros Hj (Hc & p & ch & Hp & Hrest). split; [done|]. exists p, ch. by rewrite Hj. Qed.

Lemma waiter_self d ps i p q c d' chs ch c' :
  procs ps !! i = Some p -> state p = RUNNING -> same_view p q -> cok c -> dok d ->
  act q c d = (d', chs, Wait ch c') -> waiter d' (asleep i ch (wake_all chs ps)) i c'.
Proof.
  intros Hp Hr Hv Hc Hd Hact. split; [by eapply act_cok|].
  exists (set_state SLEEPING (set_chan (Some ch) p)), ch. unfold asleep.
  rewrite !upd_lookup, !decide_True, wake_all_lookup, Hp by done. cbn [fmap option_fmap option_map].
  split; [|split; [done|right; split; [done|]]].
  - unfold wake_proc. by rewrite Hr.
  - destruct (act_waits _ _ _ _ _ _ _ Hc Hd Hact) as [chs' Hw]. exists chs'.
    rewrite <- Hw. apply act_view. destruct Hv. by split.
Qed.

Context (J : D -> list (mevent D C R) -> Prop).
Hypothesis J_act : forall i p c d tr d' chs t,
  cok c -> dok d -> tok p c d -> J d tr -> act p c d = (d', chs, t) -> J d' (tr ++ [mkMevent i c d d' t]).

Record minv (s : msys D C R) : Prop := {
  mi_data : dok (mdata (mstate s));
  mi_trace : J (mdata (mstate s)) (mtrace s);
  mi_wait : forall i c, mwaiting s !! i = Some c -> waiter (mdata (mstate s)) (mtable (mstate s)) i c }.

(** One turn of process [i], from a table that agrees with [ps] elsewhere. *)
Lemma turn_finish d ps ps1 w tr i p c d' chs r :
  minv (mkMsys (mkMon d ps) w tr) -> cok c -> tok p c d ->
  (forall j, j <> i -> procs ps1 !! j = procs ps !! j) -> w !! i = None ->
  act p c d = (d', chs, Finish r) ->
  minv (mkMsys (mkMon d' (wake_all chs ps1)) w (tr ++ [mkMevent i c d d' (Finish r)])).
Proof.
  intros [Hd HJ Hw] Hc Htok Hoth Hi Hact. cbn in *. split; cbn.
  - by eapply act_dok.
  - by eapply J_act.
  - intros j c1 Hj. assert (j <> i) by congruence. eapply (waiter_other d ps1); [|done..].
    apply (mwaiter_frame d ps); [|by apply Hw]. auto.
Qed.

Lemma turn_wait d ps ps1 w tr i p p1 c d' chs ch c' :
  minv (mkMsys (mkMon d ps) w tr) -> cok c -> tok p c d ->
  (forall j, j <> i -> procs ps1 !! j = procs ps !! j) ->
  procs ps1 !! i = Some p1 -> state p1 = RUNNING -> same_view p1 p ->
  act p c d = (d', chs, Wait ch c') ->
  minv (mkMsys (mkMon d' (asleep i ch (wake_all chs ps1))) (<[i := c']> w)
               (tr ++ [mkMevent i c d d' (Wait ch c')])).
Proof.
  intros [Hd HJ Hw] Hc Htok Hoth Hp1 Hr Hv Hact. cbn in *. split; cbn.
  - by eapply act_dok.
  - by eapply J_act.
  - intros j c1 Hj. destruct (decide (i = j)) as [<-|Hij].
    + rewrite lookup_insert_eq in Hj. simplify_eq. by eapply waiter_self.
    + rewrite lookup_insert_ne in Hj by done.
      apply (mwaiter_frame d' (wake_all chs ps1)); [by unfold asleep; rewrite !upd_lookup, !decide_False by done|].
      eapply (waiter_other d ps1); [|done..]. apply (mwaiter_frame d ps); [|by apply Hw]. auto.
Qed.

Lemma scheduled_other i j ps : j <> i -> procs (scheduled i ps) !! j = procs ps !! j.
Proof. intros. unfold scheduled. by rewrite upd_lookup, decide_False. Qed.

Lemma scheduled_self i ps p : procs ps !! i = Some p -> procs (scheduled i ps) !! i = Some (set_state RUNNING p).
Proof. intros Hp. unfold scheduled. rewrite upd_lookup, decide_True by done. simpl. by rewrite Hp. Qed.

Lemma mstep_inv s s' : mstep tok s s' -> minv s -> minv s'.
Proof.
  intros Hstep Hinv. pose proof (mi_data _ Hinv) as Hd.
  destruct Hstep as [i p c d ps w tr r s' Hi Hp Hr Hc Htok Hrun|i p c d ps w tr s' ch c' Hi Hp Hr Hc Htok Hrun Ht
    |i p c d ps w tr r s' Hi Hp Hr Htok Hrun|i p c d ps w tr s' ch c' Hi Hp Hr Htok Hrun Ht|d ps ps' w tr He]; cbn in Hd.
  - rewrite (mon_call_run _ _ _ i p) in Hrun by done.
    destruct (act p c d) as [[d' chs] [r'|? ?]] eqn:Hact; [|done]. cbn in Hrun. simplify_eq.
    by eapply turn_finish.
  - rewrite (mon_call_run _ _ _ i p) in Hrun by done.
    destruct (act p c d) as [[d' chs] [r'|? ?]] eqn:Hact; [done|]. cbn in Hrun, Ht. simplify_eq.
    by eapply turn_wait.
  - destruct (mi_wait _ Hinv i c Hi) as ([Hc Hwok] & _).
    assert (procs (scheduled i ps) !! i = Some (set_state RUNNING p)) as Hp1 by (by apply scheduled_self).
    rewrite (mon_wake_run _ _ _ i (set_state RUNNING p)) in Hrun by (done || by apply (act_view p)).
    rewrite (proj1 (act_view (set_state RUNNING p) p c d ltac:(done))) in Hrun.
    destruct (act p c d) as [[d' chs] [r'|? ?]] eqn:Hact; [|done]. cbn in Hrun. simplify_eq.
    eapply turn_finish; [|done|done| | |done].
    + destruct Hinv as [? ? Hw]. split; [done..|]. cbn. intros j cj [_ Hj]%lookup_delete_Some. by apply Hw.
    + intros j Hj. rewrite upd_lookup, decide_False by done. by apply scheduled_other.
    + apply lookup_delete_eq.
  - destruct (mi_wait _ Hinv i c Hi) as ([Hc Hwok] & _).
    assert (procs (scheduled i ps) !! i = Some (set_state RUNNING p)) as Hp1 by (by apply scheduled_self).
    rewrite (mon_wake_run _ _ _ i (set_state RUNNING p)) in Hrun by (done || by apply (act_view p)).
    rewrite (proj1 (act_view (set_state RUNNING p) p c d ltac:(done))) in Hrun.
    destruct (act p c d) as [[d' chs] [r'|? ?]] eqn:Hact; [done|]. cbn in Hrun, Ht. simplify_eq.
    eapply (turn_wait d ps _ w tr i p (set_chan None (set_state RUNNING p))); try done.
    + intros j Hj. rewrite upd_lookup, decide_False by done. by apply scheduled_other.
    + by rewrite upd_lookup, decide_True, Hp1 by done.
  - destruct Hinv as [? ? Hw]. split; [done..|]. cbn in *. intros i c Hi.
    destruct (Hw i c Hi) as (Hc & p & ch & Hp & Hch & Hst). split; [done|].
    destruct (He i ltac:(by eexists) p Hp) as (p' & Hp' & Hch' & Hst').
    exists p', ch. split; [done|]. split; [congruence|].
    destruct Hst' as [[Hst' Hv]|Hst']; [|auto]. rewrite Hst'.
    destruct Hst as [?|[? [chs Hact]]]; [auto|right]. split; [done|]. exists chs.
    by rewrite (proj1 (act_view p' p _ _ Hv)).
Qed.

Lemma mreach_inv d0 ps0 s : dok d0 -> J d0 [] -> mreach d0 ps0 s -> minv s.
Proof.
  intros Hd HJ Hr. assert (minv (mkMsys (mkMon d0 ps0) ∅ [])) as Hi by (by split).
  revert Hi. induction Hr as [|x y z Hxy _ IH]; [done|]. eauto using mstep_inv.
Qed.
End machine.

(** A monitor has no lost wakeups. *)
Lemma monitor_no_lost_wakeup `{Monitor D C R} d0 ps0 s i c p :
  dok d0 -> mreach d0 ps0 s -> mwaiting s !! i = Some c ->
  procs (mtable (mstate s)) !! i = Some p -> state p = SLEEPING ->
  exists ch, pchan p = Some ch /\ waits p c (mdata (mstate s)) ch.
Proof.
  intros Hd Hr Hi Hp Hs.
  assert (minv (fun _ _ => True) s) as Hinv by (by eapply mreach_inv).
  destruct (mi_wait _ _ Hinv i c Hi) as (_ & p' & ch & Hp' & Hch & Hst). simplify_eq.
  exists ch. split; [done|]. destruct Hst as [?|[_ ?]]; [congruence|done].
Qed.

(** ** Invariants of all turns, for a monitor whose code does what [act] says in every turn *)
Section all_turns.
Context `{Monitor D C R}.
Hypothesis call_run : forall c d ps i p, cok c -> dok d -> cpu_proc ps = Some i -> procs ps !! i = Some p ->
  mon_call c [] (mkMon d ps) = turn_outcome i ps (act p c d).
Hypothesis wake_run : forall c d ps i p, wok c -> dok d -> cpu_proc ps = Some i -> procs ps !! i = Some p ->
  mon_wake c [LPtable] (mkMon d ps) = turn_outcome i (upd i (set_chan None) ps) (act p c d).
Context (J : D -> list (mevent D C R) -> Prop).
Hypothesis turn_J : forall i p c d tr d' chs t,
  cok c -> dok d -> J d tr -> act p c d = (d', chs, t) -> dok d' /\ J d' (tr ++ [mkMevent i c d d' t]).

Definition tinv (s : msys D C R) : Prop :=
  dok (mdata (mstate s)) /\ J (mdata (mstate s)) (mtrace s) /\ forall i c, mwaiting s !! i = Some c -> cok c /\ wok c.

Lemma tinv_turn i p c d ps ps' w w' tr d' chs t :
  tinv (mkMsys (mkMon d ps) w tr) -> cok c -> act p c d = (d', chs, t) ->
  (forall j cj, w' !! j = Some cj -> w !! j = Some cj \/ exists ch, t = Wait ch cj) ->
  tinv (mkMsys (mkMon d' ps') w' (tr ++ [mkMevent i c d d' t])).
Proof.
  intros (Hd & HJ & Hw) Hc Hact Hw'. cbn in *. destruct (turn_J i p c d tr d' chs t Hc Hd HJ Hact) as [Hd' HJ'].
  split_and!; [done..|]. cbn. intros j cj [Hj|[ch ->]]%Hw'; [by eapply Hw|]. exact (act_cok _ _ _ _ _ _ _ Hc Hd Hact).
Qed.

Lemma mstep_tinv g s s' : mstep g s s' -> tinv s -> tinv s'.
Proof.
  intros Hstep Hinv. pose proof Hinv as (Hd & _ & Hwait).
  destruct Hstep as [i p c d ps w tr r s' Hi Hp Hr Hc _ Hrun|i p c d ps w tr s' ch c' Hi Hp Hr Hc _ Hrun Ht
    |i p c d ps w tr r s' Hi Hp Hr _ Hrun|i p c d ps w tr s' ch c' Hi Hp Hr _ Hrun Ht|d ps ps' w tr _]; cbn in Hd, Hwait; [| | | |exact Hinv].
  3,4: destruct (Hwait i c Hi) as [Hc Hwok]; pose proof (scheduled_self i ps p Hp) as Hp1;
    rewrite (wake_run _ _ _ i (set_state RUNNING p)), (proj1 (act_view (set_state RUNNING p) p c d ltac:(done))) in Hrun by done.
  1,2: rewrite (call_run _ _ _ i p) in Hrun by done.
  all: destruct (act p c d) as [[d' chs] [r'|? ?]] eqn:Hact; try done; cbn in Hrun; try cbn in Ht; simplify_eq; eapply tinv_turn; try done; intros j cj Hj.
  - by left.
  - apply lookup_insert_Some in Hj as [[_ <-]|[_ Hj]]; [right; by eexists|by left].
  - apply lookup_delete_Some in Hj as [_ Hj]. by left.
  - apply lookup_insert_Some in Hj as [[_ <-]|[_ Hj]]; [right; by eexists|by left].
Qed.

Lemma mreach_any_inv d0 ps0 s : dok d0 -> J d0 [] -> mreach_any d0 ps0 s -> tinv s.
Proof.
  intros Hd HJ Hr. assert (tinv (mkMsys (mkMon d0 ps0) ∅ [])) as Hi by (by split_and!).
  revert Hi. induction Hr as [|x y z Hxy _ IH]; [done|]. eauto using mstep_tinv.
Qed.
End all_turns.

(** The code returned with no lock held, or gave up the CPU. *)
Definition completes {S A} (o : outcome S A) : Prop :=
  (exists r s, o = Ret r [] s) \/ exists s, o = Sched s.

Lemma turn_completes {D C R} i ps (o : D * list chan * turn C R) : completes (turn_outcome i ps o).
Proof. destruct o as [[d chs] [r|ch c]]; [left|right]; by repeat eexists. Qed.

Lemma monitor_calls_complete `{Monitor D C R} d0 ps0 s i c p :
  dok d0 -> mreach d0 ps0 s -> procs (mtable (mstate s)) !! i = Some p ->
  tok p c (mdata (mstate s)) ->
  (cok c -> completes (mon_call c [] (mkMon (mdata (mstate s)) (running_on i (mtable (mstate s)))))) /\
  (mwaiting s !! i = Some c ->
   completes (mon_wake c [LPtable] (mkMon (mdata (mstate s)) (scheduled i (mtable (mstate s)))))).
Proof.
  intros Hd Hr Hp Htok. assert (minv (fun _ _ => True) s) as Hinv by (by eapply mreach_inv).
  pose proof (mi_data _ _ Hinv). split.
  - intros Hc. rewrite (mon_call_run _ _ _ i p) by done. apply turn_completes.
  - intros Hi. destruct (mi_wait _ _ Hinv i c Hi) as ([Hc Hwok] & _).
    rewrite (mon_wake_run _ _ _ i (set_state RUNNING p)); [apply turn_completes|done|done|by apply (act_view p)|done|].
    by apply scheduled_self.
Qed.

(** A run of the machine, for examples: process [i] makes the call [c]. *)
Definition do_call `{Monitor D C R} (i : nat) (c : C) (s : msys D C R) : msys D C R :=
  let d := mdata (mstate s) in
  match procs (mtable (mstate s)) !! i with
  | None => s
  | Some p =>
      match mon_call c [] (mkMon d (running_on i (mtable (mstate s)))), (act p c d).2 with
      | Ret r [] s', _ => mkMsys s' (mwaiting s) (mtrace s ++ [mkMevent i c d (mdata s') (Finish r)])
      | Sched s', Wait ch c' =>
          mkMsys s' (<[i := c']> (mwaiting s)) (mtrace s ++ [mkMevent i c d (mdata s') (Wait ch c')])
      | _, _ => s
      end
  end.

Lemma do_call_step `{Monitor D C R} g i c (s : msys D C R) p :
  mwaiting s !! i = None -> procs (mtable (mstate s)) !! i = Some p -> state p = RUNNING -> cok c ->
  g p c (mdata (mstate s)) -> rtc (mstep g) s (do_call i c s).
Proof.
  intros Hi Hp Hr Hc Htok. unfold do_call. destruct s as [[d ps] w tr]. cbn in *. rewrite Hp.
  destruct (mon_call c [] _) as [r [|? ?] s'|s'|?|] eqn:E; try done.
  - apply rtc_once. by eapply ms_return.
  - destruct ((act p c d).2) as [?|ch c'] eqn:E'; [done|]. apply rtc_once. by eapply ms_sleep.
Qed.
