(* ===== verification/Sleeplock.v ===== *)
(** * Sleep locks (src/sleeplock.h, src/sleeplock.c)

    Long-term locks of buffers and inodes: waiting for one gives up the CPU.
    The operations are written for a lock anywhere in a state: [get] and [put]
    read and write it, [ch] is its address as a sleep channel and [lk] the spin
    lock inside it. *)

From Stdlib Require Import ZArith Lia String.
From stdpp Require Import prelude list numbers strings option gmap relations.
From S2P Require Import Prelude Kernel Sched Monitor.

Record sleeplock : Type := mkSleeplock {
  slocked : Z;
  spid : Z }.

#[export] Instance sleeplock_eq_dec : EqDecision sleeplock.
Proof. solve_decision. Defined.

Definition initsleeplock : sleeplock := mkSleeplock 0 0.

Section ops.
Context {S : Type} `{!Has pstate S}.
Context (get : S -> sleeplock) (put : sleeplock -> S -> S) (ch : chan) (lk : lockid).

(** [acquiresleep] with [lk->lk] held: the [while] loop and what follows. *)
Definition acquiresleep_loop : K S unit :=
  l ← gets get;
  if negb (slocked l =? 0) then sleep ch lk
  else
    modify (fun s => put (mkSleeplock 1 (spid (get s))) s);;
    '(_, p) ← curproc;
    modify (fun s => put (mkSleeplock (slocked (get s)) (pid p)) s);;
    release lk.

Definition acquiresleep : K S unit := acquire lk;; acquiresleep_loop.

(** [acquiresleep] from the return of [sleep]. *)
Definition acquiresleep_wake : K S unit := sleep_return lk;; acquiresleep_loop.

Definition releasesleep : K S unit :=
  acquire lk;;
  modify (put (mkSleeplock 0 0));;
  wakeup ch;;
  release lk.

Definition holdingsleep : K S bool :=
  acquire lk;;
  l ← gets get;
  r ← (if slocked l =? 0 then mret false
       else '(_, p) ← curproc; mret (spid l =? pid p));
  release lk;;
  mret r.
End ops.

(** ** Runs that need not wait *)

Section runs.
Context {S : Type} `{!Has pstate S}.
Context (get : S -> sleeplock) (put : sleeplock -> S -> S) (ch : chan) (lk : lockid).
Hypothesis Hlk : lk <> LPtable.
Context (s : S).
Hypothesis get_put : forall l, get (put l s) = l.
Hypothesis put_put : forall l l', put l (put l' s) = put l s.
Hypothesis part_put : forall l, get_part (put l s) = get_part s.

Lemma acquiresleep_free n :
  current (get_part s) n -> slocked (get s) = 0 ->
  acquiresleep get put ch lk [] s = Ret tt [] (put (mkSleeplock 1 n) s).
Proof.
  intros (i & p & Hi & Hp & <- & _) Hl. unfold acquiresleep, acquiresleep_loop. repeat kstep_base.
  rewrite Hl. cbn [Z.eqb negb]. repeat kstep_base. rewrite (curproc_run _ _ i p) by (by rewrite part_put).
  repeat kstep_base. by rewrite !get_put, put_put.
Qed.

Lemma holdingsleep_held n :
  current (get_part s) n -> get s = mkSleeplock 1 n -> holdingsleep get lk [] s = Ret true [] s.
Proof.
  clear get_put put_put part_put.
  intros (i & p & Hi & Hp & <- & _) Hl. unfold holdingsleep. repeat kstep_base. rewrite Hl. cbn [slocked Z.eqb].
  repeat kstep_base. rewrite (curproc_run _ _ i p) by done. repeat kstep_base. cbn [spid].
  by rewrite Z.eqb_refl.
Qed.

Lemma releasesleep_run :
  releasesleep put ch lk [] s =
  Ret tt [] (put_part (set_procs (wake_one ch <$> procs (get_part s)) (get_part s)) (put (mkSleeplock 0 0) s)).
Proof. clear get_put put_put. unfold releasesleep. ksteps. by rewrite !part_put. Qed.
End runs.

(** ** Sleep locks as monitors *)

Inductive slcall : Type := Acquiresleep | Releasesleep | Holdingsleep.

Section monitor.
Context (ch : chan) (lk : lockid).
Hypothesis Hlk : lk <> LPtable.

Definition sl_put (l : sleeplock) (s : mon sleeplock) : mon sleeplock := mkMon l (mtable s).

Definition sl_act (p : proc) (c : slcall) (l : sleeplock) : sleeplock * list chan * turn slcall Z :=
  match c with
  | Acquiresleep => if slocked l =? 0 then (mkSleeplock 1 (pid p), [], Finish 0) else (l, [], Wait ch Acquiresleep)
  | Releasesleep => (mkSleeplock 0 0, [ch], Finish 0)
  | Holdingsleep => (l, [], Finish (Z.b2z (negb (slocked l =? 0) && (spid l =? pid p))))
  end.

Definition sl_call (c : slcall) : K (mon sleeplock) Z :=
  match c with
  | Acquiresleep => acquiresleep mdata sl_put ch lk;; mret 0
  | Releasesleep => releasesleep sl_put ch lk;; mret 0
  | Holdingsleep => r ← holdingsleep mdata lk; mret (Z.b2z r)
  end.

(** Only [acquiresleep] sleeps. *)
Definition sl_wake (c : slcall) : K (mon sleeplock) Z :=
  match c with
  | Acquiresleep => acquiresleep_wake mdata sl_put ch lk;; mret 0
  | _ => panic "not asleep"
  end.

Lemma acquiresleep_loop_run l ps i p :
  cpu_proc ps = Some i -> procs ps !! i = Some p ->
  acquiresleep_loop mdata sl_put ch lk [lk] (mkMon l ps) =
  if slocked l =? 0 then Ret tt [] (mkMon (mkSleeplock 1 (pid p)) ps)
  else Sched (mkMon l (asleep i ch ps)).
Proof.
  intros Hi Hp. unfold acquiresleep_loop. repeat kstep_base. cbn [mdata].
  destruct (slocked l =? 0) eqn:E; cbn [negb].
  - repeat kstep_base. rewrite (curproc_run _ _ i p) by done. repeat kstep_base. done.
  - by rewrite (sleep_run _ _ _ i p).
Qed.

Lemma sl_call_run c l ps i p :
  cpu_proc ps = Some i -> procs ps !! i = Some p ->
  sl_call c [] (mkMon l ps) = turn_outcome i ps (sl_act p c l).
Proof.
  intros Hi Hp. destruct c; cbn [sl_call sl_act].
  - unfold acquiresleep. rewrite bind_unfold, bind_unfold, acquire_free by set_solver.
    rewrite (acquiresleep_loop_run l ps i p) by done. by destruct (slocked l =? 0).
  - unfold releasesleep. ksteps. done.
  - unfold holdingsleep. repeat kstep_base. cbn [mdata]. destruct (slocked l =? 0); cbn [negb].
    + by repeat kstep_base.
    + repeat kstep_base. rewrite (curproc_run _ _ i p) by done. by repeat kstep_base.
Qed.

Lemma sl_wake_run l ps i p :
  cpu_proc ps = Some i -> procs ps !! i = Some p ->
  sl_wake Acquiresleep [LPtable] (mkMon l ps) =
  turn_outcome i (upd i (set_chan None) ps) (sl_act p Acquiresleep l).
Proof.
  intros Hi Hp. cbn [sl_wake].
  unfold acquiresleep_wake. rewrite bind_unfold, bind_unfold, (sleep_return_run _ _ i p) by done.
  change (put_part _ _) with (mkMon l (upd i (set_chan None) ps)).
  rewrite (acquiresleep_loop_run l _ i (set_chan None p)); [|done|by rewrite upd_lookup, decide_True, Hp by done].
  cbn [sl_act]. by destruct (slocked l =? 0).
Qed.

#[export, refine] Instance sleeplock_monitor : Monitor sleeplock slcall Z := {|
  act := sl_act; tok _ _ _ := True; mon_call := sl_call; mon_wake := sl_wake; dok _ := True; cok _ := True;
  wok c := c = Acquiresleep |}.
Proof.
  - intros. by apply sl_call_run.
  - intros ? ? ? ? ? ->. intros. by apply sl_wake_run.
  - intros p q c l [Hk Hpid]. unfold sl_act. by rewrite Hpid.
  - done.
  - intros p c l l' chs ch' c' _ _. destruct c; simpl; [|done|done].
    by destruct (slocked l =? 0); intros [= <- <- <- <-].
  - intros p c l l' chs ch' c' _ _. destruct c; simpl; [|done|done].
    destruct (slocked l =? 0) eqn:E; [done|]. intros [= <- <- <- <-]. simpl. rewrite E. eauto.
  - intros p c l chs ch' q c1 l1 chs1 t1 _ _ _ _ Hc Hc1 Hch. destruct c; simpl in *; [|done|done].
    destruct (slocked l =? 0) eqn:E; [done|]. simplify_eq.
    destruct c1; simpl in Hc1; rewrite ?E in Hc1; simplify_eq; rewrite ?E; eauto. set_solver.
Defined.
End monitor.

(** ** Mutual exclusion *)

(** The processes between the return of [acquiresleep] and [releasesleep]. *)
Fixpoint holders (tr : list (mevent sleeplock slcall Z)) (hs : list nat) : list nat :=
  match tr with
  | [] => hs
  | e :: tr =>
      holders tr (match ev_call e, ev_turn e with
                  | Acquiresleep, Finish _ => ev_proc e :: hs
                  | Releasesleep, Finish _ => filter (fun j => j <> ev_proc e) hs
                  | _, _ => hs
                  end)
  end.

(** Only a process that holds the lock releases it. *)
Fixpoint disciplined (tr : list (mevent sleeplock slcall Z)) (hs : list nat) : Prop :=
  match tr with
  | [] => True
  | e :: tr =>
      (ev_call e = Releasesleep -> ev_proc e ∈ hs) /\
      disciplined tr (holders [e] hs)
  end.

Lemma holders_app tr tr' hs : holders (tr ++ tr') hs = holders tr' (holders tr hs).
Proof. revert hs. induction tr as [|e tr IH]; intros hs; [done|]. apply IH. Qed.

Lemma disciplined_app tr tr' hs :
  disciplined (tr ++ tr') hs <-> disciplined tr hs /\ disciplined tr' (holders tr hs).
Proof.
  revert hs. induction tr as [|e tr IH]; intros hs; cbn [disciplined app]; [cbn; tauto|].
  rewrite IH. cbn [holders]. tauto.
Qed.

Definition sl_holds (l : sleeplock) (tr : list (mevent sleeplock slcall Z)) : Prop :=
  disciplined tr [] ->
  (slocked l = 0 /\ holders tr [] = []) \/ (slocked l = 1 /\ exists i, holders tr [] = [i]).

Lemma sl_holds_act ch i p c l tr l' chs t :
  sl_holds l tr -> sl_act ch p c l = (l', chs, t) -> sl_holds l' (tr ++ [mkMevent i c l l' t]).
Proof.
  intros HJ Hact [Hd1 Hd2]%disciplined_app. rewrite holders_app. destruct (HJ Hd1) as [[Hl Hh]|[Hl [j Hh]]];
    rewrite Hh in *; destruct c; cbn in *; rewrite ?Hl in *; cbn in *; simplify_eq; cbn.
  - right. split; [done|]. by exists i.
  - destruct Hd2 as [Hd2 _]. by apply not_elem_of_nil in Hd2.
  - by left.
  - right. split; [done|]. by exists j.
  - destruct Hd2 as [Hd2 _]. assert (i = j) as -> by (by apply list_elem_of_singleton, Hd2).
    left. split; [done|]. rewrite decide_False by naive_solver. done.
  - right. split; [done|]. by exists j.
Qed.

(** C27: sleep locks exclude, and lose no wakeup.  For every interleaving in which
    only holders call [releasesleep], at most one process is between the return
    of [acquiresleep] and its [releasesleep], the lock word says whether there
    is one, and a process asleep in [acquiresleep] sleeps on the lock while it
    is held. *)
Theorem sleeplock_mutex ch lk (Hlk : lk <> LPtable) ps0 s :
  @mreach _ _ _ (sleeplock_monitor ch lk Hlk) initsleeplock ps0 s -> disciplined (mtrace s) [] ->
  ((slocked (mdata (mstate s)) = 0 /\ holders (mtrace s) [] = []) \/
   (slocked (mdata (mstate s)) = 1 /\ exists i, holders (mtrace s) [] = [i])) /\
  forall i p c, mwaiting s !! i = Some c -> procs (mtable (mstate s)) !! i = Some p -> state p = SLEEPING ->
    c = Acquiresleep /\ pchan p = Some ch /\ slocked (mdata (mstate s)) = 1.
Proof.
  intros Hr Hd.
  assert (@minv _ _ _ (sleeplock_monitor ch lk Hlk) sl_holds s) as Hinv.
  { eapply mreach_inv; [|exact I| |exact Hr]; [|intros _; by left].
    intros i p c d tr d' chs t _ _ _ HJ Ha. by apply (sl_holds_act ch i p c d tr d' chs t). }
  pose proof (mi_trace _ _ Hinv Hd) as HJ. split; [done|]. intros i p c Hi Hp Hs.
  destruct (mi_wait _ _ Hinv i c Hi) as ([_ Hwok] & p' & ch' & Hp' & Hch & Hst). cbn in Hwok. simplify_eq.
  destruct Hst as [Hst|[_ [chs Hw]]]; [congruence|]. cbn [act sleeplock_monitor sl_act] in Hw.
  destruct (Z.eqb_spec (slocked (mdata (mstate s))) 0); [discriminate Hw|].
  injection Hw as _ <-. naive_solver.
Qed.

(** Two processes: the second waits for the first. *)
Definition sl_procs : pstate :=
  set_procs (set_pid 4 (set_state RUNNING proc0) :: set_pid 5 (set_state RUNNING proc0) :: replicate 62 proc0) pstate0.
Definition sl_mon : Monitor sleeplock slcall Z := sleeplock_monitor (ChSleepBuf 0) (LSleepBuf 0) ltac:(done).
Definition sl_demo : msys sleeplock slcall Z :=
  @do_call _ _ _ sl_mon 1 Acquiresleep (@do_call _ _ _ sl_mon 0 Acquiresleep (mkMsys (mkMon initsleeplock sl_procs) ∅ [])).

Lemma sleeplock_mutex_witness :
  holders (mtrace sl_demo) [] = [0%nat] /\ mwaiting sl_demo !! 1%nat = Some Acquiresleep /\
  slocked (mdata (mstate sl_demo)) = 1.
Proof.
  split; [vm_compute; reflexivity|]. split; [vm_compute; reflexivity|].
  destruct (sleeplock_mutex (ChSleepBuf 0) (LSleepBuf 0) ltac:(done) sl_procs sl_demo) as [[[_ H]|[H _]] _].
  - unfold sl_demo, mreach. etrans; eapply (@do_call_step _ _ _ sl_mon); try done; vm_compute; reflexivity.
  - vm_compute. split; [done|]. split; [|exact I]. done.
  - vm_compute in H. discriminate H.
  - exact H.
Defined.
