(* ===== verification/Pipe.v ===== *)
(** * Pipes (src/pipe.c)

    The ring buffer and [pipeclose], [pipewrite] and [piperead].  [nread] and
    [nwrite] are free-running 32-bit counters.  As for sleep locks, [get] and
    [put] read and write the pipe in the state; [a] is its address.  A call
    that sleeps goes on in [pipewrite_wake] or [piperead_wake], [pipewrite] with the
    bytes it has not stored yet.  [pipealloc] is in the file File. *)

From Stdlib Require Import ZArith Lia String.
From stdpp Require Import prelude list numbers strings option gmap relations.
From S2P Require Import Prelude Kernel Sched Monitor.

Definition PIPESIZE : Z := 512.

Record pipe : Type := mkPipe {
  pdata : list Z;
  nread : Z;
  nwrite : Z;
  readopen : Z;
  writeopen : Z }.

Definition set_readopen v p := mkPipe (pdata p) (nread p) (nwrite p) v (writeopen p).
Definition set_writeopen v p := mkPipe (pdata p) (nread p) (nwrite p) (readopen p) v.

(** [p->data[p->nwrite++ % PIPESIZE] = b] *)
Definition pipe_push (b : Z) (p : pipe) : pipe :=
  mkPipe (<[Z.to_nat (nwrite p mod PIPESIZE) := b]> (pdata p)) (nread p) (u32 (nwrite p + 1))
         (readopen p) (writeopen p).

(** [p->data[p->nread++ % PIPESIZE]] *)
Definition pipe_front (p : pipe) : Z := nth (Z.to_nat (nread p mod PIPESIZE)) (pdata p) 0.
Definition pipe_pop (p : pipe) : pipe :=
  mkPipe (pdata p) (u32 (nread p + 1)) (nwrite p) (readopen p) (writeopen p).

Definition pipe_full (p : pipe) : bool := nwrite p =? u32 (nread p + PIPESIZE).
Definition pipe_empty (p : pipe) : bool := nread p =? nwrite p.

(** The copying loop of [piperead]: the pipe after it and the bytes copied. *)
Fixpoint piperead_copy (n : nat) (p : pipe) : pipe * list Z :=
  match n with
  | O => (p, [])
  | S n =>
      if pipe_empty p then (p, [])
      else let '(p', bs) := piperead_copy n (pipe_pop p) in (p', pipe_front p :: bs)
  end.

Section ops.
Context {S : Type} `{!Has pstate S}.
Context (get : S -> pipe) (put : pipe -> S -> S) (a : Z).

(** The loop of [pipewrite] with the lock held, the bytes [bs] still to be stored. *)
Fixpoint pipewrite_loop (n : Z) (bs : list Z) : K S Z :=
  match bs with
  | [] =>
      wakeup (ChPipeRead a);;
      release (LPipe a);;
      mret n
  | b :: bs' =>
      p ← gets get;
      if pipe_full p then
        dead ← (if readopen p =? 0 then mret true
                else '(_, q) ← curproc; mret (negb (killed q =? 0)));
        if (dead : bool) then release (LPipe a);; mret (-1)
        else
          wakeup (ChPipeRead a);;
          sleep (ChPipeWrite a) (LPipe a)
      else
        modify (fun s => put (pipe_push b (get s)) s);;
        pipewrite_loop n bs'
  end.

Definition pipewrite (addr : list Z) (n : Z) : K S Z :=
  acquire (LPipe a);;
  pipewrite_loop n (take (Z.to_nat n) addr).

(** [pipewrite] from the return of [sleep]. *)
Definition pipewrite_wake (n : Z) (bs : list Z) : K S Z :=
  sleep_return (LPipe a);;
  pipewrite_loop n bs.

(** [piperead] with the lock held: the return value and the bytes stored at [addr]. *)
Definition piperead_loop (n : Z) : K S (Z * list Z) :=
  p ← gets get;
  if pipe_empty p && negb (writeopen p =? 0) then
    '(_, q) ← curproc;
    if negb (killed q =? 0) then release (LPipe a);; mret (-1, [])
    else sleep (ChPipeRead a) (LPipe a)
  else
    let '(p', bs) := piperead_copy (Z.to_nat n) p in
    modify (put p');;
    wakeup (ChPipeWrite a);;
    release (LPipe a);;
    mret (Z.of_nat (length bs), bs).

Definition piperead (n : Z) : K S (Z * list Z) :=
  acquire (LPipe a);;
  piperead_loop n.

(** [piperead] from the return of [sleep]. *)
Definition piperead_wake (n : Z) : K S (Z * list Z) :=
  sleep_return (LPipe a);;
  piperead_loop n.

(** [pipeclose]; [kfree_pipe] is the call of [kfree] on the pipe's page. *)
Definition pipeclose (kfree_pipe : K S unit) (writable : Z) : K S unit :=
  acquire (LPipe a);;
  (if negb (writable =? 0) then
     modify (fun s => put (set_writeopen 0 (get s)) s);;
     wakeup (ChPipeRead a)
   else
     modify (fun s => put (set_readopen 0 (get s)) s);;
     wakeup (ChPipeWrite a));;
  p ← gets get;
  if (readopen p =? 0) && (writeopen p =? 0) then
    release (LPipe a);;
    kfree_pipe
  else release (LPipe a).
End ops.

(** ** The ring buffer as a queue *)

Definition count (p : pipe) : Z := u32 (nwrite p - nread p).

Record pipe_ok (p : pipe) : Prop := {
  po_len : length (pdata p) = 512%nat;
  po_read : 0 <= nread p < 2 ^ 32;
  po_write : 0 <= nwrite p < 2 ^ 32;
  po_count : count p <= PIPESIZE }.

Definition slot (p : pipe) (k : Z) : Z := nth (Z.to_nat ((nread p + k) mod PIPESIZE)) (pdata p) 0.
Definition contents (p : pipe) : list Z := slot p <$> seqZ 0 (count p).

Lemma u32_diff a b : 0 <= a < 2 ^ 32 -> 0 <= b < 2 ^ 32 -> u32 (a - b) = if b <=? a then a - b else a - b + 2 ^ 32.
Proof.
  intros. unfold u32. destruct (Z.leb_spec b a); [apply Z.mod_small; lia|].
  symmetry. apply (Z.mod_unique_pos _ _ (-1)); lia.
Qed.

Lemma mod_wrap x : u32 x mod PIPESIZE = x mod PIPESIZE.
Proof. unfold u32, PIPESIZE. apply Z.mod_mod_divide. by exists 8388608. Qed.

Lemma pipe_full_count p : pipe_ok p -> pipe_full p = (count p =? PIPESIZE).
Proof.
  intros [_ Hr Hw _]. unfold pipe_full, count. rewrite u32_diff by done. unfold u32, PIPESIZE.
  pose proof (Z.div_mod (nread p + 512) (2 ^ 32) ltac:(lia)).
  pose proof (Z.mod_pos_bound (nread p + 512) (2 ^ 32) ltac:(lia)).
  destruct (Z.leb_spec (nread p) (nwrite p)), (Z.eqb_spec (nwrite p) ((nread p + 512) mod 2 ^ 32));
    symmetry; (apply Z.eqb_eq || apply Z.eqb_neq); lia.
Qed.

Lemma pipe_empty_count p : pipe_ok p -> pipe_empty p = (count p =? 0).
Proof.
  intros [_ Hr Hw _]. unfold pipe_empty, count. rewrite u32_diff by done.
  destruct (Z.leb_spec (nread p) (nwrite p)), (Z.eqb_spec (nread p) (nwrite p));
    symmetry; (apply Z.eqb_eq || apply Z.eqb_neq); lia.
Qed.

Lemma count_nonneg p : 0 <= count p.
Proof. apply u32_bound. Qed.

Lemma push_count p b : pipe_ok p -> pipe_full p = false -> count (pipe_push b p) = count p + 1.
Proof.
  intros Hp Hf. rewrite pipe_full_count in Hf by done. apply Z.eqb_neq in Hf.
  pose proof (po_count _ Hp). pose proof (count_nonneg p). unfold count, PIPESIZE in *. cbn [nwrite nread pipe_push].
  rewrite u32_sub_idemp_l. unfold u32 in *.
  replace (nwrite p + 1 - nread p) with ((nwrite p - nread p) + 1) by lia.
  rewrite <- Z.add_mod_idemp_l by lia. apply Z.mod_small. lia.
Qed.

Lemma push_ok p b : pipe_ok p -> pipe_full p = false -> pipe_ok (pipe_push b p).
Proof.
  intros Hp Hf. pose proof (push_count p b Hp Hf). rewrite pipe_full_count in Hf by done. apply Z.eqb_neq in Hf.
  destruct Hp as [Hl Hr Hw Hc]. split; cbn [pdata nread nwrite pipe_push]; [by len|done|apply u32_bound|lia].
Qed.

(** Storing a byte appends it. *)
Lemma push_contents p b :
  pipe_ok p -> pipe_full p = false -> contents (pipe_push b p) = contents p ++ [b].
Proof.
  intros Hp Hf. unfold contents. rewrite push_count by done.
  rewrite pipe_full_count in Hf by done. apply Z.eqb_neq in Hf.
  pose proof (po_count _ Hp). pose proof (count_nonneg p). pose proof (po_len _ Hp).
  rewrite seqZ_app by lia. rewrite fmap_app. rewrite Z.add_0_l.
  assert ((nread p + count p) mod PIPESIZE = nwrite p mod PIPESIZE) as Hslot.
  { unfold count. rewrite <- Z.add_mod_idemp_r, mod_wrap, Z.add_mod_idemp_r by (unfold PIPESIZE; lia). f_equal. lia. }
  pose proof (Z.mod_pos_bound (nwrite p) PIPESIZE ltac:(unfold PIPESIZE; lia)). unfold PIPESIZE in *.
  f_equal.
  - apply list_fmap_ext. intros i k Hk. apply lookup_seqZ in Hk as [-> Hk]. rewrite Z.add_0_l.
    unfold slot, pipe_push, PIPESIZE. cbn [nread pdata nwrite].
    rewrite !nth_lookup, list_lookup_insert_ne; [done|].
    pose proof (Z.mod_pos_bound (nread p + Z.of_nat i) 512 ltac:(lia)). intros Heq.
    assert (nwrite p mod 512 = (nread p + Z.of_nat i) mod 512) as E by lia. rewrite <- Hslot in E.
    pose proof (Z.div_mod (nread p + Z.of_nat i) 512 ltac:(lia)). pose proof (Z.div_mod (nread p + count p) 512 ltac:(lia)). lia.
  - rewrite seqZ_cons by lia. change (Z.pred 1) with 0. cbn [fmap list_fmap seqZ seq Z.to_nat].
    f_equal. unfold slot, pipe_push, PIPESIZE. cbn [nread pdata nwrite]. rewrite Hslot, nth_lookup.
    rewrite list_lookup_insert_eq by lia. done.
Qed.

Lemma pop_count p : pipe_ok p -> pipe_empty p = false -> count (pipe_pop p) = count p - 1.
Proof.
  intros Hp He. rewrite pipe_empty_count in He by done. apply Z.eqb_neq in He.
  pose proof (po_count _ Hp). pose proof (count_nonneg p). unfold count, PIPESIZE in *. cbn [nwrite nread pipe_pop].
  rewrite u32_sub_idemp_r. unfold u32 in *.
  replace (nwrite p - (nread p + 1)) with ((nwrite p - nread p) - 1) by lia.
  rewrite <- Zminus_mod_idemp_l. apply Z.mod_small. lia.
Qed.

Lemma pop_ok p : pipe_ok p -> pipe_empty p = false -> pipe_ok (pipe_pop p).
Proof.
  intros Hp He. pose proof (pop_count p Hp He).
  destruct Hp as [Hl Hr Hw Hc]. split; cbn [pdata nread nwrite pipe_pop]; [done|apply u32_bound|done|lia].
Qed.

(** Taking a byte removes the first. *)
Lemma pop_contents p :
  pipe_ok p -> pipe_empty p = false -> contents p = pipe_front p :: contents (pipe_pop p).
Proof.
  intros Hp He. unfold contents. rewrite pop_count by done.
  rewrite pipe_empty_count in He by done. apply Z.eqb_neq in He. pose proof (count_nonneg p).
  rewrite (seqZ_cons 0 (count p)) by lia. cbn [fmap list_fmap]. f_equal.
  - unfold slot, pipe_front. by rewrite Z.add_0_r.
  - rewrite <- (fmap_add_seqZ 1 0). replace (Z.pred (count p)) with (count p - 1) by lia.
    rewrite <- list_fmap_compose. apply list_fmap_ext. intros i k _. simpl. unfold slot, pipe_pop. cbn [nread pdata].
    f_equal. f_equal. rewrite <- (Z.add_mod_idemp_l (u32 _)), mod_wrap, Z.add_mod_idemp_l by (unfold PIPESIZE; lia).
    f_equal. lia.
Qed.

(** ** Pipes as monitors *)

Inductive pcall : Type :=
  | PWrite (n : Z) (bs : list Z)
  | PRead (n : Z)
  | PClose (writable : Z).

Section monitor.
Context (a : Z).

Definition pres : Type := Z * list Z.

(** One turn of [pipewrite]. *)
Fixpoint pw_act (q : proc) (n : Z) (bs : list Z) (p : pipe) : pipe * list chan * turn pcall pres :=
  match bs with
  | [] => (p, [ChPipeRead a], Finish (n, []))
  | b :: bs' =>
      if pipe_full p then
        if (readopen p =? 0) || negb (killed q =? 0) then (p, [], Finish (-1, []))
        else (p, [ChPipeRead a], Wait (ChPipeWrite a) (PWrite n bs))
      else pw_act q n bs' (pipe_push b p)
  end.

Definition p_act (q : proc) (c : pcall) (p : pipe) : pipe * list chan * turn pcall pres :=
  match c with
  | PWrite n bs => pw_act q n bs p
  | PRead n =>
      if pipe_empty p && negb (writeopen p =? 0) then
        if negb (killed q =? 0) then (p, [], Finish (-1, []))
        else (p, [], Wait (ChPipeRead a) (PRead n))
      else
        let '(p', bs) := piperead_copy (Z.to_nat n) p in
        (p', [ChPipeWrite a], Finish (Z.of_nat (length bs), bs))
  | PClose w =>
      if negb (w =? 0) then (set_writeopen 0 p, [ChPipeRead a], Finish (0, []))
      else (set_readopen 0 p, [ChPipeWrite a], Finish (0, []))
  end.

Definition p_put (p : pipe) (s : mon pipe) : mon pipe := mkMon p (mtable s).

(** The page of a closed pipe goes back to the allocator. *)
Definition p_call (c : pcall) : K (mon pipe) pres :=
  match c with
  | PWrite n bs => r ← pipewrite mdata p_put a bs n; mret (r, [])
  | PRead n => piperead mdata p_put a n
  | PClose w => pipeclose mdata p_put a (mret ()) w;; mret (0, [])
  end.

Definition p_wake (c : pcall) : K (mon pipe) pres :=
  match c with
  | PWrite n bs => r ← pipewrite_wake mdata p_put a n bs; mret (r, [])
  | PRead n => piperead_wake mdata p_put a n
  | PClose w => panic "not asleep"
  end.

(** A write that fills the pipe on behalf of a process that is killed or whose
    reader is gone ends without waking anyone. *)
Definition p_tok (q : proc) (c : pcall) (p : pipe) : Prop :=
  match c with
  | PWrite n bs =>
      pipe_full p = true \/ Z.of_nat (length bs) <= PIPESIZE - count p \/ (readopen p <> 0 /\ killed q = 0)
  | _ => True
  end.

Definition p_cok (c : pcall) : Prop :=
  match c with PWrite n bs => (length bs <= Z.to_nat n)%nat | _ => True end.
Definition p_wok (c : pcall) : Prop := match c with PClose _ => False | _ => True end.

Lemma pipewrite_loop_run n bs d ps i q :
  cpu_proc ps = Some i -> procs ps !! i = Some q ->
  (r ← pipewrite_loop mdata p_put a n bs; mret (r, [])) [LPipe a] (mkMon d ps) =
  turn_outcome i ps (pw_act q n bs d).
Proof.
  intros Hi Hq. revert d. induction bs as [|b bs IH]; intros d; cbn [pipewrite_loop pw_act].
  { ksteps. done. }
  rewrite bind_unfold. ksteps. cbn [mdata]. destruct (pipe_full d).
  - rewrite bind_unfold. destruct (readopen d =? 0); cbn [orb].
    + by ksteps.
    + ksteps. rewrite (curproc_run _ _ i q) by done. ksteps. destruct (killed q =? 0); cbn [negb]; ksteps; [|done].
      rewrite (sleep_run _ _ _ i (wake_one (ChPipeRead a) q)); [done..|].
      cbn. by rewrite list_lookup_fmap, Hq.
  - rewrite bind_unfold. ksteps. apply IH.
Qed.

Lemma piperead_loop_run n d ps i q :
  cpu_proc ps = Some i -> procs ps !! i = Some q ->
  piperead_loop mdata p_put a n [LPipe a] (mkMon d ps) = turn_outcome i ps (p_act q (PRead n) d).
Proof.
  intros Hi Hq. unfold piperead_loop. ksteps. cbn [mdata p_act]. destruct (pipe_empty d && negb (writeopen d =? 0)).
  - ksteps. rewrite (curproc_run _ _ i q) by done. destruct (killed q =? 0); cbn [negb]; [|by ksteps].
    by rewrite (sleep_run _ _ _ i q).
  - destruct (piperead_copy (Z.to_nat n) d) as [d' bs]. by ksteps.
Qed.

Lemma p_call_run c d ps i q :
  p_cok c -> cpu_proc ps = Some i -> procs ps !! i = Some q ->
  p_call c [] (mkMon d ps) = turn_outcome i ps (p_act q c d).
Proof.
  intros Hc Hi Hq. destruct c as [n bs|n|w]; cbn [p_call].
  - unfold pipewrite. rewrite bind_unfold, bind_unfold, acquire_free by set_solver.
    rewrite firstn_all2 by done. by apply (pipewrite_loop_run n bs d ps i q).
  - unfold piperead. rewrite bind_unfold, acquire_free by set_solver. by apply piperead_loop_run.
  - unfold pipeclose. ksteps. cbn [p_act]. destruct (w =? 0); cbn [negb]; ksteps;
      match goal with |- context [if ?b then _ else _] => destruct b end; by ksteps.
Qed.

Lemma p_wake_run c d ps i q :
  p_wok c -> cpu_proc ps = Some i -> procs ps !! i = Some q ->
  p_wake c [LPtable] (mkMon d ps) = turn_outcome i (upd i (set_chan None) ps) (p_act q c d).
Proof.
  intros Hc Hi Hq.
  assert (procs (upd i (set_chan None) ps) !! i = Some (set_chan None q)) as Hq'
    by (by rewrite upd_lookup, decide_True, Hq by done).
  assert (forall bs n d, pw_act (set_chan None q) n bs d = pw_act q n bs d) as Hview
    by (induction bs as [|b bs IH]; intros; cbn; [done|by rewrite IH]).
  destruct c as [n bs|n|w]; cbn [p_wake]; [| |done].
  - unfold pipewrite_wake. rewrite bind_unfold, bind_unfold, (sleep_return_run _ _ i q) by done.
    change (put_part _ _) with (mkMon d (upd i (set_chan None) ps)). cbn [p_act]. rewrite <- Hview.
    by apply (pipewrite_loop_run n bs d (upd i (set_chan None) ps) i (set_chan None q)).
  - unfold piperead_wake. rewrite bind_unfold, (sleep_return_run _ _ i q) by done.
    change (put_part _ _) with (mkMon d (upd i (set_chan None) ps)).
    by apply (piperead_loop_run n d (upd i (set_chan None) ps) i (set_chan None q)).
Qed.

(** What a turn of [pipewrite] does: it stores the first [k] bytes, and either
    finishes, or gives up, or waits for room for the rest. *)
Record pw_turn (q : proc) (n : Z) (bs : list Z) (p p' : pipe) (chs : list chan) (t : turn pcall pres) (k : nat) : Prop := {
  pw_k : (k <= length bs)%nat;
  pw_ok : pipe_ok p';
  pw_contents : contents p' = contents p ++ take k bs;
  pw_read : nread p' = nread p /\ readopen p' = readopen p /\ writeopen p' = writeopen p;
  pw_write : nwrite p' = u32 (nwrite p + Z.of_nat k);
  pw_count : count p' = count p + Z.of_nat k;
  pw_end : match t with
    | Finish r => (k = length bs /\ r = (n, []) /\ chs = [ChPipeRead a]) \/
        (r = (-1, []) /\ chs = [] /\ pipe_full p' = true /\ (k < length bs)%nat /\ (readopen p = 0 \/ killed q <> 0))
    | Wait ch c => ch = ChPipeWrite a /\ c = PWrite n (drop k bs) /\ chs = [ChPipeRead a] /\
        pipe_full p' = true /\ (k < length bs)%nat /\ readopen p <> 0 /\ killed q = 0
    end }.

Lemma pw_act_turn q n bs p p' chs t :
  pipe_ok p -> pw_act q n bs p = (p', chs, t) -> exists k, pw_turn q n bs p p' chs t k.
Proof.
  revert p. induction bs as [|b bs IH]; intros p Hp Hact; cbn [pw_act] in Hact.
  { injection Hact as <- <- <-. exists 0%nat. split; try done.
    - by rewrite app_nil_r.
    - rewrite u32_id by (pose proof (po_write _ Hp); lia). lia.
    - lia.
    - by left. }
  destruct (pipe_full p) eqn:Hf.
  - exists 0%nat.
    assert (nwrite p = u32 (nwrite p + Z.of_nat 0)) as Hw
      by (rewrite u32_id by (pose proof (po_write _ Hp); lia); lia).
    destruct (Z.eqb_spec (readopen p) 0), (Z.eqb_spec (killed q) 0); cbn [orb negb] in Hact;
      injection Hact as <- <- <-; split; rewrite ?app_nil_r; try done; cbn; try lia;
      try (right; split_and!; try done; lia || tauto). split_and!; try done; lia.
  - destruct (IH (pipe_push b p) (push_ok p b Hp Hf) Hact) as [k [H1 H2 H3 H4 H5 H6 H7]].
    exists (S k). split; try done.
    + cbn. lia.
    + rewrite H3, push_contents, <- app_assoc by done. done.
    + rewrite H5. cbn [nwrite pipe_push]. rewrite u32_add_idemp_l. f_equal. lia.
    + rewrite H6, push_count by done. lia.
    + destruct t as [r|ch c]; cbn [readopen pipe_push length drop] in *; naive_solver lia.
Qed.

Lemma piperead_copy_spec n p p' bs :
  pipe_ok p -> piperead_copy n p = (p', bs) ->
  pipe_ok p' /\ contents p = bs ++ contents p' /\ readopen p' = readopen p /\ writeopen p' = writeopen p /\
  nwrite p' = nwrite p /\ (pipe_empty p = true -> p' = p).
Proof.
  revert p p' bs. induction n as [|n IH]; intros p p' bs Hp Hr; cbn [piperead_copy] in Hr.
  { by simplify_eq. }
  destruct (pipe_empty p) eqn:He; [by simplify_eq|].
  destruct (piperead_copy n (pipe_pop p)) as [p1 bs1] eqn:Hr1. simplify_eq.
  destruct (IH _ _ _ (pop_ok p Hp He) Hr1) as (H1 & H2 & H3 & H4 & H5 & _).
  split_and!; try done. rewrite pop_contents by done. by rewrite H2.
Qed.

Lemma pw_act_view q q' n bs p : same_view q q' -> pw_act q n bs p = pw_act q' n bs p.
Proof.
  intros [Hk _]. revert p. induction bs as [|b bs IH]; intros p; cbn [pw_act]; [done|].
  by rewrite IH, Hk.
Qed.

Lemma full_not_empty p : pipe_ok p -> pipe_full p = true -> pipe_empty p = false.
Proof.
  intros Hp. rewrite pipe_full_count, pipe_empty_count by done. unfold PIPESIZE.
  intros ?%Z.eqb_eq. apply Z.eqb_neq. lia.
Qed.

Lemma set_open_ok p v : pipe_ok p -> pipe_ok (set_readopen v p) /\ pipe_ok (set_writeopen v p).
Proof. intros [? ? ? ?]. by split. Qed.

Lemma p_act_ok q c p p' chs t : pipe_ok p -> p_act q c p = (p', chs, t) -> pipe_ok p'.
Proof.
  intros Hp Hact. destruct c as [n bs|n|w]; cbn [p_act] in Hact.
  - destruct (pw_act_turn _ _ _ _ _ _ _ Hp Hact) as [k Hk]. apply Hk.
  - destruct (_ && _); [destruct (negb _); by simplify_eq|].
    destruct (piperead_copy _ _) as [p1 bs] eqn:Hr. simplify_eq. by eapply piperead_copy_spec.
  - destruct (negb _); simplify_eq; by apply set_open_ok.
Qed.

Lemma p_act_cok q c p p' chs ch c' :
  p_cok c -> pipe_ok p -> p_act q c p = (p', chs, Wait ch c') -> p_cok c' /\ p_wok c'.
Proof.
  intros Hc Hp Hact. destruct c as [n bs|n|w]; cbn [p_act] in Hact.
  - destruct (pw_act_turn _ _ _ _ _ _ _ Hp Hact) as [k Hk]. pose proof (pw_end _ _ _ _ _ _ _ _ Hk) as (_ & -> & _).
    cbn in *. split; [|done]. rewrite length_drop. lia.
  - destruct (_ && _); [destruct (negb _); by simplify_eq|]. by destruct (piperead_copy _ _).
  - by destruct (negb _).
Qed.

(** A call that sleeps would sleep again. *)
Lemma p_act_waits q c p p' chs ch c' :
  pipe_ok p -> p_act q c p = (p', chs, Wait ch c') -> exists chs', p_act q c' p' = (p', chs', Wait ch c').
Proof.
  intros Hp Hact. destruct c as [n bs|n|w]; cbn [p_act] in Hact.
  - destruct (pw_act_turn _ _ _ _ _ _ _ Hp Hact) as [k Hk].
    pose proof (pw_end _ _ _ _ _ _ _ _ Hk) as (-> & -> & -> & Hf & Hlt & Hro & Hkill).
    pose proof (pw_read _ _ _ _ _ _ _ _ Hk) as (_ & Hro' & _). cbn [p_act].
    destruct (drop k bs) as [|b bs'] eqn:Hd; [apply (f_equal length) in Hd; rewrite length_drop in Hd; cbn in Hd; lia|].
    cbn [pw_act]. rewrite Hf, Hro', Hkill, (proj2 (Z.eqb_neq _ _)) by done. cbn. eauto.
  - destruct (_ && _) eqn:E; [|by destruct (piperead_copy _ _)]. destruct (negb (killed q =? 0)) eqn:E'; [done|].
    simplify_eq. cbn [p_act]. rewrite E, E'. eauto.
  - by destruct (negb _).
Qed.

(** A turn that ends what a sleeper waits for wakes it. *)
Lemma reader_woken p q c1 p1 chs1 t1 :
  pipe_ok p -> pipe_empty p = true -> writeopen p <> 0 -> p_tok q c1 p ->
  p_act q c1 p = (p1, chs1, t1) -> ChPipeRead a ∉ chs1 -> pipe_empty p1 = true /\ writeopen p1 <> 0.
Proof.
  intros Hp He Hw Htok Hact Hch. destruct c1 as [n1 bs|n1|w]; cbn [p_act p_tok] in *.
  - destruct (pw_act_turn _ _ _ _ _ _ _ Hp Hact) as [k Hk]. pose proof (pw_end _ _ _ _ _ _ _ _ Hk) as Hend.
    destruct t1 as [r|ch c]; [|exfalso; destruct Hend as (_ & _ & -> & _); apply Hch; by left].
    destruct Hend as [(_ & _ & ->)|(_ & _ & Hf & Hlt & Hdead)]; [exfalso; apply Hch; by left|].
    pose proof (pw_count _ _ _ _ _ _ _ _ Hk) as Hcnt. pose proof (pw_ok _ _ _ _ _ _ _ _ Hk) as Hok.
    rewrite pipe_full_count in Hf, Htok by done. rewrite pipe_empty_count in He by done.
    apply Z.eqb_eq in He, Hf. rewrite Z.eqb_eq in Htok. unfold PIPESIZE in *. lia.
  - rewrite He in Hact. rewrite (proj2 (Z.eqb_neq _ _) Hw) in Hact. cbn in Hact.
    destruct (negb _); by simplify_eq.
  - destruct (negb _); simplify_eq; [exfalso; apply Hch; by left|]. done.
Qed.

Lemma writer_woken p q c1 p1 chs1 t1 :
  pipe_ok p -> pipe_full p = true -> readopen p <> 0 ->
  p_act q c1 p = (p1, chs1, t1) -> ChPipeWrite a ∉ chs1 -> pipe_full p1 = true /\ readopen p1 <> 0.
Proof.
  intros Hp Hf Hr Hact Hch. destruct c1 as [n1 bs|n1|w]; cbn [p_act] in *.
  - destruct bs as [|b bs]; cbn [pw_act] in Hact; [by simplify_eq|]. rewrite Hf in Hact.
    destruct (_ || _); by simplify_eq.
  - rewrite full_not_empty in Hact by done. cbn in Hact. destruct (piperead_copy _ _). simplify_eq. set_solver.
  - destruct (negb _); simplify_eq; [done|]. set_solver.
Qed.

Lemma p_act_wakes q c p chs ch q1 c1 p1 chs1 t1 :
  pipe_ok p -> p_tok q1 c1 p -> p_act q c p = (p, chs, Wait ch c) -> p_act q1 c1 p = (p1, chs1, t1) -> ch ∉ chs1 ->
  exists chs', p_act q c p1 = (p1, chs', Wait ch c).
Proof.
  intros Hp Htok Hact Hact1 Hch. destruct c as [n bs|n|w]; cbn [p_act] in Hact.
  - destruct (pw_act_turn _ _ _ _ _ _ _ Hp Hact) as [k Hk].
    pose proof (pw_end _ _ _ _ _ _ _ _ Hk) as (-> & Hc & -> & Hf & Hlt & Hro & Hkill).
    destruct (writer_woken p q1 c1 p1 chs1 t1) as [Hf1 Hr1]; try done.
    destruct bs as [|b bs]; [cbn in Hlt; lia|]. cbn [p_act pw_act].
    rewrite Hf1, Hkill, (proj2 (Z.eqb_neq _ _)) by done. cbn. eauto.
  - destruct (pipe_empty p) eqn:He; cbn [andb] in Hact; [|by destruct (piperead_copy _ _)].
    destruct (Z.eqb_spec (writeopen p) 0); cbn [negb] in Hact; [by destruct (piperead_copy _ _)|].
    destruct (Z.eqb_spec (killed q) 0) as [E|]; cbn [negb] in Hact; [|done]. simplify_eq.
    destruct (reader_woken p q1 c1 p1 chs1 t1) as [He1 Hw1]; try done.
    cbn [p_act]. rewrite He1, E, (proj2 (Z.eqb_neq _ _)) by done. cbn. eauto.
  - by destruct (negb _).
Qed.

#[export, refine] Instance pipe_monitor : Monitor pipe pcall pres := {|
  act := p_act; tok := p_tok; mon_call := p_call; mon_wake := p_wake;
  dok := pipe_ok; cok := p_cok; wok := p_wok |}.
Proof.
  - intros. by apply p_call_run.
  - intros. by apply p_wake_run.
  - intros q q' c p Hv. destruct c as [n bs|n|w]; cbn [p_act p_tok].
    + rewrite (pw_act_view q q') by done. destruct Hv as [-> _]. done.
    + destruct Hv as [-> _]. done.
    + done.
  - intros. by eapply p_act_ok.
  - intros. by eapply p_act_cok.
  - intros. by eapply p_act_waits.
  - intros. by eapply p_act_wakes.
Defined.

(** ** The byte stream *)

(** What a turn of a writer hands over, as the caller sees it: all the bytes if
    the call returns its count, those that the call does not take up again if it
    sleeps, and those that it stored before it gave up if it fails. *)
Definition ev_written (e : mevent pipe pcall pres) : list Z :=
  match ev_call e, ev_turn e with
  | PWrite n bs, Finish (r, _) => if r =? n then bs else take (Z.to_nat (u32 (nwrite (ev_after e) - nwrite (ev_before e)))) bs
  | PWrite _ bs, Wait _ (PWrite _ bs') => take (length bs - length bs') bs
  | _, _ => []
  end.

(** What a reader gets. *)
Definition ev_read (e : mevent pipe pcall pres) : list Z :=
  match ev_call e, ev_turn e with
  | PRead _, Finish (_, bs) => bs
  | _, _ => []
  end.
Definition written (tr : list (mevent pipe pcall pres)) : list Z := concat (ev_written <$> tr).
Definition taken (tr : list (mevent pipe pcall pres)) : list Z := concat (ev_read <$> tr).

(** What a turn tells its caller: a write its whole count or -1, a read the number
    of bytes it stored, at most what was asked for, or -1; a call that sleeps
    goes on with what it has not done yet. *)
Definition ev_ok (e : mevent pipe pcall pres) : Prop :=
  match ev_call e, ev_turn e with
  | PWrite n _, Finish (r, _) => r = n \/ r = -1
  | PWrite n bs, Wait _ c => exists k, (k < length bs)%nat /\ c = PWrite n (drop k bs)
  | PRead n, Finish (r, bs) => (r = Z.of_nat (length bs) /\ (length bs <= Z.to_nat n)%nat) \/ (r = -1 /\ bs = [])
  | PRead n, Wait _ c => c = PRead n
  | PClose _, Finish _ => True
  | PClose _, Wait _ _ => False
  end.

Definition stream_ok (p : pipe) (tr : list (mevent pipe pcall pres)) : Prop :=
  written tr = taken tr ++ contents p /\ Forall ev_ok tr.

Lemma piperead_copy_length n p : (length (piperead_copy n p).2 <= n)%nat.
Proof.
  revert p. induction n as [|n IH]; intros p; cbn [piperead_copy]; [done|]. destruct (pipe_empty p); [cbn; lia|].
  specialize (IH (pipe_pop p)). destruct (piperead_copy _ _). cbn in *. lia.
Qed.

Lemma p_act_ev i q c p p' chs t : pipe_ok p -> p_act q c p = (p', chs, t) -> ev_ok (mkMevent i c p p' t).
Proof.
  intros Hp Hact. unfold ev_ok. cbn [ev_call ev_turn]. destruct c as [n bs|n|w]; cbn [p_act] in Hact.
  - destruct (pw_act_turn _ _ _ _ _ _ _ Hp Hact) as [k Hk]. pose proof (pw_end _ _ _ _ _ _ _ _ Hk) as Hend.
    destruct t as [r|ch c]; [destruct Hend as [(_ & -> & _)|(-> & _)]; tauto|]. destruct Hend as (_ & -> & _ & _ & Hlt & _). by exists k.
  - destruct (_ && _); [destruct (negb _); by simplify_eq; try right|].
    pose proof (piperead_copy_length (Z.to_nat n) p). destruct (piperead_copy _ _) as [p1 bs]. simplify_eq. by left.
  - destruct (negb _); by simplify_eq.
Qed.

(** What a turn of a writer hands over is what it stored. *)
Lemma ev_written_turn i q n bs p p' chs t k : p_cok (PWrite n bs) -> pipe_ok p -> pw_turn q n bs p p' chs t k -> ev_written (mkMevent i (PWrite n bs) p p' t) = take k bs.
Proof.
  intros Hc Hp Hk. pose proof (pw_end _ _ _ _ _ _ _ _ Hk) as Hend. unfold ev_written. cbn [ev_call ev_turn ev_before ev_after].
  destruct t as [r|ch c].
  - destruct Hend as [(-> & -> & _)|(-> & _ & _ & Hlt & _)].
    { by rewrite Z.eqb_refl, firstn_all. }
    rewrite (proj2 (Z.eqb_neq _ _)) by (cbn in Hc; lia). rewrite (pw_write _ _ _ _ _ _ _ _ Hk).
    pose proof (pw_count _ _ _ _ _ _ _ _ Hk). pose proof (po_count _ (pw_ok _ _ _ _ _ _ _ _ Hk)). pose proof (count_nonneg p).
    rewrite u32_sub_idemp_l, u32_id by (unfold PIPESIZE in *; lia). f_equal. lia.
  - destruct Hend as (_ & -> & _). rewrite length_drop. f_equal. pose proof (pw_k _ _ _ _ _ _ _ _ Hk). lia.
Qed.

Lemma stream_act i q c p tr p' chs t :
  p_cok c -> pipe_ok p -> stream_ok p tr -> p_act q c p = (p', chs, t) -> stream_ok p' (tr ++ [mkMevent i c p p' t]).
Proof.
  intros Hc Hp [HJ HF] Hact. split; [|apply Forall_app; split; [done|]; apply Forall_singleton; by eapply p_act_ev].
  unfold written, taken in *. rewrite !fmap_app, !concat_app, HJ. cbn. rewrite !app_nil_r.
  destruct c as [n bs|n|w]; cbn [p_act] in Hact.
  - destruct (pw_act_turn _ _ _ _ _ _ _ Hp Hact) as [k Hk]. rewrite (ev_written_turn i q n bs p p' chs t k Hc Hp Hk).
    cbn [ev_read ev_call]. by rewrite app_nil_r, (pw_contents _ _ _ _ _ _ _ _ Hk), app_assoc.
  - change (ev_written _) with (@nil Z). unfold ev_read. cbn [ev_call ev_turn].
    rewrite app_nil_r. destruct (_ && _); [destruct (negb _); simplify_eq; by rewrite app_nil_r|].
    destruct (piperead_copy _ _) as [p1 bs] eqn:Hr. simplify_eq.
    destruct (piperead_copy_spec _ _ _ _ Hp Hr) as (_ & -> & _). by rewrite app_assoc.
  - change (ev_written _) with (@nil Z). change (ev_read _) with (@nil Z). rewrite !app_nil_r. destruct (negb _); by simplify_eq.
Qed.
End monitor.

(** A pipe as [pipealloc] leaves it, its counters at any common value. *)
Definition new_pipe (data : list Z) (c : Z) : pipe := mkPipe data c c 1 1.

Lemma new_pipe_ok data c : length data = 512%nat -> 0 <= c < 2 ^ 32 -> pipe_ok (new_pipe data c) /\ contents (new_pipe data c) = [].
Proof.
  intros. unfold new_pipe. assert (count (mkPipe data c c 1 1) = 0) as Hc by (unfold count; cbn; by rewrite Z.sub_diag).
  split; [split; cbn [pdata nread nwrite]; try done; rewrite Hc; done|]. unfold contents. by rewrite Hc.
Qed.

(** C19: a pipe is a FIFO byte stream.  For every interleaving of reads, writes
    and closes, by killed processes and after the readers are gone as well, the
    bytes read so far followed by the bytes in the pipe are the bytes handed
    over by the writers so far, in order, also when the 32-bit counters wrap
    around: a write that returns its count has handed over all its bytes, one
    that returns -1 a prefix.  The pipe holds at most 512 bytes, and every call
    returns what its caller may rely on. *)
Theorem pipe_fifo a data c ps0 s :
  length data = 512%nat -> 0 <= c < 2 ^ 32 ->
  @mreach_any _ _ _ (pipe_monitor a) (new_pipe data c) ps0 s ->
  written (mtrace s) = taken (mtrace s) ++ contents (mdata (mstate s)) /\
  (length (contents (mdata (mstate s))) <= 512)%nat /\ Forall ev_ok (mtrace s).
Proof.
  intros Hl Hc Hr. destruct (new_pipe_ok data c Hl Hc) as [Hok Hcont].
  assert (@tinv _ _ _ (pipe_monitor a) stream_ok s) as (Hd & [HJ HF] & _).
  { eapply mreach_any_inv; [| | |exact Hok| |exact Hr].
    - intros c1 d ps i p Hc1 _. by apply p_call_run.
    - intros c1 d ps i p Hc1 _. by apply p_wake_run.
    - intros i p c1 d tr d' chs t Hc1 Hd HJ Ha. split; [exact (p_act_ok a p c1 d d' chs t Hd Ha)|exact (stream_act a i p c1 d tr d' chs t Hc1 Hd HJ Ha)].
    - split; [|by apply Forall_nil]. by rewrite Hcont. }
  split; [exact HJ|]. split; [|exact HF]. pose proof (po_count _ Hd). unfold contents. len. unfold PIPESIZE in *. lia.
Qed.

(** C28: nobody sleeps on a pipe that is ready.  A process asleep in [piperead]
    sleeps on an empty pipe that may still be written, one asleep in [pipewrite]
    on a full pipe that may still be read, provided no write by a killed
    process, or to a pipe without reader, stops half way. *)
Theorem pipe_no_lost_wakeup a data c0 ps0 s i c q :
  length data = 512%nat -> 0 <= c0 < 2 ^ 32 ->
  @mreach _ _ _ (pipe_monitor a) (new_pipe data c0) ps0 s ->
  mwaiting s !! i = Some c -> procs (mtable (mstate s)) !! i = Some q -> state q = SLEEPING ->
  match c with
  | PRead _ => pchan q = Some (ChPipeRead a) /\ contents (mdata (mstate s)) = [] /\ writeopen (mdata (mstate s)) <> 0
  | PWrite _ _ => pchan q = Some (ChPipeWrite a) /\ length (contents (mdata (mstate s))) = 512%nat /\
      readopen (mdata (mstate s)) <> 0
  | PClose _ => False
  end.
Proof.
  intros Hl Hc Hr Hi Hq Hs. destruct (new_pipe_ok data c0 Hl Hc) as [Hok _].
  assert (@minv _ _ _ (pipe_monitor a) (fun _ _ => True) s) as Hinv by (by eapply mreach_inv).
  pose proof (mi_data _ _ Hinv) as Hd. cbn in Hd.
  destruct (@monitor_no_lost_wakeup _ _ _ (pipe_monitor a) _ _ _ _ _ _ Hok Hr Hi Hq Hs) as (ch & Hch & chs & Hact).
  cbn [act pipe_monitor] in Hact. destruct c as [n bs|n|w]; cbn [p_act] in Hact.
  - destruct (pw_act_turn _ _ _ _ _ _ _ _ Hd Hact) as [k Hk].
    pose proof (pw_end _ _ _ _ _ _ _ _ _ Hk) as (-> & _ & _ & Hf & _ & Hro & _).
    split_and!; try done. rewrite pipe_full_count in Hf by done. apply Z.eqb_eq in Hf.
    unfold contents. len. rewrite Hf. done.
  - destruct (pipe_empty _) eqn:He; cbn [andb] in Hact; [|by destruct (piperead_copy _ _)].
    destruct (Z.eqb_spec (writeopen (mdata (mstate s))) 0); cbn [negb] in Hact; [by destruct (piperead_copy _ _)|].
    destruct (negb _); [done|]. injection Hact as _ ->. split_and!; try done.
    rewrite pipe_empty_count in He by done. apply Z.eqb_eq in He. unfold contents. by rewrite He.
  - by destruct (negb _).
Qed.

(** C39: a killed writer can leave a reader asleep beside a full pipe.  When a
    process that has been killed writes more than 512 bytes to an empty pipe,
    [pipewrite] fills the pipe and returns -1 without any wakeup: the process
    table is unchanged, so a reader asleep on the pipe stays asleep although
    512 bytes are there to read. *)
Theorem pipe_killed_writer_no_wakeup a p n bs ps i q j r :
  pipe_ok p -> contents p = [] -> 512 < Z.of_nat (length bs) -> Z.of_nat (length bs) = n ->
  cpu_proc ps = Some i -> procs ps !! i = Some q -> killed q <> 0 ->
  procs ps !! j = Some r -> state r = SLEEPING -> pchan r = Some (ChPipeRead a) ->
  exists s', p_call a (PWrite n bs) [] (mkMon p ps) = Ret (-1, []) [] s' /\
    contents (mdata s') = take 512 bs /\ length (contents (mdata s')) = 512%nat /\
    exists r', procs (mtable s') !! j = Some r' /\ state r' = SLEEPING /\ pchan r' = Some (ChPipeRead a).
Proof.
  intros Hp Hc Hlen <- Hi Hq Hk Hj Hr Hch.
  rewrite (p_call_run a _ _ _ i q) by (done || (cbn; lia)). cbn [p_act].
  destruct (pw_act a q _ bs p) as [[p' chs] t] eqn:Hact.
  destruct (pw_act_turn _ _ _ _ _ _ _ _ Hp Hact) as [k Hturn]. exists (mkMon p' ps).
  assert (count p = 0) as Hc0.
  { apply (f_equal length) in Hc. unfold contents in Hc. pose proof (count_nonneg p). len. }
  pose proof (pw_end _ _ _ _ _ _ _ _ _ Hturn) as Hend. pose proof (pw_count _ _ _ _ _ _ _ _ _ Hturn) as Hcnt.
  pose proof (pw_ok _ _ _ _ _ _ _ _ _ Hturn) as Hok. pose proof (po_count _ Hok).
  pose proof (pw_contents _ _ _ _ _ _ _ _ _ Hturn) as Hcont. rewrite Hc in Hcont. cbn in Hcont.
  destruct t as [r0|ch c]; [|tauto]. unfold PIPESIZE in *.
  destruct Hend as [(-> & _)|(-> & -> & Hf & _)]; [lia|]. rewrite pipe_full_count in Hf by done.
  apply Z.eqb_eq in Hf. unfold PIPESIZE in *. split; [done|].
  replace k with 512%nat in * by lia. cbn [mdata mtable]. rewrite Hcont. split; [done|]. split; [len|by exists r].
Qed.

(** ** A concrete run: process 0 writes, process 1 reads *)

Definition pp_procs : pstate :=
  set_procs (set_state RUNNING proc0 :: set_state RUNNING proc0 ::
             set_killed 1 (set_state RUNNING proc0) :: replicate 61 proc0) pstate0.
Definition pp_start : msys pipe pcall pres := mkMsys (mkMon (new_pipe (replicate 512 0) 4294967295) pp_procs) ∅ [].
Definition pp_mon : Monitor pipe pcall pres := pipe_monitor 0x8dfff000.
Definition pp_demo : msys pipe pcall pres :=
  @do_call _ _ _ pp_mon 1 (PRead 2) (@do_call _ _ _ pp_mon 2 (PWrite 600 (replicate 600 7)) (@do_call _ _ _ pp_mon 0 (PWrite 3 [104; 105; 10]) pp_start)).

(** Process 2 is killed: its write fills the pipe and fails. *)
Lemma pipe_fifo_witness :
  written (mtrace pp_demo) = [104; 105; 10] ++ replicate 509 7 /\ taken (mtrace pp_demo) = [104; 105] /\
  written (mtrace pp_demo) = taken (mtrace pp_demo) ++ contents (mdata (mstate pp_demo)).
Proof.
  split; [vm_compute; reflexivity|]. split; [vm_compute; reflexivity|].
  apply (pipe_fifo 0x8dfff000 (replicate 512 0) 4294967295 pp_procs pp_demo); [reflexivity|lia|].
  unfold pp_demo, mreach_any. etrans; [etrans|]; eapply (@do_call_step _ _ _ pp_mon); try exact I; vm_compute; (reflexivity || lia).
Defined.

Definition pp_asleep : msys pipe pcall pres := @do_call _ _ _ pp_mon 1 (PRead 2) pp_start.

Lemma pipe_no_lost_wakeup_witness :
  exists q, procs (mtable (mstate pp_asleep)) !! 1%nat = Some q /\ state q = SLEEPING /\
    pchan q = Some (ChPipeRead 0x8dfff000) /\ contents (mdata (mstate pp_asleep)) = [] /\
    writeopen (mdata (mstate pp_asleep)) <> 0.
Proof.
  eexists. split; [vm_compute; reflexivity|]. split; [reflexivity|].
  eapply (pipe_no_lost_wakeup 0x8dfff000 (replicate 512 0) 4294967295 pp_procs pp_asleep 1 (PRead 2)); [reflexivity|lia| | | |].
  - unfold pp_asleep, mreach. eapply (@do_call_step _ _ _ pp_mon); done || (vm_compute; reflexivity).
  - vm_compute. reflexivity.
  - vm_compute. reflexivity.
  - reflexivity.
Defined.

Lemma pipe_killed_writer_no_wakeup_witness :
  exists s', p_call 0x8dfff000 (PWrite 513 (replicate 513 7)) []
      (mkMon (mdata (mstate pp_asleep)) (running_on 2 (mtable (mstate pp_asleep)))) = Ret (-1, []) [] s' /\
    length (contents (mdata s')) = 512%nat.
Proof.
  edestruct (pipe_killed_writer_no_wakeup 0x8dfff000 (mdata (mstate pp_asleep)) 513 (replicate 513 7)
    (running_on 2 (mtable (mstate pp_asleep))) 2) as (s' & H1 & _ & H2 & _).
  - apply new_pipe_ok; [reflexivity|lia].
  - apply new_pipe_ok; [reflexivity|lia].
  - by rewrite length_replicate.
  - by rewrite length_replicate.
  - reflexivity.
  - vm_compute. reflexivity.
  - done.
  - exact (eq_refl : procs (running_on 2 (mtable (mstate pp_asleep))) !! 1%nat = Some _).
  - reflexivity.
  - reflexivity.
  - exists s'. by split.
Defined.
