(* ===== verification/Bio.v ===== *)
(** * The buffer cache (src/buf.h, src/bio.c) and the memory disk (src/memide.c)

    Buffers are numbered; the ring of buffers in order of use is kept, as in
    the source, in [prev] and [next] pointers, with the index [NBUF] for
    [bcache.head].  The disk is a map from block numbers to blocks of 512
    bytes, and [writes] records the block writes the driver has made, in order,
    for the study of crashes. *)

From Stdlib Require Import ZArith Lia String.
From stdpp Require Import prelude numbers strings option gmap list.
From S2P Require Import Prelude Kernel Sched Monitor Sleeplock.

Definition NBUF : nat := 30.
Definition BSIZE : Z := 512.
Definition FSSIZE : Z := 1000.
Definition B_VALID : Z := 0x2.
Definition B_DIRTY : Z := 0x4.

Definition block : Type := list Z.

(** A disk with block [n] overwritten. *)
Definition wr (n : Z) (d : block) (f : Z -> block) : Z -> block := fun m => if m =? n then d else f m.

Record buf : Type := mkBuf {
  b_flags : Z;
  b_dev : Z;
  b_blockno : Z;
  b_lock : sleeplock;
  b_refcnt : Z;
  b_data : block }.

Definition set_flags v b := mkBuf v (b_dev b) (b_blockno b) (b_lock b) (b_refcnt b) (b_data b).
Definition set_block d n b := mkBuf (b_flags b) d n (b_lock b) (b_refcnt b) (b_data b).
Definition set_lock v b := mkBuf (b_flags b) (b_dev b) (b_blockno b) v (b_refcnt b) (b_data b).
Definition set_refcnt v b := mkBuf (b_flags b) (b_dev b) (b_blockno b) (b_lock b) v (b_data b).
Definition set_data v b := mkBuf (b_flags b) (b_dev b) (b_blockno b) (b_lock b) (b_refcnt b) v.

Definition buf0 : buf := mkBuf 0 0 0 initsleeplock 0 (replicate 512 0).

(** [bcache], the disk behind it and the process table. *)
Record bst : Type := mkBst {
  bufs : list buf;
  bnext : list nat;
  bprev : list nat;
  disk : Z -> block;
  disksize : Z;
  writes : list (Z * block);
  btable : pstate }.

Definition set_bufs v s := mkBst v (bnext s) (bprev s) (disk s) (disksize s) (writes s) (btable s).
Definition set_bnext v s := mkBst (bufs s) v (bprev s) (disk s) (disksize s) (writes s) (btable s).
Definition set_bprev v s := mkBst (bufs s) (bnext s) v (disk s) (disksize s) (writes s) (btable s).
Definition set_disk v w s := mkBst (bufs s) (bnext s) (bprev s) v (disksize s) w (btable s).

#[export, refine] Instance Has_btable : Has pstate bst :=
  {| get_part := btable;
     put_part := fun t s => mkBst (bufs s) (bnext s) (bprev s) (disk s) (disksize s) (writes s) t |}.
Proof. all: by intros; destruct s. Defined.

(** The fields of buffer [i], and of the pointers of a node of the ring. *)
Definition get_buf (i : nat) (s : bst) : buf := default buf0 (bufs s !! i).
Definition upd_buf (i : nat) (f : buf -> buf) (s : bst) : bst := set_bufs (alter f i (bufs s)) s.
Definition get_next (i : nat) (s : bst) : nat := default NBUF (bnext s !! i).
Definition get_prev (i : nat) (s : bst) : nat := default NBUF (bprev s !! i).
Definition put_next (i j : nat) (s : bst) : bst := set_bnext (<[i := j]> (bnext s)) s.
Definition put_prev (i j : nat) (s : bst) : bst := set_bprev (<[i := j]> (bprev s)) s.

(** The sleep lock of buffer [i]. *)
Definition lock_of (i : nat) (s : bst) : sleeplock := b_lock (get_buf i s).
Definition put_lock (i : nat) (l : sleeplock) (s : bst) : bst := upd_buf i (set_lock l) s.
Definition acquire_buf (i : nat) : K bst unit :=
  acquiresleep (lock_of i) (put_lock i) (ChSleepBuf i) (LSleepBuf i).
Definition release_buf (i : nat) : K bst unit := releasesleep (put_lock i) (ChSleepBuf i) (LSleepBuf i).
Definition holding_buf (i : nat) : K bst bool := holdingsleep (lock_of i) (LSleepBuf i).

(** ** binit *)

Fixpoint binit_loop (n : nat) (b : nat) (s : bst) : bst :=
  match n with
  | O => s
  | S n =>
      let s := put_next b (get_next NBUF s) s in
      let s := put_prev b NBUF s in
      let s := put_lock b initsleeplock s in
      let s := put_prev (get_next NBUF s) b s in
      let s := put_next NBUF b s in
      binit_loop n (S b) s
  end.

Definition binit (s : bst) : bst :=
  let s := put_prev NBUF NBUF s in
  let s := put_next NBUF NBUF s in
  binit_loop NBUF 0 s.

(** ** bget *)

(** The two searches of the ring, along [next] and along [prev]; [None] when
    the walk has not come back to the head in [fuel] steps. *)
Fixpoint scan (step : nat -> nat) (test : nat -> bool) (fuel : nat) (b : nat) : option (option nat) :=
  if Nat.eqb b NBUF then Some None
  else match fuel with
       | O => None
       | S fuel => if test b then Some (Some b) else scan step test fuel (step b)
       end.

Definition is_block (dev blockno : Z) (s : bst) (b : nat) : bool :=
  (b_dev (get_buf b s) =? dev) && (b_blockno (get_buf b s) =? blockno).
Definition is_unused (s : bst) (b : nat) : bool :=
  (b_refcnt (get_buf b s) =? 0) && (Z.land (b_flags (get_buf b s)) B_DIRTY =? 0).

Definition bget (dev blockno : Z) : K bst nat :=
  acquire LBcache;;
  s ← gets (fun s => s);
  match scan (fun b => get_next b s) (is_block dev blockno s) NBUF (get_next NBUF s) with
  | None => spin
  | Some (Some b) =>
      modify (upd_buf b (fun x => set_refcnt (u32 (b_refcnt x + 1)) x));;
      release LBcache;;
      acquire_buf b;;
      mret b
  | Some None =>
      match scan (fun b => get_prev b s) (is_unused s) NBUF (get_prev NBUF s) with
      | None => spin
      | Some (Some b) =>
          modify (upd_buf b (set_block dev blockno));;
          modify (upd_buf b (set_flags 0));;
          modify (upd_buf b (set_refcnt 1));;
          release LBcache;;
          acquire_buf b;;
          mret b
      | Some None => panic "bget: no buffers"
      end
  end.

(** ** The driver: iderw of memide.c *)

Definition iderw (b : nat) : K bst unit :=
  h ← holding_buf b;
  if negb h then panic "iderw: buf not locked"
  else
    x ← gets (get_buf b);
    if Z.land (b_flags x) (Z.lor B_VALID B_DIRTY) =? B_VALID then panic "iderw: nothing to do"
    else if negb (b_dev x =? 1) then panic "iderw: request not for disk 1"
    else
      size ← gets disksize;
      if size <=? b_blockno x then panic "iderw: block out of range"
      else
        (if negb (Z.land (b_flags x) B_DIRTY =? 0) then
           modify (upd_buf b (fun x => set_flags (Z.land (b_flags x) (Z.lnot B_DIRTY)) x));;
           modify (fun s => set_disk (wr (b_blockno x) (b_data x) (disk s)) (writes s ++ [(b_blockno x, b_data x)]) s)
         else
           modify (fun s => upd_buf b (set_data (disk s (b_blockno x))) s));;
        modify (upd_buf b (fun x => set_flags (Z.lor (b_flags x) B_VALID) x)).

(** ** bread, bwrite, brelse *)

Definition bread (dev blockno : Z) : K bst nat :=
  b ← bget dev blockno;
  x ← gets (get_buf b);
  when (Z.land (b_flags x) B_VALID =? 0) (iderw b);;
  mret b.

Definition bwrite (b : nat) : K bst unit :=
  h ← holding_buf b;
  if negb h then panic "bwrite"
  else
    modify (upd_buf b (fun x => set_flags (Z.lor (b_flags x) B_DIRTY) x));;
    iderw b.

(** The end of [brelse]: buffer [b] moves to the head of the ring. *)
Definition move_to_head (b : nat) (s : bst) : bst :=
  let s := put_prev (get_next b s) (get_prev b s) s in
  let s := put_next (get_prev b s) (get_next b s) s in
  let s := put_next b (get_next NBUF s) s in
  let s := put_prev b NBUF s in
  let s := put_prev (get_next NBUF s) b s in
  put_next NBUF b s.

Definition brelse (b : nat) : K bst unit :=
  h ← holding_buf b;
  if negb h then panic "brelse"
  else
    release_buf b;;
    acquire LBcache;;
    modify (upd_buf b (fun x => set_refcnt (u32 (b_refcnt x - 1)) x));;
    x ← gets (get_buf b);
    when (b_refcnt x =? 0) (modify (move_to_head b));;
    release LBcache.

(** ** The ring *)

(** [chain f a l b]: from [a], following [f] goes through [l] and then to [b]. *)
Fixpoint chain (f : nat -> nat) (a : nat) (l : list nat) (b : nat) : Prop :=
  match l with
  | [] => f a = b
  | x :: l => f a = x /\ chain f x l b
  end.

Definition fupd (f : nat -> nat) (i v : nat) : nat -> nat := fun j => if decide (j = i) then v else f j.

(** The last node of [a :: l]. *)
Fixpoint last_of (a : nat) (l : list nat) : nat :=
  match l with [] => a | x :: l => last_of x l end.

Lemma last_of_in a l : last_of a l ∈ a :: l.
Proof. revert a. induction l as [|x l IH]; intros a; cbn; [by left|]. right. apply IH. Qed.

Lemma last_of_snoc a l x : last_of a (l ++ [x]) = x.
Proof. revert a. induction l as [|y l IH]; intros a; cbn; [done|]. apply IH. Qed.

Lemma chain_app f a l1 x l2 b : chain f a (l1 ++ x :: l2) b <-> chain f a l1 x /\ chain f x l2 b.
Proof. revert a. induction l1 as [|y l1 IH]; intros a; cbn; [done|]. rewrite IH. tauto. Qed.

Lemma chain_ext f g a l b : (forall x, x ∈ a :: l -> f x = g x) -> chain f a l b -> chain g a l b.
Proof.
  revert a. induction l as [|y l IH]; intros a Hfg; cbn.
  - intros <-. symmetry. apply Hfg. by left.
  - intros [<- Hc]. split; [symmetry; apply Hfg; by left|]. apply IH; [|done]. intros x Hx. apply Hfg. by right.
Qed.

Lemma chain_upd f i v a l b : i ∉ a :: l -> chain f a l b -> chain (fupd f i v) a l b.
Proof.
  intros Hi. apply chain_ext. intros x Hx. unfold fupd. rewrite decide_False; [done|]. by intros ->.
Qed.

(** Redirecting the last pointer redirects the end of the chain. *)
Lemma chain_redirect f a l b v : NoDup (a :: l) -> chain f a l b -> chain (fupd f (last_of a l) v) a l v.
Proof.
  revert a. induction l as [|y l IH]; intros a Hnd; cbn [chain].
  - intros _. unfold fupd, last_of. cbn. by rewrite decide_True.
  - intros [Hy Hc]. apply NoDup_cons in Hnd as [Ha Hnd].
    split; [|by apply IH]. unfold fupd. rewrite decide_False; [done|]. intros E. apply Ha. rewrite E. apply (last_of_in y l).
Qed.

(** The first and the last node. *)
Lemma chain_head f a l b : chain f a l b -> f a = default b (head l).
Proof. destruct l; cbn; tauto. Qed.

Definition lens (s : bst) : Prop := length (bnext s) = S NBUF /\ length (bprev s) = S NBUF.

Record ring (s : bst) (l : list nat) : Prop := {
  rg_next : chain (fun i => get_next i s) NBUF l NBUF;
  rg_prev : chain (fun i => get_prev i s) NBUF (reverse l) NBUF;
  rg_nodup : NoDup l;
  rg_range : forall x, x ∈ l -> (x < NBUF)%nat;
  rg_len : lens s }.

Lemma scan_find f test fuel a l :
  chain f a l NBUF -> NBUF ∉ l -> (length l <= fuel)%nat -> scan f test fuel (f a) = Some (find test l).
Proof.
  revert a l. induction fuel as [|fuel IH]; intros a l Hc Hn Hlen.
  - destruct l as [|x l]; [|cbn in Hlen; lia]. cbn in Hc. rewrite Hc. done.
  - destruct l as [|x l]; cbn [chain] in Hc; [by rewrite Hc|]. destruct Hc as [-> Hc].
    cbn [scan find]. apply not_elem_of_cons in Hn as [Hx Hn]. rewrite (proj2 (Nat.eqb_neq _ _)) by done.
    destruct (test x); [done|]. apply IH; [done..|]. cbn in Hlen. lia.
Qed.

Lemma get_put_next f i j v s :
  (i <= NBUF)%nat -> length (bnext s) = S NBUF -> (forall k, get_next k s = f k) ->
  get_next j (put_next i v s) = fupd f i v j.
Proof.
  intros ?? Hf. unfold fupd. rewrite <- Hf. unfold get_next, put_next. cbn [bnext set_bnext]. case_decide as Hij.
  - subst. by rewrite list_lookup_insert_eq by lia.
  - by rewrite list_lookup_insert_ne.
Qed.

Lemma get_put_prev f i j v s :
  (i <= NBUF)%nat -> length (bprev s) = S NBUF -> (forall k, get_prev k s = f k) ->
  get_prev j (put_prev i v s) = fupd f i v j.
Proof.
  intros ?? Hf. unfold fupd. rewrite <- Hf. unfold get_prev, put_prev. cbn [bprev set_bprev]. case_decide as Hij.
  - subst. by rewrite list_lookup_insert_eq by lia.
  - by rewrite list_lookup_insert_ne.
Qed.

(** Taking [b] out of a chain. *)
Lemma chain_unlink f a l1 b l2 c :
  NoDup (a :: l1 ++ b :: l2) -> chain f a (l1 ++ b :: l2) c -> chain (fupd f (last_of a l1) (f b)) a (l1 ++ l2) c.
Proof.
  intros Hnd [H1 H2]%chain_app.
  assert (NoDup (a :: l1) /\ last_of a l1 ∉ l2) as [Hnd1 Hlast].
  { apply NoDup_cons in Hnd as [Ha Hnd]. apply NoDup_app in Hnd as (Hl1 & Hd & Hl2). split.
    - apply NoDup_cons. split; [|done]. intros Hin. apply Ha. apply elem_of_app. by left.
    - intros Hin. destruct (proj1 (elem_of_cons _ _ _) (last_of_in a l1)) as [E|E].
      + apply Ha. rewrite <- E. apply elem_of_app. right. by right.
      + apply (Hd _ E). by right. }
  destruct l2 as [|x l2]; cbn [chain] in H2.
  - rewrite app_nil_r, <- H2. by eapply chain_redirect.
  - destruct H2 as [Hx H2]. rewrite Hx. apply chain_app. split; [by eapply chain_redirect|]. by apply chain_upd.
Qed.

Lemma last_of_rev a l : last_of a (reverse l) = default a (head l).
Proof. destruct l as [|x l]; [done|]. by rewrite reverse_cons, last_of_snoc. Qed.

Lemma head_rev a l : default a (head (reverse l)) = last_of a l.
Proof. by rewrite <- last_of_rev, reverse_involutive. Qed.

Lemma chain_start f g a b l c :
  chain f a l c -> g b = f a -> (forall x, x ∈ l -> g x = f x) -> chain g b l c.
Proof.
  destruct l as [|y l]; cbn.
  - by intros <- ->.
  - intros [<- Hc] -> Hg. split; [done|]. eapply chain_ext, Hc. intros x Hx. symmetry. by apply Hg.
Qed.

(** The pointers after [b] has been put in front of a ring of [l]. *)
Lemma push_front nx pv b l :
  chain nx NBUF l NBUF -> chain pv NBUF (reverse l) NBUF -> NoDup (NBUF :: b :: l) ->
  chain (fupd (fupd nx b (nx NBUF)) NBUF b) NBUF (b :: l) NBUF /\
  chain (fupd (fupd pv b NBUF) (nx NBUF) b) NBUF (reverse (b :: l)) NBUF.
Proof.
  intros Hn Hp Hnd. apply NoDup_cons in Hnd as [H1 Hnd]. pose proof (proj1 (NoDup_cons _ _) Hnd) as [H2 H3].
  apply not_elem_of_cons in H1 as [Hb HN].
  pose proof (chain_head _ _ _ _ Hn) as Hh. rewrite <- last_of_rev in Hh.
  assert (nx NBUF <> b) as Hne.
  { rewrite Hh. intros E. destruct (proj1 (elem_of_cons _ _ _) (last_of_in NBUF (reverse l))) as [E'|E'];
      rewrite E in E'; [congruence|]. by apply H2, elem_of_reverse. }
  split.
  - cbn. split; [unfold fupd; by rewrite decide_True|]. eapply chain_start; [exact Hn| |].
    + unfold fupd. rewrite decide_False, decide_True by done. done.
    + intros x Hx. unfold fupd. by rewrite !decide_False by (intros ->; done).
  - rewrite reverse_cons. apply chain_app. split.
    + rewrite Hh. eapply chain_redirect; [|apply chain_upd; [|exact Hp]].
      * apply NoDup_cons. split; [by rewrite elem_of_reverse|by rewrite reverse_Permutation].
      * rewrite elem_of_cons, elem_of_reverse. intros [?|?]; [congruence|done].
    + cbn. unfold fupd. by rewrite decide_False, decide_True by done.
Qed.

Lemma ring_nodup s l : ring s l -> NoDup (NBUF :: l).
Proof.
  intros [_ _ Hnd Hr _]. apply NoDup_cons. split; [|done]. intros Hin%Hr. lia.
Qed.

(** The neighbours of a buffer. *)
Lemma ring_neighbours s l1 b l2 :
  ring s (l1 ++ b :: l2) ->
  get_next b s = last_of NBUF (reverse l2) /\ get_prev b s = last_of NBUF l1 /\
  (get_next b s <= NBUF /\ get_prev b s <= NBUF /\ b < NBUF)%nat /\ get_next b s <> b.
Proof.
  intros [Hn Hp Hnd Hr _]. apply chain_app in Hn as [_ Hn].
  rewrite reverse_app, reverse_cons, <- app_assoc in Hp. apply chain_app in Hp as [_ Hp].
  assert (get_next b s = last_of NBUF (reverse l2)) as Enx
    by (rewrite last_of_rev; apply (chain_head _ _ _ _ Hn)).
  assert (get_prev b s = last_of NBUF l1) as Epv by (rewrite <- head_rev; apply (chain_head _ _ _ _ Hp)).
  assert (forall l, (forall x, x ∈ l -> (x < NBUF)%nat) -> (last_of NBUF l <= NBUF)%nat) as Hle.
  { intros l Hl. destruct (proj1 (elem_of_cons _ _ _) (last_of_in NBUF l)) as [->|E]; [lia|]. specialize (Hl _ E). lia. }
  split_and!; try done.
  - rewrite Enx. apply Hle. intros x Hx. apply Hr. rewrite elem_of_reverse in Hx. set_solver.
  - rewrite Epv. apply Hle. intros x Hx. apply Hr. set_solver.
  - apply Hr. set_solver.
  - rewrite Enx. intros E. pose proof (last_of_in NBUF (reverse l2)) as Hin. rewrite E, elem_of_cons, elem_of_reverse in Hin.
    destruct Hin as [E'|Hin]; [specialize (Hr b); rewrite E' in Hr; assert (NBUF < NBUF)%nat by (apply Hr; set_solver); lia|].
    apply NoDup_app in Hnd as (_ & _ & Hnd%NoDup_cons). tauto.
Qed.

Lemma ring_unlink s l1 b l2 :
  ring s (l1 ++ b :: l2) ->
  chain (fupd (fun i => get_next i s) (get_prev b s) (get_next b s)) NBUF (l1 ++ l2) NBUF /\
  chain (fupd (fun i => get_prev i s) (get_next b s) (get_prev b s)) NBUF (reverse (l1 ++ l2)) NBUF.
Proof.
  intros Hring. destruct (ring_neighbours _ _ _ _ Hring) as (Enx & Epv & _).
  pose proof (ring_nodup _ _ Hring) as Hnd. destruct Hring as [Hn Hp _ _ _]. split.
  - rewrite Epv. by apply (chain_unlink (fun i => get_next i s)).
  - rewrite Enx. rewrite reverse_app, reverse_cons, <- app_assoc in Hp. rewrite reverse_app.
    apply (chain_unlink (fun i => get_prev i s)); [|done].
    apply NoDup_cons in Hnd as [HN Hnd]. apply NoDup_cons. split.
    + rewrite elem_of_app, elem_of_cons, !elem_of_reverse. set_solver.
    + rewrite <- reverse_Permutation in Hnd. by rewrite reverse_app, reverse_cons, <- app_assoc in Hnd.
Qed.

Lemma put_next_lens i v s : lens s -> lens (put_next i v s).
Proof. unfold lens, put_next. cbn [bnext bprev set_bnext]. by rewrite length_insert. Qed.

Lemma put_prev_lens i v s : lens s -> lens (put_prev i v s).
Proof. unfold lens, put_prev. cbn [bnext bprev set_bprev]. by rewrite length_insert. Qed.

(** The pointers [move_to_head] leaves. *)
Lemma move_to_head_ptrs s b (nx := fun i => get_next i s) (pv := fun i => get_prev i s)
    (nx2 := fupd nx (pv b) (nx b)) (pv1 := fupd pv (nx b) (pv b)) :
  lens s -> (nx b <= NBUF /\ pv b <= NBUF /\ b < NBUF /\ nx2 NBUF <= NBUF)%nat -> nx b <> b ->
  (forall i, get_next i (move_to_head b s) = fupd (fupd nx2 b (nx2 NBUF)) NBUF b i) /\
  (forall i, get_prev i (move_to_head b s) = fupd (fupd pv1 b NBUF) (nx2 NBUF) b i) /\
  lens (move_to_head b s).
Proof.
  intros Hl0 (Hn & Hp & Hb & Hh) Hnb. unfold move_to_head.
  set (s1 := put_prev (get_next b s) (get_prev b s) s).
  assert (forall i, get_prev i s1 = pv1 i) as E1 by (intros i; by apply get_put_prev; [|apply Hl0|]).
  assert (get_prev b s1 = pv b) as Eb by (rewrite E1; unfold pv1, fupd; by rewrite decide_False by done).
  assert (lens s1) as Hl1 by (by apply put_next_lens || by apply put_prev_lens).
  rewrite Eb. set (s2 := put_next (pv b) (get_next b s1) s1).
  assert (forall i, get_next i s2 = nx2 i) as E2 by (intros i; by apply get_put_next; [|apply Hl1|]).
  assert (lens s2) as Hl2 by (by apply put_next_lens || by apply put_prev_lens).
  rewrite E2. set (s3 := put_next b (nx2 NBUF) s2).
  assert (forall i, get_next i s3 = fupd nx2 b (nx2 NBUF) i) as E3 by (intros i; apply get_put_next; [lia|apply Hl2|done]).
  assert (lens s3) as Hl3 by (by apply put_next_lens || by apply put_prev_lens).
  set (s4 := put_prev b NBUF s3).
  assert (forall i, get_prev i s4 = fupd pv1 b NBUF i) as E4 by (intros i; apply get_put_prev; [lia|apply Hl3|done]).
  assert (get_next NBUF s4 = nx2 NBUF) as EN.
  { change (get_next NBUF s4) with (get_next NBUF s3). rewrite E3. unfold fupd at 1. by rewrite decide_False by lia. }
  assert (lens s4) as Hl4 by (by apply put_next_lens || by apply put_prev_lens).
  rewrite EN. set (s5 := put_prev (nx2 NBUF) b s4).
  assert (forall i, get_prev i s5 = fupd (fupd pv1 b NBUF) (nx2 NBUF) b i) as E5 by (intros i; by apply get_put_prev; [|apply Hl4|]).
  assert (lens s5) as Hl5 by (by apply put_next_lens || by apply put_prev_lens).
  split; [intros i; by apply get_put_next; [|apply Hl5|]|]. split; [exact E5|]. by apply put_next_lens.
Qed.

Lemma move_to_head_ring s l1 b l2 : ring s (l1 ++ b :: l2) -> ring (move_to_head b s) (b :: l1 ++ l2).
Proof.
  intros Hring. destruct (ring_neighbours _ _ _ _ Hring) as (_ & _ & (Hn1 & Hp1 & Hb) & Hnb).
  destruct (ring_unlink _ _ _ _ Hring) as [Hc1 Hc2]. pose proof (ring_nodup _ _ Hring) as Hnd.
  rewrite <- Permutation_middle in Hnd. pose proof (proj1 (NoDup_cons _ _) Hnd) as [HN Hnd1].
  destruct (push_front _ _ b (l1 ++ l2) Hc1 Hc2 Hnd) as [Hf1 Hf2]. pose proof (chain_head _ _ _ _ Hc1) as Hh.
  destruct Hring as [_ _ _ Hr Hl].
  destruct (move_to_head_ptrs s b Hl) as (E1 & E2 & E3); [|done|].
  { split_and!; try done. rewrite Hh. destruct (l1 ++ l2) as [|x l] eqn:E; cbn; [lia|].
    assert (x < NBUF)%nat; [|lia]. apply Hr. assert (x ∈ l1 ++ l2) by (rewrite E; by left). set_solver. }
  split; [| |done| |done].
  - eapply chain_ext, Hf1. intros x _. by rewrite E1.
  - eapply chain_ext, Hf2. intros x _. by rewrite E2.
  - intros x Hx. apply Hr. set_solver.
Qed.

(** ** binit builds the ring *)

Lemma binit_step b l s :
  ring s l -> (b < NBUF)%nat -> b ∉ l ->
  let s1 := put_lock b initsleeplock (put_prev b NBUF (put_next b (get_next NBUF s) s)) in
  ring (put_next NBUF b (put_prev (get_next NBUF s1) b s1)) (b :: l).
Proof.
  intros Hring Hb Hbl s1. pose proof (ring_nodup _ _ Hring) as Hnd. destruct Hring as [Hn Hp Hnd' Hr Hl].
  pose proof (proj1 (NoDup_cons _ _) Hnd) as [HN _].
  assert (NoDup (NBUF :: b :: l)) as Hnd2.
  { apply NoDup_cons. split; [|by apply NoDup_cons]. intros [?|?]%elem_of_cons; [lia|done]. }
  destruct (push_front _ _ b l Hn Hp Hnd2) as [Hf1 Hf2].
  assert (lens s1) as Hl1 by (by apply (put_prev_lens b), put_next_lens).
  assert (forall i, get_next i s1 = fupd (fun i => get_next i s) b (get_next NBUF s) i) as E1
    by (intros i; apply (get_put_next (fun i => get_next i s)); [lia|apply Hl|done]).
  assert (forall i, get_prev i s1 = fupd (fun i => get_prev i s) b NBUF i) as E2
    by (intros i; apply (get_put_prev (fun i => get_prev i s)); [lia|apply Hl|done]).
  assert (get_next NBUF s1 = get_next NBUF s) as E3 by (rewrite E1; unfold fupd; by rewrite decide_False by lia).
  rewrite E3. assert (get_next NBUF s <= NBUF)%nat as Hle.
  { rewrite (chain_head _ _ _ _ Hn). destruct l as [|x l]; cbn; [lia|]. assert (x < NBUF)%nat by (apply Hr; by left). lia. }
  split.
  - eapply chain_ext, Hf1. intros x _. symmetry. apply get_put_next; [lia|by apply put_prev_lens|done].
  - eapply chain_ext, Hf2. intros x _. symmetry. apply (get_put_prev _ (get_next NBUF s)); [lia|apply Hl1|done].
  - by apply NoDup_cons.
  - intros x [->|Hx]%elem_of_cons; [done|by apply Hr].
  - by apply put_next_lens, put_prev_lens.
Qed.

Lemma binit_ring s : lens s -> ring (binit s) (reverse (seq 0 NBUF)).
Proof.
  intros Hl. unfold binit. set (s0 := put_next NBUF NBUF (put_prev NBUF NBUF s)).
  assert (forall n b s, (b + n = NBUF)%nat -> ring s (reverse (seq 0 b)) -> ring (binit_loop n b s) (reverse (seq 0 NBUF))) as Hloop.
  { induction n as [|n IH]; intros b s1 Hb Hs1; cbn [binit_loop]; [by replace NBUF with b by lia|].
    apply IH; [lia|]. rewrite seq_S, reverse_app. cbn [reverse app]. apply binit_step; [done|lia|].
    rewrite elem_of_reverse, elem_of_seq. lia. }
  apply Hloop; [done|]. split; cbn.
  - by apply (get_put_next (fun i => get_next i s)); [lia|apply Hl|].
  - by apply (get_put_prev (fun i => get_prev i s)); [lia|apply Hl|].
  - constructor.
  - by intros x ?%not_elem_of_nil.
  - by apply put_next_lens, put_prev_lens.
Qed.

(** ** What the cache promises

    [bio_inv s n H V B]: the process with number [n] runs; it holds the buffers
    [H] (index and block number), and no other buffer is locked; block [b] has
    the contents [V b], whether cached or on disk; the blocks whose buffers are
    dirty are in [B].  A block is in at most one buffer, and a buffer that is
    neither held nor dirty agrees with the disk. *)

Definition unlocked (x : buf) : Prop := slocked (b_lock x) = 0 /\ b_refcnt x = 0.

Definition buf_inv (s : bst) (n : Z) (H : list (nat * Z)) (V : Z -> block) (B : gset Z) (i : nat) (x : buf) : Prop :=
  length (b_data x) = 512%nat /\
  ((b_dev x = 0 /\ b_flags x = 0 /\ unlocked x /\ (i ∉ H.*1)) \/
   (b_dev x = 1 /\ 0 <= b_blockno x < disksize s /\ V (b_blockno x) = b_data x /\
    ((b_flags x = 2 /\ b_blockno x ∉ B) \/ (b_flags x = 6 /\ b_blockno x ∈ B)) /\
    (((i, b_blockno x) ∈ H /\ b_lock x = mkSleeplock 1 n /\ b_refcnt x = 1) \/
     ((i ∉ H.*1) /\ unlocked x /\ (b_flags x = 2 -> b_data x = disk s (b_blockno x)))))).

Record bio_inv (s : bst) (n : Z) (H : list (nat * Z)) (V : Z -> block) (B : gset Z) : Prop := {
  bi_cur : current (btable s) n;
  bi_len : length (bufs s) = NBUF;
  bi_ring : exists l, ring s l /\ l ≡ₚ seq 0 NBUF;
  bi_buf : forall i x, bufs s !! i = Some x -> buf_inv s n H V B i x;
  bi_uniq : forall i j x y, bufs s !! i = Some x -> bufs s !! j = Some y ->
    b_dev x = 1 -> b_dev y = 1 -> b_blockno x = b_blockno y -> i = j;
  bi_held : forall i b, (i, b) ∈ H -> exists x, bufs s !! i = Some x /\ b_dev x = 1 /\ b_blockno x = b;
  bi_nodup : NoDup H.*1;
  bi_dirty : forall b, b ∈ B -> exists i x, bufs s !! i = Some x /\ b_dev x = 1 /\ b_blockno x = b;
  bi_view : forall b, (forall i x, bufs s !! i = Some x -> b_dev x = 1 -> b_blockno x <> b) -> V b = disk s b;
  bi_disk : forall b, length (disk s b) = 512%nat }.

Lemma get_buf_Some s i x : bufs s !! i = Some x -> get_buf i s = x.
Proof. unfold get_buf. by intros ->. Qed.

(** A change of buffer [i] alone. *)
Lemma bio_upd s s' n H H' V V' B B' i x f :
  bio_inv s n H V B -> bufs s !! i = Some x ->
  bufs s' = alter f i (bufs s) -> (exists l, ring s' l /\ l ≡ₚ seq 0 NBUF) -> current (btable s') n ->
  (forall b, length (disk s' b) = 512%nat) ->
  buf_inv s' n H' V' B' i (f x) ->
  (forall j y, j <> i -> bufs s !! j = Some y -> buf_inv s n H V B j y -> buf_inv s' n H' V' B' j y) ->
  (b_dev (f x) = 1 -> forall j y, j <> i -> bufs s !! j = Some y -> b_dev y = 1 -> b_blockno y <> b_blockno (f x)) ->
  (forall j b, (j, b) ∈ H' -> (j = i /\ b_dev (f x) = 1 /\ b = b_blockno (f x)) \/ (j <> i /\ (j, b) ∈ H)) ->
  NoDup H'.*1 ->
  (forall b, b ∈ B' -> (b_dev (f x) = 1 /\ b_blockno (f x) = b) \/
     exists j y, j <> i /\ bufs s !! j = Some y /\ b_dev y = 1 /\ b_blockno y = b) ->
  (forall b, (forall j y, j <> i -> bufs s !! j = Some y -> b_dev y = 1 -> b_blockno y <> b) ->
     (b_dev (f x) = 1 -> b_blockno (f x) <> b) -> V' b = disk s' b) ->
  bio_inv s' n H' V' B'.
Proof.
  intros Hinv Hx Hb Hring Hcur Hdisk Hbi Hoth Huniq Hheld Hnd Hdirty Hview.
  assert (forall j y, bufs s' !! j = Some y -> (j = i /\ y = f x) \/ (j <> i /\ bufs s !! j = Some y)) as Hlook.
  { intros j y. rewrite Hb. destruct (decide (i = j)) as [<-|Hij].
    - rewrite list_lookup_alter_eq, Hx. intros [= <-]. auto.
    - rewrite list_lookup_alter_ne by done. auto. }
  split; try done.
  - rewrite Hb, length_alter. apply Hinv.
  - intros j y [[-> ->]|[Hj Hy]]%Hlook; [done|]. apply Hoth; [done..|]. by apply Hinv.
  - intros j k y z [[-> ->]|[Hj Hy]]%Hlook [[-> ->]|[Hk Hz]]%Hlook Hdy Hdz Hbl; try done.
    + destruct (Huniq Hdy k z); try done.
    + destruct (Huniq Hdz j y); try done.
    + by eapply (bi_uniq _ _ _ _ _ Hinv).
  - intros j b [(-> & Hd & ->)|[Hj Hin]]%Hheld.
    + exists (f x). rewrite Hb, list_lookup_alter_eq, Hx. done.
    + destruct (bi_held _ _ _ _ _ Hinv j b Hin) as (y & Hy & Hrest). exists y.
      by rewrite Hb, list_lookup_alter_ne by done.
  - intros b [[Hd Hbl]|(j & y & Hj & Hy & Hrest)]%Hdirty.
    + exists i, (f x). rewrite Hb, list_lookup_alter_eq, Hx. done.
    + exists j, y. by rewrite Hb, list_lookup_alter_ne by done.
  - intros b Hno. apply Hview.
    + intros j y Hj Hy. apply (Hno j). by rewrite Hb, list_lookup_alter_ne by done.
    + apply (Hno i). by rewrite Hb, list_lookup_alter_eq, Hx.
Qed.

(** Locks of buffers. *)
Lemma lock_put i l s : (i < length (bufs s))%nat -> lock_of i (put_lock i l s) = l.
Proof.
  intros Hi. unfold lock_of, put_lock, get_buf, upd_buf. cbn [bufs set_bufs]. rewrite list_lookup_alter_eq.
  by destruct (lookup_lt_is_Some_2 _ _ Hi) as [x ->].
Qed.

Lemma alter_twice {A} (f g : A -> A) i (l : list A) : alter f i (alter g i l) = alter (fun x => f (g x)) i l.
Proof. revert i. induction l as [|x l IH]; intros [|i]; cbn; f_equal; auto. Qed.

Lemma upd_buf_twice i f g s : upd_buf i f (upd_buf i g s) = upd_buf i (fun x => f (g x)) s.
Proof. unfold upd_buf. cbn [bufs set_bufs]. by rewrite alter_twice. Qed.

Lemma lookup_upd_buf i f s x : bufs s !! i = Some x -> bufs (upd_buf i f s) !! i = Some (f x).
Proof. intros Hx. unfold upd_buf. cbn [bufs set_bufs]. by rewrite list_lookup_alter_eq, Hx. Qed.

Lemma upd_buf_ext i f g s x : bufs s !! i = Some x -> f x = g x -> upd_buf i f s = upd_buf i g s.
Proof.
  intros Hx Hfg. unfold upd_buf. f_equal. apply list_eq. intros j. destruct (decide (i = j)) as [<-|Hj].
  - rewrite !list_lookup_alter_eq, Hx. cbn. by rewrite Hfg.
  - by rewrite !list_lookup_alter_ne.
Qed.

Lemma get_upd_buf i f s x : bufs s !! i = Some x -> get_buf i (upd_buf i f s) = f x.
Proof. intros Hx. unfold get_buf, upd_buf. cbn [bufs set_bufs]. by rewrite list_lookup_alter_eq, Hx. Qed.

Section buffer_locks.
Context (s : bst) (i : nat) (x : buf).
Hypothesis Hx : bufs s !! i = Some x.

Lemma acquire_buf_free n :
  current (btable s) n -> slocked (b_lock x) = 0 ->
  acquire_buf i [] s = Ret tt [] (upd_buf i (set_lock (mkSleeplock 1 n)) s).
Proof.
  intros Hc Hl. apply (acquiresleep_free (lock_of i) (put_lock i)); try done.
  - intros l. apply lock_put. by eapply lookup_lt_Some.
  - intros l l'. apply upd_buf_twice.
  - unfold lock_of. by rewrite (get_buf_Some _ _ _ Hx).
Qed.

Lemma holding_buf_held n :
  current (btable s) n -> b_lock x = mkSleeplock 1 n -> holding_buf i [] s = Ret true [] s.
Proof.
  intros Hc Hl. eapply (holdingsleep_held (lock_of i)); [exact Hc|]. unfold lock_of. by rewrite (get_buf_Some _ _ _ Hx).
Qed.

Lemma release_buf_run :
  exists t, release_buf i [] s = Ret tt [] (put_part t (upd_buf i (set_lock (mkSleeplock 0 0)) s)) /\ woke (btable s) t.
Proof.
  eexists. split; [by apply (releasesleep_run (put_lock i))|]. apply woke_wakeup.
Qed.
End buffer_locks.

(** The part of the state that reading blocks leaves alone. *)
Record same_disk (s s' : bst) : Prop := {
  sd_disk : disk s' = disk s;
  sd_writes : writes s' = writes s;
  sd_size : disksize s' = disksize s }.

Section cache.
Context (s : bst) (n : Z) (H : list (nat * Z)) (V : Z -> block) (B : gset Z).
Hypothesis Hinv : bio_inv s n H V B.

Lemma buf_exists i : (i < NBUF)%nat -> exists x, bufs s !! i = Some x.
Proof. intros Hi. apply lookup_lt_is_Some_2. by rewrite (bi_len _ _ _ _ _ Hinv). Qed.

Lemma scan_next test :
  exists o, scan (fun b => get_next b s) test NBUF (get_next NBUF s) = Some o /\
    match o with
    | Some i => (i < NBUF)%nat /\ test i = true
    | None => forall i, (i < NBUF)%nat -> test i = false
    end.
Proof.
  destruct (bi_ring _ _ _ _ _ Hinv) as (l & Hr & Hl). exists (find test l).
  assert (forall i, i ∈ l <-> (i < NBUF)%nat) as Hin by (intros i; rewrite Hl, elem_of_seq; lia).
  split.
  - apply (scan_find (fun b => get_next b s)); [apply Hr|rewrite Hin; lia|]. rewrite Hl, length_seq. lia.
  - destruct (find test l) as [i|] eqn:E.
    + apply find_some in E as [E ?]. by rewrite <- Hin, list_elem_of_In.
    + intros i Hi. eapply find_none; [done|]. by apply list_elem_of_In, Hin.
Qed.

Lemma scan_prev test :
  exists o, scan (fun b => get_prev b s) test NBUF (get_prev NBUF s) = Some o /\
    match o with
    | Some i => (i < NBUF)%nat /\ test i = true
    | None => forall i, (i < NBUF)%nat -> test i = false
    end.
Proof.
  destruct (bi_ring _ _ _ _ _ Hinv) as (l & Hr & Hl). exists (find test (reverse l)).
  assert (forall i, i ∈ reverse l <-> (i < NBUF)%nat) as Hin by (intros i; rewrite elem_of_reverse, Hl, elem_of_seq; lia).
  split.
  - apply (scan_find (fun b => get_prev b s)); [apply Hr|rewrite Hin; lia|].
    rewrite length_reverse, Hl, length_seq. lia.
  - destruct (find test (reverse l)) as [i|] eqn:E.
    + apply find_some in E as [E ?]. by rewrite <- Hin, list_elem_of_In.
    + intros i Hi. eapply find_none; [done|]. by apply list_elem_of_In, Hin.
Qed.

(** A buffer is in use when it is held or dirty; there are not enough of them
    to fill the cache when few blocks are held or dirty. *)
Lemma unused_exists :
  (length H + size B < NBUF)%nat -> exists i, (i < NBUF)%nat /\ is_unused s i = true.
Proof.
  intros Hroom. destruct (find (is_unused s) (seq 0 NBUF)) as [i|] eqn:E.
  { apply find_some in E as [Hi%in_seq Ht]. exists i. split; [lia|done]. }
  exfalso. assert (forall i, (i < NBUF)%nat -> is_unused s i = false) as Hno
    by (intros i Hi; eapply find_none; [exact E|]; apply in_seq; lia). clear E.
  set (D := filter (fun i => b_flags (get_buf i s) = 6) (seq 0 NBUF)).
  assert (NoDup D) as HD by (apply NoDup_filter, NoDup_seq).
  assert (forall i, i ∈ D -> (i < NBUF)%nat /\ exists x, bufs s !! i = Some x /\ b_flags x = 6 /\ b_dev x = 1 /\ b_blockno x ∈ B) as Hdirty.
  { intros i [Hf Hi]%list_elem_of_filter. apply elem_of_seq in Hi. split; [lia|].
    destruct (buf_exists i) as [x Hx]; [lia|]. rewrite (get_buf_Some _ _ _ Hx) in Hf. exists x. split; [done|]. split; [done|].
    destruct (bi_buf _ _ _ _ _ Hinv i x Hx) as [_ [(_ & Hf' & _)|(Hd & _ & _ & [[Hf' _]|[_ HB]] & _)]]; congruence || done. }
  assert (length D <= size B)%nat as HlD.
  { assert (NoDup ((fun i => b_blockno (get_buf i s)) <$> D)) as Hnd.
    { apply NoDup_fmap_2_strong; [|done]. intros i j Hi Hj Heq.
      destruct (Hdirty i Hi) as (_ & x & Hx & _ & Hdx & _), (Hdirty j Hj) as (_ & y & Hy & _ & Hdy & _).
      rewrite (get_buf_Some _ _ _ Hx), (get_buf_Some _ _ _ Hy) in Heq. by eapply (bi_uniq _ _ _ _ _ Hinv). }
    rewrite <- (length_fmap (fun i => b_blockno (get_buf i s))). rewrite <- (size_list_to_set (C:=gset Z)) by done.
    apply subseteq_size. intros b [i [-> Hi]]%elem_of_list_to_set%list_elem_of_fmap.
    destruct (Hdirty i Hi) as (_ & x & Hx & _ & _ & HB). by rewrite (get_buf_Some _ _ _ Hx). }
  assert (seq 0 NBUF ⊆+ H.*1 ++ D) as Hsub.
  { apply NoDup_submseteq; [apply NoDup_seq|]. intros i [_ Hi]%elem_of_seq. cbn in Hi. apply elem_of_app.
    destruct (decide (i ∈ H.*1)) as [|Hnh]; [by left|right]. apply list_elem_of_filter. split; [|apply elem_of_seq; lia].
    destruct (buf_exists i) as [x Hx]; [lia|]. rewrite (get_buf_Some _ _ _ Hx).
    destruct (bi_buf _ _ _ _ _ Hinv i x Hx) as [_ Hb]. apply dec_stable. intros Hf.
    specialize (Hno i ltac:(lia)). unfold is_unused in Hno. rewrite (get_buf_Some _ _ _ Hx) in Hno.
    destruct Hb as [(_ & Hf' & [_ Hr] & _)|(_ & _ & _ & [[Hf' _]|[Hf' _]] & [[Hin _]|(_ & [_ Hr] & _)])]; try congruence;
      try (by rewrite Hf', Hr in Hno). destruct Hnh. apply list_elem_of_fmap. by eexists (_, _). }
  apply submseteq_length in Hsub. rewrite length_seq, length_app, length_fmap in Hsub. lia.
Qed.
End cache.

Lemma is_block_true s dev b i x :
  bufs s !! i = Some x -> is_block dev b s i = true <-> b_dev x = dev /\ b_blockno x = b.
Proof.
  intros Hx. unfold is_block. rewrite (get_buf_Some _ _ _ Hx), andb_true_iff, !Z.eqb_eq. done.
Qed.

(** Buffers and the ring other than buffer [i] are as before. *)
Lemma upd_ring s i f : (exists l, ring s l /\ l ≡ₚ seq 0 NBUF) -> exists l, ring (upd_buf i f s) l /\ l ≡ₚ seq 0 NBUF.
Proof. intros (l & [? ? ? ? ?] & Hl). exists l. by split. Qed.

Lemma buf_inv_held s s' n H V B i b j y :
  j <> i -> disksize s' = disksize s -> disk s' = disk s ->
  buf_inv s n H V B j y -> buf_inv s' n ((i, b) :: H) V B j y.
Proof.
  unfold buf_inv. intros Hj -> -> [Hl [(Hd & Hf & Hu & Hn)|(Hd & Hr & HV & Hf & Hst)]]; (split; [done|]).
  - left. split_and!; try done. rewrite fmap_cons, not_elem_of_cons. done.
  - right. split_and!; try done; try lia. destruct Hst as [(Hin & Hrest)|(Hn & Hrest)].
    + left. split; [by right|done].
    + right. split; [rewrite fmap_cons, not_elem_of_cons; done|done].
Qed.

Lemma bread_hit s n H V B b i x :
  bio_inv s n H V B -> bufs s !! i = Some x -> b_dev x = 1 -> b_blockno x = b -> b ∉ H.*2 ->
  scan (fun b => get_next b s) (is_block 1 b s) NBUF (get_next NBUF s) = Some (Some i) ->
  exists s', bread 1 b [] s = Ret i [] s' /\ bio_inv s' n ((i, b) :: H) V B /\
    (exists x', bufs s' !! i = Some x' /\ b_data x' = V b) /\ same_disk s s' /\ btable s' = btable s.
Proof.
  intros Hinv Hx Hd Hb Hnh Hscan. destruct (bi_buf _ _ _ _ _ Hinv i x Hx) as [Hlen [[Hd0 _]|(_ & Hr & HV & Hf & Hst)]]; [congruence|].
  destruct Hst as [(Hin & _)|(Hi & [Hl0 Hr0] & Hclean)].
  { destruct Hnh. apply list_elem_of_fmap. exists (i, b_blockno x). by rewrite Hb in *. }
  set (f := fun y => set_lock (mkSleeplock 1 n) (set_refcnt (u32 (b_refcnt y + 1)) y)).
  assert (bget 1 b [] s = Ret i [] (upd_buf i f s)) as Hget.
  { unfold bget. repeat kstep_base. rewrite Hscan. repeat kstep_base.
    erewrite (acquire_buf_free _ i _ (lookup_upd_buf i _ s x Hx) n); [|apply Hinv|done].
    repeat kstep_base. by rewrite upd_buf_twice. }
  exists (upd_buf i f s). split_and!.
  - unfold bread. rewrite bind_unfold, Hget. repeat kstep_base. rewrite (get_upd_buf _ _ _ x) by done.
    cbn. by destruct Hf as [[-> _]|[-> _]].
  - eapply (bio_upd s _ n H _ V _ B _ i x f); try done; try apply Hinv.
    + apply upd_ring, Hinv.
    + split; [done|]. right. cbn. rewrite Hb, Hr0 in *. split_and!; try done; try lia. left. split; [by left|done].
    + intros j y Hj Hy. by apply buf_inv_held.
    + cbn. intros _ j y Hj Hy Hdy Hby. apply Hj. by eapply (bi_uniq _ _ _ _ _ Hinv).
    + intros j c [[= -> ->]|Hin]%elem_of_cons; [left; by cbn|]. right. split; [|done]. intros ->.
      apply Hi, list_elem_of_fmap. by exists (i, c).
    + rewrite fmap_cons. apply NoDup_cons. split; [done|apply Hinv].
    + intros c (j & y & Hy & Hdy & Hby)%(bi_dirty _ _ _ _ _ Hinv). destruct (decide (j = i)) as [->|Hj]; [left|right; by exists j, y].
      assert (y = x) as -> by congruence. done.
    + intros c Hc Hne. apply (bi_view _ _ _ _ _ Hinv). intros j y Hy Hdy. destruct (decide (j = i)) as [->|Hj]; [|by eapply Hc].
      rewrite Hx in Hy. injection Hy as <-. by apply Hne.
  - exists (f x). split; [by apply lookup_upd_buf|]. cbn. by rewrite <- HV, Hb.
  - done.
  - done.
Qed.

(** [iderw] on a buffer that is held and not valid reads the block. *)
Lemma iderw_read s n i x :
  current (btable s) n -> bufs s !! i = Some x -> b_lock x = mkSleeplock 1 n -> b_flags x = 0 -> b_dev x = 1 ->
  b_blockno x < disksize s ->
  iderw i [] s = Ret tt [] (upd_buf i (fun y => set_flags B_VALID (set_data (disk s (b_blockno x)) y)) s).
Proof.
  intros Hc Hx Hl Hf Hd Hb. unfold iderw. rewrite bind_unfold, (holding_buf_held s i x Hx n) by done. cbn [negb].
  repeat kstep_base. rewrite (get_buf_Some _ _ _ Hx), Hf, Hd. change (_ =? B_VALID) with false. change (1 =? 1) with true. cbn [negb].
  repeat kstep_base. rewrite (proj2 (Z.leb_gt _ _)) by done. change (Z.land 0 B_DIRTY =? 0) with true. cbn [negb].
  repeat kstep_base.
  rewrite upd_buf_twice. f_equal. apply (upd_buf_ext _ _ _ _ x Hx). cbn. by rewrite Hf.
Qed.

(** [iderw] on a dirty buffer writes the block. *)
Lemma iderw_write s n i x :
  current (btable s) n -> bufs s !! i = Some x -> b_lock x = mkSleeplock 1 n -> b_flags x = 6 -> b_dev x = 1 ->
  b_blockno x < disksize s ->
  iderw i [] s = Ret tt [] (upd_buf i (set_flags B_VALID)
    (set_disk (wr (b_blockno x) (b_data x) (disk s)) (writes s ++ [(b_blockno x, b_data x)]) s)).
Proof.
  intros Hc Hx Hl Hf Hd Hb. unfold iderw. rewrite bind_unfold, (holding_buf_held s i x Hx n) by done. cbn [negb].
  repeat kstep_base. rewrite (get_buf_Some _ _ _ Hx), Hf, Hd. change (_ =? B_VALID) with false. change (1 =? 1) with true. cbn [negb].
  repeat kstep_base. rewrite (proj2 (Z.leb_gt _ _)) by done. change (Z.land 6 B_DIRTY =? 0) with false. cbn [negb].
  repeat kstep_base. f_equal.
  change (set_disk ?d ?w (upd_buf i ?f s)) with (upd_buf i f (set_disk d w s)). rewrite upd_buf_twice.
  change (disk (upd_buf _ _ s)) with (disk s). change (writes (upd_buf _ _ s)) with (writes s).
  apply (upd_buf_ext _ _ _ (set_disk _ _ s) x Hx). cbn. by rewrite Hf.
Qed.

Lemma bread_miss s n H V B b :
  bio_inv s n H V B -> 0 <= b < disksize s -> (length H + size B < NBUF)%nat ->
  scan (fun b => get_next b s) (is_block 1 b s) NBUF (get_next NBUF s) = Some None ->
  (forall i, (i < NBUF)%nat -> is_block 1 b s i = false) ->
  exists i s', bread 1 b [] s = Ret i [] s' /\ bio_inv s' n ((i, b) :: H) V B /\
    (exists x', bufs s' !! i = Some x' /\ b_data x' = V b) /\ same_disk s s' /\ btable s' = btable s.
Proof.
  intros Hinv Hb Hroom Hscan Hno. destruct (scan_prev s n H V B Hinv (is_unused s)) as (o & Ho & Hu).
  destruct (unused_exists s n H V B Hinv Hroom) as (i0 & Hi0 & Hu0).
  destruct o as [i|]; [destruct Hu as [Hi Hu]|by rewrite (Hu i0 Hi0) in Hu0]. clear i0 Hi0 Hu0.
  destruct (buf_exists s n H V B Hinv i Hi) as [x Hx].
  assert (forall j y, bufs s !! j = Some y -> b_dev y = 1 -> b_blockno y <> b) as Habs.
  { intros j y Hy Hd Hbl. assert (j < NBUF)%nat as Hj by (rewrite <- (bi_len _ _ _ _ _ Hinv); by eapply lookup_lt_Some).
    specialize (Hno j Hj). assert (is_block 1 b s j = true) by (by apply (is_block_true s 1 b j y Hy)). congruence. }
  unfold is_unused in Hu. rewrite (get_buf_Some _ _ _ Hx), andb_true_iff, !Z.eqb_eq in Hu. destruct Hu as [Hr0 Hf0].
  destruct (bi_buf _ _ _ _ _ Hinv i x Hx) as [Hlen Hcase].
  assert ((i ∉ H.*1) /\ slocked (b_lock x) = 0 /\ (b_dev x = 1 -> V (b_blockno x) = disk s (b_blockno x))) as (Hnh & Hl0 & Hold).
  { destruct Hcase as [(Hd & _ & [Hl _] & Hn)|(Hd & _ & HV & Hf & [(_ & _ & Hr)|(Hn & [Hl _] & Hc)])]; [split_and!; [done..|congruence]|congruence|].
    split_and!; [done..|]. intros _. destruct Hf as [[Hf _]|[Hf _]]; [|by rewrite Hf in Hf0]. rewrite HV. by apply Hc. }
  assert (b_dev x = 1 -> b_blockno x ∉ B) as Hclean.
  { intros Hd. destruct Hcase as [(Hd' & _)|(_ & _ & _ & [[_ ?]|[Hf _]] & _)]; [congruence|done|by rewrite Hf in Hf0]. }
  assert (b ∉ B) as HbB by (intros (j & y & Hy & Hdy & Hby)%(bi_dirty _ _ _ _ _ Hinv); by eapply Habs).
  set (f := fun _ : buf => mkBuf B_VALID 1 b (mkSleeplock 1 n) 1 (disk s b)).
  assert (bget 1 b [] s = Ret i [] (upd_buf i (fun y => mkBuf 0 1 b (mkSleeplock 1 n) 1 (b_data y)) s)) as Hget.
  { unfold bget. repeat kstep_base. rewrite Hscan, Ho. repeat kstep_base. rewrite !upd_buf_twice.
    erewrite (acquire_buf_free _ i _ (lookup_upd_buf i _ s x Hx) n); [|apply Hinv|done].
    repeat kstep_base. by rewrite upd_buf_twice. }
  exists i, (upd_buf i f s). split_and!.
  - unfold bread. rewrite bind_unfold, Hget. repeat kstep_base. rewrite (get_upd_buf _ _ _ x) by done.
    change (Z.land _ B_VALID =? 0) with true. cbn [when].
    erewrite iderw_read; [|apply (bi_cur _ _ _ _ _ Hinv)|apply (lookup_upd_buf i _ s x Hx)|done|done|done|cbn; lia].
    repeat kstep_base. by rewrite upd_buf_twice.
  - eapply (bio_upd s _ n H _ V _ B _ i x f); try done; try apply Hinv.
    + apply upd_ring, Hinv.
    + split; [apply Hinv|]. right. cbn. split_and!; try done; try lia.
      * apply (bi_view _ _ _ _ _ Hinv). exact Habs.
      * by left.
      * left. split; [by left|done].
    + intros j y Hj Hy. by apply buf_inv_held.
    + cbn. intros _ j y _ Hy Hdy. by eapply Habs.
    + intros j c [[= -> ->]|Hin]%elem_of_cons; [left; by cbn|]. right. split; [|done]. intros ->.
      apply Hnh, list_elem_of_fmap. by exists (i, c).
    + rewrite fmap_cons. apply NoDup_cons. split; [done|apply Hinv].
    + intros c Hc. destruct (bi_dirty _ _ _ _ _ Hinv c Hc) as (j & y & Hy & Hdy & Hby).
      right. exists j, y. split; [|done]. intros ->. assert (y = x) as -> by congruence. apply Hclean; [done|]. by rewrite Hby.
    + cbn. intros c Hc Hne. destruct (decide (b_dev x = 1 /\ b_blockno x = c)) as [[Hd <-]|Hdc]; [by apply Hold|].
      apply (bi_view _ _ _ _ _ Hinv). intros j y Hy Hdy. destruct (decide (j = i)) as [->|Hj]; [|by eapply Hc].
      rewrite Hx in Hy. injection Hy as <-. tauto.
  - exists (f x). split; [by apply lookup_upd_buf|]. cbn. symmetry. by apply (bi_view _ _ _ _ _ Hinv).
  - done.
  - done.
Qed.

(** [bread] returns the block, locked, from the cache or from the disk; there is
    room when the block is dirty, and so cached, or few buffers are in use. *)
Lemma bread_run s n H V B b :
  bio_inv s n H V B -> 0 <= b < disksize s -> b ∉ H.*2 -> b ∈ B \/ (length H + size B < NBUF)%nat ->
  exists i s', bread 1 b [] s = Ret i [] s' /\ bio_inv s' n ((i, b) :: H) V B /\
    (exists x', bufs s' !! i = Some x' /\ b_data x' = V b) /\ same_disk s s' /\ btable s' = btable s.
Proof.
  intros Hinv Hb Hnh Hroom. destruct (scan_next s n H V B Hinv (is_block 1 b s)) as ([i|] & Hscan & Ho).
  - destruct Ho as [Hi Ht]. destruct (buf_exists s n H V B Hinv i Hi) as [x Hx].
    pose proof (proj1 (is_block_true s 1 b i x Hx) Ht) as [Hd Hbl].
    destruct (bread_hit s n H V B b i x) as (s' & ?); try done. by exists i, s'.
  - apply bread_miss; try done. destruct Hroom as [HB|Hroom]; [|done].
    destruct (bi_dirty _ _ _ _ _ Hinv b HB) as (j & y & Hy & Hdy & Hby).
    assert (j < NBUF)%nat as Hj by (rewrite <- (bi_len _ _ _ _ _ Hinv); by eapply lookup_lt_Some).
    specialize (Ho j Hj). rewrite (proj2 (is_block_true s 1 b j y Hy)) in Ho; done.
Qed.

(** ** The other operations on a held buffer *)

Lemma held_buf s n H V B i b :
  bio_inv s n H V B -> (i, b) ∈ H ->
  exists x, bufs s !! i = Some x /\ b_dev x = 1 /\ b_blockno x = b /\ b_data x = V b /\ length (b_data x) = 512%nat /\
    0 <= b < disksize s /\ b_lock x = mkSleeplock 1 n /\ b_refcnt x = 1 /\ ((b_flags x = 2 /\ b ∉ B) \/ (b_flags x = 6 /\ b ∈ B)).
Proof.
  intros Hinv Hin. destruct (bi_held _ _ _ _ _ Hinv i b Hin) as (x & Hx & Hd & Hb). exists x.
  destruct (bi_buf _ _ _ _ _ Hinv i x Hx) as [Hl [(Hd0 & _)|(_ & Hr & HV & Hf & Hst)]]; [congruence|].
  rewrite Hb in *. destruct Hst as [(_ & ? & ?)|(Hn & _)]; [split_and!; done || lia|].
  destruct Hn. apply list_elem_of_fmap. by exists (i, b).
Qed.

(** Blocks other than [b] keep their buffers. *)
Lemma buf_inv_other s s' n H V V' B B' i b x j y :
  bio_inv s n H V B -> bufs s !! i = Some x -> b_dev x = 1 -> b_blockno x = b ->
  disksize s' = disksize s -> (forall c, c <> b -> disk s' c = disk s c) -> (forall c, c <> b -> V' c = V c) ->
  (forall c, c <> b -> c ∈ B <-> c ∈ B') ->
  j <> i -> bufs s !! j = Some y -> buf_inv s n H V B j y -> buf_inv s' n H V' B' j y.
Proof.
  intros Hinv Hx Hd Hb Hsz Hdisk HV HB Hj Hy [Hl [Hc|(Hdy & Hr & HVy & Hf & Hst)]]; (split; [done|]); [by left|right].
  assert (b_blockno y <> b) as Hne.
  { intros E. apply Hj. eapply (bi_uniq _ _ _ _ _ Hinv); try done. congruence. }
  rewrite Hsz, HV by done. split; [done|]. split; [lia|]. split; [done|]. split.
  - by rewrite <- HB.
  - destruct Hst as [?|(Hn & Hu & Hc)]; [by left|right]. rewrite Hdisk by done. done.
Qed.

Lemma other_blocks s n H V B i x f :
  bio_inv s n H V B -> bufs s !! i = Some x -> b_dev x = 1 -> b_dev (f x) = 1 -> b_blockno (f x) = b_blockno x ->
  b_dev (f x) = 1 -> forall j y, j <> i -> bufs s !! j = Some y -> b_dev y = 1 -> b_blockno y <> b_blockno (f x).
Proof.
  intros Hinv Hx Hd _ Hb _ j y Hj Hy Hdy Hby. apply Hj. eapply (bi_uniq _ _ _ _ _ Hinv); try done. congruence.
Qed.

Lemma held_dec (H : list (nat * Z)) i j c b : NoDup H.*1 -> (i, b) ∈ H -> (j, c) ∈ H -> (j = i /\ c = b) \/ (j <> i).
Proof.
  intros Hnd Hi Hj. destruct (decide (j = i)) as [->|]; [left|by right]. split; [done|].
  apply list_elem_of_lookup in Hi as [k Hk], Hj as [k' Hk'].
  assert (k = k') as -> by (eapply NoDup_lookup; [exact Hnd|by rewrite list_lookup_fmap, Hk|by rewrite list_lookup_fmap, Hk']).
  congruence.
Qed.

(** A change of a held buffer that keeps its block number. *)
Lemma bio_upd_held s s' n H V V' B B' i b x f :
  bio_inv s n H V B -> (i, b) ∈ H -> bufs s !! i = Some x ->
  bufs s' = alter f i (bufs s) -> (exists l, ring s' l /\ l ≡ₚ seq 0 NBUF) -> current (btable s') n ->
  disksize s' = disksize s -> (forall c, length (disk s' c) = 512%nat) ->
  b_dev (f x) = 1 -> b_blockno (f x) = b -> b_lock (f x) = mkSleeplock 1 n -> b_refcnt (f x) = 1 ->
  length (b_data (f x)) = 512%nat -> V' b = b_data (f x) -> ((b_flags (f x) = 2 /\ b ∉ B') \/ (b_flags (f x) = 6 /\ b ∈ B')) ->
  (forall c, c <> b -> disk s' c = disk s c /\ V' c = V c /\ (c ∈ B <-> c ∈ B')) ->
  bio_inv s' n H V' B'.
Proof.
  intros Hinv Hin Hx Hb Hring Hcur Hsz Hdisk Hd Hbl Hlk Hrc Hlen HV Hf Hoth.
  destruct (held_buf s n H V B i b Hinv Hin) as (x0 & Hx0 & Hd0 & Hb0 & _ & _ & Hr & _). assert (x0 = x) as -> by congruence.
  eapply (bio_upd s s' n H H V V' B B' i x f); try done.
  - split; [done|]. right. rewrite Hbl. split_and!; try done; try lia. left. by split_and!.
  - intros j y Hj Hy. eapply (buf_inv_other s s' n H V V' B B' i b x); try done; intros c Hc; by apply Hoth.
  - eapply (other_blocks s n H V B i x f); try done. congruence.
  - intros j c Hjc. destruct (held_dec H i j c b (bi_nodup _ _ _ _ _ Hinv) Hin Hjc) as [[-> ->]|Hj]; [left; by split_and!|by right].
  - apply Hinv.
  - intros c Hc. destruct (decide (c = b)) as [->|Hne]; [by left|right]. apply Hoth in Hc; [|done].
    destruct (bi_dirty _ _ _ _ _ Hinv c Hc) as (j & y & Hy & Hdy & Hby). exists j, y. split; [|done]. intros ->. congruence.
  - intros c Hc Hne. assert (c <> b) as Hcb by (intros ->; by apply Hne).
    destruct (Hoth c Hcb) as (-> & -> & _). apply (bi_view _ _ _ _ _ Hinv). intros j y Hy Hdy.
    destruct (decide (j = i)) as [->|Hj]; [|by eapply Hc]. congruence.
Qed.

Lemma wr_same b d V : wr b d V b = d.
Proof. unfold wr. by rewrite Z.eqb_refl. Qed.

Lemma wr_other b d V c : c <> b -> wr b d V c = V c.
Proof. intros. unfold wr. by rewrite (proj2 (Z.eqb_neq _ _)). Qed.

(** Storing into [b->data]. *)
Lemma bset_inv s n H V B i b d :
  bio_inv s n H V B -> (i, b) ∈ H -> length d = 512%nat ->
  bio_inv (upd_buf i (set_data d) s) n H (wr b d V) B.
Proof.
  intros Hinv Hin Hl. destruct (held_buf s n H V B i b Hinv Hin) as (x & Hx & Hd & Hb & HV & _ & Hr & Hlk & Hrc & Hf).
  eapply (bio_upd_held s _ n H V _ B B i b x (set_data d)); try done.
  - apply upd_ring, Hinv.
  - apply Hinv.
  - apply Hinv.
  - apply wr_same.
  - intros c Hc. by rewrite wr_other.
Qed.

(** Marking a held buffer dirty. *)
Lemma bdirty_inv s n H V B i b :
  bio_inv s n H V B -> (i, b) ∈ H ->
  bio_inv (upd_buf i (fun x => set_flags (Z.lor (b_flags x) B_DIRTY) x) s) n H V ({[b]} ∪ B).
Proof.
  intros Hinv Hin. destruct (held_buf s n H V B i b Hinv Hin) as (x & Hx & Hd & Hb & HV & Hl & Hr & Hlk & Hrc & Hf).
  eapply (bio_upd_held s _ n H V _ B _ i b x (fun x => set_flags (Z.lor (b_flags x) B_DIRTY) x)); try done.
  - apply upd_ring, Hinv.
  - apply Hinv.
  - apply Hinv.
  - right. cbn. split; [by destruct Hf as [[-> _]|[-> _]]|]. apply elem_of_union_l, elem_of_singleton_2. done.
  - intros c Hc. split_and!; try done. rewrite elem_of_union, elem_of_singleton. naive_solver.
Qed.

(** [bwrite] writes the contents of the block to disk. *)
Lemma bwrite_run s n H V B i b :
  bio_inv s n H V B -> (i, b) ∈ H ->
  exists s', bwrite i [] s = Ret tt [] s' /\ bio_inv s' n H V (B ∖ {[b]}) /\
    disk s' = wr b (V b) (disk s) /\ writes s' = writes s ++ [(b, V b)] /\ disksize s' = disksize s /\ btable s' = btable s.
Proof.
  intros Hinv Hin. destruct (held_buf s n H V B i b Hinv Hin) as (x & Hx & Hd & Hb & HV & Hl & Hr & Hlk & Hrc & Hf).
  pose proof (bi_cur _ _ _ _ _ Hinv) as Hcur.
  assert (Z.lor (b_flags x) B_DIRTY = 6) as Hf6 by (by destruct Hf as [[-> _]|[-> _]]).
  set (s' := set_disk (wr b (V b) (disk s)) (writes s ++ [(b, V b)]) s).
  exists (upd_buf i (set_flags B_VALID) s'). split_and!; try done.
  - unfold bwrite. rewrite bind_unfold, (holding_buf_held s i x Hx n) by done. cbn [negb]. repeat kstep_base.
    erewrite iderw_write; [|exact Hcur|apply (lookup_upd_buf i _ s x Hx)|done|cbn; by rewrite Hf6|done|cbn; lia].
    cbn [set_flags b_blockno b_data]. rewrite HV, Hb.
    change (set_disk ?d ?w (upd_buf i ?f s)) with (upd_buf i f (set_disk d w s)). by rewrite upd_buf_twice.
  - eapply (bio_upd_held s _ n H V _ B _ i b x (set_flags B_VALID)); try done.
    + apply upd_ring. destruct (bi_ring _ _ _ _ _ Hinv) as (l & [? ? ? ? ?] & ?). exists l. by split.
    + intros c. cbn. unfold wr. destruct (c =? b); [by rewrite <- HV|apply Hinv].
    + cbn. left. split; [done|]. set_solver.
    + intros c Hc. cbn. rewrite wr_other by done. split_and!; try done. set_solver.
Qed.

Lemma held_remove (H1 H2 : list (nat * Z)) i b : NoDup ((H1 ++ (i, b) :: H2).*1) -> (i ∉ (H1 ++ H2).*1) /\ NoDup ((H1 ++ H2).*1).
Proof.
  rewrite !fmap_app, fmap_cons. cbn. intros Hnd. rewrite <- Permutation_middle in Hnd. by apply NoDup_cons in Hnd.
Qed.

(** [brelse] unlocks the buffer and makes it the most recently used one. *)
Lemma brelse_run s n H1 i b H2 V B :
  bio_inv s n (H1 ++ (i, b) :: H2) V B -> b ∈ B \/ V b = disk s b ->
  exists s', brelse i [] s = Ret tt [] s' /\ bio_inv s' n (H1 ++ H2) V B /\ same_disk s s' /\ woke (btable s) (btable s').
Proof.
  intros Hinv Hclean. set (H := H1 ++ (i, b) :: H2) in *.
  assert ((i, b) ∈ H) as Hin by (unfold H; set_solver).
  destruct (held_buf s n H V B i b Hinv Hin) as (x & Hx & Hd & Hb & HV & Hl & Hr & Hlk & Hrc & Hf).
  destruct (held_remove H1 H2 i b (bi_nodup _ _ _ _ _ Hinv)) as [Hni Hnd].
  destruct (release_buf_run s i) as (t & Hrel & Hwoke).
  set (f := fun y => set_refcnt (u32 (b_refcnt y - 1)) (set_lock (mkSleeplock 0 0) y)).
  set (s1 := upd_buf i f (put_part t s)).
  exists (move_to_head i s1). split_and!; try done.
  - unfold brelse. rewrite bind_unfold, (holding_buf_held s i x Hx n); [|apply Hinv|done]. cbn [negb].
    rewrite bind_unfold, Hrel. repeat kstep_base.
    change (upd_buf i ?g (put_part t (upd_buf i ?k s))) with (upd_buf i g (upd_buf i k (put_part t s))).
    rewrite upd_buf_twice. fold f. fold s1. unfold s1. rewrite (get_upd_buf i f _ x) by exact Hx.
    cbn [f set_refcnt set_lock b_refcnt]. rewrite Hrc. change (u32 (1 - 1) =? 0) with true. cbn [when]. by repeat kstep_base.
  - eapply (bio_upd s _ n H _ V _ B _ i x f); try done.
    + destruct (bi_ring _ _ _ _ _ Hinv) as (l & Hring & Hl').
      assert (i ∈ l) as Hil by (rewrite Hl'; apply elem_of_seq; pose proof (lookup_lt_Some _ _ _ Hx); rewrite (bi_len _ _ _ _ _ Hinv) in *; lia).
      apply list_elem_of_split in Hil as (l1 & l2 & ->). exists (i :: l1 ++ l2). split.
      * apply move_to_head_ring. destruct Hring as [? ? ? ? ?]. by split.
      * rewrite <- Hl'. by rewrite Permutation_middle.
    + apply (woke_current (btable s)); [done|apply Hinv].
    + apply Hinv.
    + split; [done|]. right. cbn. rewrite Hb, Hrc. split_and!; try done; try lia. right. split; [done|].
      split; [split; cbn; rewrite ?Hrc; done|]. intros Hf2. rewrite HV. destruct Hf as [[_ HnB]|[Hf _]]; [|congruence]. by destruct Hclean.
    + intros j y Hj Hy [Hly [(Hdy & Hfy & Hu & Hn)|(Hdy & Hry & HVy & Hfy & Hst)]]; (split; [done|]).
      * left. split_and!; try done. unfold H in Hn. revert Hn. rewrite !fmap_app, fmap_cons. set_solver.
      * right. split; [done|]. split; [done|]. split; [done|]. split; [done|]. destruct Hst as [(Hinj & Hrest)|(Hn & Hrest)].
        -- left. split; [|done]. unfold H in Hinj. rewrite elem_of_app, elem_of_cons in Hinj. rewrite elem_of_app.
           destruct Hinj as [?|[[= ? ?]|?]]; [by left|congruence|by right].
        -- right. split; [|done]. unfold H in Hn. revert Hn. rewrite !fmap_app, fmap_cons. set_solver.
    + eapply (other_blocks s n H V B i x f); done.
    + intros j c Hjc. right. split; [|unfold H; set_solver]. intros ->. apply Hni, list_elem_of_fmap. by exists (i, c).
    + intros c Hc. destruct (bi_dirty _ _ _ _ _ Hinv c Hc) as (j & y & Hy & Hdy & Hby).
      destruct (decide (j = i)) as [->|Hj]; [left|right; by exists j, y]. assert (y = x) as -> by congruence. done.
    + intros c Hc Hne. apply (bi_view _ _ _ _ _ Hinv). intros j y Hy Hdy.
      destruct (decide (j = i)) as [->|Hj]; [|by eapply Hc]. assert (y = x) as -> by congruence. by apply Hne.
Qed.

(** ** The cache refines the disk

    A client that reads blocks and writes blocks through, one at a time. *)

Inductive bop : Type := BRead (b : Z) | BWrite (b : Z) (d : block).

Definition run_bop (o : bop) : K bst (option block) :=
  match o with
  | BRead b => i ← bread 1 b; x ← gets (get_buf i); brelse i;; mret (Some (b_data x))
  | BWrite b d => i ← bread 1 b; modify (upd_buf i (set_data d));; bwrite i;; brelse i;; mret None
  end.

Fixpoint run_bops (os : list bop) : K bst (list (option block)) :=
  match os with
  | [] => mret []
  | o :: os => r ← run_bop o; rs ← run_bops os; mret (r :: rs)
  end.

(** The same operations on a plain map. *)
Definition spec_bop (o : bop) (V : Z -> block) : option block * (Z -> block) :=
  match o with
  | BRead b => (Some (V b), V)
  | BWrite b d => (None, wr b d V)
  end.

Fixpoint spec_bops (os : list bop) (V : Z -> block) : list (option block) * (Z -> block) :=
  match os with
  | [] => ([], V)
  | o :: os => let '(r, V) := spec_bop o V in let '(rs, V) := spec_bops os V in (r :: rs, V)
  end.

Definition bop_ok (size : Z) (o : bop) : Prop :=
  match o with
  | BRead b => 0 <= b < size
  | BWrite b d => 0 <= b < size /\ length d = 512%nat
  end.

(** The state the kernel starts with: zeroed buffers, then [binit]. *)
Definition bst0 (d : Z -> block) (size : Z) (t : pstate) : bst :=
  binit (mkBst (replicate NBUF buf0) (replicate (S NBUF) 0%nat) (replicate (S NBUF) 0%nat) d size [] t).

Lemma binit_bufs s : bufs s = replicate NBUF buf0 -> bufs (binit s) = replicate NBUF buf0 /\
  disk (binit s) = disk s /\ disksize (binit s) = disksize s /\ writes (binit s) = writes s /\ btable (binit s) = btable s.
Proof.
  intros Hb. unfold binit.
  assert (forall n b s, bufs s = replicate NBUF buf0 -> bufs (binit_loop n b s) = replicate NBUF buf0 /\
    disk (binit_loop n b s) = disk s /\ disksize (binit_loop n b s) = disksize s /\ writes (binit_loop n b s) = writes s /\
    btable (binit_loop n b s) = btable s) as Hloop;
    [|by apply (Hloop NBUF 0%nat (put_next NBUF NBUF (put_prev NBUF NBUF s)))].
  induction n as [|n IH]; intros b s1 Hs1; cbn [binit_loop]; [done|].
  match goal with |- context [binit_loop n (S b) ?s2] => destruct (IH (S b) s2) as (? & ? & ? & ? & ?); [|done] end.
  unfold put_lock, upd_buf, put_next, put_prev. cbn [bufs set_bnext set_bprev set_bufs]. rewrite Hs1.
  apply list_eq. intros j. destruct (decide (b = j)) as [<-|Hj].
  - rewrite list_lookup_alter_eq. by destruct (replicate NBUF buf0 !! b) as [y|] eqn:E; [apply lookup_replicate in E as [-> _]|].
  - by rewrite list_lookup_alter_ne.
Qed.

Lemma bst0_inv d size t n :
  current t n -> (forall b, length (d b) = 512%nat) -> bio_inv (bst0 d size t) n [] d ∅.
Proof.
  intros Hc Hd. unfold bst0. set (s := mkBst _ _ _ _ _ _ _).
  destruct (binit_bufs s eq_refl) as (Hb & Hdisk & _ & _ & Ht).
  assert (forall i x, bufs (binit s) !! i = Some x -> x = buf0) as Hbuf
    by (intros i x; rewrite Hb; by intros [-> _]%lookup_replicate).
  assert (ring (binit s) (reverse (seq 0 NBUF))) as Hring by exact (binit_ring s (conj eq_refl eq_refl)).
  change (disk s) with d in Hdisk. change (btable s) with t in Ht. clearbody s. generalize dependent (binit s). clear s.
  intros s Hb Hdisk Ht Hbuf Hring. split.
  - by rewrite Ht.
  - by rewrite Hb, length_replicate.
  - exists (reverse (seq 0 NBUF)). split; [done|apply reverse_Permutation].
  - intros i x ->%Hbuf. split; [reflexivity|]. left.
    split; [reflexivity|]. split; [reflexivity|]. split; [by split|]. apply not_elem_of_nil.
  - intros i j x y ->%Hbuf _ E. discriminate E.
  - intros i b Hin. by apply not_elem_of_nil in Hin.
  - constructor.
  - intros b Hbe. by apply not_elem_of_empty in Hbe.
  - intros b _. rewrite Hdisk. reflexivity.
  - intros b. rewrite Hdisk. apply Hd.
Qed.

Lemma run_bop_spec o s n V :
  bio_inv s n [] V ∅ -> (forall b, V b = disk s b) -> bop_ok (disksize s) o ->
  exists s', run_bop o [] s = Ret (spec_bop o V).1 [] s' /\ bio_inv s' n [] (spec_bop o V).2 ∅ /\
    (forall b, (spec_bop o V).2 b = disk s' b) /\ disksize s' = disksize s.
Proof.
  intros Hinv HV Hok. destruct o as [b|b d]; cbn [run_bop spec_bop fst snd] in *.
  - destruct (bread_run s n [] V ∅ b Hinv Hok) as (i & s1 & Hr & Hinv1 & (x & Hx & Hdata) & [Hd _ Hsz] & _);
      [set_solver|right; rewrite size_empty; cbn; unfold NBUF; lia|].
    destruct (brelse_run s1 n [] i b [] V ∅ Hinv1) as (s2 & Hr2 & Hinv2 & [Hd2 _ Hsz2] & _); [right; by rewrite Hd|].
    exists s2. split_and!; try done.
    + rewrite bind_unfold, Hr. repeat kstep_base. rewrite Hr2. repeat kstep_base. by rewrite (get_buf_Some _ _ _ Hx), Hdata.
    + intros c. by rewrite Hd2, Hd.
    + congruence.
  - destruct Hok as [Hb Hl].
    destruct (bread_run s n [] V ∅ b Hinv Hb) as (i & s1 & Hr & Hinv1 & _ & [Hd _ Hsz] & _);
      [set_solver|right; rewrite size_empty; cbn; unfold NBUF; lia|].
    assert ((i, b) ∈ [(i, b)]) as Hin by (by left).
    pose proof (bset_inv s1 n _ V ∅ i b d Hinv1 Hin Hl) as Hinv2.
    destruct (bwrite_run _ n _ _ ∅ i b Hinv2 Hin) as (s3 & Hr3 & Hinv3 & Hd3 & _ & Hsz3 & _).
    rewrite wr_same in Hd3. replace (∅ ∖ {[b]}) with (∅ : gset Z) in Hinv3 by set_solver.
    assert (forall c, wr b d V c = disk s3 c) as Hall.
    { intros c. rewrite Hd3. cbn. destruct (decide (c = b)) as [->|Hc]; [by rewrite !wr_same|].
      rewrite !wr_other by done. by rewrite HV, Hd. }
    destruct (brelse_run s3 n [] i b [] _ ∅ Hinv3) as (s4 & Hr4 & Hinv4 & [Hd4 _ Hsz4] & _); [right; apply Hall|].
    exists s4. split_and!; try done.
    + rewrite bind_unfold, Hr. repeat kstep_base. rewrite Hr3. repeat kstep_base. by rewrite Hr4.
    + intros c. by rewrite Hd4.
    + cbn in Hsz3. congruence.
Qed.

(** C11: the buffer cache is transparent.  Started with an empty cache, any
    sequence of block reads and writes through [bread], [bwrite] and [brelse]
    runs to the end without a panic, reads what a plain array of blocks would
    give, and leaves the disk equal to that array, whatever blocks were
    recycled on the way. *)
Theorem bio_refines_disk os d size t n :
  current t n -> (forall b, length (d b) = 512%nat) -> Forall (bop_ok size) os ->
  exists s', run_bops os [] (bst0 d size t) = Ret (spec_bops os d).1 [] s' /\
    forall b, disk s' b = (spec_bops os d).2 b.
Proof.
  intros Hc Hd Hos.
  assert (forall V s, bio_inv s n [] V ∅ -> (forall b, V b = disk s b) -> disksize s = size ->
    exists s', run_bops os [] s = Ret (spec_bops os V).1 [] s' /\ forall b, disk s' b = (spec_bops os V).2 b) as Hgen.
  { induction Hos as [|o os Ho _ IH]; intros V s Hinv HV Hsz; cbn [run_bops spec_bops]; [by exists s|].
    destruct (run_bop_spec o s n V Hinv HV) as (s1 & Hr & Hinv1 & HV1 & Hsz1); [by rewrite Hsz|].
    destruct (spec_bop o V) as [r V1]. destruct (IH V1 s1 Hinv1 HV1) as (s' & Hr' & Hd'); [congruence|].
    cbn [fst snd] in *. destruct (spec_bops os V1) as [rs V2]. exists s'. split; [|done].
    rewrite bind_unfold, Hr, bind_unfold, Hr'. done. }
  destruct (binit_bufs (mkBst (replicate NBUF buf0) (replicate (S NBUF) 0%nat) (replicate (S NBUF) 0%nat) d size [] t) eq_refl)
    as (_ & Hdisk & Hsize & _).
  apply Hgen; [by apply bst0_inv| |done]. intros b. unfold bst0. by rewrite Hdisk.
Qed.

Definition bio_procs : pstate :=
  set_cpu_proc (Some 0%nat) (set_procs (set_pid 3 (set_state RUNNING proc0) :: replicate 63 proc0) pstate0).

Lemma bio_procs_current : current bio_procs 3.
Proof. exists 0%nat, (set_pid 3 (set_state RUNNING proc0)). done. Qed.

Lemma bio_refines_disk_witness :
  exists s', run_bops [BWrite 5 (replicate 512 9); BRead 5] [] (bst0 (fun _ => replicate 512 0) 1000 bio_procs) =
    Ret [None; Some (replicate 512 9)] [] s' /\ disk s' 5 = replicate 512 9.
Proof.
  destruct (bio_refines_disk [BWrite 5 (replicate 512 9); BRead 5] (fun _ => replicate 512 0) 1000 bio_procs 3)
    as (s' & H1 & H2).
  - apply bio_procs_current.
  - intros b. by rewrite length_replicate.
  - repeat constructor; cbn [bop_ok]; lia || by rewrite length_replicate.
  - exists s'. split; [exact H1|exact (H2 5)].
Defined.
