(* ===== verification/Ide.v ===== *)
(** * The IDE disk driver (src/ide.c)

    The queue of requests, the commands sent to the controller and the
    interrupt handler.  The controller is hardware: it is a parameter of the
    model, the class [Ata], with what the driver relies on as laws.  The driver
    is a monitor (file Monitor): processes call [iderw] and sleep, [ideintr]
    wakes them.  The main result relates it to the driver of src/memide.c,
    which the files above the buffer cache use: every history of calls and
    interrupts leaves the buffers and the disk as if each request had been one
    call of that driver, in the order of the queue. *)

From Stdlib Require Import ZArith Lia String.
From stdpp Require Import prelude numbers strings option gmap relations list.
From S2P Require Import Prelude Kernel Mem Sched Monitor Sleeplock Bio.

Definition SECTOR_SIZE : Z := 512.
Definition IDE_BSY : Z := 0x80.
Definition IDE_DRDY : Z := 0x40.
Definition IDE_DF : Z := 0x20.
Definition IDE_ERR : Z := 0x01.
Definition IDE_CMD_READ : Z := 0x20.
Definition IDE_CMD_WRITE : Z := 0x30.
Definition IDE_CMD_RDMUL : Z := 0xc4.
Definition IDE_CMD_WRMUL : Z := 0xc5.

(** ** The controller *)

(** What the controller is doing: nothing, holding a sector that was read,
    expecting the bytes of a sector, or done with a write. *)
Inductive aphase : Type :=
  | Idle
  | Reading (drive sector : Z)
  | Writing (drive sector : Z)
  | Wrote.

(** The drive and the sector selected by the registers. *)
Definition sel_drive (r : Z -> Z) : Z := Z.land (Z.shiftr (r 0x1f6) 4) 1.
Definition sel_sector (r : Z -> Z) : Z :=
  r 0x1f3 + Z.shiftl (r 0x1f4) 8 + Z.shiftl (r 0x1f5) 16 + Z.shiftl (Z.land (r 0x1f6) 0xf) 24.

(** The controller's ports, and its behaviour.  [delay] bounds the number of
    status reads until it is ready; it must be ready when a register, a
    command or data goes through.  It reports no errors. *)
Class Ata (D : Type) := {
  inb : Z -> D -> Z * D;
  outb : Z -> Z -> D -> D;
  insl : Z -> D -> block * D;
  outsl : Z -> block -> D -> D;
  delay : D -> nat;
  regs : D -> Z -> Z;
  phase : D -> aphase;
  sectors : D -> Z -> Z -> block;
  ata_status : forall d, let '(v, d') := inb 0x1f7 d in
    (Z.land v (Z.lor IDE_BSY IDE_DRDY) = IDE_DRDY <-> delay d = 0%nat) /\ (delay d = 0%nat -> Z.land v (Z.lor IDE_DF IDE_ERR) = 0) /\
    delay d' = pred (delay d) /\ regs d' = regs d /\ phase d' = phase d /\ sectors d' = sectors d;
  ata_control : forall d, let d' := outb 0x3f6 0 d in
    delay d = 0%nat -> delay d' = 0%nat /\ regs d' = regs d /\ phase d' = phase d /\ sectors d' = sectors d;
  ata_register : forall p v d, 0x1f2 <= p <= 0x1f6 -> 0 <= v < 256 -> delay d = 0%nat -> let d' := outb p v d in
    delay d' = 0%nat /\ (forall q, regs d' q = if q =? p then v else regs d q) /\ phase d' = phase d /\ sectors d' = sectors d;
  ata_read : forall d, delay d = 0%nat -> regs d 0x1f2 = 1 -> let d' := outb 0x1f7 IDE_CMD_READ d in
    phase d' = Reading (sel_drive (regs d)) (sel_sector (regs d)) /\ sectors d' = sectors d;
  ata_write : forall d, delay d = 0%nat -> regs d 0x1f2 = 1 -> let d' := outb 0x1f7 IDE_CMD_WRITE d in
    phase d' = Writing (sel_drive (regs d)) (sel_sector (regs d)) /\ sectors d' = sectors d;
  ata_insl : forall d v n, delay d = 0%nat -> phase d = Reading v n -> let '(x, d') := insl 0x1f0 d in
    x = sectors d v n /\ sectors d' = sectors d;
  ata_outsl : forall d v n x, phase d = Writing v n -> length x = 512%nat -> let d' := outsl 0x1f0 x d in
    phase d' = Wrote /\ forall v' n', sectors d' v' n' = if (v' =? v) && (n' =? n) then x else sectors d v' n' }.

(** ** The driver *)

(** The buffers with their [qnext] fields, the variables of ide.c and the
    controller. *)
Record ide (Dv : Type) : Type := mkIde {
  ibufs : list buf;
  qnext : list (option nat);
  idequeue : option nat;
  havedisk1 : Z;
  idev : Dv }.
Arguments mkIde {Dv}.
Arguments ibufs {Dv}.
Arguments qnext {Dv}.
Arguments idequeue {Dv}.
Arguments havedisk1 {Dv}.
Arguments idev {Dv}.

Section driver.
Context {Dv : Type} `{!Ata Dv}.

Definition set_ibufs (v : list buf) (d : ide Dv) : ide Dv := mkIde v (qnext d) (idequeue d) (havedisk1 d) (idev d).
Definition set_qnext (v : list (option nat)) (d : ide Dv) : ide Dv := mkIde (ibufs d) v (idequeue d) (havedisk1 d) (idev d).
Definition set_idequeue (v : option nat) (d : ide Dv) : ide Dv := mkIde (ibufs d) (qnext d) v (havedisk1 d) (idev d).
Definition set_havedisk1 (v : Z) (d : ide Dv) : ide Dv := mkIde (ibufs d) (qnext d) (idequeue d) v (idev d).
Definition set_idev (v : Dv) (d : ide Dv) : ide Dv := mkIde (ibufs d) (qnext d) (idequeue d) (havedisk1 d) v.

Definition ibuf (i : nat) (d : ide Dv) : buf := default buf0 (ibufs d !! i).
Definition upd_ibuf (i : nat) (f : buf -> buf) (d : ide Dv) : ide Dv := set_ibufs (alter f i (ibufs d)) d.

Definition getd {A} (f : ide Dv -> A) : K (mon (ide Dv)) A := gets (fun s => f (mdata s)).
Definition modd (f : ide Dv -> ide Dv) : K (mon (ide Dv)) unit := modify (fun s => mkMon (f (mdata s)) (mtable s)).

(** The port instructions, on the controller. *)
Definition inb_ (p : Z) : K (mon (ide Dv)) Z :=
  d ← getd idev; modd (set_idev (inb p d).2);; mret (inb p d).1.
Definition outb_ (p v : Z) : K (mon (ide Dv)) unit := modd (fun d => set_idev (outb p v (idev d)) d).

Fixpoint idewait_loop (fuel : nat) (checkerr : bool) : K (mon (ide Dv)) Z :=
  match fuel with
  | O => spin
  | S fuel =>
      r ← inb_ 0x1f7;
      if negb (Z.land r (Z.lor IDE_BSY IDE_DRDY) =? IDE_DRDY) then idewait_loop fuel checkerr
      else if checkerr && negb (Z.land r (Z.lor IDE_DF IDE_ERR) =? 0) then mret (-1)
      else mret 0
  end.
Definition idewait (checkerr : bool) : K (mon (ide Dv)) Z :=
  d ← getd idev; idewait_loop (S (delay d)) checkerr.

Definition idestart (b : option nat) : K (mon (ide Dv)) unit :=
  match b with
  | None => panic "idestart"
  | Some i =>
      x ← getd (ibuf i);
      if FSSIZE <=? b_blockno x then panic "incorrect blockno"
      else
        let sector_per_block := BSIZE / SECTOR_SIZE in
        let sector := s32 (b_blockno x * sector_per_block) in
        let read_cmd := if sector_per_block =? 1 then IDE_CMD_READ else IDE_CMD_RDMUL in
        let write_cmd := if sector_per_block =? 1 then IDE_CMD_WRITE else IDE_CMD_WRMUL in
        if 7 <? sector_per_block then panic "idestart"
        else
          idewait false;;
          outb_ 0x3f6 0;;
          outb_ 0x1f2 sector_per_block;;
          outb_ 0x1f3 (Z.land sector 0xff);;
          outb_ 0x1f4 (Z.land (Z.shiftr sector 8) 0xff);;
          outb_ 0x1f5 (Z.land (Z.shiftr sector 16) 0xff);;
          outb_ 0x1f6 (Z.lor (Z.lor 0xe0 (Z.shiftl (Z.land (b_dev x) 1) 4)) (Z.land (Z.shiftr sector 24) 0x0f));;
          if negb (Z.land (b_flags x) B_DIRTY =? 0) then
            outb_ 0x1f7 write_cmd;;
            modd (fun d => set_idev (outsl 0x1f0 (b_data x) (idev d)) d)
          else outb_ 0x1f7 read_cmd
  end.

(** The loop of [ideinit] that looks for disk 1, [n] times. *)
Fixpoint ideinit_probe (n : nat) : K (mon (ide Dv)) unit :=
  match n with
  | O => mret ()
  | S n =>
      v ← inb_ 0x1f7;
      if negb (v =? 0) then modd (set_havedisk1 1) else ideinit_probe n
  end.

(** [ideinit]; [ioapicenable] is the one of src/ioapic.c. *)
Definition ideinit (ioapicenable : Z -> Z -> K (mon (ide Dv)) unit) (ncpu : Z) : K (mon (ide Dv)) unit :=
  ioapicenable 14 (ncpu - 1);;
  idewait false;;
  outb_ 0x1f6 (Z.lor 0xe0 (Z.shiftl 1 4));;
  ideinit_probe 1000;;
  outb_ 0x1f6 (Z.lor 0xe0 (Z.shiftl 0 4)).

Definition ideintr : K (mon (ide Dv)) unit :=
  acquire LIde;;
  q ← getd idequeue;
  match q with
  | None => release LIde
  | Some b =>
      modd (fun d => set_idequeue (default None (qnext d !! b)) d);;
      x ← getd (ibuf b);
      (if Z.land (b_flags x) B_DIRTY =? 0 then
         r ← idewait true;
         when (0 <=? r)
           (d ← getd idev;
            modd (upd_ibuf b (set_data (insl 0x1f0 d).1));;
            modd (set_idev (insl 0x1f0 d).2))
       else mret ());;
      modd (upd_ibuf b (fun x => set_flags (Z.lor (b_flags x) B_VALID) x));;
      modd (upd_ibuf b (fun x => set_flags (Z.land (b_flags x) (Z.lnot B_DIRTY)) x));;
      wakeup (ChBuf b);;
      q ← getd idequeue;
      when (negb (bool_decide (q = None))) (idestart q);;
      release LIde
  end.

(** The loop that moves [pp] to the end of the queue: [pp] is [None] for
    [&idequeue] and [Some k] for the [qnext] field of buffer [k].  A queue has
    at most as many buffers as there are. *)
Definition at_pp (pp : option nat) (d : ide Dv) : option nat :=
  match pp with None => idequeue d | Some k => default None (qnext d !! k) end.
Definition put_pp (pp : option nat) (v : option nat) (d : ide Dv) : ide Dv :=
  match pp with None => set_idequeue v d | Some k => set_qnext (<[k := v]> (qnext d)) d end.
Fixpoint queue_end (fuel : nat) (pp : option nat) : K (mon (ide Dv)) (option nat) :=
  match fuel with
  | O => spin
  | S fuel =>
      o ← getd (at_pp pp);
      match o with
      | None => mret pp
      | Some k => queue_end fuel (Some k)
      end
  end.

(** The [while] loop of [iderw] and what follows, with [idelock] held. *)
Definition iderw_loop (b : nat) : K (mon (ide Dv)) unit :=
  x ← getd (ibuf b);
  if negb (Z.land (b_flags x) (Z.lor B_VALID B_DIRTY) =? B_VALID) then sleep (ChBuf b) LIde
  else release LIde.

Definition iderw (b : nat) : K (mon (ide Dv)) unit :=
  h ← holdingsleep (fun s => b_lock (ibuf b (mdata s))) (LSleepBuf b);
  if negb h then panic "iderw: buf not locked"
  else
    x ← getd (ibuf b);
    if Z.land (b_flags x) (Z.lor B_VALID B_DIRTY) =? B_VALID then panic "iderw: nothing to do"
    else
      hd1 ← getd havedisk1;
      if negb (b_dev x =? 0) && (hd1 =? 0) then panic "iderw: ide disk 1 not present"
      else
        acquire LIde;;
        modd (fun d => set_qnext (<[b := None]> (qnext d)) d);;
        n ← getd (fun d => length (ibufs d));
        pp ← queue_end (S n) None;
        modd (put_pp pp (Some b));;
        q ← getd idequeue;
        when (bool_decide (q = Some b)) (idestart (Some b));;
        iderw_loop b.

(** [iderw] from the return of [sleep]. *)
Definition iderw_wake (b : nat) : K (mon (ide Dv)) unit := sleep_return LIde;; iderw_loop b.

(** ** The controller as the driver sees it *)

(** The controller after it has been polled until it is ready. *)
Fixpoint polled_ (n : nat) (d : Dv) : Dv := match n with O => (inb 0x1f7 d).2 | S n => polled_ n (inb 0x1f7 d).2 end.
Definition polled (d : Dv) : Dv := polled_ (delay d) d.

Lemma polled_ready d : delay (polled d) = 0%nat /\ regs (polled d) = regs d /\ phase (polled d) = phase d /\ sectors (polled d) = sectors d.
Proof.
  unfold polled. remember (delay d) as n eqn:E. revert d E. induction n as [|n IH]; intros d E; cbn [polled_];
    pose proof (ata_status d) as H; destruct (inb 0x1f7 d) as [v d'] eqn:Ei; destruct H as (_ & _ & Hd & Hr & Hp & Hs); cbn [snd].
  - rewrite <- E in Hd. done.
  - rewrite <- E in Hd. destruct (IH d' ltac:(by rewrite Hd)) as (H1 & H2 & H3 & H4). split_and!; congruence.
Qed.

Lemma idewait_loop_next n c h (d : ide Dv) t : (n = O -> delay (idev d) = O) ->
  idewait_loop (S n) c h (mkMon d t) =
  (if decide (delay (idev d) = O) then mret 0 else idewait_loop n c) h (mkMon (set_idev (inb 0x1f7 (idev d)).2 d) t).
Proof.
  intros Hn. cbn [idewait_loop]. unfold inb_, getd, modd. repeat kstep_base. cbn [mdata mtable].
  pose proof (ata_status (idev d)) as H. destruct (inb 0x1f7 (idev d)) as [v d']. destruct H as (Hv & He & _). cbn [fst snd].
  destruct (decide _) as [E|E].
  - rewrite (proj2 Hv), Z.eqb_refl, He by done. cbn [negb Z.eqb]. by rewrite andb_false_r.
  - rewrite (proj2 (Z.eqb_neq _ _)) by (rewrite Hv; congruence). done.
Qed.

Lemma idewait_run c h (d : ide Dv) t : idewait c h (mkMon d t) = Ret 0 h (mkMon (set_idev (polled (idev d)) d) t).
Proof.
  unfold idewait, polled. unfold getd at 1. repeat kstep_base. cbn [mdata].
  remember (delay (idev d)) as n eqn:E. revert d E. induction n as [|n IH]; intros d E; rewrite idewait_loop_next by done.
  - by rewrite decide_True.
  - rewrite decide_False by congruence. cbn [polled_]. pose proof (ata_status (idev d)) as H. rewrite <- E in H.
    destruct (inb 0x1f7 (idev d)) as [v d']. destruct H as (_ & _ & Hd & _). by apply (IH (set_idev d' d)).
Qed.

(** The controller after [idestart] for buffer [x]. *)
Definition selected (x : buf) (d : Dv) : Dv :=
  let n := b_blockno x in
  outb 0x1f6 (Z.lor (Z.lor 0xe0 (Z.shiftl (Z.land (b_dev x) 1) 4)) (Z.land (Z.shiftr n 24) 0x0f))
    (outb 0x1f5 (Z.land (Z.shiftr n 16) 0xff)
      (outb 0x1f4 (Z.land (Z.shiftr n 8) 0xff)
        (outb 0x1f3 (Z.land n 0xff) (outb 0x1f2 1 (outb 0x3f6 0 (polled d)))))).
Definition dirty (x : buf) : bool := negb (Z.land (b_flags x) B_DIRTY =? 0).
Definition commanded (x : buf) (d : Dv) : Dv :=
  if dirty x then outsl 0x1f0 (b_data x) (outb 0x1f7 IDE_CMD_WRITE (selected x d)) else outb 0x1f7 IDE_CMD_READ (selected x d).

Lemma idestart_run i h (d : ide Dv) t : 0 <= b_blockno (ibuf i d) < FSSIZE ->
  idestart (Some i) h (mkMon d t) = Ret tt h (mkMon (set_idev (commanded (ibuf i d) (idev d)) d) t).
Proof.
  intros Hn. unfold idestart, getd at 1. repeat kstep_base. cbn [mdata]. rewrite (proj2 (Z.leb_gt _ _)) by lia.
  change (BSIZE / SECTOR_SIZE) with 1. change (7 <? 1) with false. change (1 =? 1) with true. cbv iota zeta.
  rewrite Z.mul_1_r, s32_id by (unfold FSSIZE in *; lia). rewrite bind_unfold, idewait_run. unfold outb_, modd. repeat kstep_base.
  cbn [mdata mtable idev set_idev]. unfold commanded, dirty. destruct (negb _); [|done]. repeat kstep_base. done.
Qed.

Lemma land_byte n : 0 <= Z.land n 0xff < 256.
Proof. change 0xff with (Z.ones 8). rewrite Z.land_ones by lia. apply Z.mod_pos_bound. lia. Qed.

Lemma sector_bytes n : 0 <= n < FSSIZE ->
  Z.land n 0xff + Z.shiftl (Z.land (Z.shiftr n 8) 0xff) 8 + Z.shiftl (Z.land (Z.shiftr n 16) 0xff) 16 = n /\ Z.shiftr n 24 = 0.
Proof.
  intros Hn. unfold FSSIZE in Hn. change 0xff with (Z.ones 8). rewrite !Z.land_ones, !Z.shiftl_mul_pow2, !Z.shiftr_div_pow2 by lia.
  rewrite (Z.div_small n (2 ^ 24)), (Z.div_small n (2 ^ 16)) by lia. split; [|done]. change (0 mod 2 ^ 8) with 0.
  assert (0 <= n / 2 ^ 8 < 2 ^ 8) by (split; [apply Z.div_pos; lia|apply Z.div_lt_upper_bound; lia]).
  rewrite (Z.mod_small (n / 2 ^ 8)) by done. pose proof (Z.div_mod n (2 ^ 8)). lia.
Qed.

Lemma selected_regs x d : 0 <= b_blockno x < FSSIZE -> b_dev x = 1 ->
  delay (selected x d) = O /\ regs (selected x d) 0x1f2 = 1 /\ sel_drive (regs (selected x d)) = 1 /\
  sel_sector (regs (selected x d)) = b_blockno x /\ sectors (selected x d) = sectors d.
Proof.
  intros Hn Hdev. destruct (sector_bytes _ Hn) as [Hs H24]. unfold selected. cbv zeta. rewrite Hdev, H24.
  change (Z.lor _ (Z.land 0 15)) with 0xf0.
  destruct (polled_ready d) as (D0 & _ & _ & S0). destruct (ata_control (polled d) D0) as (D1 & _ & _ & S1).
  set (e1 := outb 0x3f6 0 (polled d)) in *. destruct (ata_register 0x1f2 1 e1) as (D2 & R2 & _ & S2); [lia..|done|]. set (e2 := outb _ _ e1) in *.
  destruct (ata_register 0x1f3 (Z.land (b_blockno x) 255) e2) as (D3 & R3 & _ & S3); [lia|apply land_byte|done|]. set (e3 := outb _ _ e2) in *.
  destruct (ata_register 0x1f4 (Z.land (Z.shiftr (b_blockno x) 8) 255) e3) as (D4 & R4 & _ & S4); [lia|apply land_byte|done|]. set (e4 := outb _ _ e3) in *.
  destruct (ata_register 0x1f5 (Z.land (Z.shiftr (b_blockno x) 16) 255) e4) as (D5 & R5 & _ & S5); [lia|apply land_byte|done|]. set (e5 := outb _ _ e4) in *.
  destruct (ata_register 0x1f6 0xf0 e5) as (D6 & R6 & _ & S6); [lia..|done|]. set (e6 := outb _ _ e5) in *.
  unfold sel_drive, sel_sector. rewrite !R6. cbn [Z.eqb Pos.eqb]. rewrite !R5. cbn [Z.eqb Pos.eqb]. rewrite !R4. cbn [Z.eqb Pos.eqb].
  rewrite !R3. cbn [Z.eqb Pos.eqb]. rewrite R2. cbn [Z.eqb Pos.eqb]. split_and!; try done; [|congruence].
  change (Z.shiftl (Z.land 240 15) 24) with 0. lia.
Qed.

Lemma commanded_spec x d : 0 <= b_blockno x < FSSIZE -> b_dev x = 1 -> length (b_data x) = 512%nat ->
  phase (commanded x d) = (if dirty x then Wrote else Reading 1 (b_blockno x)) /\
  forall v n, sectors (commanded x d) v n = if dirty x && ((v =? 1) && (n =? b_blockno x)) then b_data x else sectors d v n.
Proof.
  intros Hn Hdev Hlen. destruct (selected_regs x d Hn Hdev) as (D & R & Hv & Hs & S). unfold commanded. destruct (dirty x); cbn [andb].
  - destruct (ata_write (selected x d) D R) as (Hp & S1). rewrite Hv, Hs in Hp.
    destruct (ata_outsl _ _ _ _ Hp Hlen) as (Hp2 & S2). split; [done|]. intros v n. rewrite S2, S1, S. done.
  - destruct (ata_read (selected x d) D R) as (Hp & S1). rewrite Hv, Hs in Hp. split; [done|]. intros v n. congruence.
Qed.

(** ** The queue *)

(** The buffers [q] are linked, in this order, from the pointer [o]. *)
Fixpoint qpath (nx : list (option nat)) (o : option nat) (q : list nat) : Prop :=
  match q with
  | [] => o = None
  | i :: q => o = Some i /\ qpath nx (default None (nx !! i)) q
  end.

Fixpoint qlist (fuel : nat) (nx : list (option nat)) (o : option nat) : list nat :=
  match fuel, o with
  | S fuel, Some i => i :: qlist fuel nx (default None (nx !! i))
  | _, _ => []
  end.

Lemma qlist_path nx q : forall fuel o, qpath nx o q -> (length q <= fuel)%nat -> qlist fuel nx o = q.
Proof.
  induction q as [|i q IH]; intros fuel o Hq Hf; cbn in Hq; [subst; by destruct fuel|].
  destruct Hq as [-> Hq]. destruct fuel as [|fuel]; cbn in *; [lia|]. f_equal. apply IH; [done|lia].
Qed.

Lemma qpath_skip nx i v q : forall o, i ∉ q -> qpath nx o q -> qpath (<[i := v]> nx) o q.
Proof.
  induction q as [|j q IH]; intros o Hi Hq; [done|]. apply not_elem_of_cons in Hi as [Hne Hi]. destruct Hq as [-> Hq]. split; [done|].
  rewrite list_lookup_insert_ne by done. by apply IH.
Qed.

Lemma qpath_snoc nx i q : forall o k, qpath nx o q -> NoDup q -> i ∉ q -> nx !! i = Some None -> last q = Some k -> (k < length nx)%nat ->
  qpath (<[k := Some i]> nx) o (q ++ [i]).
Proof.
  induction q as [|a q IH]; intros o k Hq Hn Hi Hnx Hl Hk; [done|]. destruct Hq as [-> Hq]. apply NoDup_cons in Hn as [Ha Hn].
  apply not_elem_of_cons in Hi as [Hne Hi]. destruct q as [|b q].
  - cbn in Hl. injection Hl as ->. cbn. rewrite list_lookup_insert_eq by done. split; [done|]. split; [done|]. by rewrite list_lookup_insert_ne, Hnx.
  - cbn [app]. split; [done|]. assert (k ∈ b :: q) as Hin by (apply last_Some_elem_of; exact Hl).
    rewrite list_lookup_insert_ne by (intros ->; done). apply IH; try done.
Qed.

Lemma queue_end_run q : forall fuel pp h (d : ide Dv) t, qpath (qnext d) (at_pp pp d) q -> (length q < fuel)%nat ->
  queue_end fuel pp h (mkMon d t) = Ret (match last q with Some k => Some k | None => pp end) h (mkMon d t).
Proof.
  induction q as [|i q IH]; intros [|fuel] pp h d t Hq Hf; cbn in Hf; try lia; cbn [queue_end]; unfold getd; repeat kstep_base; cbn [mdata].
  - cbn in Hq. by rewrite Hq.
  - destruct Hq as [-> Hq]. rewrite (IH fuel (Some i)) by (done || lia). rewrite last_cons. by destruct (last q).
Qed.

(** ** What the driver does, on the data alone *)

Definition busy (x : buf) : bool := negb (Z.land (b_flags x) (Z.lor B_VALID B_DIRTY) =? B_VALID).

(** A buffer that can be handed to the driver. *)
Record wanted (x : buf) : Prop := {
  wa_busy : busy x = true;
  wa_dev : b_dev x = 1;
  wa_block : 0 <= b_blockno x < FSSIZE;
  wa_len : length (b_data x) = 512%nat;
  wa_lock : slocked (b_lock x) = 1 }.

Record queue_ok (d : ide Dv) (q : list nat) : Prop := {
  qo_path : qpath (qnext d) (idequeue d) q;
  qo_nodup : NoDup q;
  qo_len : length (qnext d) = length (ibufs d);
  qo_want : forall i, i ∈ q -> exists x, ibufs d !! i = Some x /\ wanted x;
  qo_disk : havedisk1 d <> 0;
  qo_dev : forall i, head q = Some i -> phase (idev d) = if dirty (ibuf i d) then Wrote else Reading 1 (b_blockno (ibuf i d)) }.

(** The calls: [iderw], [iderw] after [sleep], an interrupt, and a change of a
    buffer by the kernel code that holds it. *)
Inductive icall : Type :=
  | IRw (i : nat)
  | IWait (i : nat)
  | IIntr
  | IUse (i : nat) (x : buf).

(** [idestart] when there is something to start. *)
Definition kick (o : option nat) (d : ide Dv) : ide Dv :=
  match o with None => d | Some i => set_idev (commanded (ibuf i d) (idev d)) d end.

Definition enqueue (i : nat) (d : ide Dv) : ide Dv :=
  let d := set_qnext (<[i := None]> (qnext d)) d in
  let d := put_pp (last (qlist (length (ibufs d)) (qnext d) (idequeue d))) (Some i) d in
  if bool_decide (idequeue d = Some i) then kick (Some i) d else d.

(** The request [b] done: data read, flags set. *)
Definition done_buf (b : nat) (d : ide Dv) : ide Dv :=
  let x := ibuf b d in
  let d := if dirty x then d
           else let r := insl 0x1f0 (polled (idev d)) in set_idev r.2 (upd_ibuf b (set_data r.1) d) in
  let d := upd_ibuf b (fun x => set_flags (Z.lor (b_flags x) B_VALID) x) d in
  upd_ibuf b (fun x => set_flags (Z.land (b_flags x) (Z.lnot B_DIRTY)) x) d.

Definition finish (b : nat) (d : ide Dv) : ide Dv :=
  let d := done_buf b (set_idequeue (default None (qnext d !! b)) d) in kick (idequeue d) d.

Definition wait_for (i : nat) (d : ide Dv) : turn icall unit :=
  if busy (ibuf i d) then Wait (ChBuf i) (IWait i) else Finish tt.

Definition i_act (p : proc) (c : icall) (d : ide Dv) : ide Dv * list chan * turn icall unit :=
  match c with
  | IRw i => (enqueue i d, [], wait_for i (enqueue i d))
  | IWait i => (d, [], wait_for i d)
  | IIntr => match idequeue d with None => (d, [], Finish tt) | Some b => (finish b d, [ChBuf b], Finish tt) end
  | IUse i x => (set_ibufs (<[i := x]> (ibufs d)) d, [], Finish tt)
  end.

(** The requests the rest of the kernel makes.  Only the driver makes a buffer
    valid, so what else happens to a buffer that is not does not end a wait. *)
Definition i_tok (p : proc) (c : icall) (d : ide Dv) : Prop :=
  match c with
  | IRw i => exists x, ibufs d !! i = Some x /\ wanted x /\ spid (b_lock x) = pid p /\ forall q, queue_ok d q -> i ∉ q
  | IUse i x => (busy (ibuf i d) = true -> busy x = true) /\ forall q, queue_ok d q -> i ∉ q
  | _ => True
  end.

Definition i_call (c : icall) : K (mon (ide Dv)) unit :=
  match c with
  | IRw i => iderw i
  | IWait i => acquire LIde;; iderw_loop i
  | IIntr => ideintr
  | IUse i x => modd (fun d => set_ibufs (<[i := x]> (ibufs d)) d)
  end.

Definition i_wake (c : icall) : K (mon (ide Dv)) unit :=
  match c with
  | IWait i => iderw_wake i
  | _ => panic "not asleep"
  end.

Definition i_wok (c : icall) : Prop := exists i, c = IWait i.

Lemma iderw_loop_run b (d : ide Dv) ps i p : cpu_proc ps = Some i -> procs ps !! i = Some p ->
  iderw_loop b [LIde] (mkMon d ps) = turn_outcome i ps (d, [], wait_for b d).
Proof.
  intros Hi Hp. unfold iderw_loop, getd. repeat kstep_base. cbn [mdata]. unfold wait_for, busy. destruct (negb _).
  - by rewrite (sleep_run _ _ _ i p).
  - by rewrite release_top by not_held.
Qed.

Lemma kick_run (d : ide Dv) h t o : (forall i, o = Some i -> 0 <= b_blockno (ibuf i d) < FSSIZE) ->
  (match o with None => mret () | Some i => idestart (Some i) end : K (mon (ide Dv)) unit) h (mkMon d t) = Ret tt h (mkMon (kick o d) t).
Proof. intros Ho. destruct o as [i|]; [|done]. apply idestart_run. by apply Ho. Qed.

Lemma queue_length d q : queue_ok d q -> (length q <= length (ibufs d))%nat.
Proof.
  intros [_ Hn _ Hw _ _]. rewrite <- (length_seq (length (ibufs d)) 0). apply submseteq_length, NoDup_submseteq; [done|].
  intros i Hi. destruct (Hw i Hi) as (x & Hx & _). apply elem_of_seq. apply lookup_lt_Some in Hx. lia.
Qed.

Lemma queue_unique d q q' : queue_ok d q -> queue_ok d q' -> q = q'.
Proof.
  intros H H'. rewrite <- (qlist_path _ _ (length (ibufs d)) _ (qo_path _ _ H)) by (by apply queue_length).
  apply qlist_path; [apply H'|by apply queue_length].
Qed.

Lemma ibuf_Some d i x : ibufs d !! i = Some x -> ibuf i d = x.
Proof. intros H. unfold ibuf. by rewrite H. Qed.

(** The queue in [enqueue], after [b->qnext = 0]. *)
Lemma cleared_queue d q i : queue_ok d q -> i ∉ q ->
  let d1 := set_qnext (<[i := None]> (qnext d)) d in
  qpath (qnext d1) (idequeue d1) q /\ qlist (length (ibufs d1)) (qnext d1) (idequeue d1) = q.
Proof.
  intros Hq Hi d1. assert (qpath (qnext d1) (idequeue d1) q) as Hp by (apply qpath_skip; [done|apply Hq]).
  split; [done|]. apply qlist_path; [done|]. exact (queue_length d q Hq).
Qed.

Lemma iderw_run i (d : ide Dv) q ps c p : queue_ok d q -> i_tok p (IRw i) d -> cpu_proc ps = Some c -> procs ps !! c = Some p ->
  iderw i [] (mkMon d ps) = turn_outcome c ps (i_act p (IRw i) d).
Proof.
  intros Hq (x & Hx & W & Hpid & Hnin) Hc Hp. specialize (Hnin q Hq). pose proof (wa_lock _ W) as Hl. pose proof (wa_busy _ W) as Hb.
  unfold iderw, holdingsleep, getd, modd. repeat kstep_base. cbn [mdata]. rewrite !(ibuf_Some d i x Hx), Hl. cbn [Z.eqb].
  repeat kstep_base. rewrite (curproc_run _ _ c p) by done. repeat kstep_base. cbn [mdata]. rewrite Hpid, Z.eqb_refl. cbn [negb].
  unfold busy in Hb. apply negb_true_iff in Hb. repeat kstep_base. cbn [mdata]. rewrite (ibuf_Some d i x Hx), Hb. repeat kstep_base. cbn [mdata].
  rewrite (proj2 (Z.eqb_neq (havedisk1 d) 0)) by apply Hq. rewrite andb_false_r. repeat kstep_base. cbn [mdata mtable].
  destruct (cleared_queue d q i Hq Hnin) as [Hpath Hlist]. set (d1 := set_qnext _ d) in *.
  rewrite (queue_end_run q) by (done || (cbn; pose proof (queue_length d q Hq); lia)). repeat kstep_base. cbn [mdata mtable].
  cbn [i_act]. unfold enqueue at 1 2. cbv zeta. fold d1. rewrite Hlist.
  replace (match last q with Some k => Some k | None => None end) with (last q) by (by destruct (last q)).
  set (d2 := put_pp (last q) (Some i) d1).
  assert (ibuf i d2 = x) as Hx2 by (unfold d2, put_pp; destruct (last q); by apply ibuf_Some).
  destruct (bool_decide _); cbn [when]; [|rewrite mret_run; by apply iderw_loop_run with p].
  rewrite idestart_run by (rewrite Hx2; apply W). by apply iderw_loop_run with p.
Qed.

(** Past the head of the queue. *)
Definition popped (b : nat) (d : ide Dv) : ide Dv := done_buf b (set_idequeue (default None (qnext d !! b)) d).

Lemma popped_other b d j : j <> b -> ibufs (popped b d) !! j = ibufs d !! j.
Proof.
  intros Hj. unfold popped, done_buf. destruct (dirty _); cbn [ibufs upd_ibuf set_ibufs set_idev set_idequeue]; by rewrite !list_lookup_alter_ne.
Qed.

Lemma popped_self b d x : ibufs d !! b = Some x ->
  ibufs (popped b d) !! b =
  Some (set_flags (Z.land (Z.lor (b_flags x) B_VALID) (Z.lnot B_DIRTY)) (if dirty x then x else set_data (insl 0x1f0 (polled (idev d))).1 x)).
Proof.
  intros Hx. unfold popped, done_buf. rewrite (ibuf_Some _ b x) by exact Hx.
  destruct (dirty x); cbn [ibufs upd_ibuf set_ibufs set_idev set_idequeue]; by rewrite !list_lookup_alter_eq, Hx.
Qed.

Lemma popped_rest b d : qnext (popped b d) = qnext d /\ idequeue (popped b d) = default None (qnext d !! b) /\
  havedisk1 (popped b d) = havedisk1 d /\ length (ibufs (popped b d)) = length (ibufs d).
Proof. unfold popped, done_buf. destruct (dirty _); cbn; by rewrite !length_alter. Qed.

(** The end of [ideintr]: the sleepers are woken and the next request starts. *)
Lemma intr_tail b (d : ide Dv) ps c : (forall i, idequeue d = Some i -> 0 <= b_blockno (ibuf i d) < FSSIZE) ->
  (wakeup (ChBuf b);; q ← gets (fun s => idequeue (mdata s)); when (negb (bool_decide (q = None))) (idestart q);; release LIde)
    [LIde] (mkMon d ps) = turn_outcome c ps (kick (idequeue d) d, [ChBuf b], @Finish icall unit tt).
Proof.
  intros Hb. rewrite bind_unfold, wakeup_run by not_held. change (put_part ?t (mkMon d ps)) with (mkMon d t). repeat kstep_base. cbn [mdata mtable].
  destruct (idequeue d) as [i|] eqn:E; cbn [when negb bool_decide decide_rel].
  - rewrite bool_decide_eq_false_2 by done. cbn [negb when]. rewrite idestart_run by (by apply Hb). by rewrite release_top by not_held.
  - rewrite bool_decide_eq_true_2 by done. cbn [negb when]. rewrite mret_run. by rewrite release_top by not_held.
Qed.

Lemma ideintr_run (d : ide Dv) q ps c p : queue_ok d q -> cpu_proc ps = Some c -> procs ps !! c = Some p ->
  ideintr [] (mkMon d ps) = turn_outcome c ps (i_act p IIntr d).
Proof.
  intros Hq Hc Hp. unfold ideintr, getd, modd. repeat kstep_base. cbn [mdata i_act]. destruct q as [|b q].
  { rewrite (qo_path _ _ Hq). by rewrite release_top by not_held. }
  destruct (qo_path _ _ Hq) as [-> Hpath]. repeat kstep_base. cbn [mdata mtable].
  unfold finish. fold (popped b d).
  assert (forall i, idequeue (popped b d) = Some i -> 0 <= b_blockno (ibuf i (popped b d)) < FSSIZE) as Hb.
  { destruct (popped_rest b d) as (_ & -> & _). intros i Hi. rewrite Hi in Hpath. destruct q as [|j q]; [done|]. destruct Hpath as [[= <-] _].
    destruct (qo_want _ _ Hq i) as (x & Hx & W); [right; left|]. pose proof (qo_nodup _ _ Hq) as [Hn _]%NoDup_cons.
    rewrite (ibuf_Some _ i x); [apply W|]. rewrite popped_other by (intros ->; apply Hn; left). done. }
  rewrite <- (intr_tail b (popped b d) ps c Hb). clear Hb. unfold popped, done_buf. set (d1 := set_idequeue _ d). unfold dirty.
  destruct (Z.land _ _ =? 0); cbn [negb].
  - repeat kstep_base. rewrite idewait_run. cbn [Z.leb Z.compare when]. repeat kstep_base. cbn [mdata mtable idev set_idev]. done.
  - repeat kstep_base. cbn [mdata mtable]. done.
Qed.

(** ** The queue after each turn *)

Lemma kick_rest o d : ibufs (kick o d) = ibufs d /\ qnext (kick o d) = qnext d /\ idequeue (kick o d) = idequeue d /\ havedisk1 (kick o d) = havedisk1 d.
Proof. by destruct o. Qed.

(** A state with the queue in place and its head just started. *)
Lemma queue_kick (d : ide Dv) q :
  qpath (qnext d) (idequeue d) q -> NoDup q -> length (qnext d) = length (ibufs d) ->
  (forall i, i ∈ q -> exists x, ibufs d !! i = Some x /\ wanted x) -> havedisk1 d <> 0 -> queue_ok (kick (idequeue d) d) q.
Proof.
  intros Hp Hn Hl Hw Hd. destruct (kick_rest (idequeue d) d) as (E1 & E2 & E3 & E4). split; rewrite ?E1, ?E2, ?E3, ?E4; try done.
  intros i Hi. destruct q as [|j q]; [done|]. injection Hi as ->. destruct Hp as [Hq _].
  destruct (Hw i) as (x & Hx & W); [by left|]. assert (ibuf i (kick (idequeue d) d) = x) as -> by (apply ibuf_Some; by rewrite E1).
  rewrite Hq. cbn [kick idev set_idev]. rewrite (ibuf_Some d i x Hx). apply commanded_spec; apply W.
Qed.

Lemma enqueue_ok d q i x : queue_ok d q -> ibufs d !! i = Some x -> wanted x -> i ∉ q ->
  queue_ok (enqueue i d) (q ++ [i]) /\ ibufs (enqueue i d) = ibufs d /\
  idev (enqueue i d) = match q with [] => commanded x (idev d) | _ => idev d end.
Proof.
  intros Hq Hx W Hi. destruct (cleared_queue d q i Hq Hi) as [Hpath Hlist]. unfold enqueue. cbv zeta. rewrite Hlist. clear Hlist.
  pose proof Hq as [_ Hn Hl Hw Hd Hdev]. pose proof (lookup_lt_Some _ _ _ Hx) as Hlt.
  assert (forall j, j ∈ q ++ [i] -> exists y, ibufs d !! j = Some y /\ wanted y) as Hw'.
  { intros j [Hj| ->%list_elem_of_singleton]%elem_of_app; [by apply Hw|by exists x]. }
  assert (NoDup (q ++ [i])) as Hn' by (apply NoDup_app; split_and!; [done|by intros j Hj ->%list_elem_of_singleton|apply NoDup_singleton]).
  destruct q as [|j q].
  - cbn [last put_pp idequeue set_idequeue set_qnext]. rewrite bool_decide_eq_true_2 by done. set (d2 := set_idequeue (Some i) _).
    split_and!; [|done|cbn; by rewrite (ibuf_Some d2 i x)].
    apply (queue_kick d2 [i]); try done; cbn; [|by rewrite length_insert]. split; [done|]. by rewrite list_lookup_insert_eq by lia.
  - destruct (last (j :: q)) as [k|] eqn:Hk; [|by apply last_None in Hk].
    assert (k ∈ j :: q) as Hkin by (by apply last_Some_elem_of). destruct (Hw k Hkin) as (y & Hy%lookup_lt_Some & _).
    pose proof Hpath as [Hq0 _]. cbn [put_pp idequeue set_idequeue set_qnext] in *. rewrite Hq0, bool_decide_eq_false_2
      by (intros [= ->]; apply Hi; left). split_and!; [|done|done]. split; cbn [qnext idequeue ibufs havedisk1 idev set_qnext]; try done.
    + apply qpath_snoc; try done; [by rewrite list_lookup_insert_eq by lia|]. rewrite length_insert. lia.
    + by rewrite !length_insert.
Qed.

(** Nothing else of the driver's data changes when a buffer outside the queue does. *)
Lemma use_ok d q i x : queue_ok d q -> i ∉ q -> queue_ok (set_ibufs (<[i := x]> (ibufs d)) d) q.
Proof.
  intros [Hp Hn Hl Hw Hd Hdev] Hi. split; cbn; try done.
  - by rewrite length_insert.
  - intros j Hj. rewrite list_lookup_insert_ne by (intros ->; done). by apply Hw.
  - intros j Hj. specialize (Hdev j Hj). destruct q as [|k q]; [done|]. injection Hj as ->. apply not_elem_of_cons in Hi as [Hij _].
    unfold ibuf in *. cbn. by rewrite list_lookup_insert_ne.
Qed.

Lemma finish_ok d b q : queue_ok d (b :: q) -> queue_ok (finish b d) q.
Proof.
  intros Hq. pose proof Hq as [[Hb Hp] Hn Hl Hw Hd _]. apply NoDup_cons in Hn as [Hnb Hn]. unfold finish. fold (popped b d).
  destruct (popped_rest b d) as (E1 & E2 & E3 & E4). apply queue_kick; rewrite ?E1, ?E2, ?E3, ?E4; try done.
  intros j Hj. rewrite popped_other by (intros ->; done). apply Hw. by right.
Qed.

(** ** The driver as a monitor *)

Lemma i_wake_run c (d : ide Dv) ps i p : i_wok c -> cpu_proc ps = Some i -> procs ps !! i = Some p ->
  i_wake c [LPtable] (mkMon d ps) = turn_outcome i (upd i (set_chan None) ps) (i_act p c d).
Proof.
  intros [b ->] Hi Hp. cbn [i_wake i_act]. unfold iderw_wake. rewrite bind_unfold, (sleep_return_run _ _ i p) by done.
  change (put_part ?t (mkMon d ps)) with (mkMon d t). apply iderw_loop_run with (set_chan None p); [done|].
  by rewrite upd_lookup, decide_True, Hp by done.
Qed.

Lemma i_act_wait p c d d' chs ch c' : i_act p c d = (d', chs, Wait ch c') ->
  exists i, c' = IWait i /\ ch = ChBuf i /\ busy (ibuf i d') = true /\ (c = IRw i \/ c = IWait i /\ d' = d).
Proof.
  destruct c as [i|i| |i x]; cbn [i_act]; unfold wait_for.
  - destruct (busy _) eqn:E; [|done]. intros [= <- <- <- <-]. exists i. repeat split; eauto.
  - destruct (busy _) eqn:E; [|done]. intros [= <- <- <- <-]. exists i. split_and!; try done. by right.
  - by destruct (idequeue d).
  - done.
Qed.

(** A turn that does not wake the waiters of buffer [i] leaves it as it was for them. *)
Lemma i_act_busy q c d d1 chs t i : (exists l, queue_ok d l) -> i_tok q c d -> i_act q c d = (d1, chs, t) -> ChBuf i ∉ chs ->
  busy (ibuf i d) = true -> busy (ibuf i d1) = true.
Proof.
  intros [l Hl] Htok Hact Hch Hb. destruct c as [j|j| |j x]; cbn [i_act] in Hact.
  - injection Hact as <- _ _. destruct Htok as (x & Hx & W & _ & Hnin).
    destruct (enqueue_ok d l j x Hl Hx W (Hnin l Hl)) as (_ & E & _). unfold ibuf in *. by rewrite E.
  - by injection Hact as <- _ _.
  - destruct (idequeue d) as [b|]; injection Hact as <- <- _; [|done].
    assert (i <> b) by (intros ->; apply Hch; left). unfold finish. fold (popped b d). unfold ibuf in *.
    rewrite (proj1 (kick_rest _ _)), popped_other by done. done.
  - injection Hact as <- _ _. destruct Htok as [Hx _]. unfold ibuf in *. cbn [ibufs set_ibufs]. destruct (decide (j = i)) as [<-|Hij].
    + destruct (decide (j < length (ibufs d))%nat); [by rewrite list_lookup_insert_eq; auto|]. by rewrite list_insert_ge by lia.
    + by rewrite list_lookup_insert_ne.
Qed.

#[export, refine] Instance ide_monitor : Monitor (ide Dv) icall unit := {|
  act := i_act; tok := i_tok; mon_call := i_call; mon_wake := i_wake;
  dok d := exists q, queue_ok d q; cok _ := True; wok := i_wok |}.
Proof.
  - intros c d ps i p _ [q Hq] Htok Hi Hp. destruct c as [b|b| |b x]; cbn [i_call].
    + by eapply iderw_run.
    + rewrite bind_unfold, acquire_free by not_held. by apply iderw_loop_run with p.
    + by eapply ideintr_run.
    + done.
  - intros c d ps i p Hw _ _. by apply i_wake_run.
  - intros p q c d [_ Hpid]. split; [done|]. destruct c; [|done..]. cbn [i_tok]. by rewrite Hpid.
  - intros p c d d' chs t _ [q Hq] Htok Hact. destruct c as [i|i| |i x]; cbn [i_act i_tok] in *.
    + destruct Htok as (x & Hx & W & _ & Hnin). injection Hact as <- _ _. exists (q ++ [i]). by eapply enqueue_ok; [| |done|apply Hnin].
    + injection Hact as <- _ _. by exists q.
    + destruct (idequeue d) as [b|] eqn:E; injection Hact as <- _ _; [|by exists q]. destruct q as [|b' q].
      { by rewrite (qo_path _ _ Hq) in E. }
      assert (b' = b) as -> by (destruct (qo_path _ _ Hq) as [E' _]; congruence). exists q. by apply finish_ok.
    + injection Hact as <- _ _. exists q. apply use_ok; [done|]. by apply Htok.
  - intros p c d d' chs ch c' _ _ Hact. apply i_act_wait in Hact as (i & -> & _). split; [done|by exists i].
  - intros p c d d' chs ch c' _ _ Hact. apply i_act_wait in Hact as (i & -> & -> & Hb & _). exists []. cbn. unfold wait_for. by rewrite Hb.
  - intros p c d chs ch q c1 d1 chs1 t1 _ _ Hd Htok Hact Hact1 Hch. pose proof Hact as (i & -> & -> & Hb & _)%i_act_wait.
    exists []. cbn. unfold wait_for. by rewrite (i_act_busy q c1 d d1 chs1 t1).
Defined.

(** ** The driver of memide.c as the specification *)

(** One call of [iderw] of memide.c for buffer [i], by the process that holds it. *)
Definition owner_table (n : Z) : pstate := set_cpu_proc (Some 0%nat) (set_procs [set_pid n (set_state RUNNING proc0)] pstate0).
Definition memide (i : nat) (b : bst) : bst :=
  match Bio.iderw i [] (put_part (owner_table (spid (b_lock (get_buf i b)))) b) with
  | Ret _ _ b' => b'
  | _ => b
  end.

(** The buffers, the disk and the requests not yet served after a history: an
    interrupt serves the oldest request with a call of [memide]. *)
Definition memide_event (st : bst * list nat) (e : mevent (ide Dv) icall unit) : bst * list nat :=
  let '(b, q) := st in
  match ev_call e with
  | IRw i => (b, q ++ [i])
  | IWait _ => (b, q)
  | IIntr => match q with [] => (b, []) | i :: q => (memide i b, q) end
  | IUse i x => (set_bufs (<[i := x]> (bufs b)) b, q)
  end.
Definition memide_run (b : bst) (tr : list (mevent (ide Dv) icall unit)) : bst * list nat := fold_left memide_event tr (b, []).

Lemma memide_run_snoc b tr e : memide_run b (tr ++ [e]) = memide_event (memide_run b tr) e.
Proof. unfold memide_run. by rewrite fold_left_app. Qed.

Lemma flags_done f : Z.lor (Z.land f (Z.lnot B_DIRTY)) B_VALID = Z.land (Z.lor f B_VALID) (Z.lnot B_DIRTY) /\
  (Z.land f B_DIRTY = 0 -> Z.land (Z.lor f B_VALID) (Z.lnot B_DIRTY) = Z.lor f B_VALID).
Proof.
  assert (Z.lor (Z.land f (Z.lnot B_DIRTY)) B_VALID = Z.land (Z.lor f B_VALID) (Z.lnot B_DIRTY)) as H by (by rewrite Z.land_lor_distr_l).
  split; [done|]. intros H0. rewrite <- H. f_equal. rewrite <- Z.ldiff_land. apply Z.bits_inj'. intros n Hn.
  apply (f_equal (fun z => Z.testbit z n)) in H0. rewrite Z.land_spec, Z.testbit_0_l in H0. rewrite Z.ldiff_spec.
  destruct (Z.testbit f n), (Z.testbit B_DIRTY n); done.
Qed.

Lemma memide_spec i b x : bufs b !! i = Some x -> wanted x -> FSSIZE <= disksize b ->
  bufs (memide i b) = <[i := set_flags (Z.land (Z.lor (b_flags x) B_VALID) (Z.lnot B_DIRTY)) (if dirty x then x else set_data (disk b (b_blockno x)) x)]> (bufs b) /\
  disk (memide i b) = (if dirty x then wr (b_blockno x) (b_data x) (disk b) else disk b) /\ disksize (memide i b) = disksize b.
Proof.
  intros Hx W Hsize. pose proof W as [Hbusy Hdev Hblk _ Hlock]. unfold memide. assert (get_buf i b = x) as Eb by (unfold get_buf; by rewrite Hx).
  set (b1 := put_part _ b). assert (get_buf i b1 = x) as Eb1 by exact Eb.
  unfold Bio.iderw. rewrite bind_unfold. unfold holding_buf. rewrite (holdingsleep_held _ _ b1 (spid (b_lock x))).
  2: { exists 0%nat, (set_pid (spid (b_lock x)) (set_state RUNNING proc0)). unfold b1. rewrite Eb. by split_and!. }
  2: { unfold lock_of. rewrite Eb1. destruct (b_lock x); cbn in *; by subst. }
  cbn [negb]. repeat kstep_base. rewrite Eb1. unfold busy in Hbusy. apply negb_true_iff in Hbusy. rewrite Hbusy, Hdev. cbn [Z.eqb Pos.eqb negb].
  repeat kstep_base. change (disksize b1) with (disksize b). rewrite (proj2 (Z.leb_gt _ _)) by lia. fold (dirty x). destruct (flags_done (b_flags x)) as [F1 F2].
  destruct (dirty x) eqn:E; repeat kstep_base; cbn [bufs upd_buf set_bufs set_disk disk disksize]; (split; [|done]).
  - change (bufs b1) with (bufs b). apply list_eq. intros j. destruct (decide (i = j)) as [<-|].
    + rewrite !list_lookup_alter_eq, Hx, list_lookup_insert_eq by (by eapply lookup_lt_Some). cbn. by rewrite F1.
    + by rewrite !list_lookup_alter_ne, list_lookup_insert_ne.
  - change (bufs b1) with (bufs b). change (disk b1) with (disk b). apply list_eq. intros j. destruct (decide (i = j)) as [<-|].
    + rewrite !list_lookup_alter_eq, Hx, list_lookup_insert_eq by (by eapply lookup_lt_Some). cbn. rewrite F2; [done|].
      unfold dirty in E. apply negb_false_iff, Z.eqb_eq in E. done.
    + by rewrite !list_lookup_alter_ne, list_lookup_insert_ne.
Qed.

(** The sectors of disk 1, when the blocks are [D] and the head of the queue
    may be a write the controller already has. *)
Definition on_disk (d : ide Dv) (q : list nat) (D : Z -> block) (n : Z) : block :=
  match q with
  | i :: _ => if dirty (ibuf i d) && (n =? b_blockno (ibuf i d)) then b_data (ibuf i d) else D n
  | [] => D n
  end.

Record refines (b : bst) (q : list nat) (d : ide Dv) : Prop := {
  rf_bufs : ibufs d = bufs b;
  rf_queue : queue_ok d q;
  rf_size : FSSIZE <= disksize b;
  rf_disk : forall n, sectors (idev d) 1 n = on_disk d q (disk b) n }.

Lemma on_disk_ext d d' q D D' n : ibufs d' = ibufs d -> D' n = D n -> on_disk d' q D' n = on_disk d q D n.
Proof. intros E1 E2. unfold on_disk, ibuf. by rewrite E1, E2. Qed.

Lemma kick_disk d q n : qpath (qnext d) (idequeue d) q -> (forall i, i ∈ q -> exists x, ibufs d !! i = Some x /\ wanted x) ->
  sectors (idev (kick (idequeue d) d)) 1 n = on_disk d q (sectors (idev d) 1) n.
Proof.
  intros Hq Hw. destruct q as [|i q]; cbn in Hq; [by rewrite Hq|]. destruct Hq as [-> _]. destruct (Hw i) as (x & Hx & W); [by left|].
  cbn [kick idev set_idev on_disk]. rewrite (ibuf_Some d i x Hx). by apply commanded_spec; apply W.
Qed.

Lemma refines_enqueue b q d i x : refines b q d -> ibufs d !! i = Some x -> wanted x -> i ∉ q -> refines b (q ++ [i]) (enqueue i d).
Proof.
  intros [Hb Hq Hs Hd] Hx W Hi. destruct (enqueue_ok d q i x Hq Hx W Hi) as (Hq' & E1 & E2). split; try done; [by rewrite E1|].
  intros n. rewrite E2. destruct q as [|j q]; cbn [app on_disk].
  - unfold ibuf. rewrite E1, Hx. cbn [default]. rewrite (proj2 (commanded_spec x (idev d) (wa_block _ W) (wa_dev _ W) (wa_len _ W))), Hd. done.
  - rewrite Hd. unfold on_disk, ibuf. by rewrite E1.
Qed.

(** What [ideintr] gets from the controller. *)
Lemma popped_disk b q d i x : refines b (i :: q) d -> ibufs d !! i = Some x ->
  (forall n, sectors (idev (popped i d)) 1 n = sectors (idev d) 1 n) /\
  (dirty x = false -> (insl 0x1f0 (polled (idev d))).1 = disk b (b_blockno x)).
Proof.
  intros [Hb Hq Hs Hd] Hx. pose proof (qo_dev _ _ Hq i eq_refl) as Hph. rewrite (ibuf_Some d i x Hx) in Hph.
  destruct (polled_ready (idev d)) as (D0 & _ & Hp & S0). unfold popped, done_buf. rewrite (ibuf_Some _ i x) by exact Hx.
  destruct (dirty x) eqn:E; [by split|]. rewrite Hph in Hp. pose proof (ata_insl _ _ _ D0 Hp) as H.
  cbn [idev upd_ibuf set_ibufs set_idev set_idequeue]. destruct (insl 0x1f0 (polled (idev d))) as [y e]. destruct H as [-> He]. cbn [fst snd].
  split; [intros n; congruence|]. intros _. rewrite S0, Hd. cbn [on_disk]. by rewrite (ibuf_Some d i x Hx), E.
Qed.

Lemma refines_finish b q d i : refines b (i :: q) d -> refines (memide i b) q (finish i d).
Proof.
  intros R. pose proof R as [Hb Hq Hs Hd]. destruct (qo_want _ _ Hq i) as (x & Hx & W); [by left|].
  pose proof Hq as [[_ Hpath] Hn _ Hw _ _]. apply NoDup_cons in Hn as [Hni _].
  destruct (memide_spec i b x) as (B1 & B2 & B3); [by rewrite <- Hb|done|done|]. destruct (popped_disk b q d i x R Hx) as [Hsec Hread].
  assert (ibufs (popped i d) = bufs (memide i b)) as Hbufs.
  { rewrite B1, <- Hb. apply list_eq. intros j. destruct (decide (i = j)) as [<-|].
    - rewrite (popped_self i d x Hx), list_lookup_insert_eq by (by eapply lookup_lt_Some). do 2 f_equal. destruct (dirty x); [done|]. by rewrite Hread.
    - by rewrite popped_other, list_lookup_insert_ne by done. }
  destruct (popped_rest i d) as (E1 & E2 & _). destruct (kick_rest (idequeue (popped i d)) (popped i d)) as (K1 & _).
  split; [|by apply finish_ok|lia|]; unfold finish; fold (popped i d).
  - by rewrite K1.
  - intros n. rewrite (kick_disk (popped i d) q); [|by rewrite E1, E2|].
    + apply on_disk_ext; [by rewrite K1|]. rewrite Hsec, Hd, B2. cbn [on_disk]. rewrite (ibuf_Some d i x Hx). destruct (dirty x); [|done].
      cbn [andb]. unfold wr. by rewrite Z.eqb_sym.
    + intros j Hj. rewrite popped_other by (intros ->; done). apply Hw. by right.
Qed.

Lemma refines_act b0 i p c d tr d' chs t : i_tok p c d -> (let '(b, q) := memide_run b0 tr in refines b q d) -> i_act p c d = (d', chs, t) ->
  let '(b, q) := memide_run b0 (tr ++ [mkMevent i c d d' t]) in refines b q d'.
Proof.
  intros Htok R Hact. rewrite memide_run_snoc. destruct (memide_run b0 tr) as [b q]. unfold memide_event. cbn [ev_call].
  pose proof (rf_queue _ _ _ R) as Hq. destruct c as [j|j| |j x]; cbn [i_act i_tok] in *.
  - injection Hact as <- _ _. destruct Htok as (x & Hx & W & _ & Hnin). by eapply refines_enqueue; [..|apply Hnin].
  - by injection Hact as <- _ _.
  - destruct q as [|k q]; [rewrite (qo_path _ _ Hq) in Hact; by injection Hact as <- _ _|].
    destruct (qo_path _ _ Hq) as [E _]. rewrite E in Hact. injection Hact as <- _ _. by apply refines_finish.
  - injection Hact as <- _ _. pose proof (proj2 Htok q Hq) as Hj. destruct R as [Hb _ Hs Hd]. split; cbn; [by rewrite Hb|by apply use_ok|done|].
    intros n. rewrite Hd. destruct q as [|k q]; [done|]. apply not_elem_of_cons in Hj as [Hjk _]. cbn [on_disk]. unfold ibuf. cbn.
    by rewrite list_lookup_insert_ne.
Qed.
End driver.

(** C5: the IDE driver serves requests like the disk in memory of memide.c.
    After any history of calls of [iderw] by many processes, interrupts, and
    uses of buffers by the code that holds them, the buffers are those of a
    run in which each interrupt made one call of memide.c's [iderw] for the
    oldest request; the disk has the blocks of that run, apart from a write
    that the controller already has and whose interrupt is still to come.
    The calls return or sleep: none panics or spins.  A process asleep in
    [iderw] waits on its buffer's channel and the buffer is not valid yet: no
    wakeup is lost. *)
Theorem ide_refines_memide {Dv} `{!Ata Dv} (d0 : ide Dv) ps0 b0 s :
  queue_ok d0 [] -> ibufs d0 = bufs b0 -> FSSIZE <= disksize b0 -> (forall n, sectors (idev d0) 1 n = disk b0 n) ->
  mreach d0 ps0 s ->
  let d := mdata (mstate s) in let t := mtable (mstate s) in
  (let '(b, q) := memide_run b0 (mtrace s) in
   ibufs d = bufs b /\ qpath (qnext d) (idequeue d) q /\ forall n, sectors (idev d) 1 n = on_disk d q (disk b) n) /\
  (forall i p c, procs t !! i = Some p -> i_tok p c d ->
     completes (i_call c [] (mkMon d (running_on i t))) /\
     (mwaiting s !! i = Some c -> completes (i_wake c [LPtable] (mkMon d (scheduled i t))))) /\
  (forall i p j, mwaiting s !! i = Some (IWait j) -> procs t !! i = Some p -> state p = SLEEPING ->
     pchan p = Some (ChBuf j) /\ busy (ibuf j d) = true).
Proof.
  intros Hq Hb Hs Hd Hr d t. assert (exists q, queue_ok d0 q) as Hok by (by exists []). split_and!.
  - assert (minv (fun d tr => let '(b, q) := memide_run b0 tr in refines b q d) s) as Hinv.
    { eapply (mreach_inv (fun d tr => let '(b, q) := memide_run b0 tr in refines b q d)); [|exact Hok|by split|exact Hr].
      intros i p c e tr d' chs u _ _ Htok HJ Hact. exact (refines_act b0 i p c e tr d' chs u Htok HJ Hact). }
    pose proof (mi_trace _ _ Hinv) as HJ. cbv beta in HJ. destruct (memide_run b0 (mtrace s)) as [b q]. destruct HJ as [H1 [H2 _ _ _ _ _] _ H4]. by split_and!.
  - intros i p c Hp Htok. destruct (@monitor_calls_complete _ _ _ ide_monitor d0 ps0 s i c p Hok Hr Hp Htok) as [H1 H2]. split; [by apply H1|done].
  - intros i p j Hi Hp Hst. destruct (@monitor_no_lost_wakeup _ _ _ ide_monitor d0 ps0 s i (IWait j) p Hok Hr Hi Hp Hst) as (ch & Hch & chs & Hact).
    cbn [act ide_monitor] in Hact. apply i_act_wait in Hact as (k & [= <-] & -> & Hbusy & _). done.
Qed.

(** ** An example: a controller, a write and a read of the same block *)

Record adev : Type := mkAdev { a_delay : nat; a_regs : Z -> Z; a_phase : aphase; a_sectors : Z -> Z -> block }.

Definition adev_out (p v : Z) (d : adev) : adev :=
  if p =? 0x1f7 then
    mkAdev 2 (a_regs d)
      ((if v =? IDE_CMD_READ then Reading else Writing) (sel_drive (a_regs d)) (sel_sector (a_regs d))) (a_sectors d)
  else if p =? 0x3f6 then d
  else mkAdev (a_delay d) (fun q => if q =? p then v else a_regs d q) (a_phase d) (a_sectors d).

#[export, refine] Instance adev_ata : Ata adev := {|
  inb _ d := (if decide (a_delay d = O) then 0x50 else 0xd0, mkAdev (pred (a_delay d)) (a_regs d) (a_phase d) (a_sectors d));
  outb := adev_out;
  insl _ d := match a_phase d with
              | Reading v n => (a_sectors d v n, mkAdev 0 (a_regs d) Idle (a_sectors d))
              | _ => ([], d)
              end;
  outsl _ x d := match a_phase d with
                 | Writing v n => mkAdev 1 (a_regs d) Wrote (fun v' n' => if (v' =? v) && (n' =? n) then x else a_sectors d v' n')
                 | _ => d
                 end;
  delay := a_delay; regs := a_regs; phase := a_phase; sectors := a_sectors |}.
Proof.
  - intros d. destruct (decide (a_delay d = O)) as [E|E]; cbn; split_and!; try done.
  - done.
  - intros p v d Hp Hv Hd. unfold adev_out. rewrite (proj2 (Z.eqb_neq p 0x1f7)), (proj2 (Z.eqb_neq p 0x3f6)) by lia. done.
  - done.
  - done.
  - intros d v n _ ->. done.
  - intros d v n x -> _. done.
Defined.

Definition ide_proc (n : Z) : proc := set_pid n (set_state RUNNING proc0).
Definition ide_procs : pstate := set_procs [ide_proc 1; ide_proc 2; ide_proc 3] pstate0.
Definition ide_bufs : list buf :=
  [mkBuf 6 1 5 (mkSleeplock 1 1) 1 (replicate 512 7); mkBuf 0 1 5 (mkSleeplock 1 2) 1 (replicate 512 0)].
Definition ide_start : ide adev := mkIde ide_bufs [None; None] None 1 (mkAdev 0 (fun _ => 0) Idle (fun _ _ => replicate 512 0)).
Definition ide_bst : bst := mkBst ide_bufs [] [] (fun _ => replicate 512 0) 1000 [] pstate0.

Definition ide_s0 : msys (ide adev) icall unit := mkMsys (mkMon ide_start ide_procs) ∅ [].
Definition ide_s1 := do_call 0 (IRw 0) ide_s0.
Definition ide_s2 := do_call 1 (IRw 1) ide_s1.
Definition ide_s3 := do_call 2 IIntr ide_s2.
Definition ide_s4 := do_call 2 IIntr ide_s3.

Lemma ide_start_ok : queue_ok ide_start [].
Proof. split; try done; [constructor|by intros i ?%not_elem_of_nil]. Qed.

Lemma ide_reach : mreach ide_start ide_procs ide_s4.
Proof.
  assert (forall i x, ide_bufs !! i = Some x -> wanted x) as Hw.
  { intros [|[|i]] x [= <-]; split; try done; apply length_replicate. }
  unfold mreach. fold ide_s0. transitivity ide_s1.
  { apply do_call_step with (ide_proc 1); try done. cbn. eexists. split_and!; [done|by apply (Hw 0%nat)|done|].
    intros [|j q] [Hp _ _ _ _ _]; [apply not_elem_of_nil|by destruct Hp]. }
  transitivity ide_s2.
  { apply do_call_step with (ide_proc 2); try reflexivity. exists (mkBuf 0 1 5 (mkSleeplock 1 2) 1 (replicate 512 0)).
    split_and!; [reflexivity|by apply (Hw 1%nat)|reflexivity|]. intros q [Hp _ _ _ _ _].
    destruct q as [|j q]; [apply not_elem_of_nil|]. destruct Hp as [E Hp]. change (idequeue _) with (Some 0%nat) in E. injection E as <-.
    destruct q as [|j q]; [by intros ?%list_elem_of_singleton|]. destruct Hp as [E _]. discriminate E. }
  transitivity ide_s3; apply do_call_step with (ide_proc 3); reflexivity || done.
Qed.

Lemma ide_refines_memide_witness :
  mreach ide_start ide_procs ide_s4 /\ b_data (ibuf 1 (mdata (mstate ide_s4))) = replicate 512 7.
Proof.
  destruct (ide_refines_memide ide_start ide_procs ide_bst ide_s4) as [H _].
  - apply ide_start_ok.
  - reflexivity.
  - unfold FSSIZE. cbn. lia.
  - reflexivity.
  - apply ide_reach.
  - split; [apply ide_reach|]. destruct (memide_run ide_bst (mtrace ide_s4)) as [b q] eqn:E. destruct H as (H & _).
    unfold ibuf. rewrite H. apply (f_equal fst) in E. cbn [fst] in E. rewrite <- E. vm_compute. reflexivity.
Defined.
