(* ===== verification/Boot.v ===== *)
(** * The boot loader (src/bootmain.c)

    [bootmain] reads the kernel from the disk, sector by sector, through the
    ports of the controller, which is the parameter [Ata] of the file Ide.  It
    runs in physical memory, before paging. *)

From Stdlib Require Import ZArith Lia String.
From stdpp Require Import prelude numbers strings option gmap list.
From S2P Require Import Prelude Kernel Mem Sched Bio Ide.

Definition SECTSIZE : Z := 512.
Definition ELF_MAGIC : Z := 0x464C457F.

(** Memory and the controller. *)
Record bootst (Dv : Type) : Type := mkBoot {
  bmem : mem;
  bdev : Dv }.
Arguments mkBoot {Dv}.
Arguments bmem {Dv}.
Arguments bdev {Dv}.

(** The fields of [struct elfhdr] and [struct proghdr] in memory. *)
Definition m_magic (m : mem) (a : Z) : Z := load32 m a.
Definition m_entry (m : mem) (a : Z) : Z := load32 m (a + 24).
Definition m_phoff (m : mem) (a : Z) : Z := load32 m (a + 28).
Definition m_phnum (m : mem) (a : Z) : Z := of_le (load_bytes m (a + 44) 2).
Definition sizeof_proghdr : Z := 32.
Definition m_off (m : mem) (a : Z) : Z := load32 m (a + 4).
Definition m_paddr (m : mem) (a : Z) : Z := load32 m (a + 12).
Definition m_filesz (m : mem) (a : Z) : Z := load32 m (a + 16).
Definition m_memsz (m : mem) (a : Z) : Z := load32 m (a + 20).

Section boot.
Context {Dv : Type} `{!Ata Dv}.

Definition set_bmem (v : mem) (s : bootst Dv) : bootst Dv := mkBoot v (bdev s).
Definition set_bdev (v : Dv) (s : bootst Dv) : bootst Dv := mkBoot (bmem s) v.

Definition in_byte (p : Z) : K (bootst Dv) Z := d ← gets bdev; modify (set_bdev (inb p d).2);; mret (inb p d).1.
Definition out_byte (p v : Z) : K (bootst Dv) unit := modify (fun s => set_bdev (outb p (u8 v) (bdev s)) s).

Fixpoint waitdisk_loop (fuel : nat) : K (bootst Dv) unit :=
  match fuel with
  | O => spin
  | S fuel =>
      v ← in_byte 0x1F7;
      if negb (Z.land v 0xC0 =? 0x40) then waitdisk_loop fuel else mret ()
  end.
Definition waitdisk : K (bootst Dv) unit := d ← gets bdev; waitdisk_loop (S (delay d)).

Definition readsect (dst offset : Z) : K (bootst Dv) unit :=
  waitdisk;;
  out_byte 0x1F2 1;;
  out_byte 0x1F3 offset;;
  out_byte 0x1F4 (Z.shiftr offset 8);;
  out_byte 0x1F5 (Z.shiftr offset 16);;
  out_byte 0x1F6 (Z.lor (Z.shiftr offset 24) 0xE0);;
  out_byte 0x1F7 0x20;;
  waitdisk;;
  d ← gets bdev;
  modify (set_bdev (insl 0x1F0 d).2);;
  modify (fun s => set_bmem (store_bytes (bmem s) dst (insl 0x1F0 d).1) s).

(** The loop of [readseg]; it takes [count / 512 + 2] rounds at most. *)
Fixpoint readseg_loop (fuel : nat) (pa epa offset : Z) : K (bootst Dv) unit :=
  if negb (pa <? epa) then mret ()
  else
    match fuel with
    | O => spin
    | S fuel => readsect pa offset;; readseg_loop fuel (u32 (pa + SECTSIZE)) epa (u32 (offset + 1))
    end.
Definition readseg (pa count offset : Z) : K (bootst Dv) unit :=
  let epa := u32 (pa + count) in
  let pa := u32 (pa - offset mod SECTSIZE) in
  let offset := offset / SECTSIZE + 1 in
  readseg_loop (Z.to_nat (count / SECTSIZE + 2)) pa epa offset.

(** The loop over the program headers, [n] of them. *)
Fixpoint load_phs (n : nat) (ph : Z) : K (bootst Dv) unit :=
  match n with
  | O => mret ()
  | S n =>
      m ← gets bmem;
      let pa := m_paddr m ph in
      readseg pa (m_filesz m ph) (m_off m ph);;
      m ← gets bmem;
      when (m_filesz m ph <? m_memsz m ph)
        (modify (fun s => set_bmem (stosb (bmem s) (u32 (pa + m_filesz m ph)) 0 (m_memsz m ph - m_filesz m ph)) s));;
      load_phs n (u32 (ph + sizeof_proghdr))
  end.

(** The address of the entry point, where the loader jumps and does not come
    back, or [None] when it returns to bootasm.S. *)
Definition bootmain : K (bootst Dv) (option Z) :=
  let elf := 0x10000 in
  readseg elf 4096 0;;
  m ← gets bmem;
  if negb (m_magic m elf =? ELF_MAGIC) then mret None
  else
    load_phs (Z.to_nat (m_phnum m elf)) (u32 (elf + m_phoff m elf));;
    m ← gets bmem;
    mret (Some (m_entry m elf)).

(** ** Reading a sector *)

Lemma waitdisk_run h (s : bootst Dv) : waitdisk h s = Ret tt h (set_bdev (polled (bdev s)) s).
Proof.
  unfold waitdisk, polled. repeat kstep_base. remember (delay (bdev s)) as n eqn:E. revert s E. induction n as [|n IH]; intros s E; cbn [waitdisk_loop polled_];
    unfold in_byte; repeat kstep_base; pose proof (ata_status (bdev s)) as H; destruct (inb 0x1f7 (bdev s)) as [v d']; destruct H as (Hv & _ & Hd & _); cbn [fst snd];
    change (Z.lor IDE_BSY IDE_DRDY) with 0xC0 in Hv; change IDE_DRDY with 0x40 in Hv; rewrite <- E in *.
  - by rewrite (proj2 Hv).
  - rewrite (proj2 (Z.eqb_neq _ _)) by (rewrite Hv; done). cbn [negb]. exact (IH (set_bdev d' s) ltac:(by cbn; rewrite Hd)).
Qed.

Lemma sector_split n : 0 <= n < 2 ^ 24 -> u8 n + Z.shiftl (u8 (Z.shiftr n 8)) 8 + Z.shiftl (u8 (Z.shiftr n 16)) 16 = n /\ Z.shiftr n 24 = 0.
Proof.
  intros Hn. unfold u8. rewrite !Z.shiftl_mul_pow2, !Z.shiftr_div_pow2 by lia. rewrite (Z.div_small n (2 ^ 24)) by lia. split; [|done].
  assert (0 <= n / 2 ^ 16 < 2 ^ 8) by (split; [apply Z.div_pos; lia|apply Z.div_lt_upper_bound; lia]). rewrite (Z.mod_small (n / 2 ^ 16)) by done.
  pose proof (Z.div_mod n (2 ^ 8)). pose proof (Z.div_mod (n / 2 ^ 8) (2 ^ 8)). replace (n / 2 ^ 16) with (n / 2 ^ 8 / 2 ^ 8) by (rewrite Z.div_div by lia; done). lia.
Qed.

Lemma readsect_run dst n h (s : bootst Dv) : 0 <= n < 2 ^ 24 -> exists d', sectors d' = sectors (bdev s) /\
  readsect dst n h s = Ret tt h (mkBoot (store_bytes (bmem s) dst (sectors (bdev s) 0 n)) d').
Proof.
  intros Hn. destruct (sector_split n Hn) as [Hs H24]. unfold readsect. rewrite bind_unfold, waitdisk_run. unfold out_byte. repeat kstep_base. rewrite waitdisk_run. repeat kstep_base.
  cbn [bdev bmem set_bdev set_bmem]. rewrite H24. change (u8 (Z.lor 0 0xE0)) with 0xE0. change (u8 1) with 1. change (u8 0x20) with IDE_CMD_READ.
  destruct (polled_ready (bdev s)) as (D1 & _ & _ & S1). set (e1 := polled (bdev s)) in *.
  destruct (ata_register 0x1f2 1 e1) as (D2 & R2 & _ & S2); [lia..|done|]. set (e2 := outb _ _ e1) in *.
  destruct (ata_register 0x1f3 (u8 n) e2) as (D3 & R3 & _ & S3); [lia|apply u8_bound|done|]. set (e3 := outb _ _ e2) in *.
  destruct (ata_register 0x1f4 (u8 (Z.shiftr n 8)) e3) as (D4 & R4 & _ & S4); [lia|apply u8_bound|done|]. set (e4 := outb _ _ e3) in *.
  destruct (ata_register 0x1f5 (u8 (Z.shiftr n 16)) e4) as (D5 & R5 & _ & S5); [lia|apply u8_bound|done|]. set (e5 := outb _ _ e4) in *.
  destruct (ata_register 0x1f6 0xE0 e5) as (D6 & R6 & _ & S6); [lia..|done|]. set (e6 := outb _ _ e5) in *.
  destruct (ata_read e6 D6) as (P7 & S7). { rewrite R6. cbn [Z.eqb Pos.eqb]. rewrite R5. cbn [Z.eqb Pos.eqb]. rewrite R4. cbn [Z.eqb Pos.eqb]. rewrite R3. cbn [Z.eqb Pos.eqb]. by rewrite R2. }
  assert (sel_drive (regs e6) = 0 /\ sel_sector (regs e6) = n) as [Ed Es].
  { unfold sel_drive, sel_sector. rewrite !R6. cbn [Z.eqb Pos.eqb]. rewrite !R5. cbn [Z.eqb Pos.eqb]. rewrite !R4. cbn [Z.eqb Pos.eqb]. rewrite !R3. cbn [Z.eqb Pos.eqb].
    split; [done|]. change (Z.shiftl (Z.land 224 15) 24) with 0. lia. }
  rewrite Ed, Es in P7. destruct (polled_ready (outb 0x1f7 IDE_CMD_READ e6)) as (D8 & _ & P8 & S8). rewrite P7 in P8.
  pose proof (ata_insl _ _ _ D8 P8) as H9. destruct (insl _ _) as [x d']. destruct H9 as [-> S9]. exists d'.
  assert (sectors (polled (outb 0x1f7 IDE_CMD_READ e6)) = sectors (bdev s)) as E by congruence. split; [congruence|]. cbn [fst snd]. by rewrite E.
Qed.

(** ** Reading a segment *)

(** The bytes [img] are on the disk from sector 1 on. *)
Definition on_disk (d : Dv) (img : mem) : Prop := forall k, 0 <= k < 2 ^ 24 - 1 -> sectors d 0 (k + 1) = load_bytes img (512 * k) 512.

Lemma store_sector m a img o x : store_bytes m a (load_bytes img o 512) x = if (a <=? x) && (x <? a + 512) then img (o + (x - a)) else m x.
Proof.
  unfold store_bytes. rewrite length_load_bytes. change (Z.of_nat (Z.to_nat 512)) with 512. destruct ((a <=? x) && _) eqn:E; [|done]. apply andb_true_iff in E as [?%Z.leb_le ?%Z.ltb_lt].
  unfold load_bytes. apply nth_lookup_Some. rewrite list_lookup_fmap, lookup_seqZ_lt by lia. cbn. do 2 f_equal. lia.
Qed.

Lemma readseg_loop_run img fuel : forall pa epa k h (s : bootst Dv), on_disk (bdev s) img -> 0 <= pa -> epa < 2 ^ 32 - 512 -> 0 <= k -> k + Z.of_nat fuel < 2 ^ 24 ->
  epa - pa <= 512 * Z.of_nat fuel ->
  exists m' d', readseg_loop fuel pa epa (k + 1) h s = Ret tt h (mkBoot m' d') /\ on_disk d' img /\
    (forall x, pa <= x < epa -> m' x = img (512 * k + (x - pa))) /\ (forall x, x < pa \/ epa + 511 <= x -> m' x = bmem s x).
Proof.
  induction fuel as [|fuel IH]; intros pa epa k h s Hd Hpa Hepa Hk Hf Hn; cbn [readseg_loop]; destruct (Z.ltb_spec pa epa); cbn [negb]; try lia.
  1, 3: exists (bmem s), (bdev s); split; [by destruct s|]; split_and!; [done|lia|done].
  destruct (readsect_run pa (k + 1) h s) as (d1 & S1 & R1); [lia|]. rewrite bind_unfold, R1. rewrite (Hd k) by lia. rewrite !u32_id by (unfold SECTSIZE; lia).
  replace (k + 1 + 1) with ((k + 1) + 1) by lia. unfold SECTSIZE.
  destruct (IH (pa + 512) epa (k + 1) h (mkBoot (store_bytes (bmem s) pa (load_bytes img (512 * k) 512)) d1)) as (m' & d' & R2 & D2 & M1 & M2);
    [by intros j Hj; cbn; rewrite S1; apply Hd|lia..|].
  exists m', d'. split; [exact R2|]. split; [done|]. cbn [bmem] in *. split.
  - intros x Hx. destruct (decide (pa + 512 <= x)); [rewrite M1 by lia; f_equal; lia|]. rewrite M2, store_sector by lia.
    by rewrite (proj2 (Z.leb_le _ _)), (proj2 (Z.ltb_lt _ _)) by lia.
  - intros x Hx. rewrite M2 by lia. rewrite store_sector. destruct (Z.leb_spec pa x), (Z.ltb_spec x (pa + 512)); cbn [andb]; (done || lia).
Qed.

(** [readseg] gets the bytes asked for; what it stores around them stays within
    the sectors they lie in. *)
Lemma readseg_run img pa count off h (s : bootst Dv) : on_disk (bdev s) img -> 0 <= off -> 0 <= count -> off + count < 2 ^ 32 - 2048 ->
  off mod 512 <= pa -> pa + count < 2 ^ 32 - 512 ->
  exists m' d', readseg pa count off h s = Ret tt h (mkBoot m' d') /\ on_disk d' img /\
    (forall x, pa <= x < pa + count -> m' x = img (off + (x - pa))) /\ (forall x, x < pa - off mod 512 \/ pa + count + 511 <= x -> m' x = bmem s x).
Proof.
  intros Hd Ho Hc Hoc Hpa He. unfold readseg, SECTSIZE. cbv zeta. pose proof (Z.div_mod off 512 ltac:(lia)) as Ed. pose proof (Z.mod_pos_bound off 512 ltac:(lia)) as Em.
  assert (0 <= off / 512) by (apply Z.div_pos; lia). assert (0 <= count / 512) by (apply Z.div_pos; lia).
  pose proof (Z.div_mod count 512 ltac:(lia)). pose proof (Z.mod_pos_bound count 512 ltac:(lia)). rewrite !u32_id by lia.
  destruct (readseg_loop_run img (Z.to_nat (count / 512 + 2)) (pa - off mod 512) (pa + count) (off / 512) h s Hd) as (m' & d' & R & D' & M1 & M2); [lia..|].
  exists m', d'. split; [exact R|]. split_and!; [done| |done]. intros x Hx. rewrite M1 by lia. f_equal. lia.
Qed.

(** ** Loading the kernel *)

(** A program header: the segment's place in the file and in memory. *)
Record seg : Type := mkSegm { g_off : Z; g_paddr : Z; g_filesz : Z; g_memsz : Z }.
Definition seg_at (m : mem) (a : Z) : seg := mkSegm (m_off m a) (m_paddr m a) (m_filesz m a) (m_memsz m a).

(** The memory [readseg] and [stosb] may write for a segment. *)
Definition foot_lo (g : seg) : Z := g_paddr g - g_off g mod 512.
Definition foot_hi (g : seg) : Z := Z.max (g_paddr g + g_filesz g + 511) (g_paddr g + g_memsz g).
Definition seg_ok (g : seg) : Prop :=
  0 <= g_off g /\ 0 <= g_filesz g /\ 0 <= g_memsz g /\ g_off g + g_filesz g < 2 ^ 32 - 2048 /\ 0 <= foot_lo g /\ foot_hi g < 2 ^ 32 - 512 /\
  (foot_hi g <= 0x10000 \/ 0x10000 + 4096 <= foot_lo g).

(** The segment is in memory: its bytes of the file, then zeros. *)
Definition loaded (img m : mem) (g : seg) : Prop :=
  (forall x, g_paddr g <= x < g_paddr g + g_filesz g -> m x = img (g_off g + (x - g_paddr g))) /\
  (forall x, g_paddr g + g_filesz g <= x < g_paddr g + g_memsz g -> m x = 0).

(** A later segment does not write over an earlier one. *)
Definition spares (g g' : seg) : Prop :=
  foot_hi g' <= g_paddr g \/ g_paddr g + Z.max (g_filesz g) (g_memsz g) <= foot_lo g'.
Fixpoint spared (gs : list seg) : Prop :=
  match gs with
  | [] => True
  | g :: gs => Forall (spares g) gs /\ spared gs
  end.

Lemma boot_load32_ext m m' a b : (forall i, 0 <= i < 4 -> m (a + i) = m' (b + i)) -> load32 m a = load32 m' b.
Proof.
  intros H. unfold load32. f_equal. unfold load_bytes. apply list_eq. intros i. rewrite !list_lookup_fmap.
  destruct (decide (i < 4)%nat); [rewrite !lookup_seqZ_lt by lia|by rewrite !lookup_seqZ_ge by lia]. cbn. f_equal. apply H. lia.
Qed.

(** The scratch page has the first 4096 bytes of the image. *)
Definition scratch (img m : mem) : Prop := forall i, 0 <= i < 4096 -> m (0x10000 + i) = img i.

Lemma scratch_seg img m a : scratch img m -> 0 <= a -> a + 32 <= 4096 -> seg_at m (0x10000 + a) = seg_at img a.
Proof.
  intros H Ha He. unfold seg_at, m_off, m_paddr, m_filesz, m_memsz. f_equal; apply boot_load32_ext; intros i Hi; rewrite <- !Z.add_assoc; apply H; lia.
Qed.

Lemma loaded_keeps img m m' g g' : spares g g' -> seg_ok g -> loaded img m g -> (forall x, x < foot_lo g' \/ foot_hi g' <= x -> m' x = m x) -> loaded img m' g.
Proof.
  intros Hs Hg [L1 L2] Hm. split; intros x Hx; (rewrite Hm; [auto|]); unfold spares, seg_ok in *; lia.
Qed.

(** One segment. *)
Lemma load_seg img g h (s : bootst Dv) : on_disk (bdev s) img -> seg_ok g ->
  exists m1 m' d', readseg (g_paddr g) (g_filesz g) (g_off g) h s = Ret tt h (mkBoot m1 d') /\ on_disk d' img /\
    (forall x, x < foot_lo g \/ foot_hi g <= x -> m1 x = bmem s x) /\
    m' = (if g_filesz g <? g_memsz g then stosb m1 (u32 (g_paddr g + g_filesz g)) 0 (g_memsz g - g_filesz g) else m1) /\
    loaded img m' g /\ (forall x, x < foot_lo g \/ foot_hi g <= x -> m' x = bmem s x).
Proof.
  intros Hd (H1 & H2 & H3 & H4 & H5 & H6 & _). unfold foot_lo, foot_hi in *.
  destruct (readseg_run img (g_paddr g) (g_filesz g) (g_off g) h s Hd) as (m1 & d' & R & D' & M1 & M2); [lia..|]. pose proof (Z.mod_pos_bound (g_off g) 512 ltac:(lia)).
  eexists m1, _, d'. split; [exact R|]. split; [done|]. split; [intros x Hx; apply M2; lia|]. split; [reflexivity|]. unfold loaded.
  destruct (Z.ltb_spec (g_filesz g) (g_memsz g)).
  - rewrite u32_id by lia. unfold stosb. change (byte_of 0 0) with 0. split; [split|]; intros x Hx.
    + rewrite (proj2 (Z.leb_gt _ _)) by lia. cbn [andb]. by apply M1.
    + by rewrite (proj2 (Z.leb_le _ _)), (proj2 (Z.ltb_lt _ _)) by lia.
    + destruct (Z.leb_spec (g_paddr g + g_filesz g) x), (Z.ltb_spec x (g_paddr g + g_filesz g + (g_memsz g - g_filesz g))); cbn [andb]; try (apply M2; lia). lia.
  - split; [split|]; intros x Hx; [by apply M1|lia|apply M2; lia].
Qed.

(** The [n] program headers from offset [a] of the image. *)
Fixpoint headers (img : mem) (n : nat) (a : Z) : list seg :=
  match n with
  | O => []
  | S n => seg_at img a :: headers img n (a + 32)
  end.

Lemma load_phs_run img n : forall a h (s : bootst Dv), on_disk (bdev s) img -> scratch img (bmem s) -> 0 <= a -> a + 32 * Z.of_nat n <= 4096 ->
  Forall seg_ok (headers img n a) -> spared (headers img n a) ->
  exists m' d', load_phs n (0x10000 + a) h s = Ret tt h (mkBoot m' d') /\ scratch img m' /\ Forall (loaded img m') (headers img n a) /\
    (forall g, seg_ok g -> Forall (spares g) (headers img n a) -> loaded img (bmem s) g -> loaded img m' g).
Proof.
  induction n as [|n IH]; intros a h s Hd Hs Ha Hn; cbn [load_phs headers]; intros Hok Hsp.
  { exists (bmem s), (bdev s). split; [by destruct s|]. split_and!; [done|constructor|done]. }
  apply Forall_cons in Hok as [Hg Hok]. destruct Hsp as [Hsp1 Hsp]. set (g := seg_at img a) in *.
  assert (forall m, scratch img m -> m_paddr m (0x10000 + a) = g_paddr g /\ m_filesz m (0x10000 + a) = g_filesz g /\ m_off m (0x10000 + a) = g_off g /\
    m_memsz m (0x10000 + a) = g_memsz g) as Hread.
  { intros m Hm. pose proof (scratch_seg img m a Hm Ha ltac:(lia)) as E. unfold g. rewrite <- E. done. }
  destruct (load_seg img g h s Hd Hg) as (m1 & m2 & d1 & R1 & D1 & M1 & E2 & L2 & M2).
  assert (forall m, (forall x, x < foot_lo g \/ foot_hi g <= x -> m x = bmem s x) -> scratch img m) as Hscr.
  { intros m Hm i Hi. rewrite Hm; [by apply Hs|]. unfold seg_ok in Hg. lia. }
  repeat kstep_base. destruct (Hread (bmem s) Hs) as (-> & -> & -> & _). rewrite R1. repeat kstep_base. cbn [bmem].
  destruct (Hread m1 (Hscr m1 M1)) as (_ & -> & _ & ->). unfold sizeof_proghdr. replace (u32 (0x10000 + a + 32)) with (0x10000 + (a + 32)) by (rewrite u32_id; lia).
  destruct (IH (a + 32) h (mkBoot m2 d1) D1 (Hscr m2 M2) ltac:(lia) ltac:(lia) Hok Hsp) as (m' & d' & R & S' & L' & K').
  exists m', d'. split; [|split_and!; [done| |]].
  - rewrite <- R, E2. destruct (g_filesz g <? g_memsz g); cbn [when]; repeat kstep_base; done.
  - apply Forall_cons. split; [|done]. by apply K'.
  - intros g0 H0 [S1 S2]%Forall_cons L0. apply K'; [done|done|]. eapply loaded_keeps; [exact S1|done|exact L0|exact M2].
Qed.
End boot.

(** C22: the boot loader loads the kernel.  When the disk holds an ELF image from
    sector 1 on, whose program headers are in the first 4096 bytes and whose
    segments do not run into the scratch page or, rounded to whole sectors,
    over a segment before them, [bootmain] jumps to the entry point with every
    segment in place: its bytes of the file, and zeros up to its size in
    memory.  When the image is not ELF it returns to bootasm.S. *)
Theorem bootmain_loads {Dv} `{!Ata Dv} img (s : bootst Dv) : on_disk (bdev s) img ->
  let n := Z.to_nat (m_phnum img 0) in let gs := headers img n (m_phoff img 0) in
  0 <= m_phoff img 0 -> m_phoff img 0 + 32 * Z.of_nat n <= 4096 -> Forall seg_ok gs -> spared gs ->
  exists m' d', scratch img m' /\
    if decide (m_magic img 0 = ELF_MAGIC)
    then bootmain [] s = Ret (Some (m_entry img 0)) [] (mkBoot m' d') /\ Forall (loaded img m') gs
    else bootmain [] s = Ret None [] (mkBoot m' d').
Proof.
  intros Hd n gs Hp Hn Hok Hsp. unfold bootmain. cbv zeta.
  destruct (readseg_run img 0x10000 4096 0 [] s Hd) as (m1 & d1 & R1 & D1 & M1 & _); [lia|lia|lia|done|lia|].
  assert (scratch img m1) as Hs by (intros i Hi; rewrite M1 by lia; f_equal; lia).
  assert (forall m, scratch img m -> m_magic m 0x10000 = m_magic img 0 /\ m_entry m 0x10000 = m_entry img 0 /\ m_phoff m 0x10000 = m_phoff img 0 /\ m_phnum m 0x10000 = m_phnum img 0) as Hread.
  { intros m Hm. unfold m_magic, m_entry, m_phoff, m_phnum. split_and!; try (apply boot_load32_ext; intros i Hi; rewrite <- ?Z.add_assoc; apply Hm; lia).
    f_equal. unfold load_bytes. change (seqZ (65536 + 44) 2) with [65536 + 44; 65536 + 45]. change (seqZ (0 + 44) 2) with [44; 45]. cbn [fmap list_fmap]. by rewrite !Hm by lia. }
  rewrite bind_unfold, R1. repeat kstep_base. cbn [bmem]. destruct (Hread m1 Hs) as (-> & _ & -> & ->).
  destruct (decide (m_magic img 0 = ELF_MAGIC)) as [E|E].
  - rewrite E, Z.eqb_refl. cbn [negb]. rewrite u32_id by lia. destruct (load_phs_run img n (m_phoff img 0) [] (mkBoot m1 d1) D1 Hs Hp Hn Hok Hsp) as (m' & d' & R & S' & L' & _).
    exists m', d'. split; [done|]. split; [|done]. rewrite bind_unfold. fold n. rewrite R. repeat kstep_base. cbn [bmem]. by destruct (Hread m' S') as (_ & -> & _).
  - exists m1, d1. split; [done|]. rewrite (proj2 (Z.eqb_neq _ _) E). done.
Qed.

(** ** An example: an image with two segments *)

Definition ex_phdr (off paddr filesz memsz : Z) : list Z := le32 1 ++ le32 off ++ le32 paddr ++ le32 paddr ++ le32 filesz ++ le32 memsz ++ le32 7 ++ le32 4.
Definition ex_elf : list Z :=
  le32 ELF_MAGIC ++ replicate 12 0 ++ le16 2 ++ le16 3 ++ le32 1 ++ le32 0x10000c ++ le32 52 ++ le32 0 ++ le32 0 ++ le16 52 ++ le16 32 ++ le16 2 ++ replicate 6 0 ++
  ex_phdr 4096 0x100000 600 600 ++ ex_phdr 4864 0x101300 16 100.
Definition ex_img : mem := store_bytes (fun x => x mod 251) 0 ex_elf.
Definition ex_boot : bootst adev := mkBoot (fun _ => 0xff) (mkAdev 3 (fun _ => 0) Idle (fun _ n => load_bytes ex_img (512 * (n - 1)) 512)).

Lemma bootmain_loads_witness : exists m' d', bootmain [] ex_boot = Ret (Some 0x10000c) [] (mkBoot m' d') /\ m' 0x100000 = 4096 mod 251 /\ m' 0x101310 = 0.
Proof.
  assert (headers ex_img 2 52 = [mkSegm 4096 0x100000 600 600; mkSegm 4864 0x101300 16 100]) as Hh by (vm_compute; reflexivity).
  assert (m_phnum ex_img 0 = 2) as Hn by (vm_compute; reflexivity). assert (m_phoff ex_img 0 = 52) as Hp by (vm_compute; reflexivity).
  destruct (bootmain_loads ex_img ex_boot) as (m' & d' & _ & H); rewrite ?Hn, ?Hp.
  - intros k Hk. cbn. f_equal. lia.
  - lia.
  - vm_compute. discriminate.
  - change (Z.to_nat 2) with 2%nat. rewrite Hh. repeat constructor; vm_compute; (done || (right; done)).
  - change (Z.to_nat 2) with 2%nat. rewrite Hh. split; [|split; [constructor|done]]. constructor; [|constructor]. right. vm_compute. discriminate.
  - rewrite Hn, Hp in H. change (Z.to_nat 2) with 2%nat in H. rewrite Hh, decide_True in H by (vm_compute; reflexivity).
    destruct H as [H Hl]. exists m', d'. split; [exact H|]. apply Forall_cons in Hl as [[L1 _] Hl]. apply Forall_cons in Hl as [[_ L2] _]. split.
    + rewrite L1 by (cbn; lia). vm_compute. reflexivity.
    + apply L2. cbn. lia.
Defined.
