(* ===== verification/Log.v ===== *)
(** * The write-ahead log (src/log.c, readsb of src/fs.c)

    The code of log.c over the buffer cache.  [begin_op] and [end_op] are
    written for any state that contains the log ([get] and [put] read and write
    it), because their waiting is studied apart from the disk, in the file
    Logtxn; [commit] and recovery run on the cache and the disk. *)

From Stdlib Require Import ZArith Lia String.
From stdpp Require Import prelude numbers strings option gmap list.
From S2P Require Import Prelude Kernel Mem Sched Monitor Sleeplock Bio.

Definition MAXOPBLOCKS : Z := 10.
Definition LOGSIZE : Z := 30.

(** [struct log], with the fields of its [struct logheader]. *)
Record log : Type := mkLog {
  l_start : Z;
  l_size : Z;
  l_outstanding : Z;
  l_committing : Z;
  l_dev : Z;
  lh_n : Z;
  lh_block : list Z }.

Definition set_outstanding v l := mkLog (l_start l) (l_size l) v (l_committing l) (l_dev l) (lh_n l) (lh_block l).
Definition set_committing v l := mkLog (l_start l) (l_size l) (l_outstanding l) v (l_dev l) (lh_n l) (lh_block l).
Definition set_lh_n v l := mkLog (l_start l) (l_size l) (l_outstanding l) (l_committing l) (l_dev l) v (lh_block l).
Definition set_lh_block v l := mkLog (l_start l) (l_size l) (l_outstanding l) (l_committing l) (l_dev l) (lh_n l) v.
Definition set_place st sz dv l := mkLog st sz (l_outstanding l) (l_committing l) dv (lh_n l) (lh_block l).

Definition log0 : log := mkLog 0 0 0 0 0 0 (replicate 30 0).

(** ** Admission of operations *)

Section gate.
Context {S : Type} `{!Has pstate S}.
Context (get : S -> log) (put : log -> S -> S).

Definition upd_log (f : log -> log) : K S unit := modify (fun s => put (f (get s)) s).

(** The loop of [begin_op], with [log.lock] held. *)
Definition begin_op_loop : K S unit :=
  l ← gets get;
  if negb (l_committing l =? 0) then sleep ChLog LLog
  else if LOGSIZE <? lh_n l + (l_outstanding l + 1) * MAXOPBLOCKS then sleep ChLog LLog
  else
    upd_log (fun l => set_outstanding (l_outstanding l + 1) l);;
    release LLog.

Definition begin_op : K S unit := acquire LLog;; begin_op_loop.

(** [begin_op] from the return of [sleep]. *)
Definition begin_op_wake : K S unit := sleep_return LLog;; begin_op_loop.

(** The first half of [end_op]: whether to commit. *)
Definition end_op_begin : K S bool :=
  acquire LLog;;
  upd_log (fun l => set_outstanding (l_outstanding l - 1) l);;
  l ← gets get;
  if negb (l_committing l =? 0) then panic "log.committing"
  else
    r ← (if l_outstanding l =? 0
         then upd_log (set_committing 1);; mret true
         else wakeup ChLog;; mret false);
    release LLog;;
    mret r.

(** The second half, after [commit]. *)
Definition end_op_finish : K S unit :=
  acquire LLog;;
  upd_log (set_committing 0);;
  wakeup ChLog;;
  release LLog.
End gate.

(** [log_write] on the header: the loop looks for the block among the first
    [lh.n]; the block is stored at the position found, which is [lh.n] when it
    is new. *)
Fixpoint log_find (bs : list Z) (n : nat) (b : Z) : nat :=
  match n, bs with
  | S n, x :: bs => if x =? b then 0%nat else S (log_find bs n b)
  | _, _ => 0%nat
  end.

Definition log_add (b : Z) (l : log) : log :=
  let i := log_find (lh_block l) (Z.to_nat (lh_n l)) b in
  let l' := set_lh_block (<[i := b]> (lh_block l)) l in
  if Z.of_nat i =? lh_n l then set_lh_n (lh_n l + 1) l' else l'.

(** ** The log and the buffer cache *)

Record lst : Type := mkLst {
  llog : log;
  lbio : bst }.

Definition put_log (l : log) (s : lst) : lst := mkLst l (lbio s).

#[export, refine] Instance Has_lbio : Has bst lst :=
  {| get_part := lbio; put_part := fun b s => mkLst (llog s) b |}.
Proof. all: by intros; destruct s. Defined.

#[export] Instance Has_ltable : Has pstate lst := Has_trans Has_btable Has_lbio.

(** Buffer operations on the larger state. *)
Definition lbread (dev b : Z) : K lst nat := lift (bread dev b).
Definition lbwrite (i : nat) : K lst unit := lift (bwrite i).
Definition lbrelse (i : nat) : K lst unit := lift (brelse i).
Definition ldata (i : nat) : K lst block := gets (fun s => b_data (get_buf i (lbio s))).
Definition lset (i : nat) (d : block) : K lst unit :=
  modify (fun s => mkLst (llog s) (upd_buf i (set_data d) (lbio s))).

(** [struct superblock] and [readsb] *)
Record superblock : Type := mkSb {
  sb_size : Z; sb_nblocks : Z; sb_ninodes : Z; sb_nlog : Z;
  sb_logstart : Z; sb_inodestart : Z; sb_bmapstart : Z }.

Definition decode_sb (d : block) : superblock :=
  mkSb (get32 d 0) (get32 d 4) (get32 d 8) (get32 d 12) (get32 d 16) (get32 d 20) (get32 d 24).

Definition readsb (dev : Z) : K lst superblock :=
  bp ← lbread dev 1;
  d ← ldata bp;
  lbrelse bp;;
  mret (decode_sb d).

(** [install_trans]: [n] blocks, from [tail] on. *)
Fixpoint install_loop (n : nat) (tail : nat) : K lst unit :=
  match n with
  | O => mret ()
  | S n =>
      l ← gets llog;
      lbuf ← lbread (l_dev l) (l_start l + Z.of_nat tail + 1);
      dbuf ← lbread (l_dev l) (nth tail (lh_block l) 0);
      d ← ldata lbuf;
      lset dbuf d;;
      lbwrite dbuf;;
      lbrelse lbuf;;
      lbrelse dbuf;;
      install_loop n (S tail)
  end.
Definition install_trans : K lst unit := l ← gets llog; install_loop (Z.to_nat (lh_n l)) 0.

(** The header block: [n] at offset 0, [block[i]] at offset [4 + 4 i]. *)
Definition hdr_n (d : block) : Z := s32 (get32 d 0).
Definition hdr_block (d : block) (i : nat) : Z := get32 d (4 + 4 * i).

(** The copying loops of [read_head] and [write_head]. *)
Fixpoint copy_in (n : nat) (i : nat) (d : block) (bs : list Z) : list Z :=
  match n with
  | O => bs
  | S n => copy_in n (S i) d (<[i := hdr_block d i]> bs)
  end.
Fixpoint copy_out (n : nat) (i : nat) (bs : list Z) (d : block) : block :=
  match n with
  | O => d
  | S n => copy_out n (S i) bs (put32 (4 + 4 * i) (nth i bs 0) d)
  end.

Definition read_head : K lst unit :=
  l ← gets llog;
  buf ← lbread (l_dev l) (l_start l);
  d ← ldata buf;
  modify (fun s => put_log (set_lh_n (hdr_n d) (llog s)) s);;
  modify (fun s => put_log (set_lh_block (copy_in (Z.to_nat (hdr_n d)) 0 d (lh_block (llog s))) (llog s)) s);;
  lbrelse buf.

Definition write_head : K lst unit :=
  l ← gets llog;
  buf ← lbread (l_dev l) (l_start l);
  d ← ldata buf;
  lset buf (copy_out (Z.to_nat (lh_n l)) 0 (lh_block l) (put32 0 (lh_n l) d));;
  lbwrite buf;;
  lbrelse buf.

Definition clear_n : K lst unit := modify (fun s => put_log (set_lh_n 0 (llog s)) s).

Definition recover_from_log : K lst unit :=
  read_head;;
  install_trans;;
  clear_n;;
  write_head.

(** [initlog]; the size of [struct logheader] is 4 + 4 * LOGSIZE. *)
Definition initlog (dev : Z) : K lst unit :=
  if BSIZE <=? 4 + 4 * LOGSIZE then panic "initlog: too big logheader"
  else
    sb ← readsb dev;
    modify (fun s => put_log (set_place (sb_logstart sb) (sb_nlog sb) dev (llog s)) s);;
    recover_from_log.

(** [write_log]: [n] blocks, from [tail] on. *)
Fixpoint write_log_loop (n : nat) (tail : nat) : K lst unit :=
  match n with
  | O => mret ()
  | S n =>
      l ← gets llog;
      to ← lbread (l_dev l) (l_start l + Z.of_nat tail + 1);
      from ← lbread (l_dev l) (nth tail (lh_block l) 0);
      d ← ldata from;
      lset to d;;
      lbwrite to;;
      lbrelse from;;
      lbrelse to;;
      write_log_loop n (S tail)
  end.
Definition write_log : K lst unit := l ← gets llog; write_log_loop (Z.to_nat (lh_n l)) 0.

Definition commit : K lst unit :=
  l ← gets llog;
  if 0 <? lh_n l then
    write_log;;
    write_head;;
    install_trans;;
    clear_n;;
    write_head
  else mret ().

Definition end_op : K lst unit :=
  do_commit ← end_op_begin llog put_log;
  if (do_commit : bool) then commit;; end_op_finish llog put_log else mret ().

Definition log_write (b : nat) : K lst unit :=
  l ← gets llog;
  if (LOGSIZE <=? lh_n l) || (l_size l - 1 <=? lh_n l) then panic "too big a transaction"
  else if l_outstanding l <? 1 then panic "log_write outside of trans"
  else
    acquire LLog;;
    x ← gets (fun s => get_buf b (lbio s));
    modify (fun s => put_log (log_add (b_blockno x) (llog s)) s);;
    modify (fun s => mkLst (llog s) (upd_buf b (fun x => set_flags (Z.lor (b_flags x) B_DIRTY) x) (lbio s)));;
    release LLog.

(** ** Sequences of disk writes *)

Definition apply_writes (ws : list (Z * block)) (D : Z -> block) : Z -> block :=
  fold_left (fun D w => wr w.1 w.2 D) ws D.

Lemma apply_app ws ws' D : apply_writes (ws ++ ws') D = apply_writes ws' (apply_writes ws D).
Proof. apply fold_left_app. Qed.

Lemma apply_other ws D b : b ∉ ws.*1 -> apply_writes ws D b = D b.
Proof.
  revert D. induction ws as [|[c d] ws IH]; intros D Hb; [done|]. cbn in *.
  apply not_elem_of_cons in Hb as [Hbc Hb]. rewrite IH by done. by apply wr_other.
Qed.

Lemma apply_in ws D b d : NoDup ws.*1 -> (b, d) ∈ ws -> apply_writes ws D b = d.
Proof.
  revert D. induction ws as [|[c e] ws IH]; intros D Hnd Hin; [by apply not_elem_of_nil in Hin|]. cbn in *.
  apply NoDup_cons in Hnd as [Hc Hnd]. apply elem_of_cons in Hin as [[= -> ->]|Hin]; [|by apply IH].
  rewrite apply_other by done. apply wr_same.
Qed.

(** What code that reads and writes blocks did to the disk. *)
Record ran (b b' : bst) (ws : list (Z * block)) : Prop := {
  rn_disk : disk b' = apply_writes ws (disk b);
  rn_writes : writes b' = writes b ++ ws;
  rn_size : disksize b' = disksize b;
  rn_table : woke (btable b) (btable b') }.

Lemma ran_trans b1 b2 b3 ws ws' : ran b1 b2 ws -> ran b2 b3 ws' -> ran b1 b3 (ws ++ ws').
Proof.
  intros [H1 H2 H3 H4] [K1 K2 K3 K4]. split.
  - by rewrite K1, H1, apply_app.
  - by rewrite K2, H2, app_assoc.
  - congruence.
  - by eapply woke_trans.
Qed.

Lemma ran_refl b : ran b b [].
Proof. split; [done|by rewrite app_nil_r|done|reflexivity]. Qed.

Lemma ran_read b b' : same_disk b b' -> woke (btable b) (btable b') -> ran b b' [].
Proof. intros [H1 H2 H3] Hw. split; [done|by rewrite H2, app_nil_r|done|done]. Qed.

(** ** Running the buffer operations *)

Lemma lift_bio {A} (c : K bst A) h l b a h' b' :
  c h b = Ret a h' b' -> (lift c : K lst A) h (mkLst l b) = Ret a h' (mkLst l b').
Proof. intros Hc. unfold lift. cbn [get_part Has_lbio lbio]. by rewrite Hc. Qed.

Section bio_runs.
Context (n : Z).

Lemma lbread_run l b H V B c :
  bio_inv b n H V B -> 0 <= c < disksize b -> c ∉ H.*2 -> c ∈ B \/ (length H + size B < NBUF)%nat ->
  exists i b', lbread 1 c [] (mkLst l b) = Ret i [] (mkLst l b') /\ bio_inv b' n ((i, c) :: H) V B /\
    b_data (get_buf i b') = V c /\ ran b b' [].
Proof.
  intros Hinv Hc Hh Hroom. destruct (bread_run b n H V B c Hinv Hc Hh Hroom) as (i & b' & Hr & Hinv' & (x & Hx & Hd) & Hsd & Ht).
  exists i, b'. split_and!; [by apply (lift_bio (bread 1 c))|done| |].
  - by rewrite (get_buf_Some _ _ _ Hx).
  - apply ran_read; [done|]. by rewrite Ht.
Qed.

Lemma lbwrite_run l b H V B i c :
  bio_inv b n H V B -> (i, c) ∈ H ->
  exists b', lbwrite i [] (mkLst l b) = Ret tt [] (mkLst l b') /\ bio_inv b' n H V (B ∖ {[c]}) /\ ran b b' [(c, V c)].
Proof.
  intros Hinv Hin. destruct (bwrite_run b n H V B i c Hinv Hin) as (b' & Hr & Hinv' & Hd & Hw & Hsz & Ht).
  exists b'. split_and!; [by apply (lift_bio (bwrite i))|done|]. split; try done. by rewrite Ht.
Qed.

Lemma lbrelse_run l b H1 i c H2 V B :
  bio_inv b n (H1 ++ (i, c) :: H2) V B -> c ∈ B \/ V c = disk b c ->
  exists b', lbrelse i [] (mkLst l b) = Ret tt [] (mkLst l b') /\ bio_inv b' n (H1 ++ H2) V B /\ ran b b' [].
Proof.
  intros Hinv Hc. destruct (brelse_run b n H1 i c H2 V B Hinv Hc) as (b' & Hr & Hinv' & Hsd & Ht).
  exists b'. split_and!; [by apply (lift_bio (brelse i))|done|]. by apply ran_read.
Qed.

Lemma lset_run l b H V B i c d :
  bio_inv b n H V B -> (i, c) ∈ H -> length d = 512%nat ->
  exists b', lset i d [] (mkLst l b) = Ret tt [] (mkLst l b') /\ bio_inv b' n H (wr c d V) B /\ ran b b' [].
Proof.
  intros Hinv Hin Hd. exists (upd_buf i (set_data d) b). split_and!; [done|by apply bset_inv|].
  split; [done|by rewrite app_nil_r|done|reflexivity].
Qed.
End bio_runs.

(** The blocks of the log, and the block lists that may be logged. *)
Definition in_log (l : log) (b : Z) : Prop := l_start l <= b < l_start l + LOGSIZE.

Record log_ok (l : log) (size : Z) (bs : list Z) : Prop := {
  lo_dev : l_dev l = 1;
  lo_start : 0 <= l_start l /\ l_start l + LOGSIZE <= size;
  lo_len : length (lh_block l) = 30%nat;
  lo_bs : bs = take (Z.to_nat (lh_n l)) (lh_block l);
  lo_n : 0 <= lh_n l < LOGSIZE;
  lo_nodup : NoDup bs;
  lo_range : forall b, b ∈ bs -> 0 <= b < size /\ ~ in_log l b }.

(** The writes of [write_log], and of [install_trans]. *)
Fixpoint log_writes (V : Z -> block) (start : Z) (bs : list Z) (tail : nat) : list (Z * block) :=
  match bs with
  | [] => []
  | b :: bs => (start + Z.of_nat tail + 1, V b) :: log_writes V start bs (S tail)
  end.
Fixpoint home_writes (V : Z -> block) (start : Z) (bs : list Z) (tail : nat) : list (Z * block) :=
  match bs with
  | [] => []
  | b :: bs => (b, V (start + Z.of_nat tail + 1)) :: home_writes V start bs (S tail)
  end.

Lemma log_writes_ext V V' start bs tail :
  (forall b, b ∈ bs -> V b = V' b) -> log_writes V start bs tail = log_writes V' start bs tail.
Proof.
  revert tail. induction bs as [|b bs IH]; intros tail HV; [done|]. cbn. f_equal.
  - f_equal. apply HV. by left.
  - apply IH. intros c Hc. apply HV. by right.
Qed.

Lemma home_writes_ext V V' start bs tail :
  (forall t, (tail <= t < tail + length bs)%nat -> V (start + Z.of_nat t + 1) = V' (start + Z.of_nat t + 1)) ->
  home_writes V start bs tail = home_writes V' start bs tail.
Proof.
  revert tail. induction bs as [|b bs IH]; intros tail HV; [done|]. cbn in *. f_equal.
  - f_equal. apply HV. lia.
  - apply IH. intros t Ht. apply HV. lia.
Qed.

(** Run the head operation of a sequence, whose outcome is known. *)
Ltac run_with H := first [ rewrite H | rewrite bind_unfold, H ]; cbv beta iota.

Lemma ldata_run i l b : ldata i [] (mkLst l b) = Ret (b_data (get_buf i b)) [] (mkLst l b).
Proof. done. Qed.

Lemma held_len b n H V B i c : bio_inv b n H V B -> (i, c) ∈ H -> length (V c) = 512%nat.
Proof.
  intros Hinv Hin. destruct (held_buf b n H V B i c Hinv Hin) as (x & _ & _ & _ & <- & Hl & _). done.
Qed.

Lemma wr_disk c d D : apply_writes [(c, d)] D = wr c d D.
Proof. done. Qed.

Lemma in_drop {A} k (l : list A) x : x ∈ drop k l -> x ∈ l.
Proof. intros [j Hj]%list_elem_of_lookup. rewrite lookup_drop in Hj. by eapply list_elem_of_lookup_2. Qed.

Section loops.
Context (n : Z) (l : log) (size_ : Z) (bs : list Z).
Hypothesis Hlog : log_ok l size_ bs.

Lemma bs_nth tail : (tail < length bs)%nat -> exists c, bs !! tail = Some c /\ nth tail (lh_block l) 0 = c /\ drop tail bs = c :: drop (S tail) bs.
Proof.
  intros Ht. destruct (lookup_lt_is_Some_2 bs tail Ht) as [c Hc]. exists c. split; [done|]. split; [|by apply drop_S].
  apply nth_lookup_Some. rewrite (lo_bs _ _ _ Hlog) in Hc. by apply lookup_take_Some in Hc as [Hc _].
Qed.

Lemma log_block_range tail : (tail < length bs)%nat ->
  0 <= l_start l + Z.of_nat tail + 1 < size_ /\ in_log l (l_start l + Z.of_nat tail + 1).
Proof.
  intros Ht. pose proof (lo_start _ _ _ Hlog). pose proof (lo_n _ _ _ Hlog). pose proof (lo_bs _ _ _ Hlog) as Hbs.
  apply (f_equal length) in Hbs. rewrite length_take in Hbs. unfold in_log, LOGSIZE in *. lia.
Qed.

Lemma write_log_loop_run k tail b V B :
  disksize b = size_ -> bio_inv b n [] V B -> (size B <= 29)%nat ->
  (forall c, c ∈ bs -> c ∈ B) -> (forall c, in_log l c -> c ∉ B) -> (tail + k = length bs)%nat ->
  let ws := log_writes V (l_start l) (drop tail bs) tail in
  exists b', write_log_loop k tail [] (mkLst l b) = Ret tt [] (mkLst l b') /\
    bio_inv b' n [] (apply_writes ws V) B /\ ran b b' ws.
Proof.
  revert tail b V. induction k as [|k IH]; intros tail b V Hsz Hinv HB Hsub Hdis Hk ws.
  { exists b. unfold ws. rewrite drop_ge by lia. split_and!; [done|done|apply ran_refl]. }
  destruct (bs_nth tail ltac:(lia)) as (c0 & Hc0 & Hnth & Hdrop).
  destruct (log_block_range tail ltac:(lia)) as [Hcr Hcl]. set (c := l_start l + Z.of_nat tail + 1) in *.
  assert (c0 ∈ bs) as Hin0 by (by eapply list_elem_of_lookup_2).
  destruct (lo_range _ _ _ Hlog c0 Hin0) as [Hr0 Hnl]. assert (c0 <> c) as Hne by (intros ->; done).
  destruct (lbread_run n l b [] V B c) as (i1 & b1 & R1 & I1 & D1 & N1); [done|lia|set_solver|right; cbn; unfold NBUF; lia|].
  destruct (lbread_run n l b1 [(i1, c)] V B c0) as (i2 & b2 & R2 & I2 & D2 & N2);
    [done|rewrite (rn_size _ _ _ N1); lia|set_solver|left; auto|].
  destruct (lset_run n l b2 _ V B i1 c (V c0) I2) as (b3 & R3 & I3 & N3); [set_solver|eapply held_len; [exact I2|by left]|].
  destruct (lbwrite_run n l b3 _ _ B i1 c I3) as (b4 & R4 & I4 & N4); [set_solver|].
  replace (B ∖ {[c]}) with B in I4 by (specialize (Hdis c Hcl); set_solver). rewrite wr_same in N4.
  destruct (lbrelse_run n l b4 [] i2 c0 [(i1, c)] _ B I4) as (b5 & R5 & I5 & N5); [left; auto|].
  destruct (lbrelse_run n l b5 [] i1 c [] _ B I5) as (b6 & R6 & I6 & N6).
  { right. rewrite (rn_disk _ _ _ N5), (rn_disk _ _ _ N4). cbn. by rewrite !wr_same. }
  assert (ran b b6 [(c, V c0)]) as N.
  { apply (ran_trans _ _ _ [] _ N1), (ran_trans _ _ _ [] _ N2), (ran_trans _ _ _ [] _ N3).
    apply (ran_trans _ _ _ [(c, V c0)] [] N4), (ran_trans _ _ _ [] [] N5), N6. }
  destruct (IH (S tail) b6 (wr c (V c0) V)) as (b' & R & I & N'); [rewrite (rn_size _ _ _ N); done|done..|lia|].
  assert (ws = (c, V c0) :: log_writes (wr c (V c0) V) (l_start l) (drop (S tail) bs) (S tail)) as Hws.
  { unfold ws. rewrite Hdrop. cbn [log_writes]. f_equal. apply log_writes_ext. intros e He. symmetry. apply wr_other.
    intros ->. apply (lo_range _ _ _ Hlog c); [|done]. by apply (in_drop (S tail)). }
  exists b'. split_and!.
  - cbn [write_log_loop]. repeat kstep_base. cbn [llog]. rewrite (lo_dev _ _ _ Hlog), Hnth. fold c.
    run_with R1. run_with R2. run_with (ldata_run i2 l b2). rewrite D2. run_with R3. run_with R4. run_with R5. by run_with R6.
  - by rewrite Hws.
  - rewrite Hws. apply (ran_trans _ _ _ [(c, V c0)] _ N N').
Qed.

(** Room to read a home block: it is dirty, or there are free buffers. *)
Definition room (B : gset Z) (cs : list Z) : Prop :=
  (size B <= 28)%nat \/ ((size B <= 29)%nat /\ forall c, c ∈ cs -> c ∈ B).

Lemma install_loop_run k tail b V B :
  disksize b = size_ -> bio_inv b n [] V B -> room B (drop tail bs) ->
  (forall c, in_log l c -> (c ∉ B) /\ V c = disk b c) -> (tail + k = length bs)%nat ->
  let ws := home_writes V (l_start l) (drop tail bs) tail in
  exists b' B', install_loop k tail [] (mkLst l b) = Ret tt [] (mkLst l b') /\
    bio_inv b' n [] (apply_writes ws V) B' /\ ran b b' ws /\ (forall c, c ∈ B' <-> c ∈ B /\ (c ∉ drop tail bs)).
Proof.
  revert tail b V B. induction k as [|k IH]; intros tail b V B Hsz Hinv HB Hdis Hk ws.
  { exists b, B. unfold ws. rewrite drop_ge by lia. split_and!; [done|done|apply ran_refl|].
    intros c. split; [|tauto]. intros ?. split; [done|apply not_elem_of_nil]. }
  destruct (bs_nth tail ltac:(lia)) as (c0 & Hc0 & Hnth & Hdrop).
  destruct (log_block_range tail ltac:(lia)) as [Hcr Hcl]. set (c := l_start l + Z.of_nat tail + 1) in *.
  assert (c0 ∈ bs) as Hin0 by (by eapply list_elem_of_lookup_2).
  destruct (lo_range _ _ _ Hlog c0 Hin0) as [Hr0 Hnl]. assert (c0 <> c) as Hne by (intros ->; done).
  destruct (lbread_run n l b [] V B c) as (i1 & b1 & R1 & I1 & D1 & N1);
    [done|lia|set_solver|right; destruct HB as [?|[? ?]]; cbn; unfold NBUF; lia|].
  destruct (lbread_run n l b1 [(i1, c)] V B c0) as (i2 & b2 & R2 & I2 & D2 & N2);
    [done|rewrite (rn_size _ _ _ N1); lia|set_solver| |].
  { destruct HB as [?|[_ Hin]]; [right; cbn; unfold NBUF; lia|left]. apply Hin. rewrite Hdrop. by left. }
  destruct (lset_run n l b2 _ V B i2 c0 (V c) I2) as (b3 & R3 & I3 & N3);
    [set_solver|eapply held_len; [exact I2|right; by left]|].
  destruct (lbwrite_run n l b3 _ _ B i2 c0 I3) as (b4 & R4 & I4 & N4); [set_solver|]. rewrite wr_same in N4.
  set (B1 := B ∖ {[c0]}) in *. assert (disk b4 = wr c0 (V c) (disk b)) as Hd4.
  { rewrite (rn_disk _ _ _ N4), (rn_disk _ _ _ N3), (rn_disk _ _ _ N2), (rn_disk _ _ _ N1). done. }
  destruct (lbrelse_run n l b4 [(i2, c0)] i1 c [] _ B1 I4) as (b5 & R5 & I5 & N5).
  { right. rewrite Hd4, !wr_other by done. by apply Hdis. }
  destruct (lbrelse_run n l b5 [] i2 c0 [] _ B1 I5) as (b6 & R6 & I6 & N6).
  { right. rewrite (rn_disk _ _ _ N5), Hd4. cbn. by rewrite !wr_same. }
  assert (ran b b6 [(c0, V c)]) as N.
  { apply (ran_trans _ _ _ [] _ N1), (ran_trans _ _ _ [] _ N2), (ran_trans _ _ _ [] _ N3).
    apply (ran_trans _ _ _ [(c0, V c)] [] N4), (ran_trans _ _ _ [] [] N5), N6. }
  pose proof (lo_nodup _ _ _ Hlog) as Hnd. rewrite <- (take_drop tail bs), Hdrop in Hnd.
  apply NoDup_app in Hnd as (_ & _ & Hnd%NoDup_cons). destruct Hnd as [Hc0d Hnd].
  destruct (IH (S tail) b6 (wr c0 (V c) V) B1) as (b' & B' & R & I & N' & HB'); [rewrite (rn_size _ _ _ N); done|done| | |lia|].
  { destruct HB as [HB|[HB Hin]].
    - left. assert (size B1 <= size B)%nat by (apply subseteq_size; set_solver). lia.
    - left. assert (size B1 < size B)%nat; [|lia]. apply subset_size. assert (c0 ∈ B) by (apply Hin; rewrite Hdrop; by left). set_solver. }
  { intros e He. destruct (Hdis e He) as [HeB HeV]. assert (e <> c0) by (intros ->; done). split; [set_solver|].
    rewrite (rn_disk _ _ _ N). cbn. by rewrite !wr_other. }
  assert (ws = (c0, V c) :: home_writes (wr c0 (V c) V) (l_start l) (drop (S tail) bs) (S tail)) as Hws.
  { unfold ws. rewrite Hdrop. cbn [home_writes]. f_equal. apply home_writes_ext. intros t Ht. symmetry. apply wr_other.
    intros E. apply Hnl. rewrite <- E. rewrite length_drop in Ht. apply (log_block_range t). lia. }
  exists b', B'. split_and!.
  - cbn [install_loop]. repeat kstep_base. cbn [llog]. rewrite (lo_dev _ _ _ Hlog), Hnth. fold c.
    run_with R1. run_with R2. run_with (ldata_run i1 l b2).
    assert (b_data (get_buf i1 b2) = V c) as ->.
    { destruct (held_buf b2 n _ V B i1 c I2) as (x & Hx & _ & _ & Hdx & _); [right; by left|]. by rewrite (get_buf_Some _ _ _ Hx). }
    run_with R3. run_with R4. run_with R5. by run_with R6.
  - by rewrite Hws.
  - rewrite Hws. apply (ran_trans _ _ _ [(c0, V c)] _ N N').
  - intros e. rewrite HB', Hdrop, elem_of_cons. unfold B1. set_solver.
Qed.
End loops.

(** ** The header block *)

(** The block list a header block describes. *)
Definition hdr_blocks (d : block) : list Z := hdr_block d <$> seq 0 (Z.to_nat (hdr_n d)).

(** The header block [write_head] makes of the old one. *)
Definition new_head (l : log) (d : block) : block :=
  copy_out (Z.to_nat (lh_n l)) 0 (lh_block l) (put32 0 (lh_n l) d).

Lemma length_copy_out n i bs d : (4 + 4 * (i + n) <= length d)%nat -> length (copy_out n i bs d) = length d.
Proof.
  revert i d. induction n as [|n IH]; intros i d Hl; cbn [copy_out]; [done|].
  rewrite IH; rewrite length_put32; lia.
Qed.

Lemma copy_out_below n i bs d off :
  (4 + 4 * (i + n) <= length d)%nat -> (off + 4 <= 4 + 4 * i)%nat -> get32 (copy_out n i bs d) off = get32 d off.
Proof.
  revert i d. induction n as [|n IH]; intros i d Hl Hoff; cbn [copy_out]; [done|].
  rewrite IH by (rewrite ?length_put32; lia). rewrite get_put32_other by lia. done.
Qed.

Lemma copy_out_block n i bs d j :
  (4 + 4 * (i + n) <= length d)%nat -> (i <= j < i + n)%nat -> hdr_block (copy_out n i bs d) j = u32 (nth j bs 0).
Proof.
  revert i d. induction n as [|n IH]; intros i d Hl Hj; cbn [copy_out]; [lia|].
  destruct (decide (j = i)) as [->|Hne].
  - unfold hdr_block. rewrite copy_out_below by (rewrite ?length_put32; lia). apply get_put32. lia.
  - apply IH; [rewrite length_put32; lia|lia].
Qed.

Lemma length_copy_in n i d bs : length (copy_in n i d bs) = length bs.
Proof. revert i bs. induction n as [|n IH]; intros i bs; cbn; [done|]. by rewrite IH, length_insert. Qed.

Lemma copy_in_lookup n i d bs j :
  (i + n <= length bs)%nat ->
  copy_in n i d bs !! j = if decide (i <= j < i + n)%nat then Some (hdr_block d j) else bs !! j.
Proof.
  revert i bs. induction n as [|n IH]; intros i bs Hl; cbn [copy_in].
  - by rewrite decide_False by lia.
  - rewrite IH by (rewrite length_insert; lia). repeat case_decide; try lia; try done.
    + assert (j = i) as -> by lia. by rewrite list_lookup_insert_eq by lia.
    + by rewrite list_lookup_insert_ne by lia.
Qed.

Lemma copy_in_blocks d bs :
  (Z.to_nat (hdr_n d) <= length bs)%nat -> take (Z.to_nat (hdr_n d)) (copy_in (Z.to_nat (hdr_n d)) 0 d bs) = hdr_blocks d.
Proof.
  intros Hl. apply list_eq. intros j. unfold hdr_blocks. rewrite list_lookup_fmap.
  destruct (decide (j < Z.to_nat (hdr_n d))%nat).
  - rewrite lookup_take_lt, copy_in_lookup, decide_True, lookup_seq_lt by lia. done.
  - rewrite lookup_take_ge by lia. by rewrite lookup_seq_ge by lia.
Qed.

Lemma length_bs l size_ bs : log_ok l size_ bs -> length bs = Z.to_nat (lh_n l).
Proof.
  intros Hlog. rewrite (lo_bs _ _ _ Hlog), length_take, (lo_len _ _ _ Hlog). pose proof (lo_n _ _ _ Hlog). unfold LOGSIZE in *. lia.
Qed.

Section headers.
Context (l : log) (size_ : Z) (bs : list Z) (d : block).
Hypothesis Hlog : log_ok l size_ bs.
Hypothesis Hd : length d = 512%nat.
Hypothesis Hsize : size_ <= 2 ^ 32.

Lemma length_new_head : length (new_head l d) = 512%nat.
Proof.
  unfold new_head. pose proof (lo_n _ _ _ Hlog). unfold LOGSIZE in *.
  rewrite length_copy_out; rewrite length_put32; lia.
Qed.

Lemma new_head_n : hdr_n (new_head l d) = lh_n l.
Proof.
  unfold new_head, hdr_n. pose proof (lo_n _ _ _ Hlog). unfold LOGSIZE in *.
  rewrite copy_out_below by (rewrite ?length_put32; lia). rewrite get_put32 by lia.
  rewrite u32_id, s32_id; lia.
Qed.

Lemma new_head_blocks : hdr_blocks (new_head l d) = bs.
Proof.
  apply list_eq. intros j. unfold hdr_blocks. rewrite list_lookup_fmap, new_head_n, <- (length_bs _ _ _ Hlog).
  destruct (decide (j < length bs)%nat) as [Hj|Hj].
  - rewrite lookup_seq_lt by lia. cbn [fmap option_fmap option_map]. rewrite Nat.add_0_l. destruct (lookup_lt_is_Some_2 bs j Hj) as [c Hc]. rewrite Hc. f_equal.
    pose proof (length_bs _ _ _ Hlog). pose proof (lo_n _ _ _ Hlog). unfold LOGSIZE in *.
    unfold new_head. rewrite copy_out_block by (rewrite ?length_put32; lia).
    assert (nth j (lh_block l) 0 = c) as ->.
    { apply nth_lookup_Some. rewrite (lo_bs _ _ _ Hlog) in Hc. by apply lookup_take_Some in Hc as [Hc _]. }
    apply u32_id. assert (c ∈ bs) as Hin by (by eapply list_elem_of_lookup_2).
    destruct (lo_range _ _ _ Hlog c Hin). lia.
  - rewrite lookup_seq_ge by lia. symmetry. apply lookup_ge_None_2. lia.
Qed.

End headers.

Lemma cleared_head e : length e = 512%nat -> hdr_n (put32 0 0 e) = 0 /\ length (put32 0 0 e) = 512%nat.
Proof. intros He. unfold hdr_n. rewrite get_put32, length_put32 by lia. done. Qed.

