(* ===== verification/Logcrash.v ===== *)
(** * Commit, recovery and crashes

    What [commit] and [recover_from_log] of the file Log write to disk, in
    order, and what is left on disk when the machine stops after any of these
    writes and is started again. *)

From Stdlib Require Import ZArith Lia String.
From stdpp Require Import prelude numbers strings option gmap list.
From S2P Require Import Prelude Kernel Mem Sched Monitor Sleeplock Bio Log.

(** ** Reading and writing the header *)

Lemma write_head_run n l size_ bs b V B :
  log_ok l size_ bs -> disksize b = size_ -> bio_inv b n [] V B -> (size B <= 29)%nat -> l_start l ∉ B ->
  let h := new_head l (V (l_start l)) in
  exists b', write_head [] (mkLst l b) = Ret tt [] (mkLst l b') /\
    bio_inv b' n [] (wr (l_start l) h V) B /\ ran b b' [(l_start l, h)].
Proof.
  intros Hlog Hsz Hinv HB HsB h. pose proof (lo_start _ _ _ Hlog) as [Hs0 Hs1]. unfold LOGSIZE in Hs1.
  destruct (lbread_run n l b [] V B (l_start l)) as (i & b1 & R1 & I1 & D1 & N1);
    [done|lia|set_solver|right; cbn; unfold NBUF; lia|].
  assert ((i, l_start l) ∈ [(i, l_start l)]) as Hin by (by left).
  destruct (lset_run n l b1 _ V B i (l_start l) h I1 Hin) as (b2 & R2 & I2 & N2).
  { apply (length_new_head l size_ bs); [done|]. by eapply held_len. }
  destruct (lbwrite_run n l b2 _ _ B i (l_start l) I2 Hin) as (b3 & R3 & I3 & N3). rewrite wr_same in N3.
  replace (B ∖ {[l_start l]}) with B in I3 by set_solver.
  destruct (lbrelse_run n l b3 [] i (l_start l) [] _ B I3) as (b4 & R4 & I4 & N4).
  { right. rewrite (rn_disk _ _ _ N3). cbn. by rewrite !wr_same. }
  exists b4. split_and!; [|done|].
  - unfold write_head. repeat kstep_base. cbn [llog]. rewrite (lo_dev _ _ _ Hlog). run_with R1. run_with (ldata_run i l b1).
    rewrite D1. fold (new_head l (V (l_start l))). fold h. run_with R2. run_with R3. exact R4.
  - apply (ran_trans _ _ _ [] _ N1), (ran_trans _ _ _ [] _ N2), (ran_trans _ _ _ _ [] N3 N4).
Qed.

(** The log in memory after [read_head]. *)
Definition loaded (l : log) (h : block) : log :=
  set_lh_block (copy_in (Z.to_nat (hdr_n h)) 0 h (lh_block l)) (set_lh_n (hdr_n h) l).

Lemma read_head_run n l b V B :
  l_dev l = 1 -> 0 <= l_start l < disksize b -> bio_inv b n [] V B -> (size B <= 29)%nat ->
  V (l_start l) = disk b (l_start l) ->
  exists b', read_head [] (mkLst l b) = Ret tt [] (mkLst (loaded l (V (l_start l))) b') /\
    bio_inv b' n [] V B /\ ran b b' [].
Proof.
  intros Hdev Hs Hinv HB HV.
  destruct (lbread_run n l b [] V B (l_start l)) as (i & b1 & R1 & I1 & D1 & N1);
    [done|lia|set_solver|right; cbn; unfold NBUF; lia|].
  destruct (lbrelse_run n (loaded l (V (l_start l))) b1 [] i (l_start l) [] _ B I1) as (b2 & R2 & I2 & N2).
  { right. by rewrite (rn_disk _ _ _ N1). }
  exists b2. split_and!; [|done|by apply (ran_trans _ _ _ [] [] N1 N2)].
  unfold read_head. repeat kstep_base. cbn [llog]. rewrite Hdev. run_with R1. run_with (ldata_run i l b1). rewrite D1.
  repeat kstep_base. exact R2.
Qed.

(** ** Commit *)

(** The writes of a commit: the log, the header, the home blocks, the header. *)
Definition home_copy (V : Z -> block) (bs : list Z) : list (Z * block) := (fun b => (b, V b)) <$> bs.
Definition commit_writes (V : Z -> block) (l : log) (bs : list Z) : list (Z * block) :=
  log_writes V (l_start l) bs 0 ++
  [(l_start l, new_head l (V (l_start l)))] ++
  home_copy V bs ++
  [(l_start l, put32 0 0 (new_head l (V (l_start l))))].

Lemma log_writes_keys V start bs tail :
  (log_writes V start bs tail).*1 = (fun t => start + Z.of_nat t + 1) <$> seq tail (length bs).
Proof. revert tail. induction bs as [|b bs IH]; intros tail; cbn; [done|]. f_equal. apply IH. Qed.

Lemma log_writes_in V start bs tail j b :
  bs !! j = Some b -> (start + Z.of_nat (tail + j) + 1, V b) ∈ log_writes V start bs tail.
Proof.
  revert tail j. induction bs as [|c bs IH]; intros tail [|j] Hj; cbn in *; try done.
  - injection Hj as ->. rewrite Nat.add_0_r. by left.
  - right. replace (tail + S j)%nat with (S tail + j)%nat by lia. by apply IH.
Qed.

Lemma home_writes_keys V start bs tail : (home_writes V start bs tail).*1 = bs.
Proof. revert tail. induction bs as [|b bs IH]; intros tail; cbn; [done|]. f_equal. apply IH. Qed.

Lemma home_writes_copy W V start bs tail :
  (forall j b, bs !! j = Some b -> W (start + Z.of_nat (tail + j) + 1) = V b) ->
  home_writes W start bs tail = home_copy V bs.
Proof.
  revert tail. induction bs as [|b bs IH]; intros tail HW; cbn; [done|]. f_equal.
  - f_equal. rewrite <- (HW 0%nat b) by done. do 2 f_equal. lia.
  - apply IH. intros j c Hj. rewrite <- (HW (S j) c) by done. do 2 f_equal. lia.
Qed.

Lemma logged_block V start bs j b D :
  bs !! j = Some b -> apply_writes (log_writes V start bs 0) D (start + Z.of_nat j + 1) = V b.
Proof.
  intros Hj. apply apply_in; [|by apply (log_writes_in V start bs 0 j b)].
  rewrite log_writes_keys. apply NoDup_fmap_2_strong; [intros; lia|apply NoDup_seq].
Qed.

Lemma cleared_ok l size_ bs : log_ok l size_ bs -> log_ok (set_lh_n 0 l) size_ [].
Proof.
  intros [H1 H2 H3 H4 H5 H6 H7]. split; try done; [constructor|].
  intros b Hb. by apply not_elem_of_nil in Hb.
Qed.

Lemma not_written_start V start bs tail : start ∉ (log_writes V start bs tail).*1.
Proof. rewrite log_writes_keys. intros (t & E & _)%list_elem_of_fmap. lia. Qed.

(** [commit] makes exactly the writes of [commit_writes]. *)
Lemma commit_run n l size_ bs b V B :
  log_ok l size_ bs -> disksize b = size_ -> bio_inv b n [] V B -> (size B <= 29)%nat -> 0 < lh_n l ->
  (forall c, c ∈ B <-> c ∈ bs) -> (forall c, in_log l c -> V c = disk b c) ->
  exists b' V', commit [] (mkLst l b) = Ret tt [] (mkLst (set_lh_n 0 l) b') /\ bio_inv b' n [] V' ∅ /\
    ran b b' (commit_writes V l bs) /\ (forall c, ~ in_log l c -> V' c = V c) /\ (forall c, in_log l c -> V' c = disk b' c).
Proof.
  intros Hlog Hsz Hinv HB Hpos HBs HVlog. pose proof (length_bs l size_ bs Hlog) as Hlen.
  assert (in_log l (l_start l)) as Hst by (unfold in_log, LOGSIZE; lia).
  assert (forall c, in_log l c -> c ∉ B) as Hdis by (intros c Hc HcB; apply HBs in HcB; by apply (lo_range _ _ _ Hlog c)).
  set (lws := log_writes V (l_start l) bs 0). set (h := new_head l (V (l_start l))).
  destruct (write_log_loop_run n l size_ bs Hlog (length bs) 0 b V B) as (b1 & R1 & I1 & N1); try done; [set_solver|].
  rewrite drop_0 in I1, N1. fold lws in I1, N1. set (V1 := apply_writes lws V) in *.
  assert (V1 (l_start l) = V (l_start l)) as HV1s by (apply apply_other, not_written_start).
  assert (forall c, in_log l c -> V1 c = disk b1 c) as HV1.
  { intros c Hc. rewrite (rn_disk _ _ _ N1). unfold V1. clear -HVlog Hc. revert c Hc.
    assert (forall ws D E c, D c = E c -> apply_writes ws D c = apply_writes ws E c) as H.
    { induction ws as [|[e d] ws IH]; intros D E c HDE; [done|]. cbn. apply IH. unfold wr. by destruct (c =? e). }
    intros c Hc. apply H. by apply HVlog. }
  destruct (write_head_run n l size_ bs b1 V1 B Hlog) as (b2 & R2 & I2 & N2); [rewrite (rn_size _ _ _ N1); done|done|done|by apply Hdis|].
  rewrite HV1s in I2, N2. fold h in I2, N2. set (V2 := wr (l_start l) h V1) in *.
  assert (forall c, in_log l c -> V2 c = disk b2 c) as HV2.
  { intros c Hc. rewrite (rn_disk _ _ _ N2). unfold V2. cbn. unfold wr. destruct (c =? l_start l); [done|]. by apply HV1. }
  destruct (install_loop_run n l size_ bs Hlog (length bs) 0 b2 V2 B) as (b3 & B3 & R3 & I3 & N3 & HB3); try done.
  { by rewrite (rn_size _ _ _ N2), (rn_size _ _ _ N1). }
  { right. split; [done|]. rewrite drop_0. intros c Hc. by apply HBs. }
  { intros c Hc. split; [by apply Hdis|by apply HV2]. }
  assert (home_writes V2 (l_start l) (drop 0 bs) 0 = home_copy V bs) as Hhome.
  { rewrite drop_0. apply home_writes_copy. intros j c Hj. cbn [Nat.add]. unfold V2. rewrite wr_other by lia.
    by apply logged_block. }
  rewrite Hhome in I3, N3. set (V3 := apply_writes (home_copy V bs) V2) in *.
  assert (B3 = ∅) as -> by (apply set_eq; intros c; rewrite HB3, drop_0; specialize (HBs c); set_solver).
  assert ((home_copy V bs).*1 = bs) as Hkeys by (unfold home_copy; rewrite <- list_fmap_compose; apply list_fmap_id).
  assert (V3 (l_start l) = h) as HV3s.
  { unfold V3. rewrite apply_other; [unfold V2; apply wr_same|]. rewrite Hkeys. intros Hin. by apply (lo_range _ _ _ Hlog _ Hin). }
  destruct (write_head_run n (set_lh_n 0 l) size_ [] b3 V3 ∅) as (b4 & R4 & I4 & N4).
  { by eapply cleared_ok. } { by rewrite (rn_size _ _ _ N3), (rn_size _ _ _ N2), (rn_size _ _ _ N1). }
  { done. } { rewrite size_empty. lia. } { apply not_elem_of_empty. }
  cbn [l_start set_lh_n] in I4, N4. rewrite HV3s in I4, N4.
  change (new_head (set_lh_n 0 l) h) with (put32 0 0 h) in I4, N4.
  exists b4, (wr (l_start l) (put32 0 0 h) V3). split_and!; [|done| | |].
  - unfold commit. repeat kstep_base. cbn [llog]. rewrite (proj2 (Z.ltb_lt _ _)) by done.
    unfold write_log, install_trans. rewrite bind_unfold. repeat kstep_base. cbn [llog]. rewrite <- Hlen.
    run_with R1. run_with R2. rewrite bind_unfold. repeat kstep_base. cbn [llog]. rewrite <- Hlen.
    run_with R3. unfold clear_n. repeat kstep_base. exact R4.
  - unfold commit_writes. fold lws h. apply (ran_trans _ _ _ lws _ N1), (ran_trans _ _ _ [_] _ N2), (ran_trans _ _ _ _ _ N3 N4).
  - intros c Hc. rewrite wr_other by (intros ->; done). unfold V3.
    destruct (decide (c ∈ bs)) as [Hin|Hnin].
    + apply apply_in; [rewrite Hkeys; apply Hlog|]. apply list_elem_of_fmap. by exists c.
    + rewrite apply_other by (by rewrite Hkeys). unfold V2. rewrite wr_other by (intros ->; done).
      unfold V1. apply apply_other. unfold lws. rewrite log_writes_keys. intros (t & -> & Ht)%list_elem_of_fmap.
      apply elem_of_seq in Ht. apply Hc. apply (log_block_range l size_ bs Hlog). lia.
  - intros c Hc. rewrite (rn_disk _ _ _ N4), (rn_disk _ _ _ N3). cbn. unfold wr. destruct (c =? l_start l); [done|].
    assert (c ∉ (home_copy V bs).*1) by (rewrite Hkeys; intros Hin; by apply (lo_range _ _ _ Hlog _ Hin)).
    unfold V3. rewrite !apply_other by done. by apply HV2.
Qed.

(** ** Recovery *)

Definition recover_writes (D : Z -> block) (start : Z) : list (Z * block) :=
  home_writes D start (hdr_blocks (D start)) 0 ++ [(start, put32 0 0 (D start))].

(** A disk whose header block describes a list of blocks that may be logged. *)
Record header_ok (D : Z -> block) (start size : Z) : Prop := {
  ho_len : forall b, length (D b) = 512%nat;
  ho_start : 2 <= start /\ start + LOGSIZE <= size;
  ho_n : 0 <= hdr_n (D start) < LOGSIZE;
  ho_nodup : NoDup (hdr_blocks (D start));
  ho_range : forall b, b ∈ hdr_blocks (D start) -> 0 <= b < size /\ ~ (start <= b < start + LOGSIZE) }.

Lemma loaded_ok l D size_ :
  l_dev l = 1 -> length (lh_block l) = 30%nat -> header_ok D (l_start l) size_ ->
  log_ok (loaded l (D (l_start l))) size_ (hdr_blocks (D (l_start l))).
Proof.
  intros Hdev Hlen [H1 H2 H3 H4 H5]. unfold loaded, LOGSIZE in *. split; cbn; try done.
  - unfold LOGSIZE. lia.
  - by rewrite length_copy_in.
  - symmetry. apply copy_in_blocks. lia.
Qed.

Lemma recover_run n l b D size_ :
  l_dev l = 1 -> length (lh_block l) = 30%nat -> disksize b = size_ -> D = disk b -> bio_inv b n [] D ∅ ->
  header_ok D (l_start l) size_ ->
  exists b', recover_from_log [] (mkLst l b) = Ret tt [] (mkLst (set_lh_n 0 (loaded l (D (l_start l)))) b') /\
    ran b b' (recover_writes D (l_start l)) /\ bio_inv b' n [] (disk b') ∅.
Proof.
  intros Hdev Hlen Hsz HD Hinv Hok. pose proof (loaded_ok l D size_ Hdev Hlen Hok) as Hlog.
  pose proof (ho_start _ _ _ Hok) as [Hs0 Hs1]. unfold LOGSIZE in Hs1.
  set (bs := hdr_blocks (D (l_start l))) in *. set (l1 := loaded l (D (l_start l))) in *.
  destruct (read_head_run n l b D ∅) as (b1 & R1 & I1 & N1); try done; [lia|rewrite size_empty; lia|by rewrite HD|].
  fold l1 in R1.
  assert (D = disk b1) as HD1 by (by rewrite (rn_disk _ _ _ N1)).
  destruct (install_loop_run n l1 size_ bs Hlog (length bs) 0 b1 D ∅) as (b2 & B2 & R2 & I2 & N2 & HB2); try done.
  { by rewrite (rn_size _ _ _ N1). } { left. rewrite size_empty. lia. }
  { intros c _. split; [apply not_elem_of_empty|by rewrite HD1]. }
  rewrite drop_0 in I2, N2. change (l_start l1) with (l_start l) in *.
  assert (B2 = ∅) as -> by (apply set_eq; intros c; rewrite HB2; split; [by intros [? _]|by intros ?%not_elem_of_empty]).
  set (V2 := apply_writes _ D) in I2. assert (V2 = disk b2) as HV2 by (by rewrite (rn_disk _ _ _ N2), <- HD1).
  assert (V2 (l_start l) = D (l_start l)) as HV2s.
  { apply apply_other. intros Hin. apply (lo_range _ _ _ Hlog (l_start l)); [|unfold in_log, LOGSIZE; cbn; lia].
    by rewrite home_writes_keys in Hin. }
  destruct (write_head_run n (set_lh_n 0 l1) size_ [] b2 V2 ∅) as (b3 & R3 & I3 & N3).
  { by eapply cleared_ok. } { by rewrite (rn_size _ _ _ N2), (rn_size _ _ _ N1). } { done. }
  { rewrite size_empty. lia. } { apply not_elem_of_empty. }
  change (l_start (set_lh_n 0 l1)) with (l_start l) in *. rewrite HV2s in I3, N3.
  change (new_head (set_lh_n 0 l1) (D (l_start l))) with (put32 0 0 (D (l_start l))) in *.
  exists b3. split_and!.
  - unfold recover_from_log. run_with R1. unfold install_trans. rewrite bind_unfold. repeat kstep_base. cbn [llog].
    rewrite <- (length_bs l1 size_ bs Hlog). run_with R2. unfold clear_n. repeat kstep_base. exact R3.
  - apply (ran_trans _ _ _ [] _ N1), (ran_trans _ _ _ _ _ N2 N3).
  - rewrite (rn_disk _ _ _ N3), <- HV2. exact I3.
Qed.

(** ** Crashes, on disk contents *)

(** Outside the log, recovery of [D] yields [E]. *)
Record recovers_to (D : Z -> block) (start size : Z) (E : Z -> block) : Prop := {
  rt_ok : header_ok D start size;
  rt_disk : forall c, ~ (start <= c < start + LOGSIZE) -> apply_writes (recover_writes D start) D c = E c }.

Lemma apply_take_in k ws D c : apply_writes (take k ws) D c = D c \/ exists d, (c, d) ∈ ws /\ apply_writes (take k ws) D c = d.
Proof.
  revert k D. induction ws as [|[e d] ws IH]; intros [|k] D; try by left.
  change (apply_writes (take (S k) ((e, d) :: ws)) D) with (apply_writes (take k ws) (wr e d D)). destruct (IH k (wr e d D)) as [Heq|(d' & Hin & Heq)].
  - rewrite Heq.
    destruct (decide (c = e)) as [->|Hne]; [right; exists d; rewrite wr_same; split; [by left|done]|left; by apply wr_other].
  - right. exists d'. split; [by right|done].
Qed.

Lemma apply_take_len k ws D : (forall b, length (D b) = 512%nat) -> (forall c d, (c, d) ∈ ws -> length d = 512%nat) ->
  forall b, length (apply_writes (take k ws) D b) = 512%nat.
Proof. intros HD Hws b. destruct (apply_take_in k ws D b) as [->|(d & Hin & ->)]; [done|by eapply Hws]. Qed.

Lemma recover_disk D start size_ c :
  header_ok D start size_ -> ~ (start <= c < start + LOGSIZE) ->
  apply_writes (recover_writes D start) D c = apply_writes (home_writes D start (hdr_blocks (D start)) 0) D c.
Proof.
  intros Hok Hc. unfold recover_writes. rewrite apply_app. apply wr_other. cbn [fst]. unfold LOGSIZE in *. lia.
Qed.

(** Writing some of the home blocks and going again over all of them is the
    same as going over all of them once. *)
Lemma home_again D D' start bs tail c :
  (forall j, (j < length bs)%nat -> D' (start + Z.of_nat (tail + j) + 1) = D (start + Z.of_nat (tail + j) + 1)) ->
  NoDup bs -> (c ∉ bs -> D' c = D c) ->
  apply_writes (home_writes D' start bs tail) D' c = apply_writes (home_writes D start bs tail) D c.
Proof.
  intros HD Hnd Hc.
  assert (home_writes D' start bs tail = home_writes D start bs tail) as ->.
  { revert tail HD. clear. induction bs as [|b bs IH]; intros tail HD; cbn; [done|]. f_equal.
    - f_equal. specialize (HD 0%nat ltac:(cbn; lia)). by rewrite Nat.add_0_r in HD.
    - apply IH. intros j Hj. specialize (HD (S j) ltac:(cbn; lia)). by replace (S tail + j)%nat with (tail + S j)%nat by lia. }
  destruct (decide (c ∈ (home_writes D start bs tail).*1)) as [Hin|Hnin].
  - apply list_elem_of_fmap in Hin as ([e d] & -> & Hin). cbn.
    rewrite !(apply_in _ _ e d); rewrite ?home_writes_keys; done.
  - rewrite !apply_other by done. rewrite home_writes_keys in Hnin. by apply Hc.
Qed.

Lemma hdr_blocks_length d : length (hdr_blocks d) = Z.to_nat (hdr_n d).
Proof. unfold hdr_blocks. by rewrite length_fmap, length_seq. Qed.

Lemma hdr_blocks_nil d : hdr_n d <= 0 -> hdr_blocks d = [].
Proof. intros H. unfold hdr_blocks. by replace (Z.to_nat (hdr_n d)) with 0%nat by lia. Qed.

Lemma home_writes_in V start bs tail c d : (c, d) ∈ home_writes V start bs tail -> c ∈ bs /\ exists e, d = V e.
Proof.
  revert tail. induction bs as [|b bs IH]; intros tail; cbn; [by intros ?%not_elem_of_nil|]. rewrite !elem_of_cons.
  intros [[= -> ->]|Hin]; [split; [by left|eauto]|]. apply IH in Hin as [? ?]. split; [by right|done].
Qed.

(** Recovery touches the home blocks and the header. *)
Lemma recovery_prefix_other k D start c :
  c ∉ hdr_blocks (D start) -> c <> start -> apply_writes (take k (recover_writes D start)) D c = D c.
Proof.
  intros Hc Hs. destruct (apply_take_in k (recover_writes D start) D c) as [|(d & Hin & _)]; [done|].
  apply elem_of_app in Hin as [Hin|Hin%list_elem_of_singleton]; [|by injection Hin].
  by apply home_writes_in in Hin as [? _].
Qed.

Lemma recovery_prefix_header k D start size_ :
  header_ok D start size_ ->
  let D' := apply_writes (take k (recover_writes D start)) D in D' start = D start \/ hdr_blocks (D' start) = [].
Proof.
  intros [H1 H2 H3 H4 H5] D'. unfold D', recover_writes.
  set (hw := home_writes D start (hdr_blocks (D start)) 0). destruct (decide (k <= length hw)%nat) as [Hk|Hk].
  - left. rewrite take_app_le by done. destruct (apply_take_in k hw D start) as [|(d & Hin & _)]; [done|].
    apply home_writes_in in Hin as [Hin _]. destruct (H5 start Hin) as [_ Hn]. unfold LOGSIZE in Hn. lia.
  - right. rewrite take_ge by (rewrite length_app; cbn; lia). rewrite apply_app. cbn [apply_writes fold_left fst snd].
    rewrite wr_same. apply hdr_blocks_nil. destruct (cleared_head (D start) (H1 start)). lia.
Qed.

(** A crash in recovery loses nothing. *)
Lemma recovery_prefix k D start size_ E :
  recovers_to D start size_ E -> recovers_to (apply_writes (take k (recover_writes D start)) D) start size_ E.
Proof.
  intros [Hok HE]. pose proof Hok as [H1 H2 H3 H4 H5]. unfold recover_writes.
  set (hw := home_writes D start (hdr_blocks (D start)) 0).
  assert (hw.*1 = hdr_blocks (D start)) as Hkeys by apply home_writes_keys.
  destruct (decide (k <= length hw)%nat) as [Hk|Hk].
  - rewrite take_app_le by done. set (D' := apply_writes (take k hw) D).
    assert (forall c, c ∉ hdr_blocks (D start) -> D' c = D c) as Hother.
    { intros c Hc. destruct (apply_take_in k hw D c) as [|(d & Hin & _)]; [done|].
      apply home_writes_in in Hin as [? _]. done. }
    assert (forall c, start <= c < start + LOGSIZE -> D' c = D c) as Hlog by (intros c Hc; apply Hother; intros Hin; by apply (H5 c)).
    assert (D' start = D start) as Hs by (apply Hlog; unfold LOGSIZE; lia).
    assert (header_ok D' start size_) as Hok'.
    { split; rewrite ?Hs; try done. apply apply_take_len; [done|].
      intros c d Hin. apply home_writes_in in Hin as (_ & e & ->). done. }
    split; [done|]. intros c Hc. rewrite (recover_disk _ _ size_) by done. rewrite Hs. rewrite <- HE, (recover_disk _ _ size_) by done.
    apply home_again; [|done|by apply Hother]. intros j Hj. rewrite hdr_blocks_length in Hj. apply Hlog. unfold LOGSIZE in *. lia.
  - rewrite take_ge by (rewrite length_app; cbn; lia). set (D' := apply_writes (hw ++ _) D).
    assert (D' start = put32 0 0 (D start)) as Hs by (unfold D'; rewrite apply_app; apply wr_same).
    destruct (cleared_head (D start) (H1 start)) as [Hn Hl].
    assert (hdr_blocks (D' start) = []) as Hnil by (apply hdr_blocks_nil; rewrite Hs; lia).
    split.
    + split; rewrite ?Hnil; try done; [|rewrite Hs; unfold LOGSIZE; lia|constructor|by intros ? ?%not_elem_of_nil].
      intros b. unfold D'. rewrite <- (firstn_all (hw ++ _)). apply apply_take_len; [done|].
      intros c d. rewrite elem_of_app, list_elem_of_singleton. intros [Hin|[= -> ->]]; [|done].
      apply home_writes_in in Hin as (_ & e & ->). done.
    + intros c Hc. rewrite <- HE by done. unfold recover_writes at 1. rewrite Hnil. cbn. apply wr_other. unfold LOGSIZE in Hc. lia.
Qed.

(** ** A crash in commit *)

Section commit_crash.
Context (l : log) (size_ : Z) (bs : list Z) (V D : Z -> block).
Hypothesis Hlog : log_ok l size_ bs.
Hypothesis Hsize : 2 <= l_start l /\ size_ <= 2 ^ 32.
Hypothesis HVlen : forall b, length (V b) = 512%nat.
Hypothesis HDlen : forall b, length (D b) = 512%nat.
Hypothesis HVs : V (l_start l) = D (l_start l).
Hypothesis Hclean : hdr_n (D (l_start l)) = 0.

(** The disk when the header has reached it: the commit point. *)
Definition committed : Z -> block :=
  apply_writes (log_writes V (l_start l) bs 0 ++ [(l_start l, new_head l (V (l_start l)))]) D.

Lemma committed_start : committed (l_start l) = new_head l (D (l_start l)).
Proof. unfold committed. rewrite apply_app, <- HVs. apply wr_same. Qed.

Lemma committed_out c : ~ in_log l c -> committed c = D c.
Proof.
  intros Hc. unfold committed. rewrite apply_app. cbn [apply_writes fold_left fst snd].
  rewrite wr_other by (intros ->; apply Hc; unfold in_log, LOGSIZE; lia). apply apply_other. rewrite log_writes_keys.
  intros (t & -> & Ht)%list_elem_of_fmap. apply elem_of_seq in Ht. apply Hc, (log_block_range l size_ bs Hlog). lia.
Qed.

Lemma committed_recover : recover_writes committed (l_start l) =
  home_copy V bs ++ [(l_start l, put32 0 0 (new_head l (V (l_start l))))].
Proof.
  unfold recover_writes. rewrite committed_start, (new_head_blocks _ size_ bs), HVs by (done || lia). f_equal.
  apply home_writes_copy. intros j b Hj. cbn [Nat.add]. unfold committed. rewrite apply_app.
  cbn [apply_writes fold_left fst snd]. rewrite wr_other by lia. by apply logged_block.
Qed.

Lemma log_writes_len c d tail : (c, d) ∈ log_writes V (l_start l) bs tail -> length d = 512%nat.
Proof.
  clear -HVlen. revert tail. induction bs as [|b cs IH]; intros tail; cbn; [by intros ?%not_elem_of_nil|].
  rewrite elem_of_cons. intros [[= -> ->]|Hin]; [done|by eapply IH].
Qed.

Lemma committed_ok : header_ok committed (l_start l) size_.
Proof.
  pose proof (lo_start _ _ _ Hlog). split; rewrite ?committed_start, ?(new_head_blocks _ size_ bs), ?(new_head_n _ size_ bs) by (done || lia).
  - intros b. unfold committed. rewrite <- (firstn_all (log_writes _ _ _ _ ++ _)). apply apply_take_len; [done|].
    intros c d. rewrite elem_of_app, list_elem_of_singleton. intros [Hin|[= -> ->]]; [by eapply log_writes_len|].
    by apply (length_new_head l size_ bs).
  - lia.
  - apply Hlog.
  - apply Hlog.
  - apply Hlog.
Qed.

(** After the commit point, recovery completes the transaction. *)
Lemma committed_recovers : recovers_to committed (l_start l) size_ (apply_writes (home_copy V bs) D).
Proof.
  split; [apply committed_ok|]. intros c Hc. rewrite committed_recover, apply_app. cbn [apply_writes fold_left fst snd].
  rewrite wr_other by (unfold LOGSIZE in Hc; lia).
  assert ((home_copy V bs).*1 = bs) as Hkeys by (unfold home_copy; rewrite <- list_fmap_compose; apply list_fmap_id).
  destruct (decide (c ∈ bs)) as [Hin|Hnin].
  - assert ((c, V c) ∈ home_copy V bs) by (apply list_elem_of_fmap; by exists c).
    rewrite (apply_in _ _ c (V c)) by (rewrite ?Hkeys; done || apply Hlog). symmetry. apply apply_in; [rewrite Hkeys; apply Hlog|done].
  - fold (apply_writes (home_copy V bs) committed). rewrite !apply_other by (by rewrite Hkeys). by apply committed_out.
Qed.

Lemma length_log_writes W start cs t : length (log_writes W start cs t) = length cs.
Proof. clear. revert t. induction cs as [|c cs IH]; intros t; cbn; [done|]. by rewrite IH. Qed.

(** Before it, recovery finds nothing to do. *)
Lemma uncommitted_recovers k :
  (k <= length bs)%nat -> recovers_to (apply_writes (take k (commit_writes V l bs)) D) (l_start l) size_ D.
Proof.
  intros Hk. unfold commit_writes. rewrite take_app_le by (by rewrite length_log_writes).
  set (D' := apply_writes _ D). pose proof (lo_start _ _ _ Hlog).
  assert (D' (l_start l) = D (l_start l)) as Hs.
  { destruct (apply_take_in k (log_writes V (l_start l) bs 0) D (l_start l)) as [|(d & Hin & _)]; [done|].
    destruct (not_written_start V (l_start l) bs 0). apply list_elem_of_fmap. by exists (l_start l, d). }
  assert (hdr_blocks (D (l_start l)) = []) as Hnil by (apply hdr_blocks_nil; lia).
  split.
  - split; rewrite ?Hs, ?Hnil; try done; [|lia|rewrite Hclean; unfold LOGSIZE; lia|constructor|by intros ? ?%not_elem_of_nil].
    apply apply_take_len; [done|]. intros c d. apply log_writes_len.
  - intros c Hc. unfold recover_writes. rewrite Hs, Hnil. cbn [home_writes app apply_writes fold_left fst snd].
    rewrite wr_other by (unfold LOGSIZE in Hc; lia).
    destruct (apply_take_in k (log_writes V (l_start l) bs 0) D c) as [|(d & Hin & _)]; [done|].
    assert (c ∈ (log_writes V (l_start l) bs 0).*1) as Hin' by (apply list_elem_of_fmap; by exists (c, d)).
    rewrite log_writes_keys in Hin'. apply list_elem_of_fmap in Hin' as (t & -> & Ht). apply elem_of_seq in Ht.
    destruct Hc. apply (log_block_range l size_ bs Hlog). lia.
Qed.

Lemma commit_prefix k :
  recovers_to (apply_writes (take k (commit_writes V l bs)) D) (l_start l) size_
    (if decide (k <= length bs)%nat then D else apply_writes (home_copy V bs) D).
Proof.
  case_decide as Hk; [by apply uncommitted_recovers|].
  unfold commit_writes. rewrite app_assoc. set (ws := log_writes _ _ _ _ ++ _).
  assert (length ws = S (length bs)) as Hl by (unfold ws; rewrite length_app, length_log_writes; cbn; lia).
  rewrite take_app_ge by lia. rewrite apply_app. fold committed. rewrite <- committed_recover.
  apply recovery_prefix, committed_recovers.
Qed.

Lemma commit_writes_in c d : (c, d) ∈ commit_writes V l bs ->
  (in_log l c /\ c <> l_start l) \/ c ∈ bs \/
  (c = l_start l /\ (d = new_head l (V c) \/ d = put32 0 0 (new_head l (V c)))).
Proof.
  unfold commit_writes. rewrite !elem_of_app, !list_elem_of_singleton. intros [Hin|[[= -> ->]|[Hin|[= -> ->]]]].
  - left. assert (c ∈ (log_writes V (l_start l) bs 0).*1) as Hc by (apply list_elem_of_fmap; by exists (c, d)).
    split; [|intros ->; by apply not_written_start in Hc].
    rewrite log_writes_keys in Hc. apply list_elem_of_fmap in Hc as (t & -> & Ht). apply elem_of_seq in Ht.
    apply (log_block_range l size_ bs Hlog). lia.
  - right; right. auto.
  - right; left. apply list_elem_of_fmap in Hin as (e & [= -> ->] & He). done.
  - right; right. auto.
Qed.

(** A block that the transaction does not write stays as it is, and recovery
    leaves it alone. *)
Lemma commit_prefix_keep k c :
  ~ in_log l c -> c ∉ bs ->
  let D' := apply_writes (take k (commit_writes V l bs)) D in D' c = D c /\ c ∉ hdr_blocks (D' (l_start l)).
Proof.
  intros Hc Hb D'. assert (in_log l (l_start l)) as Hsl by (unfold in_log, LOGSIZE; lia). split.
  - destruct (apply_take_in k (commit_writes V l bs) D c) as [|(d & Hin & _)]; [done|].
    apply commit_writes_in in Hin as [[? _]|[?|[-> _]]]; done.
  - unfold D'. destruct (apply_take_in k (commit_writes V l bs) D (l_start l)) as [->|(d & Hin & ->)].
    { rewrite hdr_blocks_nil by lia. apply not_elem_of_nil. }
    apply commit_writes_in in Hin as [[_ ?]|[Hin|(_ & [->| ->])]]; [done| | |].
    + by destruct (lo_range _ _ _ Hlog _ Hin).
    + by rewrite (new_head_blocks l size_ bs) by (done || lia).
    + rewrite hdr_blocks_nil; [apply not_elem_of_nil|].
      destruct (cleared_head (new_head l (V (l_start l)))); [by apply (length_new_head l size_ bs)|lia].
Qed.
End commit_crash.
