(* ===== verification/Logtxn.v ===== *)
(** * Transactions

    What [begin_op], [log_write] and [end_op] do between them, for a process
    that runs alone, and the theorem on crashes: a transaction reaches the disk
    entirely or not at all. *)

From Stdlib Require Import ZArith Lia String.
From stdpp Require Import prelude numbers strings option gmap list relations.
From S2P Require Import Prelude Kernel Mem Sched Monitor Sleeplock Bio Log Logcrash.

(** ** The cache's view *)

Lemma cached_or_not b c :
  (exists i x, bufs b !! i = Some x /\ b_dev x = 1 /\ b_blockno x = c) \/
  (forall i x, bufs b !! i = Some x -> b_dev x = 1 -> b_blockno x <> c).
Proof.
  destruct (decide (Exists (fun x => b_dev x = 1 /\ b_blockno x = c) (bufs b))) as [Hex|Hno].
  - left. apply Exists_exists in Hex as (x & [i Hi]%list_elem_of_lookup & Hx). eauto.
  - right. intros i x Hi Hd Hb. apply Hno, Exists_exists. exists x. split; [by eapply list_elem_of_lookup_2|done].
Qed.

Lemma view_disk b n H V B c : bio_inv b n H V B -> c ∉ H.*2 -> c ∉ B -> V c = disk b c.
Proof.
  intros Hinv Hh HB.
  destruct (cached_or_not b c) as [(i & x & Hx & Hd & <-)|Hno].
  - destruct (bi_buf _ _ _ _ _ Hinv i x Hx) as [_ [(? & _)|(_ & _ & -> & Hf & Hst)]]; [congruence|].
    destruct Hst as [(Hin & _)|(_ & _ & Hdd)]; [|by destruct Hf as [[Hf _]|[_ ?]]; [apply Hdd|]].
    destruct Hh. apply list_elem_of_fmap. by exists (i, b_blockno x).
  - by apply (bi_view _ _ _ _ _ Hinv).
Qed.

Lemma view_len b n H V B c : bio_inv b n H V B -> length (V c) = 512%nat.
Proof.
  intros Hinv.
  destruct (cached_or_not b c) as [(i & x & Hx & Hd & <-)|Hno].
  - destruct (bi_buf _ _ _ _ _ Hinv i x Hx) as [Hl [(? & _)|(_ & _ & -> & _)]]; [congruence|done].
  - rewrite (bi_view _ _ _ _ _ Hinv); [apply Hinv|done].
Qed.

(** ** The invariant of the log between operations *)

(** [log_inv s n H V B]: the process with number [n] holds the buffers [H]; the
    file system sees block [b] as [V b]; the blocks [B] have been written in the
    current transaction and are in the log's header in memory, and nowhere on
    disk yet. *)
Record log_inv (s : lst) (n : Z) (H : list (nat * Z)) (V : Z -> block) (B : gset Z) : Prop := {
  li_bio : bio_inv (lbio s) n H V B;
  li_ok : exists bs, log_ok (llog s) (disksize (lbio s)) bs /\ forall c, c ∈ B <-> c ∈ bs;
  li_n : lh_n (llog s) <= 29;
  li_size : l_size (llog s) = 30;
  li_place : 2 <= l_start (llog s) /\ disksize (lbio s) <= 2 ^ 32;
  li_commit : l_committing (llog s) = 0;
  li_view : forall c, in_log (llog s) c -> V c = disk (lbio s) c;
  li_clean : hdr_n (disk (lbio s) (l_start (llog s))) = 0 }.

Lemma li_length s n H V B bs :
  log_inv s n H V B -> log_ok (llog s) (disksize (lbio s)) bs -> (forall c, c ∈ B <-> c ∈ bs) ->
  lh_n (llog s) = Z.of_nat (size B).
Proof.
  intros Hinv Hlog HB. pose proof (length_bs _ _ _ Hlog) as Hl. pose proof (lo_n _ _ _ Hlog).
  assert (B = list_to_set bs) as -> by (apply set_eq; intros c; by rewrite HB, elem_of_list_to_set).
  rewrite size_list_to_set by apply Hlog. lia.
Qed.

Lemma li_room s n H V B : log_inv s n H V B -> (size B <= 29)%nat.
Proof.
  intros Hinv. destruct (li_ok _ _ _ _ _ Hinv) as (bs & Hlog & HB). pose proof (li_length _ _ _ _ _ _ Hinv Hlog HB).
  pose proof (li_n _ _ _ _ _ Hinv). lia.
Qed.

(** The search of [log_write]. *)
Lemma log_find_spec bs n b :
  (n <= length bs)%nat ->
  let i := log_find bs n b in
  (b ∈ take n bs -> (i < n)%nat /\ bs !! i = Some b) /\ ((b ∉ take n bs) -> i = n).
Proof.
  revert n. induction bs as [|x bs IH]; intros [|n] Hn; cbn in *; try lia.
  - split; [by intros ?%not_elem_of_nil|done].
  - split; [by intros ?%not_elem_of_nil|done].
  - destruct (Z.eqb_spec x b) as [->|Hne].
    + split; [split; [lia|done]|intros Hb; destruct Hb; by left].
    + destruct (IH n ltac:(lia)) as [H1 H2]. rewrite elem_of_cons. split.
      * intros [?|Hin]; [congruence|]. destruct (H1 Hin). split; [lia|done].
      * intros Hb. rewrite H2; [done|]. intros ?. apply Hb. by right.
Qed.

Lemma log_add_ok l size_ bs c :
  log_ok l size_ bs -> 0 <= c < size_ -> ~ in_log l c -> lh_n l <= 28 ->
  log_ok (log_add c l) size_ (if decide (c ∈ bs) then bs else bs ++ [c]) /\
  lh_n (log_add c l) = (if decide (c ∈ bs) then lh_n l else lh_n l + 1).
Proof.
  intros Hlog Hc Hnl Hn. pose proof (length_bs _ _ _ Hlog) as Hlen. pose proof Hlog as [H1 H2 H3 H4 H5 H6 H7].
  destruct (log_find_spec (lh_block l) (Z.to_nat (lh_n l)) c) as [Hf1 Hf2]; [unfold LOGSIZE in *; lia|].
  unfold log_add. rewrite <- H4 in Hf1, Hf2. case_decide as Hin.
  - destruct (Hf1 Hin) as [Hi Hl]. rewrite (proj2 (Z.eqb_neq _ _)) by lia. split; [|done].
    rewrite list_insert_id by done. by split.
  - rewrite (Hf2 Hin), Z2Nat.id, Z.eqb_refl by lia. split; [|done]. split; cbn; try done.
    + by rewrite length_insert.
    + rewrite Z2Nat.inj_add by lia. cbn. rewrite Nat.add_1_r.
      rewrite (take_S_r _ _ c), take_insert_ge, <- H4 by (lia || apply list_lookup_insert_eq; lia). done.
    + unfold LOGSIZE in *. lia.
    + apply NoDup_app. split_and!; [done| |apply NoDup_singleton].
      intros b Hb ->%list_elem_of_singleton. done.
    + intros b. rewrite elem_of_app, list_elem_of_singleton. intros [Hb| ->]; [by apply H7|done].
Qed.

(** ** Operations inside a transaction *)

(** What they leave alone: the disk, the place of the log, the number of
    operations in progress. *)
Record inside (s s' : lst) : Prop := {
  in_ran : ran (lbio s) (lbio s') [];
  in_start : l_start (llog s') = l_start (llog s);
  in_out : l_outstanding (llog s') = l_outstanding (llog s) }.

#[export] Instance inside_pre : PreOrder inside.
Proof.
  split; [intros s; split; [apply ran_refl|done..]|].
  intros s1 s2 s3 [H1 H2 H3] [K1 K2 K3]. split; [by apply (ran_trans _ _ _ [] [] H1)|congruence..].
Qed.

Lemma inside_size s s' : inside s s' -> disksize (lbio s') = disksize (lbio s).
Proof. intros [Hr _ _]. apply Hr. Qed.

Lemma inside_disk s s' : inside s s' -> disk (lbio s') = disk (lbio s).
Proof. intros [Hr _ _]. apply Hr. Qed.

(** A block the file system may write. *)
Definition home (s : lst) (c : Z) : Prop := 0 <= c < disksize (lbio s) /\ ~ in_log (llog s) c.

Lemma inside_home s s' c : inside s s' -> home s c -> home s' c.
Proof. intros Hi. unfold home, in_log. by rewrite (inside_size _ _ Hi), (in_start _ _ Hi). Qed.

Lemma log_inv_bio s n H V B b' H' V' :
  log_inv s n H V B -> bio_inv b' n H' V' B -> ran (lbio s) b' [] ->
  (forall c, in_log (llog s) c -> V' c = V c) ->
  log_inv (mkLst (llog s) b') n H' V' B /\ inside s (mkLst (llog s) b').
Proof.
  intros [H1 H2 H3 H4 H5 H6 H7 H8] Hb Hr HV.
  assert (disk b' = disk (lbio s)) as Hd by apply Hr.
  split; [|by split]. split; cbn [llog lbio]; rewrite ?(rn_size _ _ _ Hr), ?Hd; try done.
  intros c Hc. rewrite HV by done. by apply H7.
Qed.

Lemma log_read_run s n H V B c :
  log_inv s n H V B -> 0 <= c < disksize (lbio s) -> c ∉ H.*2 -> c ∈ B \/ (length H + size B < NBUF)%nat ->
  exists i s', lbread 1 c [] s = Ret i [] s' /\ log_inv s' n ((i, c) :: H) V B /\ inside s s' /\
    ldata i [] s' = Ret (V c) [] s'.
Proof.
  intros Hinv Hc Hh Hroom. destruct s as [l b].
  destruct (lbread_run n l b H V B c (li_bio _ _ _ _ _ Hinv) Hc Hh Hroom) as (i & b' & Hr & Hinv' & Hd & Hran).
  destruct (log_inv_bio (mkLst l b) n H V B b' _ V Hinv Hinv' Hran) as [Hi Hin]; [done|].
  exists i, (mkLst l b'). split_and!; [done..|]. rewrite ldata_run. by rewrite Hd.
Qed.

Lemma log_data_run s n H V B i c :
  log_inv s n H V B -> (i, c) ∈ H -> ldata i [] s = Ret (V c) [] s.
Proof.
  intros Hinv Hin. destruct s as [l b]. rewrite ldata_run.
  destruct (held_buf b n H V B i c (li_bio _ _ _ _ _ Hinv) Hin) as (x & Hx & _ & _ & <- & _). by rewrite (get_buf_Some _ _ _ Hx).
Qed.

Lemma log_set_run s n H V B i c d :
  log_inv s n H V B -> (i, c) ∈ H -> ~ in_log (llog s) c -> length d = 512%nat ->
  exists s', lset i d [] s = Ret tt [] s' /\ log_inv s' n H (wr c d V) B /\ inside s s'.
Proof.
  intros Hinv Hin Hnl Hd. destruct s as [l b].
  destruct (lset_run n l b H V B i c d (li_bio _ _ _ _ _ Hinv) Hin Hd) as (b' & Hr & Hinv' & Hran).
  destruct (log_inv_bio (mkLst l b) n H V B b' H (wr c d V) Hinv Hinv' Hran) as [Hi Hins].
  { intros e He. apply wr_other. intros ->. done. }
  by exists (mkLst l b').
Qed.

Lemma log_brelse_run s n H1 i c H2 V B :
  log_inv s n (H1 ++ (i, c) :: H2) V B -> c ∈ B \/ V c = disk (lbio s) c ->
  exists s', lbrelse i [] s = Ret tt [] s' /\ log_inv s' n (H1 ++ H2) V B /\ inside s s'.
Proof.
  intros Hinv Hc. destruct s as [l b].
  destruct (lbrelse_run n l b H1 i c H2 V B (li_bio _ _ _ _ _ Hinv) Hc) as (b' & Hr & Hinv' & Hran).
  destruct (log_inv_bio (mkLst l b) n _ V B b' _ V Hinv Hinv' Hran) as [Hi Hins]; [done|].
  by exists (mkLst l b').
Qed.

Lemma log_write_run s n H V B i c :
  log_inv s n H V B -> (i, c) ∈ H -> home s c -> (size B < 29)%nat -> 1 <= l_outstanding (llog s) ->
  exists s', log_write i [] s = Ret tt [] s' /\ log_inv s' n H V ({[c]} ∪ B) /\ inside s s'.
Proof.
  intros Hinv Hin [Hc Hnl] HB Hout. destruct s as [l b]. pose proof Hinv as [H1 (bs & Hlog & HBs) H3 H4 H5 H6 H7 H8].
  pose proof (li_length _ _ _ _ _ _ Hinv Hlog HBs) as Hn. cbn [llog lbio] in *.
  destruct (held_buf b n H V B i c H1 Hin) as (x & Hx & _ & Hxc & _).
  destruct (log_add_ok l _ bs c Hlog Hc Hnl ltac:(lia)) as [Hlog' Hn'].
  pose proof (bdirty_inv b n H V B i c H1 Hin) as Hinv'. set (b' := upd_buf i _ b) in Hinv'.
  assert (l_start (log_add c l) = l_start l /\ l_size (log_add c l) = l_size l /\
    l_outstanding (log_add c l) = l_outstanding l /\ l_committing (log_add c l) = l_committing l) as (E1 & E2 & E3 & E4).
  { unfold log_add. by destruct (_ =? lh_n l). }
  exists (mkLst (log_add c l) b'). split_and!.
  - unfold log_write. repeat kstep_base. cbn [llog]. rewrite H4. unfold LOGSIZE.
    rewrite !(proj2 (Z.leb_gt _ _)) by lia. cbn [orb]. rewrite (proj2 (Z.ltb_ge _ _)) by lia.
    repeat kstep_base. cbn [lbio]. rewrite (get_buf_Some _ _ _ Hx), Hxc. done.
  - split; cbn [llog lbio]; rewrite ?E1, ?E2, ?E3, ?E4; try done.
    + exists (if decide (c ∈ bs) then bs else bs ++ [c]). split; [done|]. intros e. rewrite elem_of_union, elem_of_singleton, HBs.
      case_decide; rewrite ?elem_of_app, ?list_elem_of_singleton; split; [intros [->|]; done|auto|tauto|tauto].
    + rewrite Hn'. case_decide; lia.
    + intros e He. apply H7. unfold in_log in *. by rewrite E1 in He.
  - split; [|done..]. split; [done|by rewrite app_nil_r|done|reflexivity].
Qed.

(** ** Whole transactions *)

(** A transaction of a file system call: the blocks it writes, in order. *)
Fixpoint txn_body (ws : list (Z * block)) : K lst unit :=
  match ws with
  | [] => mret ()
  | (c, d) :: ws =>
      i ← lbread 1 c;
      lset i d;;
      log_write i;;
      lbrelse i;;
      txn_body ws
  end.
Definition transaction (ws : list (Z * block)) : K lst unit :=
  begin_op llog put_log;;
  txn_body ws;;
  end_op.

Definition ws_ok (s : lst) (ws : list (Z * block)) : Prop :=
  forall c d, (c, d) ∈ ws -> home s c /\ length d = 512%nat.

Lemma txn_body_run ws s n V B :
  log_inv s n [] V B -> ws_ok s ws -> (size B + length ws <= 29)%nat -> 1 <= l_outstanding (llog s) ->
  exists s' B', txn_body ws [] s = Ret tt [] s' /\ log_inv s' n [] (apply_writes ws V) B' /\ inside s s' /\
    (forall c, c ∈ B' <-> c ∈ B \/ c ∈ ws.*1).
Proof.
  revert s V B. induction ws as [|[c d] ws IH]; intros s V B Hinv Hws Hsz Hout.
  { exists s, B. split_and!; try done. intros c. split; [by left|]. by intros [?|?%not_elem_of_nil]. }
  cbn [length] in Hsz. destruct (Hws c d ltac:(by left)) as [Hc Hd].
  destruct (log_read_run s n [] V B c Hinv (proj1 Hc)) as (i & s1 & R1 & I1 & N1 & _);
    [apply not_elem_of_nil|right; cbn; unfold NBUF; lia|].
  pose proof (inside_home _ _ _ N1 Hc) as Hc1. assert ((i, c) ∈ [(i, c)]) as Hin by (by left).
  destruct (log_set_run s1 n _ V B i c d I1 Hin (proj2 Hc1) Hd) as (s2 & R2 & I2 & N2).
  destruct (log_write_run s2 n _ _ B i c I2 Hin) as (s3 & R3 & I3 & N3);
    [by eapply inside_home|lia|by rewrite (in_out _ _ N2), (in_out _ _ N1)|].
  destruct (log_brelse_run s3 n [] i c [] _ _ I3) as (s4 & R4 & I4 & N4); [left; set_solver|].
  assert (inside s s4) as N by (etrans; [exact N1|]; etrans; [exact N2|]; etrans; [exact N3|exact N4]).
  destruct (IH s4 (wr c d V) ({[c]} ∪ B) I4) as (s' & B' & R' & I' & N' & HB').
  { intros e f He. destruct (Hws e f ltac:(by right)) as [He' ?]. split; [by eapply inside_home|done]. }
  { pose proof (size_union_alt {[c]} B) as Hu. rewrite size_singleton in Hu.
    pose proof (subseteq_size (B ∖ {[c]}) B ltac:(set_solver)). lia. }
  { by rewrite (in_out _ _ N). }
  exists s', B'. split_and!; [|done|by etrans|].
  - cbn [txn_body]. run_with R1. run_with R2. run_with R3. by run_with R4.
  - intros e. rewrite HB'. cbn. rewrite elem_of_cons, elem_of_union, elem_of_singleton. tauto.
Qed.

Lemma begin_op_run s n H V :
  log_inv s n H V ∅ -> l_outstanding (llog s) = 0 ->
  begin_op llog put_log [] s = Ret tt [] (put_log (set_outstanding 1 (llog s)) s).
Proof.
  intros Hinv Hout. pose proof Hinv as [_ (bs & Hlog & HBs) _ _ _ Hcom _ _].
  pose proof (li_length _ _ _ _ _ _ Hinv Hlog HBs) as Hn. rewrite size_empty in Hn.
  unfold begin_op, begin_op_loop. repeat kstep_base. rewrite Hcom, Hn, Hout. change (negb (0 =? 0)) with false.
  change (LOGSIZE <? Z.of_nat 0 + (0 + 1) * MAXOPBLOCKS) with false. cbv iota.
  unfold upd_log. rewrite bind_unfold, modify_run. rewrite Hout. by rewrite release_top by not_held.
Qed.

Lemma bio_inv_table b n H V B t :
  bio_inv b n H V B -> woke (btable b) t -> bio_inv (put_part t b) n H V B.
Proof.
  intros [H1 H2 H3 H4 H5 H6 H7 H8 H9 H10] Ht.
  split; [by eapply woke_current|exact H2|destruct H3 as (l & [? ? ? ? ?] & ?); exists l; split; [by split|done]|exact H4|exact H5|exact H6|exact H7|exact H8|exact H9|exact H10].
Qed.

Lemma bio_inv_ext b n H V V' B : (forall c, V c = V' c) -> bio_inv b n H V B -> bio_inv b n H V' B.
Proof.
  intros HV [H1 H2 H3 H4 H5 H6 H7 H8 H9 H10]. split; try done.
  - intros i x Hx. destruct (H4 i x Hx) as [Hl [?|(Hd & Hr & Hv & Hf)]]; split; [done|by left|done|right].
    by rewrite <- HV.
  - intros c Hc. rewrite <- HV. by apply H9.
Qed.

(** What a call of [end_op] that commits writes to the disk. *)
Definition txn_writes (V : Z -> block) (l : log) (bs : list Z) : list (Z * block) :=
  if 0 <? lh_n l then commit_writes V l bs else [].

Lemma commit_run_all n l size_ bs b V B :
  log_ok l size_ bs -> disksize b = size_ -> bio_inv b n [] V B -> (size B <= 29)%nat ->
  (forall c, c ∈ B <-> c ∈ bs) -> (forall c, in_log l c -> V c = disk b c) ->
  exists b' V', commit [] (mkLst l b) = Ret tt [] (mkLst (set_lh_n 0 l) b') /\ bio_inv b' n [] V' ∅ /\
    ran b b' (txn_writes V l bs) /\ (forall c, ~ in_log l c -> V' c = V c) /\ (forall c, in_log l c -> V' c = disk b' c).
Proof.
  intros Hlog Hsz Hinv HB HBs HV. unfold txn_writes. destruct (Z.ltb_spec 0 (lh_n l)) as [Hp|Hz].
  - by eapply commit_run.
  - assert (lh_n l = 0) as Hn by (pose proof (lo_n _ _ _ Hlog); lia). exists b, V.
    assert (B = ∅) as ->.
    { apply set_eq. intros c. rewrite HBs, (lo_bs _ _ _ Hlog), Hn. split; [by intros ?%not_elem_of_nil|by intros ?%not_elem_of_empty]. }
    split_and!; [|done|apply ran_refl|done|done]. unfold commit. repeat kstep_base. cbn [llog].
    rewrite (proj2 (Z.ltb_ge _ _)) by done. destruct l. cbn in Hn. by subst.
Qed.

Lemma end_op_run s n V B bs :
  log_inv s n [] V B -> l_outstanding (llog s) = 1 ->
  log_ok (llog s) (disksize (lbio s)) bs -> (forall c, c ∈ B <-> c ∈ bs) ->
  exists s' V', end_op [] s = Ret tt [] s' /\ l_start (llog s') = l_start (llog s) /\ l_outstanding (llog s') = 0 /\
    l_size (llog s') = 30 /\ log_ok (llog s') (disksize (lbio s')) [] /\ lh_n (llog s') = 0 /\ l_committing (llog s') = 0 /\
    bio_inv (lbio s') n [] V' ∅ /\ ran (lbio s) (lbio s') (txn_writes V (llog s) bs) /\
    (forall c, ~ in_log (llog s) c -> V' c = V c) /\ (forall c, in_log (llog s) c -> V' c = disk (lbio s') c).
Proof.
  intros Hinv Hout Hlog HBs. pose proof Hinv as [Hb _ Hn Hsize Hpl Hcom HV Hclean]. pose proof (li_room _ _ _ _ _ Hinv) as Hroom.
  destruct s as [l b]. cbn [llog lbio] in *.
  set (l1 := set_committing 1 (set_outstanding 0 l)).
  destruct (commit_run_all n l1 (disksize b) bs b V B) as (b' & V' & R & I & N & HV1 & HV2); try done.
  { by destruct Hlog; split. }
  set (t := set_procs (wake_one ChLog <$> procs (btable b')) (btable b')).
  exists (mkLst (set_committing 0 (set_lh_n 0 l1)) (put_part t b')), V'.
  assert (end_op_begin llog put_log [] (mkLst l b) = Ret true [] (mkLst l1 b)) as R0.
  { unfold end_op_begin, upd_log, put_log. repeat kstep_base. cbn [llog lbio l_committing set_outstanding l_outstanding].
    rewrite Hcom, Hout. change (negb (0 =? 0)) with false. change (1 - 1 =? 0) with true. cbv iota.
    repeat kstep_base. done. }
  assert (woke (btable b') t) as Ht by apply woke_wakeup.
  split_and!; try done.
  - unfold end_op. run_with R0. run_with R. unfold end_op_finish, upd_log, put_log. ksteps. done.
  - cbn. rewrite (rn_size _ _ _ N). apply (cleared_ok (set_committing 0 l1) (disksize b) bs). by destruct Hlog; split.
  - by apply bio_inv_table.
  - destruct N as [N1 N2 N3 N4]. split; try done. by eapply woke_trans.
Qed.

(** ** Starting the machine *)

Lemma readsb_run s n V B :
  bio_inv (lbio s) n [] V B -> 1 < disksize (lbio s) -> (size B < NBUF)%nat -> V 1 = disk (lbio s) 1 ->
  exists b', readsb 1 [] s = Ret (decode_sb (V 1)) [] (mkLst (llog s) b') /\ bio_inv b' n [] V B /\ ran (lbio s) b' [].
Proof.
  destruct s as [l b]. cbn [llog lbio]. intros Hinv Hsz HB HV.
  destruct (lbread_run n l b [] V B 1 Hinv) as (i & b1 & R1 & I1 & D1 & N1); [lia|apply not_elem_of_nil|right; cbn; lia|].
  destruct (lbrelse_run n l b1 [] i 1 [] V B I1) as (b2 & R2 & I2 & N2).
  { right. by rewrite (rn_disk _ _ _ N1). }
  exists b2. split_and!; [|done|by apply (ran_trans _ _ _ [] [] N1 N2)].
  unfold readsb. run_with R1. run_with (ldata_run i l b1). rewrite D1. run_with R2. done.
Qed.

Definition boot (D : Z -> block) (size : Z) (t : pstate) : lst := mkLst log0 (bst0 D size t).

Lemma boot_disk D size t : disk (bst0 D size t) = D /\ disksize (bst0 D size t) = size /\ writes (bst0 D size t) = [].
Proof.
  unfold bst0. set (s := mkBst _ _ _ _ _ _ _). destruct (binit_bufs s eq_refl) as (_ & -> & -> & -> & _). done.
Qed.

#[global] Opaque bst0.

Lemma initlog_from b0 D size_ n start :
  disk b0 = D -> disksize b0 = size_ -> bio_inv b0 n [] D ∅ -> header_ok D start size_ ->
  sb_logstart (decode_sb (D 1)) = start ->
  exists l' b', initlog 1 [] (mkLst log0 b0) = Ret tt [] (mkLst l' b') /\ ran b0 b' (recover_writes D start) /\
    bio_inv b' n [] (disk b') ∅ /\ lh_n l' = 0 /\ l_start l' = start.
Proof.
  intros Ed Es Hinv Hok Hsb. pose proof (ho_start _ _ _ Hok) as [Hs0 Hs1]. unfold LOGSIZE in Hs1.
  destruct (readsb_run (mkLst log0 b0) n D ∅) as (b1 & R1 & I1 & N1); cbn [lbio llog] in *;
    [done|lia|rewrite size_empty; unfold NBUF; lia|by rewrite Ed|].
  set (l := set_place start (sb_nlog (decode_sb (D 1))) 1 log0).
  destruct (recover_run n l b1 D size_) as (b2 & R2 & N2 & I2); try done.
  { by rewrite (rn_size _ _ _ N1). } { by rewrite (rn_disk _ _ _ N1). }
  exists (set_lh_n 0 (loaded l (D start))), b2. split; [|split; [exact (ran_trans _ _ _ [] _ N1 N2)|by split]].
  unfold initlog. rewrite (proj2 (Z.leb_gt _ _)) by (unfold BSIZE, LOGSIZE; lia). run_with R1.
  rewrite bind_unfold, modify_run. cbv beta iota. cbn [llog]. rewrite Hsb. exact R2.
Qed.

Lemma initlog_run D size_ t n start :
  current t n -> header_ok D start size_ -> sb_logstart (decode_sb (D 1)) = start ->
  exists s', initlog 1 [] (boot D size_ t) = Ret tt [] s' /\
    writes (lbio s') = recover_writes D start /\ disk (lbio s') = apply_writes (recover_writes D start) D /\
    disksize (lbio s') = size_ /\ bio_inv (lbio s') n [] (disk (lbio s')) ∅ /\ lh_n (llog s') = 0 /\ l_start (llog s') = start.
Proof.
  intros Hc Hok Hsb. destruct (boot_disk D size_ t) as (Ed & Es & Ew).
  pose proof (bst0_inv D size_ t n Hc (ho_len _ _ _ Hok)) as Hinv.
  destruct (initlog_from _ D size_ n start Ed Es Hinv Hok Hsb) as (l' & b' & R & N & I & Hn & Hs).
  exists (mkLst l' b'). split; [exact R|]. cbn [lbio llog].
  rewrite (rn_writes _ _ _ N), (rn_size _ _ _ N), Ew, Es. split; [done|]. split; [by rewrite (rn_disk _ _ _ N), Ed|].
  split; [reflexivity|]. split; [exact I|split; assumption].
Qed.

(** The machine starts on the disk [D] and stops after some of the writes of
    recovery. *)
Inductive crash_reboot (size : Z) (D : Z -> block) : (Z -> block) -> Prop :=
  | Crash_reboot t n k s' :
      current t n -> initlog 1 [] (boot D size t) = Ret tt [] s' ->
      crash_reboot size D (apply_writes (take k (writes (lbio s'))) D).

(** A disk that starts, and whose recovery yields [E]. *)
Record bootable (start size : Z) (E D : Z -> block) : Prop := {
  bo_rec : recovers_to D start size E;
  bo_sb : sb_logstart (decode_sb (D 1)) = start;
  bo_keep : 1 ∉ hdr_blocks (D start) }.

Lemma bootable_reboot start size_ E D D' :
  bootable start size_ E D -> crash_reboot size_ D D' -> bootable start size_ E D'.
Proof.
  intros [Hrec Hsb Hkeep] [t n k s' Hc Hrun]. pose proof (rt_ok _ _ _ _ Hrec) as Hok.
  destruct (initlog_run D size_ t n start Hc Hok Hsb) as (s1 & R & Hw & _). rewrite Hrun in R. injection R as <-.
  rewrite Hw. clear Hrun Hw. pose proof (ho_start _ _ _ Hok). split.
  - by apply recovery_prefix.
  - rewrite recovery_prefix_other by (done || lia). done.
  - destruct (recovery_prefix_header k D start size_ Hok) as [-> | ->]; [done|apply not_elem_of_nil].
Qed.

Lemma bootable_reboots start size_ E D D' :
  bootable start size_ E D -> rtc (crash_reboot size_) D D' -> bootable start size_ E D'.
Proof. intros H Hr. induction Hr as [|D1 D2 D3 Hs _ IH]; [done|]. by eapply IH, bootable_reboot. Qed.

Lemma bootable_boots start size_ E D t n :
  bootable start size_ E D -> current t n ->
  exists s', initlog 1 [] (boot D size_ t) = Ret tt [] s' /\
    forall c, ~ (start <= c < start + LOGSIZE) -> disk (lbio s') c = E c.
Proof.
  intros [Hrec Hsb _] Hc. destruct (initlog_run D size_ t n start Hc (rt_ok _ _ _ _ Hrec) Hsb) as (s' & R & _ & Hd & _).
  exists s'. split; [done|]. intros c Hn. rewrite Hd. by apply Hrec.
Qed.

(** ** Transactions and crashes *)

(** No operation is in progress; the disk holds what the file system sees. *)
Record idle (s : lst) (n : Z) : Prop := {
  id_inv : log_inv s n [] (disk (lbio s)) ∅;
  id_out : l_outstanding (llog s) = 0 }.

Lemma txn_writes_clean V l size_ bs D :
  log_ok l size_ bs -> length (V (l_start l)) = 512%nat -> hdr_n (D (l_start l)) = 0 ->
  hdr_n (apply_writes (txn_writes V l bs) D (l_start l)) = 0.
Proof.
  intros Hlog Hl Hd. unfold txn_writes, commit_writes. destruct (0 <? lh_n l); [|done].
  rewrite !apply_app. cbn [apply_writes fold_left fst snd]. rewrite wr_same.
  apply cleared_head. by apply (length_new_head l size_ bs).
Qed.

(** [end_op] of the only operation in progress, begun when the log was idle. *)
Lemma end_op_idle s s1 n V B :
  idle s n -> inside (put_log (set_outstanding 1 (llog s)) s) s1 -> log_inv s1 n [] V B ->
  exists s2 bs, end_op [] s1 = Ret tt [] s2 /\ idle s2 n /\ ran (lbio s) (lbio s2) (txn_writes V (llog s1) bs) /\
    log_ok (llog s1) (disksize (lbio s)) bs /\ l_start (llog s1) = l_start (llog s) /\ (forall c, c ∈ B <-> c ∈ bs) /\
    l_start (llog s2) = l_start (llog s) /\ (forall c, ~ in_log (llog s) c -> disk (lbio s2) c = V c).
Proof.
  intros [Hinv Hout] N1 I1. pose proof (li_ok _ _ _ _ _ I1) as (bs & Hlog & HBs).
  destruct (end_op_run s1 n V B bs I1) as (s2 & V2 & R2 & E1 & E2 & E3 & L2 & E4 & E5 & I2 & N2 & HV2 & HV2'); try done.
  { by rewrite (in_out _ _ N1). }
  assert (l_start (llog s1) = l_start (llog s)) as Es1 by exact (in_start _ _ N1).
  assert (l_start (llog s2) = l_start (llog s)) as Est by (by rewrite E1).
  assert (ran (lbio s) (lbio s2) (txn_writes V (llog s1) bs)) as N by exact (ran_trans _ _ _ [] _ (in_ran _ _ N1) N2).
  assert (forall c, V2 c = disk (lbio s2) c) as HVd.
  { intros c. apply (view_disk _ n [] V2 ∅); [done|apply not_elem_of_nil|apply not_elem_of_empty]. }
  exists s2, bs. split_and!; [done| |done| |done|done|done|].
  - split; [|done]. split; rewrite ?Est; try done; [by eapply bio_inv_ext|exists []; split; [done|]| | |].
    + intros c. split; [by intros ?%not_elem_of_empty|by intros ?%not_elem_of_nil].
    + lia.
    + rewrite (rn_size _ _ _ N). apply Hinv.
    + rewrite (rn_disk _ _ _ N), <- Es1. eapply txn_writes_clean; [done|by eapply view_len, I1|]. rewrite Es1. apply Hinv.
  - assert (disksize (lbio s1) = disksize (lbio s)) as <- by exact (inside_size _ _ N1). exact Hlog.
  - intros c Hc. rewrite <- HVd. apply HV2. unfold in_log in *. by rewrite Es1.
Qed.

(** The state after [begin_op] on an idle log. *)
Lemma begun_inv s n V : log_inv s n [] V ∅ -> log_inv (put_log (set_outstanding 1 (llog s)) s) n [] V ∅.
Proof. intros [H1 (bs & [? ? ? ? ? ? ?] & HB) H3 H4 H5 H6 H7 H8]. split; try done. exists bs. by split. Qed.

Lemma transaction_run ws s n :
  idle s n -> ws_ok s ws -> (length ws <= 29)%nat ->
  exists s' l bs, transaction ws [] s = Ret tt [] s' /\ idle s' n /\
    ran (lbio s) (lbio s') (txn_writes (apply_writes ws (disk (lbio s))) l bs) /\
    log_ok l (disksize (lbio s)) bs /\ l_start l = l_start (llog s) /\ (forall c, c ∈ bs <-> c ∈ ws.*1).
Proof.
  intros Hid Hws Hlen. pose proof Hid as [Hinv Hout]. pose proof (begin_op_run s n [] _ Hinv Hout) as R0.
  pose proof (begun_inv s n _ Hinv) as I0. set (s0 := put_log (set_outstanding 1 (llog s)) s) in *.
  destruct (txn_body_run ws s0 n _ ∅ I0) as (s1 & B & R1 & I1 & N1 & HB); [done|by rewrite size_empty|done|].
  destruct (end_op_idle s s1 n _ B Hid N1 I1) as (s2 & bs & R2 & Hid2 & N2 & Hlog & Hst & HBs & _).
  exists s2, (llog s1), bs. split_and!; [|done|done|done|done|].
  - unfold transaction. run_with R0. run_with R1. exact R2.
  - intros c. rewrite <- HBs, HB. split; [|by right]. by intros [?%not_elem_of_empty|?].
Qed.

(** The disk after a transaction, seen outside the log. *)
Lemma home_copy_writes ws D bs c :
  NoDup bs -> (forall c, c ∈ bs <-> c ∈ ws.*1) ->
  apply_writes (home_copy (apply_writes ws D) bs) D c = apply_writes ws D c.
Proof.
  intros Hnd Hbs.
  assert ((home_copy (apply_writes ws D) bs).*1 = bs) as Hkeys by (unfold home_copy; rewrite <- list_fmap_compose; apply list_fmap_id).
  destruct (decide (c ∈ bs)) as [Hin|Hnin].
  - apply apply_in; [by rewrite Hkeys|]. apply list_elem_of_fmap. by exists c.
  - rewrite apply_other by (by rewrite Hkeys). symmetry. apply apply_other. by rewrite <- Hbs.
Qed.

(** When the machine stops in a transaction, what it left can be started from. *)
Lemma transaction_prefix ws s n l bs k :
  idle s n -> ws_ok s ws -> log_ok l (disksize (lbio s)) bs -> l_start l = l_start (llog s) ->
  (forall c, c ∈ bs <-> c ∈ ws.*1) -> 1 ∉ ws.*1 ->
  sb_logstart (decode_sb (disk (lbio s) 1)) = l_start (llog s) ->
  let D := disk (lbio s) in
  let tr := txn_writes (apply_writes ws D) l bs in
  exists E, bootable (l_start (llog s)) (disksize (lbio s)) E (apply_writes (take k tr) D) /\
    ((forall c, E c = D c) \/ (forall c, E c = apply_writes ws D c)) /\
    ((length tr <= k)%nat -> forall c, E c = apply_writes ws D c).
Proof.
  intros [Hinv Hout] Hws Hlog Hst Hbs H1 Hsb D tr. pose proof Hinv as [Hb _ _ _ [Hp Hp'] _ _ Hclean].
  assert (forall c, apply_writes (home_copy (apply_writes ws D) bs) D c = apply_writes ws D c) as Hnew
    by (intros c; apply home_copy_writes; [apply Hlog|done]).
  assert (forall c, length (D c) = 512%nat) as HDl by apply Hb.
  assert (forall c, length (apply_writes ws D c) = 512%nat) as HWl.
  { rewrite <- (firstn_all ws). apply apply_take_len; [done|]. intros c d Hin. by apply (Hws c d). }
  assert (apply_writes ws D (l_start l) = D (l_start l)) as HWs.
  { apply apply_other. rewrite <- Hbs. intros Hin. destruct (lo_range _ _ _ Hlog _ Hin) as [_ Hn]. apply Hn. unfold in_log, LOGSIZE. lia. }
  rewrite <- Hst in Hsb, Hp, Hclean |- *. rewrite <- Hbs in H1.
  unfold tr, txn_writes. destruct (0 <? lh_n l) eqn:Hn.
  - exists (if decide (k <= length bs)%nat then D else apply_writes (home_copy (apply_writes ws D) bs) D).
    destruct (commit_prefix_keep l (disksize (lbio s)) bs (apply_writes ws D) D Hlog (conj Hp Hp') HWl Hclean k 1) as [K1 K2];
      [unfold in_log, LOGSIZE; lia|done|].
    split_and!.
    + split; [by apply commit_prefix|by rewrite K1|done].
    + case_decide; [by left|by right].
    + unfold commit_writes. rewrite !length_app, length_log_writes. cbn [length]. intros Hk. case_decide; [lia|done].
  - exists D. assert (forall c, D c = apply_writes ws D c) as Hsame.
    { intros c. symmetry. apply apply_other. rewrite <- Hbs, (lo_bs _ _ _ Hlog). apply Z.ltb_ge in Hn.
      replace (Z.to_nat (lh_n l)) with 0%nat by lia. apply not_elem_of_nil. }
    rewrite take_nil. split_and!; [|by left|done]. cbn [apply_writes fold_left].
    pose proof (uncommitted_recovers l (disksize (lbio s)) bs D D Hlog (conj Hp Hp') HDl HDl Hclean 0 ltac:(lia)) as Hrec.
    split; [exact Hrec|done|]. rewrite hdr_blocks_nil by (unfold D; lia). apply not_elem_of_nil.
Qed.

(** C1: a transaction is atomic across crashes.  A process that finds the log
    idle runs [begin_op], up to 29 block writes through [log_write], and
    [end_op]; it completes, and leaves the log idle.  Let the machine stop after
    any number [k] of the disk writes made meanwhile, and then stop any number
    of times in recovery: the next [initlog] that completes leaves outside the
    log either the old contents of every block or the new contents of every
    block, and the new ones when the transaction had completed. *)
Theorem log_crash_atomic ws s n :
  idle s n -> ws_ok s ws -> (length ws <= 29)%nat -> 1 ∉ ws.*1 ->
  sb_logstart (decode_sb (disk (lbio s) 1)) = l_start (llog s) ->
  let old := disk (lbio s) in
  exists s' tr, transaction ws [] s = Ret tt [] s' /\ idle s' n /\ writes (lbio s') = writes (lbio s) ++ tr /\
    forall k D t m, rtc (crash_reboot (disksize (lbio s))) (apply_writes (take k tr) old) D -> current t m ->
      exists sr, initlog 1 [] (boot D (disksize (lbio s)) t) = Ret tt [] sr /\
        ((forall c, ~ in_log (llog s) c -> disk (lbio sr) c = old c) \/
         (forall c, ~ in_log (llog s) c -> disk (lbio sr) c = apply_writes ws old c)) /\
        ((length tr <= k)%nat -> forall c, ~ in_log (llog s) c -> disk (lbio sr) c = apply_writes ws old c).
Proof.
  intros Hid Hws Hlen H1 Hsb old.
  destruct (transaction_run ws s n Hid Hws Hlen) as (s' & l & bs & R & Hid' & N & Hlog & Hst & Hbs).
  exists s', (txn_writes (apply_writes ws old) l bs). split; [exact R|]. split; [exact Hid'|]. split; [apply N|].
  clear R Hid'. intros k D t m Hreb Hc.
  destruct (transaction_prefix ws s n l bs k Hid Hws Hlog Hst Hbs H1 Hsb) as (E & Hboot & Hcase & Hfull).
  destruct (bootable_boots _ _ E D t m (bootable_reboots _ _ _ _ _ Hboot Hreb) Hc) as (sr & Rr & Hsr).
  exists sr. split; [exact Rr|]. clear Rr. split.
  - destruct Hcase as [Ho|Ho]; [left|right]; intros c Hn; rewrite Hsr by done; apply Ho.
  - intros Hk c Hn. rewrite Hsr by done. by apply Hfull.
Qed.

Definition disk0 (b : Z) : block := if b =? 1 then put32 16 2 (replicate 512 0) else replicate 512 0.

Lemma disk0_len b : length (disk0 b) = 512%nat.
Proof. unfold disk0. destruct (b =? 1); [rewrite length_put32; rewrite ?length_replicate; [reflexivity|lia]|by rewrite length_replicate]. Qed.

Definition log_example : lst := mkLst (set_place 2 30 1 log0) (bst0 disk0 1000 bio_procs).

Lemma log_example_disk : disk (lbio log_example) = disk0 /\ disksize (lbio log_example) = 1000.
Proof. destruct (boot_disk disk0 1000 bio_procs) as (H1 & H2 & _). exact (conj H1 H2). Qed.

Lemma log_example_idle : idle log_example 3.
Proof.
  pose proof (bst0_inv disk0 1000 bio_procs 3 bio_procs_current disk0_len) as Hinv.
  destruct log_example_disk as [Hd Hsz]. split; [|reflexivity]. rewrite Hd.
  split; rewrite ?Hd, ?Hsz; try reflexivity; cbn [llog log_example].
  - exact Hinv.
  - clear Hinv Hd Hsz. exists []. split; [|intros c; split; [by intros ?%not_elem_of_empty|by intros ?%not_elem_of_nil]].
    split; cbn; unfold LOGSIZE; try lia; try reflexivity; [constructor|by intros ? ?%not_elem_of_nil].
  - cbn. lia.
  - cbn. lia.
Qed.

Lemma log_crash_atomic_witness :
  exists s' tr, transaction [(60, replicate 512 7)] [] log_example = Ret tt [] s' /\ idle s' 3 /\
    forall k D, rtc (crash_reboot 1000) (apply_writes (take k tr) disk0) D ->
      exists sr, initlog 1 [] (boot D 1000 bio_procs) = Ret tt [] sr /\
        (disk (lbio sr) 60 = replicate 512 0 \/ disk (lbio sr) 60 = replicate 512 7).
Proof.
  destruct log_example_disk as [Hd Hsz].
  destruct (log_crash_atomic [(60, replicate 512 7)] log_example 3) as (s' & tr & R & Hid & _ & Hcr).
  - apply log_example_idle.
  - intros c d Hin%list_elem_of_singleton. injection Hin as -> ->. split; [|reflexivity].
    split; [rewrite Hsz; lia|]. unfold in_log, LOGSIZE. cbn. lia.
  - cbn. lia.
  - cbn. rewrite list_elem_of_singleton. lia.
  - rewrite Hd. reflexivity.
  - exists s', tr. split; [exact R|]. split; [exact Hid|]. clear R. rewrite Hd, Hsz in Hcr. intros k D Hreb.
    destruct (Hcr k D bio_procs 3 Hreb bio_procs_current) as (sr & Rr & Hc & _). exists sr. split; [exact Rr|]. clear Rr.
    destruct Hc as [Hc|Hc]; [left|right]; (rewrite Hc; [reflexivity|unfold in_log, LOGSIZE; cbn; lia]).
Defined.
