(* ===== verification/Ulib.v ===== *)
(** * The user library (src/ulib.c) and programs that make system calls

    A pointer into an array is the list of the bytes from there to the end of
    the array; a string ends at the first zero, or where the array ends.

    A user program is a function of what the kernel answers: each system call
    takes the next answer of a script and is recorded.  A program whose script
    has run out waits in its system call. *)

From Stdlib Require Import ZArith Lia String.
From stdpp Require Import prelude numbers option list.
From S2P Require Import Prelude.

(** ** Strings *)

Fixpoint strlen (s : list Z) : Z :=
  match s with
  | [] => 0
  | x :: s => if x =? 0 then 0 else 1 + strlen s
  end.

(** The offset of [c] before the end of the string. *)
Fixpoint strchr (s : list Z) (c : Z) : option nat :=
  match s with
  | [] => None
  | x :: s => if x =? 0 then None else if x =? c then Some 0%nat else S <$> strchr s c
  end.

Fixpoint strcmp (p q : list Z) : Z :=
  match p, q with
  | x :: p', y :: q' =>
      if negb (x =? 0) && (x =? y) then strcmp p' q' else u8 x - u8 y
  | x :: _, [] => u8 x
  | [], y :: _ => - u8 y
  | [], [] => 0
  end.

(** [strcpy]: the destination array, from the pointer on, after the copy. *)
Fixpoint strcpy (s t : list Z) : list Z :=
  match s, t with
  | _ :: s, c :: t => c :: (if c =? 0 then s else strcpy s t)
  | _ :: s, [] => 0 :: s
  | [], _ => []
  end.

Definition isdigit (c : Z) : bool := (48 <=? c) && (c <=? 57).

Fixpoint atoi_loop (s : list Z) (n : Z) : Z :=
  match s with
  | c :: s => if isdigit c then atoi_loop s (s32 (n * 10 + c - 48)) else n
  | [] => n
  end.
Definition atoi (s : list Z) : Z := atoi_loop s 0.

(** [memset] and [memmove] from the start of an array; [memmove] copies upwards,
    from index [s] to index [d]. *)
Definition memset (dst : list Z) (c : Z) (n : nat) : list Z := replicate (n `min` length dst) (u8 c) ++ drop n dst.

Fixpoint memmove (n : nat) (d s : nat) (buf : list Z) : list Z :=
  match n with
  | O => buf
  | S n => memmove n (S d) (S s) (<[d := nth s buf 0]> buf)
  end.

(** The string at a pointer. *)
Fixpoint cstr (s : list Z) : list Z :=
  match s with
  | [] => []
  | x :: s => if x =? 0 then [] else x :: cstr s
  end.

Lemma strlen_cstr s : strlen s = Z.of_nat (length (cstr s)).
Proof. induction s as [|x s IH]; cbn; [done|]. destruct (x =? 0); cbn; lia. Qed.

Lemma cstr_app l r : 0 ∉ l -> cstr (l ++ 0 :: r) = l.
Proof.
  induction l as [|x l IH]; intros H; [done|]. apply not_elem_of_cons in H as [? H]. cbn.
  rewrite (proj2 (Z.eqb_neq _ _)) by done. by rewrite IH.
Qed.

Lemma strcmp_zero p q :
  Forall (fun x => 0 <= x < 256) p -> Forall (fun x => 0 <= x < 256) q -> strcmp p q = 0 <-> cstr p = cstr q.
Proof.
  intros Hp. revert q. induction Hp as [|x p Hx Hp IH]; intros q Hq; destruct Hq as [|y q Hy Hq]; cbn.
  - done.
  - rewrite u8_id by done. destruct (Z.eqb_spec y 0); split; (done || lia).
  - rewrite u8_id by done. destruct (Z.eqb_spec x 0); split; (done || lia).
  - rewrite !u8_id by done.
    destruct (Z.eqb_spec x 0), (Z.eqb_spec y 0), (Z.eqb_spec x y); cbn [negb andb];
      try (split; [lia|done]); try (split; [lia|by intros [=]]); try (split; [done|lia]).
    subst. rewrite IH by done. split; [by intros ->|by intros [=]].
Qed.

Lemma strcpy_spec s t : (length (cstr t) < length s)%nat -> strcpy s t = cstr t ++ 0 :: drop (S (length (cstr t))) s.
Proof.
  revert s. induction t as [|c t IH]; intros [|x s] Hl; cbn in *; try lia; try done.
  destruct (Z.eqb_spec c 0) as [->|Hc]; [done|]. cbn in *. f_equal. apply IH. lia.
Qed.

Lemma memmove_app n d s buf : (d <= s)%nat -> (s + n <= length buf)%nat ->
  memmove n d s buf = take d buf ++ take n (drop s buf) ++ drop (d + n) buf.
Proof.
  revert d s buf. induction n as [|n IH]; intros d s buf Hd Hs; cbn [memmove].
  { by rewrite take_0, app_nil_l, Nat.add_0_r, take_drop. }
  destruct (lookup_lt_is_Some_2 buf s ltac:(lia)) as [x Hx]. rewrite (nth_lookup_Some _ _ _ _ Hx).
  rewrite IH by (rewrite ?length_insert; lia).
  rewrite (take_S_r _ _ x) by (apply list_lookup_insert_eq; lia).
  rewrite take_insert_ge, !drop_insert_lt by lia. rewrite (drop_S buf x s Hx). cbn [take].
  rewrite <- app_assoc. cbn. do 3 f_equal. f_equal. lia.
Qed.

(** ** System calls *)

Inductive syscall : Type :=
  | Fork | Exit | Wait | Pipe | Read (fd n : Z) | Write (fd : Z) (d : list Z) | Close (fd : Z) | Kill (pid : Z)
  | Exec (path : list Z) (argv : list (list Z)) | Open (path : list Z) (mode : Z) | Mknod (path : list Z) (major minor : Z)
  | Unlink (path : list Z) | Fstat (fd : Z) | Link (old new : list Z) | Mkdir (path : list Z) | Chdir (path : list Z)
  | Dup (fd : Z) | Getpid | Sbrk (n : Z) | Sleep (n : Z) | Uptime
  | Settickets (pid n : Z) | Getrunticks | Yield | Ksend (chan : Z) (d : list Z) (len : Z) | Krecv (chan maxlen : Z).

(** The kernel's answers, each a result and the bytes it stored, and the calls made. *)
Record world : Type := mkWorld {
  answers : list (Z * list Z);
  calls : list syscall }.

Inductive uout (A : Type) : Type :=
  | Done (a : A) (w : world)
  | Exited (w : world)
  | Waits (w : world)
  | Runs.
Arguments Done {A} _ _.
Arguments Exited {A} _.
Arguments Waits {A} _.
Arguments Runs {A}.

(** User code. *)
Definition U (A : Type) : Type := world -> uout A.

#[export] Instance U_ret : MRet U := fun A a w => Done a w.
#[export] Instance U_bind : MBind U := fun A B f c w =>
  match c w with
  | Done a w => f a w
  | Exited w => Exited w
  | Waits w => Waits w
  | Runs => Runs
  end.

Definition sys (c : syscall) : U (Z * list Z) := fun w =>
  match answers w with
  | [] => Waits (mkWorld [] (calls w ++ [c]))
  | r :: rs => Done r (mkWorld rs (calls w ++ [c]))
  end.
Definition call (c : syscall) : U Z := r ← sys c; mret (fst r).

(** [exit] does not return. *)
Definition exit_ {A} : U A := fun w => Exited (mkWorld (answers w) (calls w ++ [Exit])).

(** A loop of a program: every round makes a system call, so that a round more
    than there are answers is not reached. *)
Definition rounds (w : world) : nat := S (length (answers w)).
Definition repeat {A} (loop : nat -> U A) : U A := fun w => loop (rounds w) w.

(** [gets]: at most [k] more characters. *)
Fixpoint gets_loop (k : nat) (acc : list Z) : U (list Z) :=
  match k with
  | O => mret acc
  | S k =>
      r ← sys (Read 0 1);
      if fst r <? 1 then mret acc
      else
        let c := nth 0 (snd r) 0 in
        if (c =? 10) || (c =? 13) then mret (acc ++ [c]) else gets_loop k (acc ++ [c])
  end.

(** The bytes stored at [buf], the zero included. *)
Definition gets (max : Z) : U (list Z) := l ← gets_loop (Z.to_nat (max - 1)) []; mret (l ++ [0]).

Definition stat (n : list Z) : U (Z * list Z) :=
  fd ← call (Open n 0);
  if fd <? 0 then mret (-1, [])
  else
    r ← sys (Fstat fd);
    _ ← call (Close fd);
    mret r.

(** ** Running programs *)

Lemma ubind {A B} (c : U A) (f : A -> U B) w :
  (c ≫= f) w = match c w with Done a w => f a w | Exited w => Exited w | Waits w => Waits w | Runs => Runs end.
Proof. done. Qed.

Lemma sys_run c r rs cs : sys c (mkWorld (r :: rs) cs) = Done r (mkWorld rs (cs ++ [c])).
Proof. done. Qed.

Lemma call_run c r rs cs : call c (mkWorld (r :: rs) cs) = Done (fst r) (mkWorld rs (cs ++ [c])).
Proof. done. Qed.

Lemma umret {A} (a : A) w : (mret a : U A) w = Done a w.
Proof. done. Qed.

(** One step of a program whose next call has an answer. *)
Ltac ustep := first [rewrite ubind | rewrite sys_run | rewrite call_run | rewrite umret]; cbv beta iota; cbn [fst].

(** [strchr] on a set of characters. *)
Lemma strchr_elem set c : 0 ∉ set -> strchr (set ++ [0]) c = None <-> c ∉ set.
Proof.
  induction set as [|x set IH]; intros H0; cbn; [split; [by intros _ ?%not_elem_of_nil|done]|].
  apply not_elem_of_cons in H0 as [Hx H0]. rewrite (proj2 (Z.eqb_neq x 0)) by done. rewrite not_elem_of_cons.
  destruct (Z.eqb_spec x c) as [->|Hc]; [split; [done|tauto]|]. rewrite <- IH by done.
  destruct (strchr _ _); cbn; split; [done|by intros []|intros _; split; [congruence|done]|done].
Qed.
