(* ===== verification/Printf.v ===== *)
(** * Formatted output (src/printf.c)

    [printint] with its 16-character buffer, and [printf] as the automaton it
    is.  The output is the list of the characters [putc] writes.  [ap] gives the
    argument words, and [str_at] the string at an address. *)

From Stdlib Require Import ZArith Lia String Ascii.
From stdpp Require Import prelude numbers option strings list.
From S2P Require Import Prelude Ulib.

(** ** printint *)

Definition digits : list Z := str "0123456789ABCDEF".
Definition digit (d : Z) : Z := nth (Z.to_nat d) digits 0.

(** The do-while loop stores digits from index [i]; [None] when it would write
    outside [buf]. *)
Fixpoint printint_loop (fuel : nat) (x base : Z) (i : nat) (buf : list Z) : option (nat * list Z) :=
  match fuel with
  | O => None
  | S fuel =>
      if (i <? length buf)%nat then
        let buf := <[i := digit (x mod base)]> buf in
        if x / base =? 0 then Some (S i, buf) else printint_loop fuel (x / base) base (S i) buf
      else None
  end.

Definition printint (xx base : Z) (sgn : bool) : option (list Z) :=
  let neg := sgn && (xx <? 0) in
  let x := if neg then u32 (- xx) else u32 xx in
  '(i, buf) ← printint_loop 33 x base 0 (replicate 16 0);
  if neg then
    if (i <? length buf)%nat then Some (reverse (take (S i) (<[i := 45]> buf))) else None
  else Some (reverse (take i buf)).

(** ** printf *)

Section printf.
Context (str_at : Z -> list Z) (ap : nat -> Z).

(** The loop of [printf]: [pct] is the state, [i] the next argument, [out] what
    has been written. *)
Fixpoint printf_loop (fmt : list Z) (pct : bool) (i : nat) (out : list Z) : option (list Z) :=
  match fmt with
  | [] => Some out
  | c :: fmt =>
      if c =? 0 then Some out
      else if negb pct then
        if c =? 37 then printf_loop fmt true i out else printf_loop fmt false i (out ++ [c])
      else if c =? 100 then
        d ← printint (s32 (ap i)) 10 true; printf_loop fmt false (S i) (out ++ d)
      else if (c =? 120) || (c =? 112) then
        d ← printint (s32 (ap i)) 16 false; printf_loop fmt false (S i) (out ++ d)
      else if c =? 115 then
        let s := if ap i =? 0 then str "(null)" else cstr (str_at (ap i)) in
        printf_loop fmt false (S i) (out ++ s)
      else if c =? 99 then printf_loop fmt false (S i) (out ++ [u8 (ap i)])
      else if c =? 37 then printf_loop fmt false i (out ++ [c])
      else printf_loop fmt false i (out ++ [37; c])
  end.
Definition printf (fmt : list Z) : option (list Z) := printf_loop fmt false 0 [].
End printf.

(** ** Digits *)

(** The digits of a number, least significant first. *)
Fixpoint of_digits (base : Z) (ds : list Z) : Z :=
  match ds with
  | [] => 0
  | d :: ds => d + base * of_digits base ds
  end.

(** The value of a digit character. *)
Definition value (c : Z) : Z := if c <? 65 then c - 48 else c - 55.

Lemma value_digit d : 0 <= d < 16 -> value (digit d) = d.
Proof.
  intros Hd. assert (d = 0 \/ d = 1 \/ d = 2 \/ d = 3 \/ d = 4 \/ d = 5 \/ d = 6 \/ d = 7 \/ d = 8 \/ d = 9 \/
    d = 10 \/ d = 11 \/ d = 12 \/ d = 13 \/ d = 14 \/ d = 15) as Hd' by lia.
  repeat destruct Hd' as [-> | Hd']; by subst.
Qed.

Lemma digit_decimal d : 0 <= d < 10 -> digit d = 48 + d.
Proof.
  intros Hd. assert (d = 0 \/ d = 1 \/ d = 2 \/ d = 3 \/ d = 4 \/ d = 5 \/ d = 6 \/ d = 7 \/ d = 8 \/ d = 9) as Hd' by lia.
  repeat destruct Hd' as [-> | Hd']; by subst.
Qed.

(** The digits [printint] produces. *)
Inductive digits_of (base : Z) : Z -> list Z -> Prop :=
  | Digits_last x : 0 <= x < base -> digits_of base x [x]
  | Digits_more x ds : base <= x -> digits_of base (x / base) ds -> digits_of base x (x mod base :: ds).

Lemma digits_of_value base x ds : 1 < base -> digits_of base x ds ->
  of_digits base ds = x /\ Forall (fun d => 0 <= d < base) ds /\ ds <> [].
Proof.
  intros Hb. induction 1 as [x Hx|x ds Hx Hds (IH1 & IH2 & _)]; cbn.
  - split_and!; [lia|by apply Forall_singleton|done].
  - pose proof (Z.div_mod x base ltac:(lia)). split_and!; [rewrite IH1; lia| |done].
    constructor; [apply Z.mod_pos_bound; lia|done].
Qed.

(** A number below [base ^ n] has at most [n] digits. *)
Lemma printint_loop_spec base n : 2 <= base -> forall x i buf fuel,
  0 <= x < base ^ Z.of_nat n -> (0 < n)%nat -> (i + n <= length buf)%nat -> (n < fuel)%nat ->
  exists ds, digits_of base x ds /\ (length ds <= n)%nat /\
    printint_loop fuel x base i buf = Some ((i + length ds)%nat, take i buf ++ (digit <$> ds) ++ drop (i + length ds) buf).
Proof.
  intros Hb. induction n as [|n IH]; intros x i buf fuel Hx Hn Hi Hf; [lia|]. destruct fuel as [|fuel]; [lia|].
  cbn [printint_loop]. rewrite (proj2 (Nat.ltb_lt _ _)) by lia.
  assert (take (S i) (<[i := digit (x mod base)]> buf) = take i buf ++ [digit (x mod base)]) as Htake.
  { rewrite (take_S_r _ _ (digit (x mod base))) by (apply list_lookup_insert_eq; lia). by rewrite take_insert_ge by lia. }
  destruct (Z.eqb_spec (x / base) 0) as [Hd|Hd].
  - assert (x < base) as Hlt by (apply Z.div_small_iff in Hd; lia). exists [x]. split_and!; [by constructor; lia|cbn; lia|].
    cbn [length fmap list_fmap]. rewrite Nat.add_1_r. do 2 f_equal. rewrite <- (take_drop (S i) (<[i := _]> buf)), Htake, drop_insert_lt by lia.
    rewrite Z.mod_small by lia. by rewrite <- app_assoc.
  - assert (base <= x) as Hge by (destruct (Z_lt_le_dec x base); [by rewrite Z.div_small in Hd by lia|done]).
    assert (0 < n)%nat as Hn0 by (destruct n; [change (base ^ Z.of_nat 1) with (base ^ 1) in Hx; rewrite Z.pow_1_r in Hx; lia|lia]).
    destruct (IH (x / base) (S i) (<[i := digit (x mod base)]> buf) fuel) as (ds & Hds & Hl & Hr); try lia.
    { split; [apply Z.div_pos; lia|]. apply Z.div_lt_upper_bound; [lia|]. rewrite Nat2Z.inj_succ, Z.pow_succ_r in Hx by lia. lia. }
    { rewrite length_insert. lia. }
    exists (x mod base :: ds). split_and!; [by constructor|cbn; lia|]. rewrite Hr, Htake. cbn [length fmap list_fmap].
    rewrite drop_insert_lt by lia. rewrite <- app_assoc. cbn. replace (i + S (length ds))%nat with (S (i + length ds)) by lia. done.
Qed.

(** [printint] on numbers that fit a signed 32-bit integer: the digits, in
    order, after a minus sign when the number is printed as negative. *)
Lemma printint_spec xx base sgn :
  2 <= base <= 16 -> (base = 10 \/ base = 16) -> - 2 ^ 31 <= xx < 2 ^ 31 ->
  let neg := sgn && (xx <? 0) in
  let x := if neg then u32 (- xx) else u32 xx in
  exists ds, digits_of base x ds /\ (length ds <= 10)%nat /\
    printint xx base sgn = Some ((if neg then [45] else []) ++ reverse (digit <$> ds)).
Proof.
  intros Hb Hb' Hxx neg x.
  assert (0 <= x < 2 ^ 32) as Hx by (unfold x; destruct neg; apply u32_bound).
  assert (0 <= x < base ^ Z.of_nat 10) as Hx10.
  { assert (2 ^ 32 <= base ^ Z.of_nat 10) by (destruct Hb' as [->| ->]; cbn; lia). lia. }
  destruct (printint_loop_spec base 10 ltac:(lia) x 0 (replicate 16 0) 33 Hx10) as (ds & Hds & Hl & Hr); [lia|cbn; lia|lia|].
  exists ds. split_and!; [done|done|]. unfold printint. fold neg. fold x. rewrite Hr. cbn [mbind option_bind].
  rewrite take_0, app_nil_l, Nat.add_0_l. set (b := (digit <$> ds) ++ drop (length ds) (replicate 16 0)).
  assert (length b = 16%nat) as Hlb by (unfold b; rewrite length_app, length_fmap, length_drop; cbn; lia).
  assert (take (length ds) b = digit <$> ds) as Htake by (unfold b; apply take_app_length'; by rewrite length_fmap).
  destruct neg; [|by rewrite Htake]. rewrite Hlb, (proj2 (Nat.ltb_lt _ _)) by lia. f_equal.
  rewrite (take_S_r _ _ 45) by (apply list_lookup_insert_eq; lia). rewrite take_insert_ge by lia.
  by rewrite Htake, reverse_app.
Qed.

(** Reading decimal digits back. *)
Lemma atoi_app ds : Forall (fun d => 0 <= d < 10) ds -> forall s n, 0 <= n ->
  n * 10 ^ Z.of_nat (length ds) + of_digits 10 ds < 2 ^ 31 ->
  atoi_loop (reverse (digit <$> ds) ++ s) n = atoi_loop s (n * 10 ^ Z.of_nat (length ds) + of_digits 10 ds).
Proof.
  induction 1 as [|d ds Hd Hds IH]; intros s n Hn Hlt.
  { cbn in *. f_equal. lia. }
  cbn [fmap list_fmap]. rewrite reverse_cons, <- app_assoc. cbn [length of_digits] in *.
  rewrite Nat2Z.inj_succ, Z.pow_succ_r in Hlt |- * by lia.
  assert (0 <= of_digits 10 ds) as H0.
  { clear -Hds. induction Hds; cbn; lia. }
  assert (0 < 10 ^ Z.of_nat (length ds)) by (apply Z.pow_pos_nonneg; lia).
  assert (n * 10 ^ Z.of_nat (length ds) + of_digits 10 ds < 2 ^ 31) as Hlt' by nia.
  rewrite IH by done. cbn [atoi_loop app]. rewrite (digit_decimal d Hd).
  unfold isdigit. rewrite !(proj2 (Z.leb_le _ _)) by lia. cbn [andb]. f_equal.
  rewrite s32_id; nia.
Qed.

(** ** Properties *)

(** [printint] and [atoi] are inverse on non-negative numbers: the decimal
    digits [printf("%d")] writes of any [int] that is not negative read back as
    that number. *)
Theorem atoi_printint xx :
  0 <= xx < 2 ^ 31 -> exists s, printint xx 10 true = Some s /\ atoi s = xx.
Proof.
  intros Hx. destruct (printint_spec xx 10 true) as (ds & Hds & Hl & Hr); [lia|by left|lia|].
  cbn [andb] in *. rewrite (proj2 (Z.ltb_ge _ _)) in Hr, Hds by lia. rewrite u32_id in Hds by lia.
  destruct (digits_of_value 10 xx ds ltac:(lia) Hds) as (Hv & Hf & _).
  exists (reverse (digit <$> ds)). split; [done|]. unfold atoi. rewrite <- (app_nil_r (reverse _)).
  rewrite atoi_app by (done || lia). cbn. lia.
Qed.

Lemma atoi_printint_witness : exists s, printint 40960 10 true = Some s /\ atoi s = 40960.
Proof. apply (atoi_printint 40960). lia. Defined.

(** [printint] never writes outside its buffer of 16 characters, for any
    [int], signed or not, in either base [printf] uses; the smallest number is
    printed correctly although its negation overflows.  The characters it writes
    denote the number. *)
Theorem printint_in_bounds xx base sgn :
  base = 10 \/ base = 16 -> - 2 ^ 31 <= xx < 2 ^ 31 ->
  exists neg ds, printint xx base sgn = Some ((if (neg : bool) then [45] else []) ++ ds) /\ (length ds <= 10)%nat /\
    neg = sgn && (xx <? 0) /\
    of_digits base (value <$> reverse ds) = (if neg then - xx else xx mod 2 ^ 32).
Proof.
  intros Hb Hx. destruct (printint_spec xx base sgn) as (ds & Hds & Hl & Hr); [destruct Hb; lia|done|done|].
  cbv zeta in *. set (neg := sgn && (xx <? 0)) in *.
  destruct (digits_of_value base _ ds ltac:(destruct Hb; lia) Hds) as (Hv & Hf & _).
  exists neg, (reverse (digit <$> ds)). split_and!; [done|by rewrite length_reverse, length_fmap|done|].
  rewrite reverse_involutive, <- list_fmap_compose.
  assert (((value ∘ digit) <$> ds) = ds) as ->.
  { clear -Hf Hb. induction Hf as [|d ds Hd Hf IH]; [done|]. cbn [fmap list_fmap]. rewrite IH. f_equal. apply value_digit. destruct Hb; lia. }
  rewrite Hv. unfold neg. destruct (Z.ltb_spec xx 0); destruct sgn; cbn [andb]; try done. apply u32_id. lia.
Qed.

Lemma printint_in_bounds_witness :
  exists neg ds, printint (-2147483648) 10 true = Some ((if (neg : bool) then [45] else []) ++ ds) /\ (length ds <= 10)%nat /\
    neg = true /\ of_digits 10 (value <$> reverse ds) = (if neg then 2147483648 else 2147483648).
Proof. apply (printint_in_bounds (-2147483648) 10 true); [by left|lia]. Defined.

(** ** Format strings *)

(** What a format string is made of. *)
Inductive directive : Type :=
  | Lit (c : Z) | Dec | Hex | Ptr | Str | Chr | Percent | Unknown (c : Z).

Definition dir_ok (d : directive) : Prop :=
  match d with
  | Lit c => c <> 0 /\ c <> 37
  | Unknown c => c ∉ ([0; 100; 120; 112; 115; 99; 37] : list Z)
  | _ => True
  end.

Definition render (d : directive) : list Z :=
  match d with
  | Lit c => [c] | Dec => str "%d" | Hex => str "%x" | Ptr => str "%p" | Str => str "%s" | Chr => str "%c"
  | Percent => str "%%" | Unknown c => [37; c]
  end.

Section expansion.
Context (str_at : Z -> list Z) (ap : nat -> Z).

(** The number of arguments a directive takes, and what it writes. *)
Definition takes (d : directive) : nat := match d with Dec | Hex | Ptr | Str | Chr => 1%nat | _ => 0%nat end.
Definition expand_one (d : directive) (i : nat) : list Z :=
  match d with
  | Lit c => [c]
  | Dec => default [] (printint (s32 (ap i)) 10 true)
  | Hex | Ptr => default [] (printint (s32 (ap i)) 16 false)
  | Str => if ap i =? 0 then str "(null)" else cstr (str_at (ap i))
  | Chr => [u8 (ap i)]
  | Percent => [37]
  | Unknown c => [37; c]
  end.
Fixpoint expand (ds : list directive) (i : nat) : list Z :=
  match ds with
  | [] => []
  | d :: ds => expand_one d i ++ expand ds (i + takes d)
  end.

Lemma printint_some xx base sgn : base = 10 \/ base = 16 ->
  printint (s32 xx) base sgn = Some (default [] (printint (s32 xx) base sgn)).
Proof.
  intros Hb. pose proof (s32_bound xx).
  destruct (printint_spec (s32 xx) base sgn) as (ds & _ & _ & ->); [destruct Hb; lia|done|lia|done].
Qed.

Lemma printf_loop_total fmt : forall pct i out, exists out', printf_loop str_at ap fmt pct i out = Some out'.
Proof.
  induction fmt as [|c fmt IH]; intros pct i out; cbn [printf_loop]; [by eexists|].
  rewrite (printint_some (ap i) 10 true), (printint_some (ap i) 16 false) by auto. cbn [mbind option_bind].
  repeat match goal with |- context [if ?b then _ else _] => lazymatch b with ap _ =? 0 => fail | _ => destruct b end end; eauto.
Qed.

Lemma printf_loop_directive d fmt i out :
  dir_ok d -> printf_loop str_at ap (render d ++ fmt) false i out =
  printf_loop str_at ap fmt false (i + takes d) (out ++ expand_one d i).
Proof.
  intros Hd. destruct d; cbn [takes expand_one]; rewrite ?Nat.add_0_r, ?Nat.add_1_r; try reflexivity.
  - destruct Hd. cbn. rewrite !(proj2 (Z.eqb_neq _ _)) by done. done.
  - change (printf_loop str_at ap (render Dec ++ fmt) false i out) with
      (printint (s32 (ap i)) 10 true ≫= fun d => printf_loop str_at ap fmt false (S i) (out ++ d)).
    rewrite printint_some at 1 by auto. done.
  - change (printf_loop str_at ap (render Hex ++ fmt) false i out) with
      (printint (s32 (ap i)) 16 false ≫= fun d => printf_loop str_at ap fmt false (S i) (out ++ d)).
    rewrite printint_some at 1 by auto. done.
  - change (printf_loop str_at ap (render Ptr ++ fmt) false i out) with
      (printint (s32 (ap i)) 16 false ≫= fun d => printf_loop str_at ap fmt false (S i) (out ++ d)).
    rewrite printint_some at 1 by auto. done.
  - cbn in Hd. rewrite !not_elem_of_cons in Hd. destruct Hd as (? & ? & ? & ? & ? & ? & ? & _).
    cbn [render app printf_loop]. change (37 =? 0) with false. change (37 =? 37) with true. cbn [negb].
    rewrite !(proj2 (Z.eqb_neq _ _)) by done. done.
Qed.
End expansion.

(** [printf] writes the expansion of its format: each directive is replaced
    by its argument, taken in order, and everything else is copied; an unknown
    directive is copied with its percent sign. *)
Lemma printf_spec str_at ap ds :
  Forall dir_ok ds -> printf str_at ap (concat (render <$> ds)) = Some (expand str_at ap ds 0).
Proof.
  intros Hds. unfold printf.
  assert (forall i out, printf_loop str_at ap (concat (render <$> ds)) false i out = Some (out ++ expand str_at ap ds i)) as H;
    [|by rewrite H].
  induction Hds as [|d ds Hd Hds IH]; intros i out; cbn [fmap list_fmap concat expand]; [by rewrite app_nil_r|].
  rewrite printf_loop_directive by done. by rewrite IH, <- app_assoc.
Qed.
