(* ===== verification/Grep.v ===== *)
(** * grep: the pattern matcher and the line filter (src/grep.c)

    A C string is the list of its characters before the terminating zero.  The
    matcher is compared with the language its pattern denotes; the filter runs
    on its 1024-byte buffer and gets its input in pieces, so that a read may be
    short at any place.  [heard] are the lines that the filter looks at: all of
    them when the pieces are whole lines. *)

From Stdlib Require Import ZArith Lia String.
From stdpp Require Import prelude numbers option list.
From S2P Require Import Prelude Ulib.

Definition CARET : Z := 94.
Definition STAR : Z := 42.
Definition DOLLAR : Z := 36.
Definition DOT : Z := 46.
Definition NL : Z := 10.

(** ** The matcher *)

(** [matchstar]: [here] is [matchhere] of the rest of the pattern. *)
Definition matchstar (here : list Z -> bool) (c : Z) : list Z -> bool :=
  fix go text :=
    if here text then true
    else match text with
         | [] => false
         | t :: text => if (t =? c) || (c =? DOT) then go text else false
         end.

Fixpoint matchhere (re text : list Z) {struct re} : bool :=
  match re with
  | [] => true
  | c :: re1 =>
      let rest :=
        if (c =? DOLLAR) && match re1 with [] => true | _ => false end
        then match text with [] => true | _ => false end
        else match text with
             | t :: text => if (c =? DOT) || (c =? t) then matchhere re1 text else false
             | [] => false
             end in
      match re1 with
      | d :: re2 => if d =? STAR then matchstar (matchhere re2) c text else rest
      | [] => rest
      end
  end.

Fixpoint match_any (re text : list Z) : bool :=
  if matchhere re text then true
  else match text with [] => false | _ :: text => match_any re text end.

Definition match_ (re text : list Z) : bool :=
  match re with
  | c :: re1 => if c =? CARET then matchhere re1 text else match_any re text
  | [] => match_any re text
  end.

(** ** The language of a pattern *)

Inductive atom : Type := One (c : Z) | Many (c : Z).

(** The atoms of a pattern, and whether it ends in an anchor. *)
Fixpoint parse (re : list Z) : list atom * bool :=
  match re with
  | [] => ([], false)
  | c :: re1 =>
      let plain := if (c =? DOLLAR) && match re1 with [] => true | _ => false end then ([], true)
                   else let '(a, e) := parse re1 in (One c :: a, e) in
      match re1 with
      | d :: re2 => if d =? STAR then let '(a, e) := parse re2 in (Many c :: a, e) else plain
      | [] => plain
      end
  end.

(** A character a pattern character stands for. *)
Definition stands (c t : Z) : Prop := c = DOT \/ c = t.

Inductive in_lang : list atom -> list Z -> Prop :=
  | In_nil : in_lang [] []
  | In_one c t a w : stands c t -> in_lang a w -> in_lang (One c :: a) (t :: w)
  | In_many_stop c a w : in_lang a w -> in_lang (Many c :: a) w
  | In_many_more c t a w : stands c t -> in_lang (Many c :: a) w -> in_lang (Many c :: a) (t :: w).

(** A pattern matches at the start of a text. *)
Definition matches_at (re text : list Z) : Prop :=
  let '(a, e) := parse re in
  exists w post, text = w ++ post /\ in_lang a w /\ (e = true -> post = []).

Lemma in_lang_many c a w : in_lang (Many c :: a) w <->
  exists u v, w = u ++ v /\ Forall (stands c) u /\ in_lang a v.
Proof.
  split.
  - remember (Many c :: a) as b eqn:E. induction 1 as [| |c' a' w Hw IH|c' t a' w Ht Hw IH]; try done.
    + injection E as -> ->. by exists [], w.
    + injection E as -> ->. destruct IH as (u & v & -> & Hu & Hv); [done|]. exists (t :: u), v. split_and!; [done|by constructor|done].
  - intros (u & v & -> & Hu & Hv). induction Hu as [|t u Ht Hu IH]; [by constructor|by apply In_many_more].
Qed.

(** [matchstar] tries every number of repetitions. *)
Lemma matchstar_spec here c text :
  matchstar here c text = true <->
  exists u v, text = u ++ v /\ Forall (stands c) u /\ here v = true.
Proof.
  induction text as [|t text IH]; cbn [matchstar].
  - destruct (here []) eqn:E; split; try done.
    + intros _. by exists [], [].
    + intros (u & v & Heq & _ & Hv). symmetry in Heq. apply app_nil in Heq as [-> ->]. congruence.
  - fold (matchstar here c). destruct (here (t :: text)) eqn:E.
    + split; [|done]. intros _. by exists [], (t :: text).
    + destruct ((t =? c) || (c =? DOT)) eqn:Es.
      * rewrite IH. assert (stands c t) as Hs.
        { apply orb_true_iff in Es as [->%Z.eqb_eq| ->%Z.eqb_eq]; [by right|by left]. }
        split.
        -- intros (u & v & -> & Hu & Hv). exists (t :: u), v. split_and!; [done|by constructor|done].
        -- intros ([|x u] & v & Heq & Hu & Hv); cbn in Heq; [subst; congruence|].
           injection Heq as -> ->. apply Forall_cons in Hu as [_ Hu]. by exists u, v.
      * split; [done|]. intros ([|x u] & v & Heq & Hu & Hv); cbn in Heq; [subst; congruence|].
        injection Heq as -> ->. apply Forall_cons in Hu as [[-> | ->] _].
        -- by rewrite Z.eqb_refl, orb_true_r in Es.
        -- by rewrite Z.eqb_refl in Es.
Qed.

Definition anchored_ok (a : list atom) (e : bool) (text : list Z) : Prop :=
  exists w post, text = w ++ post /\ in_lang a w /\ (e = true -> post = []).

Lemma anchored_one c a e text :
  anchored_ok (One c :: a) e text <->
  match text with t :: text => stands c t /\ anchored_ok a e text | [] => False end.
Proof.
  split.
  - intros (w & post & -> & Hw & He). inversion Hw; subst. cbn. split; [done|]. by exists w0, post.
  - destruct text as [|t text]; [done|]. intros (Hs & w & post & -> & Hw & He). exists (t :: w), post. split_and!; [done|by constructor|done].
Qed.

Lemma anchored_many c a e text :
  anchored_ok (Many c :: a) e text <-> exists u v, text = u ++ v /\ Forall (stands c) u /\ anchored_ok a e v.
Proof.
  split.
  - intros (w & post & -> & (u & v & -> & Hu & Hv)%in_lang_many & He). exists u, (v ++ post). rewrite app_assoc. split_and!; [done..|]. by exists v, post.
  - intros (u & v & -> & Hu & (w & post & -> & Hw & He)). exists (u ++ w), post. rewrite app_assoc. split_and!; [done| |done].
    apply in_lang_many. eauto.
Qed.

Lemma stands_test c t : (c =? DOT) || (c =? t) = true <-> stands c t.
Proof. unfold stands. by rewrite orb_true_iff, !Z.eqb_eq. Qed.

Lemma matchhere_spec re text : matchhere re text = true <-> matches_at re text.
Proof.
  unfold matches_at. fold (anchored_ok (parse re).1 (parse re).2 text).
  enough (matchhere re text = true <-> anchored_ok (parse re).1 (parse re).2 text) as H by (by destruct (parse re)).
  revert text. induction re as [re IH] using (well_founded_induction (well_founded_ltof _ (@length Z))). intros text.
  destruct re as [|c re1].
  { split; [|done]. intros _. exists [], text. split_and!; [done|constructor|done]. }
  assert (forall text, (match text with t :: text => if (c =? DOT) || (c =? t) then matchhere re1 text else false | [] => false end) = true <->
     anchored_ok (One c :: (parse re1).1) (parse re1).2 text) as Hone.
  { intros [|t tx]; rewrite anchored_one; [done|]. rewrite <- stands_test, <- IH by (unfold ltof; cbn; lia).
    destruct ((c =? DOT) || (c =? t)); naive_solver. }
  destruct re1 as [|d re2].
  - cbn [matchhere parse]. destruct (c =? DOLLAR); cbn [andb fst snd]; [|apply Hone].
    destruct text as [|t tx].
    + split; [|done]. intros _. exists [], []. split_and!; [done|constructor|done].
    + split; [done|]. intros (w & post & Heq & Hw & Hp). inversion Hw; subst. by rewrite Hp in Heq.
  - cbn [matchhere]. fold matchhere. rewrite andb_false_r. change (parse (c :: d :: re2)) with
      (if d =? STAR then let '(a, e) := parse re2 in (Many c :: a, e) else
       if (c =? DOLLAR) && false then ([], true) else let '(a, e) := parse (d :: re2) in (One c :: a, e)).
    destruct (d =? STAR) eqn:Ed.
    + rewrite matchstar_spec. destruct (parse re2) as [a e] eqn:Ep. cbn [fst snd]. rewrite anchored_many.
      assert (forall v, matchhere re2 v = true <-> anchored_ok a e v) as H2
        by (intros v; rewrite IH by (unfold ltof; cbn; lia); by rewrite Ep).
      by setoid_rewrite H2.
    + rewrite andb_false_r. specialize (Hone text). destruct (parse (d :: re2)) as [a e]. exact Hone.
Qed.

(** ** The filter *)

(** The bytes [d] stored from index [m] on. *)
Fixpoint store_at (m : nat) (d : list Z) (buf : list Z) : list Z :=
  match d with
  | [] => buf
  | x :: d => store_at (S m) d (<[m := x]> buf)
  end.

(** [read]: the input arrives in pieces; a read returns bytes of one piece, so
    that it is short when the piece is. *)
Definition read (n : nat) (ins : list (list Z)) : list Z * list (list Z) :=
  match ins with
  | [] => ([], [])
  | c :: cs => (take n c, match drop n c with [] => cs | r => r :: cs end)
  end.

(** The inner loop, from index [p] of the buffer. *)
Fixpoint grep_lines (fuel : nat) (pattern buf : list Z) (p : nat) (out : list Z) : list Z * nat * list Z :=
  match fuel with
  | O => (buf, p, out)
  | S fuel =>
      match strchr (drop p buf) NL with
      | None => (buf, p, out)
      | Some k =>
          let q := (p + k)%nat in
          let buf := <[q := 0]> buf in
          if match_ pattern (cstr (drop p buf))
          then let buf := <[q := NL]> buf in
               grep_lines fuel pattern buf (S q) (out ++ take (S k) (drop p buf))
          else grep_lines fuel pattern buf (S q) out
      end
  end.

Definition SIZE : nat := 1024.

(** The outer loop, with [m] bytes in the buffer: [None] when [fuel] reads do
    not reach the end of the input. *)
Fixpoint grep (fuel : nat) (pattern buf : list Z) (m : nat) (ins : list (list Z)) (out : list Z) : option (list Z * list Z) :=
  match fuel with
  | O => None
  | S fuel =>
      let '(d, ins) := read (SIZE - m - 1) ins in
      match d with
      | [] => Some (buf, out)
      | _ =>
          let buf := store_at m d buf in
          let m := (m + length d)%nat in
          let buf := <[m := 0]> buf in
          let '(buf, p, out) := grep_lines SIZE pattern buf 0 out in
          let m := if (p =? 0)%nat then 0%nat else m in
          if (0 <? m)%nat
          then let m := (m - p)%nat in grep fuel pattern (memmove m 0 p buf) m ins out
          else grep fuel pattern buf m ins out
      end
  end.

(** ** What it does to a file of lines *)

Definition line_ok (l : list Z) : Prop := (NL ∉ l) /\ (0 ∉ l).
Definition unlines (ls : list (list Z)) : list Z := concat (fmap (fun l => l ++ [NL]) ls).
Definition selected (pattern : list Z) (ls : list (list Z)) : list Z :=
  unlines (filter (fun l => match_ pattern l = true) ls).

Lemma store_at_app m d buf : (m + length d <= length buf)%nat ->
  store_at m d buf = take m buf ++ d ++ drop (m + length d) buf.
Proof.
  revert m buf. induction d as [|x d IH]; intros m buf Hl; cbn [store_at length] in *.
  { by rewrite Nat.add_0_r, app_nil_l, take_drop. }
  rewrite IH by (rewrite length_insert; lia). rewrite (take_S_r _ _ x) by (apply list_lookup_insert_eq; lia).
  rewrite take_insert_ge, drop_insert_lt by lia. rewrite <- app_assoc. cbn. do 3 f_equal. f_equal. lia.
Qed.

Lemma strchr_line l r : line_ok l -> strchr (l ++ NL :: r) NL = Some (length l).
Proof.
  intros [H1 H2]. induction l as [|x l IH]; [done|]. cbn [strchr app length].
  apply not_elem_of_cons in H1 as [? H1]. apply not_elem_of_cons in H2 as [? H2].
  rewrite !(proj2 (Z.eqb_neq _ _)) by done. by rewrite IH.
Qed.

Lemma strchr_none l r : line_ok l -> strchr (l ++ 0 :: r) NL = None.
Proof.
  intros [H1 H2]. induction l as [|x l IH]; [done|]. cbn [strchr app length].
  apply not_elem_of_cons in H1 as [? H1]. apply not_elem_of_cons in H2 as [? H2].
  rewrite !(proj2 (Z.eqb_neq _ _)) by done. by rewrite IH.
Qed.

Lemma grep_lines_spec pattern ls left junk fuel buf p out :
  Forall line_ok ls -> line_ok left -> (length ls < fuel)%nat ->
  drop p buf = unlines ls ++ left ++ 0 :: junk ->
  exists buf', grep_lines fuel pattern buf p out = (buf', (p + length (unlines ls))%nat, out ++ selected pattern ls) /\
    drop (p + length (unlines ls)) buf' = left ++ 0 :: junk /\ length buf' = length buf.
Proof.
  revert fuel buf p out. induction ls as [|l ls IH]; intros fuel buf p out Hls Hleft Hfuel Hbuf.
  { destruct fuel as [|fuel]; [lia|]. exists buf. cbn [grep_lines]. change (unlines []) with (@nil Z) in *. cbn [app length] in *.
    rewrite Hbuf, strchr_none by done. rewrite Nat.add_0_r. split_and!; [|done|done].
    by rewrite app_nil_r. }
  destruct fuel as [|fuel]; [lia|]. apply Forall_cons in Hls as [Hl Hls]. cbn [length] in Hfuel.
  change (unlines (l :: ls)) with ((l ++ [NL]) ++ unlines ls) in *. rewrite <- !app_assoc in Hbuf. cbn [app] in Hbuf.
  set (rest := unlines ls ++ left ++ 0 :: junk) in *.
  assert (length (drop p buf) = length l + S (length rest))%nat as Hlen by (rewrite Hbuf, length_app; done).
  rewrite length_drop in Hlen.
  assert (forall x, drop p (<[(p + length l)%nat := x]> buf) = l ++ x :: rest) as Hins.
  { intros x. rewrite drop_insert_ge by lia. rewrite Hbuf. replace (p + length l - p)%nat with (length l + 0)%nat by lia.
    by rewrite insert_app_r. }
  assert (forall x, drop (S (p + length l)) (<[(p + length l)%nat := x]> buf) = rest) as Hins'.
  { intros x. replace (S (p + length l)) with (p + S (length l))%nat by lia. rewrite <- drop_drop, Hins.
    rewrite cons_middle, app_assoc. rewrite drop_app_length'; [done|rewrite length_app; cbn; lia]. }
  assert (forall x out, exists buf', grep_lines fuel pattern (<[(p + length l)%nat := x]> buf) (S (p + length l)) out =
     (buf', (p + length ((l ++ [NL]) ++ unlines ls))%nat, out ++ selected pattern ls) /\
     drop (p + length ((l ++ [NL]) ++ unlines ls)) buf' = left ++ 0 :: junk /\ length buf' = length buf) as Hnext.
  { intros x o. destruct (IH fuel (<[(p + length l)%nat := x]> buf) (S (p + length l)) o Hls Hleft ltac:(lia) (Hins' x)) as (b' & Hr & Hd & Hb).
    exists b'. rewrite Hr, Hb, length_insert. rewrite !length_app. cbn [length].
    replace (p + (length l + 1 + length (unlines ls)))%nat with (S (p + length l) + length (unlines ls))%nat by lia. done. }
  cbn [grep_lines]. rewrite Hbuf, strchr_line by done. rewrite Hins, cstr_app by apply Hl.
  unfold selected. rewrite filter_cons. destruct (match_ pattern l) eqn:Em.
  - rewrite decide_True by done. rewrite list_insert_insert_eq, Hins.
    assert (take (S (length l)) (l ++ NL :: rest) = l ++ [NL]) as ->
      by (rewrite cons_middle, app_assoc; apply take_app_length'; rewrite length_app; cbn; lia).
    destruct (Hnext NL (out ++ l ++ [NL])) as (b' & Hr & Hd). exists b'. rewrite Hr. split; [|done]. f_equal.
    change (unlines (l :: ?x)) with ((l ++ [NL]) ++ unlines x). unfold selected. by rewrite <- !app_assoc.
  - rewrite decide_False by done. apply Hnext.
Qed.

(** The lines complete in a prefix of a file. *)
Lemma prefix_lines ls d r :
  Forall line_ok ls -> unlines ls = d ++ r ->
  exists k left, d = unlines (take k ls) ++ left /\ left ++ r = unlines (drop k ls) /\ line_ok left /\
    (k <= length ls)%nat.
Proof.
  revert d. induction ls as [|l ls IH]; intros d Hls Heq.
  { symmetry in Heq. apply app_nil in Heq as [-> ->]. exists 0%nat, []. split_and!; try done. split; apply not_elem_of_nil. }
  apply Forall_cons in Hls as [Hl Hls]. change (unlines (l :: ls)) with ((l ++ [NL]) ++ unlines ls) in Heq.
  apply app_eq_inv in Heq as [(k & Hd & Hr)|(k & -> & Hr)].
  - destruct k as [|x k _] using rev_ind.
    + exists 1%nat, []. rewrite app_nil_r in Hd. subst d. cbn [take drop app] in *. rewrite app_nil_r.
      split_and!; [unfold unlines; cbn; by rewrite app_nil_r|done|split; apply not_elem_of_nil|cbn; lia].
    + exists 0%nat, d. rewrite app_assoc in Hd. apply app_inj_tail in Hd as [-> <-].
      split_and!; [done|cbn [drop]; change (unlines (?x :: ls)) with ((x ++ [NL]) ++ unlines ls); by rewrite Hr, <- !app_assoc|by destruct Hl as [[? ?]%not_elem_of_app [? ?]%not_elem_of_app]|lia].
  - destruct (IH k Hls Hr) as (j & left & -> & Hleft & Hok & Hj). exists (S j), left. cbn [take drop length].
    change (unlines (l :: take j ls)) with ((l ++ [NL]) ++ unlines (take j ls)). split_and!; [by rewrite app_assoc|done|done|lia].
Qed.

Lemma unlines_last ls : ls <> [] -> NL ∈ unlines ls.
Proof. destruct ls as [|l ls]; [done|]. intros _. unfold unlines. cbn. rewrite !elem_of_app. left. right. by left. Qed.

Lemma selected_app pattern ls ls' : selected pattern (ls ++ ls') = selected pattern ls ++ selected pattern ls'.
Proof. unfold selected, unlines. by rewrite filter_app, fmap_app, concat_app. Qed.

Lemma length_unlines ls : (length ls <= length (unlines ls))%nat.
Proof.
  induction ls as [|l ls IH]; [done|]. change (unlines (l :: ls)) with ((l ++ [NL]) ++ unlines ls).
  rewrite !length_app. cbn [length]. lia.
Qed.

(** Bytes of a file up to its first line end. *)
Lemma no_nl_prefix l ls part r : NL ∉ part -> part ++ r = unlines (l :: ls) -> (length part <= length l)%nat.
Proof.
  intros Hnl Heq. destruct (decide (length part <= length l)%nat) as [|Hgt]; [done|]. destruct Hnl.
  apply (list_elem_of_lookup_2 _ (length l)). rewrite <- (lookup_app_l _ r) by lia. rewrite Heq.
  change (unlines (l :: ls)) with ((l ++ [NL]) ++ unlines ls). rewrite <- app_assoc, lookup_app_r, Nat.sub_diag by lia. done.
Qed.

Lemma short_part ls part r :
  Forall (fun l => (length l <= 1022)%nat) ls -> NL ∉ part -> part ++ r = unlines ls -> (length part <= 1022)%nat.
Proof.
  intros Hlen Hnl Heq. destruct ls as [|l ls]; [apply app_nil in Heq as [-> _]; cbn; lia|].
  apply Forall_cons in Hlen as [Hl _]. pose proof (no_nl_prefix _ _ _ _ Hnl Heq). lia.
Qed.

(** A full buffer of a file with short lines holds a complete line. *)
Lemma full_buffer ls part r :
  Forall (fun l => (length l <= 1022)%nat) ls -> part ++ r = unlines ls ->
  let d := take (SIZE - length part - 1) r in line_ok (part ++ d) -> d = [].
Proof.
  intros Hlen Heq d [Hnl _]. unfold d in *. set (n := (SIZE - length part - 1)%nat) in *.
  assert (length (part ++ take n r) <= 1022)%nat as Hle.
  { apply (short_part ls _ (drop n r)); [done|done|]. by rewrite <- app_assoc, take_drop. }
  rewrite length_app, length_take in Hle. unfold SIZE in *. assert (length r <= n)%nat as Hr by lia.
  rewrite take_ge in Hnl |- * by done. rewrite Heq in Hnl. destruct ls as [|l ls]; [by apply app_nil in Heq as [_ ->]|].
  destruct Hnl. by apply unlines_last.
Qed.

Definition file (r : list Z) : list (list Z) := if decide (r = []) then [] else [r].

(** Reading into the buffer, and the complete lines in it. *)
Lemma fill_buffer part d buf :
  length buf = SIZE -> take (length part) buf = part -> (length part + length d <= 1023)%nat ->
  exists junk, <[(length part + length d)%nat := 0]> (store_at (length part) d buf) = (part ++ d) ++ 0 :: junk /\
    length ((part ++ d) ++ 0 :: junk) = SIZE.
Proof.
  intros Hbuf Htake Hl. unfold SIZE in *. exists (drop (S (length part + length d)) buf).
  rewrite store_at_app, Htake by lia. destruct (drop (length part + length d) buf) as [|x q] eqn:Eq.
  { apply (f_equal length) in Eq. rewrite length_drop in Eq. cbn in Eq. lia. }
  assert (drop (S (length part + length d)) buf = q) as ->.
  { replace (S (length part + length d)) with ((length part + length d) + 1)%nat by lia. by rewrite <- drop_drop, Eq. }
  rewrite app_assoc, <- length_app. split.
  - rewrite <- (Nat.add_0_r (length (part ++ d))) at 1. by rewrite insert_app_r.
  - apply (f_equal length) in Eq. rewrite length_drop in Eq. rewrite !length_app. cbn in *. lia.
Qed.

(** ** The lines that grep looks at

    Some reads return less than the room in the buffer: a piece of the input is
    what is there when [read] is called. *)

(** The complete lines of a text, and the rest. *)
Fixpoint lines_in (t : list Z) : list (list Z) * list Z :=
  match t with
  | [] => ([], [])
  | x :: t =>
      let '(ls, r) := lines_in t in
      if x =? NL then ([] :: ls, r)
      else match ls with
           | [] => ([], x :: r)
           | l :: ls => ((x :: l) :: ls, r)
           end
  end.

(** The lines among the reads, with [part] of a line in the buffer: when a read
    ends before a first line is complete, the buffer is emptied. *)
Fixpoint heard (fuel : nat) (part : list Z) (ins : list (list Z)) : list (list Z) :=
  match fuel with
  | O => []
  | S fuel =>
      let '(d, ins) := read (SIZE - length part - 1) ins in
      if decide (d = []) then []
      else match lines_in (part ++ d) with
           | ([], _) => heard fuel [] ins
           | (ls, r) => ls ++ heard fuel r ins
           end
  end.

Definition total (ins : list (list Z)) : nat := length (concat ins).

Lemma unlines_cons l ls : unlines (l :: ls) = l ++ NL :: unlines ls.
Proof. unfold unlines. cbn. by rewrite <- app_assoc. Qed.

Lemma lines_in_spec t ls r : lines_in t = (ls, r) -> t = unlines ls ++ r /\ Forall (fun l => NL ∉ l) ls /\ NL ∉ r.
Proof.
  revert ls r. induction t as [|x t IH]; intros ls r; cbn [lines_in].
  { intros [= <- <-]. split_and!; [done|constructor|apply not_elem_of_nil]. }
  destruct (lines_in t) as [ls0 r0]. destruct (IH ls0 r0 eq_refl) as (-> & Hls & Hr). destruct (Z.eqb_spec x NL) as [->|Hx].
  { intros [= <- <-]. split_and!; [done| |done]. constructor; [apply not_elem_of_nil|done]. }
  destruct Hls as [|l ls0 Hl Hls]; intros [= <- <-]; split_and!; try done.
  - apply not_elem_of_cons. done.
  - constructor; [|done]. apply not_elem_of_cons. done.
Qed.

Lemma lines_in_part r : NL ∉ r -> lines_in r = ([], r).
Proof.
  induction r as [|x r IH]; intros H; [done|]. apply not_elem_of_cons in H as [Hx H]. cbn [lines_in].
  rewrite IH by done. by rewrite (proj2 (Z.eqb_neq _ _)).
Qed.

Lemma lines_in_line l t : NL ∉ l -> lines_in (l ++ NL :: t) = let '(ls, r) := lines_in t in (l :: ls, r).
Proof.
  induction l as [|x l IH]; intros H; [done|]. apply not_elem_of_cons in H as [Hx H]. cbn [lines_in app].
  rewrite IH by done. destruct (lines_in t). by rewrite (proj2 (Z.eqb_neq _ _)).
Qed.

Lemma lines_in_unlines ls r : Forall line_ok ls -> NL ∉ r -> lines_in (unlines ls ++ r) = (ls, r).
Proof.
  intros Hls Hr. induction Hls as [|l ls [Hl _] Hls IH]; [by apply lines_in_part|].
  rewrite unlines_cons, <- app_assoc. cbn [app]. rewrite lines_in_line, IH by done. done.
Qed.

Lemma read_total n ins d ins' : (0 < n)%nat -> read n ins = (d, ins') -> total ins = (length d + total ins')%nat /\ (length d <= n)%nat /\
  concat ins = d ++ concat ins'.
Proof.
  intros Hn. unfold total. destruct ins as [|c cs]; cbn [read]; intros [= <- <-]; [split_and!; cbn; (done || lia)|].
  assert (concat (c :: cs) = take n c ++ concat (match drop n c with [] => cs | r => r :: cs end)) as E.
  { cbn. rewrite <- (take_drop n c) at 1. rewrite <- app_assoc. by destruct (drop n c). }
  rewrite E, length_app, length_take. split_and!; [done|lia|done].
Qed.

(** More fuel than there are bytes is enough. *)
Lemma heard_fuel f1 : forall f2 part ins, (length part <= 1022)%nat -> (total ins < f1)%nat -> (total ins < f2)%nat -> heard f1 part ins = heard f2 part ins.
Proof.
  induction f1 as [|f1 IH]; intros [|f2] part ins Hp H1 H2; [lia..|]. cbn [heard].
  destruct (read (SIZE - length part - 1) ins) as [d ins'] eqn:Er. apply read_total in Er as (Ht & Hd & _); [|unfold SIZE; lia].
  destruct (decide (d = [])) as [->|Hne]; [done|]. destruct d as [|x d]; [done|]. cbn [length] in Ht.
  destruct (lines_in (part ++ x :: d)) as [[|l ls] r] eqn:El; [apply IH; cbn; lia|].
  apply lines_in_spec in El as (El & _ & _). rewrite unlines_cons in El. apply (f_equal length) in El. rewrite !length_app in El. cbn [length] in El.
  f_equal. apply IH; unfold SIZE in *; cbn in *; lia.
Qed.

Lemma lines_ok ls : Forall (fun l => NL ∉ l) ls -> 0 ∉ unlines ls -> Forall line_ok ls.
Proof.
  induction 1 as [|l ls Hl _ IH]; intros H0; [constructor|]. rewrite unlines_cons in H0. apply not_elem_of_app in H0 as [? H0].
  apply not_elem_of_cons in H0 as [_ H0]. constructor; [done|by apply IH].
Qed.

(** [grep] looks at these lines, whatever the reads return. *)
Lemma grep_heard pattern fuel : forall part ins buf out,
  line_ok part -> (length part <= 1022)%nat -> 0 ∉ concat ins -> length buf = SIZE -> take (length part) buf = part -> (total ins < fuel)%nat ->
  exists buf', grep fuel pattern buf (length part) ins out = Some (buf', out ++ selected pattern (heard fuel part ins)) /\ length buf' = SIZE.
Proof.
  induction fuel as [|fuel IH]; intros part ins buf out Hpart Hp H0 Hbuf Htake Hfuel; [lia|]. cbn [grep heard].
  destruct (read (SIZE - length part - 1) ins) as [d ins'] eqn:Er. apply read_total in Er as (Ht & Hd & Ec); [|unfold SIZE; lia].
  destruct (decide (d = [])) as [->|Hne]; [exists buf; unfold selected; cbn; by rewrite app_nil_r|].
  assert (total ins' < fuel)%nat as Hfuel' by (destruct d; [done|cbn in Ht; lia]).
  rewrite Ec in H0. apply not_elem_of_app in H0 as [H0d H0]. destruct (lines_in (part ++ d)) as [ls r] eqn:El.
  pose proof (lines_in_spec _ _ _ El) as (Et & Hls & Hr). assert (0 ∉ unlines ls ++ r) as H0t by (rewrite <- Et; apply not_elem_of_app; split; [apply Hpart|done]).
  apply not_elem_of_app in H0t as [H0l H0r]. pose proof (lines_ok ls Hls H0l) as Hok.
  destruct (fill_buffer part d buf Hbuf Htake) as (junk & Ef & Hbl); [unfold SIZE in *; lia|].
  assert (length part + length d = length (unlines ls) + length r)%nat as Hm by (rewrite <- !length_app; by rewrite Et). pose proof (length_unlines ls).
  destruct (grep_lines_spec pattern ls r junk SIZE ((part ++ d) ++ 0 :: junk) 0 out) as (b' & Eg & Hb' & Hbl');
    [done|done|unfold SIZE in *; lia|by rewrite drop_0, Et, <- app_assoc|].
  destruct d as [|x d]; [done|]. rewrite Ef, Eg. cbn [Nat.add] in *. rewrite Hbl in Hbl'. destruct ls as [|l ls].
  - cbn [Nat.eqb length unlines fmap list_fmap concat Nat.ltb Nat.leb]. unfold selected at 1. cbn [filter list_filter unlines fmap list_fmap concat]. rewrite app_nil_r.
    apply (IH [] ins'); [split; apply not_elem_of_nil|cbn; lia|done..].
  - set (p := length (unlines (l :: ls))) in *. assert (0 < p)%nat by (unfold p; rewrite unlines_cons, length_app; cbn; lia).
    rewrite (proj2 (Nat.eqb_neq _ _)), (proj2 (Nat.ltb_lt _ _)) by lia. replace (length part + length (x :: d) - p)%nat with (length r) by lia.
    unfold SIZE in Hbl'. edestruct (IH r ins') as (b2 & -> & Hb2); [done|unfold SIZE in *; lia|done| | |done|].
    3: exists b2; by rewrite selected_app, <- app_assoc.
    + rewrite memmove_app by (unfold SIZE in *; lia). rewrite take_0, app_nil_l, length_app, length_take, !length_drop. unfold SIZE in *. lia.
    + rewrite memmove_app by (unfold SIZE in *; lia). rewrite take_0, app_nil_l, Hb'. rewrite take_app_length. by rewrite take_app_length.
Qed.

(** A piece of whole lines: [part] of a line in the buffer and [r] still to come. *)
Lemma heard_piece fuel : forall ls part r ins,
  Forall line_ok ls -> Forall (fun l => (length l <= 1022)%nat) ls -> part ++ r = unlines ls -> line_ok part -> (length r + total ins < fuel)%nat ->
  heard fuel part (file r ++ ins) = ls ++ heard fuel [] ins.
Proof.
  induction fuel as [|fuel IH]; intros ls part r ins Hls Hlen Heq Hpart Hfuel; [lia|].
  pose proof (short_part ls part r Hlen (proj1 Hpart) Heq) as Hp. pose proof (full_buffer ls part r Hlen Heq) as Hfull. cbv zeta in Hfull.
  destruct r as [|x0 r0] eqn:E0.
  { rewrite app_nil_r in Heq. destruct ls as [|l ls]; [by rewrite Heq|]. destruct Hpart as [Hnl _]. rewrite Heq in Hnl.
    by destruct (Hnl (unlines_last (l :: ls) ltac:(done))). }
  rewrite <- E0 in *. assert (r <> []) as Hr by (by subst r). clear x0 r0 E0. cbn [heard].
  assert (read (SIZE - length part - 1) (file r ++ ins) = (take (SIZE - length part - 1) r, file (drop (SIZE - length part - 1) r) ++ ins)) as ->.
  { unfold file. rewrite decide_False by done. cbn. by destruct (drop _ r). }
  set (n := (SIZE - length part - 1)%nat) in *. set (d := take n r) in *.
  assert (0 < n)%nat as Hn by (unfold n, SIZE; lia). assert (length d = n `min` length r)%nat as Hdl by apply length_take.
  assert (0 < length r)%nat by (destruct r; [done|cbn; lia]). rewrite decide_False by (intros E; rewrite E in Hdl; cbn in Hdl; lia).
  assert (unlines ls = (part ++ d) ++ drop n r) as Heq' by (unfold d; by rewrite <- app_assoc, take_drop).
  destruct (prefix_lines ls (part ++ d) (drop n r) Hls Heq') as (k & left & Hsplit & Hrest & Hleft & Hk).
  rewrite Hsplit, lines_in_unlines; [|by apply Forall_take|apply Hleft].
  pose proof (IH (drop k ls) left (drop n r) ins ltac:(by apply Forall_drop) ltac:(by apply Forall_drop) Hrest Hleft ltac:(rewrite length_drop; lia)) as IHk.
  rewrite (heard_fuel fuel (S fuel) [] ins) in IHk by (cbn; lia). cbn [heard] in IHk.
  destruct (take k ls) as [|l lk] eqn:Etk.
  - cbn [app unlines fmap list_fmap concat] in Hsplit. assert (d = []) as Ed by (apply Hfull; by rewrite Hsplit). rewrite Ed in Hdl. cbn in Hdl. lia.
  - rewrite IHk, app_assoc, <- Etk, take_drop. done.
Qed.

Lemma file_unlines ls : ls <> [] -> file (unlines ls) = [unlines ls].
Proof.
  intros Hne. unfold file. rewrite decide_False; [done|]. intros E. destruct ls as [|l ls]; [done|]. by apply (f_equal length) in E; rewrite unlines_cons, length_app in E; cbn in E; lia.
Qed.

(** Pieces of whole lines: all lines are looked at. *)
Lemma heard_lines lss fuel :
  Forall (Forall line_ok) lss -> Forall (Forall (fun l => (length l <= 1022)%nat)) lss -> Forall (fun ls => ls <> []) lss ->
  (total (unlines <$> lss) < fuel)%nat -> heard fuel [] (unlines <$> lss) = concat lss.
Proof.
  intros H1 H2 H3. induction lss as [|ls lss IH]; intros Hf; [by destruct fuel|].
  apply Forall_cons in H1 as [? H1], H2 as [? H2], H3 as [? H3]. cbn [fmap list_fmap]. unfold total in *. cbn [fmap list_fmap concat] in Hf. rewrite length_app in Hf.
  change (unlines ls :: ?x) with ([unlines ls] ++ x). rewrite <- file_unlines by done.
  rewrite (heard_piece fuel ls []); [|done|done|done|split; apply not_elem_of_nil|unfold total; lia]. cbn [concat]. f_equal. apply IH; [done..|lia].
Qed.

Lemma zero_unlines ls : Forall line_ok ls -> 0 ∉ unlines ls.
Proof.
  induction 1 as [|l ls [_ Hl] _ IH]; [apply not_elem_of_nil|]. rewrite unlines_cons. apply not_elem_of_app. split; [done|]. apply not_elem_of_cons. done.
Qed.

Lemma zero_pieces lss : Forall (Forall line_ok) lss -> 0 ∉ concat (unlines <$> lss).
Proof.
  induction 1 as [|ls lss Hls _ IH]; [apply not_elem_of_nil|]. cbn. apply not_elem_of_app. split; [by apply zero_unlines|done].
Qed.

(** On an input that arrives in pieces of whole lines of at most 1022 characters
    (a file is one piece), [grep] terminates and prints exactly the lines that
    match, in order: the buffer loses no part of a line, wherever it cuts a
    piece. *)
Lemma grep_pieces pattern lss buf fuel :
  Forall (Forall line_ok) lss -> Forall (Forall (fun l => (length l <= 1022)%nat)) lss -> Forall (fun ls => ls <> []) lss ->
  length buf = SIZE -> (total (unlines <$> lss) < fuel)%nat ->
  exists buf', grep fuel pattern buf 0 (unlines <$> lss) [] = Some (buf', selected pattern (concat lss)) /\ length buf' = SIZE.
Proof.
  intros H1 H2 H3 Hbuf Hfuel. rewrite <- (heard_lines lss fuel H1 H2 H3 Hfuel).
  apply (grep_heard pattern fuel [] (unlines <$> lss) buf []); [split; apply not_elem_of_nil|cbn; lia|by apply zero_pieces|done..].
Qed.

(** ** Properties *)

(** C32: the matcher decides the language of its pattern.  [match] finds a match
    exactly when some part of the text - the beginning of it when the pattern
    starts with a caret, the end when it ends with a dollar sign - is in the
    language of the pattern's characters, where a dot stands for any character
    and a star for any number of repetitions of the character before it. *)
Theorem grep_match_correct re text :
  match_ re text = true <->
  match re with
  | c :: re1 => if c =? CARET then matches_at re1 text else exists pre post, text = pre ++ post /\ matches_at re post
  | [] => exists pre post, text = pre ++ post /\ matches_at re post
  end.
Proof.
  assert (forall re text, match_any re text = true <-> exists pre post, text = pre ++ post /\ matches_at re post) as Hany.
  { clear. intros re. induction text as [|t text IH]; cbn [match_any].
    - destruct (matchhere re []) eqn:E; split; try done.
      + intros _. exists [], []. split; [done|by apply matchhere_spec].
      + intros (pre & post & Heq & Hm). symmetry in Heq. apply app_nil in Heq as [-> ->]. apply matchhere_spec in Hm. congruence.
    - destruct (matchhere re (t :: text)) eqn:E.
      + split; [|done]. intros _. exists [], (t :: text). split; [done|by apply matchhere_spec].
      + rewrite IH. split.
        * intros (pre & post & -> & Hm). by exists (t :: pre), post.
        * intros ([|x pre] & post & Heq & Hm); cbn in Heq; [subst; apply matchhere_spec in Hm; congruence|].
          injection Heq as -> ->. by exists pre, post. }
  destruct re as [|c re1]; cbn [match_]; [apply Hany|]. destruct (c =? CARET); [apply matchhere_spec|apply Hany].
Qed.

(** C40: when a read ends before the first line in the buffer is complete, as
    from a pipe, [grep] forgets what it has read of that line: for every
    pattern, a first read that returns [d] without a line end might as well
    not have happened, and the rest of its line is taken for a line of its
    own. *)
Theorem grep_drops_partial_line pattern d ins buf fuel :
  d <> [] -> NL ∉ d -> 0 ∉ d -> 0 ∉ concat ins -> (length d <= 1023)%nat -> length buf = SIZE -> (length d + total ins < fuel)%nat ->
  exists out buf1 buf2, grep fuel pattern buf 0 (d :: ins) [] = Some (buf1, out) /\ grep fuel pattern buf 0 ins [] = Some (buf2, out).
Proof.
  intros Hne Hnl H0 H0' Hd Hbuf Hfuel. assert (total (d :: ins) = length d + total ins)%nat as Et by (unfold total; cbn; by rewrite length_app).
  destruct (grep_heard pattern fuel [] (d :: ins) buf []) as (b1 & R1 & _); [split; apply not_elem_of_nil|cbn; lia|by apply not_elem_of_app|done|done|lia|].
  destruct (grep_heard pattern fuel [] ins buf []) as (b2 & R2 & _); [split; apply not_elem_of_nil|cbn; lia|done|done|done|lia|].
  exists (selected pattern (heard fuel [] ins)), b1, b2. split; [|exact R2]. cbn [length] in R1. rewrite R1. do 3 f_equal.
  assert (0 < length d)%nat by (destruct d; [done|cbn; lia]). destruct fuel as [|fuel]; [lia|]. rewrite (heard_fuel (S fuel) fuel [] ins) by (cbn; lia).
  cbn [heard read length]. rewrite take_ge, drop_ge by (unfold SIZE; lia). cbn [app].
  rewrite decide_False by done. by rewrite lines_in_part.
Qed.

(** The line "xab", read as "x" and "ab": "ab" is printed, and a pattern that
    needs the "x" does not find the line. *)
Lemma grep_drops_partial_line_witness :
  (exists buf', grep 5 [97; 98] (replicate SIZE 0) 0 [[120]; [97; 98; NL]] [] = Some (buf', [97; 98; NL])) /\
  (exists buf', grep 5 [120; 97] (replicate SIZE 0) 0 [[120]; [97; 98; NL]] [] = Some (buf', [])) /\ match_ [120; 97] [120; 97; 98] = true.
Proof.
  assert (forall pattern o, snd <$> grep 5 pattern (replicate SIZE 0) 0 [[97; 98; NL]] [] = Some o ->
    exists buf', grep 5 pattern (replicate SIZE 0) 0 [[120]; [97; 98; NL]] [] = Some (buf', o)) as H.
  { intros pattern o Ho. destruct (grep_drops_partial_line pattern [120] [[97; 98; NL]] (replicate SIZE 0) 5) as (out & b1 & b2 & R1 & R2).
    - discriminate.
    - apply (bool_decide_unpack _). reflexivity.
    - apply (bool_decide_unpack _). reflexivity.
    - apply (bool_decide_unpack _). reflexivity.
    - cbn. lia.
    - reflexivity.
    - cbn. lia.
    - rewrite R2 in Ho. injection Ho as <-. exists b1. exact R1. }
  split_and!; [apply H; vm_compute; reflexivity|apply H; vm_compute; reflexivity|reflexivity].
Defined.
