(* ===== verification/Vm.v ===== *)
(** * Page tables (src/vm.c)

    Page directories and page tables are pages of the memory of Kalloc, read
    and written a word at a time.  [end_] and [data_] are the linker symbols
    [end] and [data].  Messages on the console are left out. *)

From Stdlib Require Import ZArith Lia String.
From stdpp Require Import prelude numbers strings option gmap list.
From S2P Require Import Prelude Kernel Mem Kalloc.

(** ** Addresses and entries (mmu.h) *)

Definition PDX (va : Z) : Z := Z.land (Z.shiftr (u32 va) 22) 0x3FF.
Definition PTX (va : Z) : Z := Z.land (Z.shiftr (u32 va) 12) 0x3FF.
Definition PGADDR (d t o : Z) : Z := u32 (Z.lor (Z.lor (Z.shiftl d 22) (Z.shiftl t 12)) o).
Definition NPDENTRIES : Z := 1024.
Definition PTE_P : Z := 1.
Definition PTE_W : Z := 2.
Definition PTE_U : Z := 4.
Definition PTE_ADDR (pte : Z) : Z := Z.land (u32 pte) (Z.lnot 0xFFF).
Definition PTE_FLAGS (pte : Z) : Z := Z.land (u32 pte) 0xFFF.
Definition EXTMEM : Z := 0x100000.
Definition DEVSPACE : Z := 0xFE000000.
Definition KERNLINK : Z := KERNBASE + EXTMEM.

Definition present (pte : Z) : bool := negb (Z.land pte PTE_P =? 0).

Section vm.
Context (end_ data_ : Z).

Definition rd (a : Z) : K kmstate Z := gets (fun s => load32 (phys s) a).
Definition wrt (a v : Z) : K kmstate unit := modify (fun s => set_phys (store32 (phys s) a v) s).
Definition zero_page (a : Z) : K kmstate unit := modify (fun s => set_phys (memset (phys s) a 0 PGSIZE) s).

(** The address of the entry for [va], or 0. *)
Definition walkpgdir (pgdir va : Z) (alloc : bool) : K kmstate Z :=
  let pde := pgdir + 4 * PDX va in
  e ← rd pde;
  if present e then mret (P2V (PTE_ADDR e) + 4 * PTX va)
  else if negb alloc then mret 0
  else
    pgtab ← kalloc;
    if pgtab =? 0 then mret 0
    else
      zero_page pgtab;;
      wrt pde (Z.lor (Z.lor (Z.lor (V2P pgtab) PTE_P) PTE_W) PTE_U);;
      mret (pgtab + 4 * PTX va).

(** The loop of [mappages]; [fuel] is the number of pages. *)
Fixpoint mappages_loop (fuel : nat) (pgdir a last pa perm : Z) : K kmstate Z :=
  match fuel with
  | O => spin
  | S fuel =>
      pte ← walkpgdir pgdir a true;
      if pte =? 0 then mret (-1)
      else
        e ← rd pte;
        if present e then panic "remap"
        else
          wrt pte (Z.lor (Z.lor pa perm) PTE_P);;
          if a =? last then mret 0
          else mappages_loop fuel pgdir (u32 (a + PGSIZE)) last (u32 (pa + PGSIZE)) perm
  end.
Definition mappages (pgdir va size pa perm : Z) : K kmstate Z :=
  let a := PGROUNDDOWN va in
  let last := PGROUNDDOWN (u32 (va + size - 1)) in
  mappages_loop (S (Z.to_nat (u32 (last - a) / PGSIZE))) pgdir a last pa perm.

(** The loop of [deallocuvm]: no more rounds than pages below [oldsz]. *)
Fixpoint deallocuvm_loop (fuel : nat) (pgdir a oldsz : Z) : K kmstate unit :=
  if negb (a <? oldsz) then mret ()
  else
    match fuel with
    | O => spin
    | S fuel =>
        pte ← walkpgdir pgdir a false;
        if pte =? 0 then deallocuvm_loop fuel pgdir (u32 (PGADDR (PDX a + 1) 0 0 - PGSIZE + PGSIZE)) oldsz
        else
          e ← rd pte;
          (if present e then
             let pa := PTE_ADDR e in
             if pa =? 0 then panic "kfree"
             else kfree end_ (P2V pa);; wrt pte 0
           else mret ());;
          deallocuvm_loop fuel pgdir (u32 (a + PGSIZE)) oldsz
    end.
Definition deallocuvm (pgdir oldsz newsz : Z) : K kmstate Z :=
  if oldsz <=? newsz then mret oldsz
  else
    deallocuvm_loop (Z.to_nat (oldsz / PGSIZE + 1)) pgdir (PGROUNDUP newsz) oldsz;;
    mret newsz.

Fixpoint allocuvm_loop (fuel : nat) (pgdir a oldsz newsz : Z) : K kmstate Z :=
  if negb (a <? newsz) then mret newsz
  else
    match fuel with
    | O => spin
    | S fuel =>
        m ← kalloc;
        if m =? 0 then deallocuvm pgdir newsz oldsz;; mret 0
        else
          zero_page m;;
          r ← mappages pgdir a PGSIZE (V2P m) (Z.lor PTE_W PTE_U);
          if r <? 0 then deallocuvm pgdir newsz oldsz;; kfree end_ m;; mret 0
          else allocuvm_loop fuel pgdir (u32 (a + PGSIZE)) oldsz newsz
    end.
Definition allocuvm (pgdir oldsz newsz : Z) : K kmstate Z :=
  if KERNBASE <=? newsz then mret 0
  else if newsz <? oldsz then mret oldsz
  else allocuvm_loop (Z.to_nat (newsz / PGSIZE + 1)) pgdir (PGROUNDUP oldsz) oldsz newsz.

Fixpoint freevm_loop (n : nat) (pgdir i : Z) : K kmstate unit :=
  match n with
  | O => mret ()
  | S n =>
      e ← rd (pgdir + 4 * i);
      when (present e) (kfree end_ (P2V (PTE_ADDR e)));;
      freevm_loop n pgdir (i + 1)
  end.
Definition freevm (pgdir : Z) : K kmstate unit :=
  if pgdir =? 0 then panic "freevm: no pgdir"
  else
    deallocuvm pgdir KERNBASE 0;;
    freevm_loop (Z.to_nat NPDENTRIES) pgdir 0;;
    kfree end_ pgdir.

(** [kmap]: virtual address, physical range, permissions. *)
Definition kmap : list (Z * Z * Z * Z) :=
  [ (KERNBASE, 0, EXTMEM, PTE_W);
    (KERNLINK, V2P KERNLINK, V2P data_, 0);
    (data_, V2P data_, PHYSTOP, PTE_W);
    (DEVSPACE, DEVSPACE, 0, PTE_W) ].

Fixpoint setupkvm_loop (ks : list (Z * Z * Z * Z)) (pgdir : Z) : K kmstate Z :=
  match ks with
  | [] => mret pgdir
  | (virt, phys_start, phys_end, perm) :: ks =>
      r ← mappages pgdir virt (u32 (phys_end - phys_start)) phys_start perm;
      if r <? 0 then freevm pgdir;; mret 0 else setupkvm_loop ks pgdir
  end.
Definition setupkvm : K kmstate Z :=
  pgdir ← kalloc;
  if pgdir =? 0 then mret 0
  else
    zero_page pgdir;;
    if DEVSPACE <? P2V PHYSTOP then panic "PHYSTOP too high"
    else setupkvm_loop kmap pgdir.

Definition inituvm (pgdir init sz : Z) : K kmstate unit :=
  if PGSIZE <=? sz then panic "inituvm: more than a page"
  else
    m ← kalloc;
    zero_page m;;
    _ ← mappages pgdir 0 PGSIZE (V2P m) (Z.lor PTE_W PTE_U);
    modify (fun s => set_phys (memmove (phys s) m init sz) s).

Definition clearpteu (pgdir uva : Z) : K kmstate unit :=
  pte ← walkpgdir pgdir uva false;
  if pte =? 0 then panic "clearpteu"
  else
    e ← rd pte;
    wrt pte (Z.land e (Z.lnot PTE_U)).

Fixpoint copyuvm_loop (fuel : nat) (pgdir d i sz : Z) : K kmstate Z :=
  if negb (i <? sz) then mret d
  else
    match fuel with
    | O => spin
    | S fuel =>
        pte ← walkpgdir pgdir i false;
        if pte =? 0 then panic "copyuvm: pte should exist"
        else
          e ← rd pte;
          if negb (present e) then panic "copyuvm: page not present"
          else
            m ← kalloc;
            if m =? 0 then freevm d;; mret 0
            else
              modify (fun s => set_phys (memmove (phys s) m (P2V (PTE_ADDR e)) PGSIZE) s);;
              r ← mappages d i PGSIZE (V2P m) (PTE_FLAGS e);
              if r <? 0 then kfree end_ m;; freevm d;; mret 0
              else copyuvm_loop fuel pgdir d (u32 (i + PGSIZE)) sz
    end.
Definition copyuvm (pgdir sz : Z) : K kmstate Z :=
  d ← setupkvm;
  if d =? 0 then mret 0 else copyuvm_loop (Z.to_nat (sz / PGSIZE + 1)) pgdir d 0 sz.

(** [uva2ka] reads through the address [walkpgdir] returns without looking
    whether it is 0: [null_word] is what it reads there. *)
Context (null_word : Z).

Definition uva2ka (pgdir uva : Z) : K kmstate Z :=
  pte ← walkpgdir pgdir uva false;
  e ← (if pte =? 0 then mret null_word else rd pte);
  if Z.land e PTE_P =? 0 then mret 0
  else if Z.land e PTE_U =? 0 then mret 0
  else mret (P2V (PTE_ADDR e)).

Fixpoint copyout_loop (fuel : nat) (pgdir va buf len : Z) : K kmstate Z :=
  if negb (0 <? len) then mret 0
  else
    match fuel with
    | O => spin
    | S fuel =>
        let va0 := PGROUNDDOWN va in
        pa0 ← uva2ka pgdir va0;
        if pa0 =? 0 then mret (-1)
        else
          let n := Z.min (PGSIZE - (va - va0)) len in
          modify (fun s => set_phys (memmove (phys s) (pa0 + (va - va0)) buf n) s);;
          copyout_loop fuel pgdir (u32 (va0 + PGSIZE)) (buf + n) (len - n)
    end.
Definition copyout (pgdir va p len : Z) : K kmstate Z :=
  copyout_loop (Z.to_nat (len / PGSIZE + 2)) pgdir va p len.
End vm.
