(* ===== verification/Vmspace.v ===== *)
(** * Address spaces

    What a page directory means: the page tables it points to, and the entries
    in them.  The operations of Vm are described by what they do to it, and to
    the free list; pages are never shared between the directory, its tables, the
    user's pages and the free list. *)

From Stdlib Require Import ZArith Lia String.
From stdpp Require Import prelude numbers strings option gmap list.
From S2P Require Import Prelude Kernel Mem Kalloc Vm.

(** ** Fields of addresses and entries *)

Lemma land_3FF a : Z.land a 0x3FF = a mod 1024.
Proof. change 0x3FF with (Z.ones 10). by rewrite Z.land_ones by lia. Qed.

Lemma PDX_div va : 0 <= va < 2 ^ 32 -> PDX va = va / 2 ^ 22.
Proof.
  intros Hva. unfold PDX. rewrite land_3FF, Z.shiftr_div_pow2, u32_id by lia. apply Z.mod_small.
  split; [apply Z.div_pos; lia|apply Z.div_lt_upper_bound; lia].
Qed.

Lemma PTX_div va : 0 <= va < 2 ^ 32 -> PTX va = (va / 2 ^ 12) mod 1024.
Proof. intros Hva. unfold PTX. by rewrite land_3FF, Z.shiftr_div_pow2, u32_id by lia. Qed.

Lemma PDX_bound va : 0 <= PDX va < 1024.
Proof. unfold PDX. rewrite land_3FF. apply Z.mod_pos_bound. lia. Qed.

Lemma PTX_bound va : 0 <= PTX va < 1024.
Proof. unfold PTX. rewrite land_3FF. apply Z.mod_pos_bound. lia. Qed.

(** A page address is given by its two indices. *)
Lemma va_split va : 0 <= va < 2 ^ 32 -> va mod PGSIZE = 0 -> va = PDX va * 2 ^ 22 + PTX va * 2 ^ 12.
Proof.
  intros Hva Hal. rewrite PDX_div, PTX_div by done. unfold PGSIZE in Hal.
  pose proof (Z.div_mod va (2 ^ 12) ltac:(lia)) as H1. change (2 ^ 12) with 4096 in *. rewrite Hal in H1.
  pose proof (Z.div_mod (va / 4096) 1024 ltac:(lia)) as H2. rewrite Z.div_div in H2 by lia. change (2 ^ 22) with (4096 * 1024). lia.
Qed.

Lemma PDX_join i j : 0 <= i < 1024 -> 0 <= j < 1024 -> PDX (i * 2 ^ 22 + j * 2 ^ 12) = i.
Proof.
  intros Hi Hj. rewrite PDX_div by lia. rewrite Z.add_comm, Z.div_add by lia. rewrite Z.div_small; lia.
Qed.

Lemma PTX_join i j : 0 <= i < 1024 -> 0 <= j < 1024 -> PTX (i * 2 ^ 22 + j * 2 ^ 12) = j.
Proof.
  intros Hi Hj. rewrite PTX_div by lia. change (2 ^ 22) with (1024 * 2 ^ 12).
  rewrite Z.mul_assoc, <- Z.mul_add_distr_r, Z.div_mul by lia. rewrite Z.add_comm, Z.mod_add by lia. apply Z.mod_small. lia.
Qed.

Lemma PTE_ADDR_div w : 0 <= w < 2 ^ 32 -> PTE_ADDR w = PGSIZE * (w / PGSIZE).
Proof. intros Hw. unfold PTE_ADDR. rewrite u32_id by lia. apply (land_lnot_page w). Qed.

Lemma PTE_FLAGS_mod w : 0 <= w < 2 ^ 32 -> PTE_FLAGS w = w mod PGSIZE.
Proof. intros Hw. unfold PTE_FLAGS. rewrite u32_id by lia. change 0xFFF with (Z.ones 12). by rewrite Z.land_ones by lia. Qed.

Lemma present_odd w : present w = Z.odd w.
Proof.
  unfold present, PTE_P. change 1 with (Z.ones 1). rewrite Z.land_ones by lia. rewrite Zmod_odd. by destruct (Z.odd w).
Qed.

(** A page address and flags do not overlap. *)
Lemma lor_page a f : a mod PGSIZE = 0 -> 0 <= f < PGSIZE -> Z.lor a f = a + f.
Proof.
  intros Ha Hf. unfold PGSIZE in *.
  assert (Z.land a f = 0) as H0.
  { apply Z.bits_inj'. intros n Hn. rewrite Z.land_spec, Z.bits_0. destruct (decide (n < 12)).
    - assert (Z.testbit a n = false) as ->; [|done].
      assert (a = Z.shiftl (a / 4096) 12) as ->.
      { rewrite Z.shiftl_mul_pow2 by lia. pose proof (Z.div_mod a 4096 ltac:(lia)). change (2 ^ 12) with 4096. lia. }
      by rewrite Z.shiftl_spec_low by lia.
    - assert (Z.testbit f n = false) as ->; [|apply andb_false_r].
      destruct (decide (f = 0)) as [->|]; [apply Z.bits_0|]. apply Z.bits_above_log2; [lia|].
      apply Z.log2_lt_pow2; [lia|]. assert (2 ^ 12 <= 2 ^ n) by (apply Z.pow_le_mono_r; lia). change (2 ^ 12) with 4096 in *. lia. }
  rewrite <- Z.lxor_lor by done. symmetry. by apply Z.add_nocarry_lxor.
Qed.

Lemma entry_lor a p : a mod PGSIZE = 0 -> 0 <= p < PGSIZE -> Z.lor (Z.lor a p) PTE_P = a + Z.lor p PTE_P /\
  0 < Z.lor p PTE_P < PGSIZE /\ Z.odd (Z.lor p PTE_P) = true.
Proof.
  intros Ha Hp. assert (0 <= Z.lor p PTE_P) as H0 by (apply Z.lor_nonneg; unfold PTE_P; lia).
  assert (Z.odd (Z.lor p PTE_P) = true) as Ho by (rewrite <- Z.bit0_odd, Z.lor_spec; unfold PTE_P; apply orb_true_r).
  assert (0 < Z.lor p PTE_P < PGSIZE) as Hb.
  { split; [destruct (decide (Z.lor p PTE_P = 0)) as [E|]; [by rewrite E in Ho|lia]|].
    unfold PGSIZE, PTE_P in *. change 4096 with (2 ^ 12). destruct (decide (Z.lor p 1 = 0)); [lia|].
    apply Z.log2_lt_pow2; [lia|]. rewrite Z.log2_lor by lia. apply Z.max_lub_lt; [|done].
    destruct (decide (p = 0)) as [->|]; [done|]. apply Z.log2_lt_pow2; [lia|]. change (2 ^ 12) with 4096. lia. }
  split_and!; [|lia|lia|done]. rewrite <- Z.lor_assoc. apply lor_page; [done|lia].
Qed.

Lemma pde_lor a : a mod PGSIZE = 0 -> Z.lor (Z.lor (Z.lor a PTE_P) PTE_W) PTE_U = a + 7.
Proof. intros Ha. rewrite <- !Z.lor_assoc. apply lor_page; [done|]. unfold PGSIZE. cbn. lia. Qed.

(** The page an entry refers to. *)
Definition upage (w : Z) : Z := P2V (PTE_ADDR w).

Lemma V2P_page end_ p : page_ok end_ p -> V2P p = p - KERNBASE /\ V2P p mod PGSIZE = 0 /\ 0 <= V2P p < PHYSTOP.
Proof.
  intros Hp. destruct (page_bounds end_ p Hp) as [_ ->]. destruct Hp as (Hal & _ & Hr). split_and!; [done| |lia|lia].
  unfold PGSIZE, KERNBASE in *. rewrite Zminus_mod, Hal. done.
Qed.

Lemma upage_entry end_ p f : page_ok end_ p -> 0 <= f < PGSIZE ->
  upage (V2P p + f) = p /\ PTE_ADDR (V2P p + f) = V2P p /\ PTE_FLAGS (V2P p + f) = f /\ 0 <= V2P p + f < 2 ^ 32.
Proof.
  intros Hp Hf. destruct (V2P_page end_ p Hp) as (HV & Hal & Hr). destruct Hp as (_ & _ & Hk). unfold PGSIZE, PHYSTOP, KERNBASE in *.
  assert (0 <= V2P p + f < 2 ^ 32) as Hb by lia.
  pose proof (Z.div_mod (V2P p) 4096 ltac:(lia)) as Hd. rewrite Hal in Hd.
  assert ((V2P p + f) / 4096 = V2P p / 4096) as Hdiv.
  { rewrite Hd at 1. rewrite Z.add_0_r, Z.mul_comm, Z.div_add_l by lia. rewrite (Z.div_small f); lia. }
  assert (PTE_ADDR (V2P p + f) = V2P p) as Ha by (rewrite PTE_ADDR_div by done; unfold PGSIZE; rewrite Hdiv; lia).
  split_and!; [| done | | lia | lia].
  - unfold upage. rewrite Ha. unfold P2V, KERNBASE. rewrite u32_id; lia.
  - rewrite PTE_FLAGS_mod by done. unfold PGSIZE. rewrite Z.mod_eq, Hdiv by lia. lia.
Qed.

(** ** Words of pages *)

Lemma word_in_page p i x : 0 <= i < 1024 -> p + 4 * i <= x < p + 4 * i + 4 -> in_page p x.
Proof. unfold in_page, PGSIZE. lia. Qed.

Lemma store_word_out m p i v x : 0 <= i < 1024 -> ~ in_page p x -> store32 m (p + 4 * i) v x = m x.
Proof. intros Hi Hx. apply store_bytes_out. rewrite le32_length. unfold in_page, PGSIZE in Hx. lia. Qed.

Lemma load_word_ext m m' p i : 0 <= i < 1024 -> (forall x, in_page p x -> m' x = m x) -> load32 m' (p + 4 * i) = load32 m (p + 4 * i).
Proof. intros Hi Hm. apply load32_ext. intros x Hx. apply Hm. by eapply word_in_page. Qed.

Lemma load_store_word m p i j v : 0 <= i < 1024 -> 0 <= j < 1024 ->
  load32 (store32 m (p + 4 * i) v) (p + 4 * j) = if decide (i = j) then u32 v else load32 m (p + 4 * j).
Proof.
  intros Hi Hj. case_decide as Hij; [subst; apply load32_same|]. apply load32_other. lia.
Qed.

Lemma load_zero_page m p j : 0 <= j < 1024 -> load32 (memset m p 0 PGSIZE) (p + 4 * j) = 0.
Proof.
  intros Hj. unfold load32. rewrite load_memset by (unfold PGSIZE; lia). done.
Qed.

Section space.
Context (end_ : Z).

(** Who has a page. *)
Inductive who : Type := Dir | Table (i : Z) | User (va : Z) | Free.

#[global] Instance who_eq_dec : EqDecision who.
Proof. solve_decision. Defined.

Inductive holds (d : Z) (pt um : gmap Z Z) (ps : list Z) : Z -> who -> Prop :=
  | H_dir : holds d pt um ps d Dir
  | H_table i t : pt !! i = Some t -> holds d pt um ps t (Table i)
  | H_user va w : um !! va = Some w -> va < KERNBASE -> holds d pt um ps (upage w) (User va)
  | H_free p : p ∈ ps -> holds d pt um ps p Free.

Definition entry_addr (i j : Z) : Z := i * 2 ^ 22 + j * 2 ^ 12.

(** Memory holds the directory [d], its tables [pt] and their entries [um]. *)
Record tables_ok (m : mem) (d : Z) (pt um : gmap Z Z) : Prop := {
  to_pde : forall i, 0 <= i < 1024 -> load32 m (d + 4 * i) = match pt !! i with Some t => V2P t + 7 | None => 0 end;
  to_pte : forall i t j, pt !! i = Some t -> 0 <= j < 1024 -> load32 m (t + 4 * j) = default 0 (um !! entry_addr i j) }.

(** [space_ok s d pt um ps]: the address space of directory [d] in state [s],
    with the free pages [ps]. *)
Record space_ok (s : kmstate) (d : Z) (pt um : gmap Z Z) (ps : list Z) : Prop := {
  so_km : kmem_ok end_ s ps;
  so_tables : tables_ok (phys s) d pt um;
  so_idx : forall i t, pt !! i = Some t -> 0 <= i < 1024;
  so_um : forall va w, um !! va = Some w -> va mod PGSIZE = 0 /\ 0 <= va < 2 ^ 32 /\ is_Some (pt !! PDX va) /\ Z.odd w = true /\ 0 <= w < 2 ^ 32;
  so_page : forall p a, holds d pt um ps p a -> page_ok end_ p;
  so_excl : forall p a b, holds d pt um ps p a -> holds d pt um ps p b -> a = b }.

Lemma apart p q x : page_ok end_ p -> page_ok end_ q -> p <> q -> in_page p x -> ~ in_page q x.
Proof. intros [Hp _] [Hq _] Hne Hx Hx'. apply Hne. by apply (pages_apart p q x). Qed.

Lemma holds_apart s d pt um ps p a q b x :
  space_ok s d pt um ps -> holds d pt um ps p a -> holds d pt um ps q b -> a <> b -> in_page p x -> ~ in_page q x.
Proof.
  intros Hs Hp Hq Hab. apply apart; [by eapply so_page..|]. intros ->. by apply Hab, (so_excl _ _ _ _ _ Hs q).
Qed.

(** Memory may change outside the free pages, the directory and the tables. *)
Lemma kmem_frame s ps m' :
  kmem_ok end_ s ps -> mem_ok m' -> (forall p x, p ∈ ps -> in_page p x -> m' x = phys s x) -> kmem_ok end_ (set_phys m' s) ps.
Proof. intros [Hm Hl Hn] Hm' Hf. split; [done| |done]. by eapply threaded_frame, Hl. Qed.

Lemma tables_frame m m' d pt um :
  tables_ok m d pt um -> (forall x, in_page d x -> m' x = m x) ->
  (forall i t x, pt !! i = Some t -> in_page t x -> m' x = m x) -> tables_ok m' d pt um.
Proof.
  intros [H1 H2] Hd Ht. split.
  - intros i Hi. rewrite (load_word_ext m) by done. by apply H1.
  - intros i t j Hi Hj. rewrite (load_word_ext m); [by apply H2|done|]. intros x. by eapply Ht.
Qed.

Lemma entry_addr_PDX va : 0 <= va < 2 ^ 32 -> va mod PGSIZE = 0 -> entry_addr (PDX va) (PTX va) = va.
Proof. intros. unfold entry_addr. symmetry. by apply va_split. Qed.

Lemma entry_addr_inj i j va : 0 <= i < 1024 -> 0 <= j < 1024 -> entry_addr i j = va -> PDX va = i /\ PTX va = j.
Proof. intros Hi Hj <-. split; [by apply PDX_join|by apply PTX_join]. Qed.

(** The directory and the tables are different pages. *)
Record layout (d : Z) (pt : gmap Z Z) : Prop := {
  la_dir : page_ok end_ d;
  la_table : forall i t, pt !! i = Some t -> 0 <= i < 1024 /\ page_ok end_ t /\ t <> d;
  la_inj : forall i j t, pt !! i = Some t -> pt !! j = Some t -> i = j }.

Lemma space_layout s d pt um ps : space_ok s d pt um ps -> layout d pt.
Proof.
  intros Hs. split.
  - eapply so_page; [done|constructor].
  - intros i t Hi. assert (holds d pt um ps t (Table i)) as Hh by (by constructor).
    split_and!; [by eapply so_idx..|by eapply so_page|]. intros ->.
    by assert (Dir = Table i) by (eapply so_excl; [done|constructor|done]).
  - intros i j t Hi Hj. assert (Table i = Table j) as [=] by (eapply so_excl; [done|by constructor|by constructor]). done.
Qed.

(** Writing the entry of [va]. *)
Lemma tables_store m d pt um va t v um' :
  tables_ok m d pt um -> layout d pt -> pt !! PDX va = Some t -> 0 <= va < 2 ^ 32 -> va mod PGSIZE = 0 -> 0 <= v < 2 ^ 32 ->
  (forall va', va' <> va -> um' !! va' = um !! va') -> default 0 (um' !! va) = v ->
  tables_ok (store32 m (t + 4 * PTX va) v) d pt um'.
Proof.
  intros [H1 H2] [Hd Hta Hinj] Ht Hva Hal Hv Hum Hdef. pose proof (PTX_bound va) as Hj.
  destruct (Hta _ _ Ht) as (_ & Htp & Htd). split.
  - intros i Hi. rewrite (load_word_ext m); [by apply H1|done|]. intros x Hx. apply store_word_out; [done|].
    apply (apart d); [done..|congruence|done].
  - intros i t' j Hi Hj'. destruct (Hta _ _ Hi) as (Hi' & Htp' & _). destruct (decide (i = PDX va)) as [->|Hne].
    + rewrite Ht in Hi. injection Hi as <-. rewrite load_store_word by done. case_decide as Hj2.
      * subst j. rewrite entry_addr_PDX by done. rewrite Hdef. by apply u32_id.
      * rewrite (H2 (PDX va)) by done. rewrite Hum; [done|]. intros E.
        apply entry_addr_inj in E as [_ E]; [by rewrite E in Hj2|done|done].
    + rewrite (load_word_ext m); [|done|].
      * rewrite (H2 i) by done. rewrite Hum; [done|]. intros E. apply entry_addr_inj in E as [E _]; [congruence|done|done].
      * intros x Hx. apply store_word_out; [done|]. apply (apart t'); [done..| |done]. intros ->. by apply Hne, (Hinj _ _ t).
Qed.

(** The page of an entry, and what an entry's write leaves alone. *)
Lemma store_entry_km s ps d pt um va t v :
  space_ok s d pt um ps -> pt !! PDX va = Some t -> kmem_ok end_ (set_phys (store32 (phys s) (t + 4 * PTX va) v) s) ps.
Proof.
  intros Hs Ht. apply kmem_frame; [by eapply so_km|apply store32_ok; by apply (so_km _ _ _ _ _ Hs)|].
  intros p x Hp Hx. apply store_word_out; [apply PTX_bound|].
  eapply (holds_apart s d pt um ps p Free t (Table (PDX va))); try done; by constructor.
Qed.

Lemma insert_entry s d pt um ps va t w :
  space_ok s d pt um ps -> pt !! PDX va = Some t -> 0 <= va < 2 ^ 32 -> va mod PGSIZE = 0 ->
  um !! va = None -> Z.odd w = true -> 0 <= w < 2 ^ 32 ->
  (va < KERNBASE -> page_ok end_ (upage w) /\ forall a, ~ holds d pt um ps (upage w) a) ->
  space_ok (set_phys (store32 (phys s) (t + 4 * PTX va) w) s) d pt (<[va := w]> um) ps.
Proof.
  intros Hs Ht Hva Hal Hnone Hodd Hw Hfresh.
  assert (forall p a, holds d pt (<[va := w]> um) ps p a -> holds d pt um ps p a \/ (p = upage w /\ a = User va /\ va < KERNBASE)) as Hholds.
  { intros p a [|i t' Hi|va' w' Hl Hk|p' Hp']; try (left; by constructor).
    apply lookup_insert_Some in Hl as [[<- <-]|[_ Hl]]; [by right|left; by constructor]. }
  split.
  - by eapply store_entry_km.
  - apply (tables_store _ d pt um); try done; [apply Hs|by eapply space_layout| |].
    + intros va' Hne. by rewrite lookup_insert_ne.
    + by rewrite lookup_insert_eq.
  - by apply Hs.
  - intros va' w' Hl. apply lookup_insert_Some in Hl as [[<- <-]|[_ Hl]]; [|by eapply so_um].
    split_and!; try done; lia.
  - intros p a [Hp|(-> & _ & Hk)]%Hholds; [by eapply so_page|by apply Hfresh].
  - intros p a b [Ha|(-> & -> & Hk)]%Hholds [Hb|(E & -> & Hk')]%Hholds; try done.
    + by eapply so_excl.
    + subst p. by destruct (proj2 (Hfresh Hk') a).
    + by destruct (proj2 (Hfresh Hk) b).
Qed.

(** The kernel allocator and an address space. *)
Lemma space_state s s' d pt um ps :
  space_ok s d pt um ps -> kmem_ok end_ s' ps -> phys s' = phys s -> space_ok s' d pt um ps.
Proof. intros [H1 H2 H3 H4 H5 H6] Hk Hp. split; try done. by rewrite Hp. Qed.

(** Freeing the page of an entry and clearing the entry. *)
Lemma delete_entry s s1 d pt um ps va t w :
  space_ok s d pt um ps -> pt !! PDX va = Some t -> um !! va = Some w -> va < KERNBASE ->
  kmem_ok end_ s1 (upage w :: ps) -> (forall x, ~ in_page (upage w) x -> phys s1 x = phys s x) ->
  space_ok (set_phys (store32 (phys s1) (t + 4 * PTX va) 0) s1) d pt (delete va um) (upage w :: ps).
Proof.
  intros Hs Ht Hl Hk Hkm Hout. destruct (so_um _ _ _ _ _ Hs va w Hl) as (Hal & Hva & _ & _ & _).
  assert (holds d pt um ps (upage w) (User va)) as Hu by (by econstructor).
  assert (holds d pt um ps t (Table (PDX va))) as Hht by (by constructor).
  assert (forall p a, holds d pt (delete va um) (upage w :: ps) p a -> (holds d pt um ps p a /\ a <> User va) \/ (p = upage w /\ a = Free)) as Hholds.
  { intros p a [|i t' Hi|va' w' Hl' Hk'|p' Hp'].
    - left. split; [constructor|done].
    - left. split; [by constructor|done].
    - apply lookup_delete_Some in Hl' as [Hne Hl']. left. split; [by econstructor|congruence].
    - apply elem_of_cons in Hp' as [->|Hp']; [by right|]. left. split; [by constructor|done]. }
  split.
  - apply kmem_frame; [done|apply store32_ok, Hkm|]. intros p x Hp Hx. apply store_word_out; [apply PTX_bound|].
    apply elem_of_cons in Hp as [->|Hp].
    + by eapply (holds_apart s d pt um ps (upage w) (User va) t (Table (PDX va))).
    + eapply (holds_apart s d pt um ps p Free t (Table (PDX va))); try done. by constructor.
  - apply (tables_store _ d pt um); try done; [|by eapply space_layout| |by rewrite lookup_delete_eq].
    + eapply tables_frame; [by apply Hs| |].
      * intros x Hx. apply Hout. eapply (holds_apart s d pt um ps d Dir); try done. constructor.
      * intros i t' x Hi Hx. apply Hout. eapply (holds_apart s d pt um ps t' (Table i)); try done. by constructor.
    + intros va' Hne. by rewrite lookup_delete_ne.
  - by apply Hs.
  - intros va' w' [_ Hl']%lookup_delete_Some. by eapply so_um.
  - intros p a [[Hp _]|[-> _]]%Hholds; by eapply so_page.
  - intros p a b [[Ha Ha']|[-> ->]]%Hholds [[Hb Hb']|[E ->]]%Hholds; try done.
    + by eapply so_excl.
    + subst p. destruct Ha'. by eapply so_excl.
    + destruct Hb'. by eapply so_excl.
Qed.

(** A new page table. *)
Lemma add_table s d pt um t ps i :
  space_ok s d pt um (t :: ps) -> pt !! i = None -> 0 <= i < 1024 ->
  forall s', kmem_ok end_ s' ps -> phys s' = phys s ->
  space_ok (set_phys (store32 (memset (phys s') t 0 PGSIZE) (d + 4 * i) (V2P t + 7)) s') d (<[i := t]> pt) um ps.
Proof.
  intros Hs Hi Hib s' Hkm Hp.
  assert (holds d pt um (t :: ps) t Free) as Ht by (constructor; by left).
  assert (holds d pt um (t :: ps) d Dir) as Hd by constructor.
  pose proof (so_page _ _ _ _ _ Hs _ _ Ht) as Htp. pose proof (so_page _ _ _ _ _ Hs _ _ Hd) as Hdp.
  assert (t ∉ ps) as Hnin by (pose proof (so_km _ _ _ _ _ Hs) as [_ _ Hn]; by apply NoDup_cons in Hn as [? _]).
  assert (forall p a, holds d (<[i := t]> pt) um ps p a -> (holds d pt um (t :: ps) p a /\ p <> t) \/ (p = t /\ a = Table i)) as Hholds.
  { intros p a Hh. destruct (decide (p = t)) as [->|Hne].
    - assert (~ holds d pt um (t :: ps) t a \/ a = Free) as Hor.
      { destruct (decide (a = Free)); [by right|left]. intros Ha. by assert (a = Free) by (by eapply so_excl). }
      right. split; [done|]. inversion Hh as [E1 E2|j t' Hj E1 E2|va w Hl Hk E1 E2|p' Hpp E1 E2]; subst a.
      + destruct Hor as [Hor|]; [|done]. destruct Hor. rewrite <- E1 at 2. constructor.
      + apply lookup_insert_Some in Hj as [[<- _]|[Hne Hj]]; [done|]. destruct Hor as [Hor|]; [|done]. destruct Hor. by constructor.
      + destruct Hor as [Hor|]; [|done]. destruct Hor. rewrite <- E1. by constructor.
      + done.
    - left. split; [|done]. destruct Hh as [|j t' Hj|va w Hl Hk|p Hpp]; [constructor| |by constructor|constructor; by right].
      apply lookup_insert_Some in Hj as [[<- <-]|[Hne' Hj]]; [done|by constructor]. }
  assert (forall p a x, holds d pt um (t :: ps) p a -> p <> t -> p <> d -> in_page p x ->
    store32 (memset (phys s') t 0 PGSIZE) (d + 4 * i) (V2P t + 7) x = phys s x) as Hsame.
  { intros p a x Hh Hpt Hpd Hx. pose proof (so_page _ _ _ _ _ Hs _ _ Hh) as Hpp.
    rewrite store_word_out by (done || by apply (apart p)). rewrite memset_spec by (unfold PGSIZE; lia).
    rewrite decide_False by (apply (apart p t x); done). by rewrite Hp. }
  assert (d <> t) as Hdt by (intros ->; by assert (Dir = Free) by (by eapply so_excl)).
  destruct (so_tables _ _ _ _ _ Hs) as [H1 H2]. split.
  - apply kmem_frame; [done|apply store32_ok, memset_ok; [unfold PGSIZE; lia|apply Hkm]|].
    intros p x Hpp Hx. transitivity (phys s x); [|by rewrite Hp].
    apply (Hsame p Free); [constructor; by right|congruence| |done]. intros ->. by assert (Dir = Free) by (eapply so_excl; [done|done|constructor; by right]).
  - split.
    + intros j Hj. cbn [phys set_phys]. rewrite load_store_word by done. case_decide as Hij.
      * subst j. rewrite lookup_insert_eq. apply u32_id. pose proof (V2P_page end_ t Htp). unfold PHYSTOP in *. lia.
      * rewrite lookup_insert_ne by done. rewrite <- H1 by done. apply load_word_ext; [done|]. intros x Hx.
        rewrite memset_spec by (unfold PGSIZE; lia). rewrite decide_False by (by apply (apart d t x)). by rewrite Hp.
    + intros j t' k Hj Hk. cbn [phys set_phys]. apply lookup_insert_Some in Hj as [[<- <-]|[Hne Hj]].
      * rewrite (load_word_ext (memset (phys s') t 0 PGSIZE)); [|done|].
        -- rewrite load_zero_page by done. destruct (um !! entry_addr i k) as [w|] eqn:E; [|done].
           destruct (so_um _ _ _ _ _ Hs _ _ E) as (_ & _ & Hsome & _). unfold entry_addr in Hsome.
           rewrite (PDX_join i k), Hi in Hsome by done.
           by destruct Hsome.
        -- intros x Hx. apply store_word_out; [done|]. apply (apart t d x); done.
      * rewrite <- (H2 j t' k) by done. apply load_word_ext; [done|]. intros x.
        apply (Hsame t' (Table j)); [by constructor| |]; intros ->.
        -- by assert (Table j = Free) by (eapply so_excl; [done|by constructor|done]).
        -- by assert (Table j = Dir) by (eapply so_excl; [done|by constructor|done]).
  - intros j t' [[<- <-]|[_ Hj]]%lookup_insert_Some; [done|by eapply so_idx].
  - intros va w Hl. destruct (so_um _ _ _ _ _ Hs _ _ Hl) as (Ha & Hb & Hsome & Hc). split; [exact Ha|split; [exact Hb|split; [|exact Hc]]].
    destruct (decide (PDX va = i)) as [->|]; [by rewrite lookup_insert_eq|by rewrite lookup_insert_ne by done].
  - intros p a [[Hh _]|[-> _]]%Hholds; [by eapply so_page|done].
  - intros p a b [[Ha Ha']|[-> ->]]%Hholds [[Hb Hb']|[E ->]]%Hholds; try done. by eapply so_excl.
Qed.
End space.
