(* ===== verification/Vmops.v ===== *)
(** * What the operations on page tables do

    Each operation of Vm, run on an address space: its result, the address
    space it leaves, and that it touches no page but those of the address
    space, of the free list, and those its caller holds. *)

From Stdlib Require Import ZArith Lia String.
From stdpp Require Import prelude numbers strings option gmap list.
From S2P Require Import Prelude Kernel Mem Kalloc Vm Vmspace.

Section ops.
Context (end_ : Z).
Local Abbreviation space_ok := (space_ok end_).
Local Abbreviation page_ok := (page_ok end_).

(** The pages of an address space, of the free list, and those in the caller's
    hands. *)
Definition pages (d : Z) (pt um : gmap Z Z) (ps hs : list Z) (p : Z) : Prop :=
  (exists a, holds d pt um ps p a) \/ p ∈ hs.

(** From [s] to [s'] nothing but the pages [P] changed, no page is lost or
    won, and the user pages of [keep] keep their contents. *)
Record evolves (keep : gmap Z Z) (s s' : kmstate) (P P' : Z -> Prop) : Prop := {
  ev_pages : forall p, P' p <-> P p;
  ev_out : forall x, (forall p, P p -> ~ in_page p x) -> phys s' x = phys s x;
  ev_lock : use_lock s' = use_lock s;
  ev_keep : forall va w x, keep !! va = Some w -> va < KERNBASE -> in_page (upage w) x -> phys s' x = phys s x }.

Lemma evolves_refl keep s P : evolves keep s s P P.
Proof. by split. Qed.

Lemma evolves_trans keep s1 s2 s3 P1 P2 P3 :
  evolves keep s1 s2 P1 P2 -> evolves keep s2 s3 P2 P3 -> evolves keep s1 s3 P1 P3.
Proof.
  intros [A1 A2 A3 A4] [B1 B2 B3 B4]. split.
  - intros p. by rewrite B1.
  - intros x Hx. rewrite B2; [by apply A2|]. intros p Hp. by apply Hx, A1.
  - congruence.
  - intros va w x Hk Hv Hx. rewrite (B4 va w) by done. by apply (A4 va w).
Qed.

Lemma evolves_sub keep keep' s s' P P' : evolves keep s s' P P' -> keep' ⊆ keep -> evolves keep' s s' P P'.
Proof. intros [A1 A2 A3 A4] Hs. split; try done. intros va w x Hk. apply A4. by eapply lookup_weaken. Qed.

Lemma evolves_iff keep s s' P P' Q Q' :
  evolves keep s s' P P' -> (forall p, P p <-> Q p) -> (forall p, P' p <-> Q' p) -> evolves keep s s' Q Q'.
Proof.
  intros [A1 A2 A3 A4] HP HP'. split; try done.
  - intros p. by rewrite <- HP, <- HP'.
  - intros x Hx. apply A2. intros p Hp. by apply Hx, HP.
Qed.

(** A page nobody has. *)
Definition fresh (d : Z) (pt um : gmap Z Z) (ps : list Z) (p : Z) : Prop := page_ok p /\ forall a, ~ holds d pt um ps p a.

Lemma fresh_apart s d pt um ps p q a x :
  space_ok s d pt um ps -> fresh d pt um ps p -> holds d pt um ps q a -> in_page q x -> ~ in_page p x.
Proof.
  intros Hs [Hp Hn] Hq. apply (apart end_); [by eapply so_page|done|]. intros ->. by eapply Hn.
Qed.

(** Writing in a page in hand. *)
Lemma space_hand s d pt um ps p m' :
  space_ok s d pt um ps -> fresh d pt um ps p -> mem_ok m' -> (forall x, ~ in_page p x -> m' x = phys s x) ->
  space_ok (set_phys m' s) d pt um ps.
Proof.
  intros Hs Hp Hm Hout. pose proof Hs as [H1 H2 H3 H4 H5 H6]. split; try done.
  - apply kmem_frame; [done|done|]. intros q x Hq Hx. apply Hout. eapply fresh_apart; try done. by constructor.
  - eapply tables_frame; [done| |].
    + intros x Hx. apply Hout. eapply fresh_apart; try done. constructor.
    + intros i t x Hi Hx. apply Hout. eapply fresh_apart; try done. by constructor.
Qed.

Lemma hand_evolves keep s d pt um ps hs p m' :
  space_ok s d pt um ps -> fresh d pt um ps p -> p ∈ hs -> keep ⊆ um -> (forall x, ~ in_page p x -> m' x = phys s x) ->
  evolves keep s (set_phys m' s) (pages d pt um ps hs) (pages d pt um ps hs).
Proof.
  intros Hs Hp Hin Hk Hout. split; try done.
  - intros x Hx. apply Hout, Hx. by right.
  - intros va w x Hl Hv Hx. apply Hout. eapply fresh_apart; try done. econstructor; [|done]. by eapply lookup_weaken.
Qed.

Lemma kalloc_space s d pt um ps h :
  space_ok s d pt um ps -> LKmem ∉ h ->
  exists s', kalloc h s = Ret (hd 0 ps) h s' /\ space_ok s' d pt um (tail ps) /\ phys s' = phys s /\ use_lock s' = use_lock s /\
    match ps with
    | [] => True
    | p :: ps' => hd 0 ps <> 0 /\ fresh d pt um ps' p
    end.
Proof.
  intros Hs Hh. destruct (kalloc_run end_ h s ps (so_km _ _ _ _ _ _ Hs) Hh) as (s' & Hr & Hk & Hu & Hp).
  exists s'. pose proof Hs as [H1 H2 H3 H4 H5 H6].
  assert (forall p a, holds d pt um (tail ps) p a -> holds d pt um ps p a) as Hh'.
  { intros p a [|i t Hi|va w Hl Hv|p' Hp']; try by constructor. constructor. destruct ps; [done|by right]. }
  split_and!; [done| |done|done|].
  - split; try done.
    + by rewrite Hp.
    + intros p a Ha. eapply H5. by apply Hh'.
    + intros p a b Ha Hb. apply (H6 p); by apply Hh'.
  - destruct ps as [|p ps]; [done|]. assert (holds d pt um (p :: ps) p Free) as Hf by (constructor; by left).
    pose proof (page_bounds end_ p (H5 _ _ Hf)). cbn. split; [lia|]. split; [by eapply H5|].
    intros a Ha. assert (a = Free) as -> by (eapply H6; [by apply Hh'|done]).
    inversion Ha as [| | |q Hq E]; subst. destruct H1 as [_ _ Hn]. by apply NoDup_cons in Hn as [? _].
Qed.

Lemma kfree_space s d pt um ps p h :
  space_ok s d pt um ps -> fresh d pt um ps p -> LKmem ∉ h ->
  exists s', kfree end_ p h s = Ret tt h s' /\ space_ok s' d pt um (p :: ps) /\ use_lock s' = use_lock s /\
    forall x, ~ in_page p x -> phys s' x = phys s x.
Proof.
  intros Hs [Hp Hn] Hh. pose proof Hs as [H1 H2 H3 H4 H5 H6].
  destruct (kfree_run end_ p h s ps H1 Hp) as (s' & Hr & Hk & Hu & Hout); [intros Hin; apply (Hn Free); by constructor|done|].
  exists s'. split_and!; [done| |done|done].
  assert (forall q a, holds d pt um (p :: ps) q a -> holds d pt um ps q a \/ (q = p /\ a = Free)) as Hh'.
  { intros q a [|i t Hi|va w Hl Hv|p' Hp']; try (left; by constructor). apply elem_of_cons in Hp' as [->|Hp']; [by right|left; by constructor]. }
  split; try done.
  - eapply tables_frame; [done| |].
    + intros x Hx. apply Hout. eapply fresh_apart; try done. constructor.
    + intros i t x Hi Hx. apply Hout. eapply fresh_apart; try done. by constructor.
  - intros q a [Ha|[-> _]]%Hh'; [by eapply H5|done].
  - intros q a b [Ha|[-> ->]]%Hh' [Hb|[E ->]]%Hh'; try done; [by eapply H6|subst q; by destruct (Hn a)|by destruct (Hn b)].
Qed.

(** A page between the free list and the caller's hands. *)
Lemma pages_take d pt um p ps hs q : pages d pt um (p :: ps) hs q <-> pages d pt um ps (p :: hs) q.
Proof.
  unfold pages. rewrite elem_of_cons. split.
  - intros [[b [|i t Hi|va w Hl Hv|r Hr]]|Hq]; [left; exists Dir; constructor|left; exists (Table i); by constructor|
      left; exists (User va); by econstructor| |by right; right].
    apply elem_of_cons in Hr as [->|Hr]; [right; by left|left; exists Free; by constructor].
  - intros [[b Hb]|[->|Hq]]; [|left; exists Free; constructor; by left|by right].
    left. exists b. destruct Hb; try by constructor. constructor. by right.
Qed.

Lemma evolves_same keep s s' P : phys s' = phys s -> use_lock s' = use_lock s -> evolves keep s s' P P.
Proof. intros Hp Hu. split; try done; intros; by rewrite Hp. Qed.

(** [kalloc] followed by zeroing the page. *)
Lemma zeroed_page s d pt um p ps h :
  space_ok s d pt um (p :: ps) -> LKmem ∉ h ->
  exists s1 s2, kalloc h s = Ret p h s1 /\ p <> 0 /\ zero_page p h s1 = Ret tt h s2 /\ space_ok s2 d pt um ps /\ fresh d pt um ps p /\
    (forall x, ~ in_page p x -> phys s2 x = phys s x) /\ (forall x, in_page p x -> phys s2 x = 0) /\
    evolves um s s2 (pages d pt um (p :: ps) []) (pages d pt um ps [p]).
Proof.
  intros Hs Hh. destruct (kalloc_space s d pt um (p :: ps) h Hs Hh) as (s1 & Hr & Hs1 & Hp1 & Hu1 & Hne & Hfr). cbn [hd tail] in *.
  set (s2 := set_phys (memset (phys s1) p 0 PGSIZE) s1).
  assert (forall x, ~ in_page p x -> phys s2 x = phys s1 x) as Hout.
  { intros x Hx. unfold s2. cbn [phys set_phys]. rewrite memset_spec by (unfold PGSIZE; lia). by rewrite decide_False. }
  exists s1, s2. split_and!; try done.
  - apply (space_hand s1 d pt um ps p); try done. apply memset_ok; [unfold PGSIZE; lia|]. apply (so_km _ _ _ _ _ _ Hs1).
  - intros x Hx. by rewrite Hout, Hp1.
  - intros x Hx. unfold s2. cbn [phys set_phys]. rewrite memset_spec by (unfold PGSIZE; lia). by rewrite decide_True.
  - eapply (evolves_trans um s s1 s2 _ (pages d pt um ps [p])).
    + eapply evolves_iff; [by apply (evolves_same um s s1 (pages d pt um (p :: ps) []))|done|]. intros q. apply pages_take.
    + apply (hand_evolves um s1 d pt um ps [p] p); try done. by left.
Qed.

(** [kfree] of a page in hand. *)
Lemma freed_page s d pt um ps p hs h :
  space_ok s d pt um ps -> fresh d pt um ps p -> LKmem ∉ h ->
  exists s', kfree end_ p h s = Ret tt h s' /\ space_ok s' d pt um (p :: ps) /\
    evolves um s s' (pages d pt um ps (p :: hs)) (pages d pt um (p :: ps) hs).
Proof.
  intros Hs Hfr Hh. destruct (kfree_space s d pt um ps p h Hs Hfr Hh) as (s' & Hr & Hs' & Hu & Hout).
  exists s'. split_and!; [done|done|]. split; [intros q; apply pages_take| |done|].
  - intros x Hx. apply Hout, Hx. right. by left.
  - intros va w x Hl Hv Hx. apply Hout. eapply fresh_apart; [exact Hs|done| |done]. by econstructor.
Qed.

(** ** walkpgdir *)

Lemma pde_present s d pt um ps i t :
  space_ok s d pt um ps -> pt !! i = Some t ->
  load32 (phys s) (d + 4 * i) = V2P t + 7 /\ present (V2P t + 7) = true /\ upage (V2P t + 7) = t.
Proof.
  intros Hs Hi. assert (page_ok t) as Hp by (eapply so_page; [done|by econstructor]).
  destruct (V2P_page end_ t Hp) as (_ & Hal & _). split_and!.
  - rewrite (to_pde _ _ _ _ (so_tables _ _ _ _ _ _ Hs)) by (by eapply so_idx). by rewrite Hi.
  - rewrite present_odd, Z.odd_add. assert (Z.odd (V2P t) = false) as ->; [|done].
    unfold PGSIZE in Hal. apply Z.div_exact in Hal; [|lia]. rewrite Hal, Z.odd_mul. done.
  - apply (upage_entry end_); [done|unfold PGSIZE; lia].
Qed.

Lemma walk_found s d pt um ps va t alloc h :
  space_ok s d pt um ps -> pt !! PDX va = Some t -> walkpgdir d va alloc h s = Ret (t + 4 * PTX va) h s /\ t + 4 * PTX va <> 0.
Proof.
  intros Hs Ht. destruct (pde_present s d pt um ps _ t Hs Ht) as (E1 & E2 & E3).
  assert (page_ok t) as Hp by (eapply so_page; [done|by econstructor]). pose proof (page_bounds end_ t Hp). pose proof (PTX_bound va).
  split; [|lia]. unfold walkpgdir, rd. repeat kstep_base. rewrite E1, E2. unfold upage in E3. by rewrite E3.
Qed.

Lemma walk_none s d pt um ps va h :
  space_ok s d pt um ps -> pt !! PDX va = None -> walkpgdir d va false h s = Ret 0 h s.
Proof.
  intros Hs Ht. unfold walkpgdir, rd. repeat kstep_base.
  rewrite (to_pde _ _ _ _ (so_tables _ _ _ _ _ _ Hs)) by apply PDX_bound. by rewrite Ht.
Qed.

(** An entry read. *)
Lemma read_entry s d pt um ps va t h :
  space_ok s d pt um ps -> pt !! PDX va = Some t -> 0 <= va < 2 ^ 32 -> va mod PGSIZE = 0 ->
  rd (t + 4 * PTX va) h s = Ret (default 0 (um !! va)) h s.
Proof.
  intros Hs Ht Hva Hal. unfold rd. rewrite gets_run.
  rewrite (to_pte _ _ _ _ (so_tables _ _ _ _ _ _ Hs) _ _ _ Ht) by apply PTX_bound. by rewrite entry_addr_PDX.
Qed.

Lemma walk_alloc s d pt um ps hs va h :
  space_ok s d pt um ps -> LKmem ∉ h -> (forall p, p ∈ hs -> fresh d pt um ps p) ->
  exists r s' pt' ps', walkpgdir d va true h s = Ret r h s' /\ space_ok s' d pt' um ps' /\
    evolves um s s' (pages d pt um ps hs) (pages d pt' um ps' hs) /\ pt ⊆ pt' /\ (forall p, p ∈ hs -> fresh d pt' um ps' p) /\
    (forall p x, p ∈ hs -> in_page p x -> phys s' x = phys s x) /\
    (length ps <= S (length ps') /\ length ps + size pt = length ps' + size pt')%nat /\ (forall i t, pt' !! i = Some t -> pt !! i = Some t \/ i = PDX va) /\
    ((r = 0 /\ ps = [] /\ ps' = []) \/ exists t, pt' !! PDX va = Some t /\ r = t + 4 * PTX va /\ r <> 0).
Proof.
  intros Hs Hh Hhs. destruct (pt !! PDX va) as [t|] eqn:Ht.
  { destruct (walk_found s d pt um ps va t true h Hs Ht) as [Hr Hne]. exists (t + 4 * PTX va), s, pt, ps.
    split_and!; try done; [lia|by left|]. right. by exists t. }
  destruct (kalloc_space s d pt um ps h Hs Hh) as (s1 & Hr & Hs1 & Hp1 & Hu1 & Hnew).
  assert (walkpgdir d va true h s = (pgtab ← kalloc; if pgtab =? 0 then mret 0 else
      zero_page pgtab;; wrt (d + 4 * PDX va) (Z.lor (Z.lor (Z.lor (V2P pgtab) PTE_P) PTE_W) PTE_U);; mret (pgtab + 4 * PTX va)) h s) as ->.
  { unfold walkpgdir, rd. repeat kstep_base. rewrite (to_pde _ _ _ _ (so_tables _ _ _ _ _ _ Hs)) by apply PDX_bound. by rewrite Ht. }
  rewrite bind_unfold, Hr. destruct ps as [|t ps].
  { exists 0, s1, pt, []. split_and!; try done; [|by intros p x _ _; rewrite Hp1|cbn; lia|by left|by left].
    split; try done; intros; by rewrite Hp1. }
  destruct Hnew as [Hne [Htp Htn]]. cbn [hd tail] in *. rewrite (proj2 (Z.eqb_neq _ _)) by done.
  destruct (V2P_page end_ t Htp) as (_ & Hal & _). unfold zero_page, wrt. repeat kstep_base. rewrite pde_lor by done.
  pose proof (add_table end_ s d pt um t ps (PDX va) Hs Ht (PDX_bound va) s1 (so_km _ _ _ _ _ _ Hs1) Hp1) as Hs'.
  set (s' := set_phys _ s1) in Hs'.
  assert (forall x, ~ in_page d x -> ~ in_page t x -> phys s' x = phys s x) as Hout.
  { intros x Hd Htx. unfold s'. cbn [phys set_phys]. rewrite store_word_out by (apply PDX_bound || done).
    rewrite memset_spec by (unfold PGSIZE; lia). rewrite decide_False by done. by rewrite Hp1. }
  assert (holds d pt um (t :: ps) t Free) as Hft by (constructor; by left).
  assert (forall p, (exists a, holds d (<[PDX va := t]> pt) um ps p a) <-> exists a, holds d pt um (t :: ps) p a) as Hiff.
  { intros p. split.
    - intros [a [|i t' Hi|va' w Hl Hv|p' Hp']]; [exists Dir; constructor| |exists (User va'); by constructor|exists Free; constructor; by right].
      apply lookup_insert_Some in Hi as [[<- <-]|[_ Hi]]; [exists Free; constructor; by left|exists (Table i); by constructor].
    - intros [a [|i t' Hi|va' w Hl Hv|p' Hp']]; [exists Dir; constructor| |exists (User va'); by constructor|].
      + exists (Table i). constructor. rewrite lookup_insert_ne; [done|congruence].
      + apply elem_of_cons in Hp' as [->|Hp']; [exists (Table (PDX va)); constructor; apply lookup_insert_eq|exists Free; by constructor]. }
  exists (t + 4 * PTX va), s', (<[PDX va := t]> pt), ps. split_and!; [done|done| | | | |cbn; lia|rewrite map_size_insert_None by done; cbn; lia|by intros i t' [[-> _]|[_ ?]]%lookup_insert_Some; [right|left]|].
  - split; [intros p; unfold pages; by rewrite Hiff| |done|].
    + intros x Hx. apply Hout; apply Hx; left; [exists Dir; constructor|by exists Free].
    + intros va' w x Hl Hv Hx. apply Hout.
      * apply (holds_apart end_ s d pt um (t :: ps) (upage w) (User va') d Dir); first [done|by econstructor].
      * apply (holds_apart end_ s d pt um (t :: ps) (upage w) (User va') t Free); first [done|by econstructor].
  - by apply insert_subseteq.
  - intros p Hp. destruct (Hhs p Hp) as [Hpp Hpn]. split; [done|]. intros a Ha.
    destruct (proj1 (Hiff p) (ex_intro _ a Ha)) as [b Hb]. by eapply Hpn.
  - intros p x Hp Hx. destruct (Hhs p Hp) as [Hpp Hpn]. apply Hout.
    + apply (apart end_ p d); [done|eapply so_page; [done|constructor]| |done]. intros ->. eapply Hpn. constructor.
    + apply (apart end_ p t); [done|done| |done]. intros ->. by eapply Hpn.
  - right. exists t. rewrite lookup_insert_eq. split_and!; [done|done|]. pose proof (page_bounds end_ t Htp). pose proof (PTX_bound va). lia.
Qed.

(** ** mappages *)

Lemma store_entry_out s d pt um ps t va v x :
  space_ok s d pt um ps -> pt !! PDX va = Some t -> ~ in_page t x -> store32 (phys s) (t + 4 * PTX va) v x = phys s x.
Proof. intros Hs Ht Hx. apply store_word_out; [apply PTX_bound|done]. Qed.

(** One round of the loop: out of memory, or the entry is made. *)
Lemma map_one fuel s d pt um ps hs a last pa perm h :
  space_ok s d pt um ps -> LKmem ∉ h -> (forall p, p ∈ hs -> fresh d pt um ps p) ->
  a mod PGSIZE = 0 -> 0 <= a < 2 ^ 32 -> um !! a = None -> pa mod PGSIZE = 0 -> 0 <= pa <= 2 ^ 32 - PGSIZE -> 0 <= perm < PGSIZE ->
  let w := pa + Z.lor perm PTE_P in
  (a < KERNBASE -> upage w ∈ hs) ->
  exists s' pt' ps', evolves um s s' (pages d pt um ps hs) (pages d pt' um ps' hs) /\ pt ⊆ pt' /\
    (forall p, p ∈ hs -> fresh d pt' um ps' p) /\ (forall p x, p ∈ hs -> in_page p x -> phys s' x = phys s x) /\
    (length ps <= S (length ps') /\ length ps + size pt = length ps' + size pt')%nat /\ (forall i t, pt' !! i = Some t -> pt !! i = Some t \/ i = PDX a) /\
    ((mappages_loop (S fuel) d a last pa perm h s = Ret (-1) h s' /\ space_ok s' d pt' um ps' /\ ps = [] /\ ps' = []) \/
     (mappages_loop (S fuel) d a last pa perm h s =
        (if a =? last then mret 0 else mappages_loop fuel d (u32 (a + PGSIZE)) last (u32 (pa + PGSIZE)) perm) h s' /\
      space_ok s' d pt' (<[a := w]> um) ps')).
Proof.
  intros Hs Hh Hhs Hal Ha Hnone Hpal Hpa Hperm w Huser.
  destruct (walk_alloc s d pt um ps hs a h Hs Hh Hhs) as (r & s1 & pt' & ps' & Hr & Hs1 & Hev & Hsub & Hhs1 & Hc1 & [Hlen Hsize] & Hdom & Hcase).
  destruct Hcase as [(-> & Hps & ->)|(t & Ht & -> & Hne)].
  { exists s1, pt', []. split_and!; try done. left. split_and!; [|done..]. cbn [mappages_loop]. by rewrite bind_unfold, Hr. }
  destruct (entry_lor pa perm Hpal Hperm) as (Hlor & Hf & Hodd). fold w in Hlor.
  assert (Z.odd w = true) as Hw.
  { unfold w. rewrite Z.odd_add, Hodd. unfold PGSIZE in Hpal. apply Z.div_exact in Hpal; [|lia]. rewrite Hpal, Z.odd_mul. done. }
  set (s' := set_phys (store32 (phys s1) (t + 4 * PTX a) w) s1).
  assert (holds d pt' um ps' t (Table (PDX a))) as Hht by (by constructor).
  assert (forall x, ~ in_page t x -> phys s' x = phys s1 x) as Hout by (intros x Hx; by eapply store_entry_out).
  exists s', pt', ps'. split_and!; try done.
  - destruct Hev as [E1 E2 E3 E4]. split; [done| |done|].
    + intros x Hx. rewrite Hout; [by apply E2|]. apply Hx, E1. left. by eexists.
    + intros va v x Hl Hv Hx. rewrite Hout; [by apply (E4 va v)|].
      apply (holds_apart end_ s1 d pt' um ps' (upage v) (User va) t (Table (PDX a))); first [done|by econstructor].
  - intros p x Hp Hx. rewrite Hout; [by apply (Hc1 p)|]. destruct (Hhs1 p Hp) as [Hpp Hpn].
    apply (apart end_ p t); [done|by eapply so_page| |done]. intros ->. by eapply Hpn.
  - right. split.
    + cbn [mappages_loop]. rewrite bind_unfold, Hr. rewrite (proj2 (Z.eqb_neq _ _)) by done.
      rewrite bind_unfold, (read_entry s1 d pt' um ps') by done. rewrite Hnone. cbn [default].
      change (present 0) with false. cbv iota. unfold wrt. rewrite bind_unfold, modify_run, Hlor. fold s'. by destruct (a =? last).
    + unfold s'. apply insert_entry; try done; [unfold w, PGSIZE in *; lia|]. intros Hk. by apply Hhs1, Huser.
Qed.

(** A page for the user. *)
Lemma map_user_page s d pt um ps hs va p perm h :
  space_ok s d pt um ps -> LKmem ∉ h -> (forall q, q ∈ p :: hs -> fresh d pt um ps q) -> p ∉ hs ->
  va mod PGSIZE = 0 -> 0 <= va < KERNBASE -> um !! va = None -> 0 <= perm < PGSIZE ->
  let w := V2P p + Z.lor perm PTE_P in
  exists r s' pt' um' ps', mappages d va PGSIZE (V2P p) perm h s = Ret r h s' /\ space_ok s' d pt' um' ps' /\ pt ⊆ pt' /\
    (forall q x, q ∈ p :: hs -> in_page q x -> phys s' x = phys s x) /\ (length ps <= S (length ps') /\ length ps + size pt = length ps' + size pt')%nat /\
    ((r = 0 /\ um' = <[va := w]> um /\ upage w = p /\ PTE_FLAGS w = Z.lor perm PTE_P /\
      evolves um s s' (pages d pt um ps (p :: hs)) (pages d pt' um' ps' hs) /\ (forall q, q ∈ hs -> fresh d pt' um' ps' q)) \/
     (r = -1 /\ um' = um /\ ps = [] /\ ps' = [] /\ evolves um s s' (pages d pt um ps (p :: hs)) (pages d pt' um' ps' (p :: hs)) /\
      (forall q, q ∈ p :: hs -> fresh d pt' um' ps' q))).
Proof.
  intros Hs Hh Hhs Hnin Hal Hva Hnone Hperm w. destruct (Hhs p ltac:(by left)) as [Hpp Hpn].
  destruct (V2P_page end_ p Hpp) as (HV & HValign & HVr). destruct (entry_lor (V2P p) perm HValign Hperm) as (Hlor & Hf & _).
  destruct (upage_entry end_ p (Z.lor perm PTE_P) Hpp ltac:(lia)) as (Hup & _ & Hfl & Hw). fold w in Hup, Hfl.
  unfold KERNBASE, PHYSTOP, PGSIZE in * |-.
  assert (mappages d va PGSIZE (V2P p) perm h s = mappages_loop 1 d va va (V2P p) perm h s) as ->.
  { unfold mappages, PGSIZE. rewrite (u32_id (va + 4096 - 1)) by lia.
    destruct (PGROUNDDOWN_spec va) as [Hm Hb]. destruct (PGROUNDDOWN_spec (va + 4096 - 1)) as [Hm' Hb']. unfold PGSIZE in *.
    pose proof (Z.div_mod va 4096 ltac:(lia)). pose proof (Z.div_mod (PGROUNDDOWN va) 4096 ltac:(lia)).
    pose proof (Z.div_mod (PGROUNDDOWN (va + 4096 - 1)) 4096 ltac:(lia)).
    assert (PGROUNDDOWN va = va) as -> by lia. assert (PGROUNDDOWN (va + 4096 - 1) = va) as -> by lia.
    rewrite Z.sub_diag. done. }
  destruct (map_one 0 s d pt um ps (p :: hs) va va (V2P p) perm h Hs Hh Hhs) as (s' & pt' & ps' & Hev & Hsub & Hfr & Hc & [Hlen Hsize] & _ & Hcase);
    try (unfold PGSIZE; first [done|lia]).
  { intros _. fold w. rewrite Hup. by left. }
  fold w in Hcase. destruct Hcase as [(Hr & Hs' & Hps & ->)|(Hr & Hs')].
  - exists (-1), s', pt', um, []. split_and!; try done. by right.
  - rewrite Z.eqb_refl in Hr. exists 0, s', pt', (<[va := w]> um), ps'. split_and!; try done. left. split_and!; try done.
    + eapply evolves_iff; [done|done|]. intros q. unfold pages. split.
      * intros [[a Ha]|[->|Hq]%elem_of_cons]; [|left; exists (User va); rewrite <- Hup; econstructor; [apply lookup_insert_eq|unfold KERNBASE; lia]|by right].
        left. exists a. destruct Ha as [|i t Hi|va' w' Hl Hv|q Hq]; try by constructor.
        econstructor; [|done]. rewrite lookup_insert_ne; [done|congruence].
      * intros [[a Ha]|Hq]; [|right; by right]. destruct Ha as [|i t Hi|va' w' Hl Hv|q Hq];
          [left; exists Dir; constructor|left; exists (Table i); by constructor| |left; exists Free; by constructor].
        apply lookup_insert_Some in Hl as [[<- <-]|[_ Hl]]; [right; rewrite Hup; by left|left; exists (User va'); by econstructor].
    + intros q Hq. destruct (Hfr q ltac:(by right)) as [Hqp Hqn]. split; [done|]. intros a Ha.
      destruct Ha as [|i t Hi|va' w' Hl Hv|q' Hq']; try (eapply Hqn; by constructor).
      apply lookup_insert_Some in Hl as [[<- <-]|[_ Hl]]; [by rewrite Hup in Hq|]. eapply Hqn. by econstructor.
Qed.

(** ** deallocuvm *)

(** The entries outside a range. *)
Definition cut (lo hi : Z) (um : gmap Z Z) : gmap Z Z := filter (fun kv => ~ (lo <= kv.1 < hi)) um.

Lemma lookup_cut lo hi um va : cut lo hi um !! va = if decide (lo <= va < hi) then None else um !! va.
Proof.
  unfold cut. case_decide as Hd.
  - apply map_lookup_filter_None. right. intros w _ Hn. by apply Hn.
  - destruct (um !! va) as [w|] eqn:E; [by apply map_lookup_filter_Some|]. apply map_lookup_filter_None. by left.
Qed.

Lemma cut_subseteq lo hi um : cut lo hi um ⊆ um.
Proof. apply map_filter_subseteq. Qed.

(** Two ranges with the same entries. *)
Lemma cut_ext lo lo' hi um um' :
  (forall va, lo <= va < hi -> ~ (lo' <= va < hi) -> um' !! va = None) ->
  (forall va, lo' <= va < hi -> lo <= va < hi) ->
  (forall va, ~ (lo <= va < hi) -> um' !! va = um !! va) -> cut lo' hi um' = cut lo hi um.
Proof.
  intros H1 H2 H3. apply map_eq. intros va. rewrite !lookup_cut. destruct (decide (lo' <= va < hi)) as [Hl'|Hl'], (decide (lo <= va < hi)) as [Hl|Hl]; try done.
  - destruct Hl. by apply H2.
  - by apply H1.
  - by apply H3.
Qed.

Context (Hend : KERNBASE < end_).

Lemma aligned_next a va : a mod PGSIZE = 0 -> va mod PGSIZE = 0 -> a <= va -> va <> a -> a + PGSIZE <= va.
Proof.
  unfold PGSIZE. intros Ha Hv Hle Hne. pose proof (Z.div_mod a 4096 ltac:(lia)). pose proof (Z.div_mod va 4096 ltac:(lia)). lia.
Qed.

(** Freeing one mapped page. *)
Lemma free_one s d pt um ps hs va t w h :
  space_ok s d pt um ps -> LKmem ∉ h -> (forall q, q ∈ hs -> fresh d pt um ps q) ->
  pt !! PDX va = Some t -> um !! va = Some w -> va < KERNBASE ->
  exists s', (kfree end_ (P2V (PTE_ADDR w));; wrt (t + 4 * PTX va) 0) h s = Ret tt h s' /\ PTE_ADDR w <> 0 /\
    space_ok s' d pt (delete va um) (upage w :: ps) /\
    evolves (delete va um) s s' (pages d pt um ps hs) (pages d pt (delete va um) (upage w :: ps) hs) /\
    (forall q, q ∈ hs -> fresh d pt (delete va um) (upage w :: ps) q) /\ (forall q x, q ∈ hs -> in_page q x -> phys s' x = phys s x).
Proof.
  intros Hs Hh Hhs Ht Hl Hva. assert (holds d pt um ps (upage w) (User va)) as Hu by (by econstructor).
  pose proof (so_page _ _ _ _ _ _ Hs _ _ Hu) as Hup. pose proof (page_bounds end_ (upage w) Hup) as [Hpb _].
  destruct (kfree_run end_ (upage w) h s ps (so_km _ _ _ _ _ _ Hs) Hup) as (s1 & Hr & Hk & Hlk & Hout); [|done|].
  { intros Hin. by assert (User va = Free) by (eapply so_excl; [done|done|by constructor]). }
  set (s' := set_phys (store32 (phys s1) (t + 4 * PTX va) 0) s1).
  pose proof (delete_entry end_ s s1 d pt um ps va t w Hs Ht Hl Hva Hk Hout) as Hs'. fold s' in Hs'.
  assert (forall x, ~ in_page (upage w) x -> ~ in_page t x -> phys s' x = phys s x) as Hout'.
  { intros x Hx Hxt. unfold s'. cbn [phys set_phys]. rewrite store_word_out by (apply PTX_bound || done). by apply Hout. }
  assert (holds d pt um ps t (Table (PDX va))) as Hht by (by constructor).
  assert (forall q, (exists a, holds d pt (delete va um) (upage w :: ps) q a) <-> exists a, holds d pt um ps q a) as Hiff.
  { intros q. split.
    - intros [a [|i t' Hi|va' w' Hl' Hv'|p' Hp']]; [exists Dir; constructor|exists (Table i); by constructor| |].
      + apply lookup_delete_Some in Hl' as [_ Hl']. exists (User va'). by econstructor.
      + apply elem_of_cons in Hp' as [->|Hp']; [by exists (User va)|exists Free; by constructor].
    - intros [a [|i t' Hi|va' w' Hl' Hv'|p' Hp']]; [exists Dir; constructor|exists (Table i); by constructor| |exists Free; constructor; by right].
      destruct (decide (va' = va)) as [->|Hne]; [|exists (User va'); econstructor; [by rewrite lookup_delete_ne|done]].
      rewrite Hl in Hl'. injection Hl' as <-. exists Free. constructor. by left. }
  exists s'. split_and!.
  - fold (upage w). rewrite bind_unfold, Hr. done.
  - intros E. unfold upage in Hup. rewrite E in Hup. destruct Hup as (_ & Hge & _). change (P2V 0) with KERNBASE in Hge. lia.
  - done.
  - split; [intros q; unfold pages; by rewrite Hiff| |done|].
    + intros x Hx. apply Hout'; apply Hx; left; by eexists.
    + intros va' w' x [Hne Hl']%lookup_delete_Some Hv' Hx. apply Hout'.
      * apply (holds_apart end_ s d pt um ps (upage w') (User va') (upage w) (User va)); first [done|by econstructor|congruence].
      * apply (holds_apart end_ s d pt um ps (upage w') (User va') t (Table (PDX va))); first [done|by econstructor].
  - intros q Hq. destruct (Hhs q Hq) as [Hqp Hqn]. split; [done|]. intros a Ha.
    destruct (proj1 (Hiff q) (ex_intro _ a Ha)) as [b Hb]. by eapply Hqn.
  - intros q x Hq Hx. destruct (Hhs q Hq) as [Hqp Hqn].
    apply Hout'; [apply (apart end_ q (upage w))|apply (apart end_ q t)]; try done.
    + intros ->. by apply (Hqn (User va)).
    + exact (so_page _ _ _ _ _ _ Hs _ _ Hht).
    + intros ->. by apply (Hqn (Table (PDX va))).
Qed.

Lemma dealloc_loop fuel s d pt um ps hs a oldsz h :
  space_ok s d pt um ps -> LKmem ∉ h -> (forall q, q ∈ hs -> fresh d pt um ps q) ->
  a mod PGSIZE = 0 -> 0 <= a -> oldsz <= KERNBASE -> oldsz - a <= PGSIZE * Z.of_nat fuel ->
  exists s' ps', deallocuvm_loop end_ fuel d a oldsz h s = Ret tt h s' /\ space_ok s' d pt (cut a oldsz um) ps' /\
    evolves (cut a oldsz um) s s' (pages d pt um ps hs) (pages d pt (cut a oldsz um) ps' hs) /\
    (forall q, q ∈ hs -> fresh d pt (cut a oldsz um) ps' q) /\ (forall q x, q ∈ hs -> in_page q x -> phys s' x = phys s x).
Proof.
  revert s um ps a. induction fuel as [|fuel IH]; intros s um ps a Hs Hh Hhs Hal Ha Hold Hfuel.
  all: cbn [deallocuvm_loop]; destruct (Z.ltb_spec a oldsz) as [Hlt|Hge]; cbn [negb]; try lia.
  1, 3: exists s, ps; replace (cut a oldsz um) with um
    by (apply map_eq; intros va; rewrite lookup_cut; case_decide; [lia|done]); split_and!; done.
  assert (u32 (a + PGSIZE) = a + PGSIZE) as Hnext by (unfold PGSIZE, KERNBASE in *; rewrite u32_id; lia).
  assert ((a + PGSIZE) mod PGSIZE = 0) as Hal' by (unfold PGSIZE in *; rewrite <- Z.add_mod_idemp_r by lia; rewrite Z.mod_same, Z.add_0_r by lia; done).
  assert (0 <= a < 2 ^ 32) as Har by (unfold KERNBASE in *; lia).
  destruct (pt !! PDX a) as [t|] eqn:Ht.
  - destruct (walk_found s d pt um ps a t false h Hs Ht) as [Hw Hne]. rewrite bind_unfold, Hw, (proj2 (Z.eqb_neq _ _)) by done.
    rewrite bind_unfold, (read_entry s d pt um ps) by done. destruct (um !! a) as [w|] eqn:Hl; cbn [from_option id].
    + destruct (so_um _ _ _ _ _ _ Hs _ _ Hl) as (_ & _ & _ & Hodd & _).
      destruct (free_one s d pt um ps hs a t w h) as (s1 & Hr & Hpa & Hs1 & Hev1 & Hhs1 & Hc1); try done; [lia|].
      rewrite present_odd, Hodd, (proj2 (Z.eqb_neq _ _)) by done. rewrite bind_unfold, Hr, Hnext.
      destruct (IH s1 (delete a um) (upage w :: ps) (a + PGSIZE)) as (s' & ps' & Hr' & Hs' & Hev & Hhs' & Hc); try done; [unfold PGSIZE in *; lia|unfold PGSIZE in *; lia|].
      assert (cut (a + PGSIZE) oldsz (delete a um) = cut a oldsz um) as Hcut.
      { apply cut_ext; [|unfold PGSIZE; lia|intros va Hva; rewrite lookup_delete_ne; [done|lia]].
        intros va Hva Hva'. destruct (decide (va = a)) as [->|Hva2]; [by rewrite lookup_delete_eq|]. rewrite lookup_delete_ne by done.
        destruct (um !! va) as [v|] eqn:E; [|done]. destruct (so_um _ _ _ _ _ _ Hs _ _ E) as (Hvm & _).
        pose proof (aligned_next a va Hal Hvm). lia. }
      rewrite Hcut in *. exists s', ps'. split_and!; try done.
      * eapply evolves_trans; [eapply evolves_sub; [done|]|done]. rewrite <- Hcut. apply cut_subseteq.
      * intros q x Hq Hx. rewrite (Hc q) by done. by apply (Hc1 q).
    + change (present 0) with false. cbv iota. rewrite bind_unfold, mret_run, Hnext.
      destruct (IH s um ps (a + PGSIZE)) as (s' & ps' & Hr' & Hs' & Hev & Hhs' & Hc); try done; [unfold PGSIZE in *; lia|unfold PGSIZE in *; lia|].
      assert (cut (a + PGSIZE) oldsz um = cut a oldsz um) as Hcut; [|rewrite Hcut in *; by exists s', ps'].
      apply cut_ext; [|unfold PGSIZE; lia|done]. intros va Hva Hva'. destruct (decide (va = a)) as [->|Hva2]; [done|].
      destruct (um !! va) as [v|] eqn:E; [|done]. destruct (so_um _ _ _ _ _ _ Hs _ _ E) as (Hvm & _).
      pose proof (aligned_next a va Hal Hvm). lia.
  - rewrite bind_unfold, (walk_none s d pt um ps) by done. cbn [Z.eqb]. change (0 =? 0) with true. cbv iota.
    set (a' := u32 _). assert (PDX a < 512) as Hpdx by (rewrite PDX_div by done; apply Z.div_lt_upper_bound; unfold KERNBASE in *; lia).
    pose proof (PDX_bound a) as Hpb.
    assert (a' = (PDX a + 1) * 2 ^ 22) as Ha'.
    { unfold a', PGADDR. rewrite Z.shiftl_0_l, !Z.lor_0_r, Z.shiftl_mul_pow2 by lia. rewrite (u32_id ((PDX a + 1) * 2 ^ 22)) by lia.
      rewrite Z.sub_add. apply u32_id. lia. }
    assert (a + PGSIZE <= a' /\ a' mod PGSIZE = 0) as [Hge' Hal2].
    { rewrite Ha'. rewrite PDX_div by done. pose proof (Z.div_mod a (2 ^ 22) ltac:(lia)). pose proof (Z.mod_pos_bound a (2 ^ 22) ltac:(lia)).
      assert (((a / 2 ^ 22 + 1) * 2 ^ 22) mod PGSIZE = 0) as Hm.
      { unfold PGSIZE. change (2 ^ 22) with (1024 * 4096). by rewrite Z.mul_assoc, Z.mod_mul by lia. }
      split; [|done]. apply aligned_next; [done|done|lia|lia]. }
    destruct (IH s um ps a') as (s' & ps' & Hr' & Hs' & Hev & Hhs' & Hc); try done; [lia|unfold PGSIZE in *; lia|].
    assert (cut a' oldsz um = cut a oldsz um) as Hcut; [|rewrite Hcut in *; by exists s', ps'].
    apply cut_ext; [|unfold PGSIZE in *; lia|done]. intros va Hva Hva'.
    destruct (um !! va) as [v|] eqn:E; [|done]. destruct (so_um _ _ _ _ _ _ Hs _ _ E) as (_ & Hvr & Hsome & _).
    assert (PDX va = PDX a) as Heq; [|rewrite Heq, Ht in Hsome; by destruct Hsome].
    rewrite (PDX_div va) by done. rewrite PDX_div in Ha' |- * by done.
    symmetry. apply (Z.div_unique va (2 ^ 22) (a / 2 ^ 22) (va - 2 ^ 22 * (a / 2 ^ 22))) ; [|lia].
    pose proof (Z.div_mod a (2 ^ 22) ltac:(lia)). pose proof (Z.mod_pos_bound a (2 ^ 22) ltac:(lia)). lia.
Qed.

Lemma PGROUNDUP_bounds a : 0 <= a < 2 ^ 32 - PGSIZE -> PGROUNDUP a mod PGSIZE = 0 /\ a <= PGROUNDUP a < a + PGSIZE.
Proof. intros Ha. apply PGROUNDUP_spec; unfold PGSIZE in *; lia. Qed.

Lemma dealloc_run s d pt um ps hs oldsz newsz h :
  space_ok s d pt um ps -> LKmem ∉ h -> (forall q, q ∈ hs -> fresh d pt um ps q) ->
  0 <= newsz -> newsz < oldsz -> oldsz <= KERNBASE ->
  let um' := cut (PGROUNDUP newsz) oldsz um in
  exists s' ps', deallocuvm end_ d oldsz newsz h s = Ret newsz h s' /\ space_ok s' d pt um' ps' /\
    evolves um' s s' (pages d pt um ps hs) (pages d pt um' ps' hs) /\
    (forall q, q ∈ hs -> fresh d pt um' ps' q) /\ (forall q x, q ∈ hs -> in_page q x -> phys s' x = phys s x).
Proof.
  intros Hs Hh Hhs Hn Hlt Hold um'.
  destruct (PGROUNDUP_bounds newsz) as [Hal Hb]; [unfold KERNBASE, PGSIZE in *; lia|].
  destruct (dealloc_loop (Z.to_nat (oldsz / PGSIZE + 1)) s d pt um ps hs (PGROUNDUP newsz) oldsz h) as (s' & ps' & Hr & Hs' & Hrest); try done.
  - lia.
  - unfold PGSIZE in *. pose proof (Z.div_mod oldsz 4096 ltac:(lia)). pose proof (Z.mod_pos_bound oldsz 4096 ltac:(lia)).
    assert (0 <= oldsz / 4096) by (apply Z.div_pos; lia). lia.
  - exists s', ps'. split_and!; try apply Hrest; [|done]. unfold deallocuvm. rewrite (proj2 (Z.leb_gt _ _)) by lia.
    by rewrite bind_unfold, Hr.
Qed.

(** ** allocuvm *)

(** [um'] is [um] with zeroed user pages at [lo], ..., below [hi]. *)
Record grown (s : kmstate) (um um' : gmap Z Z) (lo hi : Z) : Prop := {
  gr_out : forall va, ~ (lo <= va < hi) -> um' !! va = um !! va;
  gr_in : forall va, lo <= va < hi -> va mod PGSIZE = 0 -> exists w, um' !! va = Some w /\ PTE_FLAGS w = 7 /\
    forall x, in_page (upage w) x -> phys s x = 0;
  gr_al : forall va, lo <= va < hi -> va mod PGSIZE <> 0 -> um' !! va = None }.

Lemma grown_step s s' um um1 lo a w :
  grown s um um1 lo a -> lo <= a -> a mod PGSIZE = 0 -> PTE_FLAGS w = 7 -> (forall x, in_page (upage w) x -> phys s' x = 0) ->
  (forall va, a < va < a + PGSIZE -> um !! va = None) -> a + PGSIZE <= KERNBASE ->
  (forall va v x, um1 !! va = Some v -> va < KERNBASE -> in_page (upage v) x -> phys s' x = phys s x) ->
  grown s' um (<[a := w]> um1) lo (a + PGSIZE).
Proof.
  intros [H1 H2 H3] Hlo Hal Hfl Hz Hno Hk Hkeep. split.
  - intros va Hva. rewrite lookup_insert_ne by (unfold PGSIZE in *; lia). apply H1. unfold PGSIZE in *. lia.
  - intros va Hva Hvm. destruct (decide (va = a)) as [->|Hne]; [exists w; by rewrite lookup_insert_eq|].
    rewrite lookup_insert_ne by done.
    assert (va < a) as Hlt by (destruct (Z_lt_le_dec va a); [done|pose proof (aligned_next a va Hal Hvm); lia]).
    destruct (H2 va) as (v & Hv & Hf & Hx); [lia|done|]. exists v. split_and!; [done..|].
    intros x Hin. rewrite (Hkeep va v) by (done || unfold PGSIZE in *; lia). by apply Hx.
  - intros va Hva Hvm. rewrite lookup_insert_ne by (intros ->; done).
    destruct (decide (va < a)); [apply H3; [lia|done]|]. rewrite H1 by lia. apply Hno.
    destruct (decide (va = a)) as [->|]; [done|lia].
Qed.

(** No entry is mapped in the range an address space grows by. *)
Definition unmapped (um : gmap Z Z) (lo hi : Z) : Prop := forall va, lo <= va < hi -> um !! va = None.

Lemma cut_grown s um um' lo hi hi' : grown s um um' lo hi -> unmapped um lo hi' -> hi <= hi' -> cut lo hi' um' = um.
Proof.
  intros [H1 _ _] Hun Hle. apply map_eq. intros va. rewrite lookup_cut. case_decide; [symmetry; by apply Hun|apply H1; lia].
Qed.

(** Giving back the pages allocated so far. *)
Lemma alloc_undo s s2 d pt um um1 ps hs a oldsz newsz h :
  space_ok s2 d pt um1 ps -> LKmem ∉ h -> (forall q, q ∈ hs -> fresh d pt um1 ps q) ->
  0 <= oldsz < newsz -> newsz <= KERNBASE -> a <= newsz ->
  grown s um um1 (PGROUNDUP oldsz) a -> unmapped um (PGROUNDUP oldsz) newsz ->
  exists s' ps', deallocuvm end_ d newsz oldsz h s2 = Ret oldsz h s' /\ space_ok s' d pt um ps' /\
    evolves um s2 s' (pages d pt um1 ps hs) (pages d pt um ps' hs) /\ (forall q, q ∈ hs -> fresh d pt um ps' q).
Proof.
  intros Hs Hh Hhs Hsz Hk Ha Hgr Hun.
  destruct (dealloc_run s2 d pt um1 ps hs newsz oldsz h) as (s3 & ps3 & Hr3 & Hs3 & Hev3 & Hfr3 & _); try done; [lia|lia|].
  rewrite (cut_grown s um um1 _ a) in * by done. by exists s3, ps3.
Qed.

(** The pages from [a] up to [hi]. *)
Definition page_count (a hi : Z) : Z := (hi - a + PGSIZE - 1) / PGSIZE.

Lemma page_count_next a hi : page_count a hi = page_count (a + PGSIZE) hi + 1.
Proof.
  unfold page_count. replace (hi - a + PGSIZE - 1) with (hi - (a + PGSIZE) + PGSIZE - 1 + 1 * PGSIZE) by lia.
  by rewrite Z.div_add by (unfold PGSIZE; lia).
Qed.

Lemma page_count_pos a hi : a < hi -> 1 <= page_count a hi.
Proof. intros H. unfold page_count, PGSIZE. apply Z.div_le_lower_bound; lia. Qed.

Lemma alloc_loop fuel s0 s d pt0 pt um um1 ps0 ps a oldsz newsz h :
  space_ok s d pt um1 ps -> LKmem ∉ h -> a mod PGSIZE = 0 -> 0 <= oldsz <= newsz -> newsz < KERNBASE -> PGROUNDUP oldsz <= a ->
  newsz - a <= PGSIZE * Z.of_nat fuel -> a < newsz + PGSIZE ->
  unmapped um (PGROUNDUP oldsz) (newsz + PGSIZE) -> grown s um um1 (PGROUNDUP oldsz) a -> um ⊆ um1 ->
  evolves um s0 s (pages d pt0 um ps0 []) (pages d pt um1 ps []) ->
  exists r s' pt' um' ps', allocuvm_loop end_ fuel d a oldsz newsz h s = Ret r h s' /\ space_ok s' d pt' um' ps' /\
    evolves um s0 s' (pages d pt0 um ps0 []) (pages d pt' um' ps' []) /\
    ((r = newsz /\ exists top, newsz <= top < newsz + PGSIZE /\ grown s' um um' (PGROUNDUP oldsz) top) \/
     (r = 0 /\ um' = um /\ Z.of_nat (length ps) < 2 * page_count a newsz)).
Proof.
  revert s pt um1 ps a. induction fuel as [|fuel IH]; intros s pt um1 ps a Hs Hh Hal Hsz Hk Hlo Hfuel Htop Hun Hgr Hsub Hev.
  all: cbn [allocuvm_loop]; destruct (Z.ltb_spec a newsz) as [Hlt|Hge]; cbn [negb]; try lia.
  1, 3: exists newsz, s, pt, um1, ps; split_and!; try done; left; split; [done|exists a; done].
  destruct (PGROUNDUP_bounds oldsz) as [Hral Hrb]; [unfold KERNBASE, PGSIZE in *; lia|].
  assert (u32 (a + PGSIZE) = a + PGSIZE) as Hnext by (unfold PGSIZE, KERNBASE in *; rewrite u32_id; lia).
  assert ((a + PGSIZE) mod PGSIZE = 0) as Hal' by (unfold PGSIZE in *; rewrite <- Z.add_mod_idemp_r by lia; rewrite Z.mod_same, Z.add_0_r by lia; done).
  pose proof (page_count_pos a newsz Hlt) as Hcp.
  assert (um1 !! a = None) as Hnone by (rewrite (gr_out _ _ _ _ _ Hgr) by lia; apply Hun; unfold PGSIZE; lia).
  assert (unmapped um (PGROUNDUP oldsz) newsz) as Hun' by (intros va Hva; apply Hun; unfold PGSIZE; lia).
  destruct ps as [|p ps].
  { destruct (kalloc_space s d pt um1 [] h Hs Hh) as (s1 & Hr1 & Hs1 & Hp1 & Hu1 & _). rewrite bind_unfold, Hr1.
    change (hd 0 [] =? 0) with true. cbv iota.
    destruct (alloc_undo s s1 d pt um um1 [] [] a oldsz newsz h) as (s3 & ps3 & Hr3 & Hs3 & Hev3 & _); try done; [by intros ? ?%not_elem_of_nil|lia..|].
    exists 0, s3, pt, um, ps3. split_and!; [by rewrite bind_unfold, Hr3|done| |right; split_and!; [done|done|cbn; lia]].
    eapply evolves_trans; [exact Hev|]. eapply evolves_trans; [by eapply evolves_same|done]. }
  destruct (zeroed_page s d pt um1 p ps h Hs Hh) as (s1 & s2 & Hr1 & Hne & Hr2 & Hs2 & Hfr & Hout2 & Hz & Hev2).
  rewrite bind_unfold, Hr1, (proj2 (Z.eqb_neq _ _)) by done. rewrite bind_unfold, Hr2. change (Z.lor PTE_W PTE_U) with 6.
  assert (forall q, q ∈ [p] -> fresh d pt um1 ps q) as Hhs by (by intros q ->%list_elem_of_singleton).
  destruct (map_user_page s2 d pt um1 ps [] a p 6 h) as (r & s3 & pt' & um' & ps' & Hr3 & Hs3 & Hpt & Hc & [Hlen _] & Hcase); try done.
  { apply not_elem_of_nil. } { unfold KERNBASE, PGSIZE in *. lia. }
  assert (evolves um s0 s2 (pages d pt0 um ps0 []) (pages d pt um1 ps [p])) as Hev'
    by (eapply evolves_trans; [done|by eapply evolves_sub]).
  rewrite bind_unfold, Hr3. destruct Hcase as [(-> & -> & Hup & Hfl & Hev3 & _)|(-> & -> & Hps & -> & Hev3 & Hfr3)].
  - change (0 <? 0) with false. cbv iota. rewrite Hnext. set (w := V2P p + Z.lor 6 PTE_P) in *.
    edestruct (IH s3 pt' (<[a := w]> um1) ps' (a + PGSIZE)) as (r & sf & ptf & umf & psf & Hrf & Hsf & Hevf & Hres); try done; try (unfold PGSIZE in *; lia).
    + eapply (grown_step s s3); try done; [| |unfold KERNBASE, PGSIZE in *; pose proof (Z.div_mod a 4096); lia|].
      * rewrite Hup. intros x Hx. rewrite (Hc p) by (done || by left). by apply Hz.
      * intros va Hva. apply Hun. lia.
      * intros va v x Hl Hv Hx. rewrite (ev_keep _ _ _ _ _ Hev3 va v) by done. apply Hout2.
        eapply fresh_apart; [exact Hs2|done| |done]. by econstructor.
    + etrans; [done|]. by apply insert_subseteq.
    + eapply evolves_trans; [done|]. by eapply evolves_sub.
    + exists r, sf, ptf, umf, psf. split_and!; try done. destruct Hres as [Hres|(-> & -> & Hcnt)]; [by left|right].
      split_and!; [done|done|]. rewrite (page_count_next a). cbn [length]. lia.
  - change (-1 <? 0) with true. cbv iota.
    destruct (alloc_undo s s3 d pt' um um1 [] [p] a oldsz newsz h) as (s4 & ps4 & Hr4 & Hs4 & Hev4 & Hfr4); try done; [lia..|].
    destruct (freed_page s4 d pt' um ps4 p [] h Hs4 (Hfr4 p ltac:(by left)) Hh) as (s5 & Hr5 & Hs5 & Hev5).
    rewrite bind_unfold, Hr4, bind_unfold, Hr5. exists 0, s5, pt', um, (p :: ps4). split_and!; try done; [|right; split_and!; [done|done|rewrite Hps; cbn; lia]].
    eapply evolves_trans; [done|]. eapply evolves_trans; [by eapply evolves_sub|]. by eapply evolves_trans.
Qed.
End ops.
