(* ===== verification/Vmkern.v ===== *)
(** * Making, freeing and copying address spaces

    [setupkvm], [freevm] and [copyuvm] of src/vm.c: a new address space has the
    kernel's mappings; freeing one gives back all its pages; copying one gives
    the copy the same contents in pages of its own.  None of them loses a page,
    also when memory runs out on the way. *)

From Stdlib Require Import ZArith Lia String.
From stdpp Require Import prelude numbers strings option gmap list.
From S2P Require Import Prelude Kernel Mem Kalloc Vm Vmspace Vmops.

Section kern.
Context (end_ : Z) (Hend : KERNBASE < end_).
Local Abbreviation space_ok := (space_ok end_).
Local Abbreviation page_ok := (page_ok end_).
Local Abbreviation fresh := (fresh end_).

(** ** Kernel mappings *)

Lemma pages_kernel d pt um ps hs a w q :
  KERNBASE <= a -> pages d pt (<[a := w]> um) ps hs q <-> pages d pt um ps hs q.
Proof.
  intros Ha. unfold pages.
  assert (forall b, holds d pt (<[a := w]> um) ps q b <-> holds d pt um ps q b) as H; [|by setoid_rewrite H].
  intros b. split; intros [|i t Hi|va v Hl Hv|r Hr]; try by constructor.
  - rewrite lookup_insert_ne in Hl by lia. by econstructor.
  - econstructor; [|done]. by rewrite lookup_insert_ne by lia.
Qed.

(** A directory has 1024 entries. *)
Lemma table_count s d pt um ps : space_ok s d pt um ps -> (size pt <= 1024)%nat.
Proof.
  intros Hs. rewrite <- size_dom. transitivity (size (list_to_set (seqZ 0 1024) : gset Z)).
  - apply subseteq_size. intros i Hi. apply elem_of_dom in Hi as [t Hi]. apply elem_of_list_to_set, elem_of_seqZ.
    pose proof (so_idx _ _ _ _ _ _ Hs _ _ Hi). lia.
  - rewrite size_list_to_set by apply NoDup_seqZ. by rewrite length_seqZ.
Qed.

(** An address space with tables of the kernel's part only. *)
Definition kernel_only (pt : gmap Z Z) : Prop := forall i t, pt !! i = Some t -> 512 <= i.
Lemma kernel_count s d pt um ps : space_ok s d pt um ps -> kernel_only pt -> (size pt <= 512)%nat.
Proof.
  intros Hs Hk. rewrite <- size_dom. transitivity (size (list_to_set (seqZ 512 512) : gset Z)).
  - apply subseteq_size. intros i Hi. apply elem_of_dom in Hi as [t Hi]. apply elem_of_list_to_set, elem_of_seqZ.
    pose proof (so_idx _ _ _ _ _ _ Hs _ _ Hi). specialize (Hk _ _ Hi). lia.
  - rewrite size_list_to_set by apply NoDup_seqZ. by rewrite length_seqZ.
Qed.

Lemma PDX_kernel a : KERNBASE <= a < 2 ^ 32 -> 512 <= PDX a.
Proof.
  intros Ha. unfold PDX. rewrite u32_id by (unfold KERNBASE in *; lia). change 0x3FF with (Z.ones 10). rewrite Z.land_ones, Z.shiftr_div_pow2 by lia.
  rewrite Z.mod_small; unfold KERNBASE in *.
  - apply Z.div_le_lower_bound; lia.
  - split; [apply Z.div_pos; lia|apply Z.div_lt_upper_bound; lia].
Qed.

(** The entries [mappages] makes: [k] pages from [a] on, at [pa]. *)
Definition mapped (um : gmap Z Z) (a pa perm : Z) (k : nat) : Prop :=
  forall i, (i < k)%nat -> um !! (a + Z.of_nat i * PGSIZE) = Some (pa + Z.of_nat i * PGSIZE + Z.lor perm PTE_P).

Lemma add_page_mod a : a mod PGSIZE = 0 -> (a + PGSIZE) mod PGSIZE = 0.
Proof. unfold PGSIZE. intros Ha. rewrite <- Z.add_mod_idemp_r by lia. by rewrite Z.mod_same, Z.add_0_r by lia. Qed.

Lemma map_range k s d pt um ps a pa perm h :
  space_ok s d pt um ps -> LKmem ∉ h -> KERNBASE <= a -> a mod PGSIZE = 0 -> a + Z.of_nat (S k) * PGSIZE <= 2 ^ 32 ->
  pa mod PGSIZE = 0 -> 0 <= pa -> pa + Z.of_nat (S k) * PGSIZE <= 2 ^ 32 -> 0 <= perm < PGSIZE ->
  (forall va, a <= va < a + Z.of_nat (S k) * PGSIZE -> um !! va = None) ->
  exists r s' pt' um' ps', mappages_loop (S k) d a (a + Z.of_nat k * PGSIZE) pa perm h s = Ret r h s' /\
    space_ok s' d pt' um' ps' /\ evolves um s s' (pages d pt um ps []) (pages d pt' um' ps' []) /\ um ⊆ um' /\
    (forall va, ~ (a <= va < a + Z.of_nat (S k) * PGSIZE) -> um' !! va = um !! va) /\
    (length ps + size pt = length ps' + size pt')%nat /\ (forall i t, pt' !! i = Some t -> pt !! i = Some t \/ 512 <= i) /\
    ((r = 0 /\ mapped um' a pa perm (S k)) \/ (r = -1 /\ ps' = [])).
Proof.
  revert s pt um ps a pa. induction k as [|k IH]; intros s pt um ps a pa Hs Hh Hk Hal Har Hpal Hpa Hpar Hperm Hun;
    [set (fuel := 0%nat)|set (fuel := S k)]; set (last := a + _ * PGSIZE).
  all: destruct (map_one end_ fuel s d pt um ps [] a last pa perm h) as (s1 & pt1 & ps1 & Hev & Hsub & _ & _ & [_ Hsize] & Hdom0 & Hcase);
    [done|done|by intros ? ?%not_elem_of_nil|done|unfold KERNBASE, PGSIZE in *; lia|apply Hun; unfold PGSIZE; lia|done|
     unfold PGSIZE in *; lia|done|unfold KERNBASE in *; lia|].
  all: assert (forall i t, pt1 !! i = Some t -> pt !! i = Some t \/ 512 <= i) as Hdom by
    (intros i t [?| ->]%Hdom0; [by left|right; apply PDX_kernel; unfold PGSIZE in *; lia]).
  all: set (w := pa + Z.lor perm PTE_P) in *; destruct Hcase as [(Hr & Hs1 & _ & Hps1)|(Hr & Hs1)];
    [exists (-1), s1, pt1, um, ps1; split_and!; done || by right|].
  all: assert (evolves um s s1 (pages d pt um ps []) (pages d pt1 (<[a := w]> um) ps1 [])) as Hev1
    by (eapply evolves_iff; [exact Hev|done|intros q; by rewrite pages_kernel]).
  all: assert (um ⊆ <[a := w]> um) as Hsub1 by (apply insert_subseteq, Hun; unfold PGSIZE; lia).
  - rewrite (proj2 (Z.eqb_eq a last)) in Hr by (unfold last; lia).
    exists 0, s1, pt1, (<[a := w]> um), ps1. split_and!; try done.
    + intros va Hva. rewrite lookup_insert_ne; [done|]. unfold PGSIZE in *. lia.
    + left. split; [done|]. intros i Hi. replace i with 0%nat by lia. rewrite !Z.add_0_r. apply lookup_insert_eq.
  - rewrite (proj2 (Z.eqb_neq a last)) in Hr by (unfold last, PGSIZE; lia).
    rewrite (u32_id (a + PGSIZE)), (u32_id (pa + PGSIZE)) in Hr by (unfold KERNBASE, PGSIZE in *; lia).
    destruct (IH s1 pt1 (<[a := w]> um) ps1 (a + PGSIZE) (pa + PGSIZE)) as (r & s' & pt' & um' & ps' & Hr' & Hs' & Hev' & Hsub' & Hout & Hsize' & Hdom' & Hres);
      try done; try (by apply add_page_mod); try (unfold PGSIZE in *; lia).
    { intros va Hva. rewrite lookup_insert_ne by (unfold PGSIZE in *; lia). apply Hun. unfold PGSIZE in *. lia. }
    replace (a + PGSIZE + Z.of_nat k * PGSIZE) with last in Hr' by (unfold last; lia).
    exists r, s', pt', um', ps'. split_and!; [etrans; [exact Hr|exact Hr']|done| |by etrans| |lia|by intros i t [?%Hdom|?]%Hdom'; [|right]|].
    + eapply evolves_trans; [done|]. by eapply evolves_sub.
    + intros va Hva. rewrite Hout by (unfold PGSIZE in *; lia). rewrite lookup_insert_ne; [done|]. unfold PGSIZE in *. lia.
    + destruct Hres as [[-> Hm]|Hres]; [left; split; [done|]|by right]. intros [|i] Hi.
      * rewrite !Z.mul_0_l, !Z.add_0_r. eapply lookup_weaken; [|exact Hsub']. apply lookup_insert_eq.
      * specialize (Hm i ltac:(lia)). replace (a + Z.of_nat (S i) * PGSIZE) with (a + PGSIZE + Z.of_nat i * PGSIZE) by lia.
        rewrite Hm. f_equal. lia.
Qed.

(** [mappages] of a page-aligned range of the kernel's part. *)
Lemma mappages_kernel s d pt um ps a size pa perm h :
  space_ok s d pt um ps -> LKmem ∉ h -> KERNBASE <= a -> a mod PGSIZE = 0 -> a + size <= 2 ^ 32 -> 0 < size -> size mod PGSIZE = 0 ->
  pa mod PGSIZE = 0 -> 0 <= pa -> pa + size <= 2 ^ 32 -> 0 <= perm < PGSIZE ->
  (forall va, a <= va < a + size -> um !! va = None) ->
  exists r s' pt' um' ps', mappages d a size pa perm h s = Ret r h s' /\
    space_ok s' d pt' um' ps' /\ evolves um s s' (pages d pt um ps []) (pages d pt' um' ps' []) /\ um ⊆ um' /\
    (forall va, ~ (a <= va < a + size) -> um' !! va = um !! va) /\
    (length ps + base.size pt = length ps' + base.size pt')%nat /\ (forall i t, pt' !! i = Some t -> pt !! i = Some t \/ 512 <= i) /\
    ((r = 0 /\ mapped um' a pa perm (Z.to_nat (size / PGSIZE))) \/ (r = -1 /\ ps' = [])).
Proof.
  intros Hs Hh Hk Hal Har Hsz Hsal Hpal Hpa Hpar Hperm Hun.
  set (k := Z.to_nat (size / PGSIZE - 1)).
  pose proof (Z.div_mod size PGSIZE ltac:(unfold PGSIZE; lia)) as Hd. rewrite Hsal, Z.add_0_r in Hd.
  assert (0 < size / PGSIZE) as Hpos by (unfold PGSIZE in *; lia).
  assert (size = Z.of_nat (S k) * PGSIZE) as Hsize by (unfold k; rewrite Nat2Z.inj_succ, Z2Nat.id by lia; lia).
  assert (Z.to_nat (size / PGSIZE) = S k) as -> by (unfold k; lia).
  assert (mappages d a size pa perm h s = mappages_loop (S k) d a (a + Z.of_nat k * PGSIZE) pa perm h s) as ->.
  { unfold mappages. rewrite (u32_id (a + size - 1)) by (unfold KERNBASE in *; lia).
    assert (PGROUNDDOWN a = a) as Ea.
    { destruct (PGROUNDDOWN_spec a) as [Hm Hb]. unfold PGSIZE in *.
      pose proof (Z.div_mod a 4096 ltac:(lia)). pose proof (Z.div_mod (PGROUNDDOWN a) 4096 ltac:(lia)). lia. }
    assert (PGROUNDDOWN (a + size - 1) = a + Z.of_nat k * PGSIZE) as El.
    { destruct (PGROUNDDOWN_spec (a + size - 1)) as [Hm Hb]. unfold PGSIZE in *.
      pose proof (Z.div_mod a 4096 ltac:(lia)). pose proof (Z.div_mod (PGROUNDDOWN (a + size - 1)) 4096 ltac:(lia)). lia. }
    rewrite Ea, El. replace (a + Z.of_nat k * PGSIZE - a) with (Z.of_nat k * PGSIZE) by lia.
    rewrite u32_id by (unfold KERNBASE, PGSIZE in *; lia). rewrite Z.div_mul by (unfold PGSIZE; lia). by rewrite Nat2Z.id. }
  rewrite Hsize in *. by apply map_range.
Qed.

(** ** freevm *)

(** The tables from index [i] on are freed. *)
Lemma freevm_tables n d pt h : forall i s ps,
  layout end_ d pt -> LKmem ∉ h -> 0 <= i -> i + Z.of_nat n = 1024 -> kmem_ok end_ s ps -> d ∉ ps ->
  (forall j, i <= j < 1024 -> load32 (phys s) (d + 4 * j) = match pt !! j with Some t => V2P t + 7 | None => 0 end) ->
  (forall j t, i <= j -> pt !! j = Some t -> t ∉ ps) ->
  exists s' ps', freevm_loop end_ n d i h s = Ret tt h s' /\ kmem_ok end_ s' ps' /\ use_lock s' = use_lock s /\
    (forall p, p ∈ ps' <-> p ∈ ps \/ exists j, i <= j /\ pt !! j = Some p) /\
    (forall x, (forall j t, i <= j -> pt !! j = Some t -> ~ in_page t x) -> phys s' x = phys s x).
Proof.
  induction n as [|n IH]; intros i s ps Hlay Hh Hi Hn Hkm Hd Hpde Hnin.
  { exists s, ps. split_and!; try done. intros p. split; [by left|]. intros [?|(j & Hj & Hl)]; [done|].
    destruct (la_table _ _ _ Hlay _ _ Hl). lia. }
  cbn [freevm_loop]. unfold rd. rewrite bind_unfold, gets_run. rewrite Hpde by lia. destruct (pt !! i) as [t|] eqn:Ht.
  - destruct (la_table _ _ _ Hlay _ _ Ht) as (_ & Htp & Htd). destruct (V2P_page end_ t Htp) as (_ & Hal & _).
    assert (present (V2P t + 7) = true) as ->.
    { rewrite present_odd, Z.odd_add. unfold PGSIZE in Hal. apply Z.div_exact in Hal; [|lia]. rewrite Hal, Z.odd_mul. done. }
    destruct (upage_entry end_ t 7 Htp ltac:(unfold PGSIZE; lia)) as (Hup & _). unfold upage in Hup. cbn [when]. rewrite Hup.
    destruct (kfree_run end_ t h s ps Hkm Htp (Hnin i t ltac:(lia) Ht) Hh) as (s1 & Hr1 & Hk1 & Hu1 & Hout1).
    rewrite bind_unfold, Hr1.
    destruct (IH (i + 1) s1 (t :: ps)) as (s' & ps' & Hr & Hk & Hu & Hps & Hout); try done; try lia.
    + apply not_elem_of_cons. split; [congruence|done].
    + intros j Hj. rewrite <- Hpde by lia. apply load_word_ext; [lia|]. intros x Hx. apply Hout1.
      apply (apart end_ d t x); [apply Hlay|done|congruence|done].
    + intros j t' Hj Hl. apply not_elem_of_cons. split; [|by apply (Hnin j); [lia|]]. intros ->.
      assert (j = i) by (by eapply (la_inj _ _ _ Hlay)). lia.
    + exists s', ps'. split_and!; try done; [congruence| |].
      * intros p. rewrite Hps, elem_of_cons. split.
        -- intros [[->|?]|(j & Hj & Hl)]; [right; by exists i|by left|right; exists j; split; [lia|done]].
        -- intros [?|(j & Hj & Hl)]; [left; by right|]. destruct (decide (j = i)) as [->|]; [left; left; congruence|].
           right. exists j. split; [lia|done].
      * intros x Hx. rewrite Hout by (intros j t' Hj; apply Hx; lia). apply Hout1. by apply (Hx i).
  - change (present 0) with false. cbn [when]. rewrite bind_unfold, mret_run.
    destruct (IH (i + 1) s ps) as (s' & ps' & Hr & Hk & Hu & Hps & Hout); try done; try lia.
    + intros j Hj. apply Hpde. lia.
    + intros j t' Hj. apply Hnin. lia.
    + exists s', ps'. split_and!; try done.
      * intros p. rewrite Hps. split; (intros [?|(j & Hj & Hl)]; [by left|right; exists j]); [split; [lia|done]|].
        split; [|done]. destruct (decide (j = i)) as [->|]; [congruence|lia].
      * intros x Hx. apply Hout. intros j t' Hj. apply Hx. lia.
Qed.

(** [freevm] gives back every page of the address space. *)
Lemma freevm_run s d pt um ps h :
  space_ok s d pt um ps -> LKmem ∉ h ->
  exists s' ps', freevm end_ d h s = Ret tt h s' /\ kmem_ok end_ s' ps' /\ use_lock s' = use_lock s /\
    (forall p, p ∈ ps' <-> pages d pt um ps [] p) /\
    (forall x, (forall p, pages d pt um ps [] p -> ~ in_page p x) -> phys s' x = phys s x).
Proof.
  intros Hs Hh. pose proof (space_layout _ _ _ _ _ _ Hs) as Hlay.
  pose proof (page_bounds end_ d (la_dir _ _ _ Hlay)) as [Hdb _].
  destruct (dealloc_run end_ Hend s d pt um ps [] KERNBASE 0 h) as (s1 & ps1 & Hr1 & Hs1 & Hev1 & _); try done; [by intros ? ?%not_elem_of_nil|].
  set (um1 := cut _ _ um) in *.
  assert (forall va w, um1 !! va = Some w -> ~ va < KERNBASE) as Huser.
  { intros va w Hl. unfold um1 in Hl. rewrite lookup_cut in Hl. case_decide as Hva; [done|].
    destruct (so_um _ _ _ _ _ _ Hs _ _ Hl) as (_ & Hb & _). change (PGROUNDUP 0) with 0 in Hva. lia. }
  assert (d ∉ ps1) as Hd1.
  { intros Hin. by assert (Dir = Free) by (eapply so_excl; [exact Hs1|constructor|by constructor]). }
  assert (forall j t, pt !! j = Some t -> t ∉ ps1) as Ht1.
  { intros j t Hl Hin. by assert (Table j = Free) by (eapply so_excl; [exact Hs1|by constructor|by constructor]). }
  destruct (freevm_tables (Z.to_nat NPDENTRIES) d pt h 0 s1 ps1) as (s2 & ps2 & Hr2 & Hk2 & Hu2 & Hps2 & Hout2); try done.
  { apply Hs1. } { intros j Hj. apply Hs1. lia. } { intros j t _. apply Ht1. }
  assert (d ∉ ps2) as Hd2.
  { rewrite Hps2. intros [?|(j & _ & Hl)]; [done|]. by destruct (la_table _ _ _ Hlay _ _ Hl) as (_ & _ & ?). }
  destruct (kfree_run end_ d h s2 ps2 Hk2 (la_dir _ _ _ Hlay) Hd2 Hh) as (s3 & Hr3 & Hk3 & Hu3 & Hout3).
  exists s3, (d :: ps2). split_and!.
  - unfold freevm. rewrite (proj2 (Z.eqb_neq _ _)) by lia. rewrite bind_unfold, Hr1, bind_unfold, Hr2. exact Hr3.
  - done.
  - rewrite Hu3, Hu2. apply Hev1.
  - intros p. rewrite <- (ev_pages _ _ _ _ _ Hev1), elem_of_cons, Hps2. unfold pages. split.
    + intros [->|[Hp|(j & _ & Hl)]]; left; [exists Dir; constructor|exists Free; by constructor|exists (Table j); by constructor].
    + intros [[a [|j t Hl|va w Hl Hv|q Hq]]|?%not_elem_of_nil]; [by left|right; right; exists j; split; [|done]| |by right; left|done].
      * by destruct (la_table _ _ _ Hlay _ _ Hl) as [[? _] _].
      * by destruct (Huser va w).
  - intros x Hx. rewrite Hout3, Hout2; [by apply (ev_out _ _ _ _ _ Hev1)| |].
    + intros j t _ Hl. apply Hx. left. exists (Table j). by constructor.
    + apply Hx. left. exists Dir. constructor.
Qed.

(** ** setupkvm *)

Context (data_ : Z) (Hdata : KERNLINK < data_ < KERNBASE + PHYSTOP) (Hdal : data_ mod PGSIZE = 0).

(** The kernel's part of an address space, as [kmap] describes it. *)
Definition kernel_mapped (um : gmap Z Z) : Prop :=
  Forall (fun k => let '(virt, phys_start, phys_end, perm) := k in
    mapped um virt phys_start perm (Z.to_nat (u32 (phys_end - phys_start) / PGSIZE))) (kmap data_).

(** The ranges of [kmap]: page-aligned, in the kernel's part, in order. *)
Definition range_ok (lo : Z) (k : Z * Z * Z * Z) : Prop :=
  let '(virt, phys_start, phys_end, perm) := k in
  let size := u32 (phys_end - phys_start) in
  KERNBASE <= virt /\ lo <= virt /\ virt mod PGSIZE = 0 /\ virt + size <= 2 ^ 32 /\ 0 < size /\ size mod PGSIZE = 0 /\
  phys_start mod PGSIZE = 0 /\ 0 <= phys_start /\ phys_start + size <= 2 ^ 32 /\ 0 <= perm < PGSIZE.

Fixpoint ranges_ok (lo : Z) (ks : list (Z * Z * Z * Z)) : Prop :=
  match ks with
  | [] => True
  | k :: ks => range_ok lo k /\ ranges_ok (k.1.1.1 + u32 (k.1.2 - k.1.1.2)) ks
  end.

Lemma kmap_ranges : ranges_ok 0 (kmap data_).
Proof.
  unfold kmap, KERNLINK, EXTMEM, DEVSPACE, PTE_W, PHYSTOP, KERNBASE in *. cbn [ranges_ok fst snd range_ok].
  assert (V2P data_ = data_ - 0x80000000) as -> by (unfold V2P, KERNBASE; rewrite u32_id; lia).
  change (V2P (0x80000000 + 0x100000)) with 0x100000. unfold PGSIZE in *.
  assert ((data_ - 0x80000000) mod 4096 = 0) as Hm by (rewrite Zminus_mod, Hdal; done).
  assert ((data_ - 0x80000000 - 0x100000) mod 4096 = 0) as Hm2 by (rewrite Zminus_mod, Hm; done).
  assert ((0xE000000 - (data_ - 0x80000000)) mod 4096 = 0) as Hm3 by (rewrite Zminus_mod, Hm; done).
  rewrite !(u32_id (data_ - 0x80000000 - 0x100000)), !(u32_id (0xE000000 - (data_ - 0x80000000))) by lia.
  change (u32 (0x100000 - 0)) with 0x100000. change (u32 (0 - 0xFE000000)) with 0x2000000. unfold KERNBASE.
  split_and!; try done; lia.
Qed.

Lemma setupkvm_loop_run ks : forall s d pt um ps lo h,
  space_ok s d pt um ps -> kernel_only pt -> LKmem ∉ h -> ranges_ok lo ks -> (forall va, lo <= va -> KERNBASE <= va -> um !! va = None) ->
  exists r s' ps', setupkvm_loop end_ ks d h s = Ret r h s' /\ use_lock s' = use_lock s /\
    (forall x, (forall p, pages d pt um ps [] p -> ~ in_page p x) -> phys s' x = phys s x) /\
    ((r = 0 /\ kmem_ok end_ s' ps' /\ (length ps + size pt <= 512)%nat /\ forall p, p ∈ ps' <-> pages d pt um ps [] p) \/
     (r = d /\ exists pt' um', (length ps + size pt = length ps' + size pt')%nat /\ space_ok s' d pt' um' ps' /\ kernel_only pt' /\ (forall p, pages d pt' um' ps' [] p <-> pages d pt um ps [] p) /\
        um ⊆ um' /\ (forall va, va < KERNBASE -> um' !! va = um !! va) /\
        Forall (fun k => let '(virt, phys_start, phys_end, perm) := k in
          mapped um' virt phys_start perm (Z.to_nat (u32 (phys_end - phys_start) / PGSIZE))) ks)).
Proof.
  induction ks as [|[[[virt st] en] perm] ks IH]; intros s d pt um ps lo h Hs Hko Hh Hr Hun; cbn [setupkvm_loop].
  { exists d, s, ps. split_and!; try done. right. split; [done|]. exists pt, um. split_and!; try done. }
  destruct Hr as [(Hk & Hlo & Hal & Htop & Hpos & Hsal & Hpal & Hp0 & Hptop & Hperm) Hr]. cbn [fst snd] in Hr.
  set (size := u32 (en - st)) in *.
  destruct (mappages_kernel s d pt um ps virt size st perm h) as (r & s1 & pt1 & um1 & ps1 & Hr1 & Hs1 & Hev1 & Hsub1 & Hout1 & Hsize1 & Hdom1 & Hres); try done.
  { intros va Hva. apply Hun; lia. }
  assert (kernel_only pt1) as Hko1 by (intros i t [?%Hko|?]%Hdom1; done).
  rewrite bind_unfold, Hr1. destruct Hres as [[-> Hm]|[-> ->]].
  - change (0 <? 0) with false. cbv iota.
    destruct (IH s1 d pt1 um1 ps1 (virt + size) h) as (r & s' & ps' & Hr' & Hu' & Hmem & Hcase); try done.
    { intros va Hva Hkv. rewrite Hout1 by lia. apply Hun; lia. }
    assert (forall p, pages d pt1 um1 ps1 [] p <-> pages d pt um ps [] p) as Hp by apply Hev1.
    exists r, s', ps'. split_and!; [done|rewrite Hu'; apply Hev1| |].
    + intros x Hx. rewrite Hmem; [by apply (ev_out _ _ _ _ _ Hev1)|]. intros p. rewrite Hp. apply Hx.
    + destruct Hcase as [(-> & Hkm & Hcnt & Hps)|(-> & pt' & um' & Hcnt & Hs' & Hko' & Hps & Hsub & Hlow & Hall)].
      * left. split_and!; [done|done|lia|]. intros p. by rewrite Hps.
      * right. split; [done|]. exists pt', um'. split_and!; [lia|done|done| |by etrans| |].
        -- intros p. by rewrite Hps.
        -- intros va Hva. rewrite Hlow by done. apply Hout1. lia.
        -- constructor; [|done]. intros i Hi. eapply lookup_weaken; [by apply Hm|done].
  - change (-1 <? 0) with true. cbv iota.
    destruct (freevm_run s1 d pt1 um1 [] h Hs1 Hh) as (s2 & ps2 & Hr2 & Hk2 & Hu2 & Hps2 & Hout2).
    assert (forall p, pages d pt1 um1 [] [] p <-> pages d pt um ps [] p) as Hp by apply Hev1.
    exists 0, s2, ps2. rewrite bind_unfold, Hr2. split_and!; [done|rewrite Hu2; apply Hev1| |].
    + intros x Hx. rewrite Hout2; [by apply (ev_out _ _ _ _ _ Hev1)|]. intros p. rewrite Hp. apply Hx.
    + left. pose proof (kernel_count _ _ _ _ _ Hs1 Hko1). cbn [length] in *. split_and!; [done|done|lia|]. intros p. by rewrite Hps2.
Qed.

(** An empty directory. *)
Lemma empty_space s p ps :
  kmem_ok end_ s ps -> page_ok p -> p ∉ ps -> (forall x, in_page p x -> phys s x = 0) -> space_ok s p ∅ ∅ ps.
Proof.
  intros Hk Hp Hnin Hz.
  assert (forall q a, holds p ∅ ∅ ps q a -> (q = p /\ a = Dir) \/ (q ∈ ps /\ a = Free)) as Hh.
  { intros q a [|i t Hi|va w Hl _|q' Hq]; [by left|done|done|by right]. }
  split; try done.
  - split; [|done]. intros i Hi. rewrite lookup_empty. transitivity (load32 (fun _ => 0) (p + 4 * i)); [|done].
    by apply load_word_ext.
  - intros q a [[-> _]|[Hq _]]%Hh; [done|]. destruct Hk as [_ Hl _]. by eapply threaded_pages.
  - intros q a b [[-> ->]|[Hq ->]]%Hh [[E ->]|[Hq' ->]]%Hh; try done. by subst q.
Qed.

(** [setupkvm] makes an address space with the kernel's mappings and no user
    page, or leaves the free pages as they were. *)
Lemma setupkvm_run s ps h :
  kmem_ok end_ s ps -> LKmem ∉ h ->
  exists r s' ps', setupkvm end_ data_ h s = Ret r h s' /\ use_lock s' = use_lock s /\
    (forall x, (forall p, p ∈ ps -> ~ in_page p x) -> phys s' x = phys s x) /\
    ((r = 0 /\ kmem_ok end_ s' ps' /\ (length ps <= 513)%nat /\ forall p, p ∈ ps' <-> p ∈ ps) \/
     (r <> 0 /\ exists pt um, (length ps = S (length ps' + size pt))%nat /\ space_ok s' r pt um ps' /\ kernel_only pt /\ (forall p, pages r pt um ps' [] p <-> p ∈ ps) /\
        (forall va, va < KERNBASE -> um !! va = None) /\ kernel_mapped um)).
Proof.
  intros Hk Hh. destruct (kalloc_run end_ h s ps Hk Hh) as (s1 & Hr1 & Hk1 & Hu1 & Hp1). unfold setupkvm. rewrite bind_unfold, Hr1.
  destruct ps as [|p ps]; cbn [hd tail] in *.
  { change (0 =? 0) with true. exists 0, s1, []. split_and!; try done; [by intros; rewrite Hp1|]. left. split_and!; [done|done|cbn; lia|done]. }
  assert (page_ok p) as Hp by (destruct Hk as [_ (_ & ? & _) _]; done). pose proof (page_bounds end_ p Hp) as [Hb _].
  assert (p ∉ ps) as Hnin by (destruct Hk as [_ _ Hn]; by apply NoDup_cons in Hn as [? _]).
  rewrite (proj2 (Z.eqb_neq _ _)) by lia. unfold zero_page. rewrite bind_unfold, modify_run.
  change (DEVSPACE <? P2V PHYSTOP) with false. cbv iota. set (s2 := set_phys _ s1).
  assert (forall x, phys s2 x = if decide (in_page p x) then 0 else phys s x) as Hmem.
  { intros x. unfold s2. cbn [phys set_phys]. rewrite memset_spec by (unfold PGSIZE; lia). by rewrite Hp1. }
  assert (kmem_ok end_ s2 ps) as Hk2.
  { apply kmem_frame; [done|apply memset_ok; [unfold PGSIZE; lia|apply Hk1]|]. intros q x Hq Hx.
    rewrite memset_spec by (unfold PGSIZE; lia). rewrite decide_False; [done|]. apply (apart end_ q p x); [|done|congruence|done].
    destruct Hk1 as [_ Hl _]. by eapply threaded_pages. }
  assert (space_ok s2 p ∅ ∅ ps) as Hs2.
  { apply empty_space; try done. intros x Hx. rewrite Hmem. by rewrite decide_True. }
  assert (forall q, pages p ∅ ∅ ps [] q <-> q ∈ p :: ps) as Hpg.
  { intros q. unfold pages. rewrite elem_of_cons. split.
    - intros [[a [|i t Hi|va w Hl _|q' Hq]]|?%not_elem_of_nil]; [by left|done|done|by right|done].
    - intros [->|Hq]; left; [exists Dir; constructor|exists Free; by constructor]. }
  destruct (setupkvm_loop_run (kmap data_) s2 p ∅ ∅ ps 0 h Hs2 ltac:(done) Hh kmap_ranges) as (r & s' & ps' & Hr & Hu & Hout & Hcase); [done|].
  exists r, s', ps'. split_and!; [done|by rewrite Hu| |].
  - intros x Hx. rewrite Hout by (intros q Hq; apply Hx, Hpg, Hq). rewrite Hmem, decide_False; [done|]. apply Hx. by left.
  - rewrite map_size_empty in Hcase. destruct Hcase as [(-> & Hkm & Hcnt & Hps)|(-> & pt & um & Hcnt & Hs' & Hko' & Hps & _ & Hlow & Hall)].
    + left. split_and!; [done|done|cbn; lia|]. intros q. by rewrite Hps, Hpg.
    + right. split; [lia|]. exists pt, um. split_and!; [cbn; lia|done|done| |by intros va Hva; rewrite Hlow|done]. intros q. by rewrite Hps, Hpg.
Qed.
End kern.
