(* ===== verification/Vmcopy.v ===== *)
(** * Properties of address spaces

    Growing, copying and writing user memory (src/vm.c). *)

From Stdlib Require Import ZArith Lia String.
From stdpp Require Import prelude numbers strings option gmap list.
From S2P Require Import Prelude Kernel Mem Kalloc Vm Vmspace Vmops Vmkern.

Section copy.
Context (end_ : Z) (Hend : KERNBASE < end_).
Local Abbreviation space_ok := (space_ok end_).
Local Abbreviation page_ok := (page_ok end_).
Local Abbreviation fresh := (fresh end_).

(** ** Two address spaces side by side *)

(** The pages of an address space that are not free. *)
Definition own (d : Z) (pt um : gmap Z Z) (p : Z) : Prop := exists a, holds d pt um [] p a.

Lemma holds_split d pt um ps p a : holds d pt um ps p a <-> (holds d pt um [] p a \/ (p ∈ ps /\ a = Free)).
Proof.
  split.
  - intros [|i t Hi|va w Hl Hv|q Hq]; [left; constructor|left; by constructor|left; by econstructor|by right].
  - intros [[|i t Hi|va w Hl Hv|q Hq]|[Hp ->]]; try by constructor. by apply not_elem_of_nil in Hq.
Qed.

(** What happens in the pages [P] does not concern an address space outside
    them. *)
Lemma space_beside s s' d pt um ps ps' (P : Z -> Prop) :
  space_ok s d pt um ps -> kmem_ok end_ s' ps' -> (forall x, (forall p, P p -> ~ in_page p x) -> phys s' x = phys s x) ->
  (forall p, own d pt um p -> ~ P p) -> (forall p, P p -> page_ok p) -> (forall p, p ∈ ps' -> P p) ->
  space_ok s' d pt um ps' /\ (forall p x, own d pt um p -> in_page p x -> phys s' x = phys s x).
Proof.
  intros Hs Hk Hout Hdis HP Hps'. pose proof Hs as [H1 H2 H3 H4 H5 H6].
  assert (forall p x, own d pt um p -> in_page p x -> phys s' x = phys s x) as Hsame.
  { intros p x Ho Hx. apply Hout. intros q Hq. apply (apart end_ p q x); [|by apply HP| |done].
    - destruct Ho as [a Ha]. eapply H5, holds_split. by left.
    - intros ->. by apply (Hdis q). }
  split; [|done]. split; try done.
  - eapply tables_frame; [done| |].
    + intros x. apply Hsame. exists Dir. constructor.
    + intros i t x Hi. apply Hsame. exists (Table i). by constructor.
  - intros p a [Ha|[Hp _]]%holds_split; [eapply H5, holds_split; by left|by apply HP, Hps'].
  - intros p a b [Ha|[Hp ->]]%holds_split [Hb|[Hp' ->]]%holds_split; [|by destruct (Hdis p); [by exists a|apply Hps']|by destruct (Hdis p); [by exists b|apply Hps']|done].
    eapply H6; apply holds_split; left; done.
Qed.

Lemma pages_own d pt um ps hs p : pages d pt um ps hs p <-> own d pt um p \/ p ∈ ps \/ p ∈ hs.
Proof.
  unfold pages, own. split.
  - intros [[a [Ha|[Hp _]]%holds_split]|Hp]; [left; by exists a|by right; left|by right; right].
  - intros [[a Ha]|[Hp|Hp]]; [left; exists a; apply holds_split; by left|left; exists Free; by constructor|by right].
Qed.

Lemma pages_ok s d pt um ps hs p : space_ok s d pt um ps -> (forall q, q ∈ hs -> page_ok q) -> pages d pt um ps hs p -> page_ok p.
Proof. intros Hs Hhs [[a Ha]|Hp]; [by eapply so_page|by apply Hhs]. Qed.

(** ** copyuvm *)

(** The pages of [um] below [i] are in [um2], with the same flags and the same
    contents. *)
Definition copied (s : kmstate) (um um2 : gmap Z Z) (i : Z) : Prop :=
  forall va, va < KERNBASE -> um2 !! va = None /\ (i <= va \/ um !! va = None) \/
    exists w w2, va < i /\ um !! va = Some w /\ um2 !! va = Some w2 /\ PTE_FLAGS w2 = PTE_FLAGS w /\
      forall o, 0 <= o < PGSIZE -> phys s (upage w2 + o) = phys s (upage w + o).

Lemma flags_present w : 0 <= w < 2 ^ 32 -> Z.odd w = true -> Z.lor (PTE_FLAGS w) PTE_P = PTE_FLAGS w.
Proof.
  intros Hw Ho. unfold PTE_FLAGS, PTE_P. rewrite u32_id by lia. apply Z.bits_inj'. intros n Hn.
  rewrite Z.lor_spec. destruct (decide (n = 0)) as [->|].
  - rewrite Z.land_spec, !Z.bit0_odd, Ho. done.
  - assert (Z.testbit 1 n = false) as ->; [|apply orb_false_r].
    destruct n as [|n|n]; [done| |lia]. by destruct n.
Qed.

(** Parent and child: two address spaces with the free pages [ps], and nothing
    shared. *)
Record family (s : kmstate) (d : Z) (pt um : gmap Z Z) (d2 : Z) (pt2 um2 : gmap Z Z) (ps : list Z) : Prop := {
  fa_parent : space_ok s d pt um ps;
  fa_child : space_ok s d2 pt2 um2 ps;
  fa_apart : forall p, own d pt um p -> ~ own d2 pt2 um2 p }.

Lemma family_disjoint s d pt um d2 pt2 um2 ps hs p :
  family s d pt um d2 pt2 um2 ps -> (forall q, q ∈ hs -> fresh d pt um ps q) -> own d pt um p -> ~ pages d2 pt2 um2 ps hs p.
Proof.
  intros [H1 H2 H3] Hhs Ho. rewrite pages_own. destruct Ho as [a Ha]. intros [Hc|[Hp|Hp]].
  - by eapply (H3 p); [exists a|].
  - assert (a = Free) as ->; [eapply so_excl; [exact H1|apply holds_split; by left|by constructor]|].
    inversion Ha as [| | |q Hq]; subst. by apply not_elem_of_nil in Hq.
  - destruct (Hhs p Hp) as [_ Hn]. apply (Hn a), holds_split. by left.
Qed.

(** A step of the child. *)
Lemma family_step s s' d pt um d2 pt2 um2 ps pt2' um2' ps' hs hs' keep :
  family s d pt um d2 pt2 um2 ps -> (forall q, q ∈ hs -> fresh d pt um ps q) ->
  space_ok s' d2 pt2' um2' ps' -> evolves keep s s' (pages d2 pt2 um2 ps hs) (pages d2 pt2' um2' ps' hs') ->
  family s' d pt um d2 pt2' um2' ps' /\ (forall p x, own d pt um p -> in_page p x -> phys s' x = phys s x).
Proof.
  intros Hf Hhs Hs' Hev. pose proof Hf as [H1 H2 H3].
  assert (forall p, own d pt um p -> ~ pages d2 pt2 um2 ps hs p) as Hdis by (intros p; by eapply family_disjoint).
  assert (forall p, p ∈ ps' -> pages d2 pt2 um2 ps hs p) as Hps.
  { intros p Hp. apply (ev_pages _ _ _ _ _ Hev). rewrite pages_own. auto. }
  destruct (space_beside s s' d pt um ps ps' (pages d2 pt2 um2 ps hs) H1) as [Hp Hsame]; try done.
  - apply Hs'.
  - apply Hev.
  - intros p Hp. eapply pages_ok; [exact H2| |exact Hp]. intros q Hq. by apply Hhs.
  - split; [|done]. split; [done|done|]. intros p Ho Ho'. apply (Hdis p Ho). apply (ev_pages _ _ _ _ _ Hev). rewrite pages_own. auto.
Qed.

(** [kalloc] takes a page from both. *)
Lemma family_kalloc s d pt um d2 pt2 um2 p ps h :
  family s d pt um d2 pt2 um2 (p :: ps) -> LKmem ∉ h ->
  exists s1, kalloc h s = Ret p h s1 /\ p <> 0 /\ family s1 d pt um d2 pt2 um2 ps /\ phys s1 = phys s /\ use_lock s1 = use_lock s /\
    fresh d pt um ps p /\ fresh d2 pt2 um2 ps p.
Proof.
  intros [H1 H2 H3] Hh.
  destruct (kalloc_space end_ s d pt um (p :: ps) h H1 Hh) as (s1 & Hr & Hs1 & Hp & Hu & Hne & Hf).
  destruct (kalloc_space end_ s d2 pt2 um2 (p :: ps) h H2 Hh) as (s1' & Hr' & Hs1' & _ & _ & _ & Hf').
  rewrite Hr in Hr'. injection Hr' as <-. exists s1. by split_and!.
Qed.

(** One page of the copy: allocated, filled, ready to be mapped. *)
Lemma copy_page s d pt um d2 pt2 um2 p ps w va h :
  family s d pt um d2 pt2 um2 (p :: ps) -> LKmem ∉ h -> um !! va = Some w -> va < KERNBASE ->
  exists s1, kalloc h s = Ret p h s1 /\ p <> 0 /\
    let s2 := set_phys (memmove (phys s1) p (P2V (PTE_ADDR w)) PGSIZE) s1 in
    family s2 d pt um d2 pt2 um2 ps /\ fresh d pt um ps p /\ fresh d2 pt2 um2 ps p /\
    evolves um2 s s2 (pages d2 pt2 um2 (p :: ps) []) (pages d2 pt2 um2 ps [p]) /\
    (forall q x, own d pt um q -> in_page q x -> phys s2 x = phys s x) /\
    (forall o, 0 <= o < PGSIZE -> phys s2 (p + o) = phys s (upage w + o)).
Proof.
  intros Hf Hh Hl Hva. destruct (family_kalloc s d pt um d2 pt2 um2 p ps h Hf Hh) as (s1 & Hr & Hne & Hf1 & Hp1 & Hu1 & Hfp & Hfc).
  exists s1. split; [done|]. split; [done|]. intros s2. fold (upage w) in s2.
  assert (mem_ok (phys s1)) as Hm by apply (fa_child _ _ _ _ _ _ _ _ Hf1).
  assert (forall x, phys s2 x = if decide (in_page p x) then phys s (upage w + (x - p)) else phys s x) as Hmem.
  { intros x. unfold s2. cbn [phys set_phys]. rewrite memmove_at by (done || unfold PGSIZE; lia). by rewrite Hp1. }
  assert (forall x, ~ in_page p x -> phys s2 x = phys s1 x) as Hout by (intros x Hx; rewrite Hmem, decide_False by done; by rewrite Hp1).
  assert (space_ok s2 d2 pt2 um2 ps) as Hc2.
  { apply (space_hand end_ s1 d2 pt2 um2 ps p); try done; [apply Hf1|apply memmove_ok; [done|unfold PGSIZE; lia]]. }
  assert (evolves um2 s1 s2 (pages d2 pt2 um2 ps [p]) (pages d2 pt2 um2 ps [p])) as Hev.
  { apply (hand_evolves end_ um2 s1 d2 pt2 um2 ps [p] p); try done; [apply Hf1|by left]. }
  destruct (family_step s1 s2 d pt um d2 pt2 um2 ps pt2 um2 ps [p] [p] um2) as [Hf2 Hsame]; try done.
  { by intros q ->%list_elem_of_singleton. }
  split_and!; [exact Hf2|exact Hfp|exact Hfc| | |].
  - eapply evolves_trans; [|exact Hev]. eapply evolves_iff; [by apply (evolves_same um2 s s1 (pages d2 pt2 um2 (p :: ps) []))|done|].
    intros q. apply pages_take.
  - intros q x Hq Hx. rewrite <- Hp1. by apply (Hsame q).
  - intros o Ho. rewrite Hmem, decide_True by (unfold in_page; lia). f_equal. lia.
Qed.

Lemma copied_step s s' um um2 i w w2 :
  copied s um um2 i -> i mod PGSIZE = 0 -> um !! i = Some w -> um2 !! i = None -> i < KERNBASE ->
  (forall va v, um !! va = Some v -> va mod PGSIZE = 0) -> PTE_FLAGS w2 = PTE_FLAGS w ->
  (forall o, 0 <= o < PGSIZE -> phys s' (upage w2 + o) = phys s' (upage w + o)) ->
  (forall va v o, um !! va = Some v -> va < KERNBASE -> 0 <= o < PGSIZE -> phys s' (upage v + o) = phys s (upage v + o)) ->
  (forall va v o, um2 !! va = Some v -> va < KERNBASE -> 0 <= o < PGSIZE -> phys s' (upage v + o) = phys s (upage v + o)) ->
  copied s' um (<[i := w2]> um2) (i + PGSIZE).
Proof.
  intros Hc Hal Hl Hl2 Hk Hum Hfl Heq Hs1 Hs2 va Hva. destruct (decide (va = i)) as [->|Hne].
  { right. exists w, w2. rewrite lookup_insert_eq. split_and!; try done. unfold PGSIZE. lia. }
  rewrite lookup_insert_ne by done. destruct (Hc va Hva) as [[Hn [Hi|Hn']]|(v & v2 & Hi & Hv & Hv2 & Hf & Ho)].
  - left. split; [done|]. destruct (um !! va) as [v|] eqn:E; [left|by right].
    apply (aligned_next i va); [done|by eapply Hum|done|done].
  - left. auto.
  - right. exists v, v2. split_and!; try done; [unfold PGSIZE; lia|]. intros o Hoo.
    rewrite (Hs1 va v), (Hs2 va v2) by done. by apply Ho.
Qed.

Lemma user_own d pt um va w : um !! va = Some w -> va < KERNBASE -> own d pt um (upage w).
Proof. intros Hl Hv. exists (User va). by econstructor. Qed.

Lemma in_page_off p o : 0 <= o < PGSIZE -> in_page p (p + o).
Proof. unfold in_page. lia. Qed.

(** Giving up: the child is freed, the parent is not touched. *)
Lemma copy_fail s s4 d pt um d2 pt2 um2 pt3 ps ps4 h :
  family s d pt um d2 pt2 um2 ps -> LKmem ∉ h -> space_ok s4 d2 pt3 um2 ps4 ->
  evolves um2 s s4 (pages d2 pt2 um2 ps []) (pages d2 pt3 um2 ps4 []) ->
  exists s' ps', freevm end_ d2 h s4 = Ret tt h s' /\ use_lock s' = use_lock s /\ space_ok s' d pt um ps' /\
    (forall p x, own d pt um p -> in_page p x -> phys s' x = phys s x) /\
    (forall x, (forall p, pages d2 pt2 um2 ps [] p -> ~ in_page p x) -> phys s' x = phys s x) /\
    (forall p, p ∈ ps' <-> pages d2 pt2 um2 ps [] p).
Proof.
  intros Hf Hh Hs4 Hev. destruct (freevm_run end_ Hend s4 d2 pt3 um2 ps4 h Hs4 Hh) as (s' & ps' & Hr & Hkm & Hu & Hps & Hout).
  assert (forall x, (forall q, pages d2 pt2 um2 ps [] q -> ~ in_page q x) -> phys s' x = phys s x) as Hmem.
  { intros x Hx. rewrite Hout; [by apply (ev_out _ _ _ _ _ Hev)|]. intros q Hq. by apply Hx, (ev_pages _ _ _ _ _ Hev). }
  assert (forall q, q ∈ ps' <-> pages d2 pt2 um2 ps [] q) as Hps' by (intros q; rewrite Hps; apply (ev_pages _ _ _ _ _ Hev)).
  destruct (space_beside s s' d pt um ps ps' (pages d2 pt2 um2 ps [])) as [Hsp Hsame]; try done.
  { apply Hf. } { intros q. eapply family_disjoint; [done|by intros ? ?%not_elem_of_nil]. }
  { intros q. eapply pages_ok; [apply Hf|by intros ? ?%not_elem_of_nil]. } { intros q Hq. by apply Hps'. }
  exists s', ps'. split_and!; try done. rewrite Hu. apply Hev.
Qed.

Lemma copy_loop fuel : forall s d pt um d2 pt2 um2 ps i sz h,
  family s d pt um d2 pt2 um2 ps -> LKmem ∉ h -> copied s um um2 i -> i mod PGSIZE = 0 -> 0 <= i < sz + PGSIZE -> sz <= KERNBASE ->
  (forall va, 0 <= va < sz -> va mod PGSIZE = 0 -> is_Some (um !! va)) -> sz - i <= PGSIZE * Z.of_nat fuel -> d2 <> 0 ->
  exists r s' ps', copyuvm_loop end_ fuel d d2 i sz h s = Ret r h s' /\ use_lock s' = use_lock s /\ space_ok s' d pt um ps' /\
    (forall p x, own d pt um p -> in_page p x -> phys s' x = phys s x) /\
    (forall x, (forall p, pages d2 pt2 um2 ps [] p -> ~ in_page p x) -> phys s' x = phys s x) /\
    ((r = 0 /\ Z.of_nat (length ps + size pt2) <= 1024 + page_count i sz /\ forall p, p ∈ ps' <-> pages d2 pt2 um2 ps [] p) \/
     (r = d2 /\ exists pt2' um2' top, sz <= top < sz + PGSIZE /\ family s' d pt um d2 pt2' um2' ps' /\ copied s' um um2' top /\
        um2 ⊆ um2' /\ forall p, pages d2 pt2' um2' ps' [] p <-> pages d2 pt2 um2 ps [] p)).
Proof.
  induction fuel as [|fuel IH]; intros s d pt um d2 pt2 um2 ps i sz h Hf Hh Hc Hal Hi Hsz Hall Hfuel Hd2.
  all: cbn [copyuvm_loop]; destruct (Z.ltb_spec i sz) as [Hlt|Hge]; cbn [negb]; try lia.
  1, 3: exists d2, s, ps; split_and!; try done; [apply Hf|]; right; split; [done|]; exists pt2, um2, i; split_and!; done || lia.
  destruct (Hall i ltac:(lia) Hal) as [w Hw]. pose proof Hf as [Hp Hch Hap].
  pose proof (page_count_pos i sz Hlt) as Hcp. pose proof (table_count _ _ _ _ _ _ Hch) as Htc.
  destruct (so_um _ _ _ _ _ _ Hp _ _ Hw) as (_ & Hir & [t Ht] & Hodd & Hwr).
  destruct (walk_found end_ s d pt um ps i t false h Hp Ht) as [Hr1 Hne1]. rewrite bind_unfold, Hr1, (proj2 (Z.eqb_neq _ _)) by done.
  rewrite bind_unfold, (read_entry end_ s d pt um ps) by done. rewrite Hw. cbn [from_option id]. rewrite present_odd, Hodd. cbn [negb].
  assert (um2 !! i = None) as Hi2 by (destruct (Hc i ltac:(lia)) as [[? _]|(? & ? & ? & _)]; [done|lia]).
  destruct ps as [|p ps].
  { destruct (kalloc_space end_ s d2 pt2 um2 [] h Hch Hh) as (s1 & Hk & Hs1 & Hp1 & Hu1 & _). rewrite bind_unfold, Hk.
    change (hd 0 [] =? 0) with true. cbv iota.
    destruct (copy_fail s s1 d pt um d2 pt2 um2 pt2 [] [] h Hf Hh Hs1) as (s' & ps' & Hr & Hrest); [by apply evolves_same|].
    exists 0, s', ps'. rewrite bind_unfold, Hr. split_and!; try apply Hrest; [done|]. left. split_and!; [done|cbn; lia|apply Hrest]. }
  destruct (copy_page s d pt um d2 pt2 um2 p ps w i h Hf Hh Hw ltac:(lia)) as (s1 & Hk & Hne & Hcopy). cbv zeta in Hcopy.
  rewrite bind_unfold, Hk, (proj2 (Z.eqb_neq _ _)) by done. rewrite bind_unfold, modify_run. set (s2 := set_phys _ s1) in *.
  destruct Hcopy as (Hf2 & Hfp & Hfc & Hev2 & Hsame2 & Hcont).
  assert (forall q, q ∈ [p] -> fresh d pt um ps q) as Hhsp by (by intros q ->%list_elem_of_singleton).
  assert (forall q, q ∈ [p] -> fresh d2 pt2 um2 ps q) as Hhs by (by intros q ->%list_elem_of_singleton).
  destruct (map_user_page end_ s2 d2 pt2 um2 ps [] i p (PTE_FLAGS w) h) as (r & s3 & pt3 & um3 & ps3 & Hr3 & Hs3 & _ & Hc3 & [_ Hcnt] & Hcase); try done.
  { apply Hf2. } { apply not_elem_of_nil. } { lia. } { rewrite PTE_FLAGS_mod by done. apply Z.mod_pos_bound. unfold PGSIZE. lia. }
  rewrite bind_unfold, Hr3. destruct Hcase as [(-> & -> & Hup & Hfl & Hev3 & _)|(-> & -> & -> & -> & Hev3 & Hfr3)].
  - change (0 <? 0) with false. cbv iota. rewrite u32_id by (unfold KERNBASE, PGSIZE in *; lia).
    destruct (family_step s2 s3 d pt um d2 pt2 um2 ps pt3 _ ps3 [p] [] um2 Hf2 Hhsp Hs3 Hev3) as [Hf3 Hsame3].
    set (w2 := V2P p + _) in *. rewrite flags_present in Hfl by done.
    assert (evolves um2 s s3 (pages d2 pt2 um2 (p :: ps) []) (pages d2 pt3 (<[i := w2]> um2) ps3 [])) as Hev by (by eapply evolves_trans).
    assert (forall q x, own d pt um q -> in_page q x -> phys s3 x = phys s x) as Hsame
      by (intros q x Hq Hx; rewrite (Hsame3 q) by done; by apply (Hsame2 q)).
    destruct (IH s3 d pt um d2 pt3 (<[i := w2]> um2) ps3 (i + PGSIZE) sz h) as (r & s' & ps' & Hr & Hu & Hsp & Hown & Hout & Hres);
      try done; try (unfold PGSIZE in *; lia).
    { apply (copied_step s s3 um um2 i w w2); try done; [lia|intros va v Hv; by destruct (so_um _ _ _ _ _ _ Hp _ _ Hv)| | |].
      - rewrite Hup. intros o Ho. rewrite (Hc3 p) by (by left || apply in_page_off). rewrite Hcont by done. symmetry.
        apply (Hsame (upage w)); [apply (user_own d pt um i w Hw); lia|by apply in_page_off].
      - intros va v o Hv Hvk Ho. apply (Hsame (upage v)); [by eapply user_own|by apply in_page_off].
      - intros va v o Hv Hvk Ho. apply (ev_keep _ _ _ _ _ Hev va v); [done..|by apply in_page_off]. }
    { by apply add_page_mod. }
    exists r, s', ps'. split_and!; try done; [rewrite Hu; apply Hev| | |].
    + intros q x Hq Hx. rewrite (Hown q) by done. by apply (Hsame q).
    + intros x Hx. rewrite Hout; [by apply (ev_out _ _ _ _ _ Hev)|]. intros q Hq. by apply Hx, (ev_pages _ _ _ _ _ Hev).
    + destruct Hres as [(-> & Hcnt' & Hps)|(-> & pt' & um' & top & Htop & Hf' & Hc' & Hsub & Hps)].
      * left. rewrite (page_count_next i). cbn [length]. split_and!; [done|lia|]. intros q. rewrite Hps. apply (ev_pages _ _ _ _ _ Hev).
      * right. split; [done|]. exists pt', um', top. split_and!; try done; try lia.
        -- etrans; [|exact Hsub]. by apply insert_subseteq.
        -- intros q. rewrite Hps. apply (ev_pages _ _ _ _ _ Hev).
  - change (-1 <? 0) with true. cbv iota.
    destruct (freed_page end_ s3 d2 pt3 um2 [] p [] h Hs3 (Hfr3 p ltac:(by left)) Hh) as (s4 & Hr4 & Hs4 & Hev4).
    destruct (copy_fail s s4 d pt um d2 pt2 um2 pt3 [p] [p] h Hf Hh Hs4) as (s' & ps' & Hr & Hrest).
    { eapply evolves_trans; [exact Hev2|]. by eapply evolves_trans. }
    exists 0, s', ps'. rewrite bind_unfold, Hr4, bind_unfold, Hr. split_and!; try apply Hrest; [done|]. left. split_and!; [done|cbn; lia|apply Hrest].
Qed.

(** ** copyout *)

Context (null_word : Z).

(** The kernel address of a user address. *)
Definition user_addr (um : gmap Z Z) (va : Z) : option Z :=
  w ← um !! PGROUNDDOWN va;
  if Z.land w PTE_U =? 0 then None else Some (upage w + (va - PGROUNDDOWN va)).

Lemma uva2ka_run s d pt um ps va h :
  space_ok s d pt um ps -> 0 <= va < KERNBASE -> va mod PGSIZE = 0 -> is_Some (pt !! PDX va) ->
  uva2ka null_word d va h s = Ret (default 0 (user_addr um va)) h s.
Proof.
  intros Hs Hva Hal [t Ht]. destruct (walk_found end_ s d pt um ps va t false h Hs Ht) as [Hr Hne].
  unfold uva2ka. rewrite bind_unfold, Hr, (proj2 (Z.eqb_neq _ _)) by done.
  rewrite bind_unfold, (read_entry end_ s d pt um ps) by (done || unfold KERNBASE in *; lia).
  assert (PGROUNDDOWN va = va) as Hpg.
  { destruct (PGROUNDDOWN_spec va) as [Hm Hb]. unfold PGSIZE in *.
    pose proof (Z.div_mod va 4096 ltac:(lia)). pose proof (Z.div_mod (PGROUNDDOWN va) 4096 ltac:(lia)). lia. }
  unfold user_addr. rewrite Hpg. destruct (um !! va) as [w|] eqn:Hl; cbn [from_option id mbind option_bind]; [|done].
  destruct (so_um _ _ _ _ _ _ Hs _ _ Hl) as (_ & _ & _ & Hodd & _).
  pose proof (present_odd w) as Hp. unfold present in Hp. rewrite Hodd in Hp. apply negb_true_iff in Hp. rewrite Hp.
  destruct (Z.land w PTE_U =? 0); [done|]. rewrite Z.sub_diag, Z.add_0_r. done.
Qed.

Lemma user_addr_page um va a : user_addr um va = Some a ->
  exists w, um !! PGROUNDDOWN va = Some w /\ Z.land w PTE_U <> 0 /\ a = upage w + (va - PGROUNDDOWN va).
Proof.
  unfold user_addr. destruct (um !! PGROUNDDOWN va) as [w|]; cbn; [|done]. destruct (Z.eqb_spec (Z.land w PTE_U) 0); [done|].
  intros [= <-]. eauto.
Qed.

Lemma same_page va va' : PGROUNDDOWN va <= va' < PGROUNDDOWN va + PGSIZE -> PGROUNDDOWN va' = PGROUNDDOWN va.
Proof.
  destruct (PGROUNDDOWN_spec va) as [Hm Hb]. destruct (PGROUNDDOWN_spec va') as [Hm' Hb']. unfold PGSIZE in *. intros H.
  pose proof (Z.div_mod (PGROUNDDOWN va) 4096 ltac:(lia)). pose proof (Z.div_mod (PGROUNDDOWN va') 4096 ltac:(lia)). lia.
Qed.

(** Different user addresses are at different places. *)
Lemma user_addr_inj s d pt um ps va va' a :
  space_ok s d pt um ps -> va < KERNBASE -> va' < KERNBASE -> user_addr um va = Some a -> user_addr um va' = Some a -> va = va'.
Proof.
  intros Hs Hva Hva' Ha Ha'. apply user_addr_page in Ha as (w & Hw & _ & ->). apply user_addr_page in Ha' as (w' & Hw' & _ & E).
  destruct (PGROUNDDOWN_spec va) as [Hm Hb]. destruct (PGROUNDDOWN_spec va') as [Hm' Hb'].
  assert (holds d pt um ps (upage w) (User (PGROUNDDOWN va))) as H1 by (econstructor; [done|lia]).
  assert (holds d pt um ps (upage w') (User (PGROUNDDOWN va'))) as H2 by (econstructor; [done|lia]).
  destruct (decide (upage w = upage w')) as [Heq|Hne].
  - rewrite Heq in H1. assert (User (PGROUNDDOWN va) = User (PGROUNDDOWN va')) as [= Hpg] by (by eapply so_excl).
    lia.
  - destruct (apart end_ (upage w) (upage w') (upage w + (va - PGROUNDDOWN va))); try done;
      [by eapply so_page|by eapply so_page|unfold in_page; lia|unfold in_page; lia].
Qed.

(** [len] bytes from [src] are at the user addresses from [va] on; the rest of
    memory is as in [m]. *)
Definition written (m m' : mem) (um : gmap Z Z) (va src len : Z) : Prop :=
  (forall k a, 0 <= k < len -> user_addr um (va + k) = Some a -> m' a = m (src + k)) /\
  (forall x, (forall k, 0 <= k < len -> user_addr um (va + k) <> Some x) -> m' x = m x).

(** A source outside the user's pages. *)
Definition apart_from (um : gmap Z Z) (src len : Z) : Prop :=
  forall va a k, va < KERNBASE -> user_addr um va = Some a -> 0 <= k < len -> a <> src + k.

Lemma copyout_loop_run fuel : forall s d pt um ps va src len h,
  space_ok s d pt um ps -> 0 <= va -> va + len <= KERNBASE -> 0 <= len -> apart_from um src len ->
  (forall k, 0 <= k < len -> is_Some (user_addr um (va + k))) ->
  (if decide (0 < len) then (va + len - 1) / PGSIZE - va / PGSIZE < Z.of_nat fuel else True) ->
  exists s', copyout_loop null_word fuel d va src len h s = Ret 0 h s' /\ space_ok s' d pt um ps /\ use_lock s' = use_lock s /\
    written (phys s) (phys s') um va src len.
Proof.
  induction fuel as [|fuel IH]; intros s d pt um ps va src len h Hs Hva Htop Hlen Hsrc Hall Hfuel.
  all: cbn [copyout_loop]; destruct (Z.ltb_spec 0 len) as [Hpos|Hz]; cbn [negb];
    [rewrite decide_True in Hfuel by done|exists s; split_and!; try done; split; intros; try lia; done].
  { assert (va / PGSIZE <= (va + len - 1) / PGSIZE) by (apply Z.div_le_mono; unfold PGSIZE; lia). lia. }
  destruct (PGROUNDDOWN_spec va) as [Hm Hb]. set (va0 := PGROUNDDOWN va) in *.
  assert (0 <= va0) as Hva0.
  { unfold va0, PGROUNDDOWN. rewrite land_lnot_page. unfold PGSIZE. pose proof (Z.div_pos va 4096). lia. }
  destruct (Hall 0 ltac:(lia)) as [a Ha]. rewrite Z.add_0_r in Ha. destruct (user_addr_page um va a Ha) as (w & Hw & Hu & Ea). fold va0 in Hw, Ea.
  destruct (so_um _ _ _ _ _ _ Hs _ _ Hw) as (_ & _ & Hpt & _).
  assert (user_addr um va0 = Some (upage w)) as Hua.
  { unfold user_addr. rewrite (same_page va va0) by (fold va0; unfold PGSIZE; lia). fold va0. rewrite Hw. cbn.
    rewrite (proj2 (Z.eqb_neq _ _)) by done. f_equal. lia. }
  rewrite bind_unfold, (uva2ka_run s d pt um ps) by (done || unfold KERNBASE, PGSIZE in *; lia). rewrite Hua. cbn [from_option id].
  assert (holds d pt um ps (upage w) (User va0)) as Hh by (econstructor; [done|unfold KERNBASE in *; lia]).
  pose proof (so_page _ _ _ _ _ _ Hs _ _ Hh) as Hpp. pose proof (page_bounds end_ (upage w) Hpp) as [Hpb _].
  rewrite (proj2 (Z.eqb_neq _ _)) by lia. rewrite bind_unfold, modify_run.
  set (n := Z.min (PGSIZE - (va - va0)) len). set (s1 := set_phys _ s).
  assert (mem_ok (phys s)) as Hmok by apply Hs. assert (0 < n <= PGSIZE) as Hn by lia.
  assert (forall x, phys s1 x = if decide (a <= x < a + n) then phys s (src + (x - a)) else phys s x) as Hs1m.
  { intros x. unfold s1. cbn [phys set_phys]. rewrite <- Ea. apply memmove_at; [done|lia]. }
  assert (forall x, ~ in_page (upage w) x -> phys s1 x = phys s x) as Hout.
  { intros x Hx. rewrite Hs1m, decide_False; [done|]. unfold in_page in Hx. lia. }
  assert (space_ok s1 d pt um ps) as Hs1.
  { pose proof Hs as [K1 K2 K3 K4 K5 K6]. split; try done.
    - apply kmem_frame; [done|apply memmove_ok; [done|lia]|]. intros p x Hp Hx. apply Hout.
      apply (holds_apart end_ s d pt um ps p Free (upage w) (User va0)); first [done|by constructor].
    - eapply tables_frame; [done| |].
      + intros x Hx. apply Hout. apply (holds_apart end_ s d pt um ps d Dir (upage w) (User va0)); first [done|constructor].
      + intros i t x Hi Hx. apply Hout. apply (holds_apart end_ s d pt um ps t (Table i) (upage w) (User va0)); first [done|by constructor]. }
  assert (forall k, 0 <= k < n -> user_addr um (va + k) = Some (a + k)) as Hua_n.
  { intros k Hk. unfold user_addr. rewrite (same_page va (va + k)) by (fold va0; lia). fold va0. rewrite Hw. cbn.
    rewrite (proj2 (Z.eqb_neq _ _)) by done. f_equal. lia. }
  destruct (decide (n = len)) as [Hnl|Hnl].
  { exists s1. split_and!; try done.
    - rewrite Hnl, Z.sub_diag. by destruct fuel.
    - split.
      + intros k b Hk Hub. rewrite Hua_n in Hub by lia. injection Hub as <-. rewrite Hs1m, decide_True by lia. f_equal. lia.
      + intros x Hx. rewrite Hs1m, decide_False; [done|]. intros Hr. apply (Hx (x - a)); [lia|]. rewrite Hua_n by lia. f_equal. lia. }
  assert (va + n = va0 + PGSIZE) as Hvn by lia. rewrite u32_id by (unfold KERNBASE, PGSIZE in *; lia). rewrite <- Hvn.
  destruct (IH s1 d pt um ps (va + n) (src + n) (len - n) h) as (s' & Hr & Hs' & Hu' & Hw1 & Hw2); try done; try lia.
  - intros va' b k Hv Hb' Hk. pose proof (Hsrc va' b (k + n) Hv Hb' ltac:(lia)). lia.
  - intros k Hk. replace (va + n + k) with (va + (n + k)) by lia. apply Hall. lia.
  - rewrite decide_True by lia. replace (va + n + (len - n) - 1) with (va + len - 1) by lia.
    assert ((va + n) / PGSIZE = va / PGSIZE + 1) as ->; [|lia].
    rewrite Hvn. unfold va0, PGROUNDDOWN. rewrite land_lnot_page. unfold PGSIZE.
    replace (4096 * (va / 4096) + 4096) with ((va / 4096 + 1) * 4096) by lia. by rewrite Z.div_mul by lia.
  - exists s'. split_and!; try done. split.
    + intros k b Hk Hub. destruct (decide (k < n)).
      * rewrite Hw2.
        -- rewrite Hua_n in Hub by lia. injection Hub as <-. rewrite Hs1m, decide_True by lia. f_equal. lia.
        -- intros k' Hk' Hb'. assert (va + k = va + n + k'); [|lia].
           eapply (user_addr_inj s d pt um ps); try done; unfold KERNBASE in *; lia.
      * rewrite (Hw1 (k - n)); [|lia|by replace (va + n + (k - n)) with (va + k) by lia].
        rewrite Hs1m, decide_False; [f_equal; lia|]. intros Hr'.
        apply (Hsrc (va + (src + n + (k - n) - a)) (src + k) k); [unfold KERNBASE in *; lia| |lia|done].
        rewrite Hua_n by lia. f_equal. lia.
    + intros x Hx. rewrite Hw2.
      * rewrite Hs1m, decide_False; [done|]. intros Hr'. apply (Hx (x - a)); [lia|]. rewrite Hua_n by lia. f_equal. lia.
      * intros k Hk. replace (va + n + k) with (va + (n + k)) by lia. apply Hx. lia.
Qed.
End copy.

(** ** Properties *)

Lemma allocuvm_run end_ s d pt um ps oldsz newsz :
  KERNBASE < end_ -> space_ok end_ s d pt um ps -> 0 <= oldsz <= newsz -> newsz < KERNBASE ->
  unmapped um (PGROUNDUP oldsz) (newsz + PGSIZE) ->
  exists r s' pt' um' ps', allocuvm end_ d oldsz newsz [] s = Ret r [] s' /\ space_ok end_ s' d pt' um' ps' /\
    evolves um s s' (pages d pt um ps []) (pages d pt' um' ps' []) /\
    ((r = newsz /\ exists top, newsz <= top < newsz + PGSIZE /\ grown s' um um' (PGROUNDUP oldsz) top) \/
     (r = 0 /\ um' = um /\ Z.of_nat (length ps) < 2 * page_count (PGROUNDUP oldsz) newsz)).
Proof.
  intros Hend Hs Hsz Hk Hun. destruct (PGROUNDUP_bounds oldsz) as [Hal Hb]; [unfold KERNBASE, PGSIZE in *; lia|].
  unfold allocuvm. rewrite (proj2 (Z.leb_gt _ _)), (proj2 (Z.ltb_ge _ _)) by lia.
  apply (alloc_loop end_ Hend _ s s d pt pt um um); try done; try lia.
  - apply not_elem_of_nil.
  - unfold PGSIZE in *. pose proof (Z.div_mod newsz 4096 ltac:(lia)). pose proof (Z.mod_pos_bound newsz 4096 ltac:(lia)).
    pose proof (Z.div_pos newsz 4096). lia.
  - split; intros; (done || lia).
Qed.

(** C23: [allocuvm] grows an address space by zeroed pages, or not at all.  For
    an address space with nothing mapped above its old size, it returns the new
    size and has mapped every page up to it, readable and writable by the user,
    filled with zeros; or it returns 0 and the mappings are what they were.  It
    fails only when less than two pages are free for each page asked for.
    Either way no page is lost, and neither the user's old pages nor anything
    outside the address space and the free list changes. *)
Theorem allocuvm_grows end_ s d pt um ps oldsz newsz :
  KERNBASE < end_ -> space_ok end_ s d pt um ps -> 0 <= oldsz <= newsz -> newsz < KERNBASE ->
  unmapped um (PGROUNDUP oldsz) (newsz + PGSIZE) ->
  exists r s' pt' um' ps', allocuvm end_ d oldsz newsz [] s = Ret r [] s' /\ space_ok end_ s' d pt' um' ps' /\
    evolves um s s' (pages d pt um ps []) (pages d pt' um' ps' []) /\
    ((r = newsz /\ exists top, newsz <= top < newsz + PGSIZE /\ grown s' um um' (PGROUNDUP oldsz) top) \/
     (r = 0 /\ um' = um /\ Z.of_nat (length ps) < 2 * page_count (PGROUNDUP oldsz) newsz)).
Proof. apply allocuvm_run. Qed.

Lemma copyuvm_run end_ data_ s d pt um ps sz :
  KERNBASE < end_ -> KERNLINK < data_ < KERNBASE + PHYSTOP -> data_ mod PGSIZE = 0 ->
  space_ok end_ s d pt um ps -> 0 <= sz <= KERNBASE -> (forall va, 0 <= va < sz -> va mod PGSIZE = 0 -> is_Some (um !! va)) ->
  exists r s' ps', copyuvm end_ data_ d sz [] s = Ret r [] s' /\ space_ok end_ s' d pt um ps' /\
    (forall p x, own d pt um p -> in_page p x -> phys s' x = phys s x) /\
    (forall x, (forall p, p ∈ ps -> ~ in_page p x) -> phys s' x = phys s x) /\
    ((r = 0 /\ (forall p, p ∈ ps' <-> p ∈ ps) /\ Z.of_nat (length ps) <= 1025 + page_count 0 sz) \/
     (r <> 0 /\ exists pt2 um2 top, sz <= top < sz + PGSIZE /\ family end_ s' d pt um r pt2 um2 ps' /\ copied s' um um2 top /\
        kernel_mapped data_ um2 /\ forall p, pages r pt2 um2 ps' [] p <-> p ∈ ps)).
Proof.
  intros Hend Hdata Hdal Hs Hsz Hall. assert (LKmem ∉ ([] : list lockid)) as Hh by apply not_elem_of_nil.
  destruct (setupkvm_run end_ Hend data_ Hdata Hdal s ps [] (so_km _ _ _ _ _ _ Hs) Hh) as (r & s1 & ps1 & Hr1 & Hu1 & Hout1 & Hcase).
  unfold copyuvm. rewrite bind_unfold, Hr1.
  assert (forall p, own d pt um p -> p ∉ ps) as Hnin.
  { intros p [a Ha] Hp. assert (a = Free) as -> by (eapply so_excl; [exact Hs|apply holds_split; by left|by constructor]).
    inversion Ha as [| | |q Hq]; subst. by apply not_elem_of_nil in Hq. }
  assert (forall p, p ∈ ps -> page_ok end_ p) as Hpok by (intros p Hp; eapply so_page; [exact Hs|by constructor]).
  assert (0 <= page_count 0 sz) as Hcp by (apply Z.div_pos; unfold PGSIZE; lia).
  destruct Hcase as [(-> & Hkm & Hcnt & Hps)|(Hne & pt2 & um2 & Hcnt & Hs1 & _ & Hps & Hlow & Hker)].
  { destruct (space_beside end_ s s1 d pt um ps ps1 (.∈ ps)) as [Hsp Hsame]; try done; [intros p; apply Hps|].
    exists 0, s1, ps1. split_and!; try done. left. split_and!; try done. lia. }
  rewrite (proj2 (Z.eqb_neq _ _)) by done.
  destruct (space_beside end_ s s1 d pt um ps ps1 (.∈ ps)) as [Hsp Hsame]; try done; [apply Hs1|intros p Hp; apply Hps, pages_own; auto|].
  assert (family end_ s1 d pt um r pt2 um2 ps1) as Hf.
  { split; [done|done|]. intros p Ho Ho'. apply (Hnin p Ho), Hps, pages_own. auto. }
  destruct (copy_loop end_ Hend (Z.to_nat (sz / PGSIZE + 1)) s1 d pt um r pt2 um2 ps1 0 sz []) as (r' & s' & ps' & Hr & Hu & Hsp' & Hown & Hout & Hres);
    try done; try (unfold PGSIZE in *; lia).
  - intros va Hva. left. split; [by apply Hlow|]. destruct (um !! va) as [w|] eqn:E; [|by right]. left.
    destruct (so_um _ _ _ _ _ _ Hs _ _ E) as (_ & ? & _). lia.
  - unfold PGSIZE in *. pose proof (Z.div_mod sz 4096 ltac:(lia)). pose proof (Z.mod_pos_bound sz 4096 ltac:(lia)).
    pose proof (Z.div_pos sz 4096). lia.
  - exists r', s', ps'. split_and!; try done; [intros p x Ho Hx; rewrite (Hown p) by done; by apply (Hsame p)| |].
    { intros x Hx. rewrite Hout; [by apply Hout1|]. intros p Hp. by apply Hx, Hps. }
    destruct Hres as [(-> & Hc & Hp)|(-> & pt3 & um3 & top & Htop & Hf' & Hcp' & Hsub & Hp)].
    + left. split_and!; [done| |lia]. intros p. by rewrite Hp, Hps.
    + right. split; [done|]. exists pt3, um3, top. split_and!; try done; try lia; [|intros p; by rewrite Hp, Hps].
      eapply Forall_impl; [exact Hker|]. intros [[[virt st] en] perm] Hm i Hi. eapply lookup_weaken; [by apply Hm|done].
Qed.

(** C24: [copyuvm] gives a child the parent's memory in pages of its own.  When
    every page below [sz] is mapped in the parent, it returns a directory whose
    address space has a page with the same flags and contents at each of these
    addresses, no other user page, and the kernel's mappings, and shares no
    page with the parent; or it returns 0 and the free pages are what they were,
    which happens only when fewer pages are free than a directory, 1024 tables
    and the pages themselves take.  The parent is not touched. *)
Theorem copyuvm_copies end_ data_ s d pt um ps sz :
  KERNBASE < end_ -> KERNLINK < data_ < KERNBASE + PHYSTOP -> data_ mod PGSIZE = 0 ->
  space_ok end_ s d pt um ps -> 0 <= sz <= KERNBASE -> (forall va, 0 <= va < sz -> va mod PGSIZE = 0 -> is_Some (um !! va)) ->
  exists r s' ps', copyuvm end_ data_ d sz [] s = Ret r [] s' /\ space_ok end_ s' d pt um ps' /\
    (forall p x, own d pt um p -> in_page p x -> phys s' x = phys s x) /\
    ((r = 0 /\ (forall p, p ∈ ps' <-> p ∈ ps) /\ Z.of_nat (length ps) <= 1025 + page_count 0 sz) \/
     (r <> 0 /\ exists pt2 um2 top, sz <= top < sz + PGSIZE /\ family end_ s' d pt um r pt2 um2 ps' /\ copied s' um um2 top /\
        kernel_mapped data_ um2 /\ forall p, pages r pt2 um2 ps' [] p <-> p ∈ ps)).
Proof.
  intros Hend Hdata Hdal Hs Hsz Hall. destruct (copyuvm_run end_ data_ s d pt um ps sz) as (r & s' & ps' & R & H1 & H2 & _ & H3); [done..|].
  by exists r, s', ps'.
Qed.

(** C25: [copyout] writes into another address space.  When the [len] bytes from
    [va] lie in pages the user may access, it returns 0 and each byte of the
    source is at the place its user address is mapped to, across page
    boundaries; nothing else changes. *)
Theorem copyout_writes end_ null_word s d pt um ps va src len :
  space_ok end_ s d pt um ps -> 0 <= va -> va + len <= KERNBASE -> 0 <= len -> apart_from um src len ->
  (forall k, 0 <= k < len -> is_Some (user_addr um (va + k))) ->
  exists s', copyout null_word d va src len [] s = Ret 0 [] s' /\ space_ok end_ s' d pt um ps /\
    written (phys s) (phys s') um va src len.
Proof.
  intros Hs Hva Htop Hlen Hsrc Hall.
  destruct (copyout_loop_run end_ null_word (Z.to_nat (len / PGSIZE + 2)) s d pt um ps va src len [] Hs) as (s' & Hr & Hs' & _ & Hw); try done.
  - case_decide; [|done]. unfold PGSIZE. pose proof (Z.div_pos len 4096). rewrite Z2Nat.id by lia.
    pose proof (Z.div_mod (va + len - 1) 4096 ltac:(lia)). pose proof (Z.mod_pos_bound (va + len - 1) 4096 ltac:(lia)).
    pose proof (Z.div_mod va 4096 ltac:(lia)). pose proof (Z.mod_pos_bound va 4096 ltac:(lia)).
    pose proof (Z.div_mod len 4096 ltac:(lia)). pose proof (Z.mod_pos_bound len 4096 ltac:(lia)). lia.
  - by exists s'.
Qed.

(** ** An example: three free pages and an empty directory *)

Definition vm_end : Z := KERNBASE + 0x115000.
Definition vm_dir : Z := 0x80200000.
Definition vm_free : list Z := [0x80201000; 0x80202000; 0x80203000].
Definition vm_state : kmstate :=
  mkKmstate (store32 (store32 (fun _ => 0) 0x80201000 0x80202000) 0x80202000 0x80203000) 0 0x80201000.

Lemma vm_page_ok p : p ∈ vm_dir :: vm_free -> page_ok vm_end p.
Proof.
  unfold vm_dir, vm_free, page_ok, vm_end, KERNBASE, PHYSTOP. rewrite !elem_of_cons, elem_of_nil.
  intros [->|[->|[->|[->|[]]]]]; split_and!; done || lia.
Qed.

Lemma vm_state_space : space_ok vm_end vm_state vm_dir ∅ ∅ vm_free.
Proof.
  apply empty_space.
  - split.
    + apply store32_ok, store32_ok. intros a. lia.
    + cbn [threaded vm_free vm_state freelist]. split_and!; try reflexivity; apply vm_page_ok; unfold vm_free; set_solver.
    + unfold vm_free. rewrite !NoDup_cons, !not_elem_of_cons. split_and!; try lia; try apply not_elem_of_nil. constructor.
  - apply vm_page_ok. by left.
  - unfold vm_free. rewrite !not_elem_of_cons. unfold vm_dir. split_and!; try lia. apply not_elem_of_nil.
  - unfold vm_dir, in_page, PGSIZE. intros x Hx. unfold vm_state. cbn [phys].
    unfold store32. rewrite !store_bytes_out by (rewrite le32_length; lia). done.
Qed.

Lemma vm_example_grown :
  exists s pt um ps w, allocuvm vm_end vm_dir 0 4096 [] vm_state = Ret 4096 [] s /\ space_ok vm_end s vm_dir pt um ps /\
    um !! 0 = Some w /\ PTE_FLAGS w = 7.
Proof.
  destruct (allocuvm_run vm_end vm_state vm_dir ∅ ∅ vm_free 0 4096) as (r & s & pt & um & ps & Hr & Hs & _ & Hcase).
  - unfold vm_end, KERNBASE. lia.
  - apply vm_state_space.
  - lia.
  - unfold KERNBASE. lia.
  - done.
  - destruct Hcase as [(-> & top & Htop & Hg)|(_ & _ & Hcnt)]; [|by vm_compute in Hcnt].
    destruct (gr_in _ _ _ _ _ Hg 0) as (w & Hw & Hf & _); [change (PGROUNDUP 0) with 0; lia|done|].
    by exists s, pt, um, ps, w.
Qed.

Lemma allocuvm_grows_witness :
  exists s (um : gmap Z Z) w, allocuvm vm_end vm_dir 0 4096 [] vm_state = Ret 4096 [] s /\ um !! 0 = Some w /\
    forall x, in_page (upage w) x -> phys s x = 0.
Proof.
  destruct (allocuvm_grows vm_end vm_state vm_dir ∅ ∅ vm_free 0 4096) as (r & s & pt & um & ps & Hr & Hs & _ & Hcase).
  - unfold vm_end, KERNBASE. lia.
  - apply vm_state_space.
  - lia.
  - unfold KERNBASE. lia.
  - done.
  - destruct Hcase as [(-> & top & Htop & Hg)|(_ & _ & Hcnt)]; [|by vm_compute in Hcnt].
    destruct (gr_in _ _ _ _ _ Hg 0) as (w & Hw & Hf & Hz); [change (PGROUNDUP 0) with 0; lia|done|].
    by exists s, um, w.
Defined.

(** Three thousand free pages, and a process with one. *)
Definition vm_bare : kmstate := mkKmstate (fun _ => 0) 0 0.
Definition vm_pages : list Z := (fun i => 0x80201000 + 4096 * i) <$> seqZ 0 3000.

Lemma vm_pages_free ps : (forall q, q ∈ ps <-> q ∈ [] \/ whole_page 0x80201000 0x80db9000 q) -> vm_pages ⊆ ps.
Proof.
  intros H q (i & -> & Hi%elem_of_seqZ)%list_elem_of_fmap. apply H. right. unfold whole_page, PGSIZE. split; [|lia].
  rewrite (Z.mul_comm 4096), Z.mod_add by lia. done.
Qed.

Lemma vm_filled : exists s ps, freerange vm_end 0x80201000 0x80db9000 [] vm_bare = Ret tt [] s /\
  space_ok vm_end s vm_dir ∅ ∅ ps /\ vm_pages ⊆ ps.
Proof.
  destruct (freerange_run vm_end 0x80201000 0x80db9000 [] vm_bare []) as (s & ps & R & Hk & _ & Hps & Hsame).
  - unfold vm_end, KERNBASE. lia.
  - unfold KERNBASE. lia.
  - unfold KERNBASE, PHYSTOP. lia.
  - split; [intros a; cbn; lia|done|constructor].
  - apply not_elem_of_nil.
  - by intros q ?%not_elem_of_nil.
  - exists s, ps. split; [exact R|]. split; [|by apply vm_pages_free]. apply empty_space; [exact Hk|apply vm_page_ok; by left| |].
    + rewrite Hps. intros [?%not_elem_of_nil|(_ & ? & _)]; [done|]. unfold vm_dir in *. lia.
    + intros x Hx. rewrite Hsame; [done|]. unfold in_page, vm_dir, PGSIZE in Hx. lia.
Qed.

(** Most pages stay free when a directory gets its tables and a page. *)
Lemma vm_left s ps0 s' pt um ps w v0 keep : space_ok vm_end s vm_dir ∅ ∅ ps0 -> vm_pages ⊆ ps0 -> space_ok vm_end s' vm_dir pt um ps ->
  evolves keep s s' (pages vm_dir ∅ ∅ ps0 []) (pages vm_dir pt um ps []) ->
  (forall va v, um !! va = Some v -> va < KERNBASE -> v = w \/ v = v0) -> (1973 <= length ps)%nat.
Proof.
  intros Hs0 Hsub Hs [Hev _ _ _] Hone.
  assert (length (map_to_list pt) <= 1024)%nat as Hpt.
  { rewrite <- (length_fmap fst). transitivity (length (seqZ 0 1024)); [|by rewrite length_seqZ]. apply submseteq_length, NoDup_submseteq; [apply NoDup_fst_map_to_list|].
    intros i ([j t] & -> & Ht%elem_of_map_to_list)%list_elem_of_fmap. apply elem_of_seqZ. pose proof (so_idx _ _ _ _ _ _ Hs j t Ht). cbn. lia. }
  assert (length vm_pages <= length ((map_to_list pt).*2 ++ upage w :: upage v0 :: vm_dir :: ps))%nat as Hle.
  { apply submseteq_length, NoDup_submseteq.
    - apply NoDup_fmap_2; [intros x y; lia|apply NoDup_seqZ].
    - intros q Hq. destruct (proj2 (Hev q)) as [[a Ha]|Hq']; [left; exists Free; constructor; by apply Hsub| |by apply not_elem_of_nil in Hq'].
      rewrite elem_of_app, !elem_of_cons. destruct Ha as [|i t Ht|va v Hv Hk|q Hf]; [tauto| |destruct (Hone va v Hv Hk) as [-> | ->]; tauto|tauto].
      left. apply list_elem_of_fmap. exists (i, t). split; [done|by apply elem_of_map_to_list]. }
  unfold vm_pages in Hle. rewrite length_app, !length_fmap, length_seqZ in Hle. cbn [length] in Hle. lia.
Qed.

(** The page that [allocuvm] gives a process is copied. *)
Lemma copyuvm_copies_witness :
  exists r s (um2 : gmap Z Z) w2, (freerange vm_end 0x80201000 0x80db9000;; allocuvm vm_end vm_dir 0 4096;;
      copyuvm vm_end (KERNBASE + 0x108000) vm_dir 4096) [] vm_bare = Ret r [] s /\
    r <> 0 /\ um2 !! 0 = Some w2 /\ PTE_FLAGS w2 = 7.
Proof.
  destruct vm_filled as (s0 & ps0 & R0 & Hs0 & Hsub).
  destruct (allocuvm_run vm_end s0 vm_dir ∅ ∅ ps0 0 4096) as (r1 & s1 & pt & um & ps1 & R1 & Hs1 & Hev & Hcase);
    [unfold vm_end, KERNBASE; lia|exact Hs0|lia|unfold KERNBASE; lia|intros va _; apply lookup_empty|].
  assert (3000 <= length ps0)%nat as Hlen.
  { transitivity (length vm_pages); [unfold vm_pages; rewrite length_fmap, length_seqZ; lia|]. apply submseteq_length, NoDup_submseteq; [|done].
    apply NoDup_fmap_2; [intros x y; lia|apply NoDup_seqZ]. }
  destruct Hcase as [(-> & top & Htop & Hg)|(_ & _ & Hcnt)]; [|change (page_count (PGROUNDUP 0) 4096) with 1 in Hcnt; lia].
  change (PGROUNDUP 0) with 0 in Hg. destruct (gr_in _ _ _ _ _ Hg 0) as (w & Hw & Hf & _); [lia|done|].
  assert (forall va v, um !! va = Some v -> va < KERNBASE -> v = w \/ v = default 0 (um !! 4096)) as Hone.
  { clear R0 R1. intros va v Hv _. destruct (decide (0 <= va < top)) as [Hin|Hout]; [|by rewrite (gr_out _ _ _ _ _ Hg va Hout), lookup_empty in Hv].
    destruct (decide (va mod PGSIZE = 0)) as [Hal|Hal]; [|by rewrite (gr_al _ _ _ _ _ Hg va Hin Hal) in Hv]. unfold PGSIZE in *.
    assert (va = 0 \/ va = 4096) as [-> | ->] by (pose proof (Z.div_mod va 4096); lia); [left; congruence|right; by rewrite Hv]. }
  pose proof (vm_left s0 ps0 s1 pt um ps1 w _ _ Hs0 Hsub Hs1 Hev Hone) as Hleft.
  destruct (copyuvm_copies vm_end (KERNBASE + 0x108000) s1 vm_dir pt um ps1 4096) as (r & s & ps & R & _ & _ & [(_ & _ & Hfew)|(Hr & pt2 & um2 & top2 & Htop2 & _ & Hcp & _)]).
  - unfold vm_end, KERNBASE. lia.
  - unfold KERNLINK, EXTMEM, KERNBASE, PHYSTOP. lia.
  - reflexivity.
  - exact Hs1.
  - unfold KERNBASE. lia.
  - intros va Hva Hal. assert (va = 0) as -> by (unfold PGSIZE in Hal; pose proof (Z.div_mod va 4096); lia). exists w. exact Hw.
  - exfalso. change (page_count 0 4096) with 1 in Hfew. lia.
  - destruct (Hcp 0) as [(_ & [Ht|Hn])|(w1 & w2 & _ & Hw1 & Hw2 & Hfl & _)]; [unfold KERNBASE; lia|lia|congruence|].
    exists r, s, um2, w2. split; [rewrite bind_unfold, R0, bind_unfold, R1; exact R|]. split; [exact Hr|]. split; [exact Hw2|congruence].
Defined.

Lemma copyout_writes_witness :
  exists s0 s (um : gmap Z Z) w, um !! 0 = Some w /\ copyout 0 vm_dir 0 0x80100000 10 [] s0 = Ret 0 [] s /\
    phys s (upage w + 7) = phys s0 (0x80100000 + 7).
Proof.
  destruct vm_example_grown as (s0 & pt & um & ps & w & _ & Hs0 & Hw & Hfl).
  destruct (so_um _ _ _ _ _ _ Hs0 _ _ Hw) as (_ & _ & _ & _ & Hwr).
  assert (forall k, 0 <= k < PGSIZE -> user_addr um k = Some (upage w + k)) as Hua.
  { intros k Hk. unfold user_addr. rewrite (same_page 0 k) by (change (PGROUNDDOWN 0) with 0; lia). change (PGROUNDDOWN 0) with 0.
    rewrite Hw. cbn. rewrite Z.sub_0_r. rewrite (proj2 (Z.eqb_neq _ _)); [done|]. intros E.
    assert (Z.land (PTE_FLAGS w) PTE_U = Z.land w PTE_U) as Hland.
    { unfold PTE_FLAGS. rewrite u32_id by lia. rewrite <- Z.land_assoc. done. }
    rewrite Hfl, E in Hland. discriminate. }
  destruct (copyout_writes vm_end 0 s0 vm_dir pt um ps 0 0x80100000 10) as (s & Hr & _ & Hwr1 & _).
  - exact Hs0.
  - lia.
  - unfold KERNBASE. lia.
  - lia.
  - intros va a k Hva Ha Hk. apply user_addr_page in Ha as (v & Hv & _ & ->). destruct (PGROUNDDOWN_spec va) as [_ Hb].
    assert (page_ok vm_end (upage v)) as (_ & Hge & _).
    { eapply (so_page _ _ _ _ _ _ Hs0 _ (User (PGROUNDDOWN va))). econstructor; [done|unfold KERNBASE in *; lia]. }
    unfold vm_end, KERNBASE in Hge. lia.
  - intros k Hk. rewrite Z.add_0_l, Hua by (unfold PGSIZE; lia). by eexists.
  - exists s0, s, um, w. split; [exact Hw|]. split; [exact Hr|]. apply (Hwr1 7); [lia|]. rewrite Z.add_0_l. apply Hua. unfold PGSIZE. lia.
Defined.
