(* ===== verification/Console.v ===== *)
(** * The console (src/console.c, uartputc and uartgetc of src/uart.c)

    The state of the console: its screen (the cells of the CGA memory and the
    two cursor registers of its controller), what has been sent to the serial
    port, what waits at the ports to be read, and the input buffer with its
    three free-running indices; [cprintf], [panic] and [procdump] print to it.
    [consoleread] and [consolewrite] are in the file Device, because they unlock
    an inode. *)

From Stdlib Require Import ZArith Lia String.
From stdpp Require Import prelude numbers strings option list.
From S2P Require Import Prelude Kernel Mem Spinlock Sched.

Record console : Type := mkConsole {
  panicked : Z;
  locking : Z;
  crt : Z -> Z;
  crt_hi : Z;
  crt_lo : Z;
  uart : Z;
  serial : list Z;
  uart_in : list Z;
  kbd_in : list Z;
  kbd_shift : Z;
  in_buf : list Z;
  in_r : Z;
  in_w : Z;
  in_e : Z }.

Definition set_locking v c := mkConsole (panicked c) v (crt c) (crt_hi c) (crt_lo c) (uart c) (serial c) (uart_in c) (kbd_in c) (kbd_shift c) (in_buf c) (in_r c) (in_w c) (in_e c).
Definition set_crt v c := mkConsole (panicked c) (locking c) v (crt_hi c) (crt_lo c) (uart c) (serial c) (uart_in c) (kbd_in c) (kbd_shift c) (in_buf c) (in_r c) (in_w c) (in_e c).
Definition set_cursor hi lo c := mkConsole (panicked c) (locking c) (crt c) hi lo (uart c) (serial c) (uart_in c) (kbd_in c) (kbd_shift c) (in_buf c) (in_r c) (in_w c) (in_e c).
Definition set_serial v c := mkConsole (panicked c) (locking c) (crt c) (crt_hi c) (crt_lo c) (uart c) v (uart_in c) (kbd_in c) (kbd_shift c) (in_buf c) (in_r c) (in_w c) (in_e c).
Definition set_uart_in v c := mkConsole (panicked c) (locking c) (crt c) (crt_hi c) (crt_lo c) (uart c) (serial c) v (kbd_in c) (kbd_shift c) (in_buf c) (in_r c) (in_w c) (in_e c).
Definition set_kbd_in v c := mkConsole (panicked c) (locking c) (crt c) (crt_hi c) (crt_lo c) (uart c) (serial c) (uart_in c) v (kbd_shift c) (in_buf c) (in_r c) (in_w c) (in_e c).
Definition set_kbd_shift v c := mkConsole (panicked c) (locking c) (crt c) (crt_hi c) (crt_lo c) (uart c) (serial c) (uart_in c) (kbd_in c) v (in_buf c) (in_r c) (in_w c) (in_e c).
Definition set_in_buf v c := mkConsole (panicked c) (locking c) (crt c) (crt_hi c) (crt_lo c) (uart c) (serial c) (uart_in c) (kbd_in c) (kbd_shift c) v (in_r c) (in_w c) (in_e c).
Definition set_in_r v c := mkConsole (panicked c) (locking c) (crt c) (crt_hi c) (crt_lo c) (uart c) (serial c) (uart_in c) (kbd_in c) (kbd_shift c) (in_buf c) v (in_w c) (in_e c).
Definition set_in_w v c := mkConsole (panicked c) (locking c) (crt c) (crt_hi c) (crt_lo c) (uart c) (serial c) (uart_in c) (kbd_in c) (kbd_shift c) (in_buf c) (in_r c) v (in_e c).
Definition set_in_e v c := mkConsole (panicked c) (locking c) (crt c) (crt_hi c) (crt_lo c) (uart c) (serial c) (uart_in c) (kbd_in c) (kbd_shift c) (in_buf c) (in_r c) (in_w c) v.

Definition set_uart v c := mkConsole (panicked c) (locking c) (crt c) (crt_hi c) (crt_lo c) v (serial c) (uart_in c) (kbd_in c) (kbd_shift c) (in_buf c) (in_r c) (in_w c) (in_e c).
Definition set_panicked v c := mkConsole v (locking c) (crt c) (crt_hi c) (crt_lo c) (uart c) (serial c) (uart_in c) (kbd_in c) (kbd_shift c) (in_buf c) (in_r c) (in_w c) (in_e c).

Definition BACKSPACE : Z := 0x100.
Definition INPUT_BUF : Z := 128.
Definition NL : Z := 10.

(** [C(x)] on the letter with the given code. *)
Definition ctl (x : Z) : Z := x - 64.

(** The string of a newline. *)
Definition nl : string := String (Ascii.ascii_of_nat 10) EmptyString.

(** The arguments of [cprintf]. *)
Inductive karg : Type := KInt (v : Z) | KStr (s : list Z).

Section output.
Context {S : Type} `{!Has console S}.

Definition getc_ : K S console := gets get_part.
Definition modc (f : console -> console) : K S unit := modify (fun s => put_part (f (get_part s)) s).

(** [uartputc]: the wait for the transmitter changes nothing. *)
Definition uartputc (c : Z) : K S unit :=
  k ← getc_;
  if uart k =? 0 then mret () else modc (fun k => set_serial (serial k ++ [u8 c]) k).

Definition uartgetc : K S Z :=
  k ← getc_;
  if uart k =? 0 then mret (-1)
  else match uart_in k with
       | [] => mret (-1)
       | c :: l => modc (set_uart_in l);; mret c
       end.

(** [crt[i] = v] *)
Definition put_cell (i v : Z) (k : console) : console :=
  set_crt (fun j => if j =? i then u16 v else crt k j) k.
(** [memmove(crt, crt+80, sizeof(crt[0])*23*80)] *)
Definition scroll (k : console) : console :=
  set_crt (fun j => if (0 <=? j) && (j <? 23 * 80) then crt k (j + 80) else crt k j) k.
(** [memset(crt+pos, 0, sizeof(crt[0])*(24*80 - pos))] *)
Definition blank (pos : Z) (k : console) : console :=
  set_crt (fun j => if (pos <=? j) && (j <? 24 * 80) then 0 else crt k j) k.

Definition cgaputc (c : Z) : K S unit :=
  k ← getc_;
  let pos := Z.lor (Z.shiftl (crt_hi k) 8) (crt_lo k) in
  pos ← (if c =? NL then mret (pos + (80 - Z.rem pos 80))
         else if c =? BACKSPACE then mret (if 0 <? pos then pos - 1 else pos)
         else modc (put_cell pos (Z.lor (Z.land c 0xff) 0x0700));; mret (pos + 1));
  if (pos <? 0) || (25 * 80 <? pos) then panic "pos under/overflow"
  else
    pos ← (if 24 <=? Z.quot pos 80 then
             modc scroll;;
             let pos := pos - 80 in
             modc (blank pos);;
             mret pos
           else mret pos);
    modc (set_cursor (u8 (Z.shiftr pos 8)) (u8 pos));;
    modc (put_cell pos (Z.lor 32 0x0700)).

Definition consputc (c : Z) : K S unit :=
  k ← getc_;
  if negb (panicked k =? 0) then spin
  else
    (if c =? BACKSPACE then uartputc 8;; uartputc 32;; uartputc 8 else uartputc c);;
    cgaputc c.

Fixpoint consputs (l : list Z) : K S unit :=
  match l with
  | [] => mret ()
  | c :: l => consputc c;; consputs l
  end.

(** The digits of [x], least significant first: the do-while of [printint].
    A 32-bit number has at most 32 digits in any base. *)
Definition digits : list Z := str "0123456789abcdef".
Fixpoint printint_loop (fuel : nat) (x base : Z) : list Z :=
  match fuel with
  | O => []
  | Datatypes.S fuel =>
      nth (Z.to_nat (x mod base)) digits 0 ::
      (if x / base =? 0 then [] else printint_loop fuel (x / base) base)
  end.

Definition printint (xx base : Z) (sign : bool) : K S unit :=
  let sign := sign && (xx <? 0) in
  let x := if sign then u32 (- xx) else u32 xx in
  let buf := printint_loop 32 x base in
  let buf := if sign then buf ++ [45] else buf in
  consputs (reverse buf).

(** The loop of [cprintf].  In every call of the kernel the directives agree
    with the arguments; a missing or ill-typed one is not run. *)
Fixpoint cprintf_loop (fmt : list Z) (args : list karg) : K S unit :=
  match fmt with
  | [] => mret ()
  | c :: fmt =>
      if negb (c =? 37) then consputc c;; cprintf_loop fmt args
      else
        match fmt with
        | [] => mret ()
        | c :: fmt =>
            if c =? 100 then
              match args with
              | KInt v :: args => printint (s32 v) 10 true;; cprintf_loop fmt args
              | _ => panic "trap"
              end
            else if (c =? 120) || (c =? 112) then
              match args with
              | KInt v :: args => printint (s32 v) 16 false;; cprintf_loop fmt args
              | _ => panic "trap"
              end
            else if c =? 115 then
              match args with
              | KStr s :: args => consputs s;; cprintf_loop fmt args
              | KInt v :: args =>
                  if v =? 0 then consputs (str "(null)");; cprintf_loop fmt args else panic "trap"
              | [] => panic "trap"
              end
            else if c =? 37 then consputc 37;; cprintf_loop fmt args
            else consputc 37;; consputc c;; cprintf_loop fmt args
        end
  end.

Definition cprintf (fmt : string) (args : list karg) : K S unit :=
  k ← getc_;
  let locking := negb (locking k =? 0) in
  when locking (acquire LCons);;
  cprintf_loop (str fmt) args;;
  when locking (release LCons).

(** [panic] up to its endless loop, on the CPU with local APIC [id] and with the
    return addresses [pcs]; the message is a format. *)
Fixpoint panic_pcs (pcs : list Z) : K S unit :=
  match pcs with
  | [] => mret ()
  | pc :: pcs => cprintf " %p" [KInt pc];; panic_pcs pcs
  end.
Definition panic_report (id : Z) (msg : string) (pcs : list Z) : K S unit :=
  modc (set_locking 0);;
  (cprintf "lapicid %d: panic: " [KInt id];;
   cprintf msg [];;
   cprintf nl [];;
   panic_pcs pcs);;
  modc (set_panicked 1).
End output.

(** ** procdump (src/proc.c) *)

Section procdump.
Context {S : Type} `{!Has console S, !Has pstate S}.
(** The memory in which the kernel stacks lie. *)
Context (stacks : S -> mem).

Definition state_name (st : procstate) : list Z :=
  match st with
  | UNUSED => str "unused" | EMBRYO => str "embryo" | SLEEPING => str "sleep "
  | RUNNABLE => str "runble" | RUNNING => str "run   " | ZOMBIE => str "zombie"
  end.

(** The characters of a zero-terminated array. *)
Fixpoint text (l : list Z) : list Z :=
  match l with
  | [] => []
  | c :: l => if c =? 0 then [] else c :: text l
  end.

Fixpoint dump_pcs (pcs : list Z) : K S unit :=
  match pcs with
  | [] => mret ()
  | pc :: pcs => if pc =? 0 then mret () else cprintf " %p" [KInt pc];; dump_pcs pcs
  end.

Fixpoint procdump_loop (ps : list proc) : K S unit :=
  match ps with
  | [] => mret ()
  | p :: ps =>
      if bool_decide (state p = UNUSED) then procdump_loop ps
      else
        cprintf "%d %s %s" [KInt (pid p); KStr (state_name (state p)); KStr (text (name p))];;
        (if bool_decide (state p = SLEEPING) then
           m ← gets stacks;
           dump_pcs (getcallerpcs m (u32 (c_ebp (ctx p) + 8)))
         else mret ());;
        cprintf nl [];;
        procdump_loop ps
  end.

Definition procdump : K S unit := s ← getp; procdump_loop (procs s).

(** ** consoleintr *)

(** The loop of [^U]. *)
Fixpoint kill_line (fuel : nat) : K S unit :=
  match fuel with
  | O => spin
  | Datatypes.S fuel =>
      k ← getc_;
      if negb (in_e k =? in_w k) && negb (nth (Z.to_nat (u32 (in_e k - 1) mod INPUT_BUF)) (in_buf k) 0 =? NL) then
        modc (fun k => set_in_e (u32 (in_e k - 1)) k);;
        consputc BACKSPACE;;
        kill_line fuel
      else mret ()
  end.

(** One character of the [while] loop; the result is [doprocdump]. *)
Definition consoleintr_char (c : Z) : K S bool :=
  if c =? ctl 80 then mret true
  else if c =? ctl 85 then kill_line (Z.to_nat (INPUT_BUF + 1));; mret false
  else if (c =? ctl 72) || (c =? 0x7f) then
    k ← getc_;
    (if negb (in_e k =? in_w k) then
       modc (fun k => set_in_e (u32 (in_e k - 1)) k);;
       consputc BACKSPACE
     else mret ());;
    mret false
  else
    k ← getc_;
    (if negb (c =? 0) && (u32 (in_e k - in_r k) <? INPUT_BUF) then
       let c := if c =? 13 then NL else c in
       modc (fun k => set_in_buf (<[Z.to_nat (in_e k mod INPUT_BUF) := u8 c]> (in_buf k)) k);;
       modc (fun k => set_in_e (u32 (in_e k + 1)) k);;
       consputc c;;
       k ← getc_;
       if (c =? NL) || (c =? ctl 68) || (in_e k =? u32 (in_r k + INPUT_BUF)) then
         modc (fun k => set_in_w (in_e k) k);;
         wakeup ChInput
       else mret ()
     else mret ());;
    mret false.

Fixpoint consoleintr_loop (fuel : nat) (getc : K S Z) (doprocdump : bool) : K S bool :=
  match fuel with
  | O => spin
  | Datatypes.S fuel =>
      c ← getc;
      if c <? 0 then mret doprocdump
      else
        d ← consoleintr_char c;
        consoleintr_loop fuel getc (doprocdump || d)
  end.

Definition consoleintr (fuel : nat) (getc : K S Z) : K S unit :=
  acquire LCons;;
  doprocdump ← consoleintr_loop fuel getc false;
  release LCons;;
  when doprocdump procdump.

(** Every call of [uartgetc] that returns a character takes one from the port. *)
Definition uartintr : K S unit :=
  k ← getc_;
  consoleintr (Datatypes.S (length (uart_in k))) uartgetc.
End procdump.
