(* ===== verification/Apic.v ===== *)
(** * The interrupt controllers and the clock (src/lapic.c, src/ioapic.c,
    src/picirq.c, uartinit of src/uart.c)

    The chips are hardware: the local APIC, the I/O APIC, the old controllers,
    the serial port's control registers and the CMOS clock are a parameter of
    the model, the classes [Chips] and [Rtc], with what the code relies on as
    laws.  The code is written for any state that has the chips, the variables
    of mp.c, memory and the console. *)

From Stdlib Require Import ZArith Lia String.
From stdpp Require Import prelude numbers strings option gmap list.
From S2P Require Import Prelude Kernel Mem Gates Mp Sched Console.

(** Registers of the local APIC, as indices of an array of words. *)
Definition ID : Z := 0x0020 / 4.
Definition VER : Z := 0x0030 / 4.
Definition TPR : Z := 0x0080 / 4.
Definition EOI : Z := 0x00B0 / 4.
Definition SVR : Z := 0x00F0 / 4.
Definition ENABLE : Z := 0x00000100.
Definition ESR : Z := 0x0280 / 4.
Definition ICRLO : Z := 0x0300 / 4.
Definition INIT : Z := 0x00000500.
Definition STARTUP : Z := 0x00000600.
Definition DELIVS : Z := 0x00001000.
Definition ASSERT : Z := 0x00004000.
Definition LEVEL : Z := 0x00008000.
Definition BCAST : Z := 0x00080000.
Definition ICRHI : Z := 0x0310 / 4.
Definition TIMER : Z := 0x0320 / 4.
Definition X1 : Z := 0x0000000B.
Definition PERIODIC : Z := 0x00020000.
Definition PCINT : Z := 0x0340 / 4.
Definition LINT0 : Z := 0x0350 / 4.
Definition LINT1 : Z := 0x0360 / 4.
Definition ERROR : Z := 0x0370 / 4.
Definition MASKED : Z := 0x00010000.
Definition TICR : Z := 0x0380 / 4.
Definition TDCR : Z := 0x03E0 / 4.

Definition CMOS_PORT : Z := 0x70.
Definition CMOS_RETURN : Z := 0x71.
Definition CMOS_STATA : Z := 0x0a.
Definition CMOS_STATB : Z := 0x0b.
Definition CMOS_UIP : Z := Z.shiftl 1 7.
Definition SECS : Z := 0x00.
Definition MINS : Z := 0x02.
Definition HOURS : Z := 0x04.
Definition DAY : Z := 0x07.
Definition MONTH : Z := 0x08.
Definition YEAR : Z := 0x09.

Definition REG_ID : Z := 0x00.
Definition REG_VER : Z := 0x01.
Definition REG_TABLE : Z := 0x10.
Definition INT_DISABLED : Z := 0x00010000.

Definition IO_PIC1 : Z := 0x20.
Definition IO_PIC2 : Z := 0xA0.
Definition COM1 : Z := 0x3f8.

(** ** The chips *)

(** The accesses: ports, words of the local APIC, and the two words of the I/O
    APIC, the selected register and its data. *)
Class Ports (D : Type) := {
  inb : Z -> D -> Z * D;
  outb : Z -> Z -> D -> D;
  lapic_load : Z -> D -> Z * D;
  lapic_store : Z -> Z -> D -> D;
  ioapic_select : Z -> D -> D;
  ioapic_load : D -> Z * D;
  ioapic_store : Z -> D -> D }.

(** A register of the local APIC that keeps what is written to it. *)
Definition setting (i : Z) : bool := bool_decide (i ∈ [TPR; SVR; ICRHI; TIMER; PCINT; LINT0; LINT1; ERROR; TICR; TDCR]).

(** What the chips do.  [cpu_id] is the number of this CPU's local APIC,
    [lregs] are its settings, [messages]
    the commands sent with it (high and low word), [pending] the number of
    reads until the last one is delivered; [iregs] are the registers of the
    I/O APIC.  An access to one chip does not change the other. *)
Class Chips (D : Type) `{!Ports D} := {
  cpu_id : Z;
  lregs : D -> Z -> Z;
  messages : D -> list (Z * Z);
  pending : D -> nat;
  selected : D -> Z;
  iregs : D -> Z -> Z;
  lapic_setting : forall i v d, setting i = true -> let d' := lapic_store i v d in
    (forall j, lregs d' j = if j =? i then v else lregs d j) /\ messages d' = messages d /\ pending d' = pending d /\ iregs d' = iregs d;
  lapic_command : forall v d, let d' := lapic_store ICRLO v d in
    lregs d' = lregs d /\ messages d' = messages d ++ [(lregs d ICRHI, v)] /\ iregs d' = iregs d;
  lapic_signal : forall i v d, i = EOI \/ i = ESR -> let d' := lapic_store i v d in
    lregs d' = lregs d /\ messages d' = messages d /\ pending d' = pending d /\ iregs d' = iregs d;
  lapic_read : forall i d, let '(_, d') := lapic_load i d in
    lregs d' = lregs d /\ messages d' = messages d /\ iregs d' = iregs d;
  lapic_poll : forall d, let '(v, d') := lapic_load ICRLO d in
    (Z.land v DELIVS = 0 <-> pending d = 0%nat) /\ pending d' = pred (pending d);
  lapic_ident : forall d, Z.shiftr (lapic_load ID d).1 24 = cpu_id;
  ioapic_selects : forall r d, let d' := ioapic_select r d in
    selected d' = r /\ iregs d' = iregs d /\ lregs d' = lregs d /\ messages d' = messages d;
  ioapic_reads : forall d, let '(v, d') := ioapic_load d in
    v = iregs d (selected d) /\ iregs d' = iregs d /\ lregs d' = lregs d /\ messages d' = messages d;
  ioapic_writes : forall v d, REG_TABLE <= selected d -> let d' := ioapic_store v d in
    (forall r, iregs d' r = if r =? selected d then v else iregs d r) /\ lregs d' = lregs d /\ messages d' = messages d;
  port_reads : forall p d, let '(_, d') := inb p d in lregs d' = lregs d /\ messages d' = messages d /\ iregs d' = iregs d;
  port_writes : forall p v d, let d' := outb p v d in lregs d' = lregs d /\ messages d' = messages d /\ iregs d' = iregs d }.

(** ** The code *)

(** The chips, the variables of mp.c with memory, and the console. *)
Record hw (D : Type) : Type := mkHw {
  chip : D;
  mpv : mpst;
  con : console }.
Arguments mkHw {D}.
Arguments chip {D}.
Arguments mpv {D}.
Arguments con {D}.

Definition set_chip {D} (v : D) (s : hw D) : hw D := mkHw v (mpv s) (con s).
Definition set_mpv {D} (v : mpst) (s : hw D) : hw D := mkHw (chip s) v (con s).
Definition set_con {D} (v : console) (s : hw D) : hw D := mkHw (chip s) (mpv s) v.

#[export, refine] Instance Has_con D : Has console (hw D) := {| get_part := con; put_part := set_con |}.
Proof. all: by intros; destruct s. Defined.
#[export, refine] Instance Has_mpv D : Has mpst (hw D) := {| get_part := mpv; put_part := set_mpv |}.
Proof. all: by intros; destruct s. Defined.

Section chips.
Context {D : Type} `{!Ports D, !Chips D}.

Definition getchip : K (hw D) D := gets chip.
Definition modchip (f : D -> D) : K (hw D) unit := modify (fun s => set_chip (f (chip s)) s).
Definition port_in (p : Z) : K (hw D) Z := d ← getchip; modchip (fun _ => (inb p d).2);; mret (inb p d).1.
Definition port_out (p v : Z) : K (hw D) unit := modchip (outb p (u8 v)).
Definition get_lapic (i : Z) : K (hw D) Z := d ← getchip; modchip (fun _ => (lapic_load i d).2);; mret (lapic_load i d).1.
Definition mpvars : K (hw D) mpst := gets mpv.

(** lapic.c *)
Definition lapicw (index value : Z) : K (hw D) unit :=
  modchip (lapic_store index (u32 value));;
  _ ← get_lapic ID;
  mret ().

(** [while(lapic[ICRLO] & DELIVS);] *)
Fixpoint wait_delivery (fuel : nat) : K (hw D) unit :=
  match fuel with
  | O => spin
  | S fuel =>
      v ← get_lapic ICRLO;
      if negb (Z.land v DELIVS =? 0) then wait_delivery fuel else mret ()
  end.

Definition lapicinit : K (hw D) unit :=
  v ← mpvars;
  if lapic v =? 0 then mret ()
  else
    lapicw SVR (Z.lor ENABLE (T_IRQ0 + IRQ_SPURIOUS));;
    lapicw TDCR X1;;
    lapicw TIMER (Z.lor PERIODIC (T_IRQ0 + IRQ_TIMER));;
    lapicw TICR 10000000;;
    lapicw LINT0 MASKED;;
    lapicw LINT1 MASKED;;
    ver ← get_lapic VER;
    when (4 <=? Z.land (Z.shiftr ver 16) 0xFF) (lapicw PCINT MASKED);;
    lapicw ERROR (T_IRQ0 + IRQ_ERROR);;
    lapicw ESR 0;;
    lapicw ESR 0;;
    lapicw EOI 0;;
    lapicw ICRHI 0;;
    lapicw ICRLO (Z.lor (Z.lor BCAST INIT) LEVEL);;
    d ← getchip;
    wait_delivery (S (pending d));;
    lapicw TPR 0.

Definition lapicid : K (hw D) Z :=
  v ← mpvars;
  if lapic v =? 0 then mret 0
  else
    id ← get_lapic ID;
    mret (Z.shiftr id 24).

Definition lapiceoi : K (hw D) unit :=
  v ← mpvars;
  when (negb (lapic v =? 0)) (lapicw EOI 0).

Definition microdelay (us : Z) : K (hw D) unit := mret ().

(** A 16-bit store. *)
Definition store16 (a v : Z) : K (hw D) unit :=
  modify (fun s => set_mpv (set_mp_mem (store_bytes (mp_mem (mpv s)) a (le16 v)) (mpv s)) s).

(** The loop of [lapicstartap], [n] times. *)
Fixpoint send_startup (n : nat) (apicid addr : Z) : K (hw D) unit :=
  match n with
  | O => mret ()
  | S n =>
      lapicw ICRHI (Z.shiftl apicid 24);;
      lapicw ICRLO (Z.lor STARTUP (Z.shiftr addr 12));;
      microdelay 200;;
      send_startup n apicid addr
  end.

Definition lapicstartap (apicid addr : Z) : K (hw D) unit :=
  port_out CMOS_PORT 0xF;;
  port_out (CMOS_PORT + 1) 0x0A;;
  let wrv := P2V (Z.lor (Z.shiftl 0x40 4) 0x67) in
  store16 wrv 0;;
  store16 (wrv + 2) (u16 (Z.shiftr addr 4));;
  lapicw ICRHI (Z.shiftl apicid 24);;
  lapicw ICRLO (Z.lor (Z.lor INIT LEVEL) ASSERT);;
  microdelay 200;;
  lapicw ICRLO (Z.lor INIT LEVEL);;
  microdelay 100;;
  send_startup 2 apicid addr.

(** ioapic.c *)
Definition ioapicread (reg : Z) : K (hw D) Z :=
  modchip (ioapic_select reg);;
  d ← getchip;
  modchip (fun _ => (ioapic_load d).2);;
  mret (ioapic_load d).1.
Definition ioapicwrite (reg data : Z) : K (hw D) unit :=
  modchip (ioapic_select reg);;
  modchip (ioapic_store (u32 data)).

(** The loop of [ioapicinit]: [n] more entries from [i] on. *)
Fixpoint ioapicinit_loop (n : nat) (i : Z) : K (hw D) unit :=
  match n with
  | O => mret ()
  | S n =>
      ioapicwrite (REG_TABLE + 2 * i) (Z.lor INT_DISABLED (T_IRQ0 + i));;
      ioapicwrite (REG_TABLE + 2 * i + 1) 0;;
      ioapicinit_loop n (i + 1)
  end.
Definition ioapicinit : K (hw D) unit :=
  ver ← ioapicread REG_VER;
  let maxintr := Z.land (Z.shiftr ver 16) 0xFF in
  idr ← ioapicread REG_ID;
  let id := Z.shiftr idr 24 in
  v ← mpvars;
  when (negb (id =? ioapicid v)) (cprintf ("ioapicinit: id isn't equal to ioapicid; not a MP" ++ nl) []);;
  ioapicinit_loop (Z.to_nat (maxintr + 1)) 0.

Definition ioapicenable (irq cpunum : Z) : K (hw D) unit :=
  ioapicwrite (REG_TABLE + 2 * irq) (T_IRQ0 + irq);;
  ioapicwrite (REG_TABLE + 2 * irq + 1) (Z.shiftl cpunum 24).

(** picirq.c *)
Definition picinit : K (hw D) unit :=
  port_out (IO_PIC1 + 1) 0xFF;;
  port_out (IO_PIC2 + 1) 0xFF.

(** uart.c *)
Fixpoint uartputs (l : list Z) : K (hw D) unit :=
  match l with
  | [] => mret ()
  | c :: l => uartputc c;; uartputs l
  end.
Definition uartinit : K (hw D) unit :=
  port_out (COM1 + 2) 0;;
  port_out (COM1 + 3) 0x80;;
  port_out (COM1 + 0) (115200 / 9600);;
  port_out (COM1 + 1) 0;;
  port_out (COM1 + 3) 0x03;;
  port_out (COM1 + 4) 0;;
  port_out (COM1 + 1) 0x01;;
  st ← port_in (COM1 + 5);
  if st =? 0xFF then mret ()
  else
    modc (set_uart 1);;
    _ ← port_in (COM1 + 2);
    _ ← port_in (COM1 + 0);
    ioapicenable IRQ_COM1 0;;
    uartputs (str "xv6..." ++ [10]).

(** ** Running it *)

(** What an access may change. *)
Record quiet (d d' : D) : Prop := mkQuiet {
  q_lregs : lregs d' = lregs d;
  q_messages : messages d' = messages d;
  q_iregs : iregs d' = iregs d }.

Lemma quiet_refl d : quiet d d.
Proof. by split. Qed.
Lemma quiet_trans d1 d2 d3 : quiet d1 d2 -> quiet d2 d3 -> quiet d1 d3.
Proof. intros [] []. split; congruence. Qed.

Lemma get_lapic_run i h (s : hw D) : exists v d', get_lapic i h s = Ret v h (set_chip d' s) /\ quiet (chip s) d'.
Proof.
  unfold get_lapic, getchip, modchip. repeat kstep_base. pose proof (lapic_read i (chip s)) as H. destruct (lapic_load i (chip s)) as [v d'].
  exists v, d'. split; [done|]. destruct H as (? & ? & ?). by split.
Qed.

Lemma port_out_run p v h (s : hw D) : exists d', port_out p v h s = Ret tt h (set_chip d' s) /\ quiet (chip s) d'.
Proof.
  unfold port_out, modchip. repeat kstep_base. eexists. split; [done|]. destruct (port_writes p (u8 v) (chip s)) as (? & ? & ?). by split.
Qed.

Lemma port_in_run p h (s : hw D) : exists v d', port_in p h s = Ret v h (set_chip d' s) /\ quiet (chip s) d'.
Proof.
  unfold port_in, getchip, modchip. repeat kstep_base. pose proof (port_reads p (chip s)) as H. destruct (inb p (chip s)) as [v d'].
  exists v, d'. split; [done|]. destruct H as (? & ? & ?). by split.
Qed.

(** A setting of the local APIC. *)
Lemma lapicw_setting i v h (s : hw D) : setting i = true -> exists d', lapicw i v h s = Ret tt h (set_chip d' s) /\
  (forall j, lregs d' j = if j =? i then u32 v else lregs (chip s) j) /\ messages d' = messages (chip s) /\ iregs d' = iregs (chip s).
Proof.
  intros Hi. unfold lapicw, modchip. repeat kstep_base. set (d := lapic_store i (u32 v) (chip s)).
  destruct (get_lapic_run ID h (set_chip d s)) as (w & d' & -> & [Q1 Q2 Q3]). repeat kstep_base. exists d'. split; [done|]. rewrite Q1, Q2, Q3.
  destruct (lapic_setting i (u32 v) (chip s) Hi) as (? & ? & _ & ?). done.
Qed.

(** A command. *)
Lemma lapicw_command v h (s : hw D) : exists d', lapicw ICRLO v h s = Ret tt h (set_chip d' s) /\
  lregs d' = lregs (chip s) /\ messages d' = messages (chip s) ++ [(lregs (chip s) ICRHI, u32 v)] /\ iregs d' = iregs (chip s).
Proof.
  unfold lapicw, modchip. repeat kstep_base. set (d := lapic_store ICRLO (u32 v) (chip s)).
  destruct (get_lapic_run ID h (set_chip d s)) as (w & d' & -> & [Q1 Q2 Q3]). repeat kstep_base. exists d'. split; [done|]. rewrite Q1, Q2, Q3. apply lapic_command.
Qed.

Lemma lapicw_signal i v h (s : hw D) : i = EOI \/ i = ESR -> exists d', lapicw i v h s = Ret tt h (set_chip d' s) /\ quiet (chip s) d'.
Proof.
  intros Hi. unfold lapicw, modchip. repeat kstep_base. set (d := lapic_store i (u32 v) (chip s)).
  destruct (get_lapic_run ID h (set_chip d s)) as (w & d' & -> & Hq). repeat kstep_base. exists d'. split; [done|].
  eapply quiet_trans, Hq. destruct (lapic_signal i (u32 v) (chip s) Hi) as (? & ? & _ & ?). by split.
Qed.

Lemma wait_delivery_run n : forall h (s : hw D), pending (chip s) = n -> exists d', wait_delivery (S n) h s = Ret tt h (set_chip d' s) /\ quiet (chip s) d'.
Proof.
  induction n as [|n IH]; intros h s Hp; cbn [wait_delivery]; unfold get_lapic, getchip, modchip; repeat kstep_base;
    pose proof (lapic_poll (chip s)) as P; pose proof (lapic_read ICRLO (chip s)) as R; destruct (lapic_load ICRLO (chip s)) as [v d1]; cbn [fst snd];
    destruct P as [P1 P2], R as (R1 & R2 & R3).
  - rewrite (proj2 P1 Hp). exists d1. split; [done|by split].
  - rewrite (proj2 (Z.eqb_neq _ _)) by (intros E%P1; lia). cbn [negb]. destruct (IH h (set_chip d1 s)) as (d' & IH1 & IH2); [cbn; by rewrite P2, Hp|].
    exists d'. split; [exact IH1|]. eapply quiet_trans, IH2. by split.
Qed.

(** Runs the next access to the local APIC. *)
Ltac lapic_step :=
  match goal with
  | |- context [lapicw ICRLO ?v ?h ?s] => destruct (lapicw_command v h s) as (? & -> & ? & ? & ?)
  | |- context [lapicw EOI ?v ?h ?s] => destruct (lapicw_signal EOI v h s (or_introl eq_refl)) as (? & -> & [])
  | |- context [lapicw ESR ?v ?h ?s] => destruct (lapicw_signal ESR v h s (or_intror eq_refl)) as (? & -> & [])
  | |- context [lapicw ?i ?v ?h ?s] => destruct (lapicw_setting i v h s eq_refl) as (? & -> & ? & ? & ?)
  | |- context [get_lapic ?i ?h ?s] => destruct (get_lapic_run i h s) as (? & ? & -> & [])
  | |- context [port_out ?p ?v ?h ?s] => destruct (port_out_run p v h s) as (? & -> & [])
  end; cbn [chip set_chip mpv set_mpv con] in *; repeat kstep_base.

(** What the last accesses have left in a register of the local APIC. *)
Ltac lapic_reads :=
  repeat match goal with
  | H : lregs ?d = _ |- context [lregs ?d _] => rewrite H
  | H : forall j, lregs ?d j = _ |- context [lregs ?d _] => rewrite H
  | H : messages ?d = _ |- context [messages ?d] => rewrite H
  | H : iregs ?d = _ |- context [iregs ?d] => rewrite H
  end.

(** The local APIC after [lapicinit]: on, with the timer running and its vector,
    the two lines masked, the error vector set and no priority held back; one
    message has been sent, and delivered. *)
Theorem lapicinit_configures h (s : hw D) : lapic (mpv s) <> 0 ->
  exists d', lapicinit h s = Ret tt h (set_chip d' s) /\
    lregs d' SVR = Z.lor ENABLE 63 /\ lregs d' TDCR = X1 /\ lregs d' TIMER = Z.lor PERIODIC 32 /\ lregs d' TICR = 10000000 /\
    lregs d' LINT0 = MASKED /\ lregs d' LINT1 = MASKED /\ lregs d' ERROR = 51 /\ lregs d' TPR = 0 /\
    messages d' = messages (chip s) ++ [(0, Z.lor (Z.lor BCAST INIT) LEVEL)] /\ iregs d' = iregs (chip s).
Proof.
  intros Hl. unfold lapicinit, mpvars. repeat kstep_base. rewrite (proj2 (Z.eqb_neq _ _) Hl). repeat kstep_base. do 6 lapic_step. lapic_step.
  match goal with |- context [when ?b] => destruct b end; cbn [when]; [lapic_step|rewrite mret_run]; repeat kstep_base; do 6 lapic_step.
  all: unfold getchip; repeat kstep_base; match goal with |- context [wait_delivery _ ?h ?s] => destruct (wait_delivery_run _ h s eq_refl) as (? & -> & []) end; cbn [chip set_chip] in *; lapic_step.
  all: eexists; split; [done|]; lapic_reads; split_and!; reflexivity.
Qed.

(** The messages that start a processor, and the warm reset vector. *)
Theorem lapicstartap_sends apicid addr h (s : hw D) : 0 <= apicid < 256 -> 0 <= addr < 2 ^ 20 ->
  exists d' m', lapicstartap apicid addr h s = Ret tt h (set_chip d' (set_mpv (set_mp_mem m' (mpv s)) s)) /\
    (forall x, ~ P2V 0x467 <= x < P2V 0x467 + 4 -> m' x = mp_mem (mpv s) x) /\ load32 m' (P2V 0x467) = Z.shiftl (Z.shiftr addr 4) 16 /\
    messages d' = messages (chip s) ++
      ((Z.shiftl apicid 24,.) <$> [Z.lor (Z.lor INIT LEVEL) ASSERT; Z.lor INIT LEVEL; Z.lor STARTUP (Z.shiftr addr 12); Z.lor STARTUP (Z.shiftr addr 12)]) /\
    iregs d' = iregs (chip s) /\ (forall i, i <> ICRHI -> lregs d' i = lregs (chip s) i) /\ (mem_ok (mp_mem (mpv s)) -> mem_ok m').
Proof.
  intros Hid Haddr.
  assert (u32 (Z.shiftl apicid 24) = Z.shiftl apicid 24) as Eid by (apply u32_id; rewrite Z.shiftl_mul_pow2 by lia; lia).
  assert (u32 (Z.lor STARTUP (Z.shiftr addr 12)) = Z.lor STARTUP (Z.shiftr addr 12)) as Est.
  { unfold u32. rewrite <- Z.land_ones, Z.land_lor_distr_l, !Z.land_ones by lia. rewrite !Z.mod_small; [done|rewrite Z.shiftr_div_pow2 by lia|done].
    split; [apply Z.div_pos; lia|apply Z.div_lt_upper_bound; lia]. }
  unfold lapicstartap, store16, microdelay. repeat kstep_base. do 2 lapic_step. cbn [send_startup]. unfold microdelay. repeat kstep_base. do 7 lapic_step.
  eexists _, _. split; [unfold set_chip, set_mpv, set_mp_mem; cbn; reflexivity|]. cbn [mp_mem set_mp_mem mpv set_mpv]. split_and!.
  - intros y Hy. unfold store_bytes. cbn [length le16]. change (P2V (Z.lor (Z.shiftl 64 4) 103)) with (P2V 0x467).
    do 2 (match goal with |- context [if ?b then _ else _] => destruct b eqn:?E end; [apply andb_true_iff in E as [?%Z.leb_le ?%Z.ltb_lt]; lia|clear E]). done.
  - set (w := u16 (Z.shiftr addr 4)). change (load32 _ _) with (of_le ([0; 0] ++ le16 w)). change (of_le ([0; 0] ++ le16 w)) with (0 + 256 * (0 + 256 * of_le (le16 w))).
    assert (0 <= addr / 2 ^ 4 < 2 ^ 16) by (split; [apply Z.div_pos; lia|apply Z.div_lt_upper_bound; lia]).
    rewrite of_le16. unfold w. rewrite Z.shiftl_mul_pow2, Z.shiftr_div_pow2 by lia. rewrite (u16_id (addr / 2 ^ 4)), u16_id by lia. lia.
  - lapic_reads. rewrite Eid, Est. cbn -[Z.shiftl Z.shiftr Z.lor messages]. rewrite <- !app_assoc. reflexivity.
  - by lapic_reads.
  - intros i Hi. lapic_reads. by rewrite !(proj2 (Z.eqb_neq _ _) Hi).
  - intros Hm. do 2 (apply store_bytes_ok; [|repeat constructor; apply byte_of_bound]). done.
Qed.

(** ** The I/O APIC *)

Lemma ioapicwrite_run r v h (s : hw D) : REG_TABLE <= r -> exists d', ioapicwrite r v h s = Ret tt h (set_chip d' s) /\
  (forall j, iregs d' j = if j =? r then u32 v else iregs (chip s) j) /\ lregs d' = lregs (chip s) /\ messages d' = messages (chip s).
Proof.
  intros Hr. unfold ioapicwrite, modchip. repeat kstep_base. eexists. split; [done|]. cbn [chip set_chip].
  destruct (ioapic_selects r (chip s)) as (E1 & E2 & E3 & E4). destruct (ioapic_writes (u32 v) (ioapic_select r (chip s))) as (W1 & W2 & W3); [by rewrite E1|].
  rewrite E1, E2 in W1. by rewrite W2, W3, E3, E4.
Qed.

Lemma ioapicread_run r h (s : hw D) : exists d', ioapicread r h s = Ret (iregs (chip s) r) h (set_chip d' s) /\ quiet (chip s) d'.
Proof.
  unfold ioapicread, modchip, getchip. repeat kstep_base. cbn [chip set_chip]. destruct (ioapic_selects r (chip s)) as (E1 & E2 & E3 & E4).
  pose proof (ioapic_reads (ioapic_select r (chip s))) as R. destruct (ioapic_load _) as [v d']. destruct R as (-> & R2 & R3 & R4). rewrite E1, E2.
  exists d'. split; [done|]. split; congruence.
Qed.

(** The two words of an entry that is masked, and of one that is routed. *)
Definition entry_is (d : D) (i lo hi : Z) : Prop := iregs d (REG_TABLE + 2 * i) = lo /\ iregs d (REG_TABLE + 2 * i + 1) = hi.
Definition entry_masked (d : D) (i : Z) : Prop := entry_is d i (Z.lor INT_DISABLED (T_IRQ0 + i)) 0.
Definition entry_routed (d : D) (i cpunum : Z) : Prop := entry_is d i (T_IRQ0 + i) (Z.shiftl cpunum 24).

Lemma masked_word i : 0 <= i < 256 -> u32 (Z.lor INT_DISABLED (T_IRQ0 + i)) = Z.lor INT_DISABLED (T_IRQ0 + i).
Proof. intros Hi. unfold u32, T_IRQ0. rewrite <- Z.land_ones, Z.land_lor_distr_l, !Z.land_ones by lia. by rewrite !Z.mod_small by (unfold INT_DISABLED; lia). Qed.

(** Two writes to entry [i]. *)
Lemma entry_write i lo hi h (s : hw D) : 0 <= i -> exists d', (ioapicwrite (REG_TABLE + 2 * i) lo;; ioapicwrite (REG_TABLE + 2 * i + 1) hi) h s = Ret tt h (set_chip d' s) /\
  entry_is d' i (u32 lo) (u32 hi) /\ (forall k a b, k <> i -> entry_is (chip s) k a b -> entry_is d' k a b) /\
  lregs d' = lregs (chip s) /\ messages d' = messages (chip s).
Proof.
  intros Hi. rewrite bind_unfold. destruct (ioapicwrite_run (REG_TABLE + 2 * i) lo h s) as (d1 & -> & A1 & A2 & A3); [unfold REG_TABLE; lia|].
  destruct (ioapicwrite_run (REG_TABLE + 2 * i + 1) hi h (set_chip d1 s)) as (d2 & -> & B1 & B2 & B3); [unfold REG_TABLE; lia|]. cbn [chip set_chip] in *.
  exists d2. split; [done|]. unfold entry_is. split_and!; [| | |congruence|congruence].
  - rewrite B1, A1, (proj2 (Z.eqb_neq _ _)), Z.eqb_refl by lia. done.
  - rewrite B1, Z.eqb_refl. done.
  - intros k a b Hk [Ha Hb]. rewrite !B1, !A1, !(proj2 (Z.eqb_neq _ _)) by lia. done.
Qed.

Lemma ioapicinit_loop_run n : forall i h (s : hw D), 0 <= i -> i + Z.of_nat n <= 256 -> exists d', ioapicinit_loop n i h s = Ret tt h (set_chip d' s) /\
  (forall k, i <= k < i + Z.of_nat n -> entry_masked d' k) /\ (forall k a b, k < i -> entry_is (chip s) k a b -> entry_is d' k a b) /\
  lregs d' = lregs (chip s) /\ messages d' = messages (chip s).
Proof.
  induction n as [|n IH]; intros i h s Hi Hn; cbn [ioapicinit_loop].
  { exists (chip s). split; [by destruct s|]. split_and!; [lia|done..]. }
  destruct (entry_write i (Z.lor INT_DISABLED (T_IRQ0 + i)) 0 h s Hi) as (d1 & H1 & E1 & E2 & E3 & E4).
  rewrite bind_unfold in H1. rewrite bind_unfold. destruct (ioapicwrite (REG_TABLE + 2 * i) _ h s) as [? h1 s1| | |]; try done.
  rewrite bind_unfold, H1. destruct (IH (i + 1) h (set_chip d1 s)) as (d2 & -> & F1 & F2 & F3 & F4); [lia..|]. cbn [chip set_chip] in *.
  exists d2. split; [done|]. split_and!; [| |congruence|congruence].
  - intros k Hk. destruct (decide (k = i)) as [->|]; [|apply F1; lia]. apply F2; [lia|]. rewrite masked_word in E1 by lia. exact E1.
  - intros k lo hi Hk Ha. apply F2; [lia|]. by apply E2; [lia|].
Qed.

Lemma ioapicenable_run irq cpunum h (s : hw D) : 0 <= irq < 256 -> 0 <= cpunum < 256 -> exists d', ioapicenable irq cpunum h s = Ret tt h (set_chip d' s) /\
  entry_routed d' irq cpunum /\ (forall k a b, k <> irq -> entry_is (chip s) k a b -> entry_is d' k a b) /\ lregs d' = lregs (chip s) /\ messages d' = messages (chip s).
Proof.
  intros Hi Hc. destruct (entry_write irq (T_IRQ0 + irq) (Z.shiftl cpunum 24) h s ltac:(lia)) as (d1 & H1 & E1 & E2).
  exists d1. split; [exact H1|]. split; [|done]. unfold entry_routed, T_IRQ0 in *. rewrite !u32_id in E1; [exact E1|rewrite Z.shiftl_mul_pow2 by lia; lia|lia].
Qed.

(** The number of the last entry, from the version register. *)
Definition last_entry (d : D) : Z := Z.land (Z.shiftr (iregs d REG_VER) 16) 0xFF.

Lemma ioapicinit_run h (s : hw D) : Z.shiftr (iregs (chip s) REG_ID) 24 = ioapicid (mpv s) -> exists d', ioapicinit h s = Ret tt h (set_chip d' s) /\
  (forall k, 0 <= k <= last_entry (chip s) -> entry_masked d' k) /\ lregs d' = lregs (chip s) /\ messages d' = messages (chip s).
Proof.
  intros Hid. unfold ioapicinit. rewrite bind_unfold. destruct (ioapicread_run REG_VER h s) as (d1 & -> & [Q1 Q2 Q3]). cbv zeta. fold (last_entry (chip s)).
  rewrite bind_unfold. destruct (ioapicread_run REG_ID h (set_chip d1 s)) as (d2 & -> & [R1 R2 R3]). unfold mpvars. repeat kstep_base. cbn [chip set_chip mpv] in *.
  rewrite Q3, Hid, Z.eqb_refl. cbn [negb when]. repeat kstep_base.
  assert (0 <= last_entry (chip s) < 256) as Hl by (unfold last_entry; change 0xFF with (Z.ones 8); rewrite Z.land_ones by lia; apply Z.mod_pos_bound; lia).
  destruct (ioapicinit_loop_run (Z.to_nat (last_entry (chip s) + 1)) 0 h (set_chip d2 s)) as (d3 & H3 & F1 & _ & F3 & F4); [lia..|]. cbn [chip set_chip] in *.
  exists d3. split; [exact H3|]. split_and!; [intros k Hk; apply F1; lia|congruence|congruence].
Qed.

Fixpoint enable_all (l : list (Z * Z)) : K (hw D) unit :=
  match l with
  | [] => mret ()
  | (irq, cpunum) :: l => ioapicenable irq cpunum;; enable_all l
  end.

Lemma enable_all_run l h : forall s : hw D, NoDup l.*1 -> Forall (fun x => 0 <= fst x < 256 /\ 0 <= snd x < 256) l ->
  exists d', enable_all l h s = Ret tt h (set_chip d' s) /\ (forall irq cpunum, (irq, cpunum) ∈ l -> entry_routed d' irq cpunum) /\
    (forall k lo hi, k ∉ l.*1 -> entry_is (chip s) k lo hi -> entry_is d' k lo hi) /\ lregs d' = lregs (chip s) /\ messages d' = messages (chip s).
Proof.
  induction l as [|[irq c] l IH]; intros s Hnd Hl; cbn [enable_all fmap list_fmap fst snd] in *.
  { exists (chip s). split; [by destruct s|]. split_and!; [intros ? ? []%not_elem_of_nil|done..]. }
  apply NoDup_cons in Hnd as [Hni Hnd]. apply Forall_cons in Hl as [[H1 H2] Hl]. cbn [fst snd] in *. rewrite bind_unfold.
  destruct (ioapicenable_run irq c h s H1 H2) as (d1 & -> & R1 & R2 & R3 & R4). destruct (IH (set_chip d1 s) Hnd Hl) as (d2 & -> & S1 & S2 & S3 & S4). cbn [chip set_chip] in *.
  exists d2. split; [done|]. split_and!; [| |congruence|congruence].
  - intros i x [[= -> ->]|Hx]%elem_of_cons; [|by apply S1]. by apply S2.
  - intros k lo hi [Hk1 Hk2]%not_elem_of_cons Hk. apply S2; [done|]. by apply R2.
Qed.

Lemma picinit_run h (s : hw D) : exists d', picinit h s = Ret tt h (set_chip d' s) /\ quiet (chip s) d'.
Proof.
  unfold picinit. rewrite bind_unfold. destruct (port_out_run (IO_PIC1 + 1) 0xFF h s) as (d1 & -> & Q1).
  destruct (port_out_run (IO_PIC2 + 1) 0xFF h (set_chip d1 s)) as (d2 & -> & Q2). exists d2. split; [done|]. by eapply quiet_trans.
Qed.

Lemma lapicid_run h (s : hw D) : lapic (mpv s) <> 0 -> exists d', lapicid h s = Ret (@cpu_id D _ _) h (set_chip d' s) /\ quiet (chip s) d'.
Proof.
  intros Hl. unfold lapicid, mpvars. repeat kstep_base. rewrite (proj2 (Z.eqb_neq _ _) Hl). pose proof (lapic_ident (chip s)) as Hid.
  unfold get_lapic, getchip, modchip. repeat kstep_base. rewrite Hid. pose proof (lapic_read ID (chip s)) as H.
  destruct (lapic_load ID (chip s)) as [v d']. exists d'. split; [done|]. destruct H as (? & ? & ?). by split.
Qed.

(** With a serial port, its interrupt goes to CPU 0 and a line is sent. *)
Lemma uartputs_run l h : forall s : hw D, uart (con s) <> 0 -> Forall (fun c => 0 <= c < 256) l ->
  uartputs l h s = Ret tt h (set_con (set_serial (serial (con s) ++ l) (con s)) s).
Proof.
  induction l as [|c l IH]; intros s Hu Hl; cbn [uartputs].
  { rewrite app_nil_r, mret_run. by destruct s as [? ? []]. }
  apply Forall_cons in Hl as [Hc Hl]. rewrite bind_unfold. unfold uartputc, getc_. rewrite bind_unfold, gets_run. cbn [get_part Has_con].
  rewrite (proj2 (Z.eqb_neq _ _) Hu). unfold modc. rewrite modify_run. cbn [get_part put_part Has_con]. rewrite IH by done.
  cbn [con set_con serial set_serial]. unfold u8. rewrite Z.mod_small, <- app_assoc by lia. done.
Qed.

Lemma uartinit_run h (s : hw D) : exists d' con', uartinit h s = Ret tt h (mkHw d' (mpv s) con') /\ lregs d' = lregs (chip s) /\ messages d' = messages (chip s) /\
  ((con' = con s /\ iregs d' = iregs (chip s)) \/
   (con' = set_serial (serial (con s) ++ str "xv6..." ++ [10]) (set_uart 1 (con s)) /\ entry_routed d' IRQ_COM1 0 /\
    forall k lo hi, k <> IRQ_COM1 -> entry_is (chip s) k lo hi -> entry_is d' k lo hi)).
Proof.
  unfold uartinit. repeat kstep_base. do 7 lapic_step.
  match goal with |- context [port_in ?p ?h ?s] => destruct (port_in_run p h s) as (v & d1 & -> & []) end. cbn [chip set_chip] in *. destruct (v =? 0xFF).
  { rewrite mret_run. eexists _, (con s). split; [reflexivity|]. split_and!; [congruence..|]. left. split; [done|congruence]. }
  unfold modc. repeat kstep_base. do 2 (match goal with |- context [port_in ?p ?h ?s] => destruct (port_in_run p h s) as (? & ? & -> & []) end; cbn [chip set_chip] in *; repeat kstep_base).
  match goal with |- context [ioapicenable ?i ?c ?h ?s] => destruct (ioapicenable_run i c h s) as (d2 & -> & R1 & R2 & R3 & R4); [done|done|] end. cbn [chip set_chip put_part get_part Has_con set_con mpv con] in *.
  rewrite uartputs_run; [|done|repeat constructor; done]. exists d2. eexists. split; [reflexivity|]. split_and!; [congruence..|].
  right. split; [done|]. split; [exact R1|]. intros k lo hi Hk [E1 E2]. apply R2; [done|]. by split; lapic_reads.
Qed.

(** After [ioapicinit] the drivers enable their interrupts: then exactly these
    are delivered, with the vector [T_IRQ0 + irq] that [trap] expects and to the
    processor asked for, and every other entry is masked. *)
Theorem ioapic_routes l h (s : hw D) : Z.shiftr (iregs (chip s) REG_ID) 24 = ioapicid (mpv s) ->
  NoDup l.*1 -> Forall (fun x => 0 <= fst x < 256 /\ 0 <= snd x < 256) l ->
  exists d', (ioapicinit;; enable_all l) h s = Ret tt h (set_chip d' s) /\
    (forall irq cpunum, (irq, cpunum) ∈ l -> entry_routed d' irq cpunum) /\
    (forall k, 0 <= k <= last_entry (chip s) -> k ∉ l.*1 -> entry_masked d' k) /\ lregs d' = lregs (chip s) /\ messages d' = messages (chip s).
Proof.
  intros Hid Hnd Hl. rewrite bind_unfold. destruct (ioapicinit_run h s Hid) as (d1 & -> & M1 & M2 & M3).
  destruct (enable_all_run l h (set_chip d1 s) Hnd Hl) as (d2 & -> & S1 & S2 & S3 & S4). cbn [chip set_chip] in *.
  exists d2. split; [done|]. split_and!; [done| |congruence|congruence]. intros k Hk Hn. by apply S2, M1.
Qed.
End chips.
