(* ===== verification/Rtc.v ===== *)
(** * The CMOS clock (second half of src/lapic.c, src/date.h)

    [cmostime] reads the date twice, in single registers, while the clock goes
    on.  The clock is hardware: [clock n r] is what register [r] holds at the
    [n]-th read. *)

From Stdlib Require Import ZArith Lia String.
From stdpp Require Import prelude numbers strings option gmap list.
From S2P Require Import Prelude Kernel Mem Gates Mp Sched Console Apic.

Record rtcdate : Type := mkDate {
  second : Z;
  minute : Z;
  hour : Z;
  day : Z;
  month : Z;
  year : Z }.

(** The bytes of a [struct rtcdate]. *)
Definition date_bytes (t : rtcdate) : list Z :=
  le32 (second t) ++ le32 (minute t) ++ le32 (hour t) ++ le32 (day t) ++ le32 (month t) ++ le32 (year t).

(** The clock: a register is selected at one port and read at the other. *)
Class Rtc (D : Type) `{!Ports D} (clock : nat -> Z -> Z) := {
  reads : D -> nat;
  rtc_reads : forall r d, let '(v, d') := inb CMOS_RETURN (outb CMOS_PORT r d) in v = clock (reads d) r /\ reads d' = S (reads d) }.

Section clock.
Context {D : Type} `{!Ports D}.

Definition cmos_read (reg : Z) : K (hw D) Z :=
  port_out CMOS_PORT reg;;
  microdelay 200;;
  port_in CMOS_RETURN.

Definition fill_rtcdate : K (hw D) rtcdate :=
  s ← cmos_read SECS;
  m ← cmos_read MINS;
  h ← cmos_read HOURS;
  d ← cmos_read DAY;
  mo ← cmos_read MONTH;
  y ← cmos_read YEAR;
  mret (mkDate s m h d mo y).

(** The [for(;;)] loop: the first of two readings that agree. *)
Fixpoint cmostime_loop (fuel : nat) : K (hw D) rtcdate :=
  match fuel with
  | O => spin
  | S fuel =>
      t1 ← fill_rtcdate;
      a ← cmos_read CMOS_STATA;
      if negb (Z.land a CMOS_UIP =? 0) then cmostime_loop fuel
      else
        t2 ← fill_rtcdate;
        if memcmp (bytes_ptr (date_bytes t1)) (bytes_ptr (date_bytes t2)) 24 =? 0 then mret t1
        else cmostime_loop fuel
  end.

(** [CONV] *)
Definition conv (x : Z) : Z := u32 (Z.shiftr x 4 * 10 + Z.land x 0xf).

Definition cmostime (fuel : nat) : K (hw D) rtcdate :=
  sb ← cmos_read CMOS_STATB;
  let bcd := Z.land sb (Z.shiftl 1 2) =? 0 in
  t1 ← cmostime_loop fuel;
  let t1 := if bcd then mkDate (conv (second t1)) (conv (minute t1)) (conv (hour t1)) (conv (day t1)) (conv (month t1)) (conv (year t1)) else t1 in
  mret (mkDate (second t1) (minute t1) (hour t1) (day t1) (month t1) (u32 (year t1 + 2000))).
End clock.

(** ** A clock that tells the time *)

(** Two decimal digits, in a byte as they are or as binary-coded decimal. *)
Definition coded (bcd : bool) (v : Z) : Z := if bcd then 16 * (v / 10) + v mod 10 else v.

Definition date_ok (t : rtcdate) : Prop :=
  0 <= second t < 100 /\ 0 <= minute t < 100 /\ 0 <= hour t < 100 /\ 0 <= day t < 100 /\ 0 <= month t < 100 /\ 0 <= year t < 100.

(** A clock that updates its registers.  Before read [n] it has begun [began n]
    updates and ended [ended n] of them; after [k] updates it shows [date k].
    Between two updates the registers hold the date; while one is going on they
    hold any bytes, and the update-in-progress bit is set (it may be set before
    as well).  Updates are a second apart, so that at most one meets the
    thirteen reads of a round. *)
Record ticks : Type := mkTicks {
  began : nat -> nat;
  ended : nat -> nat;
  date : nat -> rtcdate }.

Definition settled (c : ticks) (n : nat) : Prop := began c n = ended c n.

Record tells (clock : nat -> Z -> Z) (c : ticks) (bcd : bool) : Prop := {
  tl_ok : forall k, date_ok (date c k);
  tl_began : forall n, (began c n <= began c (S n))%nat;
  tl_ended : forall n, (ended c n <= ended c (S n))%nat;
  tl_order : forall n, (ended c n <= began c n)%nat;
  tl_byte : forall n r, 0 <= clock n r < 256;
  tl_secs : forall n, settled c n -> clock n SECS = coded bcd (second (date c (ended c n)));
  tl_mins : forall n, settled c n -> clock n MINS = coded bcd (minute (date c (ended c n)));
  tl_hours : forall n, settled c n -> clock n HOURS = coded bcd (hour (date c (ended c n)));
  tl_day : forall n, settled c n -> clock n DAY = coded bcd (day (date c (ended c n)));
  tl_month : forall n, settled c n -> clock n MONTH = coded bcd (month (date c (ended c n)));
  tl_year : forall n, settled c n -> clock n YEAR = coded bcd (year (date c (ended c n)));
  tl_uip : forall n, ~ settled c n -> Z.land (clock n CMOS_STATA) CMOS_UIP <> 0;
  tl_mode : forall n, Z.land (clock n CMOS_STATB) (Z.shiftl 1 2) = if bcd then 0 else 4;
  tl_rate : forall n, (began c (n + 12) <= S (ended c n))%nat }.

(** From read [N] on there is no update for two rounds, nor is one announced. *)
Definition still (clock : nat -> Z -> Z) (c : ticks) (N : nat) : Prop :=
  forall i, (N <= i < N + 26)%nat -> began c i = ended c N /\ ended c i = ended c N /\ Z.land (clock i CMOS_STATA) CMOS_UIP = 0.

Lemma digits_bound v : 0 <= v < 100 -> 0 <= v / 10 < 10 /\ 0 <= v mod 10 < 10.
Proof. intros. split; [split; [apply Z.div_pos; lia|apply Z.div_lt_upper_bound; lia]|apply Z.mod_pos_bound; lia]. Qed.

Lemma coded_bound bcd v : 0 <= v < 100 -> 0 <= coded bcd v < 256.
Proof. intros Hv. pose proof (digits_bound v Hv). unfold coded. destruct bcd; lia. Qed.

Lemma conv_coded v : 0 <= v < 100 -> conv (coded true v) = v.
Proof.
  intros Hv. pose proof (digits_bound v Hv) as [H1 H2]. unfold conv, coded. change 0xf with (Z.ones 4). rewrite Z.shiftr_div_pow2, Z.land_ones by lia.
  change (2 ^ 4) with 16. rewrite (Z.add_comm (16 * _)), (Z.mul_comm 16), Z.div_add, Z.mod_add, Z.div_small, Z.mod_small by lia.
  rewrite u32_id; [|lia]. rewrite (Z.div_mod v 10) at 3 by lia. lia.
Qed.

(** Two dates with equal bytes. *)
Lemma date_bytes_eq t1 t2 : Forall (fun v => 0 <= v < 256) [second t1; minute t1; hour t1; day t1; month t1; year t1] ->
  Forall (fun v => 0 <= v < 256) [second t2; minute t2; hour t2; day t2; month t2; year t2] ->
  memcmp (bytes_ptr (date_bytes t1)) (bytes_ptr (date_bytes t2)) 24 = 0 <-> t1 = t2.
Proof.
  intros H1 H2. rewrite memcmp_zero. split; [|by intros -> ? ?]. intros H. destruct t1 as [a1 b1 c1 d1 e1 f1], t2 as [a2 b2 c2 d2 e2 f2]. cbn [second minute hour day month year] in *.
  assert (forall v, 0 <= v < 256 -> byte_of v 0 = v) as Hb by (intros v Hv; rewrite byte_of_div by lia; cbn; rewrite Z.div_1_r; by apply Z.mod_small).
  rewrite !Forall_cons in H1, H2. destruct H1 as (? & ? & ? & ? & ? & ? & _), H2 as (? & ? & ? & ? & ? & ? & _).
  assert (byte_of a1 0 = byte_of a2 0) by exact (H 0 ltac:(lia)). assert (byte_of b1 0 = byte_of b2 0) by exact (H 4 ltac:(lia)).
  assert (byte_of c1 0 = byte_of c2 0) by exact (H 8 ltac:(lia)). assert (byte_of d1 0 = byte_of d2 0) by exact (H 12 ltac:(lia)).
  assert (byte_of e1 0 = byte_of e2 0) by exact (H 16 ltac:(lia)). assert (byte_of f1 0 = byte_of f2 0) by exact (H 20 ltac:(lia)).
  rewrite <- (Hb a1), <- (Hb b1), <- (Hb c1), <- (Hb d1), <- (Hb e1), <- (Hb f1) by done. f_equal; by rewrite <- Hb by done.
Qed.

Section reading.
Context {D : Type} `{!Ports D}.
Context (clock : nat -> Z -> Z) `{!Rtc D clock} (c : ticks) (bcd : bool) (T : tells clock c bcd).

Lemma cmos_read_run r h (s : hw D) : 0 <= r < 256 -> exists d', cmos_read r h s = Ret (clock (reads (chip s)) r) h (set_chip d' s) /\ reads d' = S (reads (chip s)).
Proof.
  intros Hr. unfold cmos_read, port_out, port_in, microdelay, modchip, getchip. repeat kstep_base. cbn [chip set_chip]. rewrite u8_id by lia.
  pose proof (rtc_reads r (chip s)) as H. destruct (inb _ _) as [v d']. destruct H as [-> H]. by exists d'.
Qed.

(** The date with its fields taken at six reads from [n] on. *)
Definition torn (n : nat) : rtcdate :=
  mkDate (clock n SECS) (clock (n + 1) MINS) (clock (n + 2) HOURS) (clock (n + 3) DAY) (clock (n + 4) MONTH) (clock (n + 5) YEAR).
Definition raw (t : rtcdate) : rtcdate :=
  mkDate (coded bcd (second t)) (coded bcd (minute t)) (coded bcd (hour t)) (coded bcd (day t)) (coded bcd (month t)) (coded bcd (year t)).

Lemma fill_run h (s : hw D) : exists d', fill_rtcdate h s = Ret (torn (reads (chip s))) h (set_chip d' s) /\ reads d' = (reads (chip s) + 6)%nat.
Proof.
  unfold fill_rtcdate, torn.
  destruct (cmos_read_run SECS h s) as (d1 & R1 & E1); [done|]. rewrite bind_unfold, R1.
  destruct (cmos_read_run MINS h (set_chip d1 s)) as (d2 & R2 & E2); [done|]. rewrite bind_unfold, R2.
  destruct (cmos_read_run HOURS h (set_chip d2 (set_chip d1 s))) as (d3 & R3 & E3); [done|]. rewrite bind_unfold, R3.
  destruct (cmos_read_run DAY h (set_chip d3 (set_chip d2 (set_chip d1 s)))) as (d4 & R4 & E4); [done|]. rewrite bind_unfold, R4.
  destruct (cmos_read_run MONTH h (set_chip d4 (set_chip d3 (set_chip d2 (set_chip d1 s))))) as (d5 & R5 & E5); [done|]. rewrite bind_unfold, R5.
  destruct (cmos_read_run YEAR h (set_chip d5 (set_chip d4 (set_chip d3 (set_chip d2 (set_chip d1 s)))))) as (d6 & R6 & E6); [done|]. rewrite bind_unfold, R6, mret_run.
  cbn [chip set_chip] in *. exists d6. split; [|lia]. rewrite E5, E4, E3, E2, E1. do 2 f_equal; (f_equal; lia).
Qed.

Lemma began_le i j : (i <= j)%nat -> (began c i <= began c j)%nat.
Proof. induction 1 as [|j _ IH]; [done|]. pose proof (tl_began _ _ _ T j). lia. Qed.

Lemma ended_le i j : (i <= j)%nat -> (ended c i <= ended c j)%nat.
Proof. induction 1 as [|j _ IH]; [done|]. pose proof (tl_ended _ _ _ T j). lia. Qed.

Lemma torn_raw n k : (forall i, (n <= i < n + 6)%nat -> settled c i /\ ended c i = k) -> torn n = raw (date c k).
Proof.
  intros H. pose proof (H n ltac:(lia)) as [? E0]. destruct (H (n + 1)%nat ltac:(lia)) as [? E1], (H (n + 2)%nat ltac:(lia)) as [? E2],
    (H (n + 3)%nat ltac:(lia)) as [? E3], (H (n + 4)%nat ltac:(lia)) as [? E4], (H (n + 5)%nat ltac:(lia)) as [? E5].
  unfold torn, raw. by rewrite (tl_secs _ _ _ T), (tl_mins _ _ _ T), (tl_hours _ _ _ T), (tl_day _ _ _ T), (tl_month _ _ _ T), (tl_year _ _ _ T),
    E0, E1, E2, E3, E4, E5 by done.
Qed.

Lemma torn_bytes n : Forall (fun v => 0 <= v < 256) [second (torn n); minute (torn n); hour (torn n); day (torn n); month (torn n); year (torn n)].
Proof. unfold torn. cbn [second minute hour day month year]. repeat (apply Forall_cons; split; [apply (tl_byte _ _ _ T)|]). by apply Forall_nil. Qed.

(** With the bit clear between two readings, the one update that may meet the
    round is over before the bit is read, or begins after it: one of the two
    readings is whole, and so are both when they agree. *)
Lemma agree n : Z.land (clock (n + 6)%nat CMOS_STATA) CMOS_UIP = 0 -> torn n = torn (n + 7) ->
  exists m, (n <= m <= n + 7)%nat /\ settled c m /\ torn n = raw (date c (ended c m)).
Proof.
  intros Hu Heq. assert (settled c (n + 6)) as Hq by (unfold settled; destruct (decide (began c (n + 6) = ended c (n + 6))%nat); [done|]; by destruct (tl_uip _ _ _ T (n + 6))).
  unfold settled in Hq. pose proof (tl_rate _ _ _ T n) as Hr. destruct (decide (ended c (n + 6) = ended c n)%nat) as [He|He].
  - assert (forall i, (n <= i < n + 6)%nat -> settled c i /\ ended c i = ended c n) as H.
    { intros i Hi. unfold settled. pose proof (began_le i (n + 6)). pose proof (ended_le n i). pose proof (tl_order _ _ _ T i). lia. }
    exists n. split; [lia|]. split; [apply H; lia|]. by apply torn_raw.
  - assert (forall i, (n + 7 <= i < n + 7 + 6)%nat -> settled c i /\ ended c i = ended c (n + 7)) as H.
    { intros i Hi. unfold settled. pose proof (began_le i (n + 12)). pose proof (ended_le (n + 6) i). pose proof (ended_le (n + 6) (n + 7)).
      pose proof (ended_le n (n + 6)). pose proof (tl_order _ _ _ T i). pose proof (ended_le (n + 7) i). lia. }
    exists (n + 7)%nat. split; [lia|]. split; [apply H; lia|]. rewrite Heq. by apply torn_raw.
Qed.

Lemma cmostime_loop_run N (HN : still clock c N) fuel : forall h (s : hw D), (reads (chip s) < N + 13)%nat -> (N < reads (chip s) + fuel)%nat -> (0 < fuel)%nat ->
  exists n d', cmostime_loop fuel h s = Ret (raw (date c (ended c n))) h (set_chip d' s) /\ (reads (chip s) <= n < N + 20)%nat /\ settled c n.
Proof.
  induction fuel as [|fuel IH]; intros h s H1 H2 H0; [lia|]. cbn [cmostime_loop]. destruct (fill_run h s) as (d1 & R1 & E1). rewrite bind_unfold, R1. set (n := reads (chip s)) in *.
  destruct (cmos_read_run CMOS_STATA h (set_chip d1 s)) as (d2 & R2 & E2); [done|]. rewrite bind_unfold, R2. cbn [chip set_chip] in *. rewrite E1 in *.
  assert (n < N -> forall d, n + 7 <= reads d -> reads d < N + 13 ->
    exists m d', cmostime_loop fuel h (set_chip d s) = Ret (raw (date c (ended c m))) h (set_chip d' s) /\ n <= m < N + 20 /\ settled c m)%nat as Hnext.
  { intros Hn d Hd1 Hd2. destruct (IH h (set_chip d s)) as (m & d' & Hm1 & Hm2 & Hm3); cbn [chip set_chip] in *; [lia..|]. exists m, d'. split_and!; [exact Hm1|lia..|done]. }
  destruct (Z.eqb_spec (Z.land (clock (n + 6) CMOS_STATA) CMOS_UIP) 0) as [Ha|Ha]; cbn [negb].
  2: { assert (n < N)%nat by (destruct (decide (n < N)%nat); [done|]; destruct Ha; apply (HN (n + 6)%nat); lia). apply (Hnext ltac:(done) d2); lia. }
  destruct (fill_run h (set_chip d2 (set_chip d1 s))) as (d3 & R3 & E3). rewrite bind_unfold, R3. cbn [chip set_chip] in *. rewrite E2 in *. replace (S (n + 6)) with (n + 7)%nat in * by lia.
  destruct (Z.eqb_spec (memcmp (bytes_ptr (date_bytes (torn n))) (bytes_ptr (date_bytes (torn (n + 7)))) 24) 0) as [Hm|Hm].
  - apply date_bytes_eq in Hm; [|apply torn_bytes..]. destruct (agree n Ha Hm) as (m & Hmn & Hq & ->). rewrite mret_run. exists m, d3. split; [done|]. split; [lia|done].
  - assert (n < N)%nat as Hlt; [|by apply (Hnext Hlt d3); lia]. destruct (decide (n < N)%nat); [done|]. destruct Hm. apply date_bytes_eq; [apply torn_bytes..|].
    transitivity (raw (date c (ended c N))); [|symmetry]; apply torn_raw; intros i Hi; destruct (HN i ltac:(lia)) as (? & ? & _); unfold settled; split; congruence.
Qed.
End reading.

(** C36: [cmostime] returns a date that the clock has shown between two updates
    while it was running, with the four digits of the year, although the
    registers hold arbitrary bytes during an update: never a mixture of two
    dates, nor bytes of an update.  If there is no update for 26 reads from
    read [N] on, it returns then at the latest, after at most as many rounds
    as there are reads. *)
Theorem cmostime_snapshot {D} `{!Ports D} clock `{!Rtc D clock} c bcd N fuel h (s : hw D) :
  tells clock c bcd -> still clock c N -> (reads (chip s) < N)%nat -> (N <= fuel)%nat ->
  exists n d', (reads (chip s) < n < N + 20)%nat /\ settled c n /\
    let t := date c (ended c n) in cmostime fuel h s = Ret (mkDate (second t) (minute t) (hour t) (day t) (month t) (2000 + year t)) h (set_chip d' s).
Proof.
  intros T HN H1 H2. unfold cmostime. destruct (cmos_read_run clock CMOS_STATB h s) as (d1 & R1 & E1); [done|]. rewrite bind_unfold, R1, (tl_mode _ _ _ T). cbv zeta.
  destruct (cmostime_loop_run clock c bcd T N HN fuel h (set_chip d1 s)) as (n & d2 & R2 & Hn & Hq); cbn [chip set_chip] in *; [lia..|].
  exists n, d2. split; [lia|]. split; [done|]. rewrite bind_unfold, R2. destruct (tl_ok _ _ _ T (ended c n)) as (? & ? & ? & ? & ? & ?).
  destruct bcd; cbn [Z.eqb]; rewrite mret_run; cbn [raw second minute hour day month year]; rewrite ?conv_coded by done; cbn [coded]; rewrite u32_id by lia; by rewrite (Z.add_comm 2000).
Qed.

(** ** An example: the year ends during the first reading

    The update goes on from read 3 to read 8, over the end of the first reading
    and the bit; its registers read as 255. *)

Definition ex_ticks : ticks := mkTicks (fun n => if (n <? 3)%nat then 0 else 1)%nat (fun n => if (n <? 9)%nat then 0 else 1)%nat
  (fun k => if (k =? 0)%nat then mkDate 59 59 23 31 12 25 else mkDate 0 0 0 1 1 26).
Definition ex_regs (t : rtcdate) (uip : Z) (r : Z) : Z :=
  if r =? SECS then coded true (second t) else if r =? MINS then coded true (minute t) else if r =? HOURS then coded true (hour t)
  else if r =? DAY then coded true (day t) else if r =? MONTH then coded true (month t) else if r =? YEAR then coded true (year t)
  else if r =? CMOS_STATA then uip else if r =? CMOS_STATB then 2 else 0.
Definition ex_clock (n : nat) (r : Z) : Z :=
  if ((3 <=? n) && (n <? 9))%nat then if r =? CMOS_STATA then 0x80 else if r =? CMOS_STATB then 2 else 255
  else ex_regs (date ex_ticks (ended ex_ticks n)) 0 r.

(** The selected register and the number of reads. *)
#[local] Instance ex_ports : Ports (Z * nat) := {|
  inb p d := if p =? CMOS_RETURN then (ex_clock (snd d) (fst d), (fst d, S (snd d))) else (0, d);
  outb p v d := if p =? CMOS_PORT then (v, snd d) else d;
  lapic_load _ d := (0, d);
  lapic_store _ _ d := d;
  ioapic_select _ d := d;
  ioapic_load d := (0, d);
  ioapic_store _ d := d |}.
#[local, refine] Instance ex_rtc : Rtc (Z * nat) ex_clock := {| reads := snd |}.
Proof. by intros r [? n]. Defined.

Lemma ex_tells : tells ex_clock ex_ticks true.
Proof.
  assert (forall n, (n < 3 \/ 3 <= n < 9 \/ 9 <= n)%nat) as Hn by lia.
  assert (forall n, (n < 3)%nat -> began ex_ticks n = 0%nat /\ ended ex_ticks n = 0%nat) as A.
  { intros n H. cbn [began ended ex_ticks]. by rewrite !(proj2 (Nat.ltb_lt n _)) by lia. }
  assert (forall n, (3 <= n < 9)%nat -> began ex_ticks n = 1%nat /\ ended ex_ticks n = 0%nat) as B.
  { intros n H. cbn [began ended ex_ticks]. by rewrite (proj2 (Nat.ltb_ge n 3)), (proj2 (Nat.ltb_lt n 9)) by lia. }
  assert (forall n, (9 <= n)%nat -> began ex_ticks n = 1%nat /\ ended ex_ticks n = 1%nat) as C.
  { intros n H. cbn [began ended ex_ticks]. by rewrite !(proj2 (Nat.ltb_ge n _)) by lia. }
  assert (forall n, ended ex_ticks n <= began ex_ticks n <= 1)%nat as E.
  { intros n. destruct (Hn n) as [H|[H|H]]; [destruct (A n H)|destruct (B n H)|destruct (C n H)]; lia. }
  assert (forall n, settled ex_ticks n -> ex_clock n = ex_regs (date ex_ticks (ended ex_ticks n)) 0) as Q.
  { intros n Hq. unfold ex_clock. unfold settled in Hq. destruct (Hn n) as [H|[H|H]]; [|destruct (B n H); lia|].
    - by rewrite (proj2 (Nat.leb_gt 3 n)) by lia.
    - by rewrite (proj2 (Nat.ltb_ge n 9)), andb_false_r by lia. }
  split; try (intros n Hq; by rewrite (Q n Hq)).
  - intros [|k]; unfold date_ok; cbn; lia.
  - intros n. cbn [began ended ex_ticks]. destruct (Nat.ltb_spec n 3), (Nat.ltb_spec (S n) 3); lia.
  - intros n. cbn [began ended ex_ticks]. destruct (Nat.ltb_spec n 9), (Nat.ltb_spec (S n) 9); lia.
  - intros n. apply E.
  - intros n r. unfold ex_clock, ex_regs. destruct (_ && _)%bool; [repeat case_match; lia|].
    destruct (ended ex_ticks n); repeat case_match; by vm_compute.
  - intros n Hq. unfold settled in Hq. destruct (Hn n) as [H|[H|H]]; [destruct (A n H); lia| |destruct (C n H); lia].
    unfold ex_clock. by rewrite (proj2 (Nat.leb_le 3 n)), (proj2 (Nat.ltb_lt n 9)) by lia.
  - intros n. unfold ex_clock, ex_regs. by destruct (_ && _)%bool.
  - intros n. pose proof (E n). pose proof (E (n + 12)%nat). lia.
Qed.

Lemma cmostime_snapshot_witness : exists n d', (0 < n < 29)%nat /\ settled ex_ticks n /\ let t := date ex_ticks (ended ex_ticks n) in
  cmostime 9 [] (mkHw (0, 0%nat) mp_start (mkConsole 0 0 (fun _ => 0) 0 0 0 [] [] [] 0 [] 0 0 0)) =
  Ret (mkDate (second t) (minute t) (hour t) (day t) (month t) (2000 + year t)) [] d'.
Proof.
  destruct (cmostime_snapshot ex_clock ex_ticks true 9 9 [] (mkHw (0, 0%nat) mp_start (mkConsole 0 0 (fun _ => 0) 0 0 0 [] [] [] 0 [] 0 0 0))) as (n & d' & Hn & Hq & H).
  - exact ex_tells.
  - intros i Hi. cbn [began ended ex_ticks]. unfold ex_clock. rewrite (proj2 (Nat.ltb_ge i 3)), (proj2 (Nat.ltb_ge i 9)), andb_false_r by lia. done.
  - cbn. lia.
  - lia.
  - exists n. eexists. split; [exact Hn|]. split; [exact Hq|exact H].
Defined.
