(* ===== verification/Kbd.v ===== *)
(** * The keyboard (src/kbd.h, src/kbd.c)

    Scan codes become characters.  The controller's output buffer is the list
    of the scan codes that have not been read; a table with designated entries
    is a list followed by pairs of an index and an entry. *)

From Stdlib Require Import ZArith Lia String.
From stdpp Require Import prelude numbers strings option list.
From S2P Require Import Prelude Kernel Mem Sched Console.

Definition SHIFT : Z := 1.
Definition CTL : Z := 2.
Definition ALT : Z := 4.
Definition CAPSLOCK : Z := 8.
Definition NUMLOCK : Z := 16.
Definition SCROLLLOCK : Z := 32.
Definition E0ESC : Z := 64.

(** [uchar table[256]] *)
Definition entry (l : list Z) (d : list (Z * Z)) (i : Z) : Z :=
  match list_find (fun x => x.1 = i) d with
  | Some (_, (_, v)) => v
  | None => nth (Z.to_nat i) l 0
  end.

Definition shiftcode (i : Z) : Z :=
  entry [] [(0x1D, CTL); (0x2A, SHIFT); (0x36, SHIFT); (0x38, ALT); (0x9D, CTL); (0xB8, ALT)] i.

Definition togglecode (i : Z) : Z :=
  entry [] [(0x3A, CAPSLOCK); (0x45, NUMLOCK); (0x46, SCROLLLOCK)] i.

(** [KEY_UP], [KEY_DN], ... *)
Definition keypad (enter div : Z) : list (Z * Z) :=
  [(0x9C, enter); (0xB5, div);
   (0xC8, 0xE2); (0xD0, 0xE3);
   (0xC9, 0xE6); (0xD1, 0xE7);
   (0xCB, 0xE4); (0xCD, 0xE5);
   (0x97, 0xE0); (0xCF, 0xE1);
   (0xD2, 0xE8); (0xD3, 0xE9)].

Definition normalmap (i : Z) : Z :=
  entry [0; 27; 49; 50; 51; 52; 53; 54;
         55; 56; 57; 48; 45; 61; 8; 9;
         113; 119; 101; 114; 116; 121; 117; 105;
         111; 112; 91; 93; 10; 0; 97; 115;
         100; 102; 103; 104; 106; 107; 108; 59;
         39; 96; 0; 92; 122; 120; 99; 118;
         98; 110; 109; 44; 46; 47; 0; 42;
         0; 32; 0; 0; 0; 0; 0; 0;
         0; 0; 0; 0; 0; 0; 0; 55;
         56; 57; 45; 52; 53; 54; 43; 49;
         50; 51; 48; 46; 0; 0; 0; 0]
        (keypad 10 47) i.

Definition shiftmap (i : Z) : Z :=
  entry [0; 27; 33; 64; 35; 36; 37; 94;
         38; 42; 40; 41; 95; 43; 8; 9;
         81; 87; 69; 82; 84; 89; 85; 73;
         79; 80; 123; 125; 10; 0; 65; 83;
         68; 70; 71; 72; 74; 75; 76; 58;
         34; 126; 0; 124; 90; 88; 67; 86;
         66; 78; 77; 60; 62; 63; 0; 42;
         0; 32; 0; 0; 0; 0; 0; 0;
         0; 0; 0; 0; 0; 0; 0; 55;
         56; 57; 45; 52; 53; 54; 43; 49;
         50; 51; 48; 46; 0; 0; 0; 0]
        (keypad 10 47) i.

Definition ctlmap (i : Z) : Z :=
  entry [0; 0; 0; 0; 0; 0; 0; 0;
         0; 0; 0; 0; 0; 0; 0; 0;
         17; 23; 5; 18; 20; 25; 21; 9;
         15; 16; 0; 0; 13; 0; 1; 19;
         4; 6; 7; 8; 10; 11; 12; 0;
         0; 0; 0; 28; 26; 24; 3; 22;
         2; 14; 13; 0; 0; u8 (ctl 47); 0; 0]
        (keypad 13 (u8 (ctl 47))) i.

(** [kbdgetc] on the scan code [data], with [shift] its static variable. *)
Definition kbd_step (shift data : Z) : Z * Z :=
  if data =? 0xE0 then (Z.lor shift E0ESC, 0)
  else if negb (Z.land data 0x80 =? 0) then
    let data := if negb (Z.land shift E0ESC =? 0) then data else Z.land data 0x7F in
    (Z.land shift (Z.lnot (Z.lor (shiftcode data) E0ESC)), 0)
  else
    let '(data, shift) :=
      if negb (Z.land shift E0ESC =? 0)
      then (Z.lor data 0x80, Z.land shift (Z.lnot E0ESC)) else (data, shift) in
    let shift := Z.lor shift (shiftcode data) in
    let shift := Z.lxor shift (togglecode data) in
    let sel := Z.land shift (Z.lor CTL SHIFT) in
    let c := if sel =? 0 then normalmap data else if sel =? 1 then shiftmap data else ctlmap data in
    let c := if negb (Z.land shift CAPSLOCK =? 0) then
               if (97 <=? c) && (c <=? 122) then c + (65 - 97)
               else if (65 <=? c) && (c <=? 90) then c + (97 - 65) else c
             else c in
    (shift, c).

Section kbd.
Context {S : Type} `{!Has console S, !Has pstate S}.

Definition kbdgetc : K S Z :=
  k ← getc_;
  match kbd_in k with
  | [] => mret (-1)
  | data :: l =>
      modc (set_kbd_in l);;
      let '(shift, c) := kbd_step (kbd_shift k) data in
      modc (set_kbd_shift shift);;
      mret c
  end.

(** Every call of [kbdgetc] but the last takes a scan code. *)
Definition kbdintr (stacks : S -> mem) : K S unit :=
  k ← getc_;
  consoleintr stacks (Datatypes.S (length (kbd_in k))) kbdgetc.
End kbd.
