(* ===== verification/Kst.v ===== *)
(** * The state of the kernel (src/file.h, the global variables of src/*.c)

    The components of the other files put together: the log with the buffer
    cache, the disk and the process table below it, physical memory, the inode
    cache, the file table, pipes, the console, the clock and the mailboxes.
    Code of a component runs here through [lift]. *)

From Stdlib Require Import ZArith Lia String.
From stdpp Require Import prelude numbers strings option gmap list.
From S2P Require Import Prelude Kernel Mem Kalloc Sched Mailbox Sleeplock Pipe Bio Log Console.

Definition NINODE : nat := 50.
Definition NFILE : nat := 100.
Definition NDEV : Z := 10.
Definition ROOTDEV : Z := 1.
Definition ROOTINO : Z := 1.
Definition NDIRECT : Z := 12.
Definition NINDIRECT : Z := 128.
Definition MAXFILE : Z := NDIRECT + NINDIRECT.
Definition DIRSIZ : Z := 14.
Definition T_DIR : Z := 1.
Definition T_FILE : Z := 2.
Definition T_DEV : Z := 3.
Definition CONSOLE : Z := 1.

(** [struct inode]; a pointer to one is its index in [icache.inode]. *)
Record inode : Type := mkInode {
  i_dev : Z;
  i_inum : Z;
  i_ref : Z;
  i_lock : sleeplock;
  i_valid : Z;
  i_type : Z;
  i_major : Z;
  i_minor : Z;
  i_nlink : Z;
  i_size : Z;
  i_addrs : list Z }.

Definition inode0 : inode := mkInode 0 0 0 initsleeplock 0 0 0 0 0 0 (replicate 13 0).

(** [struct file]; a pointer to one is its index in [ftable.file].  The address
    of a pipe is the one [kalloc] returned. *)
Inductive ftype : Type := FD_NONE | FD_PIPE | FD_INODE.

#[export] Instance ftype_eq_dec : EqDecision ftype.
Proof. solve_decision. Defined.

Record file : Type := mkFile {
  f_type : ftype;
  f_ref : Z;
  f_readable : Z;
  f_writable : Z;
  f_pipe : Z;
  f_ip : nat;
  f_off : Z }.

Definition file0 : file := mkFile FD_NONE 0 0 0 0 0 0.

(** The functions stored in [devsw]: only the console registers any. *)
Inductive driver : Type := ConsoleDriver.

Record kst : Type := mkKst {
  k_lst : lst;
  k_mem : kmstate;
  k_sb : superblock;
  k_icache : list inode;
  k_ftable : list file;
  k_pipes : Z -> pipe;
  k_devsw : list (option driver);
  k_cons : console;
  k_ticks : Z;
  k_mail : list mailbox }.

Definition set_k_lst v s := mkKst v (k_mem s) (k_sb s) (k_icache s) (k_ftable s) (k_pipes s) (k_devsw s) (k_cons s) (k_ticks s) (k_mail s).
Definition set_k_mem v s := mkKst (k_lst s) v (k_sb s) (k_icache s) (k_ftable s) (k_pipes s) (k_devsw s) (k_cons s) (k_ticks s) (k_mail s).
Definition set_k_sb v s := mkKst (k_lst s) (k_mem s) v (k_icache s) (k_ftable s) (k_pipes s) (k_devsw s) (k_cons s) (k_ticks s) (k_mail s).
Definition set_k_icache v s := mkKst (k_lst s) (k_mem s) (k_sb s) v (k_ftable s) (k_pipes s) (k_devsw s) (k_cons s) (k_ticks s) (k_mail s).
Definition set_k_ftable v s := mkKst (k_lst s) (k_mem s) (k_sb s) (k_icache s) v (k_pipes s) (k_devsw s) (k_cons s) (k_ticks s) (k_mail s).
Definition set_k_pipes v s := mkKst (k_lst s) (k_mem s) (k_sb s) (k_icache s) (k_ftable s) v (k_devsw s) (k_cons s) (k_ticks s) (k_mail s).
Definition set_k_devsw v s := mkKst (k_lst s) (k_mem s) (k_sb s) (k_icache s) (k_ftable s) (k_pipes s) v (k_cons s) (k_ticks s) (k_mail s).
Definition set_k_cons v s := mkKst (k_lst s) (k_mem s) (k_sb s) (k_icache s) (k_ftable s) (k_pipes s) (k_devsw s) v (k_ticks s) (k_mail s).
Definition set_k_ticks v s := mkKst (k_lst s) (k_mem s) (k_sb s) (k_icache s) (k_ftable s) (k_pipes s) (k_devsw s) (k_cons s) v (k_mail s).
Definition set_k_mail v s := mkKst (k_lst s) (k_mem s) (k_sb s) (k_icache s) (k_ftable s) (k_pipes s) (k_devsw s) (k_cons s) (k_ticks s) v.

#[export, refine] Instance Has_k_lst : Has lst kst := {| get_part := k_lst; put_part := set_k_lst |}.
Proof. all: by intros; destruct s. Defined.
#[export, refine] Instance Has_k_mem : Has kmstate kst := {| get_part := k_mem; put_part := set_k_mem |}.
Proof. all: by intros; destruct s. Defined.
#[export, refine] Instance Has_k_cons : Has console kst := {| get_part := k_cons; put_part := set_k_cons |}.
Proof. all: by intros; destruct s. Defined.
#[export] Instance Has_k_table : Has pstate kst := Has_trans Has_ltable Has_k_lst.
#[export, refine] Instance Has_k_mail : Has mstate kst :=
  {| get_part := fun s => mkMstate (k_mail s) (get_part s);
     put_part := fun m s => set_k_mail (mailboxes m) (put_part (mprocs m) s) |}.
Proof.
  - intros [mb t] s. cbn. done.
  - intros [[? []] ? ? ? ? ? ? ? ? ?]. cbn. done.
  - done.
Defined.

(** ** Blocks *)

Definition kbread (dev b : Z) : K kst nat := lift (lbread dev b).
Definition kbrelse (i : nat) : K kst unit := lift (lbrelse i).
Definition kdata (i : nat) : K kst block := lift (ldata i).
Definition kset (i : nat) (d : block) : K kst unit := lift (lset i d).
Definition klog_write (i : nat) : K kst unit := lift (log_write i).
Definition kbegin_op : K kst unit := lift (begin_op llog put_log).
Definition kend_op : K kst unit := lift end_op.

(** ** The entries of the two tables *)

Definition get_ip (i : nat) (s : kst) : inode := default inode0 (k_icache s !! i).
Definition upd_ip (i : nat) (f : inode -> inode) (s : kst) : kst := set_k_icache (alter f i (k_icache s)) s.
Definition ip_ (i : nat) : K kst inode := gets (get_ip i).
Definition mod_ip (i : nat) (f : inode -> inode) : K kst unit := modify (upd_ip i f).

Definition get_f (i : nat) (s : kst) : file := default file0 (k_ftable s !! i).
Definition file_ (i : nat) : K kst file := gets (get_f i).
Definition mod_f (i : nat) (f : file -> file) : K kst unit :=
  modify (fun s => set_k_ftable (alter f i (k_ftable s)) s).

Definition get_pipe (a : Z) (s : kst) : pipe := k_pipes s a.
Definition put_pipe (a : Z) (p : pipe) (s : kst) : kst :=
  set_k_pipes (fun b => if b =? a then p else k_pipes s b) s.

(** The fields of an inode. *)
Definition set_i_id dv n ip := mkInode dv n (i_ref ip) (i_lock ip) (i_valid ip) (i_type ip) (i_major ip) (i_minor ip) (i_nlink ip) (i_size ip) (i_addrs ip).
Definition set_i_ref v ip := mkInode (i_dev ip) (i_inum ip) v (i_lock ip) (i_valid ip) (i_type ip) (i_major ip) (i_minor ip) (i_nlink ip) (i_size ip) (i_addrs ip).
Definition set_i_lock v ip := mkInode (i_dev ip) (i_inum ip) (i_ref ip) v (i_valid ip) (i_type ip) (i_major ip) (i_minor ip) (i_nlink ip) (i_size ip) (i_addrs ip).
Definition set_i_valid v ip := mkInode (i_dev ip) (i_inum ip) (i_ref ip) (i_lock ip) v (i_type ip) (i_major ip) (i_minor ip) (i_nlink ip) (i_size ip) (i_addrs ip).
Definition set_i_type v ip := mkInode (i_dev ip) (i_inum ip) (i_ref ip) (i_lock ip) (i_valid ip) v (i_major ip) (i_minor ip) (i_nlink ip) (i_size ip) (i_addrs ip).
Definition set_i_majmin v w ip := mkInode (i_dev ip) (i_inum ip) (i_ref ip) (i_lock ip) (i_valid ip) (i_type ip) v w (i_nlink ip) (i_size ip) (i_addrs ip).
Definition set_i_nlink v ip := mkInode (i_dev ip) (i_inum ip) (i_ref ip) (i_lock ip) (i_valid ip) (i_type ip) (i_major ip) (i_minor ip) v (i_size ip) (i_addrs ip).
Definition set_i_size v ip := mkInode (i_dev ip) (i_inum ip) (i_ref ip) (i_lock ip) (i_valid ip) (i_type ip) (i_major ip) (i_minor ip) (i_nlink ip) v (i_addrs ip).
Definition set_i_addrs v ip := mkInode (i_dev ip) (i_inum ip) (i_ref ip) (i_lock ip) (i_valid ip) (i_type ip) (i_major ip) (i_minor ip) (i_nlink ip) (i_size ip) v.

(** The fields of a file. *)
Definition set_f_ref v f := mkFile (f_type f) v (f_readable f) (f_writable f) (f_pipe f) (f_ip f) (f_off f).
Definition set_f_type v f := mkFile v (f_ref f) (f_readable f) (f_writable f) (f_pipe f) (f_ip f) (f_off f).
Definition set_f_mode r w f := mkFile (f_type f) (f_ref f) r w (f_pipe f) (f_ip f) (f_off f).
Definition set_f_pipe v f := mkFile (f_type f) (f_ref f) (f_readable f) (f_writable f) v (f_ip f) (f_off f).
Definition set_f_ip v f := mkFile (f_type f) (f_ref f) (f_readable f) (f_writable f) (f_pipe f) v (f_off f).
Definition set_f_off v f := mkFile (f_type f) (f_ref f) (f_readable f) (f_writable f) (f_pipe f) (f_ip f) v.

(** The sleep lock of inode [i]. *)
Definition ilock_of (i : nat) (s : kst) : sleeplock := i_lock (get_ip i s).
Definition put_ilock (i : nat) (l : sleeplock) (s : kst) : kst := upd_ip i (set_i_lock l) s.
Definition acquire_inode (i : nat) : K kst unit :=
  acquiresleep (ilock_of i) (put_ilock i) (ChSleepInode i) (LSleepInode i).
Definition release_inode (i : nat) : K kst unit := releasesleep (put_ilock i) (ChSleepInode i) (LSleepInode i).
Definition holding_inode (i : nat) : K kst bool := holdingsleep (ilock_of i) (LSleepInode i).
