(* ===== verification/Inode.v ===== *)
(** * Blocks and inodes (src/fs.c, first half; src/fs.h)

    The block allocator, the inode cache and the block map of an inode, on the
    state of the kernel. *)

From Stdlib Require Import ZArith Lia String.
From stdpp Require Import prelude numbers strings option gmap list.
From S2P Require Import Prelude Kernel Mem Sched Sleeplock Bio Log Console Kst.

Definition IPB : Z := 8.
Definition IBLOCK (i : Z) (sb : superblock) : Z := i / IPB + sb_inodestart sb.
Definition BPB : Z := BSIZE * 8.
Definition BBLOCK (b : Z) (sb : superblock) : Z := b / BPB + sb_bmapstart sb.

(** ** Blocks *)

Definition bzero (dev bno : Z) : K kst unit :=
  bp ← kbread dev bno;
  kset bp (replicate (Z.to_nat BSIZE) 0);;
  klog_write bp;;
  kbrelse bp.

(** [bp->data[bi/8] & m] with [m = 1 << (bi % 8)], and the two updates. *)
Definition bit_set (d : block) (bi : Z) : bool :=
  negb (Z.land (nth (Z.to_nat (bi / 8)) d 0) (Z.shiftl 1 (bi mod 8)) =? 0).
Definition mark_bit (d : block) (bi : Z) : block :=
  alter (fun x => u8 (Z.lor x (Z.shiftl 1 (bi mod 8)))) (Z.to_nat (bi / 8)) d.
Definition clear_bit (d : block) (bi : Z) : block :=
  alter (fun x => u8 (Z.land x (Z.lnot (Z.shiftl 1 (bi mod 8))))) (Z.to_nat (bi / 8)) d.

(** The inner loop of [balloc]: the first clear bit from [bi] on, with [n] bits left. *)
Fixpoint free_bit (n : nat) (d : block) (bi : Z) : option Z :=
  match n with
  | O => None
  | S n => if bit_set d bi then free_bit n d (bi + 1) else Some bi
  end.

Fixpoint balloc_loop (fuel : nat) (dev b : Z) : K kst Z :=
  sb ← gets k_sb;
  if b <? sb_size sb then
    match fuel with
    | O => spin
    | S fuel =>
        bp ← kbread dev (BBLOCK b sb);
        d ← kdata bp;
        match free_bit (Z.to_nat (Z.min BPB (sb_size sb - b))) d 0 with
        | Some bi =>
            kset bp (mark_bit d bi);;
            klog_write bp;;
            kbrelse bp;;
            bzero dev (b + bi);;
            mret (b + bi)
        | None => kbrelse bp;; balloc_loop fuel dev (b + BPB)
        end
    end
  else panic "balloc: out of blocks".
Definition balloc (dev : Z) : K kst Z :=
  sb ← gets k_sb;
  balloc_loop (Z.to_nat (sb_size sb / BPB + 1)) dev 0.

Definition bfree (dev b : Z) : K kst unit :=
  sb ← gets k_sb;
  bp ← kbread dev (BBLOCK b sb);
  d ← kdata bp;
  let bi := b mod BPB in
  if negb (bit_set d bi) then panic "freeing free block"
  else
    kset bp (clear_bit d bi);;
    klog_write bp;;
    kbrelse bp.

(** ** Inodes on disk *)

(** [struct dinode] at byte [o] of a block. *)
Definition dino (inum : Z) : nat := 64 * Z.to_nat (inum mod IPB).
Definition di_type (d : block) (o : nat) : Z := s16 (get16 d o).
Definition di_major (d : block) (o : nat) : Z := s16 (get16 d (o + 2)).
Definition di_minor (d : block) (o : nat) : Z := s16 (get16 d (o + 4)).
Definition di_nlink (d : block) (o : nat) : Z := s16 (get16 d (o + 6)).
Definition di_size (d : block) (o : nat) : Z := get32 d (o + 8).
Definition di_addrs (d : block) (o : nat) : list Z := (fun i => get32 d (o + 12 + 4 * i)) <$> seq 0 13.

(** The assignments of [iupdate]. *)
Fixpoint put_addrs (a : list Z) (o : nat) (d : block) : block :=
  match a with
  | [] => d
  | x :: a => put_addrs a (o + 4) (put32 o x d)
  end.
Definition put_dinode (ip : inode) (o : nat) (d : block) : block :=
  put_addrs (i_addrs ip) (o + 12)
    (put32 (o + 8) (i_size ip)
    (put16 (o + 6) (i_nlink ip)
    (put16 (o + 4) (i_minor ip)
    (put16 (o + 2) (i_major ip)
    (put16 o (i_type ip) d))))).

Definition iupdate (i : nat) : K kst unit :=
  ip ← ip_ i;
  sb ← gets k_sb;
  bp ← kbread (i_dev ip) (IBLOCK (i_inum ip) sb);
  d ← kdata bp;
  kset bp (put_dinode ip (dino (i_inum ip)) d);;
  klog_write bp;;
  kbrelse bp.

(** ** The inode cache *)

(** The loop of [iget]: the entry that holds the inode, or the first empty one. *)
Fixpoint iget_scan (ips : list inode) (i : nat) (dev inum : Z) (empty : option nat) : option nat * option nat :=
  match ips with
  | [] => (None, empty)
  | ip :: ips =>
      if (0 <? i_ref ip) && (i_dev ip =? dev) && (i_inum ip =? inum) then (Some i, empty)
      else iget_scan ips (S i) dev inum
             (match empty with Some _ => empty | None => if i_ref ip =? 0 then Some i else None end)
  end.

Definition iget (dev inum : Z) : K kst nat :=
  acquire LIcache;;
  ips ← gets k_icache;
  match iget_scan ips 0 dev inum None with
  | (Some i, _) =>
      mod_ip i (fun ip => set_i_ref (i_ref ip + 1) ip);;
      release LIcache;;
      mret i
  | (None, None) => panic "iget: no inodes"
  | (None, Some i) =>
      mod_ip i (set_i_id dev inum);;
      mod_ip i (set_i_ref 1);;
      mod_ip i (set_i_valid 0);;
      release LIcache;;
      mret i
  end.

Definition idup (i : nat) : K kst nat :=
  acquire LIcache;;
  mod_ip i (fun ip => set_i_ref (i_ref ip + 1) ip);;
  release LIcache;;
  mret i.

Fixpoint iinit_loop (n : nat) (i : nat) : K kst unit :=
  match n with
  | O => mret ()
  | S n => mod_ip i (set_i_lock initsleeplock);; iinit_loop n (S i)
  end.
Definition iinit (dev : Z) : K kst unit :=
  iinit_loop NINODE 0;;
  sb ← lift (readsb dev);
  modify (set_k_sb sb);;
  cprintf ("sb: size %d nblocks %d ninodes %d nlog %d logstart %d inodestart %d bmap start %d" ++ nl)
    [KInt (sb_size sb); KInt (sb_nblocks sb); KInt (sb_ninodes sb); KInt (sb_nlog sb);
     KInt (sb_logstart sb); KInt (sb_inodestart sb); KInt (sb_bmapstart sb)].

(** [ialloc]: inodes [inum], [inum + 1], ...; [n] of them are left. *)
Fixpoint ialloc_loop (n : nat) (dev type inum : Z) : K kst nat :=
  match n with
  | O => panic "ialloc: no inodes"
  | S n =>
      sb ← gets k_sb;
      bp ← kbread dev (IBLOCK inum sb);
      d ← kdata bp;
      let o := dino inum in
      if di_type d o =? 0 then
        kset bp (put16 o type (splice o (replicate 64 0) d));;
        klog_write bp;;
        kbrelse bp;;
        iget dev inum
      else
        kbrelse bp;;
        ialloc_loop n dev type (inum + 1)
  end.
Definition ialloc (dev type : Z) : K kst nat :=
  sb ← gets k_sb;
  ialloc_loop (Z.to_nat (sb_ninodes sb - 1)) dev type 1.

(** The assignments of [ilock]. *)
Definition load_dinode (d : block) (o : nat) (ip : inode) : inode :=
  mkInode (i_dev ip) (i_inum ip) (i_ref ip) (i_lock ip) (i_valid ip)
    (di_type d o) (di_major d o) (di_minor d o) (di_nlink d o) (di_size d o) (di_addrs d o).

Definition ilock (i : nat) : K kst unit :=
  ip ← ip_ i;
  if i_ref ip <? 1 then panic "ilock"
  else
    acquire_inode i;;
    ip ← ip_ i;
    if i_valid ip =? 0 then
      sb ← gets k_sb;
      bp ← kbread (i_dev ip) (IBLOCK (i_inum ip) sb);
      d ← kdata bp;
      mod_ip i (load_dinode d (dino (i_inum ip)));;
      kbrelse bp;;
      mod_ip i (set_i_valid 1);;
      ip ← ip_ i;
      if i_type ip =? 0 then panic "ilock: no type" else mret ()
    else mret ().

Definition iunlock (i : nat) : K kst unit :=
  h ← holding_inode i;
  ip ← ip_ i;
  if negb h || (i_ref ip <? 1) then panic "iunlock" else release_inode i.

(** ** The blocks of an inode *)

(** [ip->addrs[n] = v] *)
Definition set_addr (n : Z) (v : Z) (ip : inode) : inode := set_i_addrs (<[Z.to_nat n := v]> (i_addrs ip)) ip.
Definition addr_of (n : Z) (ip : inode) : Z := nth (Z.to_nat n) (i_addrs ip) 0.

(** [a[n]] with [a = (uint* )bp->data] *)
Definition word (n : Z) (d : block) : Z := get32 d (4 * Z.to_nat n).

(** [addr = ip->addrs[n]], with a new block when there is none. *)
Definition bmap_addr (i : nat) (n : Z) : K kst Z :=
  ip ← ip_ i;
  if addr_of n ip =? 0 then
    addr ← balloc (i_dev ip);
    mod_ip i (set_addr n addr);;
    mret addr
  else mret (addr_of n ip).

Definition bmap (i : nat) (bn : Z) : K kst Z :=
  if bn <? NDIRECT then bmap_addr i bn
  else
    let bn := bn - NDIRECT in
    if bn <? NINDIRECT then
      addr ← bmap_addr i NDIRECT;
      ip ← ip_ i;
      bp ← kbread (i_dev ip) addr;
      d ← kdata bp;
      addr ← (if word bn d =? 0 then
                addr ← balloc (i_dev ip);
                d ← kdata bp;
                kset bp (put32 (4 * Z.to_nat bn) addr d);;
                klog_write bp;;
                mret addr
              else mret (word bn d));
      kbrelse bp;;
      mret addr
    else panic "bmap: out of range".

(** The two loops of [itrunc]. *)
Fixpoint itrunc_direct (n : nat) (i : nat) (k : Z) : K kst unit :=
  match n with
  | O => mret ()
  | S n =>
      ip ← ip_ i;
      (if negb (addr_of k ip =? 0) then
         bfree (i_dev ip) (addr_of k ip);;
         mod_ip i (set_addr k 0)
       else mret ());;
      itrunc_direct n i (k + 1)
  end.
Fixpoint itrunc_indirect (n : nat) (dev : Z) (bp : nat) (j : Z) : K kst unit :=
  match n with
  | O => mret ()
  | S n =>
      d ← kdata bp;
      when (negb (word j d =? 0)) (bfree dev (word j d));;
      itrunc_indirect n dev bp (j + 1)
  end.

Definition itrunc (i : nat) : K kst unit :=
  itrunc_direct (Z.to_nat NDIRECT) i 0;;
  ip ← ip_ i;
  (if negb (addr_of NDIRECT ip =? 0) then
     bp ← kbread (i_dev ip) (addr_of NDIRECT ip);
     itrunc_indirect (Z.to_nat NINDIRECT) (i_dev ip) bp 0;;
     kbrelse bp;;
     bfree (i_dev ip) (addr_of NDIRECT ip);;
     mod_ip i (set_addr NDIRECT 0)
   else mret ());;
  mod_ip i (set_i_size 0);;
  iupdate i.

Definition iput (i : nat) : K kst unit :=
  acquire_inode i;;
  ip ← ip_ i;
  (if negb (i_valid ip =? 0) && (i_nlink ip =? 0) then
     acquire LIcache;;
     ip ← ip_ i;
     release LIcache;;
     if i_ref ip =? 1 then
       itrunc i;;
       mod_ip i (set_i_type 0);;
       iupdate i;;
       mod_ip i (set_i_valid 0)
     else mret ()
   else mret ());;
  release_inode i;;
  acquire LIcache;;
  mod_ip i (fun ip => set_i_ref (i_ref ip - 1) ip);;
  release LIcache.

Definition iunlockput (i : nat) : K kst unit := iunlock i;; iput i.
