(* ===== verification/Device.v ===== *)
(** * The console as a device (consoleread, consolewrite and consoleinit of src/console.c)

    A call of [consoleread] that finds no input sleeps; it goes on in
    [consoleread_wake] with what it has still to read and what it has stored. *)

From Stdlib Require Import ZArith Lia String.
From stdpp Require Import prelude numbers strings option gmap list.
From S2P Require Import Prelude Kernel Mem Kalloc Sched Log Console Kst Inode.

(** [input.buf[input.r % INPUT_BUF]], a [char] *)
Definition in_front (k : console) : Z := s8 (nth (Z.to_nat (in_r k mod INPUT_BUF)) (in_buf k) 0).

(** The loop of [consoleread] with [cons.lock] held: [n] bytes to go, [dst] stored. *)
Fixpoint consoleread_loop (n : nat) (ip : nat) (target : Z) (dst : list Z) : K kst (Z * list Z) :=
  let finish (dst : list Z) : K kst (Z * list Z) :=
    release LCons;;
    ilock ip;;
    mret (Z.of_nat (length dst), dst) in
  match n with
  | O => finish dst
  | S m =>
      k ← getc_;
      if in_r k =? in_w k then
        '(_, p) ← curproc;
        if negb (killed p =? 0) then
          release LCons;;
          ilock ip;;
          mret (-1, dst)
        else sleep ChInput LCons
      else
        let c := in_front k in
        modc (set_in_r (u32 (in_r k + 1)));;
        if c =? ctl 68 then
          when (Z.of_nat n <? target) (modc (set_in_r (u32 (u32 (in_r k + 1) - 1))));;
          finish dst
        else if c =? NL then finish (dst ++ [u8 c])
        else consoleread_loop m ip target (dst ++ [u8 c])
  end.

(** The return value and the bytes stored. *)
Definition consoleread (ip : nat) (n : Z) : K kst (Z * list Z) :=
  iunlock ip;;
  acquire LCons;;
  consoleread_loop (Z.to_nat n) ip n [].

(** [consoleread] from the return of [sleep]. *)
Definition consoleread_wake (n : nat) (ip : nat) (target : Z) (dst : list Z) : K kst (Z * list Z) :=
  sleep_return LCons;;
  consoleread_loop n ip target dst.

Definition consolewrite (ip : nat) (buf : list Z) (n : Z) : K kst Z :=
  iunlock ip;;
  acquire LCons;;
  consputs ((fun c => Z.land c 0xff) <$> take (Z.to_nat n) buf);;
  release LCons;;
  ilock ip;;
  mret n.

(** [consoleinit] but for the interrupt of the keyboard, which the file Main enables. *)
Definition consoleinit : K kst unit :=
  modify (fun s => set_k_devsw (<[Z.to_nat CONSOLE := Some ConsoleDriver]> (k_devsw s)) s);;
  modc (set_locking 1).

(** [devsw[major].read] and [devsw[major].write]: [None] is a null pointer, or
    a number outside the table. *)
Definition dev_driver (major : Z) : K kst (option driver) :=
  t ← gets k_devsw;
  mret (if (major <? 0) || (NDEV <=? major) then None else default None (t !! Z.to_nat major)).
