(* ===== verification/Line.v ===== *)
(** * The line discipline of the console

    What the interrupt handler makes of the characters typed, and what a
    program reads: an abstract line discipline, which src/console.c implements
    with a ring of 128 bytes and three free-running indices. *)

From Stdlib Require Import ZArith Lia String.
From stdpp Require Import prelude numbers strings option gmap list.
From S2P Require Import Prelude Kernel Mem Kalloc Sched Sleeplock Pipe Log Console Kbd Kst Inode Device.

(** ** The screen *)

(** The position that the registers of the controller hold. *)
Definition cursor (k : console) : Z := Z.lor (Z.shiftl (crt_hi k) 8) (crt_lo k).

(** The console works: nobody has panicked, the cursor is on one of the first
    24 lines, and the cells are 16 bits wide. *)
Record screen_ok (k : console) : Prop := {
  so_alive : panicked k = 0;
  so_cursor : 0 <= cursor k < 24 * 80;
  so_cells : forall j, 0 <= crt k j < 2 ^ 16 }.

(** Only the screen and the serial output are different. *)
Record out (k k' : console) : Prop := {
  ou_panicked : panicked k' = panicked k;
  ou_locking : locking k' = locking k;
  ou_uart : uart k' = uart k;
  ou_uart_in : uart_in k' = uart_in k;
  ou_kbd_in : kbd_in k' = kbd_in k;
  ou_kbd_shift : kbd_shift k' = kbd_shift k;
  ou_buf : in_buf k' = in_buf k;
  ou_r : in_r k' = in_r k;
  ou_w : in_w k' = in_w k;
  ou_e : in_e k' = in_e k }.

#[export] Instance out_preorder : PreOrder out.
Proof.
  split.
  - intros k. by split.
  - intros k1 k2 k3 [] []. split; congruence.
Qed.

#[local] Notation "s ◀ k" := (set_k_cons k s) (at level 10, k at level 9, left associativity).

Lemma getc_run h (s : kst) : getc_ h s = Ret (k_cons s) h s.
Proof. done. Qed.

Lemma modc_run f h (s : kst) : modc f h s = Ret tt h (s ◀ (f (k_cons s))).
Proof. done. Qed.

Lemma cons_same (s : kst) : (s ◀ (k_cons s)) = s.
Proof. by destruct s. Qed.

Lemma cursor_join pos : 0 <= pos < 2 ^ 16 -> Z.lor (Z.shiftl (u8 (Z.shiftr pos 8)) 8) (u8 pos) = pos.
Proof.
  intros H. unfold u8. apply Z.bits_inj'. intros n Hn. rewrite Z.lor_spec. destruct (Z.lt_ge_cases n 8).
  - rewrite Z.shiftl_spec_low, Z.mod_pow2_bits_low by lia. done.
  - rewrite (Z.mod_pow2_bits_high pos) by lia. rewrite orb_false_r, Z.shiftl_spec by lia. destruct (Z.lt_ge_cases n 16).
    + rewrite Z.mod_pow2_bits_low, Z.shiftr_spec by lia. f_equal. lia.
    + rewrite Z.mod_pow2_bits_high by lia. symmetry. destruct (decide (pos = 0)) as [->|]; [apply Z.bits_0|].
      apply Z.bits_above_log2; [lia|]. apply Z.log2_lt_pow2; [lia|]. apply (Z.lt_le_trans _ (2 ^ 16)); [lia|]. apply Z.pow_le_mono_r; lia.
Qed.

Lemma uartputc_run c h s : exists k, uartputc c h s = Ret tt h (s ◀ k) /\ out (k_cons s) k /\ (screen_ok (k_cons s) -> screen_ok k).
Proof.
  unfold uartputc. rewrite bind_unfold, getc_run. cbv beta iota. destruct (uart (k_cons s) =? 0).
  - exists (k_cons s). by rewrite cons_same.
  - rewrite modc_run. eexists. split_and!; [done|by split|]. intros []. by split.
Qed.

Section cell.
Context (k : console).
Hypothesis Hk : forall j, 0 <= crt k j < 2 ^ 16.
Lemma put_cell_ok i v j : 0 <= crt (put_cell i v k) j < 2 ^ 16.
Proof. cbn. destruct (j =? i); [apply u16_bound|apply Hk]. Qed.
Lemma scroll_ok j : 0 <= crt (scroll k) j < 2 ^ 16.
Proof. cbn. by destruct (_ && _). Qed.
Lemma blank_ok p j : 0 <= crt (blank p k) j < 2 ^ 16.
Proof. cbn. destruct (_ && _); [lia|apply Hk]. Qed.
End cell.

Lemma cgaputc_run c h s : screen_ok (k_cons s) -> exists k, cgaputc c h s = Ret tt h (s ◀ k) /\ out (k_cons s) k /\ screen_ok k.
Proof.
  intros [H1 H2 H3]. unfold cgaputc. rewrite bind_unfold, getc_run. cbv beta iota. fold (cursor (k_cons s)). set (pos := cursor (k_cons s)) in *.
  assert (exists k1 p, (if c =? NL then mret (pos + (80 - Z.rem pos 80)) else if c =? BACKSPACE then mret (if 0 <? pos then pos - 1 else pos)
    else modc (put_cell pos (Z.lor (Z.land c 0xff) 0x0700));; mret (pos + 1)) h s = Ret p h (s ◀ k1) /\
    out (k_cons s) k1 /\ (forall j, 0 <= crt k1 j < 2 ^ 16) /\ 0 <= p <= 24 * 80) as (k1 & p & R1 & O1 & C1 & Hp).
  { pose proof (Z.rem_bound_pos pos 80). pose proof (Z.quot_rem' pos 80). destruct (c =? NL); [|destruct (c =? BACKSPACE)].
    - exists (k_cons s). rewrite cons_same. eexists. split_and!; [done..|lia|lia].
    - exists (k_cons s). rewrite cons_same. eexists. split_and!; [done..| |]; destruct (Z.ltb_spec 0 pos); lia.
    - rewrite bind_unfold, modc_run. eexists _, _. split_and!; [done|by split|by apply put_cell_ok|lia|lia]. }
  rewrite bind_unfold, R1. cbv beta iota. rewrite (proj2 (Z.ltb_ge _ _)), (proj2 (Z.ltb_ge _ _)) by lia. cbn [orb].
  assert (exists k2 q, (if 24 <=? Z.quot p 80 then modc scroll;; (let pos := p - 80 in modc (blank pos);; mret pos) else mret p) h (s ◀ k1) = Ret q h (s ◀ k2) /\
    out (k_cons s) k2 /\ (forall j, 0 <= crt k2 j < 2 ^ 16) /\ 0 <= q < 24 * 80) as (k2 & q & R2 & O2 & C2 & Hq).
  { pose proof (Z.rem_bound_pos p 80). pose proof (Z.quot_rem' p 80). destruct (Z.leb_spec 24 (Z.quot p 80)).
    - rewrite bind_unfold, modc_run. cbv beta iota zeta. rewrite bind_unfold, modc_run. eexists _, _.
      split_and!; [done|etrans; [exact O1|]; by split| |lia|lia]. by apply blank_ok, scroll_ok.
    - exists k1, p. split_and!; [done..|lia|lia]. }
  cbn zeta in R2 |- *. rewrite bind_unfold, R2. cbv beta iota. rewrite bind_unfold, modc_run. cbv beta iota. rewrite modc_run.
  eexists. split_and!; [done|etrans; [exact O2|]; by split|]. split.
  - cbn. by rewrite (ou_panicked _ _ O2).
  - change (cursor _) with (Z.lor (Z.shiftl (u8 (Z.shiftr q 8)) 8) (u8 q)). rewrite cursor_join; lia.
  - by apply put_cell_ok.
Qed.

Lemma consputc_run c h s : screen_ok (k_cons s) -> exists k, consputc c h s = Ret tt h (s ◀ k) /\ out (k_cons s) k /\ screen_ok k.
Proof.
  intros H. unfold consputc. rewrite bind_unfold, getc_run. cbv beta iota. rewrite (so_alive _ H). cbn [Z.eqb negb].
  assert (exists k1, (if c =? BACKSPACE then uartputc 8;; uartputc 32;; uartputc 8 else uartputc c) h s = Ret tt h (s ◀ k1) /\
    out (k_cons s) k1 /\ screen_ok k1) as (k1 & R1 & O1 & S1).
  { destruct (c =? BACKSPACE).
    - destruct (uartputc_run 8 h s) as (k1 & R1 & O1 & S1). destruct (uartputc_run 32 h (s ◀ k1)) as (k2 & R2 & O2 & S2).
      destruct (uartputc_run 8 h (s ◀ k2)) as (k3 & R3 & O3 & S3). exists k3. rewrite bind_unfold, R1. cbv beta iota. rewrite bind_unfold, R2. cbv beta iota.
      change (s ◀ k1 ◀ k2) with (s ◀ k2). split_and!; [done|etrans; [exact O1|]; by etrans|]. cbn in *. auto.
    - destruct (uartputc_run c h s) as (k1 & R1 & O1 & S1). exists k1. split_and!; auto. }
  rewrite bind_unfold, R1. cbv beta iota. destruct (cgaputc_run c h (s ◀ k1) S1) as (k2 & R2 & O2 & S2).
  exists k2. split_and!; [done|by etrans|done].
Qed.

Lemma consputs_run l h s : screen_ok (k_cons s) -> exists k, consputs l h s = Ret tt h (s ◀ k) /\ out (k_cons s) k /\ screen_ok k.
Proof.
  revert s. induction l as [|c l IH]; intros s H; cbn [consputs].
  - exists (k_cons s). by rewrite cons_same.
  - destruct (consputc_run c h s H) as (k1 & R1 & O1 & S1). destruct (IH (s ◀ k1) S1) as (k2 & R2 & O2 & S2).
    exists k2. rewrite bind_unfold, R1. cbv beta iota. split_and!; [done|by etrans|done].
Qed.

(** ** Printing *)

(** The code only prints, when the locks [h] are held. *)
Definition prints (h : list lockid) (c : K kst unit) : Prop :=
  forall s, screen_ok (k_cons s) -> exists k, c h s = Ret tt h (s ◀ k) /\ out (k_cons s) k /\ screen_ok k.

Lemma prints_ret h : prints h (mret ()).
Proof. intros s H. exists (k_cons s). by rewrite cons_same. Qed.

Lemma prints_bind h (c d : K kst unit) : prints h c -> prints h d -> prints h (c;; d).
Proof.
  intros Hc Hd s H. destruct (Hc s H) as (k1 & R1 & O1 & S1). destruct (Hd (s ◀ k1) S1) as (k2 & R2 & O2 & S2).
  exists k2. rewrite bind_unfold, R1. cbv beta iota. split_and!; [done|by etrans|done].
Qed.

Lemma prints_consputc h c : prints h (consputc c).
Proof. intros s. apply consputc_run. Qed.

Lemma prints_consputs h l : prints h (consputs l).
Proof. intros s. apply consputs_run. Qed.

Lemma prints_printint h xx base sign : prints h (printint xx base sign).
Proof. apply prints_consputs. Qed.

Lemma prints_gets {A} h (f : kst -> A) (c : A -> K kst unit) : (forall a, prints h (c a)) -> prints h (a ← gets f; c a).
Proof. intros Hc s H. rewrite bind_unfold, gets_run. by apply Hc. Qed.

Create HintDb prints.
#[export] Hint Resolve prints_ret prints_bind prints_consputc prints_consputs prints_printint prints_gets : prints.

Lemma prints_cprintf h fmt args : LCons ∉ h -> prints (LCons :: h) (cprintf_loop (str fmt) args) -> prints h (cprintf_loop (str fmt) args) -> prints h (cprintf fmt args).
Proof.
  intros Hh Hl Hn s H. unfold cprintf. rewrite bind_unfold, getc_run. cbv beta iota zeta. destruct (negb (locking (k_cons s) =? 0)); unfold when.
  - rewrite bind_unfold, acquire_free by done. cbv beta iota. destruct (Hl s H) as (k & R & O & Ok). exists k. rewrite bind_unfold, R. cbv beta iota.
    by rewrite release_top.
  - rewrite bind_unfold, mret_run. cbv beta iota. destruct (Hn s H) as (k & R & O & Ok). exists k. by rewrite bind_unfold, R.
Qed.

(** After [panic] has cleared [cons.locking], [cprintf] takes no lock. *)
Definition prints_unlocked (h : list lockid) (c : K kst unit) : Prop :=
  forall s, screen_ok (k_cons s) -> locking (k_cons s) = 0 -> exists k, c h s = Ret tt h (s ◀ k) /\ out (k_cons s) k /\ screen_ok k.

Lemma unlocked_cprintf h fmt args : prints h (cprintf_loop (str fmt) args) -> prints_unlocked h (cprintf fmt args).
Proof.
  intros Hp s H Hl. unfold cprintf. rewrite bind_unfold, getc_run. cbv beta iota zeta. rewrite Hl. cbn [Z.eqb negb when]. rewrite bind_unfold, mret_run. cbv beta iota.
  destruct (Hp s H) as (k & R & O & Ok). exists k. by rewrite bind_unfold, R.
Qed.

Lemma unlocked_bind h (c d : K kst unit) : prints_unlocked h c -> prints_unlocked h d -> prints_unlocked h (c;; d).
Proof.
  intros Hc Hd s H Hl. destruct (Hc s H Hl) as (k1 & R1 & O1 & S1). destruct (Hd (s ◀ k1) S1) as (k2 & R2 & O2 & S2); [cbn; by rewrite (ou_locking _ _ O1)|].
  exists k2. rewrite bind_unfold, R1. cbv beta iota. split_and!; [done|by etrans|done].
Qed.

Lemma prints_plain h l : 37 ∉ l -> prints h (cprintf_loop l []).
Proof.
  induction l as [|c l IH]; intros [Hc Hl]%not_elem_of_cons || intros _; cbn [cprintf_loop]; [auto with prints|].
  rewrite (proj2 (Z.eqb_neq _ _)) by congruence. cbn [negb]. auto with prints.
Qed.

(** [panic] prints the CPU, the message and the return addresses, whatever locks
    are held, and then every CPU that prints stops. *)
Theorem panic_freezes id msg pcs h s : screen_ok (k_cons s) -> 37 ∉ str msg ->
  exists k, panic_report id msg pcs h s = Ret tt h (s ◀ k) /\ panicked k = 1 /\ forall c h', consputc c h' (s ◀ k) = Spin.
Proof.
  intros H Hm. unfold panic_report. rewrite bind_unfold, modc_run. set (s1 := s ◀ (set_locking 0 (k_cons s))).
  assert (prints_unlocked h (panic_pcs pcs)) as Hpcs.
  { induction pcs as [|pc pcs IH]; cbn [panic_pcs]; [intros s' Hs' _; by apply prints_ret|]. apply unlocked_bind; [|done].
    apply unlocked_cprintf. change (str " %p") with [32; 37; 112]; cbn; auto 10 with prints. }
  assert (prints_unlocked h (cprintf "lapicid %d: panic: " [KInt id];; cprintf msg [];; cprintf nl [];; panic_pcs pcs)) as Hall.
  { repeat apply unlocked_bind; [..|done]; apply unlocked_cprintf; [|by apply prints_plain|change (str nl) with [10]; cbn [cprintf_loop Z.eqb Pos.eqb negb]; auto with prints].
    change (str "lapicid %d: panic: ") with [108; 97; 112; 105; 99; 105; 100; 32; 37; 100; 58; 32; 112; 97; 110; 105; 99; 58; 32]. cbn [cprintf_loop Z.eqb Pos.eqb negb orb]. auto 60 with prints. }
  destruct (Hall s1) as (k & R & O & Ok); [destruct H; by split|done|].
  exists (set_panicked 1 k). split; [|split; [done|]].
  - rewrite bind_unfold, R. done.
  - intros c h'. unfold consputc. rewrite bind_unfold, getc_run. done.
Qed.

Lemma prints_procdump stacks h : LCons ∉ h -> prints h (procdump stacks).
Proof.
  intros Hh. assert (forall pcs, prints h (dump_pcs pcs)) as Hpcs.
  { intros pcs. induction pcs as [|pc pcs IH]; cbn [dump_pcs]; [auto with prints|]. destruct (pc =? 0); [auto with prints|].
    apply prints_bind; [|done]. apply prints_cprintf; [done|..]; change (str " %p") with [32; 37; 112]; cbn; auto 10 with prints. }
  assert (forall ps, prints h (procdump_loop stacks ps)) as Hps; [|apply prints_gets; intros; apply Hps].
  intros ps. induction ps as [|p ps IH]; cbn [procdump_loop]; [auto with prints|]. destruct (bool_decide _); [done|].
  apply prints_bind; [|apply prints_bind; [|apply prints_bind; [|done]]].
  - apply prints_cprintf; [done|..]; change (str "%d %s %s") with [37; 100; 32; 37; 115; 32; 37; 115]; cbn [cprintf_loop Z.eqb Pos.eqb negb orb]; auto 20 with prints.
  - destruct (bool_decide _); auto with prints.
  - apply prints_cprintf; [done|..]; change (str nl) with [10]; cbn [cprintf_loop Z.eqb Pos.eqb negb]; auto with prints.
Qed.

(** ** The ring *)

(** [n] bytes of the ring from index [a] on. *)
Definition ring_at (buf : list Z) (i : Z) : Z := nth (Z.to_nat (i mod INPUT_BUF)) buf 0.
Definition ring (buf : list Z) (a n : Z) : list Z := (fun i => ring_at buf (a + i)) <$> seqZ 0 n.

Lemma ring_app buf a n m : 0 <= n -> 0 <= m -> ring buf a (n + m) = ring buf a n ++ ring buf (a + n) m.
Proof.
  intros Hn Hm. unfold ring. rewrite seqZ_app, fmap_app by done. f_equal. rewrite Z.add_0_l. apply list_eq. intros j. rewrite !list_lookup_fmap.
  destruct (decide (Z.of_nat j < m)); [rewrite !lookup_seqZ_lt by done; cbn; do 2 f_equal; lia|by rewrite !lookup_seqZ_ge by lia].
Qed.

Lemma ring_one buf a : ring buf a 1 = [ring_at buf a].
Proof. unfold ring. change (seqZ 0 1) with [0]. cbn [fmap list_fmap]. by rewrite Z.add_0_r. Qed.

Lemma length_ring buf a n : length (ring buf a n) = Z.to_nat n.
Proof. unfold ring. by rewrite length_fmap, length_seqZ. Qed.

Lemma ring_wrap x : u32 x mod INPUT_BUF = x mod INPUT_BUF.
Proof. unfold u32, INPUT_BUF. apply Z.mod_mod_divide. by exists 33554432. Qed.

Lemma ring_at_wrap buf x : ring_at buf (u32 x) = ring_at buf x.
Proof. unfold ring_at. by rewrite ring_wrap. Qed.

Lemma ring_start buf a x n : ring buf (u32 a + x) n = ring buf (a + x) n.
Proof.
  apply list_fmap_ext. intros j i _. unfold ring_at. do 2 f_equal. rewrite <- !Z.add_assoc.
  rewrite <- Z.add_mod_idemp_l, ring_wrap by done. by rewrite Z.add_mod_idemp_l by done.
Qed.

(** An index that is not among the next [n]. *)
Lemma ring_insert buf a n e c : 0 <= n -> a + n <= e < a + INPUT_BUF -> ring (<[Z.to_nat (e mod INPUT_BUF) := c]> buf) a n = ring buf a n.
Proof.
  intros Hn He. unfold ring. apply list_fmap_ext. intros j i [-> Hj]%lookup_seqZ. unfold ring_at. rewrite !nth_lookup. f_equal.
  apply list_lookup_insert_ne. unfold INPUT_BUF in *. intros E. pose proof (Z.mod_pos_bound e 128). pose proof (Z.mod_pos_bound (a + (0 + Z.of_nat j)) 128).
  assert (e mod 128 = (a + (0 + Z.of_nat j)) mod 128) as E2 by lia.
  pose proof (Z.div_mod e 128). pose proof (Z.div_mod (a + (0 + Z.of_nat j)) 128). lia.
Qed.

Lemma ring_at_insert buf e c : length buf = 128%nat -> ring_at (<[Z.to_nat (e mod INPUT_BUF) := c]> buf) e = c.
Proof.
  intros Hl. unfold ring_at. rewrite nth_lookup, list_lookup_insert_eq; [done|]. unfold INPUT_BUF. pose proof (Z.mod_pos_bound e 128). lia.
Qed.

Lemma ring_byte buf i : Forall (fun c => 0 <= c < 256) buf -> length buf = 128%nat -> 0 <= ring_at buf i < 256.
Proof.
  intros Hb Hl. unfold ring_at, INPUT_BUF. pose proof (Z.mod_pos_bound i 128 ltac:(done)). rewrite nth_lookup.
  destruct (lookup_lt_is_Some_2 buf (Z.to_nat (i mod 128)) ltac:(lia)) as [x Hx]. rewrite Hx. exact (Forall_lookup_1 _ _ _ _ Hb Hx).
Qed.

Lemma u32_eqb x n m : 0 <= n < 2 ^ 32 -> 0 <= m < 2 ^ 32 -> (u32 (x + n) =? u32 (x + m)) = (n =? m).
Proof.
  intros Hn Hm. destruct (Z.eqb_spec n m) as [->|Hne]; [apply Z.eqb_refl|]. apply Z.eqb_neq. intros E. apply Hne. unfold u32 in E.
  pose proof (Z.div_mod (x + n) (2 ^ 32)). pose proof (Z.div_mod (x + m) (2 ^ 32)). lia.
Qed.

(** ** Lines *)

(** What programs may read, and the line that is being typed. *)
Record line : Type := mkLine { l_ready : list Z; l_edit : list Z }.

#[local] Abbreviation len l := (Z.of_nat (length l)).
#[local] Abbreviation byte := (fun c => 0 <= c < 256).

(** The ring and its indices hold the two parts of [l]. *)
Record rep (k : console) (l : line) : Prop := {
  rp_len : length (in_buf k) = 128%nat;
  rp_r : 0 <= in_r k < 2 ^ 32;
  rp_w : in_w k = u32 (in_r k + len (l_ready l));
  rp_e : in_e k = u32 (in_r k + (len (l_ready l) + len (l_edit l)));
  rp_max : len (l_ready l) + len (l_edit l) <= INPUT_BUF;
  rp_ready : l_ready l = ring (in_buf k) (in_r k) (len (l_ready l));
  rp_edit : l_edit l = ring (in_buf k) (in_r k + len (l_ready l)) (len (l_edit l)) }.

Lemma rep_out k k' l : out k k' -> rep k l -> rep k' l.
Proof. intros [] []. split; congruence. Qed.

Lemma bytes_out k k' : out k k' -> Forall byte (in_buf k) -> Forall byte (in_buf k').
Proof. by intros [_ _ _ _ _ _ -> _ _ _]. Qed.

Section rep.
Context (k : console) (ready edit : list Z).

Lemma rep_push c : rep k (mkLine ready edit) -> len ready + len edit < INPUT_BUF ->
  rep (set_in_e (u32 (in_e k + 1)) (set_in_buf (<[Z.to_nat (in_e k mod INPUT_BUF) := c]> (in_buf k)) k)) (mkLine ready (edit ++ [c])).
Proof.
  intros [H1 H2 H3 H4 H5 H6 H7] Hm. cbn [l_ready l_edit] in *. rewrite H4, ring_wrap.
  split; cbn [l_ready l_edit in_buf in_r in_w in_e set_in_e set_in_buf]; rewrite ?length_app, ?length_insert; try done.
  - rewrite u32_add_idemp_l. f_equal. cbn. lia.
  - cbn. lia.
  - rewrite ring_insert by (unfold INPUT_BUF in *; lia). done.
  - rewrite Nat2Z.inj_add, ring_app by lia. cbn [length]. change (Z.of_nat 1) with 1. rewrite ring_one, ring_insert by (unfold INPUT_BUF in *; lia).
    f_equal; [done|]. f_equal. replace (in_r k + len ready + len edit) with (in_r k + (len ready + len edit)) by lia. by rewrite ring_at_insert.
Qed.

Lemma rep_pop c : rep k (mkLine ready (edit ++ [c])) ->
  rep (set_in_e (u32 (in_e k - 1)) k) (mkLine ready edit) /\ ring_at (in_buf k) (u32 (in_e k - 1)) = c /\ (in_e k =? in_w k) = false.
Proof.
  intros [H1 H2 H3 H4 H5 H6 H7]. cbn [l_ready l_edit] in *. rewrite length_app in *. cbn [length] in *. rewrite Nat2Z.inj_add in H7. change (Z.of_nat 1) with 1 in H7.
  rewrite ring_app, ring_one in H7 by lia. apply app_inj_tail in H7 as [H7 Hc].
  assert (u32 (in_e k - 1) = u32 (in_r k + (len ready + len edit))) as E by (rewrite H4, u32_sub_idemp_l; f_equal; lia). split_and!.
  - rewrite E. split; cbn [l_ready l_edit in_buf in_r in_w in_e set_in_e]; try done. lia.
  - rewrite E, ring_at_wrap. rewrite Hc. f_equal. lia.
  - rewrite H3, H4. rewrite u32_eqb by (unfold INPUT_BUF in *; lia). apply Z.eqb_neq. lia.
Qed.

Lemma rep_empty : rep k (mkLine ready edit) -> (in_e k =? in_w k) = (len edit =? 0).
Proof.
  intros [H1 H2 H3 H4 H5 H6 H7]. cbn [l_ready l_edit] in *. rewrite H3, H4, u32_eqb by (unfold INPUT_BUF in *; lia).
  destruct (Z.eqb_spec (len edit) 0), (Z.eqb_spec (len ready + len edit) (len ready)); lia || done.
Qed.

Lemma rep_commit : rep k (mkLine ready edit) -> rep (set_in_w (in_e k) k) (mkLine (ready ++ edit) []).
Proof.
  intros [H1 H2 H3 H4 H5 H6 H7]. cbn [l_ready l_edit] in *.
  split; cbn [l_ready l_edit in_buf in_r in_w in_e set_in_w length]; rewrite ?length_app; try done.
  - rewrite H4. f_equal. lia.
  - rewrite H4. f_equal. lia.
  - lia.
  - rewrite Nat2Z.inj_add, ring_app by lia. by rewrite <- H6, <- H7.
Qed.

Lemma rep_count : rep k (mkLine ready edit) -> u32 (in_e k - in_r k) = len ready + len edit /\
  (in_e k =? u32 (in_r k + INPUT_BUF)) = (len ready + len edit =? INPUT_BUF) /\ (in_r k =? in_w k) = (len ready =? 0).
Proof.
  intros [H1 H2 H3 H4 H5 H6 H7]. cbn [l_ready l_edit] in *. unfold INPUT_BUF in *. split_and!.
  - rewrite H4, u32_sub_idemp_l. rewrite u32_id; lia.
  - rewrite H4. by apply u32_eqb; lia.
  - rewrite H3. rewrite <- (u32_id (in_r k)) at 1 by lia. rewrite <- (Z.add_0_r (in_r k)) at 1. rewrite u32_eqb by lia. apply Z.eqb_sym.
Qed.
End rep.

Lemma rep_take k c ready edit : rep k (mkLine (c :: ready) edit) ->
  rep (set_in_r (u32 (in_r k + 1)) k) (mkLine ready edit) /\ ring_at (in_buf k) (in_r k) = c.
Proof.
  intros [H1 H2 H3 H4 H5 H6 H7]. cbn [l_ready l_edit length] in *. replace (len (c :: ready)) with (1 + len ready) in * by (cbn; lia).
  replace (Z.of_nat (S (length ready))) with (1 + len ready) in * by lia.
  rewrite ring_app, ring_one in H6 by lia. injection H6 as Hc H6.
  split; [|done]. split; cbn [l_ready l_edit in_buf in_r in_w in_e set_in_r]; try done.
  - apply u32_bound.
  - rewrite H3, u32_add_idemp_l. f_equal. lia.
  - rewrite H4, u32_add_idemp_l. f_equal. lia.
  - lia.
  - rewrite <- (Z.add_0_r (u32 _)), ring_start, Z.add_0_r. done.
  - rewrite ring_start. rewrite H7 at 1. f_equal. lia.
Qed.

(** ** Typing *)

(** What a key does to a line: ^U, ^H and DEL edit it, ^P is no text, and an
    end of line, ^D or a full buffer hands it to the readers. *)
Definition key (c : Z) (l : line) : line :=
  let '(mkLine ready edit) := l in
  if c =? ctl 80 then l
  else if c =? ctl 85 then mkLine ready []
  else if (c =? ctl 72) || (c =? 127) then mkLine ready (removelast edit)
  else if (c =? 0) || (INPUT_BUF <=? len ready + len edit) then l
  else
    let c := if c =? 13 then NL else c in
    let edit := edit ++ [c] in
    if (c =? NL) || (c =? ctl 68) || (len ready + len edit =? INPUT_BUF) then mkLine (ready ++ edit) [] else mkLine ready edit.

(** The console holds the line [l], which has no end of line in it. *)
Record typing (k : console) (l : line) : Prop := {
  ty_screen : screen_ok k;
  ty_rep : rep k l;
  ty_nl : NL ∉ l_edit l;
  ty_bytes : Forall byte (in_buf k) }.

(** What the handler leaves alone. *)
Record same_ports (k k' : console) : Prop := {
  sp_locking : locking k' = locking k;
  sp_uart : uart k' = uart k;
  sp_uart_in : uart_in k' = uart_in k;
  sp_kbd_in : kbd_in k' = kbd_in k;
  sp_kbd_shift : kbd_shift k' = kbd_shift k }.

#[export] Instance same_ports_preorder : PreOrder same_ports.
Proof.
  split.
  - intros k. by split.
  - intros k1 k2 k3 [] []. split; congruence.
Qed.

Lemma out_ports k k' : out k k' -> same_ports k k'.
Proof. intros []. by split. Qed.

Lemma kill_line_run ready edit fuel h s : typing (k_cons s) (mkLine ready edit) -> (length edit < fuel)%nat ->
  exists k, kill_line fuel h s = Ret tt h (s ◀ k) /\ same_ports (k_cons s) k /\ typing k (mkLine ready []).
Proof.
  revert fuel s. induction edit as [|c edit IH] using rev_ind; intros fuel s [Hs Hr Hn Hb] Hf; (destruct fuel as [|fuel]; [lia|]); cbn [kill_line].
  - rewrite bind_unfold, getc_run. cbv beta iota. rewrite (rep_empty _ _ _ Hr). exists (k_cons s). rewrite cons_same. by split_and!.
  - rewrite length_app in Hf. cbn in Hf. cbn [l_edit] in Hn. apply not_elem_of_app in Hn as [Hn Hc%not_elem_of_cons].
    destruct (rep_pop _ _ _ _ Hr) as (Hr' & Ha & He). rewrite bind_unfold, getc_run. cbv beta iota. rewrite He. cbn [negb andb].
    unfold ring_at in Ha. rewrite Ha. rewrite (proj2 (Z.eqb_neq c NL)) by naive_solver. cbn [negb].
    rewrite bind_unfold, modc_run. cbv beta iota. set (k1 := set_in_e (u32 (in_e (k_cons s) - 1)) (k_cons s)) in *.
    assert (screen_ok k1) as S1 by (destruct Hs; by split).
    destruct (consputc_run BACKSPACE h (s ◀ k1) S1) as (k2 & R2 & O2 & S2). rewrite bind_unfold, R2. cbv beta iota.
    destruct (IH fuel (s ◀ k2)) as (k3 & R3 & P3 & T3);
      [split; [done|by eapply rep_out|done|exact (bytes_out _ _ O2 Hb)]|lia|].
    exists k3. split_and!; [exact R3| |done]. etrans; [|exact P3]. etrans; [|by apply out_ports]. by split.
Qed.

(** No process sleeps for input. *)
Definition none_waits (t : pstate) : Prop := Forall (fun p => ~ (state p = SLEEPING /\ pchan p = Some ChInput)) (procs t).

Lemma wakeup_none t : none_waits (set_procs (wake_one ChInput <$> procs t) t).
Proof.
  unfold none_waits. cbn. apply Forall_fmap, Forall_true. intros p. unfold compose, wake_one. destruct (bool_decide (state p = SLEEPING)) eqn:E1; cbn [andb].
  - destruct (bool_decide (pchan p = Some ChInput)) eqn:E2; [by intros [? _]|]. intros [_ ?]. by apply bool_decide_eq_false in E2.
  - intros [? _]. by apply bool_decide_eq_false in E1.
Qed.

(** The effect of one character. *)
Record typed (s : kst) (l l' : line) (s' : kst) : Prop := {
  td_rest : s' = put_part (get_part s' : pstate) (s ◀ (k_cons s'));
  td_typing : typing (k_cons s') l';
  td_woke : woke (get_part s) (get_part s');
  td_wakes : l_ready l' <> l_ready l -> none_waits (get_part s') }.

Lemma typed_cons s l l' k : typing k l' -> l_ready l' = l_ready l -> typed s l l' (s ◀ k).
Proof. intros H2 H3. split; try done. by destruct s as [[? []]]. Qed.

Lemma typed_same s l : typing (k_cons s) l -> typed s l l s.
Proof. intros H. rewrite <- (cons_same s) at 2. by apply typed_cons. Qed.

Section push.
Context (s : kst) (ready edit : list Z) (h : list lockid) (c : Z).
Hypothesis H : typing (k_cons s) (mkLine ready edit).
Hypothesis Hh : LPtable ∉ h.
Hypothesis Hc : 0 <= c < 256.
Hypothesis Hroom : len ready + len edit < INPUT_BUF.

Lemma push_run : exists s',
  (modc (fun k => set_in_buf (<[Z.to_nat (in_e k mod INPUT_BUF) := u8 c]> (in_buf k)) k);;
   modc (fun k => set_in_e (u32 (in_e k + 1)) k);;
   consputc c;;
   k ← getc_;
   if (c =? NL) || (c =? ctl 68) || (in_e k =? u32 (in_r k + INPUT_BUF)) then
     modc (fun k => set_in_w (in_e k) k);;
     wakeup ChInput
   else mret ()) h s = Ret tt h s' /\
  typed s (mkLine ready edit)
    (if (c =? NL) || (c =? ctl 68) || (len ready + len (edit ++ [c]) =? INPUT_BUF) then mkLine (ready ++ edit ++ [c]) [] else mkLine ready (edit ++ [c])) s' /\ same_ports (k_cons s) (k_cons s').
Proof.
  destruct H as [Hs Hr Hn Hb]. rewrite (u8_id c Hc). rewrite bind_unfold, modc_run. cbv beta iota. rewrite bind_unfold, modc_run. cbv beta iota.
  pose proof (rep_push _ _ _ c Hr Hroom) as Hr1. set (k1 := set_in_e _ _) in Hr1.
  match goal with |- context [(consputc c ≫= _) h ?x] => change x with (s ◀ k1) end.
  assert (screen_ok k1) as S1 by (destruct Hs; by split). assert (same_ports (k_cons s) k1) as P1 by (by split).
  destruct (consputc_run c h (s ◀ k1) S1) as (k2 & R2 & O2 & S2). rewrite bind_unfold, R2. cbv beta iota. change (s ◀ k1 ◀ k2) with (s ◀ k2).
  assert (Forall byte (in_buf k2)) as Hb' by (eapply bytes_out; [exact O2|by apply Forall_insert]).
  apply (rep_out _ _ _ O2) in Hr1. pose proof (out_ports _ _ O2) as P2. cbn [k_cons set_k_cons] in P2.
  rewrite bind_unfold, getc_run. cbv beta iota. cbn [k_cons set_k_cons]. destruct (rep_count _ _ _ Hr1) as (_ & -> & _).
  destruct ((c =? NL) || (c =? ctl 68) || _) eqn:E.
  - rewrite bind_unfold, modc_run. cbv beta iota. rewrite wakeup_run by done. eexists. split; [reflexivity|].
    apply rep_commit in Hr1. split; [|etrans; [exact P1|]; etrans; [exact P2|]; by split]. split.
    + by destruct s as [[? []]].
    + split; [destruct S2; by split|done|apply not_elem_of_nil|done].
    + apply woke_wakeup.
    + intros _. apply wakeup_none.
  - exists (s ◀ k2). split_and!; [done| |by etrans]. apply typed_cons; [|done]. split; [done|done| |done].
    apply orb_false_iff in E as [[E _]%orb_false_iff _]. apply Z.eqb_neq in E. intros [?|?%list_elem_of_singleton]%elem_of_app; [done|congruence].
Qed.
End push.

Lemma consoleintr_char_run c l h s : typing (k_cons s) l -> 0 <= c < 256 -> LPtable ∉ h ->
  exists s', consoleintr_char c h s = Ret (c =? ctl 80) h s' /\ typed s l (key c l) s' /\ same_ports (k_cons s) (k_cons s').
Proof.
  destruct l as [ready edit]. intros H Hc Hh. pose proof H as [Hs Hr Hn Hb]. unfold consoleintr_char, key. destruct (Z.eqb_spec c (ctl 80)) as [->|H80].
  { exists s. split_and!; [done|by apply typed_same|done]. }
  destruct (c =? ctl 85).
  { destruct (kill_line_run ready edit (Z.to_nat (INPUT_BUF + 1)) h s H) as (k & R & P & T).
    { pose proof (rp_max _ _ Hr) as Hm. cbn in Hm. unfold INPUT_BUF in *. lia. }
    exists (s ◀ k). rewrite bind_unfold, R. split_and!; [done|by apply typed_cons|done]. }
  change 0x7f with 127. destruct ((c =? ctl 72) || (c =? 127)).
  { rewrite bind_unfold, getc_run. cbv beta iota. destruct edit as [|b edit _] using rev_ind.
    - rewrite (rep_empty _ _ _ Hr). exists s. split_and!; [done|by apply typed_same|done].
    - destruct (rep_pop _ _ _ _ Hr) as (Hr' & _ & ->). cbn [negb]. rewrite bind_unfold, bind_unfold, modc_run. cbv beta iota.
      set (k1 := set_in_e (u32 (in_e (k_cons s) - 1)) (k_cons s)) in *. assert (screen_ok k1) as S1 by (destruct Hs; by split).
      destruct (consputc_run BACKSPACE h (s ◀ k1) S1) as (k2 & R2 & O2 & S2). rewrite R2. cbv beta iota. exists (s ◀ k2). rewrite removelast_last.
      split_and!; [done| |etrans; [|by apply out_ports]; by split]. apply typed_cons; [|done]. cbn [l_edit] in Hn. apply not_elem_of_app in Hn as [Hn _].
      split; [done|by eapply rep_out|done|exact (bytes_out _ _ O2 Hb)]. }
  rewrite bind_unfold, getc_run. cbv beta iota. destruct (rep_count _ _ _ Hr) as (-> & _). rewrite Z.leb_antisym.
  destruct (c =? 0); cbn [negb andb orb]; [exists s; split_and!; [done|by apply typed_same|done]|].
  destruct (Z.ltb_spec (len ready + len edit) INPUT_BUF) as [Hm|Hm]; cbn [negb]; [|exists s; split_and!; [done|by apply typed_same|done]].
  cbv zeta. set (c' := if c =? 13 then NL else c). assert (0 <= c' < 256) as Hc' by (unfold c'; destruct (c =? 13); unfold NL; lia).
  destruct (push_run s ready edit h c' H Hh Hc' Hm) as (s' & R & T & P). exists s'. split_and!; [|done|done]. by rewrite bind_unfold, R.
Qed.

(** ** Interrupts *)

(** A port: [getc] takes the characters [pending] one by one, and returns -1
    when there are none. *)
Record port (getc : K kst Z) (pending : console -> list Z) : Prop := {
  pt_none : forall h s, pending (k_cons s) = [] -> getc h s = Ret (-1) h s;
  pt_next : forall h s c cs, pending (k_cons s) = c :: cs ->
    exists k, getc h s = Ret c h (s ◀ k) /\ pending k = cs /\ locking k = locking (k_cons s) /\ forall l, typing (k_cons s) l -> typing k l;
  pt_same : forall k k', same_ports k k' -> pending k' = pending k }.

(** What the handler makes of the characters [cs]. *)
Definition keys (cs : list Z) (l : line) : line := foldl (fun l c => key c l) l cs.

Section intr.
Context (getc : K kst Z) (pending : console -> list Z).
Hypothesis P : port getc pending.

Lemma typed_trans s1 l1 s2 l2 s3 l3 : typed s1 l1 l2 s2 -> typed s2 l2 l3 s3 -> typed s1 l1 l3 s3.
Proof.
  intros [R1 T1 W1 K1] [R2 T2 W2 K2]. split; [|done|by eapply woke_trans|].
  - rewrite R2, R1. by destruct s1 as [[? []]].
  - intros Hne. destruct (decide (l_ready l3 = l_ready l2)) as [E|E]; [|by apply K2]. rewrite E in Hne. specialize (K1 Hne).
    unfold none_waits in *. destruct W2 as [_ W2]. revert W2 K1. generalize (procs (get_part s2 : pstate)) (procs (get_part s3 : pstate)). clear.
    intros ps qs HF. induction HF as [|p q ps qs Hpq HF IH]; intros HA; [constructor|]. inversion_clear HA as [|? ? Hp Hps].
    constructor; [|by apply IH]. destruct Hpq as [->|[_ ->]]; [done|]. by intros [? _].
Qed.

Lemma loop_run cs fuel l d h s : typing (k_cons s) l -> pending (k_cons s) = cs -> Forall (fun c => 0 <= c < 256) cs ->
  (length cs < fuel)%nat -> LPtable ∉ h ->
  exists s', consoleintr_loop fuel getc d h s = Ret (d || existsb (Z.eqb (ctl 80)) cs) h s' /\ typed s l (keys cs l) s' /\
    pending (k_cons s') = [] /\ locking (k_cons s') = locking (k_cons s).
Proof.
  revert fuel l d s. induction cs as [|c cs IH]; intros fuel l d s T Hp Hb Hf Hh; (destruct fuel as [|fuel]; [cbn in Hf; lia|]); cbn [consoleintr_loop].
  - rewrite bind_unfold, (pt_none _ _ P) by done. exists s. rewrite orb_false_r. split_and!; [done|by apply typed_same|done|done].
  - inversion_clear Hb as [|? ? Hc Hcs]. destruct (pt_next _ _ P h s c cs Hp) as (k & R & Hk & Hl & Ht). rewrite bind_unfold, R. cbv beta iota.
    rewrite (proj2 (Z.ltb_ge c 0)) by lia. destruct (consoleintr_char_run c l h (s ◀ k) (Ht l T) Hc Hh) as (s1 & R1 & T1 & P1).
    rewrite bind_unfold, R1. cbv beta iota.
    destruct (IH fuel (key c l) (d || (c =? ctl 80)) s1 (td_typing _ _ _ _ T1)) as (s2 & R2 & T2 & Hp2 & Hl2);
      [by rewrite (pt_same _ _ P _ _ P1)|done|cbn in Hf; lia|done|].
    exists s2. split_and!; [|eapply typed_trans; [|exact T2]|done|].
    + rewrite R2. cbn [existsb]. by rewrite orb_assoc, (Z.eqb_sym c).
    + eapply typed_trans; [|exact T1]. by apply typed_cons; [apply Ht|].
    + rewrite Hl2, (sp_locking _ _ P1). done.
Qed.

(** The handler. *)
Lemma consoleintr_run stacks fuel l s : typing (k_cons s) l -> Forall (fun c => 0 <= c < 256) (pending (k_cons s)) ->
  (length (pending (k_cons s)) < fuel)%nat ->
  exists s', consoleintr stacks fuel getc [] s = Ret tt [] s' /\ typed s l (keys (pending (k_cons s)) l) s' /\ pending (k_cons s') = [].
Proof.
  intros T Hb Hf. destruct (loop_run _ fuel l false [LCons] s T eq_refl Hb Hf) as (s1 & R1 & T1 & Hp1 & _); [by intros ?%list_elem_of_singleton|].
  unfold consoleintr. rewrite bind_unfold, acquire_free by apply not_elem_of_nil. cbv beta iota. rewrite bind_unfold, R1. cbv beta iota. cbn [orb].
  rewrite bind_unfold, release_top by apply not_elem_of_nil. cbv beta iota. unfold when. destruct (existsb _ _).
  - destruct (prints_procdump stacks [] (not_elem_of_nil _) s1 (ty_screen _ _ (td_typing _ _ _ _ T1))) as (k & R & O & Ok). rewrite R. exists (s1 ◀ k).
    split_and!; [done| |by etrans; [apply (pt_same _ _ P _ _ (out_ports _ _ O))|]]. eapply typed_trans; [exact T1|]. apply typed_cons; [|done].
    destruct (td_typing _ _ _ _ T1). split; [done|by eapply rep_out|done|by eapply bytes_out].
  - exists s1. by split_and!.
Qed.
End intr.

(** The serial port. *)
Definition uart_pending (k : console) : list Z := if uart k =? 0 then [] else uart_in k.

Lemma uart_port : port uartgetc uart_pending.
Proof.
  unfold uart_pending. split.
  - intros h s Hn. unfold uartgetc. rewrite bind_unfold, getc_run. cbv beta iota. destruct (uart _ =? 0); [done|]. by rewrite Hn.
  - intros h s c cs Hn. unfold uartgetc. rewrite bind_unfold, getc_run. cbv beta iota. destruct (uart _ =? 0) eqn:E; [done|]. rewrite Hn.
    rewrite bind_unfold, modc_run. eexists. split_and!; [done|cbn; by rewrite E|done|]. intros l [[] [] ? ?]. split; [by split|by split|done|done].
  - intros k k' [? H2 H3 ? ?]. by rewrite H2, H3.
Qed.

(** The keyboard: every scan code gives a character, 0 for none. *)
Fixpoint kbd_chars (shift : Z) (data : list Z) : list Z :=
  match data with
  | [] => []
  | d :: data => let '(shift, c) := kbd_step shift d in c :: kbd_chars shift data
  end.
Definition kbd_pending (k : console) : list Z := kbd_chars (kbd_shift k) (kbd_in k).

Lemma kbd_port : port kbdgetc kbd_pending.
Proof.
  unfold kbd_pending. split.
  - intros h s Hn. unfold kbdgetc. rewrite bind_unfold, getc_run. cbv beta iota. destruct (kbd_in (k_cons s)); [done|]. cbn in Hn. by destruct (kbd_step _ _).
  - intros h s c cs Hn. unfold kbdgetc. rewrite bind_unfold, getc_run. cbv beta iota. destruct (kbd_in (k_cons s)) as [|d data]; [done|]. cbn [kbd_chars] in Hn.
    rewrite bind_unfold, modc_run. cbv beta iota. destruct (kbd_step (kbd_shift (k_cons s)) d) as [shift c']. injection Hn as -> <-.
    rewrite bind_unfold, modc_run. eexists. split_and!; [done|done|done|]. intros l [[] [] ? ?]. split; [by split|by split|done|done].
  - intros k k' [? ? ? H4 H5]. by rewrite H4, H5.
Qed.

Lemma entry_byte t d i : Forall byte t -> Forall (fun x => byte x.2) d -> byte (entry t d i).
Proof.
  intros Ht Hd. unfold entry. destruct (list_find _ d) as [[j [a v]]|] eqn:E.
  - apply list_find_Some in E as (E & _). by apply (Forall_lookup_1 _ _ _ _ Hd E).
  - rewrite nth_lookup. destruct (t !! Z.to_nat i) eqn:Et; [by apply (Forall_lookup_1 _ _ _ _ Ht Et)|]. cbn. lia.
Qed.

Lemma kbd_step_byte shift d : byte (kbd_step shift d).2.
Proof.
  unfold kbd_step. destruct (d =? 0xE0); [cbn; lia|]. destruct (negb _); [cbn; lia|].
  destruct (if negb _ then _ else _) as [data sh]. cbn [snd]. set (c := if _ =? 0 then _ else _).
  assert (byte c) as Hc.
  { unfold c, normalmap, shiftmap, ctlmap. repeat case_match; apply entry_byte; apply (bool_decide_unpack _); by vm_compute. }
  destruct (negb _); [|done]. destruct (Z.leb_spec 97 c), (Z.leb_spec c 122), (Z.leb_spec 65 c), (Z.leb_spec c 90); cbn [andb]; cbv beta in *; lia.
Qed.

Lemma kbd_chars_bytes shift data : Forall byte (kbd_chars shift data) /\ length (kbd_chars shift data) = length data.
Proof.
  revert shift. induction data as [|d data IH]; intros shift; cbn [kbd_chars]; [done|]. pose proof (kbd_step_byte shift d) as Hb.
  destruct (kbd_step shift d) as [sh c]. destruct (IH sh). split; [by constructor|cbn; congruence].
Qed.
