(* ===== verification/Fs.v ===== *)
(** * Files, directories and path names (src/fs.c, second half)

    [readi] returns the bytes it stores at [dst] next to its return value;
    [src] is the list of the bytes at the source.  A path is the list of its
    characters before the terminating zero. *)

From Stdlib Require Import ZArith Lia String.
From stdpp Require Import prelude numbers strings option gmap list.
From S2P Require Import Prelude Kernel Mem Sched Bio Log Console Kst Inode Device.

Definition SLASH : Z := 47.

(** [struct stat] *)
Record stat : Type := mkStat { st_type : Z; st_dev : Z; st_ino : Z; st_nlink : Z; st_size : Z }.

Definition stati (i : nat) : K kst stat :=
  ip ← ip_ i;
  mret (mkStat (i_type ip) (s32 (i_dev ip)) (i_inum ip) (i_nlink ip) (i_size ip)).

(** ** readi and writei *)

(** The loop of [readi]: [left] bytes to go, in at most [fuel] blocks. *)
Fixpoint readi_loop (fuel : nat) (i : nat) (off left : Z) (dst : list Z) : K kst (list Z) :=
  if left <=? 0 then mret dst
  else
    match fuel with
    | O => spin
    | S fuel =>
        ip ← ip_ i;
        b ← bmap i (off / BSIZE);
        bp ← kbread (i_dev ip) b;
        let m := Z.min left (BSIZE - off mod BSIZE) in
        d ← kdata bp;
        kbrelse bp;;
        readi_loop fuel i (off + m) (left - m)
          (dst ++ take (Z.to_nat m) (drop (Z.to_nat (off mod BSIZE)) d))
    end.

Definition readi (i : nat) (off n : Z) : K kst (Z * list Z) :=
  ip ← ip_ i;
  if i_type ip =? T_DEV then
    d ← dev_driver (i_major ip);
    match d with
    | None => mret (-1, [])
    | Some ConsoleDriver => consoleread i (s32 n)
    end
  else if (i_size ip <? off) || (u32 (off + n) <? off) then mret (-1, [])
  else
    let n := if i_size ip <? u32 (off + n) then i_size ip - off else n in
    dst ← readi_loop (Z.to_nat (n / BSIZE + 2)) i off n [];
    mret (s32 n, dst).

(** The loop of [writei]; the result is the offset after it. *)
Fixpoint writei_loop (fuel : nat) (i : nat) (src : list Z) (off left : Z) : K kst Z :=
  if left <=? 0 then mret off
  else
    match fuel with
    | O => spin
    | S fuel =>
        ip ← ip_ i;
        b ← bmap i (off / BSIZE);
        bp ← kbread (i_dev ip) b;
        let m := Z.min left (BSIZE - off mod BSIZE) in
        d ← kdata bp;
        kset bp (splice (Z.to_nat (off mod BSIZE)) (take (Z.to_nat m) src) d);;
        klog_write bp;;
        kbrelse bp;;
        writei_loop fuel i (drop (Z.to_nat m) src) (off + m) (left - m)
    end.

Definition writei (i : nat) (src : list Z) (off n : Z) : K kst Z :=
  ip ← ip_ i;
  if i_type ip =? T_DEV then
    d ← dev_driver (i_major ip);
    match d with
    | None => mret (-1)
    | Some ConsoleDriver => consolewrite i src (s32 n)
    end
  else if (i_size ip <? off) || (u32 (off + n) <? off) then mret (-1)
  else if MAXFILE * BSIZE <? u32 (off + n) then mret (-1)
  else
    off ← writei_loop (Z.to_nat (n / BSIZE + 2)) i src off n;
    ip ← ip_ i;
    (if (0 <? n) && (i_size ip <? off) then
       mod_ip i (set_i_size off);;
       iupdate i
     else mret ());;
    mret (s32 n).

(** ** Directories *)

(** [struct dirent] as 16 bytes. *)
Definition DIRENT : Z := 16.
Definition de_inum (de : list Z) : Z := get16 de 0.
Definition de_name (de : list Z) : list Z := drop 2 de.
Definition mk_dirent (inum : Z) (name : list Z) : list Z := le16 inum ++ name.

Definition namecmp (s t : list Z) : Z := strncmp (bytes_ptr s) (bytes_ptr t) DIRSIZ.

(** The loop of [dirlookup]: the inode number of the entry and its offset.
    The offset grows by 16, so [fuel] entries cover a directory of [16 * fuel] bytes. *)
Fixpoint dirlookup_loop (fuel : nat) (dp : nat) (name : list Z) (off : Z) : K kst (option (Z * Z)) :=
  ip ← ip_ dp;
  if off <? i_size ip then
    match fuel with
    | O => spin
    | S fuel =>
        '(r, de) ← readi dp off DIRENT;
        if negb (r =? DIRENT) then panic "dirlookup read"
        else if de_inum de =? 0 then dirlookup_loop fuel dp name (off + DIRENT)
        else if namecmp name (de_name de) =? 0 then mret (Some (de_inum de, off))
        else dirlookup_loop fuel dp name (off + DIRENT)
    end
  else mret None.

(** The inode found, with the offset stored at [poff]. *)
Definition dirlookup (dp : nat) (name : list Z) : K kst (option (nat * Z)) :=
  ip ← ip_ dp;
  if negb (i_type ip =? T_DIR) then panic "dirlookup not DIR"
  else
    r ← dirlookup_loop (Z.to_nat (i_size ip / DIRENT + 1)) dp name 0;
    match r with
    | Some (inum, off) =>
        ip ← ip_ dp;
        j ← iget (i_dev ip) inum;
        mret (Some (j, off))
    | None => mret None
    end.

(** The loop of [dirlink]: the offset of the first free entry, or the end. *)
Fixpoint dirlink_loop (fuel : nat) (dp : nat) (off : Z) : K kst Z :=
  ip ← ip_ dp;
  if off <? i_size ip then
    match fuel with
    | O => spin
    | S fuel =>
        '(r, de) ← readi dp off DIRENT;
        if negb (r =? DIRENT) then panic "dirlink read"
        else if de_inum de =? 0 then mret off
        else dirlink_loop fuel dp (off + DIRENT)
    end
  else mret off.

Definition dirlink (dp : nat) (name : list Z) (inum : Z) : K kst Z :=
  found ← dirlookup dp name;
  match found with
  | Some (ip, _) => iput ip;; mret (-1)
  | None =>
      ip ← ip_ dp;
      off ← dirlink_loop (Z.to_nat (i_size ip / DIRENT + 1)) dp 0;
      let de := mk_dirent inum (strncpy (bytes_ptr name) DIRSIZ) in
      r ← writei dp de off DIRENT;
      if negb (r =? DIRENT) then panic "dirlink" else mret 0
  end.

(** ** Paths *)

(** The loops of [skipelem] that pass slashes. *)
Fixpoint skip_slashes (path : list Z) : list Z :=
  match path with
  | c :: path' => if c =? SLASH then skip_slashes path' else path
  | [] => []
  end.

(** The loop that passes an element: its characters and the rest. *)
Fixpoint elem_end (path : list Z) : list Z * list Z :=
  match path with
  | c :: path' =>
      if c =? SLASH then ([], path)
      else let '(e, r) := elem_end path' in (c :: e, r)
  | [] => ([], [])
  end.

(** The rest of the path and the contents of [name], or [None] when there is no element. *)
Definition skipelem (path : list Z) (name : list Z) : option (list Z * list Z) :=
  match skip_slashes path with
  | [] => None
  | path =>
      let '(s, rest) := elem_end path in
      let len := Z.of_nat (length s) in
      let name := if DIRSIZ <=? len then take (Z.to_nat DIRSIZ) s
                  else splice 0 (s ++ [0]) name in
      Some (skip_slashes rest, name)
  end.

(** The loop of [namex], which takes an element of the path in each round. *)
Fixpoint namex_loop (fuel : nat) (ip : nat) (path : list Z) (nameiparent : bool) (name : list Z) :
  K kst (option nat * list Z) :=
  match skipelem path name with
  | None =>
      if nameiparent then iput ip;; mret (None, name) else mret (Some ip, name)
  | Some (path, name) =>
      match fuel with
      | O => spin
      | S fuel =>
          ilock ip;;
          x ← ip_ ip;
          if negb (i_type x =? T_DIR) then iunlockput ip;; mret (None, name)
          else if nameiparent && bool_decide (path = []) then iunlock ip;; mret (Some ip, name)
          else
            next ← dirlookup ip name;
            match next with
            | None => iunlockput ip;; mret (None, name)
            | Some (next, _) => iunlockput ip;; namex_loop fuel next path nameiparent name
            end
      end
  end.

Definition namex (path : list Z) (nameiparent : bool) (name : list Z) : K kst (option nat * list Z) :=
  ip ← (if bool_decide (head path = Some SLASH) then iget ROOTDEV ROOTINO
        else
          '(_, p) ← curproc;
          match cwd p with
          | Some i => idup i
          | None => panic "trap"
          end);
  namex_loop (length path) ip path nameiparent name.

Definition namei (path : list Z) : K kst (option nat) :=
  '(ip, _) ← namex path false (replicate (Z.to_nat DIRSIZ) 0);
  mret ip.

Definition nameiparent (path : list Z) (name : list Z) : K kst (option nat * list Z) :=
  namex path true name.
