(* ===== verification/Mkfs.v ===== *)
(** * Making a file system (src/mkfs.c)

    The program that builds the disk image.  The image is a map of sectors with
    a length; a run ends normally, with [exit(1)], or in a failed [assert].  A
    file to copy is given by its name and the results of the calls of [read] on
    it, [None] if it cannot be opened. *)

From Stdlib Require Import ZArith Lia String.
From stdpp Require Import prelude numbers strings option gmap list.
From S2P Require Import Prelude Kernel Mem Bio Log Kst Inode Fs.

Definition NINODES : Z := 200.
Definition nbitmap : Z := FSSIZE / (BSIZE * 8) + 1.
Definition ninodeblocks : Z := NINODES / IPB + 1.
Definition nlog : Z := LOGSIZE.
Definition nmeta : Z := 2 + nlog + ninodeblocks + nbitmap.
Definition nblocks : Z := FSSIZE - nmeta.

(** [xint] and [xshort]: the number whose bytes in memory are those of [x] in
    little-endian order; on a little-endian machine [x] at its width. *)
Definition xshort (x : Z) : Z := u16 x.
Definition xint (x : Z) : Z := u32 x.

(** ** State and errors *)

Record mkfs : Type := mkMkfs {
  fsimg : Z -> block;
  fslen : Z;
  freeinode : Z;
  freeblock : Z }.

Inductive mkout (A : Type) : Type :=
  | Done (a : A) (s : mkfs)
  | Exit1
  | AssertFailed.
Arguments Done {A}.
Arguments Exit1 {A}.
Arguments AssertFailed {A}.

Definition M (A : Type) : Type := mkfs -> mkout A.

#[export] Instance M_ret : MRet M := fun _ a s => Done a s.
#[export] Instance M_bind : MBind M := fun _ _ f c s =>
  match c s with
  | Done a s => f a s
  | Exit1 => Exit1
  | AssertFailed => AssertFailed
  end.
Definition assert_ (b : bool) : M unit := fun s => if b then Done tt s else AssertFailed.

(** The next free inode and block, as [freeinode++] and [freeblock++]. *)
Definition next_inode : M Z := fun s => Done (freeinode s) (mkMkfs (fsimg s) (fslen s) (u32 (freeinode s + 1)) (freeblock s)).
Definition next_block : M Z := fun s => Done (freeblock s) (mkMkfs (fsimg s) (fslen s) (freeinode s) (u32 (freeblock s + 1))).

(** ** Sectors *)

Definition wsect (sec : Z) (buf : block) : M unit := fun s =>
  Done tt (mkMkfs (fun c => if c =? sec then buf else fsimg s c) (Z.max (fslen s) (sec + 1)) (freeinode s) (freeblock s)).

(** Beyond the end of the image [read] returns less than a sector. *)
Definition rsect (sec : Z) : M block := fun s =>
  if sec <? fslen s then Done (fsimg s sec) s else Exit1.

Definition mk_sb : superblock :=
  mkSb (xint FSSIZE) (xint nblocks) (xint NINODES) (xint nlog) (xint 2) (xint (2 + nlog)) (xint (2 + nlog + ninodeblocks)).

(** [memmove(buf, &sb, sizeof(sb))] into zeroes. *)
Definition sb_block (sb : superblock) : block :=
  put32 24 (sb_bmapstart sb) (put32 20 (sb_inodestart sb) (put32 16 (sb_logstart sb) (put32 12 (sb_nlog sb)
    (put32 8 (sb_ninodes sb) (put32 4 (sb_nblocks sb) (put32 0 (sb_size sb) (replicate (Z.to_nat BSIZE) 0))))))).

(** ** Inodes *)

Definition winode (inum : Z) (ip : inode) : M unit :=
  let bn := IBLOCK inum mk_sb in
  buf ← rsect bn;
  wsect bn (put_dinode ip (dino inum) buf).

Definition rinode (inum : Z) : M inode :=
  let bn := IBLOCK inum mk_sb in
  buf ← rsect bn;
  mret (load_dinode buf (dino inum) inode0).

Definition mk_ialloc (type : Z) : M Z :=
  inum ← next_inode;
  winode inum (set_i_size (xint 0) (set_i_nlink (xshort 1) (set_i_type (s16 (xshort type)) inode0)));;
  mret inum.

(** ** The bitmap *)

Definition mk_bitmap (used : Z) : block :=
  foldl mark_bit (replicate (Z.to_nat BSIZE) 0) (seqZ 0 used).

Definition mk_balloc (used : Z) : M unit :=
  assert_ (used <? BSIZE * 8);;
  wsect (sb_bmapstart mk_sb) (mk_bitmap used).

(** ** Appending to a file *)

(** The sector of block [fbn] of the file, allocated if need be. *)
Definition iappend_block (din : inode) (fbn : Z) : M (Z * inode) :=
  if fbn <? NDIRECT then
    din ← (if addr_of fbn din =? 0 then b ← next_block; mret (set_addr fbn (xint b) din) else mret din);
    mret (addr_of fbn din, din)
  else
    din ← (if addr_of NDIRECT din =? 0 then b ← next_block; mret (set_addr NDIRECT (xint b) din) else mret din);
    indirect ← rsect (addr_of NDIRECT din);
    indirect ← (if word (fbn - NDIRECT) indirect =? 0 then
                  b ← next_block;
                  let indirect := put32 (4 * Z.to_nat (fbn - NDIRECT)) (xint b) indirect in
                  wsect (addr_of NDIRECT din) indirect;;
                  mret indirect
                else mret indirect);
    mret (word (fbn - NDIRECT) indirect, din).

(** The loop: at most [fuel] blocks for the bytes [p]. *)
Fixpoint iappend_loop (fuel : nat) (din : inode) (off : Z) (p : list Z) : M (Z * inode) :=
  let n := Z.of_nat (length p) in
  if n <=? 0 then mret (off, din)
  else
    match fuel with
    | O => fun _ => AssertFailed
    | S fuel =>
        let fbn := off / BSIZE in
        assert_ (fbn <? MAXFILE);;
        '(x, din) ← iappend_block din fbn;
        let n1 := Z.min n ((fbn + 1) * BSIZE - off) in
        buf ← rsect x;
        wsect x (splice (Z.to_nat (off - fbn * BSIZE)) (take (Z.to_nat n1) p) buf);;
        iappend_loop fuel din (off + n1) (drop (Z.to_nat n1) p)
    end.

Definition iappend (inum : Z) (p : list Z) : M unit :=
  din ← rinode inum;
  '(off, din) ← iappend_loop (Z.to_nat (Z.of_nat (length p) / BSIZE + 2)) din (i_size din) p;
  winode inum (set_i_size (xint off) din).

(** ** main *)

(** [strcpy] and [strncpy] of a name into [de.name], and the entry. *)
Definition dirent_of (inum : Z) (name : list Z) : list Z :=
  mk_dirent (xshort inum) (take (Z.to_nat DIRSIZ) (name ++ replicate (Z.to_nat DIRSIZ) 0)).

Fixpoint copy_reads (inum : Z) (reads : list (list Z)) : M unit :=
  match reads with
  | [] => mret ()
  | buf :: reads => iappend inum buf;; copy_reads inum reads
  end.

Definition drop_underscore (name : list Z) : list Z :=
  match name with
  | 95 :: name => name
  | _ => name
  end.

Fixpoint copy_files (files : list (list Z * option (list (list Z)))) : M unit :=
  match files with
  | [] => mret ()
  | (name, fd) :: files =>
      assert_ (negb (bool_decide (SLASH ∈ name)));;
      match fd with
      | None => fun _ => Exit1
      | Some reads =>
          inum ← mk_ialloc T_FILE;
          iappend ROOTINO (dirent_of inum (drop_underscore name));;
          copy_reads inum reads;;
          copy_files files
      end
  end.

(** The loop that fills the image with zeroes. *)
Fixpoint zero_image (n : nat) (i : Z) : M unit :=
  match n with
  | O => mret ()
  | S n => wsect i (replicate (Z.to_nat BSIZE) 0);; zero_image n (i + 1)
  end.

Definition mkfs_main (files : list (list Z * option (list (list Z)))) : M unit :=
  assert_ (BSIZE mod 64 =? 0);;
  assert_ (BSIZE mod DIRENT =? 0);;
  (fun s => Done tt (mkMkfs (fsimg s) (fslen s) (freeinode s) nmeta));;
  zero_image (Z.to_nat FSSIZE) 0;;
  wsect 1 (sb_block mk_sb);;
  rootino ← mk_ialloc T_DIR;
  assert_ (rootino =? ROOTINO);;
  iappend rootino (dirent_of rootino [46]);;
  iappend rootino (dirent_of rootino [46; 46]);;
  copy_files files;;
  din ← rinode rootino;
  let off := xint (i_size din) in
  let off := u32 ((off / BSIZE + 1) * BSIZE) in
  winode rootino (set_i_size (xint off) din);;
  s ← (fun s => Done s s);
  mk_balloc (s32 (freeblock s)).

(** The image before the run: an empty file. *)
Definition mkfs_start : mkfs := mkMkfs (fun _ => replicate (Z.to_nat BSIZE) 0) 0 1 0.
