(* ===== verification/Fsblock.v ===== *)
(** * The block allocator over the log

    What [bzero], [balloc] and [bfree] do to the blocks as the file system sees
    them, in a transaction that has room in the log. *)

From Stdlib Require Import ZArith Lia String.
From stdpp Require Import prelude numbers strings option gmap list.
From S2P Require Import Prelude Kernel Mem Sched Monitor Sleeplock Bio Log Logcrash Logtxn Console Kst Inode.

(** ** Runs on the kernel's state *)

Lemma lift_lst {A} (c : K lst A) h s a h' l' :
  c h (k_lst s) = Ret a h' l' -> (lift c : K kst A) h s = Ret a h' (set_k_lst l' s).
Proof. intros Hc. unfold lift. cbn [get_part Has_k_lst]. by rewrite Hc. Qed.

(** The state with the log, the cache and the disk of [l]. *)
Notation "s ◁ l" := (set_k_lst l s) (at level 10, l at level 9, left associativity).

Section prims.
Context (n : Z).

Lemma kbread_run s H V B c :
  log_inv (k_lst s) n H V B -> 0 <= c < disksize (lbio (k_lst s)) -> c ∉ H.*2 -> c ∈ B \/ (length H + size B < NBUF)%nat ->
  exists i l, kbread 1 c [] s = Ret i [] (s ◁ l) /\ log_inv l n ((i, c) :: H) V B /\ inside (k_lst s) l.
Proof.
  intros Hinv Hc Hh Hr. destruct (log_read_run _ n H V B c Hinv Hc Hh Hr) as (i & l & R & I & N & _).
  exists i, l. split_and!; [by apply lift_lst|done..].
Qed.

Lemma kdata_run s H V B i c : log_inv (k_lst s) n H V B -> (i, c) ∈ H -> kdata i [] s = Ret (V c) [] s.
Proof.
  intros Hinv Hin. pose proof (log_data_run _ n H V B i c Hinv Hin) as R. unfold kdata. rewrite (lift_lst _ _ _ _ _ _ R). by destruct s.
Qed.

Lemma kset_run s H V B i c d :
  log_inv (k_lst s) n H V B -> (i, c) ∈ H -> ~ in_log (llog (k_lst s)) c -> length d = 512%nat ->
  exists l, kset i d [] s = Ret tt [] (s ◁ l) /\ log_inv l n H (wr c d V) B /\ inside (k_lst s) l.
Proof.
  intros Hinv Hin Hnl Hd. destruct (log_set_run _ n H V B i c d Hinv Hin Hnl Hd) as (l & R & I & N).
  exists l. split_and!; [by apply lift_lst|done..].
Qed.

Lemma klog_write_run s H V B i c :
  log_inv (k_lst s) n H V B -> (i, c) ∈ H -> home (k_lst s) c -> (size B < 29)%nat -> 1 <= l_outstanding (llog (k_lst s)) ->
  exists l, klog_write i [] s = Ret tt [] (s ◁ l) /\ log_inv l n H V ({[c]} ∪ B) /\ inside (k_lst s) l.
Proof.
  intros Hinv Hin Hc HB Ho. destruct (log_write_run _ n H V B i c Hinv Hin Hc HB Ho) as (l & R & I & N).
  exists l. split_and!; [by apply lift_lst|done..].
Qed.

Lemma kbrelse_run s i c H V B :
  log_inv (k_lst s) n ((i, c) :: H) V B -> c ∈ B \/ V c = disk (lbio (k_lst s)) c ->
  exists l, kbrelse i [] s = Ret tt [] (s ◁ l) /\ log_inv l n H V B /\ inside (k_lst s) l.
Proof.
  intros Hinv Hc. destruct (log_brelse_run _ n [] i c H V B Hinv Hc) as (l & R & I & N).
  exists l. split_and!; [by apply lift_lst|done..].
Qed.
End prims.

Section blocks.
Context (n : Z).

(** Reading a block, and rewriting it in a transaction. *)
Lemma read_block s H V B c :
  log_inv (k_lst s) n H V B -> 0 <= c < disksize (lbio (k_lst s)) -> c ∉ H.*2 -> c ∈ B \/ (length H + size B < NBUF)%nat ->
  exists i l1 l2, kbread 1 c [] s = Ret i [] (s ◁ l1) /\ kdata i [] (s ◁ l1) = Ret (V c) [] (s ◁ l1) /\
    kbrelse i [] (s ◁ l1) = Ret tt [] (s ◁ l2) /\ log_inv l2 n H V B /\ inside (k_lst s) l2.
Proof.
  intros Hinv Hc Hh Hr. destruct (kbread_run n s H V B c Hinv Hc Hh Hr) as (i & l1 & R1 & I1 & N1).
  assert (c ∈ B \/ V c = disk (lbio l1) c) as Hv.
  { destruct (decide (c ∈ B)); [by left|right]. rewrite (inside_disk _ _ N1). by eapply view_disk; [apply Hinv| |]. }
  destruct (kbrelse_run n (s ◁ l1) i c H V B I1 Hv) as (l2 & R2 & I2 & N2).
  exists i, l1, l2. split_and!; [done| |done|done|by etrans].
  apply (kdata_run n (s ◁ l1) _ V B i c I1). by left.
Qed.

Lemma update_block s H V B c d :
  log_inv (k_lst s) n H V B -> home (k_lst s) c -> c ∉ H.*2 -> (length H + size B < 29)%nat ->
  1 <= l_outstanding (llog (k_lst s)) -> length d = 512%nat ->
  exists i l1 l2 l3 l4, kbread 1 c [] s = Ret i [] (s ◁ l1) /\ kdata i [] (s ◁ l1) = Ret (V c) [] (s ◁ l1) /\
    kset i d [] (s ◁ l1) = Ret tt [] (s ◁ l2) /\ klog_write i [] (s ◁ l2) = Ret tt [] (s ◁ l3) /\
    kbrelse i [] (s ◁ l3) = Ret tt [] (s ◁ l4) /\ log_inv l4 n H (wr c d V) ({[c]} ∪ B) /\ inside (k_lst s) l4.
Proof.
  intros Hinv Hc Hh Hr Ho Hd.
  destruct (kbread_run n s H V B c Hinv (proj1 Hc) Hh) as (i & l1 & R1 & I1 & N1); [right; unfold NBUF; lia|].
  pose proof (inside_home _ _ _ N1 Hc) as Hc1. assert ((i, c) ∈ (i, c) :: H) as Hin by left.
  destruct (kset_run n (s ◁ l1) _ V B i c d I1 Hin (proj2 Hc1) Hd) as (l2 & R2 & I2 & N2).
  destruct (klog_write_run n (s ◁ l2) _ _ B i c I2 Hin) as (l3 & R3 & I3 & N3);
    [by eapply inside_home|lia|pose proof (in_out _ _ N1); pose proof (in_out _ _ N2); cbn [k_lst set_k_lst] in *; lia|].
  destruct (kbrelse_run n (s ◁ l3) i c H _ _ I3) as (l4 & R4 & I4 & N4); [left; set_solver|].
  exists i, l1, l2, l3, l4. split_and!; [done| |done|done|done|done|].
  - by apply (kdata_run n (s ◁ l1) _ V B i c I1).
  - etrans; [exact N1|]. etrans; [exact N2|]. by etrans.
Qed.
End blocks.

Lemma size_add (b : Z) (B : gset Z) : (size ({[b]} ∪ B) <= S (size B))%nat.
Proof.
  rewrite size_union_alt, size_singleton. pose proof (subseteq_size (B ∖ {[b]}) B ltac:(set_solver)). lia.
Qed.

(** ** The layout of the disk *)

(** The log, then the inode blocks, then one bitmap block, then the data from
    [d0] on: what mkfs makes of [FSSIZE] blocks. *)
Record layout (sb : superblock) (size start d0 : Z) : Prop := {
  ly_log : 2 <= start /\ start + LOGSIZE <= sb_inodestart sb;
  ly_inodes : 1 < sb_ninodes sb /\ sb_inodestart sb + sb_ninodes sb / IPB < sb_bmapstart sb;
  ly_bmap : sb_bmapstart sb < d0;
  ly_data : d0 < sb_size sb <= size;
  ly_one : sb_size sb <= BPB }.

Section layout.
Context (sb : superblock) (size start d0 : Z).
Hypothesis L : layout sb size start d0.

Lemma ly_order : 0 <= start /\ start + LOGSIZE <= sb_inodestart sb < sb_bmapstart sb /\ sb_bmapstart sb < d0 < sb_size sb /\ sb_size sb <= size.
Proof.
  destruct L as [[? ?] [? ?] ? [? ?] ?]. unfold IPB in *. pose proof (Z.div_pos (sb_ninodes sb) 8 ltac:(lia) ltac:(lia)). lia.
Qed.

Lemma ly_bblock b : 0 <= b < sb_size sb -> BBLOCK b sb = sb_bmapstart sb.
Proof. intros Hb. unfold BBLOCK. rewrite Z.div_small; [lia|]. pose proof (ly_one _ _ _ _ L). lia. Qed.

Lemma ly_iblock i : 0 <= i < sb_ninodes sb -> start + LOGSIZE <= IBLOCK i sb < sb_bmapstart sb.
Proof.
  intros Hi. unfold IBLOCK. destruct L as [[? ?] [? ?] ? ? ?]. unfold IPB in *.
  pose proof (Z.div_pos i 8 ltac:(lia) ltac:(lia)). pose proof (Z.div_le_mono i (sb_ninodes sb) 8 ltac:(lia) ltac:(lia)). lia.
Qed.
End layout.

(** A block beyond the log is one the file system may write. *)
Lemma layout_home sb l d0 c :
  layout sb (disksize (lbio l)) (l_start (llog l)) d0 -> l_start (llog l) + LOGSIZE <= c < sb_size sb -> home l c.
Proof. intros [[? ?] ? ? ? ?] Hc. unfold LOGSIZE in *. split; [lia|]. unfold in_log, LOGSIZE. lia. Qed.

(** ** The bitmap *)

Lemma testbit_one k j : 0 <= k -> 0 <= j -> Z.testbit (Z.shiftl 1 k) j = (j =? k).
Proof.
  intros Hk Hj. rewrite Z.shiftl_spec by done. destruct (Z.eqb_spec j k) as [->|Hne]; [by rewrite Z.sub_diag|].
  destruct (decide (j < k)); [by apply Z.testbit_neg_r; lia|]. apply Z.bits_above_log2; cbn; lia.
Qed.

Lemma bit_set_testbit d bi : bit_set d bi = Z.testbit (nth (Z.to_nat (bi / 8)) d 0) (bi mod 8).
Proof.
  unfold bit_set. pose proof (Z.mod_pos_bound bi 8 ltac:(lia)) as Hk. set (x := nth _ d 0). set (k := bi mod 8) in *.
  destruct (Z.testbit x k) eqn:E; destruct (Z.eqb_spec (Z.land x (Z.shiftl 1 k)) 0) as [E0|E0]; try done; exfalso.
  - apply (f_equal (fun y => Z.testbit y k)) in E0. rewrite Z.land_spec, E, testbit_one, Z.eqb_refl, Z.bits_0 in E0 by lia. done.
  - apply E0. apply Z.bits_inj'. intros j Hj. rewrite Z.land_spec, Z.bits_0, testbit_one by lia.
    destruct (Z.eqb_spec j k) as [->|Hne]; [by rewrite E|by rewrite andb_false_r].
Qed.

Lemma nth_alter (f : Z -> Z) i j (l : list Z) d : (i < length l)%nat -> nth j (alter f i l) d = if decide (i = j) then f (nth j l d) else nth j l d.
Proof.
  intros Hi. rewrite !nth_lookup. case_decide; subst.
  - rewrite list_lookup_alter_eq. by destruct (lookup_lt_is_Some_2 l j Hi) as [x ->].
  - by rewrite list_lookup_alter_ne.
Qed.

Section bits.
Context (d : block) (bi bj : Z).
Hypothesis Hd : length d = 512%nat.
Hypothesis Hi : 0 <= bi < BPB.
Hypothesis Hj : 0 <= bj < BPB.

Lemma bit_places : (Z.to_nat (bi / 8) < length d)%nat /\ (bi / 8 = bj / 8 -> bi mod 8 = bj mod 8 -> bi = bj).
Proof.
  unfold BPB, BSIZE in *. pose proof (Z.div_mod bi 8). pose proof (Z.div_mod bj 8).
  assert (bi / 8 < 512) by (apply Z.div_lt_upper_bound; lia). pose proof (Z.div_pos bi 8). lia.
Qed.

Lemma bit_mark : bit_set (mark_bit d bi) bj = bit_set d bj || (bj =? bi).
Proof.
  destruct bit_places as [Hl He]. rewrite !bit_set_testbit. unfold mark_bit, block in *. rewrite nth_alter by done.
  pose proof (Z.mod_pos_bound bi 8 ltac:(lia)). pose proof (Z.mod_pos_bound bj 8 ltac:(lia)).
  pose proof (Z.div_pos bi 8). pose proof (Z.div_pos bj 8).
  case_decide as E.
  - unfold u8. rewrite Z.mod_pow2_bits_low, Z.lor_spec, testbit_one by lia. f_equal.
    destruct (Z.eqb_spec bj bi) as [->|Hne]; [by rewrite Z.eqb_refl|]. apply Z.eqb_neq. intros E2. apply Hne. symmetry. apply He; lia.
  - rewrite (proj2 (Z.eqb_neq bj bi)); [by rewrite orb_false_r|]. intros ->. done.
Qed.

Lemma bit_clear : bit_set (clear_bit d bi) bj = bit_set d bj && negb (bj =? bi).
Proof.
  destruct bit_places as [Hl He]. rewrite !bit_set_testbit. unfold clear_bit, block in *. rewrite nth_alter by done.
  pose proof (Z.mod_pos_bound bi 8 ltac:(lia)). pose proof (Z.mod_pos_bound bj 8 ltac:(lia)).
  pose proof (Z.div_pos bi 8). pose proof (Z.div_pos bj 8).
  case_decide as E.
  - unfold u8. rewrite Z.mod_pow2_bits_low, Z.land_spec, Z.lnot_spec, testbit_one by lia. do 2 f_equal.
    destruct (Z.eqb_spec bj bi) as [->|Hne]; [by rewrite Z.eqb_refl|]. apply Z.eqb_neq. intros E2. apply Hne. symmetry. apply He; lia.
  - rewrite (proj2 (Z.eqb_neq bj bi)); [by rewrite andb_true_r|]. intros ->. done.
Qed.
End bits.

Lemma length_mark d bi : length (mark_bit d bi) = length d.
Proof. apply length_alter. Qed.
Lemma length_clear d bi : length (clear_bit d bi) = length d.
Proof. apply length_alter. Qed.

(** The search for a clear bit. *)
Lemma free_bit_spec m d bi :
  match free_bit m d bi with
  | Some b => bi <= b < bi + Z.of_nat m /\ bit_set d b = false
  | None => forall b, bi <= b < bi + Z.of_nat m -> bit_set d b = true
  end.
Proof.
  revert bi. induction m as [|m IH]; intros bi; cbn [free_bit]; [lia|]. destruct (bit_set d bi) eqn:E; [|split; [lia|done]].
  specialize (IH (bi + 1)). destruct (free_bit m d (bi + 1)) as [b|]; [split; [lia|apply IH]|].
  intros b Hb. destruct (decide (b = bi)) as [->|]; [done|]. apply IH. lia.
Qed.

(** Block [b] is marked as in use. *)
Definition used (sb : superblock) (V : Z -> block) (b : Z) : bool := bit_set (V (sb_bmapstart sb)) b.

(** ** The file system in a transaction *)

(** Process [n] is in a transaction and holds the buffers [H]; [V] is the file
    system's view of the blocks and [B] the set of those in the transaction;
    what lies below [d0] is not free.  Without [w] the process need not be in a
    transaction. *)
Record fs_inv_ (w : bool) (s : kst) (n : Z) (H : list (nat * Z)) (V : Z -> block) (B : gset Z) (d0 : Z) : Prop := {
  fi_log : log_inv (k_lst s) n H V B;
  fi_w : w = true -> 1 <= l_outstanding (llog (k_lst s));
  fi_lay : layout (k_sb s) (disksize (lbio (k_lst s))) (l_start (llog (k_lst s))) d0;
  fi_meta : forall b, 0 <= b < d0 -> used (k_sb s) V b = true }.

Arguments fi_log {w}.
Arguments fi_w {w}.
Arguments fi_lay {w}.
Arguments fi_meta {w}.

Abbreviation fs_inv := (fs_inv_ true).

Lemma fi_out s n H V B d0 : fs_inv s n H V B d0 -> 1 <= l_outstanding (llog (k_lst s)).
Proof. intros I. by apply I. Qed.

Lemma fs_inside {w} s n H V B d0 l H' V' B' :
  fs_inv_ w s n H V B d0 -> inside (k_lst s) l -> log_inv l n H' V' B' ->
  (forall b, 0 <= b < d0 -> used (k_sb s) V' b = true) -> fs_inv_ w (s ◁ l) n H' V' B' d0.
Proof.
  intros [H1 H2 H3 H4] Hi Hl Hm. split; cbn [k_lst k_sb set_k_lst]; [done|by rewrite (in_out _ _ Hi)| |done].
  by rewrite (inside_size _ _ Hi), (in_start _ _ Hi).
Qed.

Lemma fi_len {w} s n H V B d0 c : fs_inv_ w s n H V B d0 -> length (V c) = 512%nat.
Proof. intros [H1 _ _ _]. eapply view_len. apply H1. Qed.

Lemma fi_home {w} s n H V B d0 c :
  fs_inv_ w s n H V B d0 -> l_start (llog (k_lst s)) + LOGSIZE <= c < sb_size (k_sb s) -> home (k_lst s) c.
Proof. intros [_ _ Hl _]. by eapply layout_home. Qed.

Definition zeros : block := replicate (Z.to_nat BSIZE) 0.

(** The view after [balloc] has returned [b]. *)
Definition allocated (sb : superblock) (V : Z -> block) (b : Z) : Z -> block :=
  wr b zeros (wr (sb_bmapstart sb) (mark_bit (V (sb_bmapstart sb)) b) V).

(** The view after [bfree]. *)
Definition freed (sb : superblock) (V : Z -> block) (b : Z) : Z -> block :=
  wr (sb_bmapstart sb) (clear_bit (V (sb_bmapstart sb)) b) V.

Section alloc.
Context {w : bool} (s : kst) (n : Z) (H : list (nat * Z)) (V : Z -> block) (B : gset Z) (d0 : Z).
Hypothesis I : fs_inv_ w s n H V B d0.

(** The bitmap block is one the file system may write. *)
Lemma bmap_home : home (k_lst s) (sb_bmapstart (k_sb s)).
Proof.
  apply (fi_home _ _ _ _ _ _ _ I). pose proof (ly_order _ _ _ _ (fi_lay _ _ _ _ _ _ I)). lia.
Qed.

Lemma data_home b : d0 <= b < sb_size (k_sb s) -> home (k_lst s) b /\ b <> sb_bmapstart (k_sb s).
Proof.
  intros Hb. pose proof (ly_order _ _ _ _ (fi_lay _ _ _ _ _ _ I)).
  split; [|lia]. apply (fi_home _ _ _ _ _ _ _ I). lia.
Qed.

Lemma free_is_data b : 0 <= b < sb_size (k_sb s) -> used (k_sb s) V b = false -> d0 <= b < sb_size (k_sb s).
Proof.
  intros Hb Hu. destruct (decide (d0 <= b)); [lia|]. pose proof (fi_meta _ _ _ _ _ _ I b ltac:(lia)). congruence.
Qed.

Lemma used_allocated b b' :
  d0 <= b < sb_size (k_sb s) -> 0 <= b' < sb_size (k_sb s) ->
  used (k_sb s) (allocated (k_sb s) V b) b' = used (k_sb s) V b' || (b' =? b).
Proof.
  intros Hb Hb'. destruct (data_home b Hb) as [_ Hne]. unfold used, allocated. rewrite wr_other by congruence. rewrite wr_same.
  pose proof (ly_order _ _ _ _ (fi_lay _ _ _ _ _ _ I)). pose proof (ly_one _ _ _ _ (fi_lay _ _ _ _ _ _ I)).
  unfold LOGSIZE in *. apply bit_mark; [exact (fi_len _ _ _ _ _ _ _ I)|lia|lia].
Qed.

Lemma used_freed b b' :
  0 <= b < sb_size (k_sb s) -> 0 <= b' < sb_size (k_sb s) ->
  used (k_sb s) (freed (k_sb s) V b) b' = used (k_sb s) V b' && negb (b' =? b).
Proof.
  intros Hb Hb'. unfold used, freed. rewrite wr_same. destruct (fi_lay _ _ _ _ _ _ I) as [? ? ? ? ?].
  apply bit_clear; [exact (fi_len _ _ _ _ _ _ _ I)|lia|lia].
Qed.

End alloc.

Lemma bzero_run s n H V B d0 b :
  fs_inv s n H V B d0 -> d0 <= b < sb_size (k_sb s) -> b ∉ H.*2 -> (length H + size B < 29)%nat ->
  exists l, bzero 1 b [] s = Ret tt [] (s ◁ l) /\ log_inv l n H (wr b zeros V) ({[b]} ∪ B) /\ inside (k_lst s) l.
Proof.
  intros I Hb Hh Hr. destruct (data_home _ _ _ _ _ _ I b Hb) as [Hhome _].
  destruct (update_block n s H V B b zeros (fi_log _ _ _ _ _ _ I) Hhome Hh Hr (fi_out _ _ _ _ _ _ I) eq_refl)
    as (i & l1 & l2 & l3 & l4 & R1 & R2 & R3 & R4 & R5 & I5 & N5).
  exists l4. split_and!; [|done|done]. unfold bzero. fold zeros. run_with R1. run_with R3. run_with R4. by run_with R5.
Qed.

Section alloc_run.
Context (s : kst) (n : Z) (H : list (nat * Z)) (V : Z -> block) (B : gset Z) (d0 : Z).
Hypothesis I : fs_inv s n H V B d0.

Lemma balloc_run :
  (exists b, 0 <= b < sb_size (k_sb s) /\ used (k_sb s) V b = false) ->
  (forall b, 0 <= b < sb_size (k_sb s) -> used (k_sb s) V b = false -> b ∉ H.*2) ->
  sb_bmapstart (k_sb s) ∉ H.*2 -> (length H + size B < 28)%nat ->
  exists b l, balloc 1 [] s = Ret b [] (s ◁ l) /\ d0 <= b < sb_size (k_sb s) /\ used (k_sb s) V b = false /\
    log_inv l n H (allocated (k_sb s) V b) ({[b]} ∪ ({[sb_bmapstart (k_sb s)]} ∪ B)) /\ inside (k_lst s) l.
Proof.
  intros (b0 & Hb0 & Hu0) Hfree Hbm Hroom. pose proof (ly_order _ _ _ _ (fi_lay _ _ _ _ _ _ I)) as Hord.
  pose proof (ly_one _ _ _ _ (fi_lay _ _ _ _ _ _ I)) as Hone. unfold LOGSIZE in Hord.
  assert (exists b, free_bit (Z.to_nat (Z.min BPB (sb_size (k_sb s) - 0))) (V (sb_bmapstart (k_sb s))) 0 = Some b /\
    0 <= b < sb_size (k_sb s) /\ used (k_sb s) V b = false) as (b & Hfb & Hb & Hu).
  { pose proof (free_bit_spec (Z.to_nat (Z.min BPB (sb_size (k_sb s) - 0))) (V (sb_bmapstart (k_sb s))) 0) as Hs.
    destruct (free_bit _ _ _) as [b|]; [exists b; split_and!; [done|lia..|apply Hs]|]. unfold used in Hu0. rewrite Hs in Hu0 by lia. done. }
  pose proof (free_is_data _ _ _ _ _ _ I b Hb Hu) as Hd.
  destruct (update_block n s H V B (sb_bmapstart (k_sb s)) (mark_bit (V (sb_bmapstart (k_sb s))) b) (fi_log _ _ _ _ _ _ I) (bmap_home _ _ _ _ _ _ I) Hbm)
    as (i & l1 & l2 & l3 & l4 & R1 & R2 & R3 & R4 & R5 & I5 & N5);
    [lia|exact (fi_out _ _ _ _ _ _ I)|rewrite length_mark; exact (fi_len _ _ _ _ _ _ _ I)|].
  assert (fs_inv (s ◁ l4) n H (wr (sb_bmapstart (k_sb s)) (mark_bit (V (sb_bmapstart (k_sb s))) b) V) ({[sb_bmapstart (k_sb s)]} ∪ B) d0) as I4.
  { eapply fs_inside; [exact I|done|done|]. intros c Hc. unfold used. rewrite wr_same.
    rewrite bit_mark by (exact (fi_len _ _ _ _ _ _ _ I) || lia). fold (used (k_sb s) V c). by rewrite (fi_meta _ _ _ _ _ _ I). }
  destruct (bzero_run (s ◁ l4) n H _ _ d0 b I4) as (l5 & R6 & I6 & N6); [done|by apply Hfree| |].
  { pose proof (size_add (sb_bmapstart (k_sb s)) B). lia. }
  exists b, l5. split_and!; [|lia..|done|done|by etrans]. unfold balloc. rewrite bind_unfold, gets_run. cbv beta iota.
  assert (exists f, Z.to_nat (sb_size (k_sb s) / BPB + 1) = S f) as [f ->].
  { pose proof (Z.div_pos (sb_size (k_sb s)) BPB ltac:(lia) ltac:(unfold BPB, BSIZE; lia)). exists (Z.to_nat (sb_size (k_sb s) / BPB)). lia. }
  cbn [balloc_loop]. rewrite bind_unfold, gets_run. cbv beta iota. rewrite (proj2 (Z.ltb_lt _ _)) by lia.
  rewrite (ly_bblock _ _ _ _ (fi_lay _ _ _ _ _ _ I)) by lia. run_with R1. run_with R2. rewrite Hfb. run_with R3. run_with R4. run_with R5.
  rewrite Z.add_0_l. by run_with R6.
Qed.

Lemma bfree_run b :
  d0 <= b < sb_size (k_sb s) -> used (k_sb s) V b = true -> sb_bmapstart (k_sb s) ∉ H.*2 -> (length H + size B < 29)%nat ->
  exists l, bfree 1 b [] s = Ret tt [] (s ◁ l) /\ log_inv l n H (freed (k_sb s) V b) ({[sb_bmapstart (k_sb s)]} ∪ B) /\
    inside (k_lst s) l.
Proof.
  intros Hb Hu Hbm Hroom. pose proof (ly_order _ _ _ _ (fi_lay _ _ _ _ _ _ I)) as Hord.
  pose proof (ly_one _ _ _ _ (fi_lay _ _ _ _ _ _ I)) as Hone. unfold LOGSIZE in Hord.
  destruct (update_block n s H V B (sb_bmapstart (k_sb s)) (clear_bit (V (sb_bmapstart (k_sb s))) b) (fi_log _ _ _ _ _ _ I) (bmap_home _ _ _ _ _ _ I) Hbm)
    as (i & l1 & l2 & l3 & l4 & R1 & R2 & R3 & R4 & R5 & I5 & N5);
    [lia|exact (fi_out _ _ _ _ _ _ I)|rewrite length_clear; exact (fi_len _ _ _ _ _ _ _ I)|].
  exists l4. split_and!; [|done|done]. unfold bfree. rewrite bind_unfold, gets_run. cbv beta iota.
  rewrite (ly_bblock _ _ _ _ (fi_lay _ _ _ _ _ _ I)) by lia. rewrite (Z.mod_small b) by lia. run_with R1. run_with R2.
  unfold used in Hu. rewrite Hu. cbn [negb]. run_with R3. run_with R4. by run_with R5.
Qed.
End alloc_run.
