(* ===== verification/Fsfile.v ===== *)
(** * The contents of files

    The blocks of an inode, what [bmap] does to them, and the theorems on
    [readi] and [writei]. *)

From Stdlib Require Import ZArith Lia String.
From stdpp Require Import prelude numbers strings option gmap list.
From S2P Require Import Prelude Kernel Mem Sched Monitor Sleeplock Bio Log Logcrash Logtxn Console Kst Inode Fsblock Device Fs.

(** ** The block map *)

(** The entries of the map of an inode with addresses [a]: [-1] is the
    indirect block, [0 .. 139] the blocks of the file; 0 when there is none. *)
Definition slot (V : Z -> block) (a : list Z) (k : Z) : Z :=
  if k <? 0 then nth 12 a 0
  else if k <? NDIRECT then nth (Z.to_nat k) a 0
  else if nth 12 a 0 =? 0 then 0
  else word (k - NDIRECT) (V (nth 12 a 0)).

Definition in_map (k : Z) : Prop := -1 <= k < MAXFILE.

(** The blocks are data blocks in use, and no two entries share one. *)
Record file_ok (sb : superblock) (d0 : Z) (V : Z -> block) (a : list Z) : Prop := {
  fo_len : length a = 13%nat;
  fo_data : forall k, in_map k -> slot V a k <> 0 -> d0 <= slot V a k < sb_size sb /\ used sb V (slot V a k) = true;
  fo_inj : forall k k', in_map k -> in_map k' -> slot V a k <> 0 -> slot V a k = slot V a k' -> k = k' }.

Lemma word_zeros j : 0 <= j < NINDIRECT -> word j zeros = 0.
Proof.
  intros Hj. unfold word, get32, zeros, NINDIRECT in *. rewrite drop_replicate, take_replicate.
  replace (4 `min` _)%nat with 4%nat by (change (Z.to_nat BSIZE) with 512%nat; lia). done.
Qed.

Lemma word_put j j' v d :
  length d = 512%nat -> 0 <= j < NINDIRECT -> 0 <= j' < NINDIRECT -> 0 <= v < 2 ^ 32 ->
  word j' (put32 (4 * Z.to_nat j) v d) = if j' =? j then v else word j' d.
Proof.
  intros Hd Hj Hj' Hv. unfold word, NINDIRECT in *. destruct (Z.eqb_spec j' j) as [->|Hne].
  - rewrite get_put32 by lia. apply u32_id. lia.
  - apply get_put32_other; lia.
Qed.

Section map.
Context {w : bool} (s : kst) (n : Z) (H : list (nat * Z)) (V : Z -> block) (B : gset Z) (d0 : Z).
Hypothesis I : fs_inv_ w s n H V B d0.
Context (a : list Z).
Hypothesis F : file_ok (k_sb s) d0 V a.
#[local] Abbreviation sb := (k_sb s).

Lemma d0_pos : 0 < sb_bmapstart sb < d0 /\ d0 < sb_size sb <= 4096.
Proof.
  pose proof (ly_order _ _ _ _ (fi_lay _ _ _ _ _ _ I)). pose proof (ly_one _ _ _ _ (fi_lay _ _ _ _ _ _ I)).
  unfold LOGSIZE, BPB, BSIZE in *. lia.
Qed.

(** A free block taken by [balloc] is none of the blocks of the file. *)
Lemma new_block b k : in_map k -> slot V a k <> 0 -> used sb V b = false -> slot V a k <> b /\ slot V a k <> sb_bmapstart sb.
Proof.
  intros Hk Hs Hb. destruct (fo_data _ _ _ _ F k Hk Hs) as [Hr Hu]. pose proof d0_pos. split; [|lia]. intros E. rewrite E in Hu. congruence.
Qed.

Lemma allocated_other b c : c <> b -> c <> sb_bmapstart sb -> allocated sb V b c = V c.
Proof. intros ??. unfold allocated. by rewrite !wr_other. Qed.

Lemma slot_direct W j : 0 <= j <= 12 -> slot W a (if j =? 12 then -1 else j) = nth (Z.to_nat j) a 0.
Proof.
  intros Hj. unfold slot, NDIRECT. destruct (Z.eqb_spec j 12) as [->|]; [done|]. rewrite (proj2 (Z.ltb_ge _ _)) by lia. by rewrite (proj2 (Z.ltb_lt _ _)) by lia.
Qed.

(** An entry of the inode itself is filled. *)
Section direct.
Context (j b : Z).
Hypothesis Hj : 0 <= j <= 12.
Hypothesis Hz : nth (Z.to_nat j) a 0 = 0.
Hypothesis Hb : d0 <= b < sb_size sb.
Hypothesis Hu : used sb V b = false.
#[local] Abbreviation V' := (allocated sb V b).
#[local] Abbreviation a' := (<[Z.to_nat j := b]> a).
#[local] Abbreviation kj := (if j =? 12 then -1 else j).

Lemma nth_insert_a m : (m < 13)%nat -> nth m a' 0 = if decide (m = Z.to_nat j) then b else nth m a 0.
Proof.
  intros Hm. pose proof (fo_len _ _ _ _ F). rewrite !nth_lookup. case_decide; [subst; by rewrite list_lookup_insert_eq by lia|].
  by rewrite list_lookup_insert_ne.
Qed.

Lemma slot_direct_new k : in_map k -> slot V' a' k = if decide (k = kj) then b else slot V a k.
Proof.
  intros Hk. unfold in_map, MAXFILE, NDIRECT, NINDIRECT in *. pose proof d0_pos. unfold slot, NDIRECT.
  destruct (Z.ltb_spec k 0).
  { rewrite nth_insert_a by lia. destruct (Z.eqb_spec j 12); [by rewrite !decide_True by lia|]. by rewrite !decide_False by lia. }
  destruct (Z.ltb_spec k 12).
  { rewrite nth_insert_a by lia. destruct (Z.eqb_spec j 12); [by rewrite !decide_False by lia|].
    destruct (decide (k = j)) as [Ek|]; [by rewrite decide_True by lia|by rewrite decide_False by lia]. }
  rewrite (decide_False (P := k = kj)) by (destruct (Z.eqb_spec j 12); lia). rewrite !nth_insert_a by lia.
  case_decide as E.
  - rewrite <- E in Hz. rewrite Hz. change (0 =? 0) with true. cbv iota.
    rewrite (proj2 (Z.eqb_neq b 0)) by lia. unfold allocated. rewrite wr_same. apply word_zeros. unfold NINDIRECT. lia.
  - destruct (Z.eqb_spec (nth 12 a 0) 0) as [|Hn]; [done|].
    destruct (new_block b (-1)) as [N1 N2]; [unfold in_map, MAXFILE, NDIRECT, NINDIRECT; lia|done|done|]. unfold slot in N1, N2. cbn in N1, N2.
    by rewrite allocated_other.
Qed.

Lemma file_ok_direct : file_ok sb d0 V' a'.
Proof.
  assert (forall k, in_map k -> slot V a k = b -> slot V a k <> 0 -> False) as Hnb.
  { intros k Hk E Hs. by destruct (new_block b k Hk Hs Hu). }
  pose proof d0_pos. split; [rewrite length_insert; apply F|..].
  - intros k Hk. rewrite slot_direct_new by done. case_decide.
    + intros _. split; [done|]. rewrite (used_allocated s n H V B d0 I) by lia. by rewrite Z.eqb_refl, orb_true_r.
    + intros Hs. destruct (fo_data _ _ _ _ F k Hk Hs) as [Hr Hus]. split; [done|]. rewrite (used_allocated s n H V B d0 I) by lia. by rewrite Hus.
  - intros k k' Hk Hk'. rewrite !slot_direct_new by done. repeat case_decide; subst; try done.
    + intros _ E. exfalso. apply (Hnb k' Hk'); lia.
    + intros Hs E. exfalso. by apply (Hnb k Hk).
    + by apply F.
Qed.
End direct.

(** An entry of the indirect block is filled. *)
Section leaf.
Context (k b : Z).
Hypothesis Hk : NDIRECT <= k < MAXFILE.
Hypothesis Hind : nth 12 a 0 <> 0.
Hypothesis Hb : d0 <= b < sb_size sb.
Hypothesis Hu : used sb V b = false.
#[local] Abbreviation ind := (nth 12 a 0).
#[local] Abbreviation V' := (wr ind (put32 (4 * Z.to_nat (k - NDIRECT)) b (V ind)) (allocated sb V b)).

Lemma ind_block : ind <> b /\ ind <> sb_bmapstart sb /\ d0 <= ind < sb_size sb /\ used sb V ind = true.
Proof.
  destruct (new_block b (-1)) as [N1 N2]; [unfold in_map, MAXFILE, NDIRECT, NINDIRECT; lia|done|done|].
  split_and!; [done|done|..]; apply (fo_data _ _ _ _ F (-1)); done || (unfold in_map, MAXFILE, NDIRECT, NINDIRECT; lia).
Qed.

Lemma slot_leaf_new k' : in_map k' -> slot V' a k' = if decide (k' = k) then b else slot V a k'.
Proof.
  intros Hk'. unfold in_map, slot in *. pose proof d0_pos. unfold MAXFILE, NDIRECT, NINDIRECT in *.
  destruct (Z.ltb_spec k' 0); [by rewrite decide_False by lia|]. destruct (Z.ltb_spec k' 12); [by rewrite decide_False by lia|].
  rewrite (proj2 (Z.eqb_neq ind 0)) by done. rewrite wr_same.
  rewrite word_put by (first [exact (fi_len _ _ _ _ _ _ _ I)|unfold NINDIRECT; lia]).
  destruct (Z.eqb_spec (k' - 12) (k - 12)); [by rewrite decide_True by lia|by rewrite decide_False by lia].
Qed.

Lemma used_leaf_new c : 0 <= c < sb_size sb -> used sb V' c = used sb V c || (c =? b).
Proof.
  intros Hc. destruct ind_block as (_ & N & _). rewrite <- (used_allocated s n H V B d0 I) by done.
  unfold used. by rewrite wr_other by congruence.
Qed.

Lemma file_ok_leaf : file_ok sb d0 V' a.
Proof.
  assert (forall k, in_map k -> slot V a k = b -> slot V a k <> 0 -> False) as Hnb.
  { intros k' Hk' E Hs. by destruct (new_block b k' Hk' Hs Hu). }
  pose proof d0_pos. split; [apply F|..].
  - intros k' Hk'. rewrite slot_leaf_new by done. case_decide.
    + intros _. split; [done|]. rewrite used_leaf_new by lia. by rewrite Z.eqb_refl, orb_true_r.
    + intros Hs. destruct (fo_data _ _ _ _ F k' Hk' Hs) as [Hr Hus]. split; [done|]. rewrite used_leaf_new by lia. by rewrite Hus.
  - intros k1 k2 Hk1 Hk2. rewrite !slot_leaf_new by done. repeat case_decide; subst; try done.
    + intros _ E. exfalso. apply (Hnb k2 Hk2); lia.
    + intros Hs E. exfalso. by apply (Hnb k1 Hk1).
    + by apply F.
Qed.
End leaf.
End map.

(** ** Growing a file *)

(** From [V] and [a] to [V'] and [a']: entries that had a block keep it, new
    entries have blocks that were free, and what belongs to no entry of the
    file is as it was. *)
Record grows (sb : superblock) (V : Z -> block) (a : list Z) (V' : Z -> block) (a' : list Z) : Prop := {
  gr_keep : forall k, in_map k -> slot V a k <> 0 -> slot V' a' k = slot V a k;
  gr_fresh : forall k, in_map k -> slot V' a' k <> slot V a k -> used sb V (slot V' a' k) = false;
  gr_used : forall c, 0 <= c < sb_size sb -> used sb V c = true -> used sb V' c = true;
  gr_other : forall c, 0 <= c < sb_size sb -> used sb V c = true -> c <> sb_bmapstart sb ->
    (forall k, in_map k -> slot V a k <> c) -> V' c = V c }.

Lemma grows_refl sb V a : grows sb V a V a.
Proof. split; done. Qed.

Lemma grows_trans sb V a V1 a1 V2 a2 d0 :
  0 < d0 -> file_ok sb d0 V1 a1 -> file_ok sb d0 V2 a2 -> grows sb V a V1 a1 -> grows sb V1 a1 V2 a2 -> grows sb V a V2 a2.
Proof.
  intros Hd F1 F2 [A1 A2 A3 A4] [B1 B2 B3 B4].
  assert (forall k, in_map k -> slot V2 a2 k <> slot V1 a1 k -> slot V2 a2 k <> 0 -> used sb V (slot V2 a2 k) = false) as Hnew.
  { intros k Hk Hne Hnz. destruct (fo_data _ _ _ _ F2 k Hk Hnz) as [Hr _].
    destruct (used sb V (slot V2 a2 k)) eqn:E; [|done]. rewrite <- (B2 k Hk Hne). symmetry. apply A3; [lia|done]. }
  split.
  - intros k Hk Hs. rewrite B1, A1; [done..|]. by rewrite A1.
  - intros k Hk Hne. destruct (decide (slot V2 a2 k = slot V1 a1 k)) as [E|E]; [rewrite E in *; by apply A2|].
    destruct (decide (slot V2 a2 k = 0)) as [Ez|]; [|by apply Hnew].
    destruct (decide (slot V1 a1 k = 0)) as [E1|E1]; [congruence|]. rewrite B1 in E by done. done.
  - intros c Hc Hu. by apply B3, A3.
  - intros c Hc Hu Hb Hno. rewrite B4, A4; [done..|by apply A3|done|].
    intros k Hk E. destruct (decide (slot V1 a1 k = slot V a k)) as [E1|E1]; [by apply (Hno k Hk); rewrite <- E1|].
    apply A2 in E1; [|done]. rewrite E in E1. congruence.
Qed.

(** At least [m] blocks are free. *)
Definition nfree (sb : superblock) (V : Z -> block) (m : nat) : Prop :=
  exists L, NoDup L /\ length L = m /\ forall c, c ∈ L -> 0 <= c < sb_size sb /\ used sb V c = false.

Lemma nfree_one sb V m : nfree sb V (S m) -> exists b, 0 <= b < sb_size sb /\ used sb V b = false.
Proof. intros ([|b L] & _ & Hl & H); [done|]. exists b. apply H. by left. Qed.

Lemma nfree_same sb V V' m : nfree sb V m -> V' (sb_bmapstart sb) = V (sb_bmapstart sb) -> nfree sb V' m.
Proof. intros (L & ? & ? & H) E. exists L. split_and!; [done..|]. intros c. unfold used. rewrite E. apply H. Qed.

Lemma nfree_weaken sb V m m' : nfree sb V m -> (m' <= m)%nat -> nfree sb V m'.
Proof.
  intros (L & Hnd & Hl & H) Hm. exists (take m' L). split_and!; [|rewrite length_take; lia|intros c (j & Hj & _)%elem_of_take; apply H; by eapply list_elem_of_lookup_2].
  rewrite <- (take_drop m' L) in Hnd. by apply NoDup_app in Hnd as [? _].
Qed.

Lemma nfree_take sb V V' b m :
  nfree sb V (S m) -> (forall c, 0 <= c < sb_size sb -> used sb V c = false -> c <> b -> used sb V' c = false) -> nfree sb V' m.
Proof.
  intros (L & Hnd & Hl & H) Hb.
  assert (exists L', NoDup L' /\ length L' = m /\ (forall c, c ∈ L' -> c ∈ L /\ c <> b)) as (L' & H1 & H2 & H3).
  { destruct (decide (b ∈ L)) as [Hin|Hn].
    - apply list_elem_of_split in Hin as (L1 & L2 & ->). exists (L1 ++ L2). rewrite length_app in *. cbn in Hl.
      rewrite <- Permutation_middle in Hnd. apply NoDup_cons in Hnd as [Hni Hnd]. split_and!; [done|lia|]. set_solver.
    - destruct L as [|x L]; [done|]. apply NoDup_cons in Hnd as [Hx Hnd]. exists L. cbn in Hl. split_and!; [done|lia|]. set_solver. }
  exists L'. split_and!; [done..|]. intros c [Hc Hne]%H3. destruct (H c Hc). split; [done|by apply Hb].
Qed.

Section grow_steps.
Context {w : bool} (s : kst) (n : Z) (H : list (nat * Z)) (V : Z -> block) (B : gset Z) (d0 : Z).
Hypothesis I : fs_inv_ w s n H V B d0.
Context (a : list Z).
Hypothesis F : file_ok (k_sb s) d0 V a.
#[local] Abbreviation sb := (k_sb s).
Context (b : Z).
Hypothesis Hb : d0 <= b < sb_size sb.
Hypothesis Hu : used sb V b = false.

Lemma used_not c : used sb V c = true -> c <> b.
Proof. intros Hc ->. congruence. Qed.

Lemma grows_direct j :
  0 <= j <= 12 -> nth (Z.to_nat j) a 0 = 0 -> grows sb V a (allocated sb V b) (<[Z.to_nat j := b]> a).
Proof.
  intros Hj Hz. pose proof (slot_direct_new s n H V B d0 I a F j b Hj Hz Hb Hu) as Hs. pose proof (d0_pos _ _ _ _ _ _ I).
  split.
  - intros k Hk Hnz. rewrite Hs by done. rewrite decide_False; [done|]. intros ->. by rewrite slot_direct in Hnz.
  - intros k Hk. rewrite Hs by done. by case_decide.
  - intros c Hc Hcu. rewrite (used_allocated s n H V B d0 I) by lia. by rewrite Hcu.
  - intros c Hc Hcu Hcb Hno. by apply allocated_other; [apply used_not|].
Qed.

Lemma grows_leaf k :
  NDIRECT <= k < MAXFILE -> nth 12 a 0 <> 0 -> slot V a k = 0 ->
  grows sb V a (wr (nth 12 a 0) (put32 (4 * Z.to_nat (k - NDIRECT)) b (V (nth 12 a 0))) (allocated sb V b)) a.
Proof.
  intros Hk Hi Hz. pose proof (slot_leaf_new s n H V B d0 I a k b Hk Hi Hb) as Hs. pose proof (d0_pos _ _ _ _ _ _ I).
  split.
  - intros k' Hk' Hnz. rewrite Hs by done. rewrite decide_False; [done|]. by intros ->.
  - intros k' Hk'. rewrite Hs by done. by case_decide.
  - intros c Hc Hcu. rewrite (used_leaf_new s n H V B d0 I a F k b) by done. by rewrite Hcu.
  - intros c Hc Hcu Hcb Hno. rewrite wr_other; [by apply allocated_other; [apply used_not|]|].
    intros ->. apply (Hno (-1)); [unfold in_map, MAXFILE, NDIRECT, NINDIRECT; lia|done].
Qed.
End grow_steps.

(** ** An inode in use *)

(** The calling process is in a transaction and works on entry [i] of the
    cache, which holds [ip]. *)
Record file_at_ (w : bool) (s : kst) (n : Z) (V : Z -> block) (B : gset Z) (d0 : Z) (i : nat) (ip : inode) : Prop := {
  fa_fs : fs_inv_ w s n [] V B d0;
  fa_ip : k_icache s !! i = Some ip;
  fa_dev : i_dev ip = 1;
  fa_file : file_ok (k_sb s) d0 V (i_addrs ip) }.

Arguments fa_fs {w}.
Arguments fa_ip {w}.
Arguments fa_dev {w}.
Arguments fa_file {w}.

Abbreviation file_at := (file_at_ true).

(** The state with the block addresses [a] in entry [i]. *)
Definition put_addr_list (i : nat) (a : list Z) (s : kst) : kst := upd_ip i (set_i_addrs a) s.

Lemma get_ip_Some s i ip : k_icache s !! i = Some ip -> get_ip i s = ip.
Proof. intros H. unfold get_ip. by rewrite H. Qed.

Lemma put_addr_list_same s i ip : k_icache s !! i = Some ip -> put_addr_list i (i_addrs ip) s = s.
Proof.
  intros H. unfold put_addr_list, upd_ip. rewrite (list_alter_ext _ id (k_icache s) (k_icache s) i);
    [|intros x Hx; rewrite H in Hx; injection Hx as <-; by destruct ip|done].
  rewrite list_alter_id by done. by destruct s.
Qed.

Lemma put_addr_list_ip s i ip a : k_icache s !! i = Some ip -> k_icache (put_addr_list i a s) !! i = Some (set_i_addrs a ip).
Proof. intros H. cbn. by rewrite list_lookup_alter_eq, H. Qed.

Lemma put_addr_list_twice s i a a' : put_addr_list i a' (put_addr_list i a s) = put_addr_list i a' s.
Proof.
  unfold put_addr_list, upd_ip. cbn. unfold set_k_icache. cbn. f_equal. rewrite list_alter_alter_eq. by apply list_alter_ext.
Qed.

Lemma fs_inv_addr {w} s n H V B d0 i a : fs_inv_ w s n H V B d0 -> fs_inv_ w (put_addr_list i a s) n H V B d0.
Proof. intros [? ? ? ?]. by split. Qed.

Lemma set_lst_same s : s ◁ (k_lst s) = s.
Proof. by destruct s. Qed.

(** ** bmap *)

(** [bmap] found or made block [b] for entry [k]: the blocks of the file keep
    their contents, and what the transaction now writes besides is the bitmap,
    the indirect block and [b]. *)
Record filled (sb : superblock) (V : Z -> block) (a : list Z) (B : gset Z) (k : Z) (V' : Z -> block) (a' : list Z) (B' : gset Z) : Prop := {
  fl_nz : slot V' a' k <> 0;
  fl_grows : grows sb V a V' a';
  fl_same : slot V a k <> 0 -> a' = a;
  fl_data : forall k', 0 <= k' < MAXFILE -> slot V a k' <> 0 -> V' (slot V a k') = V (slot V a k');
  fl_B : forall c, c ∈ B' -> c ∈ B \/ c = sb_bmapstart sb \/ (c <> 0 /\ (c = slot V' a' k \/ c = slot V' a' (-1)));
  fl_free : forall m, nfree sb V (2 + m) -> nfree sb V' m }.

Section bmap.
Context {w : bool} (s : kst) (n : Z) (V : Z -> block) (B : gset Z) (d0 : Z) (i : nat) (ip : inode).
Hypothesis A : file_at_ w s n V B d0 i ip.
#[local] Abbreviation sb := (k_sb s).
#[local] Abbreviation a := (i_addrs ip).
#[local] Abbreviation I := (fa_fs _ _ _ _ _ _ _ A).
#[local] Abbreviation F := (fa_file _ _ _ _ _ _ _ A).

Lemma slot_small W b k : 0 <= k < NDIRECT -> slot W b k = nth (Z.to_nat k) b 0.
Proof. intros Hk. unfold slot. rewrite (proj2 (Z.ltb_ge _ _)), (proj2 (Z.ltb_lt _ _)) by lia. done. Qed.

Lemma slot_big W b k : NDIRECT <= k -> nth 12 b 0 <> 0 -> slot W b k = word (k - NDIRECT) (W (nth 12 b 0)).
Proof.
  intros Hk Hn. unfold slot, NDIRECT in *. rewrite !(proj2 (Z.ltb_ge _ _)) by lia. by rewrite (proj2 (Z.eqb_neq _ _)).
Qed.

Lemma bmap_addr_found j : nth (Z.to_nat j) a 0 <> 0 -> bmap_addr i j [] s = Ret (nth (Z.to_nat j) a 0) [] s.
Proof.
  intros Hn. unfold bmap_addr, ip_. repeat kstep_base. rewrite (get_ip_Some _ _ _ (fa_ip _ _ _ _ _ _ _ A)). unfold addr_of.
  by rewrite (proj2 (Z.eqb_neq _ _)).
Qed.

(** The part of [bmap] after the indirect block is known. *)
Definition bmap_leaf (addr bn : Z) : K kst Z :=
  ip ← ip_ i;
  bp ← kbread (i_dev ip) addr;
  d ← kdata bp;
  addr ← (if word bn d =? 0 then
            addr ← balloc (i_dev ip);
            d ← kdata bp;
            kset bp (put32 (4 * Z.to_nat bn) addr d);;
            klog_write bp;;
            mret addr
          else mret (word bn d));
  kbrelse bp;;
  mret addr.

Lemma bmap_big k : NDIRECT <= k < MAXFILE -> bmap i k = (addr ← bmap_addr i NDIRECT; bmap_leaf addr (k - NDIRECT)).
Proof.
  intros Hk. unfold bmap, MAXFILE in *. rewrite (proj2 (Z.ltb_ge _ _)), (proj2 (Z.ltb_lt _ _)) by lia. done.
Qed.

Lemma ind_home : nth 12 a 0 <> 0 -> home (k_lst s) (nth 12 a 0) /\ d0 <= nth 12 a 0 < sb_size sb /\ used sb V (nth 12 a 0) = true.
Proof.
  intros Hn. assert (in_map (-1)) as Hm by (unfold in_map, MAXFILE, NDIRECT, NINDIRECT; lia).
  destruct (fo_data _ _ _ _ F (-1) Hm Hn) as [Hr Hu]. split; [|done]. by apply (data_home _ _ _ _ _ _ I).
Qed.

Lemma leaf_found k :
  NDIRECT <= k < MAXFILE -> slot V a k <> 0 -> (size B < NBUF)%nat ->
  exists l, bmap_leaf (nth 12 a 0) (k - NDIRECT) [] s = Ret (slot V a k) [] (s ◁ l) /\ log_inv l n [] V B /\ inside (k_lst s) l.
Proof.
  intros Hk Hs Hr. assert (nth 12 a 0 <> 0) as Hn.
  { intros E. unfold slot, NDIRECT in *. rewrite E in Hs. rewrite !(proj2 (Z.ltb_ge _ _)) in Hs by lia. done. }
  destruct (ind_home Hn) as [[Hr1 _] _].
  destruct (read_block n s [] V B (nth 12 a 0)) as (p & l1 & l2 & R1 & R2 & R3 & I2 & N2);
    [apply I|done|apply not_elem_of_nil|by right|].
  exists l2. split_and!; [|done|done]. unfold bmap_leaf, ip_. repeat kstep_base.
  rewrite (get_ip_Some _ _ _ (fa_ip _ _ _ _ _ _ _ A)), (fa_dev _ _ _ _ _ _ _ A). run_with R1. run_with R2.
  rewrite <- slot_big by (done || lia). rewrite (proj2 (Z.eqb_neq _ _)) by done. repeat kstep_base. by run_with R3.
Qed.
End bmap.

Section bmap_new.
Context (s : kst) (n : Z) (V : Z -> block) (B : gset Z) (d0 : Z) (i : nat) (ip : inode).
Hypothesis A : file_at s n V B d0 i ip.
#[local] Abbreviation sb := (k_sb s).
#[local] Abbreviation a := (i_addrs ip).
#[local] Abbreviation I := (fa_fs _ _ _ _ _ _ _ A).
#[local] Abbreviation F := (fa_file _ _ _ _ _ _ _ A).

Lemma bmap_addr_new j m :
  nth (Z.to_nat j) a 0 = 0 -> nfree sb V (S m) -> (size B < 28)%nat ->
  exists b l, bmap_addr i j [] s = Ret b [] (put_addr_list i (<[Z.to_nat j := b]> a) (s ◁ l)) /\
    d0 <= b < sb_size sb /\ used sb V b = false /\
    log_inv l n [] (allocated sb V b) ({[b]} ∪ ({[sb_bmapstart sb]} ∪ B)) /\ inside (k_lst s) l.
Proof.
  intros Hz Hf Hr. destruct (balloc_run s n [] V B d0 I (nfree_one _ _ _ Hf)) as (b & l & R & Hb & Hu & I' & N);
    [by intros; apply not_elem_of_nil|apply not_elem_of_nil|cbn; lia|].
  exists b, l. split_and!; [|lia..|done|done|done]. unfold bmap_addr, ip_. repeat kstep_base.
  rewrite (get_ip_Some _ _ _ (fa_ip _ _ _ _ _ _ _ A)). unfold addr_of. rewrite Hz, (fa_dev _ _ _ _ _ _ _ A).
  change (0 =? 0) with true. cbv iota. run_with R. unfold mod_ip. repeat kstep_base. do 2 f_equal.
  unfold put_addr_list, upd_ip, set_k_icache. cbn. f_equal. apply list_alter_ext; [|done].
  intros x Hx. rewrite (fa_ip _ _ _ _ _ _ _ A) in Hx. by injection Hx as <-.
Qed.

(** The state after the allocation of a block for an entry of the inode. *)
Lemma direct_at j b l :
  0 <= j <= 12 -> nth (Z.to_nat j) a 0 = 0 -> d0 <= b < sb_size sb -> used sb V b = false ->
  log_inv l n [] (allocated sb V b) ({[b]} ∪ ({[sb_bmapstart sb]} ∪ B)) -> inside (k_lst s) l ->
  file_at (put_addr_list i (<[Z.to_nat j := b]> a) (s ◁ l)) n (allocated sb V b) ({[b]} ∪ ({[sb_bmapstart sb]} ∪ B)) d0 i
    (set_i_addrs (<[Z.to_nat j := b]> a) ip).
Proof.
  intros Hj Hz Hb Hu Hl N. split; [|by apply put_addr_list_ip, A|apply A|].
  - apply fs_inv_addr. eapply fs_inside; [exact I|done|done|]. intros c Hc. pose proof (d0_pos _ _ _ _ _ _ I).
    rewrite (used_allocated s n [] V B d0 I) by lia. by rewrite (fi_meta _ _ _ _ _ _ I).
  - by apply (file_ok_direct s n [] V B d0 I a F).
Qed.

Lemma leaf_new k m :
  NDIRECT <= k < MAXFILE -> nth 12 a 0 <> 0 -> slot V a k = 0 -> nfree sb V (S m) -> (size B < 26)%nat ->
  exists b l, bmap_leaf i (nth 12 a 0) (k - NDIRECT) [] s = Ret b [] (s ◁ l) /\ d0 <= b < sb_size sb /\ used sb V b = false /\
    log_inv l n [] (wr (nth 12 a 0) (put32 (4 * Z.to_nat (k - NDIRECT)) b (V (nth 12 a 0))) (allocated sb V b))
      ({[nth 12 a 0]} ∪ ({[b]} ∪ ({[sb_bmapstart sb]} ∪ B))) /\ inside (k_lst s) l.
Proof.
  intros Hk Hn Hz Hf Hr. destruct (ind_home _ _ _ _ _ _ _ A Hn) as (Hh & Hi & Hiu). pose proof (d0_pos _ _ _ _ _ _ I) as Hd.
  destruct (kbread_run n s [] V B (nth 12 a 0)) as (p & l1 & R1 & I1 & N1); [apply I|apply Hh|apply not_elem_of_nil|right; unfold NBUF; cbn; lia|].
  assert (fs_inv (s ◁ l1) n [(p, nth 12 a 0)] V B d0) as J1 by (eapply fs_inside; [exact I|done|done|apply I]).
  destruct (balloc_run (s ◁ l1) n _ V B d0 J1 (nfree_one _ _ _ Hf)) as (b & l2 & R2 & Hb & Hu & I2 & N2).
  { intros b _ Hu E%list_elem_of_singleton. cbn in E, Hu. rewrite E in Hu. congruence. }
  { intros E%list_elem_of_singleton. cbn in E. lia. }
  { cbn. lia. }
  cbn [k_sb set_k_lst k_lst] in *. assert ((p, nth 12 a 0) ∈ [(p, nth 12 a 0)]) as Hin by (by left).
  assert (allocated sb V b (nth 12 a 0) = V (nth 12 a 0)) as Hsame by (apply allocated_other; [by eapply used_not|lia]).
  assert (inside (k_lst s) l2) as N02 by (by etrans).
  pose proof (inside_home _ _ _ N02 Hh) as Hh2.
  destruct (kset_run n (s ◁ l2) _ _ _ p (nth 12 a 0) (put32 (4 * Z.to_nat (k - NDIRECT)) b (V (nth 12 a 0))) I2 Hin (proj2 Hh2)) as (l3 & R3 & I3 & N3).
  { unfold MAXFILE, NDIRECT, NINDIRECT in *. rewrite length_put32; rewrite ?(fi_len _ _ _ _ _ _ _ I); [done|lia]. }
  assert (inside (k_lst s) l3) as N03 by (by etrans).
  destruct (klog_write_run n (s ◁ l3) _ _ _ p (nth 12 a 0) I3 Hin) as (l4 & R4 & I4 & N4).
  { cbn. by eapply inside_home. }
  { pose proof (size_add b ({[sb_bmapstart sb]} ∪ B)). pose proof (size_add (sb_bmapstart sb) B). lia. }
  { cbn. rewrite (in_out _ _ N03). exact (fi_out _ _ _ _ _ _ I). }
  destruct (kbrelse_run n (s ◁ l4) p (nth 12 a 0) [] _ _ I4) as (l5 & R5 & I5 & N5); [left; set_solver|].
  exists b, l5. split_and!; [|lia|lia|done|done|etrans; [exact N03|]; by etrans].
  change (s ◁ l1 ◁ l2) with (s ◁ l2) in R2. change (s ◁ l2 ◁ l3) with (s ◁ l3) in R3.
  change (s ◁ l3 ◁ l4) with (s ◁ l4) in R4. change (s ◁ l4 ◁ l5) with (s ◁ l5) in R5. unfold bmap_leaf, ip_. repeat kstep_base.
  rewrite (get_ip_Some _ _ _ (fa_ip _ _ _ _ _ _ _ A)), (fa_dev _ _ _ _ _ _ _ A). run_with R1.
  run_with (kdata_run n (s ◁ l1) _ V B p (nth 12 a 0) I1 Hin). rewrite <- slot_big by (done || lia). rewrite Hz.
  change (0 =? 0) with true. cbv iota. do 2 rewrite bind_unfold. rewrite R2. cbv beta iota.
  run_with (kdata_run n (s ◁ l2) _ _ _ p (nth 12 a 0) I2 Hin). rewrite Hsame. run_with R3. run_with R4. repeat kstep_base. by run_with R5.
Qed.
End bmap_new.

(** An entry that has a block: nothing changes but the buffer cache. *)
Lemma bmap_found {w} s n V B d0 i ip k :
  file_at_ w s n V B d0 i ip -> 0 <= k < MAXFILE -> slot V (i_addrs ip) k <> 0 -> (size B < NBUF)%nat ->
  exists l, bmap i k [] s = Ret (slot V (i_addrs ip) k) [] (s ◁ l) /\ log_inv l n [] V B /\ inside (k_lst s) l.
Proof.
  intros A Hk Hs Hr. destruct (decide (k < NDIRECT)) as [Hd|Hd].
  - rewrite slot_small in * by lia. exists (k_lst s). rewrite set_lst_same. split_and!; [|apply A|done].
    unfold bmap. rewrite (proj2 (Z.ltb_lt _ _)) by done. by eapply bmap_addr_found.
  - destruct (leaf_found s n V B d0 i ip A k) as (l & R & I & N); [lia|done|done|]. exists l. split_and!; [|done|done].
    rewrite bmap_big by lia. run_with (bmap_addr_found s n V B d0 i ip A NDIRECT); [done|].
    intros E. unfold slot in Hs. change (Z.to_nat NDIRECT) with 12%nat in E. rewrite E in Hs. unfold NDIRECT in *.
    rewrite !(proj2 (Z.ltb_ge _ _)) in Hs by lia. done.
Qed.

Section filling.
Context {w : bool} (s : kst) (n : Z) (V : Z -> block) (B : gset Z) (d0 : Z) (i : nat) (ip : inode).
Hypothesis A : file_at_ w s n V B d0 i ip.
#[local] Abbreviation sb := (k_sb s).
#[local] Abbreviation a := (i_addrs ip).
#[local] Abbreviation I := (fa_fs _ _ _ _ _ _ _ A).
#[local] Abbreviation F := (fa_file _ _ _ _ _ _ _ A).
Context (b : Z).
Hypothesis Hb : d0 <= b < sb_size sb.
Hypothesis Hu : used sb V b = false.

Lemma nfree_allocated m : nfree sb V (S m) -> nfree sb (allocated sb V b) m.
Proof.
  intros Hf. apply (nfree_take _ _ _ b _ Hf). intros c Hc Hcu Hne. rewrite (used_allocated s n [] V B d0 I) by lia.
  by rewrite Hcu, (proj2 (Z.eqb_neq c b)).
Qed.

Lemma data_allocated k' : in_map k' -> slot V a k' <> 0 -> allocated sb V b (slot V a k') = V (slot V a k').
Proof.
  intros Hk' Hs. destruct (new_block s n [] V B d0 I a F b k' Hk' Hs Hu). by apply allocated_other.
Qed.

Lemma filled_direct k :
  0 <= k < NDIRECT -> nth (Z.to_nat k) a 0 = 0 ->
  filled sb V a B k (allocated sb V b) (<[Z.to_nat k := b]> a) ({[b]} ∪ ({[sb_bmapstart sb]} ∪ B)).
Proof.
  intros Hk Hz. unfold NDIRECT in *. pose proof (d0_pos _ _ _ _ _ _ I) as Hd.
  assert (slot (allocated sb V b) (<[Z.to_nat k := b]> a) k = b) as Hs.
  { rewrite slot_small by (unfold NDIRECT; lia). rewrite (nth_insert_a s V d0 a F) by lia. by rewrite decide_True. }
  split; rewrite ?Hs.
  - lia.
  - by apply (grows_direct s n [] V B d0 I a F b); [..|lia|].
  - by rewrite slot_small by (unfold NDIRECT; lia).
  - intros k' Hk' Hnz. apply data_allocated; [unfold in_map; lia|done].
  - set_solver by lia.
  - intros m Hf. apply nfree_allocated. eapply nfree_weaken; [exact Hf|lia].
Qed.

#[local] Abbreviation ind := (nth 12 a 0).
#[local] Abbreviation leafed k := (wr ind (put32 (4 * Z.to_nat (k - NDIRECT)) b (V ind)) (allocated sb V b)).

Lemma nfree_leaf k m : ind <> 0 -> nfree sb V (S m) -> nfree sb (leafed k) m.
Proof.
  intros Hn Hf. apply (nfree_take _ _ _ b _ Hf). intros c Hc Hcu Hne. rewrite (used_leaf_new s n [] V B d0 I a F k b) by done.
  by rewrite Hcu, (proj2 (Z.eqb_neq c b)).
Qed.

Lemma filled_leaf k :
  NDIRECT <= k < MAXFILE -> ind <> 0 -> slot V a k = 0 ->
  filled sb V a B k (leafed k) a ({[ind]} ∪ ({[b]} ∪ ({[sb_bmapstart sb]} ∪ B))).
Proof.
  intros Hk Hn Hz. pose proof (d0_pos _ _ _ _ _ _ I) as Hd. assert (in_map k) as Hm by (unfold in_map, NDIRECT in *; lia).
  pose proof (slot_leaf_new s n [] V B d0 I a k b Hk Hn Hb) as Hs. pose proof (Hs k Hm) as Hsk. rewrite decide_True in Hsk by done.
  assert (in_map (-1)) as Hm1 by (unfold in_map, MAXFILE, NDIRECT, NINDIRECT; lia).
  pose proof (Hs (-1) Hm1) as Hsi. rewrite decide_False in Hsi by (unfold NDIRECT in *; lia). change (slot V a (-1)) with ind in Hsi.
  split; rewrite ?Hsk, ?Hsi.
  - lia.
  - by apply (grows_leaf s n [] V B d0 I a F b).
  - done.
  - intros k' Hk' Hnz. assert (in_map k') as Hm' by (unfold in_map; lia).
    rewrite wr_other; [by apply data_allocated|]. intros E. assert (k' = -1); [|lia]. by apply (fo_inj _ _ _ _ F).
  - set_solver by lia.
  - intros m Hf. apply nfree_leaf; [done|]. eapply nfree_weaken; [exact Hf|lia].
Qed.
End filling.

Section bmap_run.
Context (s : kst) (n : Z) (V : Z -> block) (B : gset Z) (d0 : Z) (i : nat) (ip : inode).
Hypothesis A : file_at s n V B d0 i ip.
#[local] Abbreviation sb := (k_sb s).
#[local] Abbreviation a := (i_addrs ip).

(** The state after a block has been put into the indirect block. *)
Lemma leaf_at k b l :
  NDIRECT <= k < MAXFILE -> nth 12 a 0 <> 0 -> d0 <= b < sb_size sb -> used sb V b = false ->
  let V' := wr (nth 12 a 0) (put32 (4 * Z.to_nat (k - NDIRECT)) b (V (nth 12 a 0))) (allocated sb V b) in
  let B' := {[nth 12 a 0]} ∪ ({[b]} ∪ ({[sb_bmapstart sb]} ∪ B)) in
  log_inv l n [] V' B' -> inside (k_lst s) l -> file_at (s ◁ l) n V' B' d0 i ip.
Proof.
  intros Hk Hn Hb Hu V' B' Hl N. split; [|apply A|apply A|].
  - eapply fs_inside; [apply A|done|done|]. intros c Hc. pose proof (d0_pos _ _ _ _ _ _ (fa_fs _ _ _ _ _ _ _ A)).
    unfold V'. rewrite (used_leaf_new s n [] V B d0 (fa_fs _ _ _ _ _ _ _ A) a (fa_file _ _ _ _ _ _ _ A) k b) by (done || lia).
    by rewrite (fi_meta _ _ _ _ _ _ (fa_fs _ _ _ _ _ _ _ A)).
  - by apply (file_ok_leaf s n [] V B d0 (fa_fs _ _ _ _ _ _ _ A) a (fa_file _ _ _ _ _ _ _ A)).
Qed.


Lemma filled_refl k : slot V a k <> 0 -> filled sb V a B k V a B.
Proof.
  intros Hs. split; [done|apply grows_refl|done|done|by left|]. intros m Hf. eapply nfree_weaken; [exact Hf|lia].
Qed.

Lemma leaf_run k m :
  NDIRECT <= k < MAXFILE -> nth 12 a 0 <> 0 -> slot V a k = 0 -> nfree sb V (S m) -> (size B < 26)%nat ->
  exists l V' B', bmap_leaf i (nth 12 a 0) (k - NDIRECT) [] s = Ret (slot V' a k) [] (s ◁ l) /\
    file_at (s ◁ l) n V' B' d0 i ip /\ inside (k_lst s) l /\ filled sb V a B k V' a B' /\
    (forall m, nfree sb V (S m) -> nfree sb V' m).
Proof.
  intros Hk Hn Hz Hf Hr. destruct (leaf_new s n V B d0 i ip A k m Hk Hn Hz Hf Hr) as (b & l & R & Hb & Hu & Il & N).
  eexists l, _, _. split_and!; [| |exact N| |].
  - rewrite R. f_equal. rewrite (slot_leaf_new s n [] V B d0 (fa_fs _ _ _ _ _ _ _ A) a k b Hk Hn Hb) by (unfold in_map, NDIRECT in *; lia).
    by rewrite decide_True.
  - by apply leaf_at.
  - by apply (filled_leaf s n V B d0 i ip A).
  - intros m'. by apply (nfree_leaf s n V B d0 i ip A).
Qed.
End bmap_run.

Lemma filled_trans sb d0 V a B V1 a1 B1 k V2 a2 B2 :
  0 < d0 -> file_ok sb d0 V1 a1 -> file_ok sb d0 V2 a2 -> grows sb V a V1 a1 -> slot V a k = 0 ->
  (forall k', 0 <= k' < MAXFILE -> slot V a k' <> 0 -> V1 (slot V a k') = V (slot V a k')) ->
  (forall c, c ∈ B1 -> c ∈ B \/ c = sb_bmapstart sb \/ (c <> 0 /\ c = slot V1 a1 (-1))) ->
  (forall m, nfree sb V (S m) -> nfree sb V1 m) -> (forall m, nfree sb V1 (S m) -> nfree sb V2 m) ->
  filled sb V1 a1 B1 k V2 a2 B2 -> filled sb V a B k V2 a2 B2.
Proof.
  intros Hd F1 F2 G1 Hz D1 HB1 Hf1 Hf2 [Z2 G2 _ D2 HB2 _]. split; [done|exact (grows_trans _ _ _ _ _ _ _ d0 Hd F1 F2 G1 G2)|done|..].
  - intros k' Hk' Hs. assert (in_map k') as Hm by (unfold in_map; lia). pose proof (gr_keep _ _ _ _ _ G1 k' Hm Hs) as E.
    pose proof (D2 k' Hk' ltac:(congruence)) as E2. rewrite E in E2. rewrite E2. by apply D1.
  - intros c [Hc|[Hc|Hc]]%HB2; [|by right; left|by right; right].
    destruct (HB1 c Hc) as [Hc'|[Hc'|[Hnz Hc']]]; [by left|by right; left|right; right]. split; [done|right].
    rewrite Hc'. symmetry. apply G2; [unfold in_map, MAXFILE, NDIRECT, NINDIRECT; lia|congruence].
  - intros m Hf. by apply Hf2, Hf1.
Qed.

(** The first block of the file beyond the direct ones. *)
Lemma bmap_run_indirect s n V B d0 i ip k :
  file_at s n V B d0 i ip -> NDIRECT <= k < MAXFILE -> slot V (i_addrs ip) k = 0 -> nth 12 (i_addrs ip) 0 = 0 ->
  nfree (k_sb s) V 2 -> (size B < 24)%nat ->
  exists l V' a' B', (addr ← bmap_addr i NDIRECT; bmap_leaf i addr (k - NDIRECT)) [] s = Ret (slot V' a' k) [] (put_addr_list i a' (s ◁ l)) /\
    file_at (put_addr_list i a' (s ◁ l)) n V' B' d0 i (set_i_addrs a' ip) /\ inside (k_lst s) l /\
    filled (k_sb s) V (i_addrs ip) B k V' a' B'.
Proof.
  intros A Hk Hz Hi Hf Hr. set (a := i_addrs ip) in *. pose proof (d0_pos _ _ _ _ _ _ (fa_fs _ _ _ _ _ _ _ A)) as Hd.
  destruct (bmap_addr_new s n V B d0 i ip A 12 1 Hi Hf) as (b & l & R & Hb & Hu & Il & N); [lia|].
  pose proof (direct_at s n V B d0 i ip A 12 b l ltac:(lia) Hi Hb Hu Il N) as A1. change (Z.to_nat 12) with 12%nat in *. fold a in A1, R.
  set (a1 := <[12%nat := b]> a) in *. set (V1 := allocated (k_sb s) V b) in *. set (s1 := put_addr_list i a1 (s ◁ l)) in *.
  pose proof (fo_len _ _ _ _ (fa_file _ _ _ _ _ _ _ A)) as Hlen.
  assert (nth 12 a1 0 = b) as Hi1 by (unfold a1; rewrite nth_lookup, list_lookup_insert_eq by (fold a in Hlen; lia); done).
  pose proof (slot_direct_new s n [] V B d0 (fa_fs _ _ _ _ _ _ _ A) a (fa_file _ _ _ _ _ _ _ A) 12 b ltac:(lia) Hi Hb Hu) as Hsl.
  assert (slot V1 a1 k = 0) as Hz1.
  { unfold V1, a1. rewrite Hsl by (unfold in_map, NDIRECT in *; lia). rewrite decide_False by (cbn; unfold NDIRECT in *; lia). done. }
  destruct (leaf_run s1 n V1 _ d0 i _ A1 k 0) as (l2 & V2 & B2 & R2 & A2 & N2 & Hfl2 & Hfree2).
  { lia. }
  { cbn [i_addrs set_i_addrs]. rewrite Hi1. lia. }
  { done. }
  { by apply (nfree_allocated s n V B d0 i ip A b Hb). }
  { pose proof (size_add b ({[sb_bmapstart (k_sb s)]} ∪ B)). pose proof (size_add (sb_bmapstart (k_sb s)) B). lia. }
  cbn [i_addrs set_i_addrs] in *. rewrite Hi1 in R2. change (k_sb s1) with (k_sb s) in *.
  change (s1 ◁ l2) with (put_addr_list i a1 (s ◁ l2)) in *.
  exists l2, V2, a1, B2. split_and!; [|exact A2|etrans; [exact N|exact N2]|].
  - rewrite bind_unfold. change (bmap_addr i NDIRECT) with (bmap_addr i 12). rewrite R. exact R2.
  - eapply (filled_trans _ d0 V a B V1 a1); [lia|apply A1|apply A2|..|exact Hfree2|exact Hfl2].
    + by apply (grows_direct s n [] V B d0 (fa_fs _ _ _ _ _ _ _ A) a (fa_file _ _ _ _ _ _ _ A) b Hb Hu 12).
    + done.
    + intros k' Hk' Hn. apply (data_allocated s n V B d0 i ip A b Hu); [unfold in_map; lia|done].
    + intros c Hc. change (slot V1 a1 (-1)) with (nth 12 a1 0). rewrite Hi1. set_solver by lia.
    + intros m. by apply (nfree_allocated s n V B d0 i ip A b Hb).
Qed.

Lemma bmap_run s n V B d0 i ip k :
  file_at s n V B d0 i ip -> 0 <= k < MAXFILE -> nfree (k_sb s) V 2 -> (size B < 24)%nat ->
  exists l V' a' B', bmap i k [] s = Ret (slot V' a' k) [] (put_addr_list i a' (s ◁ l)) /\
    file_at (put_addr_list i a' (s ◁ l)) n V' B' d0 i (set_i_addrs a' ip) /\ inside (k_lst s) l /\
    filled (k_sb s) V (i_addrs ip) B k V' a' B'.
Proof.
  intros A Hk Hf Hr. set (a := i_addrs ip) in *. pose proof (fa_ip _ _ _ _ _ _ _ A) as Hip.
  assert (set_i_addrs a ip = ip) as Eip by (by destruct ip).
  pose proof (d0_pos _ _ _ _ _ _ (fa_fs _ _ _ _ _ _ _ A)) as Hd.
  destruct (decide (slot V a k = 0)) as [Hz|Hnz].
  2: { destruct (bmap_found s n V B d0 i ip k A Hk Hnz) as (l & R & Il & N); [unfold NBUF; lia|].
    exists l, V, a, B. unfold a. rewrite put_addr_list_same by done. fold a. rewrite Eip. split_and!; [done| |done|by apply filled_refl].
    split; [|done|apply A|apply A]. eapply fs_inside; [apply A|done|done|apply A]. }
  destruct (decide (k < NDIRECT)) as [Hs|Hs].
  { rewrite slot_small in Hz by lia. destruct (bmap_addr_new s n V B d0 i ip A k 1 Hz Hf) as (b & l & R & Hb & Hu & Il & N); [lia|].
    unfold NDIRECT in Hs. pose proof (filled_direct s n V B d0 i ip A b Hb Hu k ltac:(unfold NDIRECT; lia) Hz) as Hfl.
    eexists l, _, (<[Z.to_nat k := b]> a), _. split_and!; [|apply direct_at; done || lia|done|exact Hfl].
    unfold bmap. rewrite (proj2 (Z.ltb_lt _ _)) by (unfold NDIRECT; lia). rewrite R. f_equal.
    rewrite slot_small by (unfold NDIRECT; lia). rewrite (nth_insert_a s V d0 a (fa_file _ _ _ _ _ _ _ A)) by lia. by rewrite decide_True. }
  rewrite bmap_big by lia. destruct (decide (nth 12 a 0 = 0)) as [Hi|Hi].
  2: { destruct (leaf_run s n V B d0 i ip A k 1) as (l & V' & B' & R & A' & N & Hfl & _); [lia|done|done|done|lia|].
    exists l, V', a, B'. unfold a. rewrite put_addr_list_same by done. fold a. rewrite Eip. split_and!; [|done|done|done].
    by run_with (bmap_addr_found s n V B d0 i ip A NDIRECT Hi). }
  apply bmap_run_indirect; done || lia.
Qed.
