(* ===== verification/Fsinode.v ===== *)
(** * Inodes on disk and in the cache

    [iupdate] stores an inode where [ilock] finds it, and touches no other. *)

From Stdlib Require Import ZArith Lia String.
From stdpp Require Import prelude numbers strings option gmap list.
From S2P Require Import Prelude Kernel Mem Sched Monitor Sleeplock Bio Log Logcrash Logtxn Console Kst Inode Fsblock Fsfile.

(** ** The 64 bytes of an inode *)

Definition dinode_bytes (ip : inode) : list Z :=
  le16 (i_type ip) ++ le16 (i_major ip) ++ le16 (i_minor ip) ++ le16 (i_nlink ip) ++ le32 (i_size ip) ++ mjoin (le32 <$> i_addrs ip).

(** Two stores one after the other are one store. *)
Lemma splice_splice o k e e' l :
  length e = k -> (o <= length l)%nat -> splice (o + k) e' (splice o e l) = splice o (e ++ e') l.
Proof.
  intros <- Hl. unfold splice at 1.
  assert (take (o + length e) (splice o e l) = take o l ++ e) as ->.
  { unfold splice. rewrite app_assoc. rewrite take_app_length'; [done|]. rewrite length_app, length_take. lia. }
  assert (drop (o + length e + length e') (splice o e l) = drop (o + (length e + length e')) l) as ->.
  { unfold splice. rewrite app_assoc, drop_app_ge by (rewrite length_app, length_take; lia).
    rewrite length_app, length_take, drop_drop. f_equal. lia. }
  unfold splice. rewrite length_app. by rewrite <- !app_assoc.
Qed.

Lemma put_addrs_splice a o k e d :
  length e = k -> (o + k + 4 * length a <= length d)%nat ->
  put_addrs a (o + k) (splice o e d) = splice o (e ++ mjoin (le32 <$> a)) d.
Proof.
  revert k e. induction a as [|x a IH]; intros k e <- Hl; cbn [put_addrs]; [cbn; by rewrite app_nil_r|].
  cbn [length] in Hl. unfold put32. rewrite splice_splice by (done || cbn; lia).
  rewrite <- Nat.add_assoc. rewrite (IH (length e + 4)%nat) by (rewrite ?length_app; cbn; lia). cbn [fmap list_fmap mjoin list_join]. by rewrite <- app_assoc.
Qed.

Lemma put_dinode_splice ip o d :
  length (i_addrs ip) = 13%nat -> (o + 64 <= length d)%nat -> put_dinode ip o d = splice o (dinode_bytes ip) d.
Proof.
  intros Ha Hl. unfold put_dinode, put16, put32.
  do 4 (rewrite splice_splice by (done || cbn; lia)).
  rewrite (put_addrs_splice (i_addrs ip) o 12) by (done || rewrite Ha; cbn; lia).
  unfold dinode_bytes. by rewrite <- !app_assoc.
Qed.

Lemma length_words a : length (mjoin (le32 <$> a)) = (4 * length a)%nat.
Proof.
  induction a as [|x a IH]; [done|]. change (length (le32 x ++ mjoin (le32 <$> a)) = (4 * S (length a))%nat). rewrite length_app, IH. cbn. lia.
Qed.

Lemma length_dinode_bytes ip : length (i_addrs ip) = 13%nat -> length (dinode_bytes ip) = 64%nat.
Proof. intros H. unfold dinode_bytes. rewrite !length_app, length_words, H. done. Qed.

(** A field of what was stored. *)
Lemma take_drop_stored o e l k m :
  (o + length e <= length l)%nat -> (k + m <= length e)%nat -> take m (drop (o + k) (splice o e l)) = take m (drop k e).
Proof.
  intros Hl Hk. unfold splice. rewrite drop_app_ge by (rewrite length_take; lia). rewrite length_take.
  replace (o + k - o `min` length l)%nat with k by lia. rewrite drop_app_le by lia. rewrite take_app_le; [done|]. rewrite length_drop. lia.
Qed.

Lemma words_at a j x : a !! j = Some x -> take 4 (drop (4 * j) (mjoin (le32 <$> a))) = le32 x.
Proof.
  revert j. induction a as [|y a IH]; intros [|j] H; try done; cbn in H.
  - injection H as ->. done.
  - replace (4 * S j)%nat with (4 + 4 * j)%nat by lia. change (mjoin (le32 <$> y :: a)) with (le32 y ++ mjoin (le32 <$> a)). rewrite <- drop_drop.
    rewrite drop_app_length' by done. by apply IH.
Qed.

(** The fields have values of their C types. *)
Record fits (ip : inode) : Prop := {
  ft_type : s16 (i_type ip) = i_type ip;
  ft_major : s16 (i_major ip) = i_major ip;
  ft_minor : s16 (i_minor ip) = i_minor ip;
  ft_nlink : s16 (i_nlink ip) = i_nlink ip;
  ft_size : u32 (i_size ip) = i_size ip;
  ft_addrs : length (i_addrs ip) = 13%nat /\ forall x, x ∈ i_addrs ip -> u32 x = x }.

Lemma s16_u16 x : s16 (u16 x) = s16 x.
Proof. unfold s16, u16. by rewrite Zplus_mod_idemp_l. Qed.

Section dinode.
Context (ip jp : inode) (o : nat) (d : block).
Hypothesis Fit : fits ip.
Hypothesis Hl : (o + 64 <= length d)%nat.

Lemma stored_field k m : (k + m <= 64)%nat -> take m (drop (o + k) (put_dinode ip o d)) = take m (drop k (dinode_bytes ip)).
Proof.
  intros Hk. destruct (ft_addrs _ Fit) as [Ha _]. rewrite put_dinode_splice by done.
  apply take_drop_stored; rewrite length_dinode_bytes by done; done.
Qed.

Lemma stored_short k v : (k + 2 <= 64)%nat -> take 2 (drop k (dinode_bytes ip)) = le16 v -> s16 v = v -> s16 (get16 (put_dinode ip o d) (o + k)) = v.
Proof. intros Hk Hv Hs. unfold get16. by rewrite stored_field, Hv, of_le16, s16_u16. Qed.

Lemma load_put_dinode : load_dinode (put_dinode ip o d) o jp =
  mkInode (i_dev jp) (i_inum jp) (i_ref jp) (i_lock jp) (i_valid jp) (i_type ip) (i_major ip) (i_minor ip) (i_nlink ip) (i_size ip) (i_addrs ip).
Proof.
  destruct Fit as [F1 F2 F3 F4 F5 [F6 F7]]. unfold load_dinode, di_type, di_major, di_minor, di_nlink. f_equal.
  - rewrite <- (Nat.add_0_r o) at 2. by apply stored_short; [lia| |].
  - by apply stored_short; [lia| |].
  - by apply stored_short; [lia| |].
  - by apply stored_short; [lia| |].
  - unfold di_size, get32. rewrite stored_field by lia. change (take 4 (drop 8 (dinode_bytes ip))) with (le32 (i_size ip)). by rewrite of_le32.
  - unfold di_addrs. apply list_eq. intros j. rewrite list_lookup_fmap. destruct (decide (j < 13)%nat) as [Hj|Hj].
    + rewrite lookup_seq_lt by done. cbn [fmap option_fmap option_map]. rewrite Nat.add_0_l. destruct (lookup_lt_is_Some_2 (i_addrs ip) j ltac:(lia)) as [x Hx]. rewrite Hx. f_equal.
      unfold get32. rewrite <- Nat.add_assoc, stored_field by lia. rewrite <- drop_drop.
      change (drop 12 (dinode_bytes ip)) with (mjoin (le32 <$> i_addrs ip)). rewrite (words_at _ _ _ Hx), of_le32.
      apply F7. by eapply list_elem_of_lookup_2.
    + rewrite lookup_seq_ge by lia. cbn. symmetry. apply lookup_ge_None_2. lia.
Qed.

(** The other inodes of the block. *)
Lemma load_put_other o' : (o' + 64 <= o \/ o + 64 <= o')%nat -> load_dinode (put_dinode ip o d) o' jp = load_dinode d o' jp.
Proof.
  intros Ho. destruct (ft_addrs _ Fit) as [Ha _].
  assert (forall k m, (k + m <= 64)%nat -> take m (drop (o' + k) (put_dinode ip o d)) = take m (drop (o' + k) d)) as Hf.
  { intros k m Hk. rewrite put_dinode_splice by done. apply take_drop_splice_other; rewrite length_dinode_bytes by done; lia. }
  unfold load_dinode, di_type, di_major, di_minor, di_nlink, di_size, di_addrs, get16, get32. rewrite !Hf by lia. f_equal.
  - rewrite <- (Nat.add_0_r o'). by rewrite Hf by lia.
  - apply list_fmap_ext. intros j x [-> Hj]%lookup_seq. by rewrite <- Nat.add_assoc, Hf by lia.
Qed.
End dinode.

Lemma length_put_dinode ip o d : length (i_addrs ip) = 13%nat -> (o + 64 <= length d)%nat -> length (put_dinode ip o d) = length d.
Proof. intros Ha Hl. rewrite put_dinode_splice by done. apply length_splice. by rewrite length_dinode_bytes. Qed.

Lemma dino_bound inum : (dino inum + 64 <= 512)%nat.
Proof. unfold dino. pose proof (Z.mod_pos_bound inum IPB ltac:(done)). unfold IPB in *. lia. Qed.

(** Two inodes are in different places. *)
Lemma dino_apart inum inum' sb :
  0 <= inum -> 0 <= inum' -> inum <> inum' -> IBLOCK inum sb = IBLOCK inum' sb ->
  (dino inum + 64 <= dino inum' \/ dino inum' + 64 <= dino inum)%nat.
Proof.
  intros H H' Hne Hb. unfold IBLOCK, dino, IPB in *. pose proof (Z.div_mod inum 8). pose proof (Z.div_mod inum' 8).
  pose proof (Z.mod_pos_bound inum 8). pose proof (Z.mod_pos_bound inum' 8). lia.
Qed.

(** ** iupdate *)

(** The blocks after [iupdate] of [ip]. *)
Definition stored (sb : superblock) (V : Z -> block) (ip : inode) : Z -> block :=
  wr (IBLOCK (i_inum ip) sb) (put_dinode ip (dino (i_inum ip)) (V (IBLOCK (i_inum ip) sb))) V.

(** A view that agrees on the bitmap and the data has the same files. *)
Lemma slot_agree sb d0 V W a k :
  file_ok sb d0 V a -> (forall c, d0 <= c < sb_size sb -> W c = V c) -> slot W a k = slot V a k.
Proof.
  intros F HW. unfold slot. destruct (k <? 0); [done|]. destruct (k <? NDIRECT); [done|]. destruct (Z.eqb_spec (nth 12 a 0) 0); [done|].
  rewrite HW; [done|]. apply (fo_data _ _ _ _ F (-1)); [unfold in_map, MAXFILE, NDIRECT, NINDIRECT; lia|done].
Qed.

Lemma file_ok_agree sb d0 V W a :
  file_ok sb d0 V a -> (forall c, d0 <= c < sb_size sb -> W c = V c) -> W (sb_bmapstart sb) = V (sb_bmapstart sb) -> file_ok sb d0 W a.
Proof.
  intros F HW Hb. assert (forall k, slot W a k = slot V a k) as Hs by (intros k; by apply (slot_agree sb d0)).
  split; [apply F|..].
  - intros k Hk. rewrite Hs. unfold used. rewrite Hb. by apply F.
  - intros k k'. rewrite !Hs. apply F.
Qed.

Section iupdate.
Context (s : kst) (n : Z) (V : Z -> block) (B : gset Z) (d0 : Z) (i : nat) (ip : inode).
Hypothesis A : file_at s n V B d0 i ip.
Hypothesis Fit : fits ip.
Hypothesis Hin : 0 <= i_inum ip < sb_ninodes (k_sb s).
#[local] Abbreviation sb := (k_sb s).
#[local] Abbreviation c := (IBLOCK (i_inum ip) sb).

Lemma iblock_low : home (k_lst s) c /\ c < sb_bmapstart sb /\ sb_bmapstart sb < d0.
Proof.
  pose proof (fi_lay _ _ _ _ _ _ (fa_fs _ _ _ _ _ _ _ A)) as L. pose proof (ly_iblock _ _ _ _ L _ Hin) as Hc.
  pose proof (ly_order _ _ _ _ L). split; [|lia]. apply (fi_home _ _ _ _ _ _ _ (fa_fs _ _ _ _ _ _ _ A)). lia.
Qed.

Lemma stored_other e : sb_bmapstart sb <= e -> stored sb V ip e = V e.
Proof. intros He. destruct iblock_low as (_ & H1 & _). unfold stored. apply wr_other. lia. Qed.

Lemma iupdate_run :
  (size B < 29)%nat ->
  exists l, iupdate i [] s = Ret tt [] (s ◁ l) /\ file_at (s ◁ l) n (stored sb V ip) ({[c]} ∪ B) d0 i ip /\ inside (k_lst s) l.
Proof.
  intros Hr. destruct iblock_low as (Hh & H1 & H2). destruct (ft_addrs _ Fit) as [Ha _].
  pose proof (fi_len _ _ _ _ _ _ c (fa_fs _ _ _ _ _ _ _ A)) as Hlen.
  destruct (update_block n s [] V B c (put_dinode ip (dino (i_inum ip)) (V c)) (fi_log _ _ _ _ _ _ (fa_fs _ _ _ _ _ _ _ A)) Hh)
    as (p & l1 & l2 & l3 & l4 & R1 & R2 & R3 & R4 & R5 & I5 & N5);
    [apply not_elem_of_nil|done|exact (fi_out _ _ _ _ _ _ (fa_fs _ _ _ _ _ _ _ A))|rewrite length_put_dinode; rewrite ?Hlen; [done|done|apply dino_bound]|].
  exists l4. split_and!; [| |done].
  - unfold iupdate, ip_. repeat kstep_base. rewrite (get_ip_Some _ _ _ (fa_ip _ _ _ _ _ _ _ A)), (fa_dev _ _ _ _ _ _ _ A).
    run_with R1. run_with R2. run_with R3. run_with R4. by run_with R5.
  - split; [|apply A|apply A|].
    + eapply fs_inside; [apply A|done|done|]. intros b Hb. unfold used. fold (stored sb V ip). rewrite stored_other by lia. by apply A.
    + eapply file_ok_agree; [apply A| |]; cbn [k_sb set_k_lst]; [intros e He|]; apply stored_other; lia.
Qed.
End iupdate.
