(* ===== verification/Fsio.v ===== *)
(** * Reading and writing files

    The bytes of a file as [readi] returns them and [writei] changes them. *)

From Stdlib Require Import ZArith Lia String.
From stdpp Require Import prelude numbers strings option gmap list.
From S2P Require Import Prelude Kernel Mem Sched Monitor Sleeplock Bio Log Logcrash Logtxn Console Kst Inode Fsblock Fsfile Fsinode Device Fs.

(** ** The bytes of a file *)

(** The byte at offset [o], and [n] bytes from there. *)
Definition fbyte (V : Z -> block) (a : list Z) (o : Z) : Z := nth (Z.to_nat (o mod BSIZE)) (V (slot V a (o / BSIZE))) 0.
Definition content (V : Z -> block) (a : list Z) (off n : Z) : list Z := fbyte V a <$> seqZ off n.

(** Every block that bytes [off .. off + n - 1] lie in is there. *)
Definition mapped (V : Z -> block) (a : list Z) (off n : Z) : Prop :=
  forall o, off <= o < off + n -> slot V a (o / BSIZE) <> 0.

Lemma content_app V a off n m : 0 <= n -> 0 <= m -> content V a off (n + m) = content V a off n ++ content V a (off + n) m.
Proof. intros Hn Hm. unfold content. by rewrite seqZ_app, fmap_app by done. Qed.

Lemma length_content V a off n : length (content V a off n) = Z.to_nat n.
Proof. unfold content. by rewrite length_fmap, length_seqZ. Qed.

Lemma content_lookup V a off n (j : nat) : Z.of_nat j < n -> content V a off n !! j = Some (fbyte V a (off + Z.of_nat j)).
Proof. intros Hj. unfold content. by rewrite list_lookup_fmap, lookup_seqZ_lt. Qed.

Lemma content_ext V a V' a' off n :
  (forall o, off <= o < off + n -> fbyte V' a' o = fbyte V a o) -> content V' a' off n = content V a off n.
Proof.
  intros H. unfold content. apply list_fmap_ext. intros j o [-> Hj]%lookup_seqZ. apply H. lia.
Qed.

(** Offsets [o .. o + m - 1] are in one block. *)
Lemma same_block off o : 0 <= off -> off <= o < off + (BSIZE - off mod BSIZE) -> o / BSIZE = off / BSIZE /\ o mod BSIZE = off mod BSIZE + (o - off).
Proof.
  unfold BSIZE. intros H0 Ho. pose proof (Z.div_mod off 512). pose proof (Z.mod_pos_bound off 512).
  split; symmetry; [apply (Z.div_unique o 512 _ (off mod 512 + (o - off)))|apply (Z.mod_unique o 512 (off / 512))]; lia.
Qed.

Lemma content_chunk V a off m :
  0 <= off -> 0 <= m <= BSIZE - off mod BSIZE -> length (V (slot V a (off / BSIZE))) = 512%nat ->
  content V a off m = take (Z.to_nat m) (drop (Z.to_nat (off mod BSIZE)) (V (slot V a (off / BSIZE)))).
Proof.
  intros Hoff Hm Hl. pose proof (Z.mod_pos_bound off BSIZE ltac:(done)) as Hb. apply list_eq. intros j.
  destruct (decide (Z.of_nat j < m)) as [Hj|Hj].
  - rewrite content_lookup by done. rewrite lookup_take_lt, lookup_drop by lia. unfold fbyte.
    destruct (same_block off (off + Z.of_nat j) Hoff) as [-> ->]; [lia|]. rewrite nth_lookup.
    replace (Z.to_nat (off mod BSIZE + (off + Z.of_nat j - off))) with (Z.to_nat (off mod BSIZE) + j)%nat by lia.
    destruct (lookup_lt_is_Some_2 (V (slot V a (off / BSIZE))) (Z.to_nat (off mod BSIZE) + j)) as [x ->]; [unfold BSIZE in *; lia|done].
  - rewrite !lookup_ge_None_2; [done| |rewrite length_content; lia]. rewrite length_take. lia.
Qed.

(** [f] blocks are enough for the two loops. *)
Definition enough (off left : Z) (f : nat) : Prop := left <= 0 \/ left + off mod BSIZE <= BSIZE * Z.of_nat f.

Lemma enough_O off left : enough off left 0 -> left <= 0.
Proof. intros [H|H]; [done|]. pose proof (Z.mod_pos_bound off BSIZE ltac:(done)). lia. Qed.

Lemma enough_S off left f :
  0 <= off -> 0 < left -> enough off left (S f) ->
  let m := Z.min left (BSIZE - off mod BSIZE) in 0 < m <= left /\ m <= BSIZE - off mod BSIZE /\ enough (off + m) (left - m) f.
Proof.
  intros H0 Hl [H|H] m; [lia|]. pose proof (Z.mod_pos_bound off BSIZE ltac:(done)) as Hb. unfold m, enough.
  split; [lia|]. split; [lia|]. destruct (decide (left <= BSIZE - off mod BSIZE)); [left; lia|right].
  rewrite Z.min_r by lia. assert ((off + (BSIZE - off mod BSIZE)) mod BSIZE = 0) as ->; [|lia].
  symmetry. apply (Z.mod_unique _ BSIZE (off / BSIZE + 1)); [unfold BSIZE; lia|]. pose proof (Z.div_mod off BSIZE ltac:(done)). lia.
Qed.

(** ** readi *)

Lemma file_at_lst {w} s n V B d0 i ip l :
  file_at_ w s n V B d0 i ip -> log_inv l n [] V B -> inside (k_lst s) l -> file_at_ w (s ◁ l) n V B d0 i ip.
Proof. intros A Il N. split; [|apply A..]. eapply fs_inside; [apply A|done|done|apply A]. Qed.

Lemma slot_home {w} s n V B d0 i ip k :
  file_at_ w s n V B d0 i ip -> in_map k -> slot V (i_addrs ip) k <> 0 -> home (k_lst s) (slot V (i_addrs ip) k).
Proof.
  intros A Hk Hs. destruct (fo_data _ _ _ _ (fa_file _ _ _ _ _ _ _ A) k Hk Hs) as [Hr _].
  by apply (data_home _ _ _ _ _ _ (fa_fs _ _ _ _ _ _ _ A)).
Qed.

Lemma block_in_map off left : 0 <= off -> 0 < left -> off + left <= MAXFILE * BSIZE -> 0 <= off / BSIZE < MAXFILE.
Proof. intros. split; [by apply Z.div_pos|apply Z.div_lt_upper_bound; [done|lia]]. Qed.

Lemma readi_loop_run {w} f fuel s n V B d0 i ip off left dst :
  file_at_ w s n V B d0 i ip -> 0 <= off -> 0 <= left -> off + left <= MAXFILE * BSIZE -> mapped V (i_addrs ip) off left ->
  (size B < NBUF)%nat -> enough off left f -> (f <= fuel)%nat ->
  exists l, readi_loop fuel i off left dst [] s = Ret (dst ++ content V (i_addrs ip) off left) [] (s ◁ l) /\
    log_inv l n [] V B /\ inside (k_lst s) l.
Proof.
  revert fuel s off left dst. induction f as [|f IH]; intros fuel s off left dst A H0 Hl Hmax Hmap Hr He Hf.
  { apply enough_O in He. assert (left = 0) as -> by lia. exists (k_lst s). rewrite set_lst_same. split_and!; [|apply A|done].
    destruct fuel; cbn; by rewrite app_nil_r. }
  destruct (decide (left = 0)) as [->|Hnz].
  { exists (k_lst s). rewrite set_lst_same. split_and!; [|apply A|done]. destruct fuel; cbn; by rewrite app_nil_r. }
  destruct fuel as [|fuel]; [lia|]. destruct (enough_S off left f) as (Hm & Hm2 & He2); [lia..|done|].
  set (m := Z.min left (BSIZE - off mod BSIZE)) in *.
  pose proof (block_in_map off left H0 ltac:(lia) Hmax) as Hk. pose proof (Hmap off ltac:(lia)) as Hs.
  destruct (bmap_found s n V B d0 i ip _ A Hk Hs Hr) as (l1 & R1 & I1 & N1).
  pose proof (file_at_lst _ _ _ _ _ _ _ _ A I1 N1) as A1.
  destruct (read_block n (s ◁ l1) [] V B (slot V (i_addrs ip) (off / BSIZE)) I1) as (p & l2 & l3 & R2 & R3 & R4 & I3 & N3);
    [apply (slot_home _ _ _ _ _ _ _ _ A1); [unfold in_map; lia|done]|apply not_elem_of_nil|by right|].
  pose proof (file_at_lst _ _ _ _ _ _ _ _ A1 I3 N3) as A3.
  destruct (IH fuel (s ◁ l3) (off + m) (left - m) (dst ++ content V (i_addrs ip) off m)) as (l4 & R5 & I4 & N4);
    [done|lia..|intros o Ho; apply Hmap; lia|done|done|lia|].
  exists l4. split_and!; [|done|etrans; [exact N1|]; by etrans].
  cbn [readi_loop]. rewrite (proj2 (Z.leb_gt _ _)) by lia. unfold ip_. repeat kstep_base.
  rewrite (get_ip_Some _ _ _ (fa_ip _ _ _ _ _ _ _ A)), (fa_dev _ _ _ _ _ _ _ A). run_with R1. run_with R2. run_with R3. run_with R4.
  fold m. rewrite <- content_chunk by (lia || exact (fi_len _ _ _ _ _ _ _ (fa_fs _ _ _ _ _ _ _ A))).
  change (s ◁ l1 ◁ l3) with (s ◁ l3). rewrite R5. change (s ◁ l3 ◁ l4) with (s ◁ l4). f_equal.
  rewrite <- app_assoc. f_equal. rewrite <- content_app by lia. f_equal. lia.
Qed.

(** ** writei *)

(** From [V] and [a] to [V'] and [a'] the bytes [bs] have been written at [off]. *)
Record wrote (sb : superblock) (V : Z -> block) (a : list Z) (off : Z) (bs : list Z) (V' : Z -> block) (a' : list Z) : Prop := {
  wt_grows : grows sb V a V' a';
  wt_new : forall o, off <= o < off + Z.of_nat (length bs) ->
    slot V' a' (o / BSIZE) <> 0 /\ fbyte V' a' o = nth (Z.to_nat (o - off)) bs 0;
  wt_old : forall o, 0 <= o < MAXFILE * BSIZE -> slot V a (o / BSIZE) <> 0 -> ~ (off <= o < off + Z.of_nat (length bs)) ->
    fbyte V' a' o = fbyte V a o;
  wt_same : mapped V a off (Z.of_nat (length bs)) -> a' = a }.

Lemma block_index o : 0 <= o < MAXFILE * BSIZE -> 0 <= o / BSIZE < MAXFILE /\ in_map (o / BSIZE).
Proof.
  intros Ho. assert (0 <= o / BSIZE < MAXFILE) by (split; [apply Z.div_pos; [lia|done]|apply Z.div_lt_upper_bound; [done|lia]]).
  split; [done|unfold in_map; lia].
Qed.

Lemma wrote_nil sb V a off : wrote sb V a off [] V a.
Proof. split; [apply grows_refl|intros o Ho; cbn in Ho; lia|done|done]. Qed.

Lemma wrote_app sb d0 V a off bs1 V1 a1 bs2 V2 a2 :
  0 < d0 -> file_ok sb d0 V1 a1 -> file_ok sb d0 V2 a2 -> 0 <= off -> off + Z.of_nat (length (bs1 ++ bs2)) <= MAXFILE * BSIZE ->
  wrote sb V a off bs1 V1 a1 -> wrote sb V1 a1 (off + Z.of_nat (length bs1)) bs2 V2 a2 -> wrote sb V a off (bs1 ++ bs2) V2 a2.
Proof.
  intros Hd F1 F2 H0 Hmax [G1 N1 O1 S1] [G2 N2 O2 S2]. rewrite length_app in *. split; rewrite ?length_app.
  - exact (grows_trans _ _ _ _ _ _ _ d0 Hd F1 F2 G1 G2).
  - intros o Ho. destruct (decide (o < off + Z.of_nat (length bs1))) as [Hlt|Hge].
    + destruct (N1 o ltac:(lia)) as [Hs Hv]. destruct (block_index o ltac:(lia)) as [_ Hm]. split.
      * rewrite (gr_keep _ _ _ _ _ G2) by done. done.
      * rewrite O2, Hv by (done || lia). rewrite app_nth1; [done|lia].
    + destruct (N2 o ltac:(lia)) as [Hs Hv]. split; [done|]. rewrite Hv, app_nth2 by lia. f_equal. lia.
  - intros o Ho Hs Hno. destruct (block_index o Ho) as [_ Hm]. rewrite O2, O1 by (done || lia || rewrite (gr_keep _ _ _ _ _ G1); done). done.
  - intros Hmap. assert (a1 = a) as -> by (apply S1; intros o Ho; apply Hmap; lia). apply S2. intros o Ho.
    destruct (block_index o ltac:(lia)) as [_ Hm]. rewrite (gr_keep _ _ _ _ _ G1); [|done|]; apply Hmap; lia.
Qed.

(** The data of one block of the file replaced. *)
Section put_data.
Context (sb : superblock) (d0 : Z) (V : Z -> block) (a : list Z) (k : Z) (d : block).
Hypothesis F : file_ok sb d0 V a.
Hypothesis Hk : 0 <= k < MAXFILE.
Hypothesis Hs : slot V a k <> 0.
Hypothesis Hbm : sb_bmapstart sb < d0.
#[local] Abbreviation V' := (wr (slot V a k) d V).

Lemma put_data_slot k' : slot V' a k' = slot V a k'.
Proof.
  unfold slot at 1 3. destruct (k' <? 0); [done|]. destruct (k' <? NDIRECT); [done|]. destruct (Z.eqb_spec (nth 12 a 0) 0) as [|Hn]; [done|].
  rewrite wr_other; [done|]. intros E. assert (-1 = k); [|lia].
  apply (fo_inj _ _ _ _ F); [unfold in_map, MAXFILE, NDIRECT, NINDIRECT; lia|unfold in_map; lia|done|done].
Qed.

Lemma put_data_bmap : slot V a k <> sb_bmapstart sb.
Proof. destruct (fo_data _ _ _ _ F k ltac:(unfold in_map; lia) Hs). lia. Qed.

Lemma put_data_used c : used sb V' c = used sb V c.
Proof. unfold used. by rewrite wr_other by (apply not_eq_sym, put_data_bmap). Qed.

Lemma put_data_ok : file_ok sb d0 V' a.
Proof.
  split; [apply F|..].
  - intros k'. rewrite put_data_slot, put_data_used. apply F.
  - intros k1 k2. rewrite !put_data_slot. apply F.
Qed.

Lemma put_data_grows : grows sb V a V' a.
Proof.
  split.
  - intros. apply put_data_slot.
  - intros k' _ Hne. by rewrite put_data_slot in Hne.
  - intros c _. by rewrite put_data_used.
  - intros c _ _ _ Hno. apply wr_other. intros ->. by apply (Hno k); [unfold in_map; lia|].
Qed.

Lemma put_data_byte o :
  0 <= o < MAXFILE * BSIZE -> slot V a (o / BSIZE) <> 0 ->
  fbyte V' a o = if decide (o / BSIZE = k) then nth (Z.to_nat (o mod BSIZE)) d 0 else fbyte V a o.
Proof.
  intros Ho Hso. unfold fbyte. rewrite put_data_slot. case_decide as E; [by rewrite E, wr_same|].
  rewrite wr_other; [done|]. intros E2. apply E. destruct (block_index o Ho) as [_ Hm].
  apply (fo_inj _ _ _ _ F); [done|unfold in_map; lia|done|done].
Qed.
End put_data.

(** The blocks a transaction writes when it has to write the bitmap and the
    indirect block of the file as well. *)
Definition weight (sb : superblock) (V : Z -> block) (a : list Z) (B : gset Z) : nat :=
  if slot V a (-1) =? 0 then S (size ({[sb_bmapstart sb]} ∪ B)) else size ({[slot V a (-1)]} ∪ ({[sb_bmapstart sb]} ∪ B)).

Lemma weight_bounds sb V a B : (size B <= weight sb V a B <= size B + 2)%nat.
Proof.
  unfold weight. pose proof (size_add (sb_bmapstart sb) B). pose proof (subseteq_size B ({[sb_bmapstart sb]} ∪ B) ltac:(set_solver)).
  destruct (_ =? 0); [lia|]. pose proof (size_add (slot V a (-1)) ({[sb_bmapstart sb]} ∪ B)).
  pose proof (subseteq_size B ({[slot V a (-1)]} ∪ ({[sb_bmapstart sb]} ∪ B)) ltac:(set_solver)). lia.
Qed.

Lemma weight_step sb V a B V' a' B' b :
  (slot V a (-1) <> 0 -> slot V' a' (-1) = slot V a (-1)) ->
  (forall c, c ∈ B' -> c ∈ B \/ c = sb_bmapstart sb \/ (c <> 0 /\ (c = b \/ c = slot V' a' (-1)))) ->
  (weight sb V' a' B' <= S (weight sb V a B))%nat.
Proof.
  intros Hk HB. unfold weight. destruct (Z.eqb_spec (slot V' a' (-1)) 0) as [E'|E'].
  - destruct (Z.eqb_spec (slot V a (-1)) 0) as [E|E]; [|by rewrite Hk in E'].
    pose proof (size_add b ({[sb_bmapstart sb]} ∪ B)).
    pose proof (subseteq_size ({[sb_bmapstart sb]} ∪ B') ({[b]} ∪ ({[sb_bmapstart sb]} ∪ B))) as Hs.
    enough (size ({[sb_bmapstart sb]} ∪ B') <= size ({[b]} ∪ ({[sb_bmapstart sb]} ∪ B)))%nat by lia. apply Hs. set_solver.
  - pose proof (size_add b ({[slot V' a' (-1)]} ∪ ({[sb_bmapstart sb]} ∪ B))).
    pose proof (size_add (slot V' a' (-1)) ({[sb_bmapstart sb]} ∪ B)).
    assert (size ({[slot V' a' (-1)]} ∪ ({[sb_bmapstart sb]} ∪ B')) <= size ({[b]} ∪ ({[slot V' a' (-1)]} ∪ ({[sb_bmapstart sb]} ∪ B))))%nat
      by (apply subseteq_size; set_solver).
    destruct (Z.eqb_spec (slot V a (-1)) 0) as [E|E]; [lia|]. rewrite Hk in * by done. lia.
Qed.

(** The blocks that have come to those of the transaction are not below the bitmap. *)
Definition above (sb : superblock) (B B' : gset Z) : Prop := forall c, c ∈ B' -> c ∈ B \/ sb_bmapstart sb <= c.

(** One round of the loop of [writei]. *)
Definition write_chunk (i : nat) (off : Z) (bs : list Z) : K kst unit :=
  ip ← ip_ i;
  b ← bmap i (off / BSIZE);
  bp ← kbread (i_dev ip) b;
  d ← kdata bp;
  kset bp (splice (Z.to_nat (off mod BSIZE)) bs d);;
  klog_write bp;;
  kbrelse bp.

Lemma writei_loop_S fuel i src off left h s s' :
  0 < left -> let m := Z.min left (BSIZE - off mod BSIZE) in
  write_chunk i off (take (Z.to_nat m) src) h s = Ret tt h s' ->
  writei_loop (S fuel) i src off left h s = writei_loop fuel i (drop (Z.to_nat m) src) (off + m) (left - m) h s'.
Proof.
  intros Hl m R. cbn [writei_loop]. rewrite (proj2 (Z.leb_gt _ _)) by lia. fold m.
  unfold write_chunk in R.
  repeat (rewrite bind_unfold in R; rewrite bind_unfold; cbv beta iota in R |- *;
    match type of R with match ?c with _ => _ end = _ => destruct c; [|done..] end).
  by rewrite bind_unfold, R.
Qed.

(** The new contents of the block of [off]. *)
Lemma chunk_wrote sb d0 V a off bs V1 a1 :
  file_ok sb d0 V a -> file_ok sb d0 V1 a1 -> sb_bmapstart sb < d0 -> 0 < d0 ->
  0 <= off -> 0 < Z.of_nat (length bs) <= BSIZE - off mod BSIZE -> off + Z.of_nat (length bs) <= MAXFILE * BSIZE ->
  length (V1 (slot V1 a1 (off / BSIZE))) = 512%nat -> slot V1 a1 (off / BSIZE) <> 0 -> grows sb V a V1 a1 ->
  (slot V a (off / BSIZE) <> 0 -> a1 = a) ->
  (forall k', 0 <= k' < MAXFILE -> slot V a k' <> 0 -> V1 (slot V a k') = V (slot V a k')) ->
  let V2 := wr (slot V1 a1 (off / BSIZE)) (splice (Z.to_nat (off mod BSIZE)) bs (V1 (slot V1 a1 (off / BSIZE)))) V1 in
  file_ok sb d0 V2 a1 /\ wrote sb V a off bs V2 a1.
Proof.
  intros F F1 Hbm Hd H0 Hm Hmax Hlen Z1 G1 S1 D1 V2.
  destruct (block_index off ltac:(lia)) as [Hk _]. pose proof (Z.mod_pos_bound off BSIZE ltac:(done)) as Hmod.
  pose proof (put_data_ok sb d0 V1 a1 (off / BSIZE) (splice (Z.to_nat (off mod BSIZE)) bs (V1 (slot V1 a1 (off / BSIZE)))) F1 Hk Z1 Hbm) as F2.
  pose proof (put_data_grows sb d0 V1 a1 (off / BSIZE) (splice (Z.to_nat (off mod BSIZE)) bs (V1 (slot V1 a1 (off / BSIZE)))) F1 Hk Z1 Hbm) as G2.
  split; [exact F2|]. split.
  - exact (grows_trans _ _ _ _ _ _ _ d0 Hd F1 F2 G1 G2).
  - intros o Ho. destruct (same_block off o H0 ltac:(lia)) as [Eb Em].
    assert (slot V1 a1 (o / BSIZE) <> 0) as Hs by (by rewrite Eb). split; [unfold V2; by rewrite (put_data_slot sb d0)|].
    unfold V2. rewrite (put_data_byte sb d0) by (done || lia). rewrite decide_True by done. rewrite Em, nth_lookup.
    unfold splice. rewrite lookup_app_r; rewrite length_take; [|lia]. rewrite lookup_app_l by (unfold BSIZE in *; lia).
    rewrite <- nth_lookup. f_equal. unfold BSIZE in *. lia.
  - intros o Ho Hs Hno. destruct (block_index o Ho) as [Hko Hmo]. pose proof (gr_keep _ _ _ _ _ G1 _ Hmo Hs) as E1.
    assert (fbyte V1 a1 o = fbyte V a o) as <- by (unfold fbyte; by rewrite E1, D1).
    unfold V2. rewrite (put_data_byte sb d0) by (done || lia || by rewrite E1). case_decide as E; [|done].
    unfold fbyte. rewrite E. rewrite !nth_lookup. f_equal. pose proof (Z.mod_pos_bound o BSIZE ltac:(done)).
    apply lookup_splice_other; [unfold BSIZE in *; lia|].
    pose proof (Z.div_mod o BSIZE ltac:(done)). pose proof (Z.div_mod off BSIZE ltac:(done)). rewrite E in *. unfold BSIZE in *. lia.
  - intros Hmap. apply S1, Hmap. lia.
Qed.

Lemma write_chunk_run s n V B d0 i ip off bs m0 :
  file_at s n V B d0 i ip -> 0 <= off -> 0 < Z.of_nat (length bs) <= BSIZE - off mod BSIZE ->
  off + Z.of_nat (length bs) <= MAXFILE * BSIZE -> nfree (k_sb s) V (2 + m0) -> (size B < 24)%nat ->
  exists l V' a' B', write_chunk i off bs [] s = Ret tt [] (put_addr_list i a' (s ◁ l)) /\
    file_at (put_addr_list i a' (s ◁ l)) n V' B' d0 i (set_i_addrs a' ip) /\ inside (k_lst s) l /\
    wrote (k_sb s) V (i_addrs ip) off bs V' a' /\ nfree (k_sb s) V' m0 /\
    (weight (k_sb s) V' a' B' <= S (weight (k_sb s) V (i_addrs ip) B))%nat /\ above (k_sb s) B B'.
Proof.
  intros A H0 Hm Hmax Hf Hr. destruct (block_index off ltac:(lia)) as [Hk Hmk].
  destruct (bmap_run s n V B d0 i ip _ A Hk (nfree_weaken _ _ _ 2 Hf ltac:(lia)) Hr) as (l1 & V1 & a1 & B1 & R1 & A1 & N1 & Hfl).
  set (s1 := put_addr_list i a1 (s ◁ l1)) in *. set (b := slot V1 a1 (off / BSIZE)) in *.
  pose proof (fa_fs _ _ _ _ _ _ _ A1) as I1. pose proof (fi_len _ _ _ _ _ _ b I1) as Hlen.
  pose proof (d0_pos _ _ _ _ _ _ (fa_fs _ _ _ _ _ _ _ A)) as Hd. pose proof (Z.mod_pos_bound off BSIZE ltac:(done)) as Hmod.
  pose proof (gr_keep _ _ _ _ _ (fl_grows _ _ _ _ _ _ _ _ Hfl) (-1) ltac:(unfold in_map, MAXFILE, NDIRECT, NINDIRECT; lia)) as Hki.
  pose proof (weight_step _ _ _ B V1 a1 B1 b Hki (fl_B _ _ _ _ _ _ _ _ Hfl)) as Hw1.
  pose proof (weight_bounds (k_sb s) V (i_addrs ip) B) as Hw0. pose proof (weight_bounds (k_sb s) V1 a1 B1) as Hw1'.
  destruct (update_block n s1 [] V1 B1 b (splice (Z.to_nat (off mod BSIZE)) bs (V1 b)) (fi_log _ _ _ _ _ _ I1))
    as (p & l2 & l3 & l4 & l5 & R2 & R3 & R4 & R5 & R6 & I5 & N5).
  { apply (slot_home _ _ _ _ _ _ _ _ A1); [done|apply Hfl]. }
  { apply not_elem_of_nil. }
  { cbn. lia. }
  { exact (fi_out _ _ _ _ _ _ I1). }
  { rewrite length_splice; [done|unfold BSIZE in *; lia]. }
  destruct (chunk_wrote (k_sb s) d0 V (i_addrs ip) off bs V1 a1) as [F2 W2]; [apply A|apply A1|lia..|done|apply Hfl|apply Hfl|apply Hfl|apply Hfl|].
  set (V2 := wr b _ V1) in *. change (s1 ◁ l5) with (put_addr_list i a1 (s ◁ l5)) in *.
  assert (forall c, used (k_sb s) V2 c = used (k_sb s) V1 c) as Hu.
  { intros c. apply (put_data_used (k_sb s) d0 V1 a1); [apply A1|done|apply Hfl|lia]. }
  exists l5, V2, a1, ({[b]} ∪ B1). split_and!; [| |etrans; [exact N1|exact N5]|done|..].
  - unfold write_chunk, ip_. repeat kstep_base. rewrite (get_ip_Some _ _ _ (fa_ip _ _ _ _ _ _ _ A)), (fa_dev _ _ _ _ _ _ _ A).
    run_with R1. run_with R2. run_with R3. run_with R4. run_with R5. by rewrite R6.
  - split; [|apply A1|apply A1|exact F2].
    change (put_addr_list i a1 (s ◁ l5)) with (s1 ◁ l5). eapply fs_inside; [exact I1|done|done|]. intros c Hc.
    change (k_sb s1) with (k_sb s). rewrite Hu. by apply I1.
  - destruct (fl_free _ _ _ _ _ _ _ _ Hfl m0 Hf) as (L & ? & ? & HL). exists L. split_and!; [done..|]. intros c. rewrite Hu. apply HL.
  - assert (slot V2 a1 (-1) = slot V1 a1 (-1)) as Hsi by (apply (put_data_slot (k_sb s) d0); [apply A1|done|apply Hfl]).
    apply (weight_step _ _ _ B V2 a1 _ b); rewrite Hsi; [done|]. intros c [Hc%elem_of_singleton|Hc]%elem_of_union.
    + right; right. subst c. split; [apply Hfl|by left].
    + by apply (fl_B _ _ _ _ _ _ _ _ Hfl).
  - assert (forall k, in_map k -> slot V1 a1 k <> 0 -> sb_bmapstart (k_sb s) <= slot V1 a1 k) as Hup.
    { intros k Hin Hs. destruct (fo_data _ _ _ _ (fa_file _ _ _ _ _ _ _ A1) k Hin Hs). cbn in *. lia. }
    intros c [Hc%elem_of_singleton|Hc]%elem_of_union; [right; subst c; apply Hup; [done|apply Hfl]|].
    apply (fl_B _ _ _ _ _ _ _ _ Hfl) in Hc as [Hc|[->|[Hnz [->| ->]]]]; [by left|right; lia|right; by apply Hup|right].
    apply Hup; [unfold in_map, MAXFILE, NDIRECT, NINDIRECT; lia|done].
Qed.

Lemma nothing_to_write fuel m0 s n V B d0 i ip off src :
  file_at s n V B d0 i ip -> length src = 0%nat -> nfree (k_sb s) V m0 ->
  exists l V' a' B', writei_loop fuel i src off (Z.of_nat (length src)) [] s = Ret (off + Z.of_nat (length src)) [] (put_addr_list i a' (s ◁ l)) /\
    file_at (put_addr_list i a' (s ◁ l)) n V' B' d0 i (set_i_addrs a' ip) /\ inside (k_lst s) l /\
    wrote (k_sb s) V (i_addrs ip) off src V' a' /\ (weight (k_sb s) V' a' B' <= weight (k_sb s) V (i_addrs ip) B)%nat /\
    above (k_sb s) B B' /\ nfree (k_sb s) V' m0.
Proof.
  intros A ->%nil_length_inv Hf. exists (k_lst s), V, (i_addrs ip), B. cbn [length Z.of_nat].
  rewrite set_lst_same, (put_addr_list_same _ _ _ (fa_ip _ _ _ _ _ _ _ A)), Z.add_0_r.
  split_and!; [by destruct fuel|by destruct ip|done|apply wrote_nil|done|by left|done].
Qed.

Lemma writei_loop_run f m0 fuel s n V B d0 i ip off src :
  let left := Z.of_nat (length src) in
  file_at s n V B d0 i ip -> 0 <= off -> off + left <= MAXFILE * BSIZE -> nfree (k_sb s) V (2 * f + m0) ->
  (weight (k_sb s) V (i_addrs ip) B + f <= 24)%nat -> enough off left f -> (f <= fuel)%nat ->
  exists l V' a' B', writei_loop fuel i src off left [] s = Ret (off + left) [] (put_addr_list i a' (s ◁ l)) /\
    file_at (put_addr_list i a' (s ◁ l)) n V' B' d0 i (set_i_addrs a' ip) /\ inside (k_lst s) l /\
    wrote (k_sb s) V (i_addrs ip) off src V' a' /\ (weight (k_sb s) V' a' B' <= weight (k_sb s) V (i_addrs ip) B + f)%nat /\
    above (k_sb s) B B' /\ nfree (k_sb s) V' m0.
Proof.
  revert fuel s V B ip off src. induction f as [|f IH]; intros fuel s V B ip off src left A H0 Hmax Hf Hw He Hfu.
  { apply enough_O in He. rewrite Nat.add_0_r. apply nothing_to_write; [done|lia|done]. }
  destruct (decide (left = 0)) as [Hz|Hnz].
  { destruct (nothing_to_write fuel m0 s n V B d0 i ip off src A ltac:(lia)) as (l & V' & a' & B' & H1 & H2 & H3 & H4 & H5 & H6 & H7);
      [eapply nfree_weaken; [exact Hf|lia]|].
    exists l, V', a', B'. split_and!; [done..|lia|done|done]. }
  destruct fuel as [|fuel]; [lia|]. destruct (enough_S off left f) as (Hm & Hm2 & He2); [lia..|done|].
  set (m := Z.min left (BSIZE - off mod BSIZE)) in *.
  assert (length (take (Z.to_nat m) src) = Z.to_nat m) as Hlt by (rewrite length_take; lia).
  pose proof (weight_bounds (k_sb s) V (i_addrs ip) B) as Hb.
  destruct (write_chunk_run s n V B d0 i ip off (take (Z.to_nat m) src) (2 * f + m0) A H0) as (l1 & V1 & a1 & B1 & R1 & A1 & N1 & W1 & Hf1 & Hw1 & U1);
    [lia|lia|eapply nfree_weaken; [exact Hf|lia]|lia|].
  destruct (IH fuel _ V1 B1 _ (off + m) (drop (Z.to_nat m) src) A1) as (l2 & V2 & a2 & B2 & R2 & A2 & N2 & W2 & Hw2 & U2 & Hf2);
    rewrite ?length_drop; [lia|lia|done|cbn; lia|by replace (Z.of_nat (length src - Z.to_nat m)) with (left - m) by lia|lia|].
  cbn [k_sb put_addr_list upd_ip set_k_icache set_k_lst i_addrs set_i_addrs k_lst] in W2, Hw2, N2.
  change (put_addr_list i a1 (s ◁ l1) ◁ l2) with (put_addr_list i a1 (s ◁ l2)) in *. rewrite put_addr_list_twice in *.
  exists l2, V2, a2, B2. split_and!; [|exact A2|etrans; [exact N1|exact N2]| |lia| |exact Hf2].
  - rewrite (writei_loop_S fuel i src off left [] s _ ltac:(lia) R1). fold m. rewrite length_drop in R2.
    replace (left - m) with (Z.of_nat (length src - Z.to_nat m)) by lia. rewrite R2. f_equal. lia.
  - rewrite <- (take_drop (Z.to_nat m) src). pose proof (d0_pos _ _ _ _ _ _ (fa_fs _ _ _ _ _ _ _ A)).
    eapply (wrote_app _ d0); [lia|apply A1|apply A2|lia|rewrite take_drop; lia|exact W1|].
    rewrite Hlt. replace (off + Z.of_nat (Z.to_nat m)) with (off + m) by lia. exact W2.
  - intros c [Hc|Hc]%U2; [by apply U1|by right].
Qed.

(** ** Files as wholes *)

(** The inode [ip] in the cache is the one on disk; its blocks are allocated to
    it, and they cover its size. *)
Record inode_ok (sb : superblock) (d0 : Z) (V : Z -> block) (ip : inode) : Prop := {
  io_file : file_ok sb d0 V (i_addrs ip);
  io_size : 0 <= i_size ip <= MAXFILE * BSIZE;
  io_full : mapped V (i_addrs ip) 0 (i_size ip);
  io_inum : 0 <= i_inum ip < sb_ninodes sb;
  io_fits : fits ip;
  io_disk : load_dinode (V (IBLOCK (i_inum ip) sb)) (dino (i_inum ip)) ip = ip }.

(** The bytes of the file. *)
Definition bytes_of (V : Z -> block) (ip : inode) : list Z := content V (i_addrs ip) 0 (i_size ip).

(** The two files have no block in common. *)
Definition disjoint_files (V : Z -> block) (ip jp : inode) : Prop :=
  i_inum ip <> i_inum jp /\ forall k k', in_map k -> in_map k' -> slot V (i_addrs ip) k <> 0 -> slot V (i_addrs ip) k <> slot V (i_addrs jp) k'.

Lemma content_mid V a off m size_ : 0 <= off -> 0 <= m -> off + m <= size_ ->
  content V a off m = take (Z.to_nat m) (drop (Z.to_nat off) (content V a 0 size_)).
Proof.
  intros H0 Hm Hs. replace size_ with (off + (m + (size_ - off - m))) by lia. rewrite !content_app by lia.
  rewrite drop_app_length' by (rewrite length_content; lia). rewrite Z.add_0_l. by rewrite take_app_length' by (rewrite length_content; lia).
Qed.

Lemma wrote_content sb V a off bs V' a' size_ :
  wrote sb V a off bs V' a' -> mapped V a 0 size_ -> 0 <= off <= size_ -> size_ <= MAXFILE * BSIZE ->
  content V' a' 0 (Z.max size_ (off + Z.of_nat (length bs))) = splice (Z.to_nat off) bs (content V a 0 size_).
Proof.
  intros [_ N O _] Hmap Hoff Hmax. set (m := Z.of_nat (length bs)) in *. apply list_eq. intros j.
  assert (length (splice (Z.to_nat off) bs (content V a 0 size_)) = Z.to_nat (Z.max size_ (off + m))) as Hlen.
  { unfold splice. rewrite !length_app, length_take, length_drop, !length_content. lia. }
  destruct (decide (Z.of_nat j < Z.max size_ (off + m))) as [Hj|Hj].
  2: { rewrite !lookup_ge_None_2; [done|rewrite Hlen; lia|rewrite length_content; lia]. }
  rewrite content_lookup by done. rewrite Z.add_0_l. unfold splice.
  destruct (decide (Z.of_nat j < off)) as [H1|H1].
  { rewrite lookup_app_l by (rewrite length_take, length_content; lia). rewrite lookup_take_lt, content_lookup by lia. rewrite Z.add_0_l.
    f_equal. apply O; [lia|apply Hmap; lia|lia]. }
  rewrite lookup_app_r by (rewrite length_take, length_content; lia). rewrite length_take, length_content.
  destruct (decide (Z.of_nat j < off + m)) as [H2|H2].
  { rewrite lookup_app_l by lia. destruct (N (Z.of_nat j) ltac:(lia)) as [_ ->].
    replace (j - Z.to_nat off `min` Z.to_nat size_)%nat with (Z.to_nat (Z.of_nat j - off)) by lia.
    rewrite nth_lookup. destruct (lookup_lt_is_Some_2 bs (Z.to_nat (Z.of_nat j - off)) ltac:(lia)) as [x ->]. done. }
  rewrite lookup_app_r by lia. rewrite lookup_drop, content_lookup by lia. f_equal. rewrite Z.add_0_l.
  replace (Z.of_nat (Z.to_nat off + length bs + (j - Z.to_nat off `min` Z.to_nat size_ - length bs))) with (Z.of_nat j) by lia.
  apply O; [lia|apply Hmap; lia|lia].
Qed.

(** A file is the same in a view that agrees on its blocks and its inode. *)
Section same_file.
Context (sb : superblock) (d0 : Z) (V W : Z -> block) (ip : inode).
Hypothesis Ok : inode_ok sb d0 V ip.
#[local] Abbreviation a := (i_addrs ip).
Hypothesis Hdata : forall k, in_map k -> slot V a k <> 0 -> W (slot V a k) = V (slot V a k).

Lemma same_slot k : slot W a k = slot V a k.
Proof.
  unfold slot. destruct (k <? 0); [done|]. destruct (k <? NDIRECT); [done|]. destruct (Z.eqb_spec (nth 12 a 0) 0); [done|].
  change (nth 12 a 0) with (slot V a (-1)). rewrite Hdata; [done|unfold in_map, MAXFILE, NDIRECT, NINDIRECT; lia|done].
Qed.

Lemma same_bytes : bytes_of W ip = bytes_of V ip.
Proof.
  apply content_ext. intros o Ho. pose proof (io_full _ _ _ _ Ok o Ho) as Hs. pose proof (io_size _ _ _ _ Ok).
  destruct (block_index o ltac:(lia)) as [_ Hm]. unfold fbyte. by rewrite same_slot, Hdata.
Qed.

Lemma same_inode_ok :
  (forall k, in_map k -> slot V a k <> 0 -> used sb W (slot V a k) = true) ->
  load_dinode (W (IBLOCK (i_inum ip) sb)) (dino (i_inum ip)) ip = load_dinode (V (IBLOCK (i_inum ip) sb)) (dino (i_inum ip)) ip ->
  inode_ok sb d0 W ip.
Proof.
  intros Hu Hd. destruct Ok as [F Hsz Hfull Hin Hfit Hdisk]. split; [|done|..|done|done|congruence].
  - split; [apply F|..].
    + intros k Hk. rewrite same_slot. intros Hs. split; [by apply F|by apply Hu].
    + intros k k'. rewrite !same_slot. apply F.
  - intros o Ho. rewrite same_slot. by apply Hfull.
Qed.
End same_file.

(** What happens to one file leaves another as it is. *)
Section other_file.
Context (sb : superblock) (d0 : Z) (V V' : Z -> block) (ip jp : inode) (a' : list Z).
Hypothesis Hd : 0 < sb_bmapstart sb < d0.
Hypothesis J : inode_ok sb d0 V jp.
Hypothesis F' : file_ok sb d0 V' a'.
Hypothesis D : disjoint_files V ip jp.
Hypothesis G : grows sb V (i_addrs ip) V' a'.

Lemma other_data k : in_map k -> slot V (i_addrs jp) k <> 0 -> V' (slot V (i_addrs jp) k) = V (slot V (i_addrs jp) k).
Proof.
  intros Hk Hs. destruct (fo_data _ _ _ _ (io_file _ _ _ _ J) k Hk Hs) as [Hr Hu]. apply (gr_other _ _ _ _ _ G); [lia|done|lia|].
  intros k' Hk' E. destruct (decide (slot V (i_addrs ip) k' = 0)); [congruence|]. by apply (proj2 D k' k).
Qed.

Lemma other_used k : in_map k -> slot V (i_addrs jp) k <> 0 -> used sb V' (slot V (i_addrs jp) k) = true.
Proof.
  intros Hk Hs. destruct (fo_data _ _ _ _ (io_file _ _ _ _ J) k Hk Hs) as [Hr Hu]. apply (gr_used _ _ _ _ _ G); [lia|done].
Qed.

Lemma other_disjoint k k' :
  in_map k -> in_map k' -> slot V' a' k <> 0 -> slot V' a' k <> slot V' (i_addrs jp) k'.
Proof.
  intros Hk Hk' Hs. rewrite (same_slot V V' jp other_data). intros E.
  destruct (decide (slot V' a' k = slot V (i_addrs ip) k)) as [E1|E1].
  - rewrite E1 in *. by apply (proj2 D k k').
  - apply (gr_fresh _ _ _ _ _ G) in E1; [|done]. rewrite E in *.
    destruct (fo_data _ _ _ _ (io_file _ _ _ _ J) k' Hk' Hs) as [_ Hu]. congruence.
Qed.
End other_file.

(** What [writei] promises: [bs] is spliced into the bytes of the file at
    [off], the inode on disk is up to date, and no other file is touched. *)
Record write_done (sb : superblock) (d0 : Z) (V : Z -> block) (ip : inode) (off : Z) (bs : list Z) (V' : Z -> block) (ip' : inode) : Prop := {
  wd_ok : inode_ok sb d0 V' ip';
  wd_ip : ip' = set_i_size (Z.max (i_size ip) (off + Z.of_nat (length bs))) (set_i_addrs (i_addrs ip') ip);
  wd_bytes : bytes_of V' ip' = splice (Z.to_nat off) bs (bytes_of V ip);
  wd_others : forall jp, inode_ok sb d0 V jp -> disjoint_files V ip jp ->
    inode_ok sb d0 V' jp /\ bytes_of V' jp = bytes_of V jp /\ disjoint_files V' ip' jp }.

(** An inode block is none of the blocks of a file, and is always in use. *)
Lemma iblock_kept {w} s n V B d0 i ip V' a' inum :
  file_at_ w s n V B d0 i ip -> 0 <= inum < sb_ninodes (k_sb s) -> grows (k_sb s) V (i_addrs ip) V' a' ->
  V' (IBLOCK inum (k_sb s)) = V (IBLOCK inum (k_sb s)).
Proof.
  intros A Hin G. pose proof (fi_lay _ _ _ _ _ _ (fa_fs _ _ _ _ _ _ _ A)) as L. pose proof (ly_iblock _ _ _ _ L _ Hin) as Hc.
  pose proof (ly_order _ _ _ _ L). pose proof (ly_log _ _ _ _ L). unfold LOGSIZE in *.
  apply (gr_other _ _ _ _ _ G); [lia|apply A; lia|lia|]. intros k Hk E.
  destruct (decide (slot V (i_addrs ip) k = 0)); [lia|]. destruct (fo_data _ _ _ _ (fa_file _ _ _ _ _ _ _ A) k Hk); [done|lia].
Qed.

(** The file has not grown. *)
Lemma write_done_inside s n V B d0 i ip off bs V' :
  file_at s n V B d0 i ip -> inode_ok (k_sb s) d0 V ip -> file_ok (k_sb s) d0 V' (i_addrs ip) ->
  0 <= off -> off + Z.of_nat (length bs) <= i_size ip -> wrote (k_sb s) V (i_addrs ip) off bs V' (i_addrs ip) ->
  write_done (k_sb s) d0 V ip off bs V' ip.
Proof.
  intros A Ok F' H0 Hend W. pose proof Ok as [F Hsz Hfull Hin Hfit Hdisk]. pose proof (d0_pos _ _ _ _ _ _ (fa_fs _ _ _ _ _ _ _ A)) as Hd.
  pose proof (wt_grows _ _ _ _ _ _ _ W) as G. split.
  - split; [done|done| |done|done|by rewrite (iblock_kept s n V B d0 i ip V' (i_addrs ip) _ A Hin G)].
    intros o Ho. destruct (block_index o ltac:(lia)) as [_ Hm]. rewrite (gr_keep _ _ _ _ _ G); [|done|]; by apply Hfull.
  - rewrite Z.max_l by lia. by destruct ip.
  - unfold bytes_of. rewrite <- (wrote_content _ _ _ _ _ _ _ _ W Hfull) by lia. by rewrite Z.max_l by lia.
  - intros jp J D. pose proof (other_data (k_sb s) d0 V V' ip jp (i_addrs ip) ltac:(lia) J D G) as Hdat. split_and!.
    + apply (same_inode_ok _ _ V); [done|done|by apply (other_used (k_sb s) d0 V V' ip jp (i_addrs ip) ltac:(lia) J G)|].
      by rewrite (iblock_kept s n V B d0 i ip V' (i_addrs ip) (i_inum jp) A (io_inum _ _ _ _ J) G).
    + by eapply same_bytes.
    + split; [apply D|]. intros k k'. apply (other_disjoint (k_sb s) d0 V V' ip jp (i_addrs ip)); done || lia.
Qed.

Lemma fits_grown sb d0 V ip a sz :
  0 < d0 -> sb_size sb <= 4096 -> file_ok sb d0 V a -> fits ip -> 0 <= sz <= MAXFILE * BSIZE -> fits (set_i_size sz (set_i_addrs a ip)).
Proof.
  intros Hd Hs F [F1 F2 F3 F4 F5 F6] Hsz. split; cbn; try done.
  - apply u32_id. unfold MAXFILE, NDIRECT, NINDIRECT, BSIZE in *. lia.
  - split; [apply F|]. intros x (j & Hj)%list_elem_of_lookup. pose proof (lookup_lt_Some _ _ _ Hj) as Hlt. rewrite (fo_len _ _ _ _ F) in Hlt.
    assert (x = nth j a 0) as Ex by (rewrite nth_lookup, Hj; done).
    pose proof (slot_direct a V (Z.of_nat j) ltac:(lia)) as Es. rewrite Nat2Z.id, <- Ex in Es. set (k := if Z.of_nat j =? 12 then -1 else Z.of_nat j) in Es.
    destruct (decide (x = 0)) as [->|Hn]; [done|]. apply u32_id.
    destruct (fo_data _ _ _ _ F k) as [Hr _]; [unfold k, in_map, MAXFILE, NDIRECT, NINDIRECT; destruct (Z.eqb_spec (Z.of_nat j) 12); lia|by rewrite Es|].
    rewrite Es in Hr. lia.
Qed.

(** The file has grown, and [iupdate] has stored the inode. *)
Section grown.
Context {w : bool} (s : kst) (n : Z) (V : Z -> block) (B : gset Z) (d0 : Z) (i : nat) (ip : inode) (off : Z) (bs : list Z) (V1 : Z -> block) (a1 : list Z).
Hypothesis A : file_at_ w s n V B d0 i ip.
Hypothesis Ok : inode_ok (k_sb s) d0 V ip.
Hypothesis F1 : file_ok (k_sb s) d0 V1 a1.
Hypothesis Hlen : forall c, length (V1 c) = 512%nat.
Hypothesis Hoff : 0 <= off <= i_size ip.
Hypothesis Hend : i_size ip < off + Z.of_nat (length bs) <= MAXFILE * BSIZE.
Hypothesis W : wrote (k_sb s) V (i_addrs ip) off bs V1 a1.
#[local] Abbreviation sb := (k_sb s).
#[local] Abbreviation ip' := (set_i_size (off + Z.of_nat (length bs)) (set_i_addrs a1 ip)).
#[local] Abbreviation V2 := (stored sb V1 ip').

Lemma grown_above c : sb_bmapstart sb <= c -> V2 c = V1 c.
Proof.
  intros Hc. pose proof (ly_iblock _ _ _ _ (fi_lay _ _ _ _ _ _ (fa_fs _ _ _ _ _ _ _ A)) _ (io_inum _ _ _ _ Ok)).
  unfold stored. apply wr_other. cbn. lia.
Qed.

Lemma grown_ok : fits ip' -> inode_ok sb d0 V2 ip'.
Proof.
  intros Hfit. pose proof Ok as [F Hsz Hfull Hin _ _]. pose proof (d0_pos _ _ _ _ _ _ (fa_fs _ _ _ _ _ _ _ A)) as Hd.
  assert (forall k, slot V2 a1 k = slot V1 a1 k) as Hs by (intros k; apply (slot_agree sb d0); [done|]; intros c Hc; apply grown_above; lia).
  split; cbn [i_size i_inum i_addrs set_i_size set_i_addrs]; [|lia|..|done|done|].
  - eapply file_ok_agree; [exact F1|intros c Hc|]; apply grown_above; lia.
  - intros o Ho. rewrite Hs. destruct (decide (off <= o)); [by apply (wt_new _ _ _ _ _ _ _ W); lia|].
    destruct (block_index o ltac:(lia)) as [_ Hm]. rewrite (gr_keep _ _ _ _ _ (wt_grows _ _ _ _ _ _ _ W)); [|done|]; apply Hfull; lia.
  - unfold stored. cbn [i_inum set_i_size set_i_addrs]. rewrite wr_same, load_put_dinode; [by destruct ip|done|].
    rewrite Hlen. apply dino_bound.
Qed.

Lemma grown_bytes : bytes_of V2 ip' = splice (Z.to_nat off) bs (bytes_of V ip).
Proof.
  pose proof Ok as [F Hsz Hfull Hin _ _]. pose proof (d0_pos _ _ _ _ _ _ (fa_fs _ _ _ _ _ _ _ A)) as Hd.
  unfold bytes_of at 2. rewrite <- (wrote_content _ _ _ _ _ _ _ _ W Hfull) by lia. rewrite Z.max_r by lia.
  unfold bytes_of. cbn [i_size i_addrs set_i_size set_i_addrs]. apply content_ext. intros o Ho. unfold fbyte.
  rewrite (slot_agree sb d0 V1 V2 a1) by (done || intros c Hc; apply grown_above; lia). rewrite grown_above; [done|].
  destruct (block_index o ltac:(lia)) as [_ Hm]. destruct (fo_data _ _ _ _ F1 _ Hm) as [Hr _]; [|lia].
  destruct (decide (off <= o)); [by apply (wt_new _ _ _ _ _ _ _ W); lia|].
  rewrite (gr_keep _ _ _ _ _ (wt_grows _ _ _ _ _ _ _ W)); [|done|]; apply Hfull; lia.
Qed.

Lemma grown_others jp : fits ip' -> inode_ok sb d0 V jp -> disjoint_files V ip jp ->
  inode_ok sb d0 V2 jp /\ bytes_of V2 jp = bytes_of V jp /\ disjoint_files V2 ip' jp.
Proof.
  intros Hfit J D. pose proof (wt_grows _ _ _ _ _ _ _ W) as G. pose proof (d0_pos _ _ _ _ _ _ (fa_fs _ _ _ _ _ _ _ A)) as Hd.
  pose proof (other_data sb d0 V V1 ip jp a1 ltac:(lia) J D G) as Hdat.
  assert (forall k, in_map k -> slot V (i_addrs jp) k <> 0 -> sb_bmapstart sb <= slot V (i_addrs jp) k) as Hup.
  { intros k Hk Hs. destruct (fo_data _ _ _ _ (io_file _ _ _ _ J) k Hk Hs). lia. }
  assert (forall k, in_map k -> slot V (i_addrs jp) k <> 0 -> V2 (slot V (i_addrs jp) k) = V (slot V (i_addrs jp) k)) as Hdat2.
  { intros k Hk Hs. rewrite grown_above by (by apply Hup). by apply Hdat. }
  split_and!.
  - apply (same_inode_ok sb d0 V); [done|done|..].
    + intros k Hk Hs. unfold used. rewrite grown_above by lia. by apply (other_used sb d0 V V1 ip jp a1 ltac:(lia) J G).
    + unfold stored. cbn [i_inum set_i_size set_i_addrs]. destruct (decide (IBLOCK (i_inum jp) sb = IBLOCK (i_inum ip) sb)) as [E|E].
      * rewrite E, wr_same, load_put_other; [|done|rewrite Hlen; apply dino_bound|].
        { by rewrite (iblock_kept s n V B d0 i ip V1 a1 (i_inum ip) A (io_inum _ _ _ _ Ok) G). }
        pose proof (io_inum _ _ _ _ J). pose proof (io_inum _ _ _ _ Ok). apply (dino_apart _ _ sb); [lia|lia|by apply not_eq_sym, D|done].
      * rewrite wr_other by done. by rewrite (iblock_kept s n V B d0 i ip V1 a1 (i_inum jp) A (io_inum _ _ _ _ J) G).
  - by apply (same_bytes sb d0 V).
  - split; [apply D|]. intros k k' Hk Hk'. cbn [i_addrs set_i_size set_i_addrs].
    rewrite (slot_agree sb d0 V1 V2 a1) by (done || intros c Hc; apply grown_above; lia).
    rewrite (same_slot V V2 jp Hdat2), <- (same_slot V V1 jp Hdat). apply (other_disjoint sb d0 V V1 ip jp a1); done || lia.
Qed.

Lemma write_done_grown : fits ip' -> write_done sb d0 V ip off bs V2 ip'.
Proof.
  intros Hfit. split; [by apply grown_ok| |apply grown_bytes|by intros jp; apply grown_others].
  rewrite Z.max_r by lia. done.
Qed.
End grown.

(** ** The calls *)

(** The state with [ip] in entry [i] of the cache. *)
Definition put_ip (i : nat) (ip : inode) (s : kst) : kst := upd_ip i (fun _ => ip) s.

Lemma upd_put_ip s i ip f : k_icache s !! i = Some ip -> upd_ip i f s = put_ip i (f ip) s.
Proof.
  intros H. unfold put_ip, upd_ip. f_equal. apply list_alter_ext; [|done]. intros x Hx. rewrite H in Hx. by injection Hx as <-.
Qed.

Lemma put_ip_twice s i ip ip' : put_ip i ip' (put_ip i ip s) = put_ip i ip' s.
Proof.
  unfold put_ip, upd_ip. cbn. unfold set_k_icache. cbn. f_equal. rewrite list_alter_alter_eq. by apply list_alter_ext.
Qed.

Lemma put_ip_same s i ip : k_icache s !! i = Some ip -> put_ip i ip s = s.
Proof.
  intros H. transitivity (upd_ip i id s); [symmetry; exact (upd_put_ip s i ip id H)|].
  unfold upd_ip. rewrite list_alter_id by done. by destruct s.
Qed.

Lemma put_ip_lookup s i ip ip' : k_icache s !! i = Some ip -> k_icache (put_ip i ip' s) !! i = Some ip'.
Proof. intros H. cbn. by rewrite list_lookup_alter_eq, H. Qed.

Section calls.
Context {w : bool} (s : kst) (n : Z) (V : Z -> block) (B : gset Z) (d0 : Z) (i : nat) (ip : inode).
Hypothesis A : file_at_ w s n V B d0 i ip.
Hypothesis Ok : inode_ok (k_sb s) d0 V ip.
Hypothesis Ht : i_type ip <> T_DEV.

Lemma readi_run off cnt :
  0 <= off <= i_size ip -> 0 <= cnt -> off + cnt < 2 ^ 32 -> (size B < NBUF)%nat ->
  let m := Z.min cnt (i_size ip - off) in
  exists l, readi i off cnt [] s = Ret (m, take (Z.to_nat m) (drop (Z.to_nat off) (bytes_of V ip))) [] (s ◁ l) /\
    log_inv l n [] V B /\ inside (k_lst s) l.
Proof.
  intros Hoff Hc Hover Hr m. pose proof (io_size _ _ _ _ Ok) as Hsz.
  pose proof (Z.mod_pos_bound off BSIZE ltac:(done)) as Hmod. pose proof (Z.div_mod m BSIZE ltac:(done)) as Hdm.
  pose proof (Z.mod_pos_bound m BSIZE ltac:(done)) as Hmm.
  destruct (readi_loop_run (Z.to_nat (m / BSIZE + 2)) (Z.to_nat (m / BSIZE + 2)) s n V B d0 i ip off m [] A) as (l & R & Il & N);
    [lia|lia|lia|intros o Ho; apply (io_full _ _ _ _ Ok); lia|done| |done|].
  { right. pose proof (Z.div_pos m BSIZE ltac:(lia) ltac:(done)). unfold BSIZE in *. lia. }
  exists l. split_and!; [|done|done]. unfold readi, ip_. repeat kstep_base. rewrite (get_ip_Some _ _ _ (fa_ip _ _ _ _ _ _ _ A)).
  rewrite (proj2 (Z.eqb_neq _ _)) by done. rewrite (u32_id (off + cnt)) by lia. rewrite !(proj2 (Z.ltb_ge _ _)) by lia. cbn [orb].
  replace (if i_size ip <? off + cnt then i_size ip - off else cnt) with m by (destruct (Z.ltb_spec (i_size ip) (off + cnt)); lia).
  run_with R. unfold bytes_of. rewrite <- content_mid by lia. rewrite s32_id; [done|].
  unfold MAXFILE, NDIRECT, NINDIRECT, BSIZE in *. lia.
Qed.

Lemma readi_refuses off cnt :
  0 <= off -> 0 <= cnt < 2 ^ 32 -> i_size ip < off \/ 2 ^ 32 <= off + cnt -> off < 2 ^ 32 -> readi i off cnt [] s = Ret (-1, []) [] s.
Proof.
  intros Ho Hc Hbad Ho2. unfold readi, ip_. repeat kstep_base. rewrite (get_ip_Some _ _ _ (fa_ip _ _ _ _ _ _ _ A)).
  rewrite (proj2 (Z.eqb_neq _ _)) by done. destruct (Z.ltb_spec (i_size ip) off); [done|].
  assert (u32 (off + cnt) = off + cnt - 2 ^ 32) as ->.
  { unfold u32. symmetry. apply (Z.mod_unique _ _ 1); lia. }
  by rewrite (proj2 (Z.ltb_lt _ _)) by lia.
Qed.

Lemma writei_refuses src off cnt :
  0 <= off < 2 ^ 32 -> 0 <= cnt < 2 ^ 32 -> i_size ip < off \/ MAXFILE * BSIZE < off + cnt -> writei i src off cnt [] s = Ret (-1) [] s.
Proof.
  intros Ho Hc Hbad. unfold writei, ip_. repeat kstep_base. rewrite (get_ip_Some _ _ _ (fa_ip _ _ _ _ _ _ _ A)).
  rewrite (proj2 (Z.eqb_neq _ _)) by done. destruct (Z.ltb_spec (i_size ip) off); [done|]. cbn [orb].
  destruct (Z.ltb_spec (u32 (off + cnt)) off) as [|Hu]; [done|].
  destruct (Z.ltb_spec (MAXFILE * BSIZE) (u32 (off + cnt))) as [|Hu2]; [done|]. exfalso.
  destruct (decide (off + cnt < 2 ^ 32)); [rewrite u32_id in Hu2 by lia; lia|].
  assert (u32 (off + cnt) = off + cnt - 2 ^ 32) as E by (unfold u32; symmetry; apply (Z.mod_unique _ _ 1); lia). lia.
Qed.

End calls.

Section writing.
Context (s : kst) (n : Z) (V : Z -> block) (B : gset Z) (d0 : Z) (i : nat) (ip : inode).
Hypothesis A : file_at s n V B d0 i ip.
Hypothesis Ok : inode_ok (k_sb s) d0 V ip.
Hypothesis Ht : i_type ip <> T_DEV.

Lemma writei_run src off f m0 :
  let cnt := Z.of_nat (length src) in
  0 <= off <= i_size ip -> off + cnt <= MAXFILE * BSIZE -> enough off cnt f -> (f <= Z.to_nat (cnt / BSIZE + 2))%nat ->
  nfree (k_sb s) V (2 * f + m0) -> (weight (k_sb s) V (i_addrs ip) B + f <= 24)%nat ->
  exists l V' ip' B', writei i src off cnt [] s = Ret cnt [] (put_ip i ip' (s ◁ l)) /\ file_at (put_ip i ip' (s ◁ l)) n V' B' d0 i ip' /\
    inside (k_lst s) l /\ write_done (k_sb s) d0 V ip off src V' ip' /\
    (size B' <= weight (k_sb s) V (i_addrs ip) B + f + 1)%nat /\ (forall c, c ∈ B' -> c ∈ B \/ sb_inodestart (k_sb s) <= c) /\
    nfree (k_sb s) V' m0.
Proof.
  intros cnt Hoff Hmax He Hf Hfree Hw. pose proof (io_size _ _ _ _ Ok) as Hsz. pose proof (ly_order _ _ _ _ (fi_lay _ _ _ _ _ _ (fa_fs _ _ _ _ _ _ _ A))).
  destruct (writei_loop_run f m0 (Z.to_nat (cnt / BSIZE + 2)) s n V B d0 i ip off src A) as (l & V1 & a1 & B1 & R & A1 & N & W & Hw1 & U1 & Hf1);
    [lia|done|done|done|done|done|].
  pose proof (weight_bounds (k_sb s) V1 a1 B1) as Hb1. unfold put_addr_list in *. pose proof (fa_ip _ _ _ _ _ _ _ A : k_icache (s ◁ l) !! i = Some ip) as Hip.
  rewrite (upd_put_ip (s ◁ l) i ip _ Hip) in R, A1. set (ip1 := set_i_addrs a1 ip) in *.
  assert (writei i src off cnt [] s =
    ((if (0 <? cnt) && (i_size ip1 <? off + cnt) then mod_ip i (set_i_size (off + cnt));; iupdate i else mret ());; mret cnt) [] (put_ip i ip1 (s ◁ l))) as ->.
  { unfold writei, ip_. repeat kstep_base. rewrite (get_ip_Some _ _ _ (fa_ip _ _ _ _ _ _ _ A)), (proj2 (Z.eqb_neq _ _)) by done.
    unfold MAXFILE, NDIRECT, NINDIRECT, BSIZE in Hmax, Hsz. rewrite (u32_id (off + cnt)) by lia.
    rewrite !(proj2 (Z.ltb_ge _ _)) by (unfold MAXFILE, NDIRECT, NINDIRECT, BSIZE; lia). cbn [orb]. cbv iota. fold cnt in R. run_with R. rewrite s32_id by lia.
    rewrite bind_unfold, gets_run. cbv beta iota. by rewrite (get_ip_Some _ _ _ (fa_ip _ _ _ _ _ _ _ A1)). }
  destruct (Z.ltb_spec (i_size ip1) (off + cnt)) as [Hg|Hg].
  - cbn in Hg. rewrite (proj2 (Z.ltb_lt 0 cnt)) by lia. cbn [andb]. set (ip2 := set_i_size (off + cnt) ip1).
    assert (file_at (put_ip i ip2 (s ◁ l)) n V1 B1 d0 i ip2) as A2.
    { split; [|by eapply put_ip_lookup|apply A|apply A1]. destruct (fa_fs _ _ _ _ _ _ _ A1) as [? ? ? ?]. by split. }
    assert (fits ip2) as Hfit by (pose proof (d0_pos _ _ _ _ _ _ (fa_fs _ _ _ _ _ _ _ A)); eapply fits_grown; [| |apply A1|apply Ok|]; cbn; lia).
    destruct (iupdate_run _ n V1 B1 d0 i ip2 A2 Hfit (io_inum _ _ _ _ Ok)) as (l3 & R3 & A3 & N3); [lia|].
    change (put_ip i ip2 (s ◁ l) ◁ l3) with (put_ip i ip2 (s ◁ l3)) in *. change (k_sb (put_ip i ip2 (s ◁ l))) with (k_sb s) in *.
    eexists l3, _, ip2, _. split_and!; [|exact A3|etrans; [exact N|exact N3]|..].
    + unfold mod_ip. repeat kstep_base. rewrite (upd_put_ip _ i ip1) by exact (put_ip_lookup _ i ip ip1 Hip). rewrite put_ip_twice. fold ip2. by rewrite R3.
    + eapply write_done_grown; [exact A|exact Ok|apply A1|intros c; exact (fi_len _ _ _ _ _ _ _ (fa_fs _ _ _ _ _ _ _ A1))|done|lia|exact W|done].
    + pose proof (size_add (IBLOCK (i_inum ip2) (k_sb s)) B1). lia.
    + intros c [->%elem_of_singleton|Hc]%elem_of_union; [right|destruct (U1 c Hc); [by left|right; lia]].
      unfold IBLOCK. pose proof (io_inum _ _ _ _ Ok). pose proof (Z.div_pos (i_inum ip) IPB ltac:(lia) ltac:(done)).
      change (i_inum ip2) with (i_inum ip). lia.
    + eapply nfree_same; [exact Hf1|]. eapply grown_above; [exact A|exact Ok|lia].
  - cbn in Hg. rewrite andb_false_r. assert (a1 = i_addrs ip) as -> by (apply (wt_same _ _ _ _ _ _ _ W); intros o Ho; apply (io_full _ _ _ _ Ok); lia).
    assert (ip1 = ip) as E by (by destruct ip). rewrite E in *. exists l, V1, ip, B1. split_and!; [done|done|done| |lia|intros c Hc; destruct (U1 c Hc); [by left|right; lia]|done].
    eapply write_done_inside; [exact A|exact Ok|apply A1|lia|lia|exact W].
Qed.
End writing.
