(* ===== verification/Fseq.v ===== *)
(** * Views up to equality of blocks

    Two views of the disk that agree on every block have the same files. *)

From Stdlib Require Import ZArith Lia String.
From stdpp Require Import prelude numbers strings option gmap list.
From S2P Require Import Prelude Kernel Mem Sched Monitor Sleeplock Bio Log Logcrash Logtxn Console Kst Inode Fsblock Fsfile Fsinode Device Fs Fsio.

(** Agreement on every block. *)
Definition same_view : relation (Z -> block) := pointwise_relation Z eq.

#[export] Instance same_view_equiv : Equivalence same_view.
Proof. unfold same_view. apply _. Qed.

#[export] Instance slot_proper : Proper (same_view ==> eq ==> eq ==> eq) slot.
Proof.
  intros V W H a ? <- k ? <-. unfold slot. destruct (k <? 0); [done|]. destruct (k <? NDIRECT); [done|]. destruct (_ =? 0); [done|].
  by rewrite (H _).
Qed.

#[export] Instance used_proper : Proper (eq ==> same_view ==> eq ==> eq) used.
Proof. intros sb ? <- V W H b ? <-. unfold used. by rewrite (H _). Qed.

#[export] Instance fbyte_proper : Proper (same_view ==> eq ==> eq ==> eq) fbyte.
Proof. intros V W H a ? <- o ? <-. unfold fbyte. by rewrite (slot_proper V W H a a eq_refl _ _ eq_refl), (H _). Qed.

#[export] Instance bytes_of_proper : Proper (same_view ==> eq ==> eq) bytes_of.
Proof. intros V W H ip ? <-. apply content_ext. intros o _. by rewrite (fbyte_proper V W H _ _ eq_refl o o eq_refl). Qed.

Lemma file_ok_impl sb d0 V W a : same_view V W -> file_ok sb d0 V a -> file_ok sb d0 W a.
Proof.
  intros H F. apply (file_ok_agree sb d0 V); [done|..]; intros; symmetry; apply H.
Qed.

#[export] Instance file_ok_proper : Proper (eq ==> eq ==> same_view ==> eq ==> iff) file_ok.
Proof. intros sb ? <- d0 ? <- V W H a ? <-. split; apply file_ok_impl; [done|by symmetry]. Qed.

Lemma inode_ok_impl sb d0 V W ip : same_view V W -> inode_ok sb d0 V ip -> inode_ok sb d0 W ip.
Proof.
  intros H Ok. apply (same_inode_ok sb d0 V W ip Ok).
  - intros k _ _. symmetry. apply H.
  - intros k Hk Hs. rewrite <- (used_proper sb sb eq_refl V W H _ _ eq_refl). by apply (io_file _ _ _ _ Ok).
  - by rewrite (H _).
Qed.

#[export] Instance inode_ok_proper : Proper (eq ==> eq ==> same_view ==> eq ==> iff) inode_ok.
Proof. intros sb ? <- d0 ? <- V W H ip ? <-. split; apply inode_ok_impl; [done|by symmetry]. Qed.

Lemma grows_impl sb V W a V' W' a' : same_view V W -> same_view V' W' -> grows sb V a V' a' -> grows sb W a W' a'.
Proof.
  intros H H' [G1 G2 G3 G4].
  assert (forall k, slot W a k = slot V a k) as S1 by (intros k; by rewrite (slot_proper V W H a a eq_refl k k eq_refl)).
  assert (forall k, slot W' a' k = slot V' a' k) as S2 by (intros k; by rewrite (slot_proper V' W' H' a' a' eq_refl k k eq_refl)).
  assert (forall c, used sb W c = used sb V c) as U1 by (intros c; by rewrite (used_proper sb sb eq_refl V W H c c eq_refl)).
  assert (forall c, used sb W' c = used sb V' c) as U2 by (intros c; by rewrite (used_proper sb sb eq_refl V' W' H' c c eq_refl)).
  split.
  - intros k. rewrite S1, S2. apply G1.
  - intros k. rewrite S1, S2, U1. apply G2.
  - intros c. rewrite U1, U2. apply G3.
  - intros c Hc. rewrite U1. intros Hu Hb Hno. rewrite <- (H' c), <- (H c). apply G4; [done..|]. intros k. rewrite <- S1. apply Hno.
Qed.

#[export] Instance grows_proper : Proper (eq ==> same_view ==> eq ==> same_view ==> eq ==> iff) grows.
Proof. intros sb ? <- V W H a ? <- V' W' H' a' ? <-. split; apply grows_impl; done || by symmetry. Qed.

Lemma wrote_impl sb V W a off bs V' W' a' : same_view V W -> same_view V' W' -> wrote sb V a off bs V' a' -> wrote sb W a off bs W' a'.
Proof.
  intros H H' [G N O S].
  assert (forall k, slot W a k = slot V a k) as S1 by (intros k; by rewrite (slot_proper V W H a a eq_refl k k eq_refl)).
  assert (forall k, slot W' a' k = slot V' a' k) as S2 by (intros k; by rewrite (slot_proper V' W' H' a' a' eq_refl k k eq_refl)).
  split.
  - by eapply grows_impl.
  - intros o. rewrite S2, <- (fbyte_proper V' W' H' a' a' eq_refl o o eq_refl). apply N.
  - intros o. rewrite S1, <- (fbyte_proper V' W' H' a' a' eq_refl o o eq_refl), <- (fbyte_proper V W H a a eq_refl o o eq_refl). apply O.
  - intros Hm. apply S. intros o Ho. rewrite <- S1. by apply Hm.
Qed.

#[export] Instance wrote_proper : Proper (eq ==> same_view ==> eq ==> eq ==> eq ==> same_view ==> eq ==> iff) wrote.
Proof. intros sb ? <- V W H a ? <- o ? <- bs ? <- V' W' H' a' ? <-. split; apply wrote_impl; done || by symmetry. Qed.

#[export] Instance disjoint_files_proper : Proper (same_view ==> eq ==> eq ==> iff) disjoint_files.
Proof.
  intros V W H ip ? <- jp ? <-. unfold disjoint_files.
  assert (forall a k, slot W a k = slot V a k) as S1 by (intros a k; by rewrite (slot_proper V W H a a eq_refl k k eq_refl)).
  by setoid_rewrite S1.
Qed.

Lemma write_done_impl sb d0 V ip off bs V' W' ip' : same_view V' W' -> write_done sb d0 V ip off bs V' ip' -> write_done sb d0 V ip off bs W' ip'.
Proof.
  intros H [W1 W2 W3 W4]. split; [by rewrite <- H|done|by rewrite <- H|]. intros jp J D. destruct (W4 jp J D) as (? & ? & ?).
  by rewrite <- !H.
Qed.
