(* ===== verification/Fscrash.v ===== *)
(** * Writes to files and crashes

    A call of [writei] between [begin_op] and [end_op], as the system calls make
    it, and what is left of it when the machine stops. *)

From Stdlib Require Import ZArith Lia String.
From stdpp Require Import prelude numbers strings option gmap list relations.
From S2P Require Import Prelude Kernel Mem Kalloc Sched Monitor Mailbox Sleeplock Pipe Bio Log Logcrash Logtxn Console Kst Inode Fsblock Fsfile Fsinode Device Fs Fsio.

(** ** A transaction that ends *)

Lemma txn_writes_ext V V' l bs : (forall c, V c = V' c) -> txn_writes V l bs = txn_writes V' l bs.
Proof.
  intros H. unfold txn_writes, commit_writes. destruct (0 <? lh_n l); [|done]. rewrite !H.
  rewrite (log_writes_ext V V') by done. assert (home_copy V bs = home_copy V' bs) as ->; [|done].
  unfold home_copy. apply list_fmap_ext. intros j c _. by rewrite H.
Qed.

(** Every log header among the writes [tr] lists at most [m] blocks. *)
Definition heads_fit (start m : Z) (tr : list (Z * block)) : Prop := forall d, (start, d) ∈ tr -> 0 <= hdr_n d <= m.

Lemma heads_fit_app start m tr1 tr2 : heads_fit start m tr1 -> heads_fit start m tr2 -> heads_fit start m (tr1 ++ tr2).
Proof. intros H1 H2 d [?|?]%elem_of_app; [by apply H1|by apply H2]. Qed.

Lemma heads_fit_txn V l size_ bs : log_ok l size_ bs -> length (V (l_start l)) = 512%nat -> heads_fit (l_start l) (lh_n l) (txn_writes V l bs).
Proof.
  intros Hlog Hl d Hd. pose proof (lo_n _ _ _ Hlog) as Hn. pose proof (new_head_n l size_ bs (V (l_start l)) Hlog Hl) as Hh.
  pose proof (length_new_head l size_ bs (V (l_start l)) Hlog Hl) as Hlen. unfold txn_writes in Hd. destruct (0 <? lh_n l); [|by apply not_elem_of_nil in Hd].
  unfold commit_writes in Hd. rewrite !elem_of_app, !list_elem_of_singleton in Hd. destruct Hd as [Hd|[[= ->]|[Hd|[= ->]]]].
  - destruct (not_written_start V (l_start l) bs 0). apply list_elem_of_fmap. by exists (l_start l, d).
  - lia.
  - apply list_elem_of_fmap in Hd as (c & [= <- ->] & Hc). destruct (lo_range _ _ _ Hlog _ Hc) as [_ []]. unfold in_log, LOGSIZE. lia.
  - rewrite (proj1 (cleared_head _ Hlen)). lia.
Qed.

Section ending.
Context (s s1 : lst) (n : Z) (V : Z -> block) (B : gset Z).
Hypothesis Hid : idle s n.
Hypothesis Hin : inside (put_log (set_outstanding 1 (llog s)) s) s1.
Hypothesis Hinv : log_inv s1 n [] V B.
#[local] Abbreviation D := (disk (lbio s)).

Lemma home_copy_keys bs : (home_copy V bs).*1 = bs.
Proof. unfold home_copy. rewrite <- list_fmap_compose. apply list_fmap_id. Qed.

Lemma new_view bs : NoDup bs -> (forall c, c ∈ B <-> c ∈ bs) -> forall c, apply_writes (home_copy V bs) D c = V c.
Proof.
  intros Hnd HB c. destruct (decide (c ∈ bs)) as [Hc|Hc].
  - apply apply_in; [by rewrite home_copy_keys|]. apply list_elem_of_fmap. by exists c.
  - rewrite apply_other by (by rewrite home_copy_keys). symmetry. change D with (disk (lbio (put_log (set_outstanding 1 (llog s)) s))).
    rewrite <- (inside_disk _ _ Hin). apply (view_disk _ n [] V B); [apply Hinv|apply not_elem_of_nil|by rewrite HB].
Qed.

Lemma end_op_crash :
  1 ∉ B -> sb_logstart (decode_sb (D 1)) = l_start (llog s) ->
  exists s2 tr, end_op [] s1 = Ret tt [] s2 /\ idle s2 n /\ ran (lbio s) (lbio s2) tr /\ l_start (llog s2) = l_start (llog s) /\
    (forall c, ~ in_log (llog s) c -> disk (lbio s2) c = V c) /\ heads_fit (l_start (llog s)) (Z.of_nat (size B)) tr /\
    forall k D' t m, rtc (crash_reboot (disksize (lbio s))) (apply_writes (take k tr) D) D' -> current t m ->
      exists sr, initlog 1 [] (boot D' (disksize (lbio s)) t) = Ret tt [] sr /\
        ((forall c, ~ in_log (llog s) c -> disk (lbio sr) c = D c) \/ (forall c, ~ in_log (llog s) c -> disk (lbio sr) c = V c)) /\
        ((length tr <= k)%nat -> forall c, ~ in_log (llog s) c -> disk (lbio sr) c = V c).
Proof.
  intros H1 Hsb. destruct (end_op_idle s s1 n V B Hid Hin Hinv) as (s2 & bs & R & Hid2 & N & Hlog & Hst & HB & Hst2 & Hd).
  exists s2, (txn_writes V (llog s1) bs). split_and!; [done..| |].
  { rewrite <- Hst, <- (li_length _ _ _ _ _ bs Hinv); [|by rewrite (inside_size _ _ Hin)|done]. eapply heads_fit_txn; [done|]. eapply view_len. apply Hinv. }
  intros k D' t m Hreb Hc. clear R.
  pose proof (new_view bs (lo_nodup _ _ _ Hlog) HB) as Hv.
  rewrite (txn_writes_ext V (apply_writes (home_copy V bs) D)) in Hreb |- * by done.
  destruct (transaction_prefix (home_copy V bs) s n (llog s1) bs k Hid) as (E & Hboot & Hcase & Hfull); try done.
  { intros c d (e & [= -> ->] & He)%list_elem_of_fmap. split; [split|].
    - by apply (lo_range _ _ _ Hlog).
    - unfold in_log. rewrite <- Hst. by apply (lo_range _ _ _ Hlog).
    - eapply view_len. apply Hinv. }
  { intros c. by rewrite home_copy_keys. }
  { by rewrite home_copy_keys, <- HB. }
  destruct (bootable_boots _ _ E D' t m (bootable_reboots _ _ _ _ _ Hboot Hreb) Hc) as (sr & Rr & Hsr).
  exists sr. split; [exact Rr|]. clear Rr. split.
  - destruct Hcase as [Ho|Ho]; [left|right]; intros c Hn; rewrite Hsr by done; [apply Ho|by rewrite Ho].
  - intros Hk c Hn. rewrite Hsr by done. by rewrite Hfull.
Qed.
End ending.

(** ** Views that agree above the log *)

Section agree.
Context (sb : superblock) (size_ start d0 : Z) (V W : Z -> block).
Hypothesis L : layout sb size_ start d0.
Hypothesis HW : forall c, sb_inodestart sb <= c -> W c = V c.

Lemma agree_data ip k : inode_ok sb d0 V ip -> in_map k -> slot V (i_addrs ip) k <> 0 -> W (slot V (i_addrs ip) k) = V (slot V (i_addrs ip) k).
Proof.
  intros Ok Hk Hs. destruct (fo_data _ _ _ _ (io_file _ _ _ _ Ok) k Hk Hs) as [Hr _]. pose proof (ly_order _ _ _ _ L). apply HW. lia.
Qed.

Lemma agree_inode ip : inode_ok sb d0 V ip -> inode_ok sb d0 W ip /\ bytes_of W ip = bytes_of V ip.
Proof.
  intros Ok. pose proof (ly_order _ _ _ _ L) as Ho. split; [|apply (same_bytes sb d0 V W ip Ok); intros k; by apply agree_data].
  apply (same_inode_ok sb d0 V W ip Ok); [intros k; by apply agree_data|..].
  - intros k Hk Hs. unfold used. rewrite HW by lia. by apply (io_file _ _ _ _ Ok).
  - rewrite HW; [done|]. pose proof (io_inum _ _ _ _ Ok). pose proof (Z.div_pos (i_inum ip) IPB ltac:(lia) ltac:(done)). unfold IBLOCK. lia.
Qed.

Lemma agree_disjoint ip jp : inode_ok sb d0 V ip -> inode_ok sb d0 V jp -> disjoint_files V ip jp -> disjoint_files W ip jp.
Proof.
  intros Oi Oj [Hne Hd]. split; [done|]. intros k k' Hk Hk'.
  rewrite (same_slot V W ip), (same_slot V W jp) by (intros ?; by apply agree_data). by apply Hd.
Qed.
End agree.

Lemma write_done_agree sb size_ start d0 V ip off bs V' ip' W' :
  layout sb size_ start d0 -> (forall c, sb_inodestart sb <= c -> W' c = V' c) ->
  write_done sb d0 V ip off bs V' ip' -> write_done sb d0 V ip off bs W' ip'.
Proof.
  intros L HW [H1 H2 H3 H4]. destruct (agree_inode sb _ _ d0 V' W' L HW ip' H1) as [K1 K2]. split; [done|done|congruence|].
  intros jp Oj Dj. destruct (H4 jp Oj Dj) as (J1 & J2 & J3). destruct (agree_inode sb _ _ d0 V' W' L HW jp J1) as [M1 M2].
  split_and!; [done|congruence|by apply (agree_disjoint sb _ _ d0 V' W' L HW)].
Qed.

(** The lock of an inode is no part of the file. *)
Lemma inode_ok_lock sb d0 V ip lk : inode_ok sb d0 V ip -> inode_ok sb d0 V (set_i_lock lk ip).
Proof.
  intros [H1 H2 H3 H4 [F1 F2 F3 F4 F5 F6] H6]. split; try done. exact (f_equal (set_i_lock lk) H6).
Qed.

Lemma write_done_lock sb d0 V ip off bs V' ip' lk lk' :
  write_done sb d0 V (set_i_lock lk ip) off bs V' ip' -> i_lock ip = lk' -> write_done sb d0 V ip off bs V' (set_i_lock lk' ip').
Proof.
  intros [H1 H2 H3 H4] <-. split; [by apply inode_ok_lock| |done|].
  - rewrite H2. by destruct ip.
  - intros jp Oj Dj. by apply (H4 jp Oj).
Qed.

(** ** The file system between operations *)

Record fs_idle (s : kst) (n : Z) (d0 : Z) : Prop := {
  fz_log : idle (k_lst s) n;
  fz_lay : layout (k_sb s) (disksize (lbio (k_lst s))) (l_start (llog (k_lst s))) d0;
  fz_meta : forall b, 0 <= b < d0 -> used (k_sb s) (disk (lbio (k_lst s))) b = true;
  fz_sb : sb_logstart (decode_sb (disk (lbio (k_lst s)) 1)) = l_start (llog (k_lst s)) }.

(** The disk of a state. *)
Definition kdisk (s : kst) : Z -> block := disk (lbio (k_lst s)).

(** The file system as a process sees it that only reads. *)
Lemma idle_seen s n d0 : fs_idle s n d0 -> fs_inv_ false s n [] (kdisk s) ∅ d0.
Proof. intros [[? ?] ? ? ?]. by split. Qed.

Lemma kbegin_op_run s n d0 :
  fs_idle s n d0 -> exists l, kbegin_op [] s = Ret tt [] (s ◁ l) /\ fs_inv (s ◁ l) n [] (kdisk s) ∅ d0 /\
    l = put_log (set_outstanding 1 (llog (k_lst s))) (k_lst s).
Proof.
  intros [[Hinv Hout] Hlay Hmeta Hsb]. eexists. split_and!; [|split|reflexivity].
  - apply lift_lst. by eapply begin_op_run.
  - cbn [k_lst set_k_lst]. by apply begun_inv.
  - done.
  - done.
  - done.
Qed.

(** ** A machine that has just started *)

(** The state in which the log has been initialised and nothing is cached. *)
Definition started (D : Z -> block) (sb : superblock) (size : Z) (t : pstate) (ips : list inode) (fs : list file) : kst :=
  mkKst (mkLst (set_place (sb_logstart sb) 30 1 log0) (bst0 D size t)) (mkKmstate (fun _ => 0) 0 0) sb ips fs
    (fun _ => mkPipe [] 0 0 0 0) [] (mkConsole 0 0 (fun _ => 0) 0 0 0 [] [] [] 0 [] 0 0 0) 0 [].

Lemma started_disk D sb size t ips fs : kdisk (started D sb size t ips fs) = D /\ disksize (lbio (k_lst (started D sb size t ips fs))) = size.
Proof. destruct (boot_disk D size t) as (H1 & H2 & _). exact (conj H1 H2). Qed.

Lemma started_idle D sb size t n ips fs d0 :
  current t n -> (forall c, length (D c) = 512%nat) -> layout sb size (sb_logstart sb) d0 -> size <= 2 ^ 32 ->
  hdr_n (D (sb_logstart sb)) = 0 -> (forall b, 0 <= b < d0 -> used sb D b = true) -> decode_sb (D 1) = sb ->
  fs_idle (started D sb size t ips fs) n d0.
Proof.
  intros Hc Hlen Hlay Hsize Hhdr Hmeta Hsb. destruct (started_disk D sb size t ips fs) as [Hd Hsz]. unfold kdisk in Hd.
  pose proof (ly_order _ _ _ _ Hlay). pose proof (ly_log _ _ _ _ Hlay). split; rewrite ?Hd, ?Hsz.
  - split; [|reflexivity]. rewrite Hd. pose proof (bst0_inv D size t n Hc Hlen) as Hinv.
    split; rewrite ?Hd, ?Hsz; try reflexivity; cbn [llog k_lst started lbio].
    + exact Hinv.
    + clear - H H0. exists []. split; [|intros c; split; [by intros ?%not_elem_of_empty|by intros ?%not_elem_of_nil]].
      split; cbn [l_dev l_start lh_block lh_n set_place log0]; unfold LOGSIZE in *; try lia; try reflexivity; [constructor|by intros ? ?%not_elem_of_nil].
    + cbn. lia.
    + cbn [l_start set_place]. lia.
    + exact Hhdr.
  - exact Hlay.
  - exact Hmeta.
  - by rewrite Hsb.
Qed.
