(* ===== verification/Mkfsok.v ===== *)
(** * The image that mkfs makes

    Every step of mkfs keeps the files on the image consistent with the bitmap
    that it writes in the end, so that the kernel can start on the result. *)

From Stdlib Require Import ZArith Lia String.
From stdpp Require Import prelude numbers strings option gmap list.
From S2P Require Import Prelude Kernel Mem Kalloc Sched Monitor Sleeplock Bio Log Logcrash Logtxn Console Kst Inode Fsblock Fsfile Fsinode Device Fs Fsio Fseq Fscrash Mkfs.

(** ** The bitmap *)

Lemma bitmap_S used : 0 <= used -> mk_bitmap (used + 1) = mark_bit (mk_bitmap used) used.
Proof. intros H. unfold mk_bitmap. rewrite seqZ_app, foldl_app by lia. by rewrite Z.add_0_l. Qed.

Lemma bitmap_spec used :
  0 <= used <= BPB -> length (mk_bitmap used) = 512%nat /\ forall b, 0 <= b < BPB -> bit_set (mk_bitmap used) b = (b <? used).
Proof.
  intros [H0 H1]. revert H1. pattern used. apply natlike_ind; [|clear used H0; intros n Hn IH H1|done].
  - intros _. split; [done|]. intros b Hb. rewrite (proj2 (Z.ltb_ge _ _)) by lia. rewrite bit_set_testbit. unfold mk_bitmap. cbn [seqZ foldl].
    change (seqZ 0 0) with (@nil Z). cbn [foldl]. rewrite nth_lookup.
    destruct (replicate (Z.to_nat BSIZE) 0 !! Z.to_nat (b / 8)) as [y|] eqn:E; [apply lookup_replicate in E as [-> _]|]; apply Z.bits_0.
  - destruct (IH ltac:(lia)) as [Hl Hb]. rewrite <- Z.add_1_r, bitmap_S by done. split; [by rewrite length_mark|]. intros b Hbb.
    rewrite bit_mark by (done || lia). rewrite Hb by done. destruct (Z.ltb_spec b n), (Z.eqb_spec b n), (Z.ltb_spec b (n + 1)); try done; lia.
Qed.

(** ** The image as the kernel will see it *)

(** The image with the bitmap for the blocks used so far. *)
Definition view (s : mkfs) (c : Z) : block := if c =? 58 then mk_bitmap (freeblock s) else fsimg s c.

Record mk_inv (s : mkfs) : Prop := {
  mi_len : fslen s = 1000;
  mi_blocks : forall c, length (fsimg s c) = 512%nat;
  mi_free : 59 <= freeblock s <= 1000;
  mi_zero : forall c, freeblock s <= c < 1000 -> fsimg s c = zeros;
  mi_log : fsimg s 2 = zeros;
  mi_sb : fsimg s 1 = sb_block mk_sb }.

Lemma mk_sb_eq : mk_sb = mkSb 1000 941 200 30 2 32 58.
Proof. reflexivity. Qed.

Lemma mk_layout : layout mk_sb 1000 2 59.
Proof. rewrite mk_sb_eq. split; cbn; unfold LOGSIZE, BPB, BSIZE; try lia. unfold IPB. change (200 / 8) with 25. lia. Qed.

Section view.
Context (s : mkfs).
Hypothesis I : mk_inv s.

Lemma view_length c : length (view s c) = 512%nat.
Proof. unfold view. destruct (c =? 58); [|apply I]. apply bitmap_spec. pose proof (mi_free _ I). unfold BPB, BSIZE. lia. Qed.

Lemma view_used b : 0 <= b < 1000 -> used mk_sb (view s) b = (b <? freeblock s).
Proof.
  intros Hb. unfold used. change (view s (sb_bmapstart mk_sb)) with (mk_bitmap (freeblock s)). pose proof (mi_free _ I).
  apply bitmap_spec; unfold BPB, BSIZE; lia.
Qed.

Lemma view_other c : c <> 58 -> view s c = fsimg s c.
Proof. intros H. unfold view. by rewrite (proj2 (Z.eqb_neq _ _)). Qed.

(** A kernel started on the image. *)
Lemma image_idle D ips fs : (forall c, D c = view s c) -> fs_idle (started D mk_sb 1000 bio_procs ips fs) 3 59.
Proof.
  intros E. apply started_idle; [apply bio_procs_current|intros c; rewrite E; apply view_length|apply mk_layout|lia|..].
  - rewrite E. change (view s (sb_logstart mk_sb)) with (fsimg s 2). rewrite (mi_log _ I). reflexivity.
  - intros b Hb. unfold used. rewrite E. fold (used mk_sb (view s) b). rewrite view_used by lia. apply Z.ltb_lt. pose proof (mi_free _ I). lia.
  - rewrite E, view_other by done. rewrite (mi_sb _ I). reflexivity.
Qed.

Lemma view_idle ips fs : fs_idle (started (view s) mk_sb 1000 bio_procs ips fs) 3 59.
Proof. by apply image_idle. Qed.

Lemma view_seen : fs_inv_ false (started (view s) mk_sb 1000 bio_procs [] []) 3 [] (view s) ∅ 59.
Proof. pose proof (idle_seen _ _ _ (view_idle [] [])) as J. by rewrite (proj1 (started_disk _ _ _ _ _ _)) in J. Qed.

Lemma view_file ip : i_dev ip = 1 -> file_ok mk_sb 59 (view s) (i_addrs ip) ->
  file_at_ false (started (view s) mk_sb 1000 bio_procs [ip] []) 3 (view s) ∅ 59 0 ip.
Proof.
  intros Hd F. pose proof (idle_seen _ _ _ (view_idle [ip] [])) as J. rewrite (proj1 (started_disk _ _ _ _ _ _)) in J. by split.
Qed.
End view.

(** ** Taking a block *)

(** Entry [k] of the file has got the next free block. *)
Record takes (s : mkfs) (a : list Z) (k : Z) (s' : mkfs) (a' : list Z) : Prop := {
  tk_inv : mk_inv s';
  tk_ok : file_ok mk_sb 59 (view s') a';
  tk_grows : grows mk_sb (view s) a (view s') a';
  tk_slot : forall k', in_map k' -> slot (view s') a' k' = if decide (k' = k) then freeblock s else slot (view s) a k';
  tk_data : forall k', 0 <= k' < MAXFILE -> slot (view s) a k' <> 0 -> view s' (slot (view s) a k') = view s (slot (view s) a k');
  tk_new : 0 <= k -> view s' (freeblock s) = zeros;
  tk_next : freeblock s' = freeblock s + 1;
  tk_inodes : freeinode s' = freeinode s;
  tk_low : forall c, c < 58 -> fsimg s' c = fsimg s c }.

Section take.
Context (s : mkfs) (a : list Z).
Hypothesis I : mk_inv s.
Hypothesis F : file_ok mk_sb 59 (view s) a.
Hypothesis Hroom : freeblock s < 1000.
#[local] Abbreviation b := (freeblock s).
#[local] Abbreviation taken := (mkMkfs (fsimg s) (fslen s) (freeinode s) (b + 1)).

Lemma taken_inv : mk_inv taken.
Proof. destruct I as [H1 H2 H3 H4 H5 H6]. split; cbn; try done; [lia|]. intros c Hc. apply H4. lia. Qed.

Lemma next_block_run : next_block s = Done b taken.
Proof. unfold next_block. pose proof (mi_free _ I). by rewrite u32_id by lia. Qed.

Lemma new_free : 59 <= b < sb_size mk_sb /\ used mk_sb (view s) b = false.
Proof.
  pose proof (mi_free _ I). rewrite (view_used s I) by lia. split; [rewrite mk_sb_eq; cbn; lia|]. apply Z.ltb_irrefl.
Qed.

Lemma taken_view : same_view (allocated mk_sb (view s) b) (view taken).
Proof.
  pose proof (mi_free _ I). intros c. unfold allocated, view. change (sb_bmapstart mk_sb) with 58. cbn [fsimg freeblock].
  destruct (Z.eqb_spec c 58) as [->|Hc].
  - rewrite wr_other by lia. rewrite wr_same. by rewrite bitmap_S by lia.
  - destruct (decide (c = b)) as [->|Hb]; [rewrite wr_same; symmetry; apply I; lia|]. rewrite !wr_other by done.
    by rewrite (proj2 (Z.eqb_neq c 58)).
Qed.

Lemma slot_not_new k : in_map k -> slot (view s) a k <> 0 -> slot (view s) a k <> b /\ slot (view s) a k <> 58.
Proof. intros Hk Hs. apply (new_block _ _ _ _ _ _ (view_seen s I) a F b k Hk Hs), new_free. Qed.

Lemma take_direct j : 0 <= j <= 12 -> nth (Z.to_nat j) a 0 = 0 ->
  takes s a (if j =? 12 then -1 else j) taken (<[Z.to_nat j := b]> a).
Proof.
  intros Hj Hz. destruct new_free as [Hb Hu]. pose proof taken_view as E. pose proof (view_seen s I) as J. split; try done.
  - exact taken_inv.
  - apply (file_ok_impl _ _ _ _ _ E), (file_ok_direct _ _ _ _ _ _ J a F j b Hj Hz Hb Hu).
  - eapply grows_impl; [reflexivity|exact E|]. by apply (grows_direct _ _ _ _ _ _ J a F b Hb Hu).
  - intros k' Hk'. rewrite <- E. by apply (slot_direct_new _ _ _ _ _ _ J a F j b Hj Hz Hb Hu).
  - intros k' Hk' Hs. destruct (slot_not_new k') as [_ Hn]; [unfold in_map; lia|done|]. by rewrite !view_other.
  - intros _. rewrite view_other by lia. apply I. pose proof (mi_free _ I). lia.
Qed.

#[local] Abbreviation ind := (nth 12 a 0).
Lemma take_leaf k : NDIRECT <= k < MAXFILE -> ind <> 0 -> slot (view s) a k = 0 ->
  let d := put32 (4 * Z.to_nat (k - NDIRECT)) b (fsimg s ind) in
  takes s a k (mkMkfs (fun c => if c =? ind then d else fsimg s c) 1000 (freeinode s) (b + 1)) a.
Proof.
  intros Hk Hi Hz d. destruct new_free as [Hb Hu]. pose proof taken_view as E. pose proof (view_seen s I) as J. pose proof (mi_free _ I) as Hf.
  destruct (ind_block _ _ _ _ _ _ J a F b Hi Hu) as (N1 & N2 & Hr & Hui). cbn [k_sb started] in *.
  change (sb_bmapstart mk_sb) with 58 in N2. change (sb_size mk_sb) with 1000 in Hr.
  assert (ind < b) as Hlt by (rewrite (view_used s I) in Hui by lia; by apply Z.ltb_lt).
  set (s' := mkMkfs _ _ _ _).
  assert (same_view (wr ind (put32 (4 * Z.to_nat (k - NDIRECT)) b (view s ind)) (allocated mk_sb (view s) b)) (view s')) as E'.
  { intros c. destruct (decide (c = ind)) as [->|Hc].
    - rewrite wr_same. rewrite !view_other by done. cbn. by rewrite Z.eqb_refl.
    - rewrite wr_other by done. rewrite (E c). unfold view. cbn [fsimg freeblock s']. by rewrite (proj2 (Z.eqb_neq c ind)). }
  split; try done.
  - split; cbn [fsimg fslen freeinode freeblock s']; try done; try lia; intros.
    + destruct (_ =? _); [|apply I]. unfold d. rewrite length_put32; rewrite (mi_blocks _ I); [done|].
      unfold MAXFILE, NDIRECT, NINDIRECT in *. lia.
    + rewrite (proj2 (Z.eqb_neq _ _)) by lia. apply I. lia.
    + rewrite (proj2 (Z.eqb_neq _ _)) by lia. exact (mi_log _ I).
    + rewrite (proj2 (Z.eqb_neq _ _)) by lia. exact (mi_sb _ I).
  - apply (file_ok_impl _ _ _ _ _ E'), (file_ok_leaf _ _ _ _ _ _ J a F k b Hk Hi Hb Hu).
  - eapply grows_impl; [reflexivity|exact E'|]. by apply (grows_leaf _ _ _ _ _ _ J a F b Hb Hu).
  - intros k' Hk'. rewrite <- E'. by apply (slot_leaf_new _ _ _ _ _ _ J a k b Hk Hi Hb).
  - intros k' Hk' Hs. destruct (slot_not_new k') as [_ Hn]; [unfold in_map; lia|done|]. rewrite !view_other by done. cbn.
    rewrite (proj2 (Z.eqb_neq _ _)); [done|]. intros Ei. assert (k' = -1); [|lia].
    apply (fo_inj _ _ _ _ F); [unfold in_map; lia|unfold in_map, MAXFILE, NDIRECT, NINDIRECT; lia|done|done].
  - intros _. rewrite view_other by lia. cbn. rewrite (proj2 (Z.eqb_neq _ _)) by lia. apply I. lia.
  - intros c Hc. cbn. by rewrite (proj2 (Z.eqb_neq c ind)) by lia.
Qed.
End take.

(** ** One block of a file *)

(** The blocks for the data of a file of [sz] bytes, and with the indirect block. *)
Definition nb (sz : Z) : Z := (sz + 511) / 512.
Definition nblocks_of (sz : Z) : Z := nb sz + (if 12 <? nb sz then 1 else 0).

(** The file has the blocks it needs for [sz] bytes, no more, and what is left
    of the last is zero. *)
Record packed (V : Z -> block) (a : list Z) (sz : Z) : Prop := {
  pk_slot : forall k, 0 <= k < MAXFILE -> (slot V a k <> 0 <-> k < nb sz);
  pk_ind : slot V a (-1) <> 0 <-> 12 < nb sz;
  pk_tail : forall o, sz <= o < 512 * nb sz -> fbyte V a o = 0 }.

(** Block [k] of the file is there. *)
Record placed (s : mkfs) (a : list Z) (k : Z) (s' : mkfs) (a' : list Z) : Prop := {
  pl_inv : mk_inv s';
  pl_ok : file_ok mk_sb 59 (view s') a';
  pl_grows : grows mk_sb (view s) a (view s') a';
  pl_nz : slot (view s') a' k <> 0;
  pl_same : slot (view s) a k <> 0 -> a' = a;
  pl_data : forall k', 0 <= k' < MAXFILE -> slot (view s) a k' <> 0 -> view s' (slot (view s) a k') = view s (slot (view s) a k');
  pl_new : slot (view s) a k = 0 -> view s' (slot (view s') a' k) = zeros;
  pl_slot : forall k', 0 <= k' < MAXFILE -> k' <> k -> slot (view s') a' k' = slot (view s) a k';
  pl_ind : slot (view s') a' (-1) <> 0 <-> slot (view s) a (-1) <> 0 \/ 12 <= k;
  pl_inodes : freeinode s' = freeinode s;
  pl_low : forall c, c < 58 -> fsimg s' c = fsimg s c }.

Lemma in_map_ind : in_map (-1).
Proof. unfold in_map, MAXFILE, NDIRECT, NINDIRECT. lia. Qed.

Lemma placed_none s a k : mk_inv s -> file_ok mk_sb 59 (view s) a -> (12 <= k -> slot (view s) a (-1) <> 0) ->
  slot (view s) a k <> 0 -> placed s a k s a.
Proof. intros I F Hi Hs. split; try done. split; [by left|]. by intros [?|?%Hi]. Qed.

Lemma placed_one s a k s' a' : mk_inv s -> takes s a k s' a' -> 0 <= k < MAXFILE -> slot (view s) a k = 0 ->
  (12 <= k -> slot (view s) a (-1) <> 0) -> placed s a k s' a'.
Proof.
  intros I [T1 T2 T3 T4 T5 T6 T7 T8 T9] Hk Hz Hi. pose proof (mi_free _ I).
  assert (slot (view s') a' k = freeblock s) as E by (rewrite T4, decide_True by (done || unfold in_map; lia); done). split; try done.
  - lia.
  - intros _. rewrite E. apply T6. lia.
  - intros k' Hk' Hne. rewrite T4 by (unfold in_map; lia). by rewrite decide_False.
  - rewrite T4 by apply in_map_ind. rewrite decide_False by lia. split; [by left|]. intros [?|?]; [done|by apply Hi].
Qed.

Lemma placed_two s a k s1 a1 s2 a2 : mk_inv s -> takes s a (-1) s1 a1 -> takes s1 a1 k s2 a2 -> 12 <= k < MAXFILE ->
  slot (view s) a k = 0 -> placed s a k s2 a2.
Proof.
  intros I [T1 T2 T3 T4 T5 T6 T7 T8 T9] [U1 U2 U3 U4 U5 U6 U7 U8 U9] Hk Hz. pose proof (mi_free _ I).
  assert (slot (view s2) a2 k = freeblock s1) as E by (rewrite U4, decide_True by (done || unfold in_map; lia); done).
  assert (forall k', 0 <= k' < MAXFILE -> slot (view s1) a1 k' = slot (view s) a k') as E1.
  { intros k' Hk'. rewrite T4 by (unfold in_map; lia). by rewrite decide_False by lia. }
  split; try done.
  - exact (grows_trans _ _ _ _ _ _ _ 59 ltac:(done) T2 U2 T3 U3).
  - lia.
  - intros k' Hk' Hs. rewrite <- E1 in * by done. rewrite U5 by done. rewrite E1 in * by done. by apply T5.
  - intros _. rewrite E. apply U6. lia.
  - intros k' Hk' Hne. rewrite U4 by (unfold in_map; lia). rewrite decide_False by done. by apply E1.
  - rewrite U4 by apply in_map_ind. rewrite decide_False by lia. rewrite T4 by apply in_map_ind. rewrite decide_True by done. lia.
  - congruence.
  - intros c Hc. rewrite U9, T9; done.
Qed.

Lemma nb_spec off : 0 <= off ->
  let k := off / 512 in nb (512 * (k + 1)) = k + 1 /\ ((off mod 512 = 0 /\ nb off = k) \/ (off mod 512 <> 0 /\ nb off = k + 1)).
Proof.
  intros H k. unfold nb. pose proof (Z.div_mod off 512). pose proof (Z.mod_pos_bound off 512). split.
  - symmetry. apply (Z.div_unique _ 512 _ 511); lia.
  - destruct (decide (off mod 512 = 0)); [left|right]; (split; [done|]); symmetry.
    + apply (Z.div_unique _ 512 _ 511); lia.
    + apply (Z.div_unique _ 512 _ (off mod 512 - 1)); lia.
Qed.

Lemma slot_word V a k : 12 <= k -> nth 12 a 0 <> 0 -> word (k - NDIRECT) (V (nth 12 a 0)) = slot V a k.
Proof. intros Hk Hi. unfold slot, NDIRECT. rewrite !(proj2 (Z.ltb_ge _ _)) by lia. by rewrite (proj2 (Z.eqb_neq _ _)). Qed.

Lemma addrs_same din : set_i_addrs (i_addrs din) din = din.
Proof. by destruct din. Qed.

Section block_run.
Context (s : mkfs) (din : inode) (off : Z).
#[local] Abbreviation a := (i_addrs din).
#[local] Abbreviation k := (off / 512).
Hypothesis I : mk_inv s.
Hypothesis F : file_ok mk_sb 59 (view s) a.
Hypothesis P : packed (view s) a off.
Hypothesis Hoff : 0 <= off.
Hypothesis Hk : k < MAXFILE.
#[local] Abbreviation cost := (nblocks_of (512 * (k + 1)) - nblocks_of off).
Hypothesis Hroom : freeblock s + cost <= 1000.

Lemma rsect_run c s1 : mk_inv s1 -> c < 1000 -> rsect c s1 = Done (fsimg s1 c) s1.
Proof. intros I1 Hc. unfold rsect. rewrite (mi_len _ I1). by rewrite (proj2 (Z.ltb_lt _ _)). Qed.

(** The indirect block is at [ind] in the image. *)
Lemma ind_read s1 a1 : mk_inv s1 -> file_ok mk_sb 59 (view s1) a1 -> nth 12 a1 0 <> 0 ->
  rsect (nth 12 a1 0) s1 = Done (view s1 (nth 12 a1 0)) s1 /\ view s1 (nth 12 a1 0) = fsimg s1 (nth 12 a1 0) /\ nth 12 a1 0 < 1000.
Proof.
  intros I1 F1 Hi. destruct (fo_data _ _ _ _ F1 (-1) in_map_ind Hi) as [Hr _]. change (slot (view s1) a1 (-1)) with (nth 12 a1 0) in Hr.
  change (sb_size mk_sb) with 1000 in Hr. rewrite view_other by lia. split_and!; [by apply rsect_run; [|lia]|done|lia].
Qed.

Lemma bind_run {A B} (c : M A) (f : A -> M B) s1 x s2 : c s1 = Done x s2 -> (c ≫= f) s1 = f x s2.
Proof. intros E. unfold mbind, M_bind. by rewrite E. Qed.

(** An entry of the inode, with a block when it has none. *)
Lemma entry_run j : 0 <= j <= 12 -> freeblock s < 1000 \/ nth (Z.to_nat j) a 0 <> 0 ->
  (if addr_of j din =? 0 then b ← next_block; mret (set_addr j (xint b) din) else mret din) s =
    if nth (Z.to_nat j) a 0 =? 0 then Done (set_addr j (freeblock s) din) (mkMkfs (fsimg s) (fslen s) (freeinode s) (freeblock s + 1)) else Done din s.
Proof.
  intros Hj Hr. unfold addr_of. destruct (Z.eqb_spec (nth (Z.to_nat j) a 0) 0); [|done]. destruct Hr; [|done].
  erewrite bind_run by (by apply next_block_run). pose proof (mi_free _ I). unfold mret, M_ret, xint. by rewrite u32_id by lia.
Qed.

(** Entry [k] of the indirect block, with a block when it has none. *)
Lemma mk_leaf_run s1 a1 : mk_inv s1 -> file_ok mk_sb 59 (view s1) a1 -> nth 12 a1 0 <> 0 -> 12 <= k -> slot (view s1) a1 k = 0 -> freeblock s1 < 1000 ->
  exists s2, takes s1 a1 k s2 a1 /\
    (indirect ← rsect (nth 12 a1 0);
     indirect ← (if word (k - NDIRECT) indirect =? 0 then
                   b ← next_block;
                   let indirect := put32 (4 * Z.to_nat (k - NDIRECT)) (xint b) indirect in
                   wsect (nth 12 a1 0) indirect;;
                   mret indirect
                 else mret indirect);
     mret (word (k - NDIRECT) indirect, set_i_addrs a1 din)) s1 = Done (slot (view s2) a1 k, set_i_addrs a1 din) s2.
Proof.
  intros I1 F1 Hi H12 Hz Hr. destruct (ind_read s1 a1 I1 F1 Hi) as (R & E & Hlt). pose proof (mi_free _ I1).
  pose proof (take_leaf s1 a1 I1 F1 Hr k ltac:(done) Hi Hz) as T. eexists. split; [exact T|].
  rewrite (bind_run _ _ _ _ _ R), slot_word by done. rewrite Hz. cbn [Z.eqb].
  rewrite (bind_run _ _ _ (put32 (4 * Z.to_nat (k - NDIRECT)) (freeblock s1) (fsimg s1 (nth 12 a1 0)))
    (mkMkfs (fun c => if c =? nth 12 a1 0 then put32 (4 * Z.to_nat (k - NDIRECT)) (freeblock s1) (fsimg s1 (nth 12 a1 0)) else fsimg s1 c) 1000 (freeinode s1) (freeblock s1 + 1))).
  2: { erewrite bind_run by (by apply next_block_run). unfold xint. rewrite u32_id, E by lia.
       unfold wsect, mbind, M_bind, mret, M_ret. cbn [fsimg fslen freeinode freeblock]. by rewrite (mi_len _ I1), Z.max_l by lia. }
  unfold mret, M_ret. f_equal. f_equal. rewrite <- slot_word by done. rewrite view_other.
  - cbn [fsimg]. by rewrite Z.eqb_refl.
  - destruct (fo_data _ _ _ _ F1 (-1) in_map_ind Hi) as [Hr2 _]. change (slot (view s1) a1 (-1)) with (nth 12 a1 0) in Hr2. lia.
Qed.

Lemma cost_spec : 0 <= k /\ (slot (view s) a k <> 0 -> cost = 0) /\ (slot (view s) a k = 0 -> cost = if k =? 12 then 2 else 1) /\
  (slot (view s) a k = 0 -> slot (view s) a (-1) <> 0 <-> 12 < k) /\ (slot (view s) a k <> 0 -> slot (view s) a (-1) <> 0 <-> 12 <= k).
Proof.
  destruct (nb_spec off Hoff) as [E1 E2]. assert (0 <= k) as Hk0 by (apply Z.div_pos; lia).
  pose proof (pk_slot _ _ _ P k ltac:(lia)) as Ps. pose proof (pk_ind _ _ _ P) as Pi. unfold nblocks_of. rewrite E1. split; [done|].
  destruct E2 as [[_ E2]|[_ E2]]; rewrite E2 in *.
  - assert (slot (view s) a k = 0) as Hz by lia. split_and!; [done|intros _|lia|done].
    destruct (Z.ltb_spec 12 (k + 1)), (Z.ltb_spec 12 k), (Z.eqb_spec k 12); lia.
  - assert (slot (view s) a k <> 0) as Hz by lia. split_and!; [lia|done|done|lia].
Qed.

#[local] Abbreviation block_made := (exists s' a',
  iappend_block din k s = Done (slot (view s') a' k, set_i_addrs a' din) s' /\ placed s a k s' a' /\ freeblock s' = freeblock s + cost).

Lemma block_run_direct : k < 12 -> block_made.
Proof.
  intros H12. destruct cost_spec as (Hk0 & C1 & C2 & C3 & C4). unfold iappend_block, NDIRECT. pose proof (mi_free _ I) as Hf.
  rewrite (proj2 (Z.ltb_lt k 12)) by done. assert (forall V b, slot V b k = nth (Z.to_nat k) b 0) as Es by (intros; apply slot_small; unfold NDIRECT; lia).
  pose proof (entry_run k ltac:(lia)) as R. rewrite <- (Es (view s)) in R. destruct (Z.eqb_spec (slot (view s) a k) 0) as [Hz|Hz].
  - specialize (C2 Hz). rewrite (proj2 (Z.eqb_neq k 12)) in C2 by lia. specialize (R ltac:(left; lia)).
    pose proof (take_direct s a I F ltac:(lia) k ltac:(lia) ltac:(by rewrite <- (Es (view s)))) as T.
    rewrite (proj2 (Z.eqb_neq k 12)) in T by lia. eexists _, _. split_and!.
    + rewrite (bind_run _ _ _ _ _ R). unfold addr_of, mret, M_ret, set_addr. by rewrite Es.
    + apply (placed_one _ _ _ _ _ I T); [lia|done|lia].
    + cbn. lia.
  - exists s, a. specialize (R ltac:(by right)). split_and!; [|apply placed_none; [done..|lia|done]|lia].
    rewrite (bind_run _ _ _ _ _ R). unfold addr_of, mret, M_ret. by rewrite addrs_same, Es.
Qed.

Lemma block_run_indirect : 12 <= k -> block_made.
Proof.
  intros H12. destruct cost_spec as (Hk0 & C1 & C2 & C3 & C4). unfold iappend_block, NDIRECT. pose proof (mi_free _ I) as Hf.
  rewrite (proj2 (Z.ltb_ge k 12)) by done.
  pose proof (entry_run 12 ltac:(lia)) as R. change (nth (Z.to_nat 12) a 0) with (nth 12 a 0) in R.
  change (slot (view s) a (-1)) with (nth 12 a 0) in *. destruct (decide (slot (view s) a k = 0)) as [Hz|Hz].
  - specialize (C2 Hz). specialize (C3 Hz). destruct (Z.eqb_spec (nth 12 a 0) 0) as [Hi|Hi].
    + rewrite (proj2 (Z.eqb_eq k 12)) in C2 by lia. specialize (R ltac:(left; lia)).
      pose proof (take_direct s a I F ltac:(lia) 12 ltac:(lia) Hi) as T. pose proof (tk_slot _ _ _ _ _ T) as Ts.
      destruct (mk_leaf_run _ _ (tk_inv _ _ _ _ _ T) (tk_ok _ _ _ _ _ T)) as (s2 & T2 & R2).
      { pose proof (Ts (-1) in_map_ind) as E. rewrite decide_True in E by done.
        match goal with |- ?x <> 0 => change (x = freeblock s) in E end. lia. }
      { done. }
      { rewrite Ts by (unfold in_map; lia). by rewrite decide_False by (cbn; lia). }
      { cbn. lia. }
      exists s2, (<[12%nat := freeblock s]> a). split_and!; [|by eapply placed_two|rewrite (tk_next _ _ _ _ _ T2); cbn; lia].
      rewrite (bind_run _ _ _ _ _ R). exact R2.
    + rewrite (proj2 (Z.eqb_neq k 12)) in C2 by lia. specialize (R ltac:(by right)).
      destruct (mk_leaf_run s a I F Hi ltac:(lia) Hz ltac:(lia)) as (s2 & T2 & R2). exists s2, a.
      split_and!; [|by apply placed_one; [..|lia|]|rewrite (tk_next _ _ _ _ _ T2); lia].
      rewrite addrs_same in R2 |- *. rewrite (bind_run _ _ _ _ _ R). exact R2.
  - assert (nth 12 a 0 <> 0) as Hi by (by apply C4). destruct (Z.eqb_spec (nth 12 a 0) 0); [done|]. specialize (R ltac:(by right)).
    exists s, a. split_and!; [|by apply placed_none|lia].
    destruct (ind_read s a I F Hi) as (R1 & _). rewrite (bind_run _ _ _ _ _ R). change (addr_of 12 din) with (nth 12 a 0).
    rewrite (bind_run _ _ _ _ _ R1). rewrite slot_word by done. rewrite (proj2 (Z.eqb_neq _ _)) by done. unfold mret, M_ret, mbind, M_bind.
    by rewrite slot_word, addrs_same.
Qed.

Lemma iappend_block_run : block_made.
Proof. destruct (Z.lt_ge_cases k 12); [by apply block_run_direct|by apply block_run_indirect]. Qed.
End block_run.

(** ** One round of iappend *)

Lemma wsect_run x d s : mk_inv s -> 59 <= x < freeblock s -> length d = 512%nat ->
  exists s', wsect x d s = Done tt s' /\ mk_inv s' /\ same_view (wr x d (view s)) (view s') /\
    freeblock s' = freeblock s /\ freeinode s' = freeinode s /\ forall c, c < 58 -> fsimg s' c = fsimg s c.
Proof.
  intros I Hx Hd. pose proof (mi_free _ I) as Hf. eexists. split; [unfold wsect; rewrite (mi_len _ I), Z.max_l by lia; reflexivity|].
  split_and!; [|..|done|done|].
  - split; cbn [fsimg fslen freeinode freeblock]; try done; try lia.
    + intros c. destruct (c =? x); [done|apply I].
    + intros c Hc. rewrite (proj2 (Z.eqb_neq c x)) by lia. by apply I.
    + rewrite (proj2 (Z.eqb_neq _ _)) by lia. exact (mi_log _ I).
    + rewrite (proj2 (Z.eqb_neq _ _)) by lia. exact (mi_sb _ I).
  - intros c. unfold view. cbn [fsimg freeblock]. destruct (decide (c = x)) as [->|Hc].
    + rewrite wr_same, Z.eqb_refl. by rewrite (proj2 (Z.eqb_neq x 58)) by lia.
    + rewrite wr_other by done. by rewrite (proj2 (Z.eqb_neq c x)).
  - intros c Hc. cbn. by rewrite (proj2 (Z.eqb_neq c x)) by lia.
Qed.

(** From [s] and [a] to [s'] and [a'] the bytes [bs] have been added at [off]. *)
Record appends (s : mkfs) (a : list Z) (off : Z) (bs : list Z) (s' : mkfs) (a' : list Z) : Prop := {
  ap_inv : mk_inv s';
  ap_ok : file_ok mk_sb 59 (view s') a';
  ap_wrote : wrote mk_sb (view s) a off bs (view s') a';
  ap_packed : packed (view s') a' (off + Z.of_nat (length bs));
  ap_free : freeblock s' = freeblock s + (nblocks_of (off + Z.of_nat (length bs)) - nblocks_of off);
  ap_inodes : freeinode s' = freeinode s;
  ap_low : forall c, c < 58 -> fsimg s' c = fsimg s c }.

Section chunk.
Context (s : mkfs) (din : inode) (off : Z) (bs : list Z).
#[local] Abbreviation a := (i_addrs din).
#[local] Abbreviation k := (off / 512).
#[local] Abbreviation m := (Z.of_nat (length bs)).
Hypothesis I : mk_inv s.
Hypothesis F : file_ok mk_sb 59 (view s) a.
Hypothesis P : packed (view s) a off.
Hypothesis Hoff : 0 <= off.
Hypothesis Hm : 0 < m <= 512 - off mod 512.
Hypothesis Hmax : off + m <= MAXFILE * BSIZE.
Hypothesis Hroom : freeblock s + (nblocks_of (off + m) - nblocks_of off) <= 1000.

Lemma chunk_nb : nb (off + m) = k + 1 /\ nblocks_of (off + m) = nblocks_of (512 * (k + 1)).
Proof.
  destruct (nb_spec off Hoff) as [E _]. assert (nb (off + m) = k + 1) as E2; [|unfold nblocks_of; by rewrite E, E2].
  unfold nb. pose proof (Z.div_mod off 512). pose proof (Z.mod_pos_bound off 512). symmetry.
  apply (Z.div_unique _ 512 _ (off mod 512 + m - 1)); lia.
Qed.

(** The file is packed after the round. *)
Lemma chunk_packed s1 a1 V2 :
  placed s a k s1 a1 -> same_view (wr (slot (view s1) a1 k) (splice (Z.to_nat (off mod 512)) bs (view s1 (slot (view s1) a1 k))) (view s1)) V2 ->
  packed V2 a1 (off + m).
Proof.
  intros Pl E. destruct chunk_nb as [Hn _]. destruct (block_index off ltac:(lia)) as [Hk _]. change (off / BSIZE) with k in Hk.
  pose proof (pl_ok _ _ _ _ _ Pl) as F1. pose proof (pl_nz _ _ _ _ _ Pl) as Hz.
  set (d := splice _ _ _) in *. pose proof (put_data_slot mk_sb 59 (view s1) a1 k d F1 Hk Hz) as Hs.
  destruct (nb_spec off Hoff) as [_ Hno]. pose proof (Z.div_mod off 512). pose proof (Z.mod_pos_bound off 512). split; rewrite ?Hn.
  - intros k' Hk'. rewrite <- E, Hs. destruct (decide (k' = k)) as [->|Hne]; [split; [lia|done]|].
    rewrite (pl_slot _ _ _ _ _ Pl), (pk_slot _ _ _ P) by done. lia.
  - rewrite <- E, Hs, (pl_ind _ _ _ _ _ Pl), (pk_ind _ _ _ P). lia.
  - intros o Ho. destruct (same_block off o Hoff ltac:(unfold BSIZE; lia)) as [Eb Em]. change (off / BSIZE) with k in Eb.
    rewrite <- E. rewrite (put_data_byte mk_sb 59) by (done || unfold BSIZE in *; lia || by rewrite Eb). rewrite decide_True by done.
    change (off mod BSIZE) with (off mod 512) in Em.
    unfold d. rewrite nth_lookup, lookup_splice_other; [|rewrite (view_length s1 (pl_inv _ _ _ _ _ Pl)); lia|lia].
    destruct (decide (slot (view s) a k = 0)) as [Hs0|Hs0].
    + rewrite (pl_new _ _ _ _ _ Pl Hs0). match goal with |- default 0 ?e = 0 => destruct e eqn:El end; [|done].
      by apply lookup_replicate in El as [-> _].
    + rewrite (gr_keep _ _ _ _ _ (pl_grows _ _ _ _ _ Pl)) by (done || unfold in_map; lia). rewrite (pl_data _ _ _ _ _ Pl) by done.
      pose proof (proj1 (pk_slot _ _ _ P k Hk) Hs0). etrans; [|apply (pk_tail _ _ _ P o); lia]. unfold fbyte. by rewrite Eb, nth_lookup.
Qed.

Lemma chunk_run : exists s' a', appends s a off bs s' a' /\ forall B (f : inode -> M B),
  ('(x, din) ← iappend_block din k; buf ← rsect x; wsect x (splice (Z.to_nat (off mod 512)) bs buf);; f din) s = f (set_i_addrs a' din) s'.
Proof.
  destruct chunk_nb as [Hn Hc]. rewrite Hc in Hroom. destruct (block_index off ltac:(lia)) as [Hk Hmk]. change (off / BSIZE) with k in Hk, Hmk.
  destruct (iappend_block_run s din off I F P Hoff ltac:(lia) Hroom) as (s1 & a1 & R1 & Pl & Hf1).
  pose proof (pl_inv _ _ _ _ _ Pl) as I1. pose proof (pl_ok _ _ _ _ _ Pl) as F1. pose proof (pl_nz _ _ _ _ _ Pl) as Hz.
  set (x := slot (view s1) a1 k) in *. destruct (fo_data _ _ _ _ F1 k Hmk Hz) as [Hr Hu]. change (sb_size mk_sb) with 1000 in Hr. fold x in Hr, Hu.
  rewrite (view_used s1 I1) in Hu by lia. apply Z.ltb_lt in Hu. pose proof (view_length s1 I1) as Hlen. pose proof (Z.mod_pos_bound off 512).
  destruct (wsect_run x (splice (Z.to_nat (off mod 512)) bs (view s1 x)) s1 I1 ltac:(lia)) as (s2 & R2 & I2 & E2 & Hf2 & Hi2 & Hl2);
    [rewrite length_splice; [apply Hlen|rewrite Hlen; lia]|].
  destruct (chunk_wrote mk_sb 59 (view s) a off bs (view s1) a1 F F1 ltac:(done) ltac:(done) Hoff Hm Hmax (Hlen _) Hz (pl_grows _ _ _ _ _ Pl)
    (pl_same _ _ _ _ _ Pl) (pl_data _ _ _ _ _ Pl)) as [F2 W2]. change (off mod BSIZE) with (off mod 512) in F2, W2.
  change (slot (view s1) a1 (off / BSIZE)) with x in F2, W2. exists s2, a1. split; [split|].
  - done.
  - by apply (file_ok_impl _ _ _ _ _ E2).
  - by eapply wrote_impl.
  - by eapply chunk_packed.
  - lia.
  - rewrite Hi2. exact (pl_inodes _ _ _ _ _ Pl).
  - intros c Hc'. rewrite Hl2 by done. by apply (pl_low _ _ _ _ _ Pl).
  - intros B f. rewrite (bind_run _ _ _ _ _ R1). rewrite (bind_run _ _ _ _ _ (rsect_run x s1 I1 ltac:(lia))).
    rewrite <- (view_other s1 x) by lia. by rewrite (bind_run _ _ _ _ _ R2).
Qed.
End chunk.

(** ** iappend *)

Lemma nb_mono x y : x <= y -> nb x <= nb y.
Proof. intros H. unfold nb. apply Z.div_le_mono; lia. Qed.

Lemma nblocks_mono x y : x <= y -> nblocks_of x <= nblocks_of y.
Proof. intros H. unfold nblocks_of. pose proof (nb_mono x y H). destruct (Z.ltb_spec 12 (nb x)), (Z.ltb_spec 12 (nb y)); lia. Qed.

Lemma appends_nil s a off : mk_inv s -> file_ok mk_sb 59 (view s) a -> packed (view s) a off -> appends s a off [] s a.
Proof. intros I F P. split; cbn [length Z.of_nat]; rewrite ?Z.add_0_r; done || apply wrote_nil || lia. Qed.

Lemma appends_app s a off bs1 s1 a1 bs2 s2 a2 :
  0 <= off -> off + Z.of_nat (length (bs1 ++ bs2)) <= MAXFILE * BSIZE ->
  appends s a off bs1 s1 a1 -> appends s1 a1 (off + Z.of_nat (length bs1)) bs2 s2 a2 -> appends s a off (bs1 ++ bs2) s2 a2.
Proof.
  intros H0 Hmax [I1 F1 W1 P1 C1 N1 L1] [I2 F2 W2 P2 C2 N2 L2].
  assert (off + Z.of_nat (length (bs1 ++ bs2)) = off + Z.of_nat (length bs1) + Z.of_nat (length bs2)) as E by (rewrite length_app; lia).
  split; rewrite ?E; try done; [|lia|congruence|intros c Hc; by rewrite L2, L1].
  by apply (wrote_app mk_sb 59 _ _ _ bs1 (view s1) a1).
Qed.

Lemma iappend_loop_nil fuel s din off p : length p = 0%nat ->
  mk_inv s -> file_ok mk_sb 59 (view s) (i_addrs din) -> packed (view s) (i_addrs din) off ->
  exists s' a', iappend_loop fuel din off p s = Done (off + Z.of_nat (length p), set_i_addrs a' din) s' /\ appends s (i_addrs din) off p s' a'.
Proof.
  intros ->%nil_length_inv I F P. exists s, (i_addrs din). split; [|by apply appends_nil]. cbn [length Z.of_nat].
  rewrite Z.add_0_r, addrs_same. by destruct fuel.
Qed.

Lemma iappend_loop_S fuel din off p s :
  let len := Z.of_nat (length p) in let m := Z.min len (BSIZE - off mod BSIZE) in
  0 < len -> 0 <= off -> off + len <= MAXFILE * BSIZE ->
  iappend_loop (S fuel) din off p s =
  ('(x, din) ← iappend_block din (off / 512); buf ← rsect x; wsect x (splice (Z.to_nat (off mod 512)) (take (Z.to_nat m) p) buf);;
    iappend_loop fuel din (off + m) (drop (Z.to_nat m) p)) s.
Proof.
  intros len m Hl H0 Hmax. cbn [iappend_loop]. fold len. rewrite (proj2 (Z.leb_gt _ _)) by lia. pose proof (block_in_map off len H0 ltac:(lia) Hmax) as Hk.
  pose proof (Z.div_mod off BSIZE ltac:(done)). unfold assert_, mbind, M_bind. rewrite (proj2 (Z.ltb_lt (off / BSIZE) MAXFILE)) by lia.
  replace (off - off / BSIZE * BSIZE) with (off mod 512) by (unfold BSIZE in *; lia).
  by replace (Z.min len ((off / BSIZE + 1) * BSIZE - off)) with m by (unfold m; unfold BSIZE in *; lia).
Qed.

Lemma iappend_loop_run f fuel s din off p :
  let len := Z.of_nat (length p) in
  mk_inv s -> file_ok mk_sb 59 (view s) (i_addrs din) -> packed (view s) (i_addrs din) off -> 0 <= off -> off + len <= MAXFILE * BSIZE ->
  freeblock s + (nblocks_of (off + len) - nblocks_of off) <= 1000 -> enough off len f -> (f <= fuel)%nat ->
  exists s' a', iappend_loop fuel din off p s = Done (off + len, set_i_addrs a' din) s' /\ appends s (i_addrs din) off p s' a'.
Proof.
  revert fuel s din off p. induction f as [|f IH]; intros fuel s din off p len I F P H0 Hmax Hroom He Hf.
  { apply enough_O in He. apply iappend_loop_nil; [lia|done..]. }
  destruct (decide (len = 0)) as [Hz|Hnz]; [apply iappend_loop_nil; [lia|done..]|].
  destruct fuel as [|fuel]; [lia|]. destruct (enough_S off len f) as (Hm & Hm2 & He2); [lia..|done|].
  pose proof (iappend_loop_S fuel din off p s ltac:(lia) H0 Hmax) as R0. fold len in R0. set (m := Z.min len (BSIZE - off mod BSIZE)) in *.
  assert (Z.of_nat (length (take (Z.to_nat m) p)) = m) as Hlt by (rewrite length_take; lia).
  assert (Z.of_nat (length (drop (Z.to_nat m) p)) = len - m) as Hld by (rewrite length_drop; lia).
  pose proof (nblocks_mono (off + m) (off + len) ltac:(lia)).
  destruct (chunk_run s din off (take (Z.to_nat m) p) I F P H0) as (s1 & a1 & A1 & R1); rewrite ?Hlt; [unfold BSIZE in *; lia|lia|lia|].
  pose proof (ap_free _ _ _ _ _ _ A1) as Hf1. pose proof (ap_packed _ _ _ _ _ _ A1) as P1. rewrite Hlt in Hf1, P1.
  destruct (IH fuel s1 (set_i_addrs a1 din) (off + m) (drop (Z.to_nat m) p) (ap_inv _ _ _ _ _ _ A1) (ap_ok _ _ _ _ _ _ A1) P1) as (s2 & a2 & R2 & A2);
    rewrite ?Hld; [lia|lia| |done|lia|].
  { replace (off + m + (len - m)) with (off + len) by lia. lia. }
  exists s2, a2. split.
  - rewrite R0, (R1 _ (fun din => iappend_loop fuel din (off + m) (drop (Z.to_nat m) p))), R2, Hld. f_equal. f_equal. lia.
  - rewrite <- (take_drop (Z.to_nat m) p). eapply appends_app; [done|by rewrite take_drop|exact A1|]. by rewrite Hlt.
Qed.

(** ** Inodes *)

(** Inode [inum] as the kernel has it in its cache when it has read it. *)
Definition kip (V : Z -> block) (inum : Z) : inode :=
  load_dinode (V (IBLOCK inum mk_sb)) (dino inum) (mkInode 1 inum 1 initsleeplock 1 0 0 0 0 0 (replicate 13 0)).

#[export] Instance kip_proper : Proper (same_view ==> eq ==> eq) kip.
Proof. intros V W H i ? <-. unfold kip. by rewrite (H _). Qed.

(** What the disk says of [ip] determines it. *)
Lemma kip_disk W ip inum : (forall d o, load_dinode d o (kip W inum) = load_dinode d o ip) ->
  load_dinode (W (IBLOCK inum mk_sb)) (dino inum) ip = ip -> kip W inum = ip.
Proof. intros H <-. symmetry. exact (eq_sym (H _ _)). Qed.

(** The blocks of the file are the same in the two views. *)
Definition same_data (V W : Z -> block) (a : list Z) : Prop := forall k, in_map k -> slot V a k <> 0 -> W (slot V a k) = V (slot V a k).

Lemma same_data_high V W a : file_ok mk_sb 59 V a -> (forall c, 58 <= c -> W c = V c) -> same_data V W a.
Proof. intros F Hw k Hk Hs. destruct (fo_data _ _ _ _ F k Hk Hs). apply Hw. lia. Qed.

Lemma packed_agree V W ip sz : 0 <= sz <= MAXFILE * BSIZE -> same_data V W (i_addrs ip) -> packed V (i_addrs ip) sz -> packed W (i_addrs ip) sz.
Proof.
  intros Hsz Hw [P1 P2 P3]. pose proof (same_slot V W ip Hw) as Hs. split.
  - intros k. rewrite Hs. apply P1.
  - by rewrite Hs.
  - intros o Ho. etrans; [|by apply (P3 o)]. unfold fbyte. rewrite Hs. assert (0 <= o / BSIZE < MAXFILE /\ o / BSIZE < nb sz) as [Hk Hn].
    { assert (nb sz <= MAXFILE) by (unfold nb; apply Z.lt_succ_r, Z.div_lt_upper_bound; unfold MAXFILE, NDIRECT, NINDIRECT, BSIZE in *; lia).
      assert (o / BSIZE < nb sz) by (apply Z.div_lt_upper_bound; unfold BSIZE; lia). pose proof (Z.div_pos o BSIZE ltac:(lia) ltac:(done)). lia. }
    rewrite Hw; [done|unfold in_map; lia|by apply P1].
Qed.

Lemma iblock_range inum : 0 <= inum < 200 -> 32 <= IBLOCK inum mk_sb < 58.
Proof. intros H. apply (ly_iblock _ _ _ _ mk_layout). done. Qed.

Lemma winode_run s inum ip jp : mk_inv s -> 0 <= inum < 200 -> i_inum jp = inum -> (forall o d, put_dinode ip o d = put_dinode jp o d) ->
  length (i_addrs jp) = 13%nat ->
  exists s', winode inum ip s = Done tt s' /\ mk_inv s' /\ same_view (stored mk_sb (view s) jp) (view s') /\
    freeblock s' = freeblock s /\ freeinode s' = freeinode s.
Proof.
  intros I Hin Ei Ed Ha. pose proof (iblock_range inum Hin) as Hb. pose proof (mi_free _ I). set (c := IBLOCK inum mk_sb) in *.
  exists (mkMkfs (fun e => if e =? c then put_dinode jp (dino inum) (fsimg s c) else fsimg s e) 1000 (freeinode s) (freeblock s)). split_and!; [| | |done|done].
  - unfold winode. fold c. rewrite (bind_run _ _ _ _ _ (rsect_run c s I ltac:(lia))). unfold wsect. by rewrite Ed, (mi_len _ I), Z.max_l by lia.
  - split; cbn [fsimg fslen freeinode freeblock]; try done.
    + intros e. destruct (e =? c); [|apply I]. rewrite length_put_dinode; rewrite ?(mi_blocks _ I); [done|done|apply dino_bound].
    + intros e He. rewrite (proj2 (Z.eqb_neq e c)) by lia. by apply I.
    + rewrite (proj2 (Z.eqb_neq _ _)) by lia. exact (mi_log _ I).
    + rewrite (proj2 (Z.eqb_neq _ _)) by lia. exact (mi_sb _ I).
  - intros e. unfold stored, view. rewrite Ei. fold c. cbn [fsimg freeblock]. rewrite (proj2 (Z.eqb_neq c 58)) by lia.
    destruct (decide (e = c)) as [->|He]; [rewrite wr_same, Z.eqb_refl; by rewrite (proj2 (Z.eqb_neq c 58)) by lia|].
    rewrite wr_other by done. by rewrite (proj2 (Z.eqb_neq e c)).
Qed.

Section iappend.
Context (s : mkfs) (inum : Z) (p : list Z).
#[local] Abbreviation ip := (kip (view s) inum).
#[local] Abbreviation sz := (i_size ip).
#[local] Abbreviation len := (Z.of_nat (length p)).
Hypothesis I : mk_inv s.
Hypothesis Hin : 0 <= inum < 200.
Hypothesis Ok : inode_ok mk_sb 59 (view s) ip.
Hypothesis P : packed (view s) (i_addrs ip) sz.
Hypothesis Hp : 0 < len.
Hypothesis Hmax : sz + len <= MAXFILE * BSIZE.
Hypothesis Hroom : freeblock s + (nblocks_of (sz + len) - nblocks_of sz) <= 1000.

Lemma iappend_run : exists s', iappend inum p s = Done tt s' /\ mk_inv s' /\
  write_done mk_sb 59 (view s) ip sz p (view s') (kip (view s') inum) /\
  packed (view s') (i_addrs (kip (view s') inum)) (sz + len) /\
  freeblock s' = freeblock s + (nblocks_of (sz + len) - nblocks_of sz) /\ freeinode s' = freeinode s /\
  forall jp, inode_ok mk_sb 59 (view s) jp -> disjoint_files (view s) ip jp -> same_data (view s) (view s') (i_addrs jp).
Proof.
  pose proof (iblock_range inum Hin) as Hb. pose proof (io_size _ _ _ _ Ok) as Hsz.
  set (din := load_dinode (fsimg s (IBLOCK inum mk_sb)) (dino inum) inode0).
  assert (i_addrs din = i_addrs ip /\ i_size din = sz) as [Ea Es] by (unfold kip; rewrite view_other by lia; done).
  destruct (iappend_loop_run (Z.to_nat (len / BSIZE + 2)) (Z.to_nat (len / BSIZE + 2)) s din sz p) as (s1 & a1 & R1 & [I1 F1 W1 P1 C1 N1 L1]); rewrite ?Ea.
  { done. } { apply Ok. } { done. } { lia. } { done. } { done. }
  { right. pose proof (Z.mod_pos_bound sz BSIZE ltac:(done)). pose proof (Z.div_mod len BSIZE ltac:(done)). pose proof (Z.mod_pos_bound len BSIZE ltac:(done)).
    pose proof (Z.div_pos len BSIZE ltac:(lia) ltac:(done)). unfold BSIZE in *. lia. }
  { done. }
  rewrite Ea in W1. set (ip' := set_i_size (sz + len) (set_i_addrs a1 ip)).
  pose proof (view_file s I ip eq_refl (io_file _ _ _ _ Ok)) as A.
  assert (fits ip') as Hfit by (eapply (fits_grown mk_sb 59 (view s1)); [done|done|done|apply Ok|lia]).
  pose proof (write_done_grown _ _ _ _ _ _ ip sz p (view s1) a1 A Ok F1 (view_length s1 I1) ltac:(lia) ltac:(lia) W1 Hfit) as W2. fold ip' in W2.
  destruct (winode_run s1 inum (set_i_size (xint (sz + len)) (set_i_addrs a1 din)) ip' I1 Hin eq_refl) as (s2 & R2 & I2 & E2 & Hf2 & Hi2).
  { intros o d. unfold xint. rewrite u32_id by (unfold MAXFILE, NDIRECT, NINDIRECT, BSIZE in *; lia). unfold put_dinode, ip', din, kip. cbn [i_type i_major i_minor i_nlink i_size i_addrs set_i_size set_i_addrs load_dinode]. by rewrite view_other by lia. }
  { apply F1. }
  apply (write_done_impl _ _ _ _ _ _ _ _ _ E2) in W2.
  assert (kip (view s2) inum = ip') as Ek by (apply kip_disk; [done|exact (io_disk _ _ _ _ (wd_ok _ _ _ _ _ _ _ _ W2))]).
  assert (forall c, 58 <= c -> view s2 c = view s1 c) as Hhigh by (intros c Hc; rewrite <- E2; apply wr_other; cbn; lia).
  exists s2. rewrite Ek. split_and!; [|done|exact W2| |lia|congruence|].
  - unfold iappend, rinode. rewrite (bind_run _ _ _ din s); [|by rewrite (bind_run _ _ _ _ _ (rsect_run (IBLOCK inum mk_sb) s I ltac:(lia)))]. rewrite Es.
    by rewrite (bind_run _ _ _ _ _ R1).
  - apply (packed_agree (view s1) (view s2) ip'); [lia|by apply same_data_high|done].
  - intros jp J D k Hk Hs. destruct (fo_data _ _ _ _ (io_file _ _ _ _ J) k Hk Hs). rewrite Hhigh by lia.
    apply (other_data mk_sb 59 (view s) (view s1) ip jp a1); [done..|apply W1|done|done].
Qed.
End iappend.

(** ** The files on the image *)

(** Inode [inum] is a file of type [t] with the bytes [bs]. *)
Record has_file (V : Z -> block) (inum t : Z) (bs : list Z) : Prop := {
  hf_ok : inode_ok mk_sb 59 V (kip V inum);
  hf_type : i_type (kip V inum) = t;
  hf_nlink : i_nlink (kip V inum) = 1;
  hf_size : i_size (kip V inum) = Z.of_nat (length bs);
  hf_bytes : bytes_of V (kip V inum) = bs;
  hf_packed : packed V (i_addrs (kip V inum)) (Z.of_nat (length bs)) }.

(** The blocks the files take. *)
Definition total (L : list (Z * list Z)) : Z := foldr (fun f n => nblocks_of (Z.of_nat (length f.2)) + n) 0 L.

(** The files are those of [L], from inode 1 on. *)
Record holds (s : mkfs) (L : list (Z * list Z)) : Prop := {
  hl_inv : mk_inv s;
  hl_next : freeinode s = Z.of_nat (length L) + 1;
  hl_max : (length L < 200)%nat;
  hl_file : forall i t bs, L !! i = Some (t, bs) -> has_file (view s) (Z.of_nat i + 1) t bs;
  hl_disj : forall i j, (i < length L)%nat -> (j < length L)%nat -> i <> j ->
    disjoint_files (view s) (kip (view s) (Z.of_nat i + 1)) (kip (view s) (Z.of_nat j + 1));
  hl_free : freeblock s = 59 + total L }.

Lemma total_app L L' : total (L ++ L') = total L + total L'.
Proof. unfold total. induction L as [|f L IH]; cbn; [lia|]. rewrite IH. lia. Qed.

Lemma total_insert L i x y : L !! i = Some x -> total (<[i := y]> L) = total L - nblocks_of (Z.of_nat (length x.2)) + nblocks_of (Z.of_nat (length y.2)).
Proof.
  revert i. induction L as [|f L IH]; intros [|i] H; try done; cbn [insert list_insert total foldr].
  - injection H as ->. unfold total. cbn. lia.
  - specialize (IH i H). unfold total, insert in *. cbn. lia.
Qed.

(** A file whose blocks and inode are as they were. *)
Lemma has_file_keep V W inum t bs : has_file V inum t bs -> kip W inum = kip V inum ->
  same_data V W (i_addrs (kip V inum)) -> inode_ok mk_sb 59 W (kip V inum) -> has_file W inum t bs.
Proof.
  intros [H1 H2 H3 H4 H5 H6] Hk Hw Ok. pose proof (io_size _ _ _ _ H1) as Hsz. rewrite H4 in Hsz. split; rewrite Hk; try done.
  - rewrite <- H5. by apply (same_bytes mk_sb 59).
  - by apply (packed_agree V).
Qed.

Lemma has_file_high V W inum t bs : has_file V inum t bs -> kip W inum = kip V inum -> (forall c, 58 <= c -> W c = V c) -> has_file W inum t bs.
Proof.
  intros H Hk Hw. pose proof (hf_ok _ _ _ _ H) as Ok. pose proof (same_data_high V W _ (io_file _ _ _ _ Ok) Hw) as Hs.
  apply (has_file_keep V); [done..|]. apply (same_inode_ok mk_sb 59 V); [done|done| |].
  - intros k Hin Hz. unfold used. rewrite Hw by done. by apply (io_file _ _ _ _ Ok).
  - change (i_inum (kip V inum)) with inum. by transitivity (kip W inum).
Qed.

Lemma disjoint_files_sym V ip jp : disjoint_files V ip jp -> disjoint_files V jp ip.
Proof. intros [D1 D2]. split; [done|]. intros k k' Hk Hk' Hs E. apply (D2 k' k); congruence. Qed.

Lemma disjoint_keep V W ip jp : same_data V W (i_addrs ip) -> same_data V W (i_addrs jp) -> disjoint_files V ip jp -> disjoint_files W ip jp.
Proof. intros H1 H2 [D1 D2]. split; [done|]. intros k k'. rewrite (same_slot V W ip H1), (same_slot V W jp H2). apply D2. Qed.

(** Storing an inode. *)
Section stored.
Context (V : Z -> block) (jp : inode).
Hypothesis Hlen : forall c, length (V c) = 512%nat.
Hypothesis Fit : fits jp.
Hypothesis Hin : 0 <= i_inum jp < 200.

Lemma stored_high c : 58 <= c -> stored mk_sb V jp c = V c.
Proof. intros Hc. pose proof (iblock_range _ Hin). unfold stored. apply wr_other. lia. Qed.

Lemma kip_stored : (forall d o, load_dinode d o (kip V (i_inum jp)) = load_dinode d o jp) -> kip (stored mk_sb V jp) (i_inum jp) = jp.
Proof.
  intros H. apply kip_disk; [exact H|]. unfold stored. rewrite wr_same, load_put_dinode; [by destruct jp|done|]. rewrite Hlen. apply dino_bound.
Qed.

Lemma kip_stored_other j : 0 <= j -> j <> i_inum jp -> kip (stored mk_sb V jp) j = kip V j.
Proof.
  intros Hj Hne. unfold kip, stored. destruct (decide (IBLOCK j mk_sb = IBLOCK (i_inum jp) mk_sb)) as [E|E]; [|by rewrite wr_other].
  rewrite E, wr_same. apply load_put_other; [done|rewrite Hlen; apply dino_bound|]. apply (dino_apart _ _ mk_sb); [lia|lia|done|done].
Qed.
End stored.

(** ** ialloc *)

Definition empty_inode (inum t : Z) : inode := mkInode 1 inum 1 initsleeplock 1 t 0 0 1 0 (replicate 13 0).

Lemma slot_empty V k : in_map k -> slot V (replicate 13 0) k = 0.
Proof.
  intros Hk. unfold slot. assert (forall m, nth m (replicate 13 0) 0 = 0) as Hz.
  { intros m. rewrite nth_lookup. destruct (replicate 13 0 !! m) eqn:E; [|done]. by apply lookup_replicate in E as [-> _]. }
  rewrite !Hz. by destruct (k <? 0), (k <? NDIRECT).
Qed.

Lemma empty_fits inum t : s16 t = t -> fits (empty_inode inum t).
Proof.
  intros Ht. split; cbn [i_type i_nlink i_size i_addrs i_major i_minor empty_inode]; try done. split; [done|].
  by intros x ->%elem_of_replicate_inv.
Qed.

Lemma empty_file V inum t : 0 <= inum < 200 -> s16 t = t -> kip V inum = empty_inode inum t -> has_file V inum t [].
Proof.
  intros Hin Ht Hk. assert (forall k, in_map k -> slot V (i_addrs (kip V inum)) k = 0) as Hz by (rewrite Hk; apply slot_empty).
  split; rewrite ?Hk in *; cbn [i_type i_nlink i_size i_addrs empty_inode length Z.of_nat] in *; try done.
  - split; cbn [i_size i_inum i_addrs empty_inode]; try done.
    + split; [done|..]; intros k; [by intros Hi; rewrite Hz|]. intros k' Hi. by rewrite Hz.
    + intros o Ho. lia.
    + by apply empty_fits.
  - change (Z.of_nat 0) with 0. split.
    + intros k Hi. rewrite Hz by (unfold in_map; lia). change (nb 0) with 0. lia.
    + rewrite Hz by apply in_map_ind. change (nb 0) with 0. lia.
    + intros o Ho. change (nb 0) with 0 in Ho. lia.
Qed.

Lemma ialloc_holds s L t : holds s L -> (length L < 199)%nat -> s16 t = t -> 
  exists s', mk_ialloc t s = Done (Z.of_nat (length L) + 1) s' /\ holds s' (L ++ [(t, [])]).
Proof.
  intros [I Hn Hm Hf Hd Hfr] Hl Ht. set (inum := Z.of_nat (length L) + 1). set (jp := empty_inode inum t).
  set (s0 := mkMkfs (fsimg s) (fslen s) (inum + 1) (freeblock s)). assert (mk_inv s0) as I0 by (destruct I; by split).
  pose proof (empty_fits inum t Ht : fits jp) as Fit.
  destruct (winode_run s0 inum (set_i_size (xint 0) (set_i_nlink (xshort 1) (set_i_type (s16 (xshort t)) inode0))) jp I0 ltac:(lia) eq_refl)
    as (s1 & R1 & I1 & E1 & Hf1 & Hi1); [|done|].
  { intros o d. unfold xshort. by rewrite s16_u16, Ht. }
  assert (0 <= i_inum jp < 200) as Hij by (cbn; lia). assert (forall c, length (view s0 c) = 512%nat) as Hlen by (intros c; by apply view_length).
  assert (forall c, 58 <= c -> view s1 c = view s c) as Hhigh by (intros c Hc; rewrite <- (E1 c); rewrite (stored_high (view s0) jp Hij) by done; done).
  assert (kip (view s1) inum = jp) as Hk by (rewrite <- E1; by apply (kip_stored (view s0) jp Hlen Fit Hij)).
  assert (forall i, (i < length L)%nat -> kip (view s1) (Z.of_nat i + 1) = kip (view s) (Z.of_nat i + 1)) as Hko.
  { intros i Hi. rewrite <- E1. apply (kip_stored_other (view s0) jp Hlen Fit Hij); cbn; lia. }
  exists s1. split.
  - unfold mk_ialloc. rewrite (bind_run _ _ _ inum s0); [by rewrite (bind_run _ _ _ _ _ R1)|]. unfold next_inode. rewrite Hn. fold inum. by rewrite u32_id by lia.
  - split; rewrite ?length_app; cbn [length]; [done|rewrite Hi1; cbn; lia|lia|..].
    + intros i u bs [Hi|[Hge Hi]]%lookup_app_Some.
      * pose proof (lookup_lt_Some _ _ _ Hi). eapply has_file_high; [by apply Hf|by apply Hko|done].
      * apply list_lookup_singleton_Some in Hi as [Hi [= <- <-]]. replace (Z.of_nat i + 1) with inum by lia.  apply empty_file; [lia|done|done].
    + assert (forall i, (i < length L)%nat -> file_ok mk_sb 59 (view s) (i_addrs (kip (view s) (Z.of_nat i + 1)))) as Hok.
      { intros i Hi. destruct (lookup_lt_is_Some_2 L i Hi) as [[u bs] Hx]. apply (hf_ok _ _ _ _ (Hf i u bs Hx)). }
      intros i j Hi Hj Hne. destruct (decide (i = length L)) as [->|Hi']; [|destruct (decide (j = length L)) as [->|Hj']].
      * fold inum. rewrite Hk. split; [cbn; lia|]. intros k k' Hin _ []. by apply slot_empty.
      * fold inum. rewrite Hk. split; [cbn; lia|]. intros k k' _ Hin Hs E. apply Hs. rewrite E. by apply slot_empty.
      * rewrite !Hko by lia. eapply disjoint_keep; [| |apply Hd; lia]; (apply same_data_high; [apply Hok; lia|exact Hhigh]).
    + rewrite total_app, Hf1. change (total [(t, [])]) with 0. cbn [freeblock s0]. lia.
Qed.

(** ** iappend *)

Lemma iappend_holds s L i t bs p :
  let L' := <[i := (t, bs ++ p)]> L in
  holds s L -> L !! i = Some (t, bs) -> 0 < Z.of_nat (length p) -> Z.of_nat (length (bs ++ p)) <= MAXFILE * BSIZE -> 59 + total L' <= 1000 ->
  exists s', iappend (Z.of_nat i + 1) p s = Done tt s' /\ holds s' L'.
Proof.
  intros L' [I Hn Hm Hf Hd Hfr] Hi Hp Hmax Hroom. pose proof (lookup_lt_Some _ _ _ Hi) as Hlt. set (inum := Z.of_nat i + 1) in *.
  pose proof (Hf _ _ _ Hi) as [H1 H2 H3 H4 H5 H6]. fold inum in H1, H2, H3, H4, H5, H6.
  pose proof (total_insert L i _ (t, bs ++ p) Hi) as Ht. fold L' in Ht. cbn [snd] in Ht.
  assert (i_size (kip (view s) inum) + Z.of_nat (length p) = Z.of_nat (length (bs ++ p))) as Ez by (rewrite H4, length_app; lia).
  destruct (iappend_run s inum p I ltac:(lia) H1) as (s' & R & I' & W & P' & Hf' & Hi' & Hs'); rewrite ?Ez, ?H4 in *; try done; [lia|].
  destruct W as [W1 W2 W3 W4].
  assert (forall j, (j < length L)%nat -> j <> i -> kip (view s') (Z.of_nat j + 1) = kip (view s) (Z.of_nat j + 1)) as Hko.
  { intros j Hj Hne. destruct (lookup_lt_is_Some_2 L j Hj) as [[u b] Hx]. destruct (W4 (kip (view s) (Z.of_nat j + 1))) as (J & _).
    - apply (hf_ok _ _ _ _ (Hf _ _ _ Hx)).
    - by apply Hd.
    - apply kip_disk; [done|]. exact (io_disk _ _ _ _ J). }
  exists s'. split; [done|]. unfold L'. split; rewrite ?length_insert; [done|lia|done|..].
  - intros j u b Hj. destruct (decide (j = i)) as [->|Hne].
    + rewrite list_lookup_insert_eq in Hj by done. injection Hj as <- <-. fold inum. split; [done|rewrite W2; done|rewrite W2; done| |..].
      * rewrite W2. cbn [i_size set_i_size]. rewrite length_app. lia.
      * rewrite W3, H5. unfold splice. rewrite Nat2Z.id, take_ge, drop_ge by lia. by rewrite app_nil_r.
      * done.
    + rewrite list_lookup_insert_ne in Hj by done. pose proof (lookup_lt_Some _ _ _ Hj). pose proof (Hf _ _ _ Hj) as [J1 J2 J3 J4 J5 J6].
      pose proof (Hd i j ltac:(done) ltac:(done) ltac:(done)) as D. destruct (W4 _ J1 D) as (K1 & _).
      apply (has_file_keep (view s)); [by apply Hf|by apply Hko|by apply Hs'|done].
  - assert (forall j, (j < length L)%nat -> j <> i -> inode_ok mk_sb 59 (view s) (kip (view s) (Z.of_nat j + 1)) /\
      disjoint_files (view s) (kip (view s) inum) (kip (view s) (Z.of_nat j + 1))) as Hj.
    { intros j Hj Hne. destruct (lookup_lt_is_Some_2 L j Hj) as [[u b] Hx]. split; [apply (hf_ok _ _ _ _ (Hf _ _ _ Hx))|by apply Hd]. }
    intros j1 j2 L1 L2 Hne. destruct (decide (j1 = i)) as [->|N1]; [|destruct (decide (j2 = i)) as [->|N2]].
    + rewrite (Hko j2) by done. destruct (Hj j2) as [O2 D2]; [done..|]. by apply W4.
    + rewrite (Hko j1) by done. destruct (Hj j1) as [O2 D2]; [done..|]. by apply disjoint_files_sym, W4.
    + rewrite (Hko j1), (Hko j2) by done. destruct (Hj j1), (Hj j2); [done..|]. apply (disjoint_keep (view s)); [by apply Hs'..|by apply Hd].
  - rewrite Hf', Hfr. fold L'. lia.
Qed.
