(* ===== verification/File.v ===== *)
(** * Open files (src/file.c, pipealloc of src/pipe.c)

    The file table and the operations that dispatch on what a file is.
    [end_] is the first address after the kernel, where [kfree] draws the line. *)

From Stdlib Require Import ZArith Lia String.
From stdpp Require Import prelude numbers strings option gmap list.
From S2P Require Import Prelude Kernel Mem Kalloc Sched Pipe Bio Log Console Kst Inode Device Fs.

Section file.
Context (end_ : Z).

(** [filealloc]: the first file that nobody refers to. *)
Definition filealloc : K kst (option nat) :=
  acquire LFtable;;
  t ← gets k_ftable;
  match list_find (fun f => f_ref f = 0) t with
  | Some (i, _) =>
      mod_f i (set_f_ref 1);;
      release LFtable;;
      mret (Some i)
  | None => release LFtable;; mret None
  end.

Definition filedup (f : nat) : K kst nat :=
  acquire LFtable;;
  x ← file_ f;
  if f_ref x <? 1 then panic "filedup"
  else
    mod_f f (fun x => set_f_ref (f_ref x + 1) x);;
    release LFtable;;
    mret f.

Definition fileclose (f : nat) : K kst unit :=
  acquire LFtable;;
  x ← file_ f;
  if f_ref x <? 1 then panic "fileclose"
  else
    mod_f f (fun x => set_f_ref (f_ref x - 1) x);;
    ff ← file_ f;
    if 0 <? f_ref ff then release LFtable
    else
      mod_f f (set_f_ref 0);;
      mod_f f (set_f_type FD_NONE);;
      release LFtable;;
      match f_type ff with
      | FD_PIPE => pipeclose (get_pipe (f_pipe ff)) (put_pipe (f_pipe ff)) (f_pipe ff)
                     (lift (kfree end_ (f_pipe ff))) (f_writable ff)
      | FD_INODE => kbegin_op;; iput (f_ip ff);; kend_op
      | FD_NONE => mret ()
      end.

(** The return value and what is stored at [st]. *)
Definition filestat (f : nat) : K kst (Z * option stat) :=
  x ← file_ f;
  match f_type x with
  | FD_INODE =>
      ilock (f_ip x);;
      st ← stati (f_ip x);
      iunlock (f_ip x);;
      mret (0, Some st)
  | _ => mret (-1, None)
  end.

(** The return value and the bytes stored at [addr]. *)
Definition fileread (f : nat) (n : Z) : K kst (Z * list Z) :=
  x ← file_ f;
  if f_readable x =? 0 then mret (-1, [])
  else
    match f_type x with
    | FD_PIPE => piperead (get_pipe (f_pipe x)) (put_pipe (f_pipe x)) (f_pipe x) n
    | FD_INODE =>
        ilock (f_ip x);;
        y ← file_ f;
        '(r, dst) ← readi (f_ip x) (f_off y) (u32 n);
        when (0 <? r) (mod_f f (fun x => set_f_off (u32 (f_off x + r)) x));;
        iunlock (f_ip x);;
        mret (r, dst)
    | FD_NONE => panic "fileread"
    end.

(** [filewrite] writes at most [max] bytes in a transaction. *)
Definition max_write : Z := ((MAXOPBLOCKS - 1 - 1 - 2) / 2) * 512.

(** The loop of [filewrite]: what it leaves in [i]. *)
Fixpoint filewrite_loop (fuel : nat) (f : nat) (addr : list Z) (i n : Z) : K kst Z :=
  if n <=? i then mret i
  else
    match fuel with
    | O => spin
    | S fuel =>
        let n1 := Z.min (n - i) max_write in
        kbegin_op;;
        x ← file_ f;
        ilock (f_ip x);;
        y ← file_ f;
        r ← writei (f_ip x) (drop (Z.to_nat i) addr) (f_off y) n1;
        when (0 <? r) (mod_f f (fun x => set_f_off (u32 (f_off x + r)) x));;
        iunlock (f_ip x);;
        kend_op;;
        if r <? 0 then mret i
        else if negb (r =? n1) then panic "short filewrite"
        else filewrite_loop fuel f addr (i + r) n
    end.

Definition filewrite (f : nat) (addr : list Z) (n : Z) : K kst Z :=
  x ← file_ f;
  if f_writable x =? 0 then mret (-1)
  else
    match f_type x with
    | FD_PIPE => pipewrite (get_pipe (f_pipe x)) (put_pipe (f_pipe x)) (f_pipe x) addr n
    | FD_INODE =>
        i ← filewrite_loop (Z.to_nat (n / max_write + 1)) f addr 0 n;
        mret (if i =? n then n else -1)
    | FD_NONE => panic "filewrite"
    end.

(** ** pipealloc *)

Definition pipe_fd (readable writable : Z) (p : Z) (f : file) : file :=
  set_f_pipe p (set_f_mode readable writable (set_f_type FD_PIPE f)).

Definition close_opt (f : option nat) : K kst unit :=
  match f with
  | Some f => fileclose f
  | None => mret ()
  end.

(** The two files, or [None] for -1.  At [bad] there is no pipe to free. *)
Definition pipealloc : K kst (option (nat * nat)) :=
  let bad (f0 f1 : option nat) : K kst (option (nat * nat)) :=
    close_opt f0;; close_opt f1;; mret None in
  f0 ← filealloc;
  match f0 with
  | None => bad None None
  | Some a =>
      f1 ← filealloc;
      match f1 with
      | None => bad f0 None
      | Some b =>
          p ← lift kalloc;
          if p =? 0 then bad f0 f1
          else
            modify (fun s => put_pipe p (mkPipe (pdata (get_pipe p s)) 0 0 1 1) s);;
            mod_f a (pipe_fd 1 0 p);;
            mod_f b (pipe_fd 0 1 p);;
            mret (Some (a, b))
      end
  end.
End file.
