(* ===== verification/Filewrite.v ===== *)
(** * Reading and writing open files

    [filewrite] and [fileread] on files with an inode: the offset, the
    transactions and the locks around [writei] and [readi]. *)

From Stdlib Require Import ZArith Lia String.
From stdpp Require Import prelude numbers strings option gmap list relations.
From S2P Require Import Prelude Kernel Mem Sched Monitor Sleeplock Pipe Bio Log Logcrash Logtxn Console Kst Inode Fsblock Fsfile Fsinode Device Fs Fsio Fscrash File.

(** ** The source of a write *)

(** [writei] looks at [n] bytes of its source. *)
Lemma writei_loop_take fuel i src off left h s :
  0 <= off -> writei_loop fuel i src off left h s = writei_loop fuel i (take (Z.to_nat left) src) off left h s.
Proof.
  revert src off left h s. induction fuel as [|fuel IH]; intros src off left h s H0; cbn [writei_loop]; [done|].
  destruct (Z.leb_spec left 0); [done|]. pose proof (Z.mod_pos_bound off BSIZE ltac:(done)) as Hm. set (m := Z.min left (BSIZE - off mod BSIZE)).
  assert (take (Z.to_nat m) (take (Z.to_nat left) src) = take (Z.to_nat m) src) as -> by (rewrite take_take; f_equal; lia).
  assert (drop (Z.to_nat m) (take (Z.to_nat left) src) = take (Z.to_nat (left - m)) (drop (Z.to_nat m) src)) as ->.
  { rewrite take_drop_commute. do 2 f_equal. lia. }
  repeat (rewrite bind_unfold; cbv beta iota; rewrite bind_unfold; cbv beta iota;
    match goal with |- match ?c with _ => _ end = _ => destruct c; [|done..] end).
  apply IH. lia.
Qed.

Lemma writei_take i src off n ip s :
  get_ip i s = ip -> i_type ip <> T_DEV -> 0 <= off -> writei i src off n [] s = writei i (take (Z.to_nat n) src) off n [] s.
Proof.
  intros Hip Ht H0. unfold writei, ip_. rewrite !bind_unfold, !gets_run. cbv beta iota. rewrite Hip, (proj2 (Z.eqb_neq _ _)) by done.
  destruct (_ || _); [done|]. destruct (_ <? _); [done|]. rewrite !bind_unfold. by rewrite writei_loop_take.
Qed.

(** ** The locks of inodes *)

Section locks.
Context (s : kst) (i : nat) (ip : inode) (n : Z).
Hypothesis Hip : k_icache s !! i = Some ip.
Hypothesis Hc : current (get_part s) n.

Lemma ilock_get_put l : ilock_of i (put_ilock i l s) = l.
Proof. unfold ilock_of, get_ip, put_ilock, upd_ip. cbn. by rewrite list_lookup_alter_eq, Hip. Qed.

Lemma ilock_put_put l l' : put_ilock i l (put_ilock i l' s) = put_ilock i l s.
Proof.
  unfold put_ilock, upd_ip. cbn. unfold set_k_icache. cbn. f_equal. rewrite list_alter_alter_eq. by apply list_alter_ext.
Qed.

Lemma acquire_inode_run : slocked (i_lock ip) = 0 -> acquire_inode i [] s = Ret tt [] (put_ip i (set_i_lock (mkSleeplock 1 n) ip) s).
Proof.
  intros Hl. rewrite <- (upd_put_ip s i ip (set_i_lock (mkSleeplock 1 n)) Hip).
  apply (acquiresleep_free (ilock_of i) (put_ilock i)); try done.
  - apply ilock_get_put.
  - apply ilock_put_put.
  - unfold ilock_of. by rewrite (get_ip_Some _ _ _ Hip).
Qed.

(** [ilock] of an inode that has been read from disk. *)
Lemma ilock_run :
  1 <= i_ref ip -> slocked (i_lock ip) = 0 -> i_valid ip <> 0 ->
  ilock i [] s = Ret tt [] (put_ip i (set_i_lock (mkSleeplock 1 n) ip) s).
Proof.
  intros Hr Hl Hv. unfold ilock, ip_. repeat kstep_base. rewrite (get_ip_Some _ _ _ Hip). rewrite (proj2 (Z.ltb_ge _ _)) by lia.
  run_with (acquire_inode_run Hl). repeat kstep_base.
  rewrite (get_ip_Some _ _ _ (put_ip_lookup _ _ _ _ Hip)). cbn [i_valid set_i_lock]. by rewrite (proj2 (Z.eqb_neq _ _)).
Qed.

Lemma iunlock_run :
  1 <= i_ref ip -> i_lock ip = mkSleeplock 1 n ->
  exists t, iunlock i [] s = Ret tt [] (put_part t (put_ip i (set_i_lock (mkSleeplock 0 0) ip) s)) /\ woke (get_part s) t.
Proof.
  intros Hr Hl. eexists. split; [|apply woke_wakeup].
  assert (holding_inode i [] s = Ret true [] s) as Rh.
  { eapply (holdingsleep_held (ilock_of i)); [exact Hc|]. unfold ilock_of. by rewrite (get_ip_Some _ _ _ Hip). }
  unfold iunlock, ip_. run_with Rh. repeat kstep_base. rewrite (get_ip_Some _ _ _ Hip), (proj2 (Z.ltb_ge _ _)) by lia. cbn [negb orb].
  rewrite <- (upd_put_ip s i ip (set_i_lock (mkSleeplock 0 0)) Hip). by apply (releasesleep_run (put_ilock i)).
Qed.
End locks.

(** ** One transaction of filewrite *)

(** File [f] is open on the inode [ip], which is in the cache and not locked,
    and no operation of the file system is in progress. *)
Record ready (s : kst) (n : Z) (d0 : Z) (f : nat) (x : file) (ip : inode) : Prop := {
  rd_fs : fs_idle s n d0;
  rd_file : k_ftable s !! f = Some x;
  rd_type : f_type x = FD_INODE;
  rd_ip : k_icache s !! f_ip x = Some ip;
  rd_dev : i_dev ip = 1;
  rd_ref : 1 <= i_ref ip;
  rd_lock : i_lock ip = initsleeplock;
  rd_valid : i_valid ip <> 0;
  rd_kind : i_type ip <> T_DEV;
  rd_ok : inode_ok (k_sb s) d0 (kdisk s) ip;
  rd_off : 0 <= f_off x <= i_size ip }.

Definition write_round (f : nat) (src : list Z) (n1 : Z) : K kst Z :=
  kbegin_op;;
  x ← file_ f;
  ilock (f_ip x);;
  y ← file_ f;
  r ← writei (f_ip x) src (f_off y) n1;
  when (0 <? r) (mod_f f (fun x => set_f_off (u32 (f_off x + r)) x));;
  iunlock (f_ip x);;
  kend_op;;
  mret r.

(** The state with [x] in entry [f] of the file table. *)
Definition put_f (f : nat) (x : file) (s : kst) : kst := set_k_ftable (alter (fun _ => x) f (k_ftable s)) s.

Lemma mod_f_run f g x h s : k_ftable s !! f = Some x -> mod_f f g h s = Ret tt h (put_f f (g x) s).
Proof.
  intros H. unfold mod_f. rewrite modify_run. do 2 f_equal. unfold put_f. f_equal. apply list_alter_ext; [|done].
  intros y Hy. rewrite H in Hy. by injection Hy as <-.
Qed.

Lemma get_f_Some s f x : k_ftable s !! f = Some x -> get_f f s = x.
Proof. intros H. unfold get_f. by rewrite H. Qed.

Lemma put_f_same s f x : k_ftable s !! f = Some x -> put_f f x s = s.
Proof.
  intros H. transitivity (set_k_ftable (alter id f (k_ftable s)) s); [|rewrite list_alter_id by done; by destruct s].
  unfold put_f. f_equal. apply list_alter_ext; [|done]. intros y Hy. rewrite H in Hy. by injection Hy as <-.
Qed.

Lemma put_f_lookup s f x y : k_ftable s !! f = Some x -> k_ftable (put_f f y s) !! f = Some y.
Proof. intros H. cbn. by rewrite list_lookup_alter_eq, H. Qed.

(** Waking processes is nothing to the log. *)
Lemma woke_inside l n V B t :
  log_inv l n [] V B -> woke (btable (lbio l)) t -> log_inv (put_part t l) n [] V B /\ inside l (put_part t l).
Proof.
  intros [H1 H2 H3 H4 H5 H6 H7 H8] Ht. split; [split; try done; by apply bio_inv_table|].
  split; [|done|done]. split; [done|by rewrite app_nil_r|done|done].
Qed.

Lemma fs_current {w} s n H V B d0 : fs_inv_ w s n H V B d0 -> current (get_part s) n.
Proof. intros I. apply (fi_log _ _ _ _ _ _ I). Qed.

(** From [begin_op] to [iunlock]. *)
Lemma write_body_run s n d0 f x ip src m0 :
  ready s n d0 f x ip -> (0 < length src)%nat -> Z.of_nat (length src) <= max_write -> f_off x + Z.of_nat (length src) <= MAXFILE * BSIZE ->
  nfree (k_sb s) (kdisk s) (8 + m0) ->
  let n1 := Z.of_nat (length src) in
  let ip1 := set_i_lock (mkSleeplock 1 n) ip in
  exists l0 l V' ip' B', kbegin_op [] s = Ret tt [] (s ◁ l0) /\ ilock (f_ip x) [] (s ◁ l0) = Ret tt [] (put_ip (f_ip x) ip1 (s ◁ l0)) /\
    writei (f_ip x) src (f_off x) n1 [] (put_ip (f_ip x) ip1 (s ◁ l0)) = Ret n1 [] (put_ip (f_ip x) ip' (s ◁ l)) /\
    file_at (put_ip (f_ip x) ip' (s ◁ l)) n V' B' d0 (f_ip x) ip' /\ inside (put_log (set_outstanding 1 (llog (k_lst s))) (k_lst s)) l /\
    write_done (k_sb s) d0 (kdisk s) ip1 (f_off x) src V' ip' /\ (size B' <= 7)%nat /\
    (forall c, c ∈ B' -> sb_inodestart (k_sb s) <= c) /\ nfree (k_sb s) V' m0.
Proof.
  intros [Hfs Hf Ht Hip Hdev Hr Hl Hv Hk Hok Hoff] Hpos Hmax Hend Hfree n1 ip1. set (i := f_ip x) in *.
  destruct (kbegin_op_run s n d0 Hfs) as (l0 & R0 & I0 & E0).
  pose proof (ilock_run (s ◁ l0) i ip n Hip (fs_current _ _ _ _ _ _ I0) Hr ltac:(by rewrite Hl) Hv) as R1. fold ip1 in R1.
  assert (file_at (put_ip i ip1 (s ◁ l0)) n (kdisk s) ∅ d0 i ip1) as A1.
  { split; [destruct I0; by split|by apply (put_ip_lookup (s ◁ l0) i ip)|done|apply Hok]. }
  change max_write with 1536 in Hmax. pose proof (weight_bounds (k_sb s) (kdisk s) (i_addrs ip1) ∅) as Hw. rewrite size_empty in Hw.
  pose proof (Z.mod_pos_bound (f_off x) BSIZE ltac:(done)) as Hmod. pose proof (Z.div_pos n1 BSIZE ltac:(lia) ltac:(done)) as Hdiv.
  assert (exists b, enough (f_off x) n1 b /\ (b <= Z.to_nat (n1 / BSIZE + 2))%nat /\ (b <= 4)%nat) as (b & Hb1 & Hb2 & Hb3).
  { exists (Z.to_nat (Z.min (n1 / BSIZE + 2) 4)). split_and!; [|lia|lia]. right.
    pose proof (Z.div_mod n1 BSIZE ltac:(done)). pose proof (Z.mod_pos_bound n1 BSIZE ltac:(done)). unfold BSIZE in *. lia. }
  destruct (writei_run (put_ip i ip1 (s ◁ l0)) n (kdisk s) ∅ d0 i ip1 A1 (inode_ok_lock _ _ _ _ _ Hok) Hk src (f_off x) b m0)
    as (l & V' & ip' & B' & R2 & A2 & N2 & W2 & Hs2 & HB2 & Hf2); [done|done|done|done| |change (k_sb (put_ip i ip1 (s ◁ l0))) with (k_sb s); lia|].
  { eapply nfree_weaken; [exact Hfree|lia]. }
  change (put_ip i ip1 (s ◁ l0) ◁ l) with (put_ip i ip1 (s ◁ l)) in *. rewrite put_ip_twice in *.
  exists l0, l, V', ip', B'.
  split_and!; [exact R0|exact R1|exact R2|exact A2|by rewrite <- E0|exact W2|change (k_sb (put_ip i ip1 (s ◁ l0))) with (k_sb s) in Hs2; lia| |exact Hf2].
  intros c Hc. destruct (HB2 c Hc) as [?%not_elem_of_empty|?]; done.
Qed.

(** What a machine that stops during the transaction finds on its disk: above
    the log either [D] or [D'], and [D'] when all writes [tr] were made. *)
Definition crash_atomic (sb : superblock) (size : Z) (D D' : Z -> block) (tr : list (Z * block)) : Prop :=
  forall k E t m, rtc (crash_reboot size) (apply_writes (take k tr) D) E -> current t m ->
    exists sr, initlog 1 [] (boot E size t) = Ret tt [] sr /\
      ((forall c, sb_inodestart sb <= c -> disk (lbio sr) c = D c) \/ (forall c, sb_inodestart sb <= c -> disk (lbio sr) c = D' c)) /\
      ((length tr <= k)%nat -> forall c, sb_inodestart sb <= c -> disk (lbio sr) c = D' c).

(** The blocks above the log are not in it. *)
Lemma above_log s n d0 c : fs_idle s n d0 -> sb_inodestart (k_sb s) <= c -> ~ in_log (llog (k_lst s)) c.
Proof. intros Hfs Hc. pose proof (ly_log _ _ _ _ (fz_lay _ _ _ Hfs)). unfold in_log. lia. Qed.

(** The file system is idle again when the transaction has been committed. *)
Lemma fs_idle_after s s1 s' n V B d0 tr :
  fs_idle s n d0 -> inside (put_log (set_outstanding 1 (llog (k_lst s))) (k_lst s)) (k_lst s1) -> fs_inv s1 n [] V B d0 ->
  k_sb s1 = k_sb s -> k_sb s' = k_sb s -> idle (k_lst s') n -> ran (lbio (k_lst s)) (lbio (k_lst s')) tr ->
  l_start (llog (k_lst s')) = l_start (llog (k_lst s)) -> (forall c, ~ in_log (llog (k_lst s)) c -> kdisk s' c = V c) -> 1 ∉ B ->
  fs_idle s' n d0.
Proof.
  intros Hfs N1 I1 E1 E' Hid N Hst Hd H1. pose proof (ly_order _ _ _ _ (fz_lay _ _ _ Hfs)). pose proof (ly_log _ _ _ _ (fz_lay _ _ _ Hfs)).
  assert (V 1 = kdisk s 1) as Ev.
  { transitivity (disk (lbio (k_lst s1)) 1); [|by rewrite (inside_disk _ _ N1)]. eapply view_disk; [apply I1|apply not_elem_of_nil|done]. }
  unfold kdisk in *. split; rewrite ?E'.
  - done.
  - rewrite (rn_size _ _ _ N), Hst. apply Hfs.
  - intros b Hb. unfold used. rewrite Hd by (apply (above_log _ _ _ _ Hfs); lia). rewrite <- E1. by apply I1.
  - rewrite Hd by (unfold in_log; lia). rewrite Ev, Hst. apply Hfs.
Qed.

Lemma write_round_run s n d0 f x ip src m0 :
  ready s n d0 f x ip -> (0 < length src)%nat -> Z.of_nat (length src) <= max_write -> f_off x + Z.of_nat (length src) <= MAXFILE * BSIZE ->
  nfree (k_sb s) (kdisk s) (8 + m0) ->
  let n1 := Z.of_nat (length src) in
  let x' := set_f_off (f_off x + n1) x in
  exists l ip' tr, let s' := put_f f x' (put_ip (f_ip x) ip' (s ◁ l)) in
    write_round f src n1 [] s = Ret n1 [] s' /\ ready s' n d0 f x' ip' /\
    write_done (k_sb s) d0 (kdisk s) ip (f_off x) src (kdisk s') ip' /\ nfree (k_sb s) (kdisk s') m0 /\
    ran (lbio (k_lst s)) (lbio l) tr /\ crash_atomic (k_sb s) (disksize (lbio (k_lst s))) (kdisk s) (kdisk s') tr /\
    l_start (llog l) = l_start (llog (k_lst s)) /\ heads_fit (l_start (llog (k_lst s))) 7 tr.
Proof.
  intros Hrd Hpos Hmax Hend Hfree n1 x'. pose proof Hrd as [Hfs Hf Ht Hip Hdev Hr Hl Hv Hk Hok Hoff]. set (i := f_ip x) in *.
  destruct (write_body_run s n d0 f x ip src m0 Hrd Hpos Hmax Hend Hfree) as (l0 & l & V' & ip1 & B' & Ra & Rb & Rc & A1 & N1 & W1 & Hs1 & HB1 & Hf1). fold i in Rb, Rc, A1.
  pose proof (wd_ip _ _ _ _ _ _ _ _ W1) as Eip. set (S1 := put_ip i ip1 (s ◁ l)) in *.
  assert (i_ref ip1 = i_ref ip /\ i_lock ip1 = mkSleeplock 1 n /\ i_dev ip1 = i_dev ip /\ i_valid ip1 = i_valid ip /\ i_type ip1 = i_type ip /\
    i_size ip1 = Z.max (i_size ip) (f_off x + n1)) as (Er & El & Ed & Ev & Ek & Es) by (rewrite Eip; done).
  set (ip2 := set_i_lock (mkSleeplock 0 0) ip1).
  pose proof (fs_current _ _ _ _ _ _ (fa_fs _ _ _ _ _ _ _ A1)) as Hc1.
  destruct (iunlock_run (put_f f x' S1) i ip1 n (fa_ip _ _ _ _ _ _ _ A1) Hc1 ltac:(lia) El) as (t & R2 & Ht2). fold ip2 in R2.
  destruct (woke_inside l n V' B' t (fi_log _ _ _ _ _ _ (fa_fs _ _ _ _ _ _ _ A1)) Ht2) as [I2 N2].
  pose proof (ly_order _ _ _ _ (fz_lay _ _ _ Hfs)) as Hord. pose proof (ly_log _ _ _ _ (fz_lay _ _ _ Hfs)) as Hll.
  assert (1 ∉ B') as H1 by (intros H1%HB1; unfold LOGSIZE in *; lia). pose proof (fun c => above_log s n d0 c Hfs) as Hout.
  destruct (end_op_crash (k_lst s) (put_part t l) n V' B' (fz_log _ _ _ Hfs)) as (l3 & tr & R3 & Hid3 & N3 & Hst3 & Hd3 & Hfit & Hcr).
  { etrans; [exact N1|exact N2]. }
  { exact I2. }
  { exact H1. }
  { apply Hfs. }
  assert (write_done (k_sb s) d0 (kdisk s) ip (f_off x) src (disk (lbio l3)) ip2) as W3.
  { eapply write_done_agree; [apply Hfs|intros c Hc; by apply Hd3, Hout|]. by eapply write_done_lock. }
  assert (nfree (k_sb s) (disk (lbio l3)) m0) as Hf3 by (eapply nfree_same; [exact Hf1|apply Hd3, Hout; lia]).
  exists l3, ip2, tr. fold i. intros s'. change (kdisk s') with (disk (lbio l3)).
  assert (write_round f src n1 [] s = Ret n1 [] s') as Rr.
  { unfold write_round, file_. run_with Ra. rewrite bind_unfold, gets_run. cbv beta iota. rewrite (get_f_Some (s ◁ l0) f x Hf). fold i.
    run_with Rb. rewrite bind_unfold, gets_run. cbv beta iota. rewrite (get_f_Some (put_ip i _ (s ◁ l0)) f x Hf).
    fold n1 in Rc. run_with Rc. rewrite (proj2 (Z.ltb_lt _ _)) by lia. cbn [when]. run_with (mod_f_run f (fun x => set_f_off (u32 (f_off x + n1)) x) x [] S1 Hf).
    rewrite u32_id by (unfold MAXFILE, NDIRECT, NINDIRECT, BSIZE in *; lia). fold x'. run_with R2.
    unfold kend_op. run_with (lift_lst end_op [] (put_part t (put_ip i ip2 (put_f f x' S1))) tt [] l3 R3). rewrite mret_run. f_equal.
    transitivity (put_f f x' (put_ip i ip2 (put_ip i ip1 (s ◁ l3)))); [done|]. by rewrite put_ip_twice. }
  split_and!; [exact Rr| |exact W3|exact Hf3|exact N3| |exact Hst3|intros d Hd; specialize (Hfit d Hd); lia].
  - pose proof (wd_ok _ _ _ _ _ _ _ _ W3) as Ok3. split; cbn [k_ftable k_icache]; try done.
    + by apply (fs_idle_after s S1 s' n V' B' d0 tr Hfs N1 (fa_fs _ _ _ _ _ _ _ A1)).
    + by apply (put_f_lookup _ _ x).
    + by apply (put_ip_lookup (s ◁ l3) i ip).
    + change (i_dev ip1 = 1). congruence.
    + change (1 <= i_ref ip1). lia.
    + change (i_valid ip1 <> 0). congruence.
    + change (i_type ip1 <> T_DEV). congruence.
    + change (0 <= f_off x + n1 <= i_size ip1). lia.
  - intros k E t' m Hreb Hcur. destruct (Hcr k E t' m Hreb Hcur) as (sr & Rsr & Hcase & Hfull). exists sr. split; [exact Rsr|]. clear Rsr.
    split; [|intros Hkk c Hcc; rewrite Hd3 by (by apply Hout); apply Hfull; [done|by apply Hout]].
    destruct Hcase as [Hc|Hc]; [left|right]; intros c Hcc; rewrite Hc by (by apply Hout); [done|]. by rewrite Hd3 by (by apply Hout).
Qed.

(** ** The loop of filewrite *)

Lemma write_done_app sb d0 V ip off bs1 V1 ip1 bs2 V2 ip2 :
  0 <= off <= i_size ip -> write_done sb d0 V ip off bs1 V1 ip1 ->
  write_done sb d0 V1 ip1 (off + Z.of_nat (length bs1)) bs2 V2 ip2 -> write_done sb d0 V ip off (bs1 ++ bs2) V2 ip2.
Proof.
  intros Hoff [A1 A2 A3 A4] [B1 B2 B3 B4]. split; [done|..].
  - rewrite B2, A2. rewrite length_app. unfold set_i_size, set_i_addrs. cbn. f_equal. lia.
  - rewrite B3, A3, Z2Nat.inj_add, Nat2Z.id by lia. apply splice_splice; [done|]. unfold bytes_of. rewrite length_content. lia.
  - intros jp Oj Dj. destruct (A4 jp Oj Dj) as (J1 & J2 & J3). destruct (B4 jp J1 J3) as (K1 & K2 & K3). split_and!; [done|congruence|done].
Qed.

Lemma write_round_take f src n1 s n d0 x ip :
  ready s n d0 f x ip -> write_round f src n1 [] s = write_round f (take (Z.to_nat n1) src) n1 [] s.
Proof.
  intros [Hfs Hf Ht Hip Hdev Hr Hl Hv Hk Hok Hoff]. unfold write_round, file_.
  destruct (kbegin_op_run s n d0 Hfs) as (l0 & R0 & I0 & E0). rewrite !bind_unfold, R0. cbv beta iota. rewrite !bind_unfold, !gets_run. cbv beta iota.
  rewrite (get_f_Some (s ◁ l0) f x Hf).
  pose proof (ilock_run (s ◁ l0) (f_ip x) ip n Hip (fs_current _ _ _ _ _ _ I0) Hr ltac:(by rewrite Hl) Hv) as R1.
  rewrite !bind_unfold, R1. cbv beta iota. rewrite !bind_unfold, !gets_run. cbv beta iota.
  rewrite (get_f_Some (put_ip (f_ip x) _ (s ◁ l0)) f x Hf). rewrite !bind_unfold.
  rewrite (writei_take (f_ip x) src (f_off x) n1 (set_i_lock (mkSleeplock 1 n) ip)); [done| |done|lia].
  apply get_ip_Some. by apply (put_ip_lookup (s ◁ l0) _ ip).
Qed.

Lemma filewrite_loop_S fuel f addr i n h s s' :
  i < n -> let n1 := Z.min (n - i) max_write in
  write_round f (drop (Z.to_nat i) addr) n1 h s = Ret n1 h s' ->
  filewrite_loop (S fuel) f addr i n h s = filewrite_loop fuel f addr (i + n1) n h s'.
Proof.
  intros Hi n1 R. cbn [filewrite_loop]. rewrite (proj2 (Z.leb_gt _ _)) by lia. fold n1. unfold write_round in R.
  repeat (rewrite bind_unfold in R; rewrite bind_unfold; cbv beta iota in R |- *;
    match type of R with match ?c with _ => _ end = _ => destruct c; [|done..] end).
  rewrite mret_run in R. injection R as -> -> ->. change max_write with 1536 in *. rewrite (proj2 (Z.ltb_ge _ _)), Z.eqb_refl by lia. done.
Qed.

Lemma write_done_nil sb d0 V ip off : inode_ok sb d0 V ip -> 0 <= off <= i_size ip -> write_done sb d0 V ip off [] V ip.
Proof.
  intros Ok Hoff. split; [done| | |done].
  - cbn [length Z.of_nat]. rewrite Z.max_l by lia. by destruct ip.
  - unfold splice. cbn [length app]. by rewrite Nat.add_0_r, take_drop.
Qed.

Lemma filewrite_loop_run fuel s n d0 f x ip addr i cnt :
  ready s n d0 f x ip -> 0 <= i <= cnt -> Z.of_nat (length addr) = cnt -> cnt - i <= max_write * Z.of_nat fuel ->
  f_off x + (cnt - i) <= MAXFILE * BSIZE -> nfree (k_sb s) (kdisk s) (8 * fuel) ->
  exists s' ip' tr, filewrite_loop fuel f addr i cnt [] s = Ret cnt [] s' /\ k_sb s' = k_sb s /\
    ready s' n d0 f (set_f_off (f_off x + (cnt - i)) x) ip' /\
    write_done (k_sb s) d0 (kdisk s) ip (f_off x) (drop (Z.to_nat i) addr) (kdisk s') ip' /\
    (forall g, g <> f -> k_ftable s' !! g = k_ftable s !! g) /\
    ran (lbio (k_lst s)) (lbio (k_lst s')) tr /\ heads_fit (l_start (llog (k_lst s))) 7 tr.
Proof.
  revert s x ip i. induction fuel as [|fuel IH]; intros s x ip i Hrd Hi Hlen Hfu Hend Hfree.
  all: destruct (decide (i = cnt)) as [->|Hne];
    [exists s, ip, []; split_and!; [by cbn; rewrite Z.leb_refl|done| | |done|apply ran_refl|by intros ? ?%not_elem_of_nil]|].
  1,4: by rewrite Z.sub_diag, Z.add_0_r; destruct x.
  1,3: rewrite drop_ge by lia; apply write_done_nil; apply Hrd.
  { change max_write with 1536 in *. lia. }
  set (n1 := Z.min (cnt - i) max_write). assert (0 < n1 <= cnt - i /\ n1 <= max_write) as Hn1 by (unfold n1; change max_write with 1536; lia).
  assert (n1 = Z.min (cnt - i) max_write) as En1 by done. change max_write with 1536 in Hfu, En1.
  set (src := take (Z.to_nat n1) (drop (Z.to_nat i) addr)).
  assert (Z.of_nat (length src) = n1) as Hsrc by (unfold src; rewrite length_take, length_drop; lia).
  destruct (write_round_run s n d0 f x ip src (8 * fuel) Hrd) as (l & ip1 & tr & R & Hrd1 & W1 & Hf1 & N1 & _ & Est & Hfit);
    [lia|lia|lia|eapply nfree_weaken; [exact Hfree|lia]|]. rewrite Hsrc in R, Hrd1. set (s1 := put_f f _ _) in *.
  rewrite Hsrc in *. fold s1 in R, Hrd1, W1, Hf1.
  destruct (IH s1 _ ip1 (i + n1) Hrd1) as (s2 & ip2 & tr2 & R2 & Esb & Hrd2 & W2 & Hg & N2 & Hfit2); [lia|done|change max_write with 1536; lia|cbn [f_off set_f_off]; lia|done|].
  change (lbio (k_lst s1)) with (lbio l) in N2. change (llog (k_lst s1)) with (llog l) in Hfit2. rewrite Est in Hfit2.
  exists s2, ip2, (tr ++ tr2). split_and!; [|done| | |intros g Hgf; rewrite Hg by done; cbn; by rewrite list_lookup_alter_ne|by eapply ran_trans|by apply heads_fit_app].
  - rewrite (filewrite_loop_S fuel f addr i cnt [] s s1); [exact R2|lia|]. fold n1. rewrite (write_round_take f _ n1 s n d0 x ip Hrd). exact R.
  - cbn [f_off set_f_off] in Hrd2. replace (f_off x + n1 + (cnt - (i + n1))) with (f_off x + (cnt - i)) in Hrd2 by lia. exact Hrd2.
  - rewrite <- (take_drop (Z.to_nat n1) (drop (Z.to_nat i) addr)). fold src. eapply write_done_app; [apply Hrd|exact W1|].
    rewrite Hsrc, drop_drop. replace (Z.to_nat i + Z.to_nat n1)%nat with (Z.to_nat (i + n1)) by lia. exact W2.
Qed.

(** ** fileread *)

Lemma fs_idle_read s s' n d0 :
  fs_idle s n d0 -> inside (k_lst s) (k_lst s') -> log_inv (k_lst s') n [] (kdisk s) ∅ -> k_sb s' = k_sb s -> fs_idle s' n d0 /\ kdisk s' = kdisk s.
Proof.
  intros [[H1 H2] H3 H4 H5] N Il E. pose proof (inside_disk _ _ N) as Ed. split; [|exact Ed].
  split; rewrite ?E, ?Ed, ?(inside_size _ _ N), ?(in_start _ _ N); try done. split; [by rewrite Ed|by rewrite (in_out _ _ N)].
Qed.

Lemma fileread_run s n d0 f x ip cnt :
  ready s n d0 f x ip -> f_readable x <> 0 -> 0 <= cnt < 2 ^ 31 ->
  let m := Z.min cnt (i_size ip - f_off x) in
  exists s', fileread f cnt [] s = Ret (m, take (Z.to_nat m) (drop (Z.to_nat (f_off x)) (bytes_of (kdisk s) ip))) [] s' /\
    ready s' n d0 f (set_f_off (f_off x + m) x) ip /\ kdisk s' = kdisk s /\ k_sb s' = k_sb s.
Proof.
  intros Hrd Hrw Hcnt m. pose proof Hrd as [Hfs Hf Ht Hip Hdev Hr Hl Hv Hk Hok Hoff]. set (i := f_ip x) in *.
  pose proof (io_size _ _ _ _ Hok) as Hsz. unfold MAXFILE, NDIRECT, NINDIRECT, BSIZE in Hsz.
  pose proof (idle_seen s n d0 Hfs) as I0.
  pose proof (ilock_run s i ip n Hip (fs_current _ _ _ _ _ _ I0) Hr ltac:(by rewrite Hl) Hv) as R1.
  set (ip1 := set_i_lock (mkSleeplock 1 n) ip) in *.
  assert (file_at_ false (put_ip i ip1 s) n (kdisk s) ∅ d0 i ip1) as A1.
  { split; [destruct I0; by split|by apply (put_ip_lookup s i ip)|done|apply Hok]. }
  destruct (readi_run (put_ip i ip1 s) n (kdisk s) ∅ d0 i ip1 A1 (inode_ok_lock _ _ _ _ _ Hok) Hk (f_off x) cnt) as (l & R2 & I2 & N2);
    [done|lia|cbn; lia|rewrite size_empty; unfold NBUF; lia|].
  change (put_ip i ip1 s ◁ l) with (put_ip i ip1 (s ◁ l)) in R2.
  change (Z.min cnt (i_size ip1 - f_off x)) with m in R2. change (bytes_of (kdisk s) ip1) with (bytes_of (kdisk s) ip) in R2. set (x' := set_f_off (f_off x + m) x).
  assert (when (0 <? m) (mod_f f (fun x => set_f_off (u32 (f_off x + m)) x)) [] (put_ip i ip1 (s ◁ l)) = Ret tt [] (put_f f x' (put_ip i ip1 (s ◁ l)))) as R3.
  { destruct (Z.ltb_spec 0 m); cbn [when].
    - rewrite (mod_f_run f _ x) by done. by rewrite u32_id by lia.
    - rewrite (put_f_same _ f) by (unfold x'; replace (f_off x + m) with (f_off x) by lia; by destruct x). done. }
  destruct (iunlock_run (put_f f x' (put_ip i ip1 (s ◁ l))) i ip1 n) as (t & R4 & Ht4);
    [by apply (put_ip_lookup (s ◁ l) i ip)|apply (li_bio _ _ _ _ _ I2)|done|done|].
  assert (set_i_lock (mkSleeplock 0 0) ip1 = ip) as Eip by (destruct ip; cbn in Hl; by rewrite Hl). rewrite Eip in R4.
  destruct (woke_inside l n (kdisk s) ∅ t I2 Ht4) as [I4 N4].
  set (s' := put_part t (put_ip i ip (put_f f x' (put_ip i ip1 (s ◁ l))))) in *.
  destruct (fs_idle_read s s' n d0 Hfs) as [Hfs' Ed]; [etrans; [exact N2|exact N4]|exact I4|done|].
  exists s'. split_and!; [| |exact Ed|done].
  - unfold fileread, file_. rewrite bind_unfold, gets_run. cbv beta iota. rewrite (get_f_Some s f x Hf), (proj2 (Z.eqb_neq _ _)), Ht by done. fold i.
    run_with R1. rewrite bind_unfold, gets_run. cbv beta iota. rewrite (get_f_Some (put_ip i ip1 s) f x Hf), (u32_id cnt) by lia.
    run_with R2. run_with R3. by run_with R4.
  - split; try done.
    + by apply (put_f_lookup _ _ x).
    + by apply (put_ip_lookup _ i ip1), (put_ip_lookup (s ◁ l) i ip).
    + by rewrite Ed.
    + cbn. lia.
Qed.
