(* ===== verification/Mkfsmain.v ===== *)
(** * What mkfs writes is what the kernel reads

    The whole run of mkfs, and the files that a kernel finds on its image. *)

From Stdlib Require Import ZArith Lia String.
From stdpp Require Import prelude numbers strings option gmap list.
From S2P Require Import Prelude Kernel Mem Sched Monitor Sleeplock Bio Log Logcrash Logtxn Console Kst Inode Fsblock Fsfile Fsinode Device Fs Fsio Fseq Fscrash Mkfs Mkfsok File Filewrite.

(** ** Copying the files *)

(** A file to copy: its name and what the calls of [read] return until the end. *)
Abbreviation source := (list Z * list (list Z))%type.
Definition bytes (f : source) : list Z := concat f.2.

(** The entries of the root directory for the files from inode [n] on. *)
Fixpoint entries (n : Z) (files : list source) : list Z :=
  match files with
  | [] => []
  | f :: files => dirent_of n (drop_underscore f.1) ++ entries (n + 1) files
  end.

Definition contents (files : list source) : list (Z * list Z) := (fun f => (T_FILE, bytes f)) <$> files.

(** A file that mkfs can copy. *)
Record copyable (f : source) : Prop := {
  cp_name : SLASH ∉ f.1;
  cp_reads : Forall (fun r => r <> []) f.2;
  cp_size : Z.of_nat (length (bytes f)) <= MAXFILE * BSIZE }.

Lemma total_nonneg L : 0 <= total L.
Proof.
  unfold total. induction L as [|f L IH]; cbn; [lia|]. pose proof (nblocks_mono 0 (Z.of_nat (length f.2)) ltac:(lia)).
  change (nblocks_of 0) with 0 in *. lia.
Qed.

Lemma total_grow L i t bs bs' : L !! i = Some (t, bs) -> (length bs <= length bs')%nat -> total L <= total (<[i := (t, bs')]> L).
Proof. intros Hi Hl. rewrite (total_insert _ _ _ _ Hi). cbn [snd]. pose proof (nblocks_mono (Z.of_nat (length bs)) (Z.of_nat (length bs')) ltac:(lia)). lia. Qed.

Lemma copy_reads_holds s L i t bs reads :
  let L' := <[i := (t, bs ++ concat reads)]> L in
  holds s L -> L !! i = Some (t, bs) -> Forall (fun r => r <> []) reads -> Z.of_nat (length (bs ++ concat reads)) <= MAXFILE * BSIZE ->
  59 + total L' <= 1000 -> exists s', copy_reads (Z.of_nat i + 1) reads s = Done tt s' /\ holds s' L'.
Proof.
  revert s L bs. induction reads as [|r reads IH]; intros s L bs L' H Hi Hr Hmax Hroom.
  - exists s. split; [done|]. unfold L'. cbn [concat]. by rewrite app_nil_r, list_insert_id.
  - inversion_clear Hr as [|? ? Hne Hr']. set (L1 := <[i := (t, bs ++ r)]> L). pose proof (lookup_lt_Some _ _ _ Hi) as Hlt. cbn [concat] in *.
    assert (L' = <[i := (t, (bs ++ r) ++ concat reads)]> L1) as EL by (unfold L', L1; rewrite list_insert_insert_eq, app_assoc; done).
    assert (L1 !! i = Some (t, bs ++ r)) as Hi1 by (by apply list_lookup_insert_eq).
    rewrite app_assoc in Hmax. rewrite EL in Hroom |- *. pose proof (total_grow L1 i t (bs ++ r) ((bs ++ r) ++ concat reads) Hi1 ltac:(rewrite (length_app (bs ++ r)); lia)).
    rewrite (length_app (bs ++ r)) in Hmax.
    destruct (iappend_holds s L i t bs r H Hi) as (s1 & R1 & H1); [destruct r; [done|cbn; lia]|lia|fold L1; lia|]. fold L1 in H1.
    destruct (IH s1 L1 (bs ++ r) H1 Hi1 Hr') as (s2 & R2 & H2); [rewrite (length_app (bs ++ r)); lia|done|].
    exists s2. split; [|done]. cbn [copy_reads]. by rewrite (bind_run _ _ _ _ _ R1).
Qed.

Lemma length_dirent n name : length (dirent_of n name) = 16%nat.
Proof.
  unfold dirent_of, mk_dirent. rewrite length_app, length_take, length_app, length_replicate. change (Z.to_nat DIRSIZ) with 14%nat. change (length (le16 (xshort n))) with 2%nat. lia.
Qed.

Lemma length_entries n files : length (entries n files) = (16 * length files)%nat.
Proof. revert n. induction files as [|f files IH]; intros n; [done|]. cbn [entries length]. rewrite length_app, length_dirent, IH. lia. Qed.

Lemma assert_run s : assert_ true s = Done tt s.
Proof. done. Qed.

Definition opened (f : source) : list Z * option (list (list Z)) := (f.1, Some f.2).

(** One file. *)
Lemma copy_file_holds s rb fs f files :
  let n := Z.of_nat (length fs) + 2 in
  let L' := (T_DIR, rb ++ dirent_of n (drop_underscore f.1)) :: fs ++ [(T_FILE, bytes f)] in
  holds s ((T_DIR, rb) :: fs) -> copyable f -> (length fs < 198)%nat -> Z.of_nat (length rb) <= 4096 -> 59 + total L' <= 1000 ->
  exists s', copy_files (opened f :: files) s = copy_files files s' /\ holds s' L'.
Proof.
  intros n L' H [C1 C2 C3] Hl Hrb Hroom. set (e := dirent_of n (drop_underscore f.1)) in *.
  pose proof (total_grow ((T_DIR, rb ++ e) :: fs ++ [(T_FILE, [])]) (S (length fs)) T_FILE [] (bytes f)) as Hg.
  destruct (ialloc_holds s _ T_FILE H) as (s1 & R1 & H1); [cbn; lia|done|]. rewrite <- app_comm_cons in H1. cbn [length] in R1.
  replace (Z.of_nat (S (length fs)) + 1) with n in R1 by lia.
  assert (((T_DIR, rb ++ e) :: fs ++ [(T_FILE, [])]) !! S (length fs) = Some (T_FILE, [])) as Hi by (rewrite lookup_cons; by rewrite lookup_app_r, Nat.sub_diag by lia).
  specialize (Hg Hi ltac:(cbn; lia)).
  assert (<[S (length fs) := (T_FILE, bytes f)]> ((T_DIR, rb ++ e) :: fs ++ [(T_FILE, [])]) = L') as EL.
  { change ((T_DIR, rb ++ e) :: <[length fs := (T_FILE, bytes f)]> (fs ++ [(T_FILE, [])]) = L'). unfold L'. by rewrite insert_app_r_alt, Nat.sub_diag by lia. }
  rewrite EL in Hg.
  destruct (iappend_holds s1 _ 0 T_DIR rb e H1 eq_refl) as (s2 & R2 & H2);
    [unfold e; rewrite length_dirent; lia|rewrite length_app; unfold e; rewrite length_dirent; unfold MAXFILE, NDIRECT, NINDIRECT, BSIZE; lia|cbn [insert list_insert]; lia|].
  cbn [insert list_insert] in H2.
  destruct (copy_reads_holds s2 _ (S (length fs)) T_FILE [] f.2 H2 Hi C2 C3) as (s3 & R3 & H3); [change ([] ++ concat f.2) with (bytes f); by rewrite EL|].
  change ([] ++ concat f.2) with (bytes f) in H3. rewrite EL in H3. exists s3. split; [|done].
  change (opened f) with (f.1, Some f.2). cbn [copy_files]. rewrite bool_decide_eq_false_2 by done. rewrite (bind_run _ _ _ _ _ (assert_run s)).
  rewrite (bind_run _ _ _ _ _ R1). fold e. change ROOTINO with (Z.of_nat 0 + 1). rewrite (bind_run _ _ _ _ _ R2).
  replace (Z.of_nat (S (length fs)) + 1) with n in R3 by lia. by rewrite (bind_run _ _ _ _ _ R3).
Qed.

Lemma total_cons t bs L : total ((t, bs) :: L) = nblocks_of (Z.of_nat (length bs)) + total L.
Proof. done. Qed.

Lemma copy_files_holds s rb fs files :
  let L' := (T_DIR, rb ++ entries (Z.of_nat (length fs) + 2) files) :: fs ++ contents files in
  holds s ((T_DIR, rb) :: fs) -> Forall copyable files -> (length fs + length files < 199)%nat -> Z.of_nat (length rb + 16 * length files) <= 4096 ->
  59 + total L' <= 1000 -> exists s', copy_files (opened <$> files) s = Done tt s' /\ holds s' L'.
Proof.
  revert s rb fs. induction files as [|f files IH]; intros s rb fs L' H Hc Hl Hrb Hroom.
  - exists s. split; [done|]. unfold L'. cbn [entries contents fmap list_fmap]. by rewrite !app_nil_r.
  - inversion_clear Hc as [|? ? Cf Cs]. cbn [length] in *. set (e := dirent_of (Z.of_nat (length fs) + 2) (drop_underscore f.1)).
    set (fs1 := fs ++ [(T_FILE, bytes f)]). assert (length fs1 = S (length fs)) as Hl1 by (unfold fs1; rewrite length_app; cbn; lia).
    assert (L' = (T_DIR, (rb ++ e) ++ entries (Z.of_nat (length fs1) + 2) files) :: fs1 ++ contents files) as EL.
    { rewrite Hl1. unfold L', fs1. cbn [entries contents fmap list_fmap]. fold e. rewrite <- !app_assoc. cbn [app].
      by replace (Z.of_nat (length fs) + 2 + 1) with (Z.of_nat (S (length fs)) + 2) by lia. }
    assert (length (rb ++ e) = (length rb + 16)%nat) as Hle by (rewrite length_app; unfold e; by rewrite length_dirent).
    rewrite EL in Hroom |- *. destruct (copy_file_holds s rb fs f (opened <$> files) H Cf) as (s1 & R1 & H1); [lia|lia| |].
    { fold e fs1. rewrite total_cons in *. rewrite total_app in Hroom. pose proof (total_nonneg (contents files)).
      pose proof (nblocks_mono (Z.of_nat (length (rb ++ e))) (Z.of_nat (length ((rb ++ e) ++ entries (Z.of_nat (length fs1) + 2) files)))) as Hm.
      rewrite (length_app (rb ++ e)) in *. lia. }
    destruct (IH s1 (rb ++ e) fs1 H1 Cs) as (s2 & R2 & H2); [lia|lia|done|]. exists s2. split; [|done].
    cbn [fmap list_fmap]. by rewrite R1.
Qed.

(** ** The size of the root directory *)

Lemma nb_pad off : 0 <= off -> off mod 512 <> 0 -> (off / 512 + 1) * 512 = 512 * nb off /\ nb (512 * nb off) = nb off /\ off < 512 * nb off.
Proof.
  intros H0 Hm. destruct (nb_spec off H0) as [H1 [[? _]|[_ H2]]]; [done|]. rewrite H2. split_and!; [lia|done|].
  pose proof (Z.div_mod off 512). pose proof (Z.mod_pos_bound off 512). lia.
Qed.

(** The bytes of a directory up to the end of its last block. *)
Definition padded (bs : list Z) : list Z := bs ++ replicate (Z.to_nat (512 * nb (Z.of_nat (length bs)) - Z.of_nat (length bs))) 0.

Lemma length_padded bs : Z.of_nat (length bs) mod 512 <> 0 -> Z.of_nat (length (padded bs)) = 512 * nb (Z.of_nat (length bs)).
Proof.
  intros Hm. unfold padded. rewrite length_app, length_replicate. destruct (nb_pad (Z.of_nat (length bs)) ltac:(lia) Hm) as (_ & _ & ?). lia.
Qed.

Lemma content_zeros V a off n : 0 <= n -> (forall o, off <= o < off + n -> fbyte V a o = 0) -> content V a off n = replicate (Z.to_nat n) 0.
Proof.
  intros Hn Hz. apply list_eq. intros j. destruct (decide (Z.of_nat j < n)).
  - rewrite content_lookup, Hz by lia. symmetry. apply lookup_replicate. split; [done|lia].
  - rewrite !lookup_ge_None_2; [done|rewrite length_replicate; lia|rewrite length_content; lia].
Qed.

Section pad.
Context (V : Z -> block) (inum t : Z) (bs : list Z).
Hypothesis Hlen : forall c, length (V c) = 512%nat.
Hypothesis H : has_file V inum t bs.
Hypothesis Hm : Z.of_nat (length bs) mod 512 <> 0.
Hypothesis Hmax : Z.of_nat (length bs) <= 4096.
#[local] Abbreviation jp := (set_i_size (512 * nb (Z.of_nat (length bs))) (kip V inum)).

Lemma pad_fits : fits jp.
Proof.
  destruct (hf_ok _ _ _ _ H) as [_ _ _ _ [F1 F2 F3 F4 F5 F6] _]. split; try done. cbn [i_size set_i_size]. apply u32_id.
  destruct (nb_pad (Z.of_nat (length bs)) ltac:(lia) Hm) as (<- & _ & _). pose proof (Z.div_le_mono (Z.of_nat (length bs)) 4096 512 ltac:(done) Hmax).
  pose proof (Z.div_pos (Z.of_nat (length bs)) 512). change (4096 / 512) with 8 in *. lia.
Qed.

Lemma pad_file W : kip W inum = jp -> (forall c, 58 <= c -> W c = V c) -> has_file W inum t (padded bs).
Proof.
  intros Hk Hw. destruct H as [H1 H2 H3 H4 H5 H6]. destruct (nb_pad (Z.of_nat (length bs)) ltac:(lia) Hm) as (N1 & N2 & N3).
  pose proof (same_data_high V W _ (io_file _ _ _ _ H1) Hw) as Hs. set (sz := Z.of_nat (length bs)) in *.
  assert (512 * nb sz <= 4608) as Hsz by (pose proof (Z.div_le_mono sz 4096 512 ltac:(done) Hmax); change (4096 / 512) with 8 in *; lia).
  pose proof (same_slot V W _ Hs) as Hsl.
  assert (mapped V (i_addrs (kip V inum)) 0 (512 * nb sz)) as Hmap.
  { intros o Ho. apply (pk_slot _ _ _ H6).
    - apply (block_index o). unfold MAXFILE, NDIRECT, NINDIRECT, BSIZE. lia.
    - apply Z.div_lt_upper_bound; unfold BSIZE; lia. }
  split; rewrite ?Hk, ?(length_padded bs Hm); cbn [i_type i_nlink i_size i_addrs set_i_size]; try done.
  - split; cbn [i_size i_addrs i_inum set_i_size]; [|unfold MAXFILE, NDIRECT, NINDIRECT, BSIZE; lia|..].
    + apply (file_ok_agree mk_sb 59 V); [apply H1|intros c Hc; apply Hw; lia|by apply Hw].
    + intros o Ho. rewrite Hsl. by apply Hmap.
    + apply H1.
    + apply pad_fits.
    + exact Hk.
  - unfold bytes_of, padded. cbn [i_size i_addrs set_i_size]. fold sz. replace (512 * nb sz) with (sz + (512 * nb sz - sz)) at 1 by lia.
    rewrite content_app by lia. f_equal.
    + rewrite <- H5. unfold bytes_of. rewrite H4. fold sz. pose proof (same_bytes mk_sb 59 V W _ H1 Hs) as E. unfold bytes_of in E. by rewrite H4 in E.
    + apply content_zeros; [lia|]. intros o Ho. rewrite Z.add_0_l in Ho. pose proof (packed_agree V W _ sz ltac:(unfold MAXFILE, NDIRECT, NINDIRECT, BSIZE; lia) Hs H6) as P. apply (pk_tail _ _ _ P). lia.
  - fold sz. split.
    + intros k Hin. rewrite N2, Hsl. by apply H6.
    + rewrite N2, Hsl. apply H6.
    + rewrite N2. lia.
Qed.
End pad.

Lemma root_size_holds s rb fs : holds s ((T_DIR, rb) :: fs) -> Z.of_nat (length rb) mod 512 <> 0 -> Z.of_nat (length rb) <= 4096 ->
  exists s', (forall B (g : M B), (din ← rinode ROOTINO;
    let off := xint (i_size din) in
    let off := u32 ((off / BSIZE + 1) * BSIZE) in
    winode ROOTINO (set_i_size (xint off) din);;
    g) s = g s') /\ holds s' ((T_DIR, padded rb) :: fs).
Proof.
  intros [I Hn Hm Hf Hd Hfr] Hmod Hmax. pose proof (Hf 0%nat _ _ eq_refl) as H. change (Z.of_nat 0 + 1) with ROOTINO in H.
  destruct (nb_pad (Z.of_nat (length rb)) ltac:(lia) Hmod) as (N1 & N2 & N3). set (sz := Z.of_nat (length rb)) in *.
  assert (0 <= 512 * nb sz <= 4608) as Hsz.
  { pose proof (Z.div_le_mono sz 4096 512 ltac:(done) Hmax). pose proof (Z.div_pos sz 512). change (4096 / 512) with 8 in *. lia. }
  set (jp := set_i_size (512 * nb sz) (kip (view s) ROOTINO)). pose proof (pad_fits (view s) _ _ rb H Hmod Hmax : fits jp) as Fit.
  pose proof (iblock_range ROOTINO ltac:(done)) as Hb. set (din := load_dinode (fsimg s (IBLOCK ROOTINO mk_sb)) (dino ROOTINO) inode0).
  assert (i_size din = sz) as Es by (unfold sz; rewrite <- (hf_size _ _ _ _ H); unfold kip; by rewrite view_other by lia).
  destruct (winode_run s ROOTINO (set_i_size (512 * nb sz) din) jp I ltac:(done) eq_refl) as (s1 & R1 & I1 & E1 & Hf1 & Hi1).
  { intros o d. unfold put_dinode, jp, din, kip. cbn [i_type i_major i_minor i_nlink i_size i_addrs set_i_size load_dinode]. by rewrite view_other by lia. }
  { apply (ft_addrs _ Fit). }
  pose proof (view_length s I) as Hlen. assert (0 <= i_inum jp < 200) as Hij by done.
  assert (forall c, 58 <= c -> view s1 c = view s c) as Hhigh by (intros c Hc; rewrite <- (E1 c); by rewrite (stored_high (view s) jp Hij)).
  assert (kip (view s1) ROOTINO = jp) as Hk by (rewrite <- E1; by apply (kip_stored (view s) jp Hlen Fit Hij)).
  assert (forall j, j <> 0%nat -> kip (view s1) (Z.of_nat j + 1) = kip (view s) (Z.of_nat j + 1)) as Hko.
  { intros j Hj. rewrite <- E1. apply (kip_stored_other (view s) jp Hlen Fit Hij); [lia|]. change (i_inum jp) with 1. lia. }
  exists s1. split.
  - intros B g. rewrite (bind_run _ _ _ din s); [|unfold rinode; by rewrite (bind_run _ _ _ _ _ (rsect_run (IBLOCK ROOTINO mk_sb) s I ltac:(lia)))].
    cbv zeta. rewrite Es. unfold xint, BSIZE. rewrite (u32_id sz), N1 by lia. rewrite !u32_id by (rewrite ?u32_id; lia).
    by rewrite (bind_run _ _ _ _ _ R1).
  - assert (forall j, (j < length ((T_DIR, rb) :: fs))%nat -> same_data (view s) (view s1) (i_addrs (kip (view s) (Z.of_nat j + 1)))) as Hsd.
    { intros j Hj. destruct (lookup_lt_is_Some_2 _ j Hj) as [[u b] Hx]. apply same_data_high; [|done]. apply (hf_ok _ _ _ _ (Hf _ _ _ Hx)). }
    split; [done|rewrite Hi1; exact Hn|exact Hm|..].
    + intros [|j] u b Hj.
      * injection Hj as <- <-. by apply (pad_file (view s) ROOTINO).
      * apply (has_file_high (view s)); [by apply Hf|by apply Hko|done].
    + intros [|i] [|j] Hi Hj Hne; [done|..]; [change (Z.of_nat 0 + 1) with ROOTINO; rewrite Hk, Hko by done..|rewrite !Hko by done];
        apply (disjoint_keep (view s)); try exact (Hsd _ Hi); try exact (Hsd _ Hj); exact (Hd _ _ Hi Hj Hne).
    + rewrite Hf1, Hfr, !total_cons, (length_padded rb Hmod). unfold nblocks_of. fold sz. by rewrite N2.
Qed.

(** ** main *)

Lemma zero_image_run n s : (forall c, fsimg s c = zeros) ->
  exists s', zero_image n (fslen s) s = Done tt s' /\ (forall c, fsimg s' c = zeros) /\ fslen s' = fslen s + Z.of_nat n /\
    freeinode s' = freeinode s /\ freeblock s' = freeblock s.
Proof.
  revert s. induction n as [|n IH]; intros s Hz; cbn [zero_image].
  - exists s. split_and!; [done|done|lia|done|done].
  - set (s1 := mkMkfs (fun c => if c =? fslen s then zeros else fsimg s c) (fslen s + 1) (freeinode s) (freeblock s)).
    destruct (IH s1) as (s' & R & H1 & H2 & H3 & H4); [intros c; cbn [fsimg s1]; by destruct (c =? fslen s)|].
    exists s'. split_and!; [|done|rewrite H2; cbn [fslen s1]; lia|done|done].
    rewrite (bind_run _ _ _ tt s1); [done|]. unfold wsect. by rewrite Z.max_r by lia.
Qed.

(** The image when it has been cleared and has its superblock. *)
Lemma cleared_holds s : (forall c, fsimg s c = zeros) -> fslen s = 1000 -> freeinode s = 1 -> freeblock s = 59 ->
  exists s', wsect 1 (sb_block mk_sb) s = Done tt s' /\ holds s' [].
Proof.
  intros Hz Hl Hi Hf. eexists. split; [reflexivity|]. split; cbn [freeinode freeblock length]; [|by rewrite Hi|lia|done|intros i j Hl'; cbn in Hl'; lia|by rewrite Hf].
  split; cbn [fsimg fslen freeinode freeblock]; rewrite ?Hz; [lia| |lia|..]; try done.
  - intros c. rewrite Hz. by destruct (c =? 1).
  - intros c Hc. rewrite Hz. by rewrite (proj2 (Z.eqb_neq c 1)) by lia.
Qed.

(** The bytes of the root directory. *)
Definition root_bytes (files : list source) : list Z := (dirent_of 1 [46] ++ dirent_of 1 [46; 46]) ++ entries 2 files.

(** mkfs can make an image of the files: there are inodes and blocks for them,
    and the last block of the root directory is not full. *)
Record fits_image (files : list source) : Prop := {
  fg_files : Forall copyable files;
  fg_inodes : (length files <= 198)%nat;
  fg_blocks : total ((T_DIR, root_bytes files) :: contents files) <= nblocks;
  fg_room : Z.of_nat (length (root_bytes files)) mod BSIZE <> 0 }.

Lemma length_root files : length (root_bytes files) = (16 * (length files + 2))%nat.
Proof. unfold root_bytes. rewrite !length_app, !length_dirent, length_entries. lia. Qed.

Lemma mkfs_files files : fits_image files ->
  exists s, mkfs_main (opened <$> files) mkfs_start = mk_balloc (s32 (freeblock s)) s /\
    holds s ((T_DIR, padded (root_bytes files)) :: contents files).
Proof.
  intros [C1 C2 C3 C4]. pose proof (length_root files) as Hlr. change nblocks with 941 in C3. rewrite total_cons in C3.
  pose proof (total_nonneg (contents files)) as Hc0.
  pose proof (fun n => nblocks_mono (Z.of_nat n) (Z.of_nat (length (root_bytes files)))) as Hnb.
  destruct (zero_image_run (Z.to_nat FSSIZE) (mkMkfs (fun _ => zeros) 0 1 nmeta)) as (s1 & R1 & Z1 & Z2 & Z3 & Z4); [done|].
  destruct (cleared_holds s1 Z1 Z2 Z3 Z4) as (s2 & R2 & H2).
  destruct (ialloc_holds s2 [] T_DIR H2) as (s3 & R3 & H3); [cbn; lia|done|].
  destruct (iappend_holds s3 _ 0 T_DIR [] (dirent_of 1 [46]) H3 eq_refl) as (s4 & R4 & H4); [done|done| |].
  { change (59 + total [(T_DIR, dirent_of 1 [46])] <= 1000). rewrite total_cons, length_dirent. specialize (Hnb 16%nat ltac:(lia)). change (total []) with 0. lia. }
  destruct (iappend_holds s4 _ 0 T_DIR (dirent_of 1 [46]) (dirent_of 1 [46; 46]) H4 eq_refl) as (s5 & R5 & H5); [done|done| |].
  { change (59 + total [(T_DIR, dirent_of 1 [46] ++ dirent_of 1 [46; 46])] <= 1000). rewrite total_cons, length_app, !length_dirent. change (16 + 16)%nat with 32%nat. specialize (Hnb 32%nat ltac:(lia)). change (total []) with 0. lia. }
  destruct (copy_files_holds s5 (dirent_of 1 [46] ++ dirent_of 1 [46; 46]) [] files H5 C1) as (s6 & R6 & H6); [cbn; lia|rewrite length_app, !length_dirent; lia| |].
  { change (59 + total ((T_DIR, root_bytes files) :: contents files) <= 1000). rewrite total_cons. lia. }
  change (holds s6 ((T_DIR, root_bytes files) :: contents files)) in H6.
  destruct (root_size_holds s6 _ _ H6 C4) as (s7 & R7 & H7); [lia|]. exists s7. split; [|done].
  unfold mkfs_main. rewrite (bind_run _ _ _ _ _ (assert_run mkfs_start)), (bind_run _ _ _ _ _ (assert_run mkfs_start)).
  rewrite (bind_run _ _ mkfs_start tt (mkMkfs (fun _ => zeros) 0 1 nmeta)) by reflexivity.
  change (fslen (mkMkfs (fun _ => zeros) 0 1 nmeta)) with 0 in R1. rewrite (bind_run _ _ _ _ _ R1), (bind_run _ _ _ _ _ R2), (bind_run _ _ _ _ _ R3).
  change (Z.of_nat (length []) + 1) with 1. rewrite (bind_run _ _ _ _ _ (assert_run s3)). change (Z.of_nat 0 + 1) with 1 in R4, R5.
  rewrite (bind_run _ _ _ _ _ R4), (bind_run _ _ _ _ _ R5), (bind_run _ _ _ _ _ R6). by rewrite R7.
Qed.

(** The bitmap is written. *)
Lemma balloc_image s L : holds s L ->
  exists s', mk_balloc (s32 (freeblock s)) s = Done tt s' /\ forall c, fsimg s' c = view s c.
Proof.
  intros H. pose proof (mi_free _ (hl_inv _ _ H)) as Hf. unfold mk_balloc. rewrite s32_id by lia.
  rewrite (proj2 (Z.ltb_lt _ _)) by (unfold BSIZE; lia). rewrite (bind_run _ _ _ _ _ (assert_run s)). eexists. split; [reflexivity|].
  intros c. unfold view. cbn [fsimg]. change (sb_bmapstart mk_sb) with 58. by destruct (c =? 58).
Qed.

Lemma mkfs_run files : fits_image files ->
  exists s s', mkfs_main (opened <$> files) mkfs_start = Done tt s' /\ (forall c, fsimg s' c = view s c) /\
    holds s ((T_DIR, padded (root_bytes files)) :: contents files).
Proof.
  intros H. destruct (mkfs_files files H) as (s & R & Hs). destruct (balloc_image s _ Hs) as (s' & R' & E). exists s, s'.
  exact (conj (eq_trans R R') (conj E Hs)).
Qed.

Lemma image_file s D L i t bs : holds s L -> (forall c, D c = view s c) -> L !! i = Some (t, bs) -> has_file D (Z.of_nat i + 1) t bs.
Proof.
  intros H E Hi. apply (has_file_high (view s)); [by apply (hl_file _ _ H)|unfold kip; by rewrite E|done].
Qed.

(** C10: mkfs makes a file system of the files it is given, when they fit: it ends
    with an image on which the kernel can start its log, where inode 1 is the
    root directory with the entries ".", ".." and one for each file, padded with
    empty entries, where the inodes from 2 on are the files with their bytes, and
    where exactly the blocks below the last one taken are in use. *)
Theorem mkfs_builds files :
  fits_image files ->
  exists s, mkfs_main (opened <$> files) mkfs_start = Done tt s /\
    (forall ips fs, fs_idle (started (fsimg s) mk_sb FSSIZE bio_procs ips fs) 3 nmeta) /\
    has_file (fsimg s) ROOTINO T_DIR (padded (root_bytes files)) /\
    (forall i f, files !! i = Some f -> has_file (fsimg s) (Z.of_nat i + 2) T_FILE (bytes f)) /\
    (forall b, 0 <= b < FSSIZE -> used mk_sb (fsimg s) b = (b <? nmeta + total ((T_DIR, root_bytes files) :: contents files))).
Proof.
  intros H. destruct (mkfs_run files H) as (s & s' & R & E & Hs). exists s'. split_and!; [exact R|..].
  - intros ips fs. by apply (image_idle s (hl_inv _ _ Hs)).
  - exact (image_file s _ _ 0 T_DIR _ Hs E eq_refl).
  - intros i f Hi. replace (Z.of_nat i + 2) with (Z.of_nat (S i) + 1) by lia. apply (image_file s _ _ (S i) T_FILE _ Hs E).
    rewrite lookup_cons. unfold contents. by rewrite list_lookup_fmap, Hi.
  - intros b Hb. change FSSIZE with 1000 in Hb. unfold used. rewrite E. fold (used mk_sb (view s) b). rewrite (view_used s (hl_inv _ _ Hs)) by done.
    rewrite (hl_free _ _ Hs). change nmeta with 59. do 2 f_equal. rewrite !total_cons. f_equal. rewrite (length_padded _ (fg_room _ H)).
    destruct (nb_pad (Z.of_nat (length (root_bytes files))) ltac:(lia) (fg_room _ H)) as (_ & N & _). unfold nblocks_of. by rewrite N.
Qed.

(** C15: a program reads what mkfs copied.  When the kernel has started on the
    image and has file [i] open at the start, [fileread] returns the first bytes
    of the file that mkfs was given. *)
Theorem mkfs_read_back files i f cnt :
  fits_image files -> files !! i = Some f -> 0 <= cnt < 2 ^ 31 ->
  exists s k, mkfs_main (opened <$> files) mkfs_start = Done tt s /\
    fileread 0 cnt [] (started (fsimg s) mk_sb FSSIZE bio_procs [kip (fsimg s) (Z.of_nat i + 2)] [mkFile FD_INODE 1 1 0 0 0 0]) =
      Ret (Z.min cnt (Z.of_nat (length (bytes f))), take (Z.to_nat cnt) (bytes f)) [] k.
Proof.
  intros H Hi Hc. destruct (mkfs_run files H) as (s & s' & R & E & Hs).
  assert (has_file (fsimg s') (Z.of_nat i + 2) T_FILE (bytes f)) as [F1 F2 F3 F4 F5 F6].
  { replace (Z.of_nat i + 2) with (Z.of_nat (S i) + 1) by lia. apply (image_file s _ _ (S i) T_FILE _ Hs E).
    rewrite lookup_cons. unfold contents. by rewrite list_lookup_fmap, Hi. }
  set (ip := kip (fsimg s') (Z.of_nat i + 2)) in *. set (x := mkFile FD_INODE 1 1 0 0 0 0).
  assert (ready (started (fsimg s') mk_sb FSSIZE bio_procs [ip] [x]) 3 59 0 x ip) as Hrd.
  { split; [exact (image_idle s (hl_inv _ _ Hs) _ _ _ E)|reflexivity|reflexivity|reflexivity|reflexivity|exact (Z.le_refl 1)|reflexivity|discriminate|..].
    - rewrite F2. discriminate.
    - rewrite (proj1 (started_disk _ _ _ _ _ _)). exact F1.
    - rewrite F4. cbn [f_off x]. lia. }
  destruct (fileread_run _ 3 59 0 x ip cnt Hrd) as (k & Rk & _); [discriminate|done|]. exists s', k. split; [exact R|].
  etrans; [exact Rk|]. rewrite (proj1 (started_disk _ _ _ _ _ _)), F5, F4. cbn [f_off x]. rewrite Z.sub_0_r, drop_0. do 2 f_equal.
  destruct (decide (cnt <= Z.of_nat (length (bytes f)))); [by rewrite Z.min_l by lia|]. rewrite !take_ge; [done|lia|lia].
Qed.

(** One file, _a with the bytes 7, 8 and 9, which [read] returns in two pieces. *)
Definition ex_files : list source := [([95; 97], [[7; 8]; [9]])].

Lemma ex_files_fit : fits_image ex_files.
Proof.
  split.
  - repeat constructor; cbn [fst snd]; [|discriminate|discriminate|discriminate].
    by intros [H|[H|[]%not_elem_of_nil]%elem_of_cons]%elem_of_cons.
  - cbn. lia.
  - discriminate.
  - discriminate.
Qed.

Lemma mkfs_builds_witness : exists s, mkfs_main (opened <$> ex_files) mkfs_start = Done tt s /\ has_file (fsimg s) 2 T_FILE [7; 8; 9].
Proof.
  destruct (mkfs_builds ex_files ex_files_fit) as (s & R & _ & _ & F & _). exists s. split; [exact R|]. exact (F 0%nat _ eq_refl).
Defined.

Lemma mkfs_read_back_witness : exists s k, mkfs_main (opened <$> ex_files) mkfs_start = Done tt s /\
  fileread 0 2 [] (started (fsimg s) mk_sb FSSIZE bio_procs [kip (fsimg s) 2] [mkFile FD_INODE 1 1 0 0 0 0]) = Ret (2, [7; 8]) [] k.
Proof. exact (mkfs_read_back ex_files 0 _ 2 ex_files_fit eq_refl ltac:(lia)). Defined.
