(* ===== verification/Linethm.v ===== *)
(** * Reading from the console

    [consoleread] against the line discipline, and the theorems on the console. *)

From Stdlib Require Import ZArith Lia String.
From stdpp Require Import prelude numbers strings option gmap list.
From S2P Require Import Prelude Kernel Mem Kalloc Sched Sleeplock Pipe Bio Log Logtxn Console Kbd Kst Inode Fsblock Fsfile Fsio Device Fs Fscrash File Filewrite Line.

#[local] Notation "s ◀ k" := (set_k_cons k s) (at level 10, k at level 9, left associativity).
#[local] Abbreviation len l := (Z.of_nat (length l)).
#[local] Abbreviation byte := (fun c => 0 <= c < 256).

(** ** Reading *)

(** What a read of [n] bytes takes from the bytes that are ready, and what it
    leaves: up to and with the end of a line; ^D ends the read, and stays when
    something has been read before it.  [None] when the read has to wait. *)
Fixpoint reads (n : nat) (got : bool) (ready : list Z) : option (list Z * list Z) :=
  match n with
  | O => Some ([], ready)
  | S n =>
      match ready with
      | [] => None
      | c :: rest =>
          if c =? ctl 68 then Some ([], if got then ready else rest)
          else if c =? NL then Some ([c], rest)
          else match reads n true rest with
               | Some (bs, rest) => Some (c :: bs, rest)
               | None => None
               end
      end
  end.

(** The inode of the console as [consoleread] needs it. *)
Record at_inode (s : kst) (i : nat) (ip : inode) (pid_ : Z) : Prop := {
  ai_ip : k_icache s !! i = Some ip;
  ai_current : current (get_part s) pid_;
  ai_ref : 1 <= i_ref ip;
  ai_valid : i_valid ip <> 0 }.

Lemma at_inode_cons s k i ip p : at_inode s i ip p -> at_inode (s ◀ k) i ip p.
Proof. intros []. by split. Qed.

Lemma s8_byte c : byte c -> (s8 c =? ctl 68) = (c =? ctl 68) /\ (s8 c =? NL) = (c =? NL) /\ u8 (s8 c) = c.
Proof.
  cbv beta. intros Hc. change (ctl 68) with 4. unfold NL, s8, u8. change (2 ^ 7) with 128. change (2 ^ 8) with 256. destruct (decide (c < 128)).
  - rewrite (Z.mod_small (c + 128)), Z.add_simpl_r, Z.mod_small by lia. done.
  - replace ((c + 128) mod 256) with (c - 128) by (apply (Z.mod_unique _ _ 1); lia).
    split_and!; [apply Bool.eq_iff_eq_true; rewrite !Z.eqb_eq; lia..|]. symmetry. apply (Z.mod_unique _ _ (-1)); lia.
Qed.

Section read.
Context (i : nat) (ip : inode) (p : Z).

Lemma finish_run (dst : list Z) s : at_inode s i ip p -> slocked (i_lock ip) = 0 ->
  (release LCons;; ilock i;; mret (len dst, dst)) [LCons] s = Ret (len dst, dst) [] (put_ip i (set_i_lock (mkSleeplock 1 p) ip) s).
Proof.
  intros [H1 H2 H3 H4] Hl. rewrite bind_unfold, release_top by apply not_elem_of_nil. cbv beta iota.
  by rewrite bind_unfold, (ilock_run s i ip p H1 H2 H3 Hl H4).
Qed.

Lemma typing_take k c ready edit : typing k (mkLine (c :: ready) edit) -> byte c /\ nth (Z.to_nat (in_r k mod INPUT_BUF)) (in_buf k) 0 = c /\
  (in_r k =? in_w k) = false /\ typing (set_in_r (u32 (in_r k + 1)) k) (mkLine ready edit).
Proof.
  intros [H1 H2 H3 H4]. destruct (rep_take _ _ _ _ H2) as [H5 H6]. destruct (rep_count _ _ _ H2) as (_ & _ & ->). 
  assert (byte c) as Hc by (rewrite <- H6; apply ring_byte; [done|apply H2]). split; [exact Hc|]. split; [exact H6|]. split; [cbn [length]; apply Z.eqb_neq; lia|]. split; [destruct H1; by split|done|done|done].
Qed.

Lemma loop_reads m (dst ready edit bs rest : list Z) s :
  typing (k_cons s) (mkLine ready edit) -> at_inode s i ip p -> slocked (i_lock ip) = 0 ->
  reads m (negb (len dst =? 0)) ready = Some (bs, rest) ->
  exists k, consoleread_loop m i (Z.of_nat m + len dst) dst [LCons] s =
    Ret (len (dst ++ bs), dst ++ bs) [] (put_ip i (set_i_lock (mkSleeplock 1 p) ip) (s ◀ k)) /\ typing k (mkLine rest edit).
Proof.
  revert dst ready bs s. induction m as [|m IH]; intros dst ready bs s T A Hl Hr; cbn [consoleread_loop].
  - injection Hr as <- <-. exists (k_cons s). rewrite cons_same, app_nil_r. split; [by apply finish_run|done].
  - destruct ready as [|c ready]; [done|]. cbn [reads] in Hr. destruct (typing_take _ _ _ _ T) as (Hc & Hf & Hw & T').
    rewrite bind_unfold, getc_run. cbv beta iota. rewrite Hw. unfold in_front. rewrite Hf. destruct (s8_byte c Hc) as (-> & -> & ->).
    rewrite bind_unfold, modc_run. cbv beta iota. set (k1 := set_in_r (u32 (in_r (k_cons s) + 1)) (k_cons s)) in *.
    pose proof (at_inode_cons s k1 i ip p A) as A1. destruct (c =? ctl 68).
    + injection Hr as <- <-. rewrite app_nil_r. replace (Z.of_nat (S m) <? Z.of_nat (S m) + len dst) with (negb (len dst =? 0));
        [|destruct (Z.eqb_spec (len dst) 0), (Z.ltb_spec (Z.of_nat (S m)) (Z.of_nat (S m) + len dst)); done || lia].
      destruct (negb (len dst =? 0)); unfold when.
      * rewrite bind_unfold, modc_run. cbv beta iota. set (k2 := set_in_r _ _).
        assert (k2 = k_cons s) as E.
        { unfold k2. cbn. rewrite u32_sub_idemp_l, Z.add_simpl_r, u32_id by (pose proof (rp_r _ _ (ty_rep _ _ T)); lia). by destruct (k_cons s). }
        exists (k_cons s). split; [|done]. change (s ◀ k1 ◀ k2) with (s ◀ k2). rewrite E. apply finish_run; [|done]. by apply at_inode_cons.
      * exists k1. split; [|done]. rewrite bind_unfold, mret_run. cbv beta iota. by apply finish_run.
    + destruct (c =? NL).
      * injection Hr as <- <-. exists k1. split; [|done]. by apply finish_run.
      * destruct (reads m true ready) as [[bs' rest']|] eqn:E; [|done]. injection Hr as <- <-.
        destruct (IH (dst ++ [c]) ready bs' (s ◀ k1) T' A1 Hl) as (k2 & R2 & T2).
        { rewrite length_app. cbn [length]. rewrite (proj2 (Z.eqb_neq _ _)) by lia. done. }
        exists k2. split; [|done]. rewrite length_app in R2. cbn [length] in R2.
        replace (Z.of_nat m + Z.of_nat (length dst + 1)) with (Z.of_nat (S m) + len dst) in R2 by lia. rewrite R2. by rewrite <- app_assoc.
Qed.

(** A read that finds too little sleeps, or gives up when the process has been
    killed; it has taken what there was. *)
Lemma loop_waits m (dst ready edit : list Z) s :
  typing (k_cons s) (mkLine ready edit) -> at_inode s i ip p -> slocked (i_lock ip) = 0 -> reads m (negb (len dst =? 0)) ready = None ->
  exists k o, consoleread_loop m i (Z.of_nat m + len dst) dst [LCons] s = o /\ typing k (mkLine [] edit) /\
    ((exists t, o = Sched (put_part (t : pstate) (s ◀ k))) \/ (exists dst', o = Ret (-1, dst') [] (put_ip i (set_i_lock (mkSleeplock 1 p) ip) (s ◀ k)))).
Proof.
  revert dst ready s. induction m as [|m IH]; intros dst ready s T A Hl Hr; [done|]. cbn [consoleread_loop reads] in *.
  rewrite bind_unfold, getc_run. cbv beta iota. destruct ready as [|c ready].
  - exists (k_cons s). rewrite cons_same. destruct A as [A1 A2 A3 A4]. pose proof A2 as (j & q & Hj & Hq & _).
    destruct (rep_count _ _ _ (ty_rep _ _ T)) as (_ & _ & ->). change (len [] =? 0) with true. cbv iota.
    rewrite bind_unfold, (curproc_run [LCons] s j q Hj Hq). cbv beta iota. destruct (negb (killed q =? 0)); eexists; (split; [|split; [exact T|]]).
    + rewrite bind_unfold, release_top by apply not_elem_of_nil. cbv beta iota. rewrite bind_unfold, (ilock_run s i ip p A1 A2 A3 Hl A4). reflexivity.
    + right. by eexists.
    + by apply (sleep_run ChInput LCons s j q).
    + left. by eexists.
  - destruct (typing_take _ _ _ _ T) as (Hc & Hf & Hw & T'). rewrite Hw. unfold in_front. rewrite Hf.
    destruct (s8_byte c Hc) as (-> & -> & ->). destruct (c =? ctl 68); [done|]. rewrite bind_unfold, modc_run. cbv beta iota. destruct (c =? NL); [done|].
    set (k1 := set_in_r (u32 (in_r (k_cons s) + 1)) (k_cons s)) in *. destruct (reads m true ready) as [[]|] eqn:E; [done|].
    destruct (IH (dst ++ [c]) ready (s ◀ k1) T' (at_inode_cons s k1 i ip p A) Hl) as (k2 & o & R2 & T2 & Ho).
    { rewrite length_app. cbn [length]. rewrite (proj2 (Z.eqb_neq _ _)) by lia. done. }
    exists k2, o. split; [|done]. rewrite length_app in R2. cbn [length] in R2.
    by replace (Z.of_nat m + Z.of_nat (length dst + 1)) with (Z.of_nat (S m) + len dst) in R2 by lia.
Qed.

End read.

Section consoleread.
Context (i : nat) (ip : inode) (p : Z).

Lemma unlock_then {A} (c : K kst A) s : at_inode s i ip p -> i_lock ip = mkSleeplock 1 p ->
  exists s1, (iunlock i;; acquire LCons;; c) [] s = c [LCons] s1 /\ at_inode s1 i (set_i_lock (mkSleeplock 0 0) ip) p /\ k_cons s1 = k_cons s.
Proof.
  intros [H1 H2 H3 H4] Hl. destruct (iunlock_run s i ip p H1 H2 H3 Hl) as (t & R & W). eexists. split_and!.
  - rewrite bind_unfold, R. cbv beta iota. rewrite bind_unfold, acquire_free by apply not_elem_of_nil. reflexivity.
  - split; [|by eapply woke_current|done|done]. change (k_icache (put_ip i (set_i_lock (mkSleeplock 0 0) ip) s) !! i = Some (set_i_lock (mkSleeplock 0 0) ip)).
    by eapply put_ip_lookup.
  - done.
Qed.

Lemma consoleread_reads n l bs rest s :
  typing (k_cons s) l -> at_inode s i ip p -> i_lock ip = mkSleeplock 1 p -> 0 <= n -> reads (Z.to_nat n) false (l_ready l) = Some (bs, rest) ->
  exists s', consoleread i n [] s = Ret (len bs, bs) [] s' /\ typing (k_cons s') (mkLine rest (l_edit l)).
Proof.
  intros T A Hl Hn Hr. destruct (unlock_then (consoleread_loop (Z.to_nat n) i n []) s A Hl) as (s1 & R1 & A1 & E1).
  destruct (loop_reads i (set_i_lock (mkSleeplock 0 0) ip) p (Z.to_nat n) [] (l_ready l) (l_edit l) bs rest s1) as (k & R & T'); [rewrite E1; by destruct l|exact A1|done|done|].
  cbn [length app] in R. rewrite Z.add_0_r, Z2Nat.id in R by done. unfold consoleread. rewrite R1, R. by eexists.
Qed.

Lemma consoleread_waits n l s :
  typing (k_cons s) l -> at_inode s i ip p -> i_lock ip = mkSleeplock 1 p -> 0 <= n -> reads (Z.to_nat n) false (l_ready l) = None ->
  exists s', typing (k_cons s') (mkLine [] (l_edit l)) /\ (consoleread i n [] s = Sched s' \/ exists bs, consoleread i n [] s = Ret (-1, bs) [] s').
Proof.
  intros T A Hl Hn Hr. destruct (unlock_then (consoleread_loop (Z.to_nat n) i n []) s A Hl) as (s1 & R1 & A1 & E1).
  destruct (loop_waits i (set_i_lock (mkSleeplock 0 0) ip) p (Z.to_nat n) [] (l_ready l) (l_edit l) s1) as (k & o & R & T' & Ho); [rewrite E1; by destruct l|exact A1|done|done|].
  cbn [length] in R. rewrite Z.add_0_r, Z2Nat.id in R by done. unfold consoleread. rewrite R1, R.
  destruct Ho as [[t ->]|[dst ->]]; eexists; (split; [|first [by left|right; by eexists]]); done.
Qed.

Lemma consolewrite_run buf n l s : typing (k_cons s) l -> at_inode s i ip p -> i_lock ip = mkSleeplock 1 p ->
  exists s', consolewrite i buf n [] s = Ret n [] s' /\ typing (k_cons s') l.
Proof.
  intros T A Hl. unfold consolewrite.
  match goal with |- context [acquire LCons ≫= fun _ => ?c] => destruct (unlock_then c s A Hl) as (s1 & R1 & A1 & E1) end. rewrite R1.
  rewrite <- E1 in T. destruct (consputs_run ((fun c => Z.land c 0xff) <$> take (Z.to_nat n) buf) [LCons] s1 (ty_screen _ _ T)) as (k & R & O & Ok).
  rewrite bind_unfold, R. cbv beta iota. rewrite bind_unfold, release_top by apply not_elem_of_nil. cbv beta iota.
  destruct (at_inode_cons s1 k i _ p A1) as [B1 B2 B3 B4]. rewrite bind_unfold, (ilock_run _ i _ p B1 B2 B3 eq_refl B4). eexists. split; [reflexivity|].
  destruct T. split; [done|by eapply rep_out|done|by eapply bytes_out].
Qed.
End consoleread.

(** ** The interrupts *)

Lemma uartintr_run stacks l s : typing (k_cons s) l -> Forall byte (uart_pending (k_cons s)) ->
  exists s', uartintr stacks [] s = Ret tt [] s' /\ typed s l (keys (uart_pending (k_cons s)) l) s' /\ uart_pending (k_cons s') = [].
Proof.
  intros T Hb. unfold uartintr. rewrite bind_unfold, getc_run. cbv beta iota. apply (consoleintr_run _ _ uart_port); [done|done|].
  unfold uart_pending. destruct (_ =? 0); cbn; lia.
Qed.

Lemma kbdintr_run stacks l s : typing (k_cons s) l ->
  exists s', kbdintr stacks [] s = Ret tt [] s' /\ typed s l (keys (kbd_pending (k_cons s)) l) s' /\ kbd_pending (k_cons s') = [].
Proof.
  intros T. destruct (kbd_chars_bytes (kbd_shift (k_cons s)) (kbd_in (k_cons s))) as [Hb Hl].
  unfold kbdintr. rewrite bind_unfold, getc_run. cbv beta iota. apply (consoleintr_run _ _ kbd_port); [done|done|]. unfold kbd_pending. lia.
Qed.

(** ** The theorems *)

(** C8: the console implements the line discipline [key] and [reads].  An
    interrupt of the serial port or of the keyboard takes every character that
    waits there, edits the line as [key] says and wakes the readers when it hands
    them something; [consoleread] returns what [reads] says. *)
Theorem console_line_discipline stacks s l :
  typing (k_cons s) l ->
  (Forall byte (uart_pending (k_cons s)) ->
   exists s', uartintr stacks [] s = Ret tt [] s' /\ typed s l (keys (uart_pending (k_cons s)) l) s' /\ uart_pending (k_cons s') = []) /\
  (exists s', kbdintr stacks [] s = Ret tt [] s' /\ typed s l (keys (kbd_pending (k_cons s)) l) s' /\ kbd_pending (k_cons s') = []) /\
  (forall i ip p n bs rest, at_inode s i ip p -> i_lock ip = mkSleeplock 1 p -> 0 <= n -> reads (Z.to_nat n) false (l_ready l) = Some (bs, rest) ->
   exists s', consoleread i n [] s = Ret (len bs, bs) [] s' /\ typing (k_cons s') (mkLine rest (l_edit l))).
Proof.
  intros T. split_and!.
  - by apply uartintr_run.
  - by apply kbdintr_run.
  - intros i ip p n bs rest. by apply consoleread_reads.
Qed.

(** The console is well formed: it works, its input buffer has 128 bytes, the
    indices are 32-bit numbers with r, w and e in this order and at most 128
    apart, and there is no end of line between w and e. *)
Record well_formed (k : console) : Prop := {
  wf_screen : screen_ok k;
  wf_len : length (in_buf k) = 128%nat;
  wf_bytes : Forall byte (in_buf k);
  wf_r : 0 <= in_r k < 2 ^ 32;
  wf_w : 0 <= in_w k < 2 ^ 32;
  wf_e : 0 <= in_e k < 2 ^ 32;
  wf_order : u32 (in_w k - in_r k) <= u32 (in_e k - in_r k) <= INPUT_BUF;
  wf_nl : forall j, u32 (in_w k - in_r k) <= j < u32 (in_e k - in_r k) -> ring_at (in_buf k) (in_r k + j) <> NL }.

Lemma u32_back r w : 0 <= w < 2 ^ 32 -> u32 (r + u32 (w - r)) = w.
Proof. intros Hw. rewrite (Z.add_comm r), u32_add_idemp_l, Z.sub_add. by apply u32_id. Qed.

Lemma elem_of_ring x buf a n : x ∈ ring buf a n <-> exists j, 0 <= j < n /\ x = ring_at buf (a + j).
Proof.
  unfold ring. rewrite list_elem_of_fmap. split.
  - intros (j & -> & Hj%elem_of_seqZ). exists j. split; [lia|done].
  - intros (j & Hj & ->). exists j. split; [done|]. apply elem_of_seqZ. lia.
Qed.

Lemma well_formed_typing k : well_formed k <-> exists l, typing k l.
Proof.
  split.
  - intros [H1 H2 H3 H4 H5 H6 H7 H8]. pose proof (u32_bound (in_w k - in_r k)) as Hb. set (nr := u32 (in_w k - in_r k)) in *. set (n := u32 (in_e k - in_r k)) in *.
    exists (mkLine (ring (in_buf k) (in_r k) nr) (ring (in_buf k) (in_r k + nr) (n - nr))). split; [done| | |done].
    + split; cbn [l_ready l_edit]; rewrite ?length_ring, ?Z2Nat.id by lia; try done.
      * symmetry. by apply u32_back.
      * replace (nr + (n - nr)) with n by lia. symmetry. by apply u32_back.
      * lia.
    + cbn [l_edit]. intros (j & Hj & E)%elem_of_ring. apply (H8 (nr + j)); [lia|]. by rewrite Z.add_assoc.
  - intros [[ready edit] [H1 H2 H3 H4]]. destruct (rep_count _ _ _ H2) as (E1 & _). destruct H2 as [R1 R2 R3 R4 R5 R6 R7]. cbn [l_ready l_edit] in *.
    assert (u32 (in_w k - in_r k) = len ready) as E2 by (rewrite R3, u32_sub_idemp_l, u32_id by (unfold INPUT_BUF in *; lia); lia).
    split; rewrite ?E1, ?E2; try done; [rewrite R3; apply u32_bound|rewrite R4; apply u32_bound|lia|].
    intros j Hj E. apply H3. rewrite R7. apply elem_of_ring. exists (j - len ready). split; [lia|]. rewrite <- E. f_equal. lia.
Qed.

(** C29: the console stays well formed, and no interrupt, read or write of the
    console panics: from every well-formed state the handlers and [consolewrite]
    return, and [consoleread] returns or sleeps, and they leave it well formed. *)
Theorem console_well_formed stacks s :
  well_formed (k_cons s) ->
  (Forall byte (uart_pending (k_cons s)) -> exists s', uartintr stacks [] s = Ret tt [] s' /\ well_formed (k_cons s')) /\
  (exists s', kbdintr stacks [] s = Ret tt [] s' /\ well_formed (k_cons s')) /\
  (forall i ip p n, at_inode s i ip p -> i_lock ip = mkSleeplock 1 p -> 0 <= n ->
    exists s', well_formed (k_cons s') /\ (consoleread i n [] s = Sched s' \/ exists r, consoleread i n [] s = Ret r [] s')) /\
  (forall i ip p buf n, at_inode s i ip p -> i_lock ip = mkSleeplock 1 p ->
    exists s', consolewrite i buf n [] s = Ret n [] s' /\ well_formed (k_cons s')).
Proof.
  intros [l T]%well_formed_typing. split_and!.
  - intros Hb. destruct (uartintr_run stacks l s T Hb) as (s' & R & T' & _). exists s'. split; [done|]. apply well_formed_typing. eexists. apply T'.
  - destruct (kbdintr_run stacks l s T) as (s' & R & T' & _). exists s'. split; [done|]. apply well_formed_typing. eexists. apply T'.
  - intros i ip p n A Hl Hn. destruct (reads (Z.to_nat n) false (l_ready l)) as [[bs rest]|] eqn:E.
    + destruct (consoleread_reads i ip p n l bs rest s T A Hl Hn E) as (s' & R & T'). exists s'. split; [apply well_formed_typing; by eexists|]. right. by eexists.
    + destruct (consoleread_waits i ip p n l s T A Hl Hn E) as (s' & T' & R). exists s'. split; [apply well_formed_typing; by eexists|].
      destruct R as [R|[bs R]]; [by left|right; by eexists].
  - intros i ip p buf n A Hl. destruct (consolewrite_run i ip p buf n l s T A Hl) as (s' & R & T'). exists s'. split; [done|]. apply well_formed_typing. by eexists.
Qed.

(** The indices are about to wrap, and h, i, ^H, o and a carriage return wait at
    the serial port. *)
Definition ex_cons : console := mkConsole 0 1 (fun _ => 0) 0 0 1 [] [104; 105; 8; 111; 13] [] 0 (replicate 128 0) 4294967295 4294967295 4294967295.
Definition ex_tty : inode := mkInode 1 5 1 (mkSleeplock 1 3) 1 T_DEV CONSOLE 1 1 0 (replicate 13 0).
Definition ex_kst : kst := started (fun _ => zeros) (mkSb 0 0 0 0 0 0 0) 0 bio_procs [ex_tty] [] ◀ ex_cons.

Lemma ex_typing : typing (k_cons ex_kst) (mkLine [] []).
Proof.
  split; [split; [done|by vm_compute|by intros j; cbn]|split; try done|apply not_elem_of_nil|by apply Forall_replicate].
Qed.

Lemma ex_at : at_inode ex_kst 0 ex_tty 3.
Proof. split; [done|exact bio_procs_current|done|done]. Qed.

Lemma console_line_discipline_witness :
  (exists s', uartintr (fun s => phys (k_mem s)) [] ex_kst = Ret tt [] s' /\ typing (k_cons s') (mkLine [104; 111; 10] [])) /\
  (exists s', consoleread 0 0 [] ex_kst = Ret (0, []) [] s').
Proof.
  destruct (console_line_discipline (fun s => phys (k_mem s)) ex_kst (mkLine [] []) ex_typing) as (H1 & _ & H3). split.
  - destruct H1 as (s' & R & T & _); [repeat constructor; lia|]. exists s'. split; [exact R|]. exact (td_typing _ _ _ _ T).
  - destruct (H3 0%nat ex_tty 3 0 [] [] ex_at eq_refl ltac:(lia) eq_refl) as (s' & R & _). by exists s'.
Defined.

Lemma console_well_formed_witness :
  exists s', kbdintr (fun s => phys (k_mem s)) [] ex_kst = Ret tt [] s' /\ well_formed (k_cons s').
Proof.
  destruct (console_well_formed (fun s => phys (k_mem s)) ex_kst) as (_ & H & _); [|exact H].
  apply well_formed_typing. exact (ex_intro _ _ ex_typing).
Defined.
