(* ===== verification/Dir.v ===== *)
(** * Directories

    A directory is a file of 16-byte entries; [dirlookup] and [dirlink] make it
    a map from names to inode numbers. *)

From Stdlib Require Import ZArith Lia String.
From stdpp Require Import prelude numbers strings option gmap list.
From S2P Require Import Prelude Kernel Mem Sched Monitor Sleeplock Bio Log Logcrash Logtxn Console Kst Inode Fsblock Fsfile Fsinode Device Fs Fsio Fscrash.

#[local] Abbreviation byte := (fun c => 0 <= c < 256).

(** ** Entries *)

(** The name in 14 bytes: up to the first zero. *)
Definition fname (l : list Z) : list Z := chars 14 (bytes_ptr l) 0.

(** The entries of a directory with the bytes [bs]. *)
Definition dents (bs : list Z) : list (list Z) := (fun j => take 16 (drop (16 * j) bs)) <$> seq 0 (length bs / 16).

(** The first entry in use with the name [key]. *)
Definition named (key : list Z) (e : list Z) : Prop := de_inum e <> 0 /\ fname (de_name e) = key.
Definition dir_find (bs key : list Z) : option (nat * list Z) := list_find (named key) (dents bs).

Lemma length_dents bs : length (dents bs) = (length bs / 16)%nat.
Proof. unfold dents. by rewrite length_fmap, length_seq. Qed.

Lemma dents_lookup bs j : (16 * j + 16 <= length bs)%nat -> dents bs !! j = Some (take 16 (drop (16 * j) bs)).
Proof.
  intros Hj. unfold dents. rewrite list_lookup_fmap, lookup_seq_lt; [done|]. apply Nat.div_le_lower_bound; lia.
Qed.

Lemma bytes_ptr_byte l j : Forall byte l -> 0 <= bytes_ptr l j < 256.
Proof.
  intros H. unfold bytes_ptr. rewrite nth_lookup. destruct (l !! Z.to_nat j) eqn:E; [|cbn; lia]. exact (Forall_lookup_1 _ _ _ _ H E).
Qed.

Lemma namecmp_zero s t : Forall byte s -> Forall byte t -> (namecmp s t =? 0) = bool_decide (fname t = fname s).
Proof.
  intros Hs Ht. unfold namecmp, fname. pose proof (strncmp_zero (bytes_ptr s) (bytes_ptr t) DIRSIZ (fun j => bytes_ptr_byte s j Hs) (fun j => bytes_ptr_byte t j Ht)) as H.
  change (Z.to_nat DIRSIZ) with 14%nat in H. apply Bool.eq_iff_eq_true. rewrite Z.eqb_eq, bool_decide_eq_true, H. naive_solver.
Qed.

(** The inode [ip] is a directory. *)
Record directory (sb : superblock) (d0 : Z) (V : Z -> block) (ip : inode) : Prop := {
  dr_ok : inode_ok sb d0 V ip;
  dr_type : i_type ip = T_DIR;
  dr_size : i_size ip mod 16 = 0;
  dr_bytes : Forall byte (bytes_of V ip) }.

Lemma dir_length sb d0 V ip : directory sb d0 V ip ->
  Z.of_nat (length (bytes_of V ip)) = i_size ip /\ Z.of_nat (length (dents (bytes_of V ip))) * 16 = i_size ip.
Proof.
  intros D. pose proof (io_size _ _ _ _ (dr_ok _ _ _ _ D)). pose proof (dr_size _ _ _ _ D). pose proof (Z.div_mod (i_size ip) 16).
  assert (Z.of_nat (length (bytes_of V ip)) = i_size ip) as E by (unfold bytes_of; rewrite length_content; lia).
  split; [done|]. rewrite length_dents, Nat2Z.inj_div, E. lia.
Qed.

Lemma dir_fuel sb d0 V ip : directory sb d0 V ip -> (length (dents (bytes_of V ip)) <= Z.to_nat (i_size ip / DIRENT + 1))%nat.
Proof. intros D. destruct (dir_length _ _ _ _ D) as [_ E]. rewrite <- E. unfold DIRENT. rewrite Z.div_mul by done. lia. Qed.

(** ** Reading a directory *)

Section lookup.
Context {w : bool} (n : Z) (V : Z -> block) (B : gset Z) (d0 : Z) (i : nat) (ip : inode) (sb : superblock).
Hypothesis D : directory sb d0 V ip.
Hypothesis HB : (size B < NBUF)%nat.
#[local] Abbreviation es := (dents (bytes_of V ip)).

(** One entry read. *)
Lemma read_dent s j : file_at_ w s n V B d0 i ip -> k_sb s = sb -> (j < length es)%nat ->
  exists l e, readi i (16 * Z.of_nat j) DIRENT [] s = Ret (16, e) [] (s ◁ l) /\ es !! j = Some e /\ Forall byte e /\ log_inv l n [] V B /\ inside (k_lst s) l.
Proof.
  intros A Hsb Hj. pose proof (dr_ok _ _ _ _ D) as Ok. rewrite <- Hsb in Ok. pose proof (io_size _ _ _ _ Ok) as Hsz. destruct (dir_length _ _ _ _ D) as [E1 E2].
  unfold MAXFILE, NDIRECT, NINDIRECT, BSIZE in Hsz.
  destruct (readi_run s n V B d0 i ip A Ok ltac:(by rewrite (dr_type _ _ _ _ D)) (16 * Z.of_nat j) DIRENT) as (l & R & Il & N); [lia|done|unfold DIRENT; lia|done|].
  rewrite Z.min_l in R by (unfold DIRENT; lia). replace (Z.to_nat (16 * Z.of_nat j)) with (16 * j)%nat in R by lia.
  eexists l, _. split_and!; [exact R|apply dents_lookup; lia| |done|done]. apply Forall_take, Forall_drop, D.
Qed.

Lemma dirlookup_loop_run m j fuel s name : file_at_ w s n V B d0 i ip -> k_sb s = sb -> Forall byte name -> (j + m = length es)%nat -> (m <= fuel)%nat ->
  exists l, dirlookup_loop fuel i name (16 * Z.of_nat j) [] s =
    Ret ((fun x => (de_inum x.2, 16 * Z.of_nat (j + x.1))) <$> list_find (named (fname name)) (drop j es)) [] (s ◁ l) /\ log_inv l n [] V B /\ inside (k_lst s) l.
Proof.
  revert j fuel s. induction m as [|m IH]; intros j fuel s A Hsb Hn Hj Hf; destruct (dir_length _ _ _ _ D) as [_ Hlen].
  - exists (k_lst s). rewrite set_lst_same, drop_ge by lia. split_and!; [|apply A|done]. destruct fuel; cbn [dirlookup_loop]; unfold ip_; repeat kstep_base;
      rewrite (get_ip_Some _ _ _ (fa_ip _ _ _ _ _ _ _ A)), (proj2 (Z.ltb_ge _ _)) by lia; done.
  - destruct fuel as [|fuel]; [lia|]. destruct (read_dent s j A Hsb ltac:(lia)) as (l1 & e & R1 & He & Hb & I1 & N1).
    pose proof (file_at_lst _ _ _ _ _ _ _ _ A I1 N1) as A1.
    destruct (IH (S j) fuel (s ◁ l1) A1 Hsb Hn ltac:(lia) ltac:(lia)) as (l2 & R2 & I2 & N2).
    rewrite (drop_S _ _ _ He). cbn [list_find]. cbn [dirlookup_loop]. unfold ip_. repeat kstep_base.
    rewrite (get_ip_Some _ _ _ (fa_ip _ _ _ _ _ _ _ A)), (proj2 (Z.ltb_lt _ _)) by lia. run_with R1. change (negb (16 =? DIRENT)) with false. cbv iota.
    rewrite namecmp_zero by (done || by apply Forall_drop).
    replace (16 * Z.of_nat j + DIRENT) with (16 * Z.of_nat (S j)) by (unfold DIRENT; lia).
    assert (forall o : option (nat * list Z), (fun x => (de_inum x.2, 16 * Z.of_nat (j + x.1))) <$> (prod_map S id <$> o) =
      (fun x => (de_inum x.2, 16 * Z.of_nat (S j + x.1))) <$> o) as Hshift by (intros [[]|]; cbn; [|done]; do 2 f_equal; lia).
    destruct (decide (named (fname name) e)) as [[Hi Hnm]|Hno].
    + exists l1. split_and!; [|done|done]. rewrite (proj2 (Z.eqb_neq _ _)) by done. rewrite bool_decide_eq_true_2 by done.
      cbn [fmap option_fmap option_map fst snd]. by rewrite Nat.add_0_r.
    + exists l2. rewrite Hshift. split_and!; [|done|by etrans]. change (s ◁ l2) with (s ◁ l1 ◁ l2). rewrite <- R2.
      destruct (Z.eqb_spec (de_inum e) 0); [done|]. rewrite bool_decide_eq_false_2; [done|]. intros E. by apply Hno.
Qed.

Lemma dirlink_loop_run m j fuel s : file_at_ w s n V B d0 i ip -> k_sb s = sb -> (j + m = length es)%nat -> (m <= fuel)%nat ->
  exists l, dirlink_loop fuel i (16 * Z.of_nat j) [] s =
    Ret (16 * Z.of_nat (j + default m (fst <$> list_find (fun e => de_inum e = 0) (drop j es)))) [] (s ◁ l) /\ log_inv l n [] V B /\ inside (k_lst s) l.
Proof.
  revert j fuel s. induction m as [|m IH]; intros j fuel s A Hsb Hj Hf; destruct (dir_length _ _ _ _ D) as [_ Hlen].
  - exists (k_lst s). rewrite set_lst_same, drop_ge by lia. split_and!; [|apply A|done]. destruct fuel; cbn [dirlink_loop]; unfold ip_; repeat kstep_base;
      rewrite (get_ip_Some _ _ _ (fa_ip _ _ _ _ _ _ _ A)), (proj2 (Z.ltb_ge _ _)) by lia; cbn; by rewrite Nat.add_0_r.
  - destruct fuel as [|fuel]; [lia|]. destruct (read_dent s j A Hsb ltac:(lia)) as (l1 & e & R1 & He & Hb & I1 & N1).
    pose proof (file_at_lst _ _ _ _ _ _ _ _ A I1 N1) as A1.
    destruct (IH (S j) fuel (s ◁ l1) A1 Hsb ltac:(lia) ltac:(lia)) as (l2 & R2 & I2 & N2).
    rewrite (drop_S _ _ _ He). cbn [list_find]. cbn [dirlink_loop]. unfold ip_. repeat kstep_base.
    rewrite (get_ip_Some _ _ _ (fa_ip _ _ _ _ _ _ _ A)), (proj2 (Z.ltb_lt _ _)) by lia. run_with R1. change (negb (16 =? DIRENT)) with false. cbv iota.
    replace (16 * Z.of_nat j + DIRENT) with (16 * Z.of_nat (S j)) by (unfold DIRENT; lia). destruct (decide (de_inum e = 0)) as [E|E].
    + exists l1. split_and!; [|done|done]. rewrite E. cbn [fmap option_fmap option_map fst snd default Z.eqb]. by rewrite Nat.add_0_r.
    + exists l2. split_and!; [|done|by etrans]. rewrite (proj2 (Z.eqb_neq _ _)) by done. rewrite R2. change (s ◁ l1 ◁ l2) with (s ◁ l2). do 3 f_equal.
      destruct (list_find _ _) as [[]|]; cbn; lia.
Qed.
End lookup.

(** ** Entries written *)

(** Entry [j] of the directory replaced, or a new one at the end. *)
Definition put_dent (j : nat) (e : list Z) (es : list (list Z)) : list (list Z) :=
  if decide (j < length es)%nat then <[j := e]> es else es ++ [e].

Lemma put_dent_lookup j e es k : (j <= length es)%nat -> put_dent j e es !! k = if decide (k = j) then Some e else es !! k.
Proof.
  intros Hj. unfold put_dent. destruct (decide (j < length es)%nat); case_decide as Hk.
  - subst. by apply list_lookup_insert_eq.
  - by apply list_lookup_insert_ne.
  - subst. replace j with (length es) by lia. rewrite lookup_app_r, Nat.sub_diag by lia. done.
  - destruct (decide (k < length es)%nat); [by rewrite lookup_app_l|]. rewrite lookup_app_r by lia.
    rewrite !lookup_ge_None_2; [done|lia|cbn; lia].
Qed.

Lemma dents_None bs k : dents bs !! k = None <-> (length bs < 16 * k + 16)%nat.
Proof.
  rewrite lookup_ge_None, length_dents. pose proof (Nat.div_mod_eq (length bs) 16). pose proof (Nat.mod_upper_bound (length bs) 16). lia.
Qed.

Lemma dents_splice bs j e : (length bs mod 16 = 0)%nat -> (j <= length (dents bs))%nat -> length e = 16%nat ->
  dents (splice (16 * j) e bs) = put_dent j e (dents bs).
Proof.
  intros Hm Hj He. rewrite length_dents in Hj. pose proof (Nat.div_mod_eq (length bs) 16) as Hd. apply list_eq. intros k.
  rewrite put_dent_lookup by (by rewrite length_dents).
  assert (length (splice (16 * j) e bs) = Nat.max (length bs) (16 * j + 16)) as Hl by (unfold splice; rewrite !length_app, length_take, length_drop; lia).
  case_decide as Hk.
  - subst k. rewrite dents_lookup by lia. f_equal. unfold splice. rewrite drop_app_length' by (rewrite length_take; lia). by rewrite take_app_length' by lia.
  - destruct (decide (16 * k + 16 <= length bs)%nat) as [Hin|Hout].
    + rewrite !dents_lookup by lia. f_equal. destruct (decide (16 * j + 16 <= length bs)%nat); [apply take_drop_splice_other; lia|].
      unfold splice. rewrite (take_ge bs), (drop_ge bs), app_nil_r by lia. rewrite drop_app_le by lia. by rewrite take_app_le by (rewrite length_drop; lia).
    + rewrite (proj2 (dents_None bs k)) by lia. apply dents_None. lia.
Qed.

Lemma list_find_same {A} (P : A -> Prop) `{forall x, Decision (P x)} (l l' : list A) :
  (forall k x, P x -> l' !! k = Some x <-> l !! k = Some x) -> list_find P l' = list_find P l.
Proof.
  intros Hs. destruct (list_find P l) as [[k x]|] eqn:E.
  - apply list_find_Some in E as (E1 & E2 & E3). apply list_find_Some. split_and!; [by apply Hs|done|].
    intros j y Hj Hlt Hy. apply (E3 j y); [by apply Hs|done|done].
  - apply list_find_None in E. apply list_find_None, Forall_lookup. intros k x Hx Hp. rewrite Forall_lookup in E. apply (E k x); [by apply Hs|done].
Qed.

(** The map of a directory. *)
Definition dir_map (bs key : list Z) : option Z := (fun x => de_inum x.2) <$> dir_find bs key.

(** The first free entry, or the end. *)
Definition free_dent (bs : list Z) : nat := default (length (dents bs)) (fst <$> list_find (fun e => de_inum e = 0) (dents bs)).

Lemma free_dent_spec bs : (free_dent bs <= length (dents bs))%nat /\ forall e, dents bs !! free_dent bs = Some e -> de_inum e = 0.
Proof.
  unfold free_dent. destruct (list_find _ _) as [[k x]|] eqn:E.
  - change (default _ (fst <$> Some (k, x))) with k. apply list_find_Some in E as (E1 & E2 & _). split; [apply lookup_lt_Some in E1; lia|]. intros e He. congruence.
  - change (default ?m (fst <$> None)) with m. split; [lia|]. intros e He. apply lookup_lt_Some in He. lia.
Qed.

Lemma dirent_spec name inum : 0 < inum < 2 ^ 16 ->
  let e := mk_dirent inum (strncpy (bytes_ptr name) DIRSIZ) in length e = 16%nat /\ de_inum e = inum /\ fname (de_name e) = fname name.
Proof.
  intros Hi e. unfold e, mk_dirent. split_and!.
  - rewrite length_app, length_strncpy. done.
  - unfold de_inum, get16. rewrite drop_0, take_app_length' by done. rewrite of_le16. apply u16_id. lia.
  - unfold de_name. rewrite drop_app_length' by done. apply (chars_strncpy (bytes_ptr name) DIRSIZ).
Qed.

Section put.
Context (bs name : list Z) (inum : Z).
Hypothesis Hm : (length bs mod 16 = 0)%nat.
Hypothesis Hi : 0 < inum < 2 ^ 16.
#[local] Abbreviation e := (mk_dirent inum (strncpy (bytes_ptr name) DIRSIZ)).
#[local] Abbreviation bs' := (splice (16 * free_dent bs) e bs).

Lemma dir_map_put : dir_map bs (fname name) = None -> forall key, dir_map bs' key = if decide (key = fname name) then Some inum else dir_map bs key.
Proof.
  intros Hn key. destruct (dirent_spec name inum Hi) as (E1 & E2 & E3). destruct (free_dent_spec bs) as [F1 F2].
  assert (dents bs' = put_dent (free_dent bs) e (dents bs)) as Ed by (by apply dents_splice). pose proof (fun k => put_dent_lookup (free_dent bs) e (dents bs) k F1) as Hl.
  unfold dir_map, dir_find in *. rewrite Ed. case_decide as Hk.
  - subst key. assert (list_find (named (fname name)) (put_dent (free_dent bs) e (dents bs)) = Some (free_dent bs, e)) as ->; [|cbn [fmap option_fmap option_map snd]; by rewrite E2].
    apply list_find_Some. split_and!; [by rewrite Hl, decide_True|split; [lia|done]|].
    intros k y Hy Hlt. rewrite Hl, decide_False in Hy by lia. apply fmap_None, list_find_None in Hn. exact (Forall_lookup_1 _ _ _ _ Hn Hy).
  - f_equal. apply list_find_same. intros k x [Hx1 Hx2]. rewrite Hl. case_decide as Hkf; [|done]. subst k. split.
    + intros [= <-]. congruence.
    + intros Hx%F2. congruence.
Qed.
End put.

(** ** iget *)

Definition holds_inode (dev inum : Z) (ip : inode) : Prop := 0 < i_ref ip /\ i_dev ip = dev /\ i_inum ip = inum.

Lemma iget_scan_spec ips i dev inum e :
  match iget_scan ips i dev inum e with
  | (Some j, _) => exists k ip, j = (i + k)%nat /\ ips !! k = Some ip /\ holds_inode dev inum ip
  | (None, Some j) => e = Some j \/ exists k ip, j = (i + k)%nat /\ ips !! k = Some ip /\ i_ref ip = 0
  | (None, None) => e = None /\ Forall (fun ip => i_ref ip <> 0) ips
  end.
Proof.
  revert i e. induction ips as [|ip ips IH]; intros i e; cbn [iget_scan]; [destruct e; [by left|done]|].
  destruct ((0 <? i_ref ip) && (i_dev ip =? dev) && (i_inum ip =? inum)) eqn:E.
  { apply andb_true_iff in E as [[E1 E2]%andb_true_iff E3]. exists 0%nat, ip. split_and!; [lia|done|]. split; [lia|lia]. }
  match goal with |- context [iget_scan ips (S i) dev inum ?e'] => set (e1 := e'); specialize (IH (S i) e1) end.
  destruct (iget_scan ips (S i) dev inum e1) as [[j|] [j'|]].
  - destruct IH as (k & x & -> & Hk & Hx). exists (S k), x. split_and!; [lia|done|done].
  - destruct IH as (k & x & -> & Hk & Hx). exists (S k), x. split_and!; [lia|done|done].
  - destruct IH as [IH|(k & x & -> & Hk & Hx)]; [|right; exists (S k), x; split_and!; [lia|done|done]]. unfold e1 in IH. destruct e as [j|]; [by left|].
    destruct (Z.eqb_spec (i_ref ip) 0); [|done]. injection IH as <-. right. exists 0%nat, ip. split_and!; [lia|done|done].
  - destruct IH as [IH1 IH2]. unfold e1 in IH1. destruct e; [done|]. destruct (Z.eqb_spec (i_ref ip) 0); [done|]. split; [done|]. by constructor.
Qed.

Lemma iget_scan_none ips i dev inum e o : iget_scan ips i dev inum e = (None, o) -> Forall (fun x => ~ holds_inode dev inum x) ips.
Proof.
  revert i e. induction ips as [|ip ips IH]; intros i e H; cbn [iget_scan] in H; [constructor|].
  destruct ((0 <? i_ref ip) && (i_dev ip =? dev) && (i_inum ip =? inum)) eqn:E; [done|]. constructor; [|by eapply IH].
  intros (H1 & H2 & H3). rewrite (proj2 (Z.ltb_lt _ _) H1), (proj2 (Z.eqb_eq _ _) H2), (proj2 (Z.eqb_eq _ _) H3) in E. done.
Qed.

(** There is an entry for the inode, or one that is free. *)
Lemma iget_run s dev inum : (exists ip, ip ∈ k_icache s /\ i_ref ip = 0) ->
  exists j ip ip', iget dev inum [] s = Ret j [] (put_ip j ip' s) /\ k_icache s !! j = Some ip /\ holds_inode dev inum ip' /\
    (holds_inode dev inum ip /\ ip' = set_i_ref (i_ref ip + 1) ip \/
     i_ref ip = 0 /\ ip' = set_i_valid 0 (set_i_ref 1 (set_i_id dev inum ip)) /\ Forall (fun x => ~ holds_inode dev inum x) (k_icache s)).
Proof.
  intros (x & Hx & Hr). pose proof (iget_scan_none (k_icache s) 0 dev inum None) as Hno. pose proof (iget_scan_spec (k_icache s) 0 dev inum None) as H. unfold iget. repeat kstep_base.
  destruct (iget_scan (k_icache s) 0 dev inum None) as [[j|] [j'|]].
  3: destruct H as [H|H]; [done|].
  - destruct H as (k & ip & -> & Hk & H1 & H2 & H3). eexists k, ip, _. unfold mod_ip. repeat kstep_base. cbn [Nat.add]. rewrite (upd_put_ip _ _ _ _ Hk).
    split_and!; [done|done|split; [cbn; lia|done]|left; by split].
  - destruct H as (k & ip & -> & Hk & H1 & H2 & H3). eexists k, ip, _. unfold mod_ip. repeat kstep_base. cbn [Nat.add]. rewrite (upd_put_ip _ _ _ _ Hk).
    split_and!; [done|done|split; [cbn; lia|done]|left; by split].
  - destruct H as (k & ip & -> & Hk & H1). cbn [Nat.add]. set (ip1 := set_i_id dev inum ip). set (ip2 := set_i_ref 1 ip1). exists k, ip, (set_i_valid 0 ip2).
    unfold mod_ip. repeat kstep_base. rewrite (upd_put_ip _ _ _ _ Hk). fold ip1. rewrite (upd_put_ip _ _ _ (set_i_ref 1) (put_ip_lookup s k ip ip1 Hk)), put_ip_twice. fold ip2.
    rewrite (upd_put_ip _ _ _ (set_i_valid 0) (put_ip_lookup s k ip ip2 Hk)), put_ip_twice.
    split_and!; [done|done|split; [cbn; lia|done]|right]. split_and!; [done|done|by eapply Hno].
  - destruct H as [_ H]. rewrite Forall_forall in H. by destruct (H x Hx).
Qed.

(** ** dirlookup *)

(** The call finds inode [inum], or nothing. *)
Definition finds (s : kst) (i : nat) (name : list Z) (r : option Z) : Prop :=
  exists s', match r with
  | None => dirlookup i name [] s = Ret None [] s'
  | Some inum => exists k off, dirlookup i name [] s = Ret (Some (k, off)) [] s' /\ holds_inode 1 inum (get_ip k s')
  end.

Section dirlookup.
Context {w : bool} (s : kst) (n : Z) (V : Z -> block) (B : gset Z) (d0 : Z) (i : nat) (ip : inode).
Hypothesis A : file_at_ w s n V B d0 i ip.
Hypothesis D : directory (k_sb s) d0 V ip.
Hypothesis HB : (size B < NBUF)%nat.
Context (name : list Z).
Hypothesis Hname : Forall byte name.

Lemma dirlookup_loop_all : exists l, (forall B (f : option (Z * Z) -> K kst B),
  (ip ← ip_ i;
   if negb (i_type ip =? T_DIR) then panic "dirlookup not DIR"
   else r ← dirlookup_loop (Z.to_nat (i_size ip / DIRENT + 1)) i name 0; f r) [] s =
  f ((fun x => (de_inum x.2, 16 * Z.of_nat x.1)) <$> dir_find (bytes_of V ip) (fname name)) [] (s ◁ l)) /\ log_inv l n [] V B /\ inside (k_lst s) l.
Proof.
  destruct (dirlookup_loop_run n V B d0 i ip (k_sb s) D HB (length (dents (bytes_of V ip))) 0 (Z.to_nat (i_size ip / DIRENT + 1)) s name A eq_refl Hname eq_refl (dir_fuel _ _ _ _ D))
    as (l & R & Il & N). exists l. split; [|done]. intros C f. unfold ip_. repeat kstep_base. rewrite (get_ip_Some _ _ _ (fa_ip _ _ _ _ _ _ _ A)), (dr_type _ _ _ _ D).
  change (negb (T_DIR =? T_DIR)) with false. cbv iota. change (16 * Z.of_nat 0) with 0 in R. rewrite drop_0 in R. by run_with R.
Qed.

Lemma dirlookup_found inum : (exists x, x ∈ k_icache s /\ i_ref x = 0) -> dir_map (bytes_of V ip) (fname name) = Some inum ->
  exists l k x x' off, dirlookup i name [] s = Ret (Some (k, off)) [] (put_ip k x' (s ◁ l)) /\ log_inv l n [] V B /\ inside (k_lst s) l /\
    k_icache s !! k = Some x /\ holds_inode 1 inum x' /\
    (holds_inode 1 inum x /\ x' = set_i_ref (i_ref x + 1) x \/
     i_ref x = 0 /\ x' = set_i_valid 0 (set_i_ref 1 (set_i_id 1 inum x)) /\ Forall (fun y => ~ holds_inode 1 inum y) (k_icache s)).
Proof.
  intros Hroom Hfind. destruct dirlookup_loop_all as (l & R & Il & N). unfold dir_map in Hfind.
  destruct (dir_find (bytes_of V ip) (fname name)) as [[j e]|]; cbn [fmap option_fmap option_map fst snd] in *; [|done]. injection Hfind as <-.
  destruct (iget_run (s ◁ l) 1 (de_inum e) Hroom) as (k & x & x' & R2 & Hk & Hx & Hcase). exists l, k, x, x', (16 * Z.of_nat j).
  split_and!; [|done..]. unfold dirlookup. rewrite R. unfold ip_. repeat kstep_base.
  rewrite (get_ip_Some (s ◁ l) _ _ (fa_ip _ _ _ _ _ _ _ A)), (fa_dev _ _ _ _ _ _ _ A). by run_with R2.
Qed.

Lemma dirlookup_finds : (exists x, x ∈ k_icache s /\ i_ref x = 0) -> finds s i name (dir_map (bytes_of V ip) (fname name)).
Proof.
  intros Hroom. unfold finds. destruct (dir_map (bytes_of V ip) (fname name)) as [inum|] eqn:E.
  - destruct (dirlookup_found inum Hroom E) as (l & k & x & x' & off & R & _ & _ & Hk & Hx & _). exists (put_ip k x' (s ◁ l)), k, off.
    split; [exact R|]. by rewrite (get_ip_Some _ _ _ (put_ip_lookup (s ◁ l) _ _ x' Hk)).
  - destruct dirlookup_loop_all as (l & R & _). exists (s ◁ l). unfold dirlookup. rewrite R. apply fmap_None in E. by rewrite E.
Qed.
End dirlookup.

(** ** dirlink *)

Section dirlink.
Context (s : kst) (n : Z) (V : Z -> block) (B : gset Z) (d0 : Z) (i : nat) (ip : inode).
Hypothesis A : file_at s n V B d0 i ip.
Hypothesis D : directory (k_sb s) d0 V ip.
Hypothesis Hw : (weight (k_sb s) V (i_addrs ip) B < 24)%nat.
Context (name : list Z) (inum : Z) (m0 : nat).
Hypothesis Hname : Forall byte name.
Hypothesis Hi : 0 < inum < 2 ^ 16.
Hypothesis Hfree : nfree (k_sb s) V (2 + m0).
Hypothesis Hmax : i_size ip + 16 <= MAXFILE * BSIZE.
#[local] Abbreviation bs := (bytes_of V ip).
#[local] Abbreviation e := (mk_dirent inum (strncpy (bytes_ptr name) DIRSIZ)).
#[local] Abbreviation off := (16 * Z.of_nat (free_dent bs)).

Lemma dirlink_run : dir_map bs (fname name) = None ->
  exists l V' ip' B', dirlink i name inum [] s = Ret 0 [] (put_ip i ip' (s ◁ l)) /\ file_at (put_ip i ip' (s ◁ l)) n V' B' d0 i ip' /\
    write_done (k_sb s) d0 V ip off e V' ip' /\ inside (k_lst s) l /\ (size B' <= weight (k_sb s) V (i_addrs ip) B + 2)%nat /\ nfree (k_sb s) V' m0.
Proof.
  intros Hnone. destruct (weight_bounds (k_sb s) V (i_addrs ip) B) as [HwB _]. assert (size B < NBUF)%nat as HB by (unfold NBUF; lia).
  destruct (dirlookup_loop_all s n V B d0 i ip A D HB name Hname) as (l1 & R1 & I1 & N1).
  assert (dir_find bs (fname name) = None) as Hn by (by apply fmap_None in Hnone). rewrite Hn in R1.
  pose proof (file_at_lst _ _ _ _ _ _ _ _ A I1 N1) as A1. destruct (dir_length _ _ _ _ D) as [_ Hlen]. destruct (free_dent_spec bs) as [Hfd _].
  destruct (dirlink_loop_run n V B d0 i ip (k_sb s) D HB (length (dents bs)) 0 (Z.to_nat (i_size ip / DIRENT + 1)) (s ◁ l1) A1 eq_refl eq_refl (dir_fuel _ _ _ _ D))
    as (l2 & R2 & I2 & N2). change (16 * Z.of_nat 0) with 0 in R2. rewrite drop_0 in R2. change (0 + ?x)%nat with x in R2. fold (free_dent bs) in R2.
  pose proof (file_at_lst _ _ _ _ _ _ _ _ A1 I2 N2) as A2. change (s ◁ l1 ◁ l2) with (s ◁ l2) in *.
  destruct (dirent_spec name inum Hi) as (E1 & _). pose proof (dr_ok _ _ _ _ D) as Ok.
  destruct (writei_run (s ◁ l2) n V B d0 i ip A2 Ok ltac:(by rewrite (dr_type _ _ _ _ D)) e off 1 m0) as (l3 & V' & ip' & B' & R3 & A3 & N3 & W3 & HB3 & _ & Hf3);
    rewrite ?E1; [lia|lia| |change (Z.to_nat (Z.of_nat 16 / BSIZE + 2)) with 2%nat; lia|done|change (k_sb (s ◁ l2)) with (k_sb s); lia|].
  { right. unfold BSIZE. pose proof (Z.div_mod off 512). pose proof (Z.mod_pos_bound off 512).
    change (Z.of_nat 16) with 16. change (512 * Z.of_nat 1) with 512. lia. }
  change (k_sb (s ◁ l2)) with (k_sb s) in *. change (s ◁ l2 ◁ l3) with (s ◁ l3) in *. rewrite E1 in R3.
  exists l3, V', ip', B'. split_and!; [|exact A3|exact W3|etrans; [exact N1|]; by etrans|lia|exact Hf3].
  unfold dirlink, dirlookup. rewrite bind_unfold, R1. cbn [fmap option_fmap option_map]. rewrite mret_run. cbv beta iota.
  unfold ip_. repeat kstep_base. rewrite (get_ip_Some _ _ _ (fa_ip _ _ _ _ _ _ _ A1)). run_with R2. cbv zeta.
  change (Z.of_nat 16) with DIRENT in R3. by run_with R3.
Qed.

Lemma dirlink_directory V' ip' : write_done (k_sb s) d0 V ip off e V' ip' -> directory (k_sb s) d0 V' ip'.
Proof.
  intros [W1 W2 W3 _]. destruct (dirent_spec name inum Hi) as (E1 & _). split; [done|rewrite W2; exact (dr_type _ _ _ _ D)| |].
  - rewrite W2. cbn [i_size set_i_size]. rewrite E1. destruct (Z.max_spec (i_size ip) (off + Z.of_nat 16)) as [[_ ->]|[_ ->]]; [|exact (dr_size _ _ _ _ D)].
    replace (off + Z.of_nat 16) with ((Z.of_nat (free_dent bs) + 1) * 16) by lia. by rewrite Z.mod_mul.
  - rewrite W3. unfold splice. apply Forall_app; split; [by apply Forall_take, D|]. apply Forall_app; split; [|by apply Forall_drop, D].
    unfold mk_dirent. apply Forall_app; split; [apply le16_bytes|]. apply strncpy_bytes. intros j. by apply bytes_ptr_byte.
Qed.
End dirlink.
