(* ===== verification/Dirthm.v ===== *)
(** * A directory is a map

    The theorem on [dirlookup] and [dirlink], with the root directory of an
    image that mkfs made as its example. *)

From Stdlib Require Import ZArith Lia String.
From stdpp Require Import prelude numbers strings option gmap list.
From S2P Require Import Prelude Kernel Mem Sched Monitor Sleeplock Bio Log Logcrash Logtxn Console Kst Inode Fsblock Fsfile Fsinode Device Fs Fsio Fscrash File Filewrite Mkfs Mkfsok Mkfsmain Dir.

#[local] Abbreviation byte := (fun c => 0 <= c < 256).

Lemma room_kept s i ip ip' l : k_icache s !! i = Some ip -> i_ref ip' = i_ref ip ->
  (exists x, x ∈ k_icache s /\ i_ref x = 0) -> exists x, x ∈ k_icache (put_ip i ip' (s ◁ l)) /\ i_ref x = 0.
Proof.
  intros Hi Hr (x & (k & Hk)%list_elem_of_lookup & Hx). destruct (decide (k = i)) as [->|Hne].
  - exists ip'. split; [|congruence]. apply (list_elem_of_lookup_2 _ i). by apply (put_ip_lookup (s ◁ l) i ip).
  - exists x. split; [|done]. apply (list_elem_of_lookup_2 _ k). cbn. by rewrite list_lookup_alter_ne.
Qed.

(** ** A name that is already there *)

(** [iput] of a reference to a file that has other links, or was never read. *)
Lemma iput_run s k x n : k_icache s !! k = Some x -> current (get_part s) n -> slocked (i_lock x) = 0 -> i_valid x = 0 \/ i_nlink x <> 0 ->
  exists t, iput k [] s = Ret tt [] (put_ip k (set_i_ref (i_ref x - 1) (set_i_lock (mkSleeplock 0 0) x)) (put_part t s)) /\ woke (get_part s) t.
Proof.
  intros Hk Hc Hl Hv. eexists. split; [|apply woke_wakeup]. unfold iput. run_with (acquire_inode_run s k x n Hk Hc Hl).
  set (x1 := set_i_lock (mkSleeplock 1 n) x). pose proof (put_ip_lookup s k x x1 Hk) as H1. unfold ip_. repeat kstep_base. rewrite (get_ip_Some _ _ _ H1).
  assert (negb (i_valid x1 =? 0) && (i_nlink x1 =? 0) = false) as ->.
  { destruct Hv as [Hv|Hv]; cbn; [by rewrite Hv|]. rewrite (proj2 (Z.eqb_neq _ _) Hv). apply andb_false_r. }
  repeat kstep_base. unfold release_inode. rewrite (releasesleep_run (put_ilock k)) by done. unfold mod_ip. repeat kstep_base. f_equal.
  unfold put_ip, put_ilock, upd_ip. cbn. unfold set_k_icache. cbn. f_equal. apply list_eq. intros j. destruct (decide (k = j)) as [<-|].
  - by rewrite !list_lookup_alter_eq, Hk.
  - by rewrite !list_lookup_alter_ne.
Qed.
Section taken.
Context (s : kst) (n : Z) (V : Z -> block) (B : gset Z) (d0 : Z) (i : nat) (ip : inode) (name : list Z) (inum k : Z).
Hypothesis A : file_at s n V B d0 i ip.
Hypothesis D : directory (k_sb s) d0 V ip.
Hypothesis HB : (size B < NBUF)%nat.
Hypothesis Hroom : exists x, x ∈ k_icache s /\ i_ref x = 0.
Hypothesis Hname : Forall byte name.
Hypothesis Hlocked : slocked (i_lock ip) = 1.
Hypothesis Hk : dir_map (bytes_of V ip) (fname name) = Some k.

(** The entries of the cache that a lookup of inode [k] can return. *)
Definition usable (k : Z) (x : inode) : Prop :=
  (holds_inode 1 k x -> slocked (i_lock x) = 0 /\ (i_valid x = 0 \/ i_nlink x <> 0)) /\ (i_ref x = 0 -> slocked (i_lock x) = 0).

Lemma dirlink_taken : Forall (usable k) (k_icache s) ->
  exists s', dirlink i name inum [] s = Ret (-1) [] s' /\ file_at s' n V B d0 i ip /\ k_sb s' = k_sb s.
Proof.
  intros Hu. destruct (dirlookup_found s n V B d0 i ip A D HB name Hname k Hroom Hk) as (l & j & x & x' & off & R & Il & N & Hj & Hx' & Hcase).
  pose proof (file_at_lst _ _ _ _ _ _ _ _ A Il N) as A1. pose proof (put_ip_lookup (s ◁ l) j x x' Hj) as Hj'.
  pose proof (proj1 (Forall_lookup _ _) Hu j x Hj) as [U1 U2].
  assert (slocked (i_lock x) = 0 /\ i_lock x' = i_lock x /\ (i_valid x' = 0 \/ i_nlink x' <> 0)) as (L1 & L2 & L3).
  { destruct Hcase as [[Hx ->]|(Hr & -> & _)]; [destruct (U1 Hx) as [? ?]; by split_and!|]. split_and!; [by apply U2|done|by left]. }
  assert (j <> i) as Hne by (intros ->; pose proof (fa_ip _ _ _ _ _ _ _ A); congruence).
  assert (current (get_part (put_ip j x' (s ◁ l))) n) as Hc by exact (fs_current _ _ _ _ _ _ (fa_fs _ _ _ _ _ _ _ A1)).
  destruct (iput_run (put_ip j x' (s ◁ l)) j x' n Hj' Hc) as (t & R2 & Ht); [congruence|done|].
  eexists. split; [unfold dirlink; run_with R; by run_with R2|]. split; [|done].
  destruct (woke_inside l n V B t Il Ht) as [It Nt]. pose proof (file_at_lst _ _ _ _ _ _ _ _ A1 It Nt) as A2.
  destruct A2 as [F1 F2 F3 F4]. split; [|cbn; rewrite !list_lookup_alter_ne by done; exact F2|exact F3|exact F4].
  destruct F1 as [G1 G2]. by split.
Qed.

(** [dirlink] of a name that stands for the directory itself, such as ".": the
    process sleeps on the lock it holds, inside its transaction. *)
Lemma dirlink_self_sleeps : i_lock ip = mkSleeplock 1 n -> 0 < i_ref ip -> i_inum ip = k ->
  (forall j x, k_icache s !! j = Some x -> holds_inode 1 k x -> j = i) ->
  exists s' c p, dirlink i name inum [] s = Sched s' /\ procs (get_part s') !! c = Some p /\ pid p = n /\ state p = SLEEPING /\
    pchan p = Some (ChSleepInode i) /\ i_lock (get_ip i s') = mkSleeplock 1 n /\ l_outstanding (llog (k_lst s')) = l_outstanding (llog (k_lst s)).
Proof.
  intros Hl Hr Hself Huniq. destruct (dirlookup_found s n V B d0 i ip A D HB name Hname k Hroom Hk) as (l & j & x & x' & off & R & Il & N & Hj & Hx' & Hcase).
  pose proof (file_at_lst _ _ _ _ _ _ _ _ A Il N) as A1. pose proof (fa_ip _ _ _ _ _ _ _ A) as Hip. pose proof (fa_dev _ _ _ _ _ _ _ A) as Hdev.
  destruct Hcase as [[Hx ->]|(_ & _ & Hno)]; [|by destruct (proj1 (Forall_lookup _ _) Hno i ip Hip)]. pose proof (Huniq j x Hj Hx) as ->.
  assert (x = ip) as -> by (rewrite Hip in Hj; by injection Hj). set (ip1 := set_i_ref (i_ref ip + 1) ip) in *. pose proof (put_ip_lookup (s ◁ l) i ip ip1 Hip) as Hip1.
  assert (current (get_part (put_ip i ip1 (s ◁ l))) n) as (c & p & Hc & Hp & Hpid & _) by exact (fs_current _ _ _ _ _ _ (fa_fs _ _ _ _ _ _ _ A1)).
  eexists _, c, (set_state SLEEPING (set_chan (Some (ChSleepInode i)) p)). split_and!.
  - unfold dirlink. run_with R. rewrite bind_unfold. unfold iput. rewrite bind_unfold. unfold acquire_inode, acquiresleep, acquiresleep_loop.
    repeat kstep_base. unfold ilock_of. rewrite (get_ip_Some _ _ _ Hip1). cbn [ip1 i_lock set_i_ref]. rewrite Hl. cbn [slocked Z.eqb negb].
    rewrite (sleep_run _ _ _ c p) by done. reflexivity.
  - rewrite get_put_part. unfold asleep. by rewrite !upd_lookup, !decide_True, Hp by done.
  - exact Hpid.
  - reflexivity.
  - reflexivity.
  - unfold get_ip. cbn. by rewrite list_lookup_alter_eq, Hip.
  - exact (in_out _ _ N).
Qed.
End taken.

(** C7: a directory implements a map from names to inode numbers.  [dirlookup]
    finds the inode that the map gives for the name; [dirlink] of a name that is
    not in it adds the pair to the map, and changes neither the other names nor
    any other file; [dirlink] of a name that is returns -1 and leaves the
    directory as it was, when the inode of that name is not locked (in
    particular it is not the directory itself). *)
Theorem directory_map s n V B d0 i ip :
  file_at s n V B d0 i ip -> directory (k_sb s) d0 V ip -> (weight (k_sb s) V (i_addrs ip) B < 24)%nat ->
  (exists x, x ∈ k_icache s /\ i_ref x = 0) ->
  (forall name, Forall byte name -> finds s i name (dir_map (bytes_of V ip) (fname name))) /\
  (forall name inum, Forall byte name -> 0 < inum < 2 ^ 16 -> dir_map (bytes_of V ip) (fname name) = None ->
   nfree (k_sb s) V 2 -> i_size ip + 16 <= MAXFILE * BSIZE ->
   exists s' V' ip' B', dirlink i name inum [] s = Ret 0 [] s' /\ file_at s' n V' B' d0 i ip' /\ directory (k_sb s) d0 V' ip' /\
     (forall key, dir_map (bytes_of V' ip') key = if decide (key = fname name) then Some inum else dir_map (bytes_of V ip) key) /\
     (forall jp, inode_ok (k_sb s) d0 V jp -> disjoint_files V ip jp -> inode_ok (k_sb s) d0 V' jp /\ bytes_of V' jp = bytes_of V jp) /\
     (forall nm, Forall byte nm -> finds s' i nm (dir_map (bytes_of V' ip') (fname nm)))) /\
  (forall name inum k, Forall byte name -> dir_map (bytes_of V ip) (fname name) = Some k ->
   slocked (i_lock ip) = 1 -> Forall (usable k) (k_icache s) ->
   exists s', dirlink i name inum [] s = Ret (-1) [] s' /\ file_at s' n V B d0 i ip /\ k_sb s' = k_sb s).
Proof.
  intros A D Hw Hroom. pose proof (weight_bounds (k_sb s) V (i_addrs ip) B) as HwB. split_and!.
  - intros name Hname. apply (dirlookup_finds s n V B d0 i ip A D); [unfold NBUF; lia|done|done].
  - intros name inum Hname Hi Hnone Hfree Hmax.
    destruct (dirlink_run s n V B d0 i ip A D Hw name inum 0 Hname Hi Hfree Hmax Hnone) as (l & V' & ip' & B' & R & A' & W & N & HB & _).
    assert (directory (k_sb s) d0 V' ip') as D' by (eapply dirlink_directory; eassumption).
    exists (put_ip i ip' (s ◁ l)), V', ip', B'. split_and!; [exact R|exact A'|exact D'|..].
    + intros key. rewrite (wd_bytes _ _ _ _ _ _ _ _ W). replace (Z.to_nat (16 * Z.of_nat (free_dent (bytes_of V ip)))) with (16 * free_dent (bytes_of V ip))%nat by lia.
      apply dir_map_put; [|done|done]. destruct (dir_length _ _ _ _ D) as [E _]. pose proof (dr_size _ _ _ _ D). rewrite <- E in *.
      apply Nat2Z.inj. by rewrite Nat2Z.inj_mod.
    + intros jp J Dj. by destruct (wd_others _ _ _ _ _ _ _ _ W jp J Dj) as (? & ? & _).
    + intros nm Hnm. apply (dirlookup_finds (put_ip i ip' (s ◁ l)) n V' B' d0 i ip' A' D'); [unfold NBUF; lia|done|].
      apply (room_kept _ _ ip); [apply A|by rewrite (wd_ip _ _ _ _ _ _ _ _ W)|done].
  - intros name inum k Hname Hk Hl Hu. apply (dirlink_taken s n V B d0 i ip name inum k); try done. unfold NBUF. lia.
Qed.

(** C37: linking a name that stands for the directory itself hangs the file
    system.  When the caller of [dirlink] holds the lock of the directory, as
    [sys_link] does, and the name is one that the directory has for itself,
    [iput] of the inode found waits for that lock: the process sleeps on a
    lock that only it can release, with its transaction open. *)
Theorem dirlink_dot_deadlock s n V B d0 i ip name inum :
  file_at s n V B d0 i ip -> directory (k_sb s) d0 V ip -> (size B < NBUF)%nat -> (exists x, x ∈ k_icache s /\ i_ref x = 0) ->
  Forall byte name -> dir_map (bytes_of V ip) (fname name) = Some (i_inum ip) -> i_lock ip = mkSleeplock 1 n -> 0 < i_ref ip ->
  (forall j x, k_icache s !! j = Some x -> holds_inode 1 (i_inum ip) x -> j = i) ->
  exists s' c p, dirlink i name inum [] s = Sched s' /\ procs (get_part s') !! c = Some p /\ pid p = n /\ state p = SLEEPING /\
    pchan p = Some (ChSleepInode i) /\ i_lock (get_ip i s') = mkSleeplock 1 n /\ l_outstanding (llog (k_lst s')) = l_outstanding (llog (k_lst s)).
Proof. intros A D HB Hroom Hname Hk Hl Hr Huniq. by apply (dirlink_self_sleeps s n V B d0 i ip name inum (i_inum ip)). Qed.

(** ** An example *)

(** The kernel has started on the image of one file, with the root directory
    (locked) and a free entry in its cache, and is in a transaction. *)
Definition root_ip (D : Z -> block) : inode := set_i_lock (mkSleeplock 1 3) (kip D ROOTINO).
Definition dir_state (D : Z -> block) : kst :=
  let s := started D mk_sb FSSIZE bio_procs [root_ip D; inode0] [] in s ◁ (put_log (set_outstanding 1 (llog (k_lst s))) (k_lst s)).

Lemma dir_state_ok : exists s, mkfs_main (opened <$> ex_files) mkfs_start = Done tt s /\
  let V := fsimg s in let ip := root_ip V in
  file_at (dir_state V) 3 V ∅ 59 0 ip /\ directory mk_sb 59 V ip /\ bytes_of V ip = padded (root_bytes ex_files) /\ i_size ip = 512 /\ nfree mk_sb V 2.
Proof.
  destruct (mkfs_run ex_files ex_files_fit) as (s0 & s & R & E & H). exists s. split; [exact R|]. intros V ip.
  pose proof (image_file s0 V _ 0 T_DIR _ H E eq_refl) as F. change (Z.of_nat 0 + 1) with ROOTINO in F. destruct F as [F1 F2 F3 F4 F5 F6]. 
  pose proof (image_idle s0 (hl_inv _ _ H) V [ip; inode0] [] E) as Hz.
  destruct (kbegin_op_run _ 3 59 Hz) as (l & _ & Hfs & ->). rewrite (proj1 (started_disk _ _ _ _ _ _)) in Hfs. split_and!.
  - split; [exact Hfs|reflexivity|reflexivity|exact (io_file _ _ _ _ F1)].
  - split; [exact (inode_ok_lock _ _ _ _ _ F1)|exact F2|change (i_size ip) with (i_size (kip V ROOTINO)); rewrite F4; reflexivity|].
    change (bytes_of V ip) with (bytes_of V (kip V ROOTINO)). rewrite F5. apply (bool_decide_unpack _). by vm_compute.
  - exact F5.
  - change (i_size (kip V ROOTINO) = 512). rewrite F4. reflexivity.
  - exists [998; 999]. split_and!; [apply (bool_decide_unpack _); by vm_compute|done|]. intros c Hc.
    assert (998 <= c < 1000) as Hr by (apply elem_of_cons in Hc as [->|Hc%list_elem_of_singleton]; lia). change (sb_size mk_sb) with 1000. split; [lia|].
    unfold used. rewrite E. fold (used mk_sb (view s0) c). rewrite (view_used s0 (hl_inv _ _ H)) by lia. rewrite (hl_free _ _ H). apply Z.ltb_ge.
    change (total _) with 2. lia.
Qed.

(** The names a and b, and inode 7. *)
Lemma directory_map_witness : exists s, mkfs_main (opened <$> ex_files) mkfs_start = Done tt s /\
  finds (dir_state (fsimg s)) 0 [97] (Some 2) /\ exists s' : kst, dirlink 0 [98] 7 [] (dir_state (fsimg s)) = Ret 0 [] s' /\ finds s' 0 [98] (Some 7) /\
    exists s'' : kst, dirlink 0 [97] 7 [] (dir_state (fsimg s)) = Ret (-1) [] s''.
Proof.
  destruct dir_state_ok as (s & R & A & D & Hb & Hsz & Hf). exists s. split; [exact R|].
  assert (exists x, x ∈ k_icache (dir_state (fsimg s)) /\ i_ref x = 0) as Hroom by (exists inode0; split; [right; left|reflexivity]).
  assert (weight mk_sb (fsimg s) (i_addrs (root_ip (fsimg s))) ∅ < 24)%nat as Hw.
  { destruct (weight_bounds mk_sb (fsimg s) (i_addrs (root_ip (fsimg s))) ∅) as [_ Hw]. rewrite size_empty in Hw. lia. }
  destruct (directory_map (dir_state (fsimg s)) 3 (fsimg s) ∅ 59 0 (root_ip (fsimg s)) A D Hw Hroom) as (H1 & H2 & H3). rewrite Hb in H1, H2, H3. split.
  - exact (H1 [97] ltac:(repeat constructor; lia)).
  - destruct (H2 [98] 7) as (s' & V' & ip' & B' & R' & _ & _ & Hm & _ & Hfi); [repeat constructor; lia|lia|by vm_compute|exact Hf|rewrite Hsz; unfold MAXFILE, NDIRECT, NINDIRECT, BSIZE; lia|].
    exists s'. split; [exact R'|]. specialize (Hfi [98] ltac:(repeat constructor; lia)). rewrite Hm, decide_True in Hfi by done. split; [exact Hfi|].
    destruct (H3 [97] 7 2) as (s'' & R'' & _); [repeat constructor; lia|by vm_compute|reflexivity| |by exists s''].
    apply Forall_cons; split; [|apply Forall_cons; split; [|constructor]]; (split; [intros (H & _ & E); try discriminate E; by cbn in H|intros E; try discriminate E; reflexivity]).
Defined.

(** The name "." in the root directory. *)
Lemma dirlink_dot_deadlock_witness : exists s s' : _, mkfs_main (opened <$> ex_files) mkfs_start = Done tt s /\
  dirlink 0 [46] 7 [] (dir_state (fsimg s)) = Sched s' /\ i_lock (get_ip 0 s') = mkSleeplock 1 3.
Proof.
  destruct dir_state_ok as (s & R & A & D & Hb & _).
  destruct (dirlink_dot_deadlock (dir_state (fsimg s)) 3 (fsimg s) ∅ 59 0 (root_ip (fsimg s)) [46] 7 A D) as (s' & c & p & R' & _ & _ & _ & _ & Hl & _).
  - rewrite size_empty. unfold NBUF. lia.
  - exists inode0. split; [right; left|reflexivity].
  - repeat constructor; lia.
  - rewrite Hb. by vm_compute.
  - reflexivity.
  - reflexivity.
  - intros [|[|j]] x Hx; [done| |done]. injection Hx as <-. intros (H & _). by cbn in H.
  - exists s, s'. by split_and!.
Defined.
