(* ===== verification/Filethm.v ===== *)
(** * What reading and writing files promises

    The theorems on [filewrite] and [fileread], with an example of a file
    system they apply to. *)

From Stdlib Require Import ZArith Lia String.
From stdpp Require Import prelude numbers strings option gmap list relations.
From S2P Require Import Prelude Kernel Mem Kalloc Sched Monitor Mailbox Sleeplock Pipe Bio Log Logcrash Logtxn Console Kst Inode Fsblock Fsfile Fsinode Device Fs Fsio Fscrash File Filewrite Mkfs.

(** ** Writing *)

Lemma filewrite_one s n d0 f x ip addr :
  ready s n d0 f x ip -> f_writable x <> 0 -> (0 < length addr)%nat -> Z.of_nat (length addr) <= max_write ->
  f_off x + Z.of_nat (length addr) <= MAXFILE * BSIZE -> nfree (k_sb s) (kdisk s) 8 ->
  exists s' ip' tr, filewrite f addr (Z.of_nat (length addr)) [] s = Ret (Z.of_nat (length addr)) [] s' /\
    writes (lbio (k_lst s')) = writes (lbio (k_lst s)) ++ tr /\
    write_done (k_sb s) d0 (kdisk s) ip (f_off x) addr (kdisk s') ip' /\
    crash_atomic (k_sb s) (disksize (lbio (k_lst s))) (kdisk s) (kdisk s') tr.
Proof.
  intros Hrd Hw Hpos Hmax Hend Hfree. destruct (write_round_run s n d0 f x ip addr 0 Hrd Hpos Hmax Hend Hfree) as (l & ip' & tr & R & Hrd' & W & _ & N & Hcr & _).
  set (s' := put_f f _ _) in *. set (cnt := Z.of_nat (length addr)) in *. exists s', ip', tr. split_and!; [|apply N|exact W|exact Hcr].
  assert (Z.min (cnt - 0) max_write = cnt) as Emin by lia. change max_write with 1536 in Hmax.
  assert (exists q, Z.to_nat (cnt / max_write + 1) = S q) as [q Eq].
  { exists (Z.to_nat (cnt / max_write)). pose proof (Z.div_pos cnt max_write ltac:(lia) ltac:(done)). lia. }
  unfold filewrite, file_. rewrite bind_unfold, gets_run. cbv beta iota. rewrite (get_f_Some s f x (rd_file _ _ _ _ _ _ Hrd)).
  rewrite (proj2 (Z.eqb_neq _ _)), (rd_type _ _ _ _ _ _ Hrd) by done. rewrite bind_unfold, Eq.
  rewrite (filewrite_loop_S q f addr 0 cnt [] s s'); [|lia|by rewrite Emin].
  rewrite Emin. destruct q; cbn [filewrite_loop]; rewrite Z.add_0_l, Z.leb_refl, mret_run; by rewrite Z.eqb_refl.
Qed.

(** C4: a write of up to [max_write] bytes through [filewrite] is atomic across
    crashes.  It returns the number of bytes and leaves a list [tr] of disk
    writes.  Let the machine stop after any number [k] of them and then any
    number of times in recovery: once [initlog] has completed, the file has
    either its old bytes or the old bytes with the new ones at the offset, the
    latter if all of [tr] was written, and its inode on disk is consistent
    either way.  Every other file has the bytes it had. *)
Theorem filewrite_crash_safe s n d0 f x ip addr :
  ready s n d0 f x ip -> f_writable x <> 0 -> (0 < length addr)%nat -> Z.of_nat (length addr) <= max_write ->
  f_off x + Z.of_nat (length addr) <= MAXFILE * BSIZE -> nfree (k_sb s) (kdisk s) 8 ->
  let old := bytes_of (kdisk s) ip in
  let size := disksize (lbio (k_lst s)) in
  exists s' ip' tr, filewrite f addr (Z.of_nat (length addr)) [] s = Ret (Z.of_nat (length addr)) [] s' /\
    writes (lbio (k_lst s')) = writes (lbio (k_lst s)) ++ tr /\
    forall k D t m, rtc (crash_reboot size) (apply_writes (take k tr) (kdisk s)) D -> current t m ->
      exists sr, initlog 1 [] (boot D size t) = Ret tt [] sr /\
        let E := disk (lbio sr) in
        let new := inode_ok (k_sb s) d0 E ip' /\ bytes_of E ip' = splice (Z.to_nat (f_off x)) addr old in
        (inode_ok (k_sb s) d0 E ip /\ bytes_of E ip = old \/ new) /\ ((length tr <= k)%nat -> new) /\
        forall jp, inode_ok (k_sb s) d0 (kdisk s) jp -> disjoint_files (kdisk s) ip jp ->
          inode_ok (k_sb s) d0 E jp /\ bytes_of E jp = bytes_of (kdisk s) jp.
Proof.
  intros Hrd Hw Hpos Hmax Hend Hfree old size_. destruct (filewrite_one s n d0 f x ip addr Hrd Hw Hpos Hmax Hend Hfree) as (s' & ip' & tr & R & Hwr & W & Hcr).
  exists s', ip', tr. split; [exact R|]. split; [exact Hwr|]. clear R Hwr. intros k D t m Hreb Hc.
  destruct (Hcr k D t m Hreb Hc) as (sr & Rr & Hcase & Hfull). exists sr. split; [exact Rr|]. clear Rr. intros E new.
  pose proof (fz_lay _ _ _ (rd_fs _ _ _ _ _ _ Hrd)) as L. pose proof (rd_ok _ _ _ _ _ _ Hrd) as Ok. destruct W as [W1 W2 W3 W4].
  assert ((forall c, sb_inodestart (k_sb s) <= c -> E c = kdisk s' c) -> new) as Hnew.
  { intros HE. destruct (agree_inode _ _ _ _ _ E L HE ip' W1) as [K1 K2]. split; [exact K1|]. by rewrite K2. }
  split_and!.
  - destruct Hcase as [HE|HE]; [left|right; by apply Hnew]. by apply (agree_inode _ _ _ _ _ E L HE).
  - intros Hk. apply Hnew. intros c. by apply Hfull.
  - intros jp Oj Dj. destruct Hcase as [HE|HE]; [by apply (agree_inode _ _ _ _ _ E L HE)|].
    destruct (W4 jp Oj Dj) as (J1 & J2 & _). destruct (agree_inode _ _ _ _ _ E L HE jp J1) as [K1 K2]. split; [exact K1|]. by rewrite K2.
Qed.

Lemma filewrite_run s n d0 f x ip addr :
  let cnt := Z.of_nat (length addr) in
  ready s n d0 f x ip -> f_writable x <> 0 -> f_off x + cnt <= MAXFILE * BSIZE ->
  nfree (k_sb s) (kdisk s) (8 * Z.to_nat (cnt / max_write + 1)) ->
  exists s' ip' tr, filewrite f addr cnt [] s = Ret cnt [] s' /\ k_sb s' = k_sb s /\ ready s' n d0 f (set_f_off (f_off x + cnt) x) ip' /\
    write_done (k_sb s) d0 (kdisk s) ip (f_off x) addr (kdisk s') ip' /\ (forall g, g <> f -> k_ftable s' !! g = k_ftable s !! g) /\
    ran (lbio (k_lst s)) (lbio (k_lst s')) tr /\ heads_fit (l_start (llog (k_lst s))) 7 tr.
Proof.
  intros cnt Hrd Hw Hend Hfree. pose proof (Z.div_pos cnt max_write ltac:(lia) ltac:(done)) as Hdiv.
  destruct (filewrite_loop_run (Z.to_nat (cnt / max_write + 1)) s n d0 f x ip addr 0 cnt Hrd) as (s' & ip' & tr & R & E & Hrd' & W & Hg & N & Hfit);
    [lia|done| |lia|done|].
  { pose proof (Z.div_mod cnt max_write ltac:(done)). pose proof (Z.mod_pos_bound cnt max_write ltac:(done)). lia. }
  rewrite Z.sub_0_r in Hrd'. change (drop (Z.to_nat 0) addr) with addr in W. exists s', ip', tr. split_and!; [|done..].
  unfold filewrite, file_. rewrite bind_unfold, gets_run. cbv beta iota. rewrite (get_f_Some s f x (rd_file _ _ _ _ _ _ Hrd)).
  rewrite (proj2 (Z.eqb_neq _ _)), (rd_type _ _ _ _ _ _ Hrd) by done. run_with R. by rewrite Z.eqb_refl.
Qed.

(** C17: [filewrite] of any number of bytes that fits the largest file.  It
    returns that number, in as many transactions as it takes; the bytes are in
    the file at the offset, which has moved behind them, the file has grown if
    it had to, and no other file has changed. *)
Theorem filewrite_writes s n d0 f x ip addr :
  let cnt := Z.of_nat (length addr) in
  ready s n d0 f x ip -> f_writable x <> 0 -> f_off x + cnt <= MAXFILE * BSIZE ->
  nfree (k_sb s) (kdisk s) (8 * Z.to_nat (cnt / max_write + 1)) ->
  exists s' ip', filewrite f addr cnt [] s = Ret cnt [] s' /\ ready s' n d0 f (set_f_off (f_off x + cnt) x) ip' /\
    i_inum ip' = i_inum ip /\ i_size ip' = Z.max (i_size ip) (f_off x + cnt) /\
    bytes_of (kdisk s') ip' = splice (Z.to_nat (f_off x)) addr (bytes_of (kdisk s) ip) /\
    forall jp, inode_ok (k_sb s) d0 (kdisk s) jp -> disjoint_files (kdisk s) ip jp ->
      inode_ok (k_sb s) d0 (kdisk s') jp /\ bytes_of (kdisk s') jp = bytes_of (kdisk s) jp /\ disjoint_files (kdisk s') ip' jp.
Proof.
  intros cnt Hrd Hw Hend Hfree. destruct (filewrite_run s n d0 f x ip addr Hrd Hw Hend Hfree) as (s' & ip' & tr & R & _ & Hrd' & [W1 W2 W3 W4] & _).
  exists s', ip'. split_and!; [exact R|exact Hrd'| | |exact W3|exact W4]; by rewrite W2.
Qed.

(** ** Reading *)

(** [fileread] returns the bytes of the file from the offset on, as many as
    were asked for and are there, moves the offset behind them, and changes
    nothing on disk. *)
Theorem fileread_reads s n d0 f x ip cnt :
  ready s n d0 f x ip -> f_readable x <> 0 -> 0 <= cnt < 2 ^ 31 ->
  let m := Z.min cnt (i_size ip - f_off x) in
  exists s', fileread f cnt [] s = Ret (m, take (Z.to_nat m) (drop (Z.to_nat (f_off x)) (bytes_of (kdisk s) ip))) [] s' /\
    ready s' n d0 f (set_f_off (f_off x + m) x) ip /\ kdisk s' = kdisk s.
Proof.
  intros Hrd Hr Hc m. destruct (fileread_run s n d0 f x ip cnt Hrd Hr Hc) as (s' & R & Hrd' & Hd & _). by exists s'.
Qed.

(** C16: what was written is read back.  Two files are open on the same inode
    with the same offset; after [filewrite] of [addr] through the first,
    [fileread] through the second returns [addr]. *)
Theorem write_read_back s n d0 f x g y ip addr :
  let cnt := Z.of_nat (length addr) in
  ready s n d0 f x ip -> ready s n d0 g y ip -> f <> g -> f_ip y = f_ip x -> f_off y = f_off x ->
  f_writable x <> 0 -> f_readable y <> 0 -> f_off x + cnt <= MAXFILE * BSIZE ->
  nfree (k_sb s) (kdisk s) (8 * Z.to_nat (cnt / max_write + 1)) ->
  exists s', (r ← filewrite f addr cnt; fileread g r) [] s = Ret (cnt, addr) [] s'.
Proof.
  intros cnt Hrd Hrd2 Hfg Hi Hoff Hw Hr Hend Hfree.
  destruct (filewrite_run s n d0 f x ip addr Hrd Hw Hend Hfree) as (s1 & ip1 & tr & R1 & Esb & Hrd1 & [W1 W2 W3 _] & Hg & _).
  fold cnt in R1, Hrd1, W2. pose proof (rd_off _ _ _ _ _ _ Hrd) as Ho. pose proof (rd_off _ _ _ _ _ _ Hrd1) as Ho1. cbn in Ho1.
  assert (ready s1 n d0 g y ip1) as Hrd3.
  { destruct Hrd1, Hrd2. split; try done; [by rewrite Hg|by rewrite Hi|lia]. }
  unfold MAXFILE, NDIRECT, NINDIRECT, BSIZE in Hend.
  destruct (fileread_run s1 n d0 g y ip1 cnt Hrd3 Hr) as (s2 & R2 & _); [lia|]. exists s2. run_with R1. rewrite R2, Hoff.
  replace (Z.min cnt (i_size ip1 - f_off x)) with cnt by lia. do 2 f_equal. rewrite W3. replace (Z.to_nat cnt) with (length addr) by lia.
  unfold splice. rewrite drop_app_length' by (rewrite length_take; unfold bytes_of; rewrite length_content; lia). by rewrite take_app_length.
Qed.

(** ** The size of a transaction *)

(** C31: [filewrite] of any number of bytes cuts them so that every transaction
    stays within what [begin_op] reserves for it.  It returns the number, and of
    the blocks it has written to the disk every header of the log lists at most
    7 blocks, of the [MAXOPBLOCKS] that an operation may write. *)
Theorem filewrite_fits_log s n d0 f x ip addr :
  let cnt := Z.of_nat (length addr) in
  ready s n d0 f x ip -> f_writable x <> 0 -> f_off x + cnt <= MAXFILE * BSIZE ->
  nfree (k_sb s) (kdisk s) (8 * Z.to_nat (cnt / max_write + 1)) ->
  exists s' tr, filewrite f addr cnt [] s = Ret cnt [] s' /\ writes (lbio (k_lst s')) = writes (lbio (k_lst s)) ++ tr /\
    forall d, (l_start (llog (k_lst s)), d) ∈ tr -> 0 <= hdr_n d <= 7 /\ 7 < MAXOPBLOCKS.
Proof.
  intros cnt Hrd Hw Hend Hfree. destruct (filewrite_run s n d0 f x ip addr Hrd Hw Hend Hfree) as (s' & ip' & tr & R & _ & _ & _ & _ & N & Hfit).
  exists s', tr. split; [exact R|]. split; [apply N|]. intros d Hd. specialize (Hfit d Hd). unfold MAXOPBLOCKS. lia.
Qed.

(** ** An example *)

(** A disk of 1000 blocks as mkfs lays it out, with inode 2 a file of three
    bytes in block 59 and inode 3 a file of two bytes in block 60. *)
Definition ex_sb : superblock := mkSb 1000 941 200 30 2 32 58.
Definition ex_file (inum size b : Z) : inode :=
  mkInode 1 inum 1 initsleeplock 1 T_FILE 0 0 1 size (b :: replicate 12 0).
Definition ex_ip : inode := ex_file 2 3 59.
Definition ex_jp : inode := ex_file 3 2 60.
Definition ex_bitmap : block := replicate 7 255 ++ [31] ++ replicate 504 0.
Definition ex_disk (b : Z) : block :=
  if b =? 1 then sb_block ex_sb
  else if b =? 32 then put_dinode ex_jp (dino 3) (put_dinode ex_ip (dino 2) zeros)
  else if b =? 58 then ex_bitmap
  else if b =? 59 then [104; 105; 10] ++ replicate 509 0
  else if b =? 60 then [111; 10] ++ replicate 510 0
  else zeros.
Definition ex_open (off : Z) : file := mkFile FD_INODE 1 1 1 0 0 off.
Definition ex_state : kst := started ex_disk ex_sb 1000 bio_procs [ex_ip; ex_jp] [ex_open 3; ex_open 0].

Lemma ex_kdisk : kdisk ex_state = ex_disk /\ disksize (lbio (k_lst ex_state)) = 1000.
Proof. apply started_disk. Qed.

Lemma ex_fits inum size b : 0 <= size < 2 ^ 32 -> 0 <= b < 2 ^ 32 -> fits (ex_file inum size b).
Proof.
  intros Hs Hb. split; cbn; try done; [by apply u32_id|]. split; [done|]. intros x [->|Hx]%elem_of_cons; [by apply u32_id|].
  change [0; 0; 0; 0; 0; 0; 0; 0; 0; 0; 0; 0] with (replicate 12 0) in Hx. by apply elem_of_replicate_inv in Hx as ->.
Qed.

Lemma ex_len b : length (ex_disk b) = 512%nat.
Proof.
  unfold ex_disk. repeat (destruct (_ =? _); [try reflexivity|]); try reflexivity.
Qed.

(** The blocks below 61 are in use, the others are free. *)
Lemma ex_used b : 0 <= b < 1000 -> used ex_sb ex_disk b = (b <? 61).
Proof.
  intros Hb. destruct (decide (b < 64)) as [Hlt|Hge].
  - assert (Forall (fun b => used ex_sb ex_disk b = (b <? 61)) (seqZ 0 64)) as H by (repeat (constructor; [reflexivity|]); constructor).
    rewrite Forall_forall in H. apply H, elem_of_seqZ. lia.
  - rewrite (proj2 (Z.ltb_ge _ _)) by lia. unfold used. change (ex_disk (sb_bmapstart ex_sb)) with ex_bitmap. rewrite bit_set_testbit.
    assert (8 <= b / 8) by (apply Z.div_le_lower_bound; lia). unfold ex_bitmap. rewrite nth_lookup, lookup_app_r by (cbn; lia).
    rewrite lookup_app_r by (rewrite length_replicate; cbn; lia).
    destruct (replicate 504 0 !! _) as [y|] eqn:E; [apply lookup_replicate in E as [-> _]|]; apply Z.bits_0.
Qed.

Lemma ex_slot V inum size b k : in_map k -> slot V (i_addrs (ex_file inum size b)) k = if k =? 0 then b else 0.
Proof.
  intros Hk. unfold in_map, MAXFILE, NDIRECT, NINDIRECT, slot in *. cbn [i_addrs ex_file]. change (nth 12 (b :: replicate 12 0) 0) with 0.
  unfold NDIRECT. destruct (Z.ltb_spec k 0); [by rewrite (proj2 (Z.eqb_neq k 0)) by lia|].
  destruct (Z.ltb_spec k 12); [|by rewrite (proj2 (Z.eqb_neq k 0)) by lia].
  destruct (Z.eqb_spec k 0) as [->|]; [done|]. rewrite nth_lookup, lookup_cons_ne_0 by lia.
  destruct (replicate 12 0 !! pred (Z.to_nat k)) as [y|] eqn:E; [by apply lookup_replicate in E as [-> _]|done].
Qed.

Lemma ex_file_ok inum size b :
  59 <= b < 61 -> 0 <= size <= 512 -> 0 <= inum < 200 ->
  load_dinode (ex_disk (IBLOCK inum ex_sb)) (dino inum) (ex_file inum size b) = ex_file inum size b ->
  inode_ok ex_sb 59 ex_disk (ex_file inum size b).
Proof.
  intros Hb Hs Hi Hd. split; [|unfold MAXFILE, NDIRECT, NINDIRECT, BSIZE; cbn; lia| |done|apply ex_fits; lia|exact Hd].
  - split; [done|..].
    + intros k Hk. rewrite ex_slot by done. destruct (k =? 0); [|done]. intros _. split; [cbn; lia|].
      rewrite ex_used by (cbn; lia). apply Z.ltb_lt. lia.
    + intros k k' Hk Hk'. rewrite !ex_slot by done. destruct (Z.eqb_spec k 0), (Z.eqb_spec k' 0); lia.
  - intros o Ho. cbn [i_size ex_file] in Ho. assert (o / BSIZE = 0) as -> by (apply Z.div_small; unfold BSIZE; lia).
    rewrite ex_slot by (unfold in_map, MAXFILE, NDIRECT, NINDIRECT; lia). cbn. lia.
Qed.

Lemma ex_ip_ok : inode_ok ex_sb 59 ex_disk ex_ip.
Proof. apply ex_file_ok; [lia..|reflexivity]. Qed.
Lemma ex_jp_ok : inode_ok ex_sb 59 ex_disk ex_jp.
Proof. apply ex_file_ok; [lia..|reflexivity]. Qed.

Lemma ex_disjoint : disjoint_files ex_disk ex_ip ex_jp.
Proof.
  split; [done|]. intros k k' Hk Hk'. unfold ex_ip, ex_jp. rewrite !ex_slot by done.
  destruct (k =? 0), (k' =? 0); lia.
Qed.

Lemma ex_free m : (m <= 900)%nat -> nfree ex_sb ex_disk m.
Proof.
  intros Hm. exists (seqZ 61 (Z.of_nat m)). split_and!; [apply NoDup_seqZ|rewrite length_seqZ; lia|].
  intros c Hc%elem_of_seqZ. split; [cbn; lia|]. rewrite ex_used by lia. apply Z.ltb_ge. lia.
Qed.

Lemma ex_idle : fs_idle ex_state 3 59.
Proof.
  apply started_idle; [apply bio_procs_current|apply ex_len| |lia|reflexivity| |reflexivity].
  - split; cbn; unfold LOGSIZE, BPB, BSIZE; try lia. unfold IPB. change (200 / 8) with 25. lia.
  - intros b Hb. rewrite ex_used by lia. apply Z.ltb_lt. lia.
Qed.

Lemma ex_ready f off : [ex_open 3; ex_open 0] !! f = Some (ex_open off) -> 0 <= off <= 3 -> ready ex_state 3 59 f (ex_open off) ex_ip.
Proof.
  intros Hf Ho. split; [apply ex_idle|exact Hf|reflexivity|reflexivity|reflexivity|cbn; lia|reflexivity|discriminate|discriminate| |exact Ho].
  rewrite (proj1 ex_kdisk). apply ex_ip_ok.
Qed.

Lemma filewrite_crash_safe_witness :
  exists s' ip' tr, filewrite 0 [121; 111; 10] 3 [] ex_state = Ret 3 [] s' /\
    forall k D, rtc (crash_reboot 1000) (apply_writes (take k tr) ex_disk) D ->
      exists sr, initlog 1 [] (boot D 1000 bio_procs) = Ret tt [] sr /\
        (bytes_of (disk (lbio sr)) ex_ip = [104; 105; 10] \/ bytes_of (disk (lbio sr)) ip' = [104; 105; 10; 121; 111; 10]) /\
        bytes_of (disk (lbio sr)) ex_jp = [111; 10].
Proof.
  destruct ex_kdisk as [Hd Hsz].
  destruct (filewrite_crash_safe ex_state 3 59 0 (ex_open 3) ex_ip [121; 111; 10]) as (s' & ip' & tr & R & _ & Hcr).
  - apply (ex_ready 0 3); [reflexivity|lia].
  - discriminate.
  - cbn. lia.
  - change max_write with 1536. cbn. lia.
  - unfold MAXFILE, NDIRECT, NINDIRECT, BSIZE. cbn. lia.
  - rewrite Hd. apply ex_free. lia.
  - exists s', ip', tr. split; [exact R|]. clear R. rewrite Hd, Hsz in Hcr. intros k D Hreb.
    destruct (Hcr k D bio_procs 3 Hreb bio_procs_current) as (sr & Rr & Hc & _ & Hj). exists sr. split; [exact Rr|]. clear Rr. split.
    + destruct Hc as [[_ Hc]|[_ Hc]]; [left|right]; rewrite Hc; reflexivity.
    + destruct (Hj ex_jp ex_jp_ok ex_disjoint) as [_ Hj']. rewrite Hj'. reflexivity.
Defined.

Lemma filewrite_writes_witness :
  exists s' ip', filewrite 1 [121; 111] 2 [] ex_state = Ret 2 [] s' /\ bytes_of (kdisk s') ip' = [121; 111; 10] /\
    bytes_of (kdisk s') ex_jp = [111; 10].
Proof.
  destruct ex_kdisk as [Hd Hsz].
  destruct (filewrite_writes ex_state 3 59 1 (ex_open 0) ex_ip [121; 111]) as (s' & ip' & R & _ & _ & _ & Hb & Hj).
  - apply (ex_ready 1 0); [reflexivity|lia].
  - discriminate.
  - unfold MAXFILE, NDIRECT, NINDIRECT, BSIZE. cbn. lia.
  - rewrite Hd. apply ex_free. apply Nat.leb_le. reflexivity.
  - exists s', ip'. rewrite Hd in Hb, Hj. split; [exact R|]. clear R. split; [rewrite Hb; reflexivity|].
    destruct (Hj ex_jp ex_jp_ok ex_disjoint) as (_ & Hj' & _). rewrite Hj'. reflexivity.
Defined.

Lemma fileread_reads_witness : exists s', fileread 1 100 [] ex_state = Ret (3, [104; 105; 10]) [] s'.
Proof.
  destruct (fileread_reads ex_state 3 59 1 (ex_open 0) ex_ip 100) as (s' & R & _).
  - apply (ex_ready 1 0); [reflexivity|lia].
  - discriminate.
  - lia.
  - exists s'. rewrite (proj1 ex_kdisk) in R. exact R.
Defined.

(** The example with both files open at the end. *)
Definition ex_state2 : kst := set_k_ftable [ex_open 3; ex_open 3] ex_state.

Lemma ex_ready2 f : (f < 2)%nat -> ready ex_state2 3 59 f (ex_open 3) ex_ip.
Proof.
  intros Hf. destruct ex_idle as [H1 H2 H3 H4].
  split; [split; [exact H1|exact H2|exact H3|exact H4]| |reflexivity|reflexivity|reflexivity|cbn; lia|reflexivity|discriminate|discriminate| |cbn; lia].
  - destruct f as [|[|f]]; [reflexivity|reflexivity|lia].
  - change (kdisk ex_state2) with (kdisk ex_state). rewrite (proj1 ex_kdisk). apply ex_ip_ok.
Qed.

Lemma write_read_back_witness :
  exists s', (r ← filewrite 0 [121; 111; 10] 3; fileread 1 r) [] ex_state2 = Ret (3, [121; 111; 10]) [] s'.
Proof.
  apply (write_read_back ex_state2 3 59 0 (ex_open 3) 1 (ex_open 3) ex_ip [121; 111; 10]).
  - apply ex_ready2. lia.
  - apply ex_ready2. lia.
  - discriminate.
  - reflexivity.
  - reflexivity.
  - discriminate.
  - discriminate.
  - unfold MAXFILE, NDIRECT, NINDIRECT, BSIZE. cbn. lia.
  - change (kdisk ex_state2) with (kdisk ex_state). rewrite (proj1 ex_kdisk). apply ex_free. apply Nat.leb_le. reflexivity.
Defined.

Lemma filewrite_fits_log_witness :
  exists s' tr, filewrite 0 (replicate 5000 7) 5000 [] ex_state = Ret 5000 [] s' /\ writes (lbio (k_lst s')) = writes (lbio (k_lst ex_state)) ++ tr /\
    forall d, (l_start (llog (k_lst ex_state)), d) ∈ tr -> 0 <= hdr_n d <= 7 /\ 7 < MAXOPBLOCKS.
Proof.
  assert (Z.of_nat (length (replicate 5000 7)) = 5000) as El by (rewrite length_replicate; lia).
  pose proof (filewrite_fits_log ex_state 3 59 0 (ex_open 3) ex_ip (replicate 5000 7)) as H. cbv zeta in H. rewrite El in H. apply H.
  - apply (ex_ready 0 3); [reflexivity|lia].
  - discriminate.
  - unfold MAXFILE, NDIRECT, NINDIRECT, BSIZE. cbn [f_off ex_open]. lia.
  - rewrite (proj1 ex_kdisk). apply ex_free. apply Nat.leb_le. reflexivity.
Defined.
