(* ===== verification/Proc.v ===== *)
(** * Process creation and exit (src/proc.c)

    [allocproc], [userinit], [growproc], [fork], [exit], [wait] and [forkret],
    on the state of the kernel.  A call of [wait] that sleeps goes on in
    [wait_wake].  [forkret_] and [trapret_] are the addresses of the code of
    those names, [end_] and [data_] the symbols of the linker script. *)

From Stdlib Require Import ZArith Lia String.
From stdpp Require Import prelude numbers strings option gmap list.
From S2P Require Import Gates Prelude Kernel Mem Kalloc Sched Bio Log Console Kst Inode Device Fs File Vm.

Definition FL_IF : Z := 0x200.

Definition set_tf_eax v t := mkTf (edi t) (esi t) (ebp t) (oesp t) (ebx t) (edx t) (ecx t) v (gs t) (fs t) (es t) (ds t) (trapno t) (err t) (eip t) (cs t) (eflags t) (esp t) (ss t).
Definition set_tf_entry ip sp t := mkTf (edi t) (esi t) (ebp t) (oesp t) (ebx t) (edx t) (ecx t) (eax t) (gs t) (fs t) (es t) (ds t) (trapno t) (err t) ip (cs t) (eflags t) sp (ss t).

(** [memset(p->tf, 0, ...)] and the assignments that follow it in [userinit]. *)
Definition user_tf : trapframe :=
  let udata := Z.lor (Z.shiftl SEG_UDATA 3) DPL_USER in
  mkTf 0 0 0 0 0 0 0 0 0 0 udata udata 0 0 0 (Z.lor (Z.shiftl SEG_UCODE 3) DPL_USER) FL_IF PGSIZE udata.

(** A process of the table. *)
Definition getproc (i : nat) : K kst proc := s ← getp; mret (default proc0 (procs s !! i)).
Definition modproc (i : nat) (f : proc -> proc) : K kst unit := modp (upd i f).

Section proc.
Context (end_ data_ forkret_ trapret_ : Z).

Definition allocproc : K kst (option nat) :=
  acquire LPtable;;
  s ← getp;
  match list_find (fun p => state p = UNUSED) (procs s) with
  | None => release LPtable;; mret None
  | Some (i, _) =>
      modproc i (set_state EMBRYO);;
      modproc i (set_tickets 10);;
      modproc i (set_preempted 0);;
      modproc i (set_runticks 0);;
      modproc i (set_pid (nextpid s));;
      modp (set_nextpid (s32 (nextpid s + 1)));;
      release LPtable;;
      k ← lift kalloc;
      modproc i (set_kstack k);;
      if k =? 0 then modproc i (set_state UNUSED);; mret None
      else
        lift (wrt (k + KSTACKSIZE - 76 - 4) trapret_);;
        modproc i (set_ctx (mkCtx 0 0 0 0 forkret_));;
        mret (Some i)
  end.

(** [userinit]; the image of initcode is [init_size] bytes at [init_start]. *)
Definition userinit (init_start init_size : Z) : K kst unit :=
  o ← allocproc;
  modp (set_initproc o);;
  match o with
  | None => panic "trap"
  | Some i =>
      d ← lift (setupkvm end_ data_);
      modproc i (set_pgdir d);;
      if d =? 0 then panic "userinit: out of memory?"
      else
        lift (inituvm d init_start init_size);;
        modproc i (set_sz PGSIZE);;
        modproc i (set_tf user_tf);;
        modproc i (fun p => set_name (splice 0 (safestrcpy (bytes_ptr (str "initcode")) 16) (name p)) p);;
        c ← namei [SLASH];
        modproc i (set_cwd c);;
        acquire LPtable;;
        modproc i (set_state RUNNABLE);;
        release LPtable
  end.

Definition growproc (n : Z) : K kst Z :=
  '(i, p) ← curproc;
  let finish (sz : Z) : K kst Z := modproc i (set_sz sz);; switchuvm i;; mret 0 in
  if 0 <? n then
    sz ← lift (allocuvm end_ (pgdir p) (sz p) (u32 (sz p + n)));
    if sz =? 0 then mret (-1) else finish sz
  else if n <? 0 then
    sz ← lift (deallocuvm end_ (pgdir p) (sz p) (u32 (sz p + n)));
    if sz =? 0 then mret (-1) else finish sz
  else finish (sz p).

(** The loop of [fork] over the open files, from descriptor [fd] on. *)
Fixpoint dup_files (fs : list (option nat)) (fd : nat) (np : nat) : K kst unit :=
  match fs with
  | [] => mret ()
  | None :: fs => dup_files fs (S fd) np
  | Some f :: fs =>
      f ← filedup f;
      modproc np (fun p => set_ofile (<[fd := Some f]> (ofile p)) p);;
      dup_files fs (S fd) np
  end.

Definition fork : K kst Z :=
  '(_, p) ← curproc;
  o ← allocproc;
  match o with
  | None => mret (-1)
  | Some np =>
      d ← lift (copyuvm end_ data_ (pgdir p) (sz p));
      modproc np (set_pgdir d);;
      if d =? 0 then
        q ← getproc np;
        lift (kfree end_ (kstack q));;
        modproc np (set_kstack 0);;
        modproc np (set_state UNUSED);;
        mret (-1)
      else
        '(c, p) ← curproc;
        modproc np (set_sz (sz p));;
        modproc np (set_parent (Some c));;
        modproc np (set_tf (tf p));;
        modproc np (fun q => set_tf (set_tf_eax 0 (tf q)) q);;
        dup_files (ofile p) 0 np;;
        cw ← (match cwd p with Some w => idup w | None => panic "trap" end);
        modproc np (set_cwd (Some cw));;
        modproc np (fun q => set_name (splice 0 (safestrcpy (bytes_ptr (name p)) 16) (name q)) q);;
        q ← getproc np;
        acquire LPtable;;
        modproc np (set_state RUNNABLE);;
        release LPtable;;
        mret (pid q)
  end.

(** The loop of [exit] over the open files: [n] descriptors from [fd] on. *)
Fixpoint close_files (n : nat) (fd : nat) (c : nat) : K kst unit :=
  match n with
  | O => mret ()
  | S n =>
      p ← getproc c;
      match default None (ofile p !! fd) with
      | Some f =>
          fileclose end_ f;;
          modproc c (fun p => set_ofile (<[fd := None]> (ofile p)) p)
      | None => mret ()
      end;;
      close_files n (S fd) c
  end.

(** The loop that gives children to [initproc]. *)
Fixpoint reparent (n : nat) (i : nat) (c : nat) : K kst unit :=
  match n with
  | O => mret ()
  | S n =>
      p ← getproc i;
      s ← getp;
      (if bool_decide (parent p = Some c) then
         modproc i (set_parent (initproc s));;
         match initproc s with
         | Some q => when (bool_decide (state p = ZOMBIE)) (wakeup1 (ChProc q))
         | None => mret ()
         end
       else mret ());;
      reparent n (S i) c
  end.

(** The part of [exit] with [ptable.lock] held. *)
Definition exit_locked (c : nat) : K kst unit :=
  p ← getproc c;
  match parent p with
  | Some q => wakeup1 (ChProc q)
  | None => mret ()
  end;;
  reparent NPROC 0 c;;
  modproc c (set_state ZOMBIE);;
  sched.

Definition exit : K kst unit :=
  '(c, _) ← curproc;
  s ← getp;
  if bool_decide (initproc s = Some c) then panic "init exiting"
  else
    close_files NOFILE 0 c;;
    kbegin_op;;
    p ← getproc c;
    match cwd p with
    | Some w => iput w
    | None => panic "trap"
    end;;
    kend_op;;
    modproc c (set_cwd None);;
    acquire LPtable;;
    exit_locked c;;
    panic "zombie exit".

(** The scan of [wait]: the first child that is a zombie, and whether there is
    a child at all among those passed. *)
Fixpoint wait_scan (ps : list proc) (i : nat) (c : nat) (havekids : bool) : option nat * bool :=
  match ps with
  | [] => (None, havekids)
  | p :: ps =>
      if negb (bool_decide (parent p = Some c)) then wait_scan ps (S i) c havekids
      else if bool_decide (state p = ZOMBIE) then (Some i, true)
      else wait_scan ps (S i) c true
  end.

(** One round of the [for(;;)] loop, with [ptable.lock] held. *)
Definition wait_loop : K kst Z :=
  '(c, cp) ← curproc;
  s ← getp;
  match wait_scan (procs s) 0 c false with
  | (Some i, _) =>
      p ← getproc i;
      lift (kfree end_ (kstack p));;
      modproc i (set_kstack 0);;
      lift (freevm end_ (pgdir p));;
      modproc i (set_pid 0);;
      modproc i (set_parent None);;
      modproc i (fun p => set_name (<[0%nat := 0]> (name p)) p);;
      modproc i (set_killed 0);;
      modproc i (set_state UNUSED);;
      release LPtable;;
      mret (pid p)
  | (None, havekids) =>
      if negb havekids || negb (killed cp =? 0) then release LPtable;; mret (-1)
      else sleep (ChProc c) LPtable
  end.

Definition wait : K kst Z := acquire LPtable;; wait_loop.

(** [wait] from the return of [sleep]. *)
Definition wait_wake : K kst Z := sleep_return LPtable;; wait_loop.

(** [forkret]; [first] is its static variable, and the result its new value. *)
Definition forkret (first : Z) : K kst Z :=
  release LPtable;;
  if negb (first =? 0) then
    iinit ROOTDEV;;
    lift (initlog ROOTDEV);;
    mret 0
  else mret first.
End proc.
