(* ===== verification/Forkthm.v ===== *)
(** * What a new process gets

    [fork] of src/proc.c put together: the slot and the kernel stack of
    [allocproc], the address space of [copyuvm], the open files, the working
    directory, the registers and the name. *)

From Stdlib Require Import ZArith Lia String.
From stdpp Require Import prelude numbers strings option gmap list.
From S2P Require Import Prelude Kernel Mem Kalloc Sched Bio Log Console Kst Inode Device Fs Fsblock Fscrash File Vm Vmspace Vmops Vmkern Vmcopy Proc.

(** ** The parts of the state that [fork] changes *)

Definition ptab (s : kst) : pstate := get_part s.

Definition with_ (s : kst) (t : pstate) (m : kmstate) (ft : list file) (ic : list inode) : kst :=
  set_k_mem m (set_k_ftable ft (set_k_icache ic (put_part t s))).

(** The table [t] with [q] in slot [i] and [n] as the next process number. *)
Definition slot_at (t : pstate) (n : Z) (i : nat) (q : proc) : pstate :=
  set_nextpid n (set_procs (<[i := q]> (procs t)) t).

Lemma with_id s : with_ s (ptab s) (k_mem s) (k_ftable s) (k_icache s) = s.
Proof. unfold with_, ptab. rewrite put_get_part. by destruct s. Qed.

Lemma with_table s t m ft ic : (get_part (with_ s t m ft ic) : pstate) = t.
Proof. change (get_part (put_part t s : kst) = t). by rewrite get_put_part. Qed.

Lemma with_put s t t' m ft ic : (put_part t' (with_ s t m ft ic) : kst) = with_ s t' m ft ic.
Proof.
  unfold with_. cbn. destruct s as [[? []] ? ? ? ? ? ? ? ? ?]. done.
Qed.

Lemma with_lift {A} s t m ft ic (c : K kmstate A) a m' h :
  c h m = Ret a h m' -> (lift c : K kst A) h (with_ s t m ft ic) = Ret a h (with_ s t m' ft ic).
Proof. intros R. unfold lift. change (get_part (with_ s t m ft ic)) with m. by rewrite R. Qed.

Lemma slot_id t i q : procs t !! i = Some q -> slot_at t (nextpid t) i q = t.
Proof. intros H. unfold slot_at. rewrite list_insert_id by done. by destruct t. Qed.

Section steps.
Context (forkret_ trapret_ : Z) (s : kst) (t : pstate).

Lemma getp_with t1 m ft ic h : getp h (with_ s t1 m ft ic) = Ret t1 h (with_ s t1 m ft ic).
Proof. unfold getp. by rewrite gets_run, with_table. Qed.

Lemma modproc_slot n i q f m ft ic h : (i < length (procs t))%nat ->
  modproc i f h (with_ s (slot_at t n i q) m ft ic) = Ret tt h (with_ s (slot_at t n i (f q)) m ft ic).
Proof.
  intros Hi. unfold modproc, modp. rewrite modify_run, with_table, with_put. do 2 f_equal.
  unfold upd, slot_at. cbn [procs set_procs set_nextpid]. unfold set_nextpid, set_procs. cbn. f_equal.
  apply list_eq. intros j. destruct (decide (i = j)) as [<-|].
  - by rewrite list_lookup_alter_eq, !list_lookup_insert_eq.
  - by rewrite list_lookup_alter_ne, !list_lookup_insert_ne.
Qed.

Lemma modproc_first i q f m ft ic h : procs t !! i = Some q ->
  modproc i f h (with_ s t m ft ic) = Ret tt h (with_ s (slot_at t (nextpid t) i (f q)) m ft ic).
Proof.
  intros Hq. pose proof (modproc_slot (nextpid t) i q f m ft ic h (lookup_lt_Some _ _ _ Hq)) as R. by rewrite (slot_id t i q Hq) in R.
Qed.

Lemma nextpid_slot n n' i q m ft ic h :
  modp (set_nextpid n') h (with_ s (slot_at t n i q) m ft ic) = Ret tt h (with_ s (slot_at t n' i q) m ft ic).
Proof. unfold modp. by rewrite modify_run, with_table, with_put. Qed.

Lemma getproc_slot n i q m ft ic h : (i < length (procs t))%nat ->
  getproc i h (with_ s (slot_at t n i q) m ft ic) = Ret q h (with_ s (slot_at t n i q) m ft ic).
Proof.
  intros Hi. unfold getproc. rewrite bind_unfold, getp_with, mret_run. cbn. by rewrite list_lookup_insert_eq.
Qed.

Lemma curproc_slot n i q m ft ic h c p : cpu_proc t = Some c -> procs t !! c = Some p -> i <> c ->
  curproc h (with_ s (slot_at t n i q) m ft ic) = Ret (c, p) h (with_ s (slot_at t n i q) m ft ic).
Proof.
  intros Hc Hp Hi. unfold curproc. rewrite bind_unfold, getp_with. cbn. by rewrite Hc, list_lookup_insert_ne, Hp.
Qed.

(** ** [allocproc] *)

Definition embryo (n k : Z) (q : proc) : proc :=
  set_kstack k (set_pid n (set_runticks 0 (set_preempted 0 (set_tickets 10 (set_state EMBRYO q))))).

Lemma allocproc_run m ft ic :
  match list_find (fun p => state p = UNUSED) (procs t) with
  | None => allocproc forkret_ trapret_ [] (with_ s t m ft ic) = Ret None [] (with_ s t m ft ic)
  | Some (i, q) =>
      forall k m1, kalloc [] m = Ret k [] m1 ->
      allocproc forkret_ trapret_ [] (with_ s t m ft ic) =
      if k =? 0 then Ret None [] (with_ s (slot_at t (s32 (nextpid t + 1)) i (set_state UNUSED (embryo (nextpid t) k q))) m1 ft ic)
      else Ret (Some i) [] (with_ s (slot_at t (s32 (nextpid t + 1)) i (set_ctx (mkCtx 0 0 0 0 forkret_) (embryo (nextpid t) k q)))
             (set_phys (store32 (phys m1) (k + KSTACKSIZE - 76 - 4) trapret_) m1) ft ic)
  end.
Proof.
  destruct (list_find _ _) as [[i q]|] eqn:E.
  - pose proof E as (Hq & _ & _)%list_find_Some. pose proof (lookup_lt_Some _ _ _ Hq) as Hi. intros k m1 R. unfold allocproc.
    rewrite bind_unfold, acquire_free by not_held. rewrite bind_unfold, getp_with, E.
    rewrite bind_unfold, (modproc_first i q) by done. do 4 (rewrite bind_unfold, modproc_slot by done).
    rewrite bind_unfold, nextpid_slot.
    rewrite bind_unfold, release_top by not_held. rewrite bind_unfold, (with_lift _ _ _ _ _ _ k m1) by done.
    rewrite bind_unfold, modproc_slot by done. destruct (k =? 0).
    + by rewrite bind_unfold, modproc_slot, mret_run.
    + rewrite bind_unfold, (with_lift _ _ _ _ _ _ tt (set_phys (store32 (phys m1) (k + KSTACKSIZE - 76 - 4) trapret_) m1)) by done.
      by rewrite bind_unfold, modproc_slot, mret_run.
  - unfold allocproc. rewrite bind_unfold, acquire_free by not_held. rewrite bind_unfold, getp_with, E.
    by rewrite bind_unfold, release_top, mret_run by not_held.
Qed.

(** ** The open files *)

(** How often file [f] occurs among the descriptors [fs]. *)
Definition refs_to (f : nat) (fs : list (option nat)) : Z := Z.of_nat (length (filter (fun o => o = Some f) fs)).

(** The file table with one reference more per descriptor. *)
Definition more_refs (fs : list (option nat)) (ft : list file) : list file :=
  imap (fun f x => set_f_ref (f_ref x + refs_to f fs) x) ft.

Lemma more_refs_skip f fs ft : (forall x, f <> Some x) -> more_refs (f :: fs) ft = more_refs fs ft.
Proof.
  intros Hf. apply imap_ext. intros i x Hx. unfold refs_to. rewrite filter_cons_False; [done|]. apply Hf.
Qed.

Lemma more_refs_nil ft : more_refs [] ft = ft.
Proof. apply list_eq. intros i. unfold more_refs. rewrite list_lookup_imap. destruct (ft !! i) as [[]|]; cbn; [|done]. by rewrite Z.add_0_r. Qed.

Lemma more_refs_cons f fs ft :
  more_refs fs (alter (fun x => set_f_ref (f_ref x + 1) x) f ft) = more_refs (Some f :: fs) ft.
Proof.
  apply list_eq. intros i. unfold more_refs. rewrite !list_lookup_imap. destruct (decide (f = i)) as [<-|Hi].
  - rewrite list_lookup_alter_eq. destruct (ft !! f) as [[]|]; cbn; [|done]. unfold refs_to. rewrite filter_cons_True by done. cbn.
    f_equal. unfold set_f_ref. cbn. f_equal. lia.
  - rewrite list_lookup_alter_ne by done. destruct (ft !! i) as [[]|]; cbn; [|done]. unfold refs_to. rewrite filter_cons_False by congruence. done.
Qed.

Lemma dup_files_run n i m ic fs : forall q ft dn, (i < length (procs t))%nat ->
  ofile q = dn ++ replicate (length fs) None -> (forall f, Some f ∈ fs -> 1 <= f_ref (default file0 (ft !! f))) ->
  dup_files fs (length dn) i [] (with_ s (slot_at t n i q) m ft ic) =
  Ret tt [] (with_ s (slot_at t n i (set_ofile (dn ++ fs) q)) m (more_refs fs ft) ic).
Proof.
  induction fs as [|[f|] fs IH]; intros q ft dn Hi Hq Hf; cbn [dup_files].
  - rewrite more_refs_nil, mret_run. cbn in Hq. rewrite <- Hq. by destruct q.
  - assert (1 <= f_ref (default file0 (ft !! f))) as H1 by (apply Hf; by left).
    assert (filedup f [] (with_ s (slot_at t n i q) m ft ic) =
      Ret f [] (with_ s (slot_at t n i q) m (alter (fun x => set_f_ref (f_ref x + 1) x) f ft) ic)) as R.
    { unfold filedup. repeat kstep_base. unfold file_. rewrite gets_run. cbn [get_f k_ftable with_].
      change (get_f f (with_ s (slot_at t n i q) m ft ic)) with (default file0 (ft !! f)). rewrite (proj2 (Z.ltb_ge _ _)) by lia.
      unfold mod_f. by repeat kstep_base. }
    rewrite bind_unfold, R, bind_unfold, modproc_slot by done.
    replace (S (length dn)) with (length (dn ++ [Some f])) by len. rewrite IH; [|done| |].
    + do 2 f_equal; [|apply more_refs_cons]. f_equal. rewrite <- app_assoc. by destruct q.
    + cbn [ofile set_ofile]. rewrite Hq. cbn [length replicate]. rewrite insert_app_r_alt by done. rewrite Nat.sub_diag. cbn. by rewrite <- app_assoc.
    + intros g Hg. destruct (decide (f = g)) as [<-|Hne].
      * rewrite list_lookup_alter_eq. destruct (ft !! f) as [x|]; cbn in *; lia.
      * rewrite list_lookup_alter_ne by done. apply Hf. by right.
  - replace (S (length dn)) with (length (dn ++ [None : option nat])) by len. rewrite IH; [|done| |].
    + rewrite <- app_assoc. by rewrite (more_refs_skip None).
    + rewrite Hq. cbn. by rewrite <- app_assoc.
    + intros g Hg. apply Hf. by right.
Qed.
End steps.

(** ** The memory of the child *)

Section memory.
Context (end_ data_ trapret_ : Z) (Hend : KERNBASE < end_).
Context (Hdata : KERNLINK < data_ < KERNBASE + PHYSTOP) (Halign : data_ mod PGSIZE = 0).

(** The kernel stack [k] with the return address of [forkret]. *)
Definition stacked (k : Z) (m : kmstate) : kmstate := set_phys (store32 (phys m) (k + KSTACKSIZE - 76 - 4) trapret_) m.

Lemma stacked_run m d pt um k ps :
  space_ok end_ m d pt um (k :: ps) ->
  exists m1, kalloc [] m = Ret k [] m1 /\ k <> 0 /\ space_ok end_ (stacked k m1) d pt um ps /\ fresh end_ d pt um ps k /\
    (forall x, ~ in_page k x -> phys (stacked k m1) x = phys m x) /\
    load32 (phys (stacked k m1)) (k + KSTACKSIZE - 80) = u32 trapret_.
Proof.
  intros Hs. destruct (kalloc_space end_ m d pt um (k :: ps) [] Hs) as (m1 & R & Hs1 & Hp & _ & Hk & Hf); [not_held|]. cbn [hd tail] in *.
  assert (forall x, ~ in_page k x -> phys (stacked k m1) x = phys m1 x) as Hout.
  { intros x Hx. unfold stacked. cbn [phys set_phys]. replace (k + KSTACKSIZE - 76 - 4) with (k + 4 * 1004) by (unfold KSTACKSIZE; lia).
    by rewrite (store_word_out _ k 1004) by (lia || done). }
  exists m1. split_and!; try done.
  - apply (space_hand end_ m1 d pt um ps k); try done. apply store32_ok. apply (so_km _ _ _ _ _ _ Hs1).
  - intros x Hx. rewrite Hout by done. by rewrite Hp.
  - unfold stacked. cbn [phys set_phys]. replace (k + KSTACKSIZE - 80) with (k + KSTACKSIZE - 76 - 4) by lia. apply load32_same.
Qed.

(** What the parent has is not touched. *)
Definition kept (m m' : kmstate) (d : Z) (pt um : gmap Z Z) : Prop :=
  forall p x, own d pt um p -> in_page p x -> phys m' x = phys m x.

(** A second address space beside the one of [d], with the same contents, on
    the pages [ps] and the kernel stack [k]. *)
Definition twin (m : kmstate) (d : Z) (pt um : gmap Z Z) (sz r k : Z) (ps ps' : list Z) : Prop :=
  exists pt2 um2 top, sz <= top < sz + PGSIZE /\ family end_ m d pt um r pt2 um2 ps' /\ copied m um um2 top /\ kernel_mapped data_ um2 /\
    ~ own d pt um k /\ ~ own r pt2 um2 k /\ k ∉ ps' /\ load32 (phys m) (k + KSTACKSIZE - 80) = u32 trapret_ /\
    forall p, pages r pt2 um2 ps' [k] p <-> p ∈ ps.

Lemma own_fresh m d pt um ps k : space_ok end_ m d pt um ps -> fresh end_ d pt um ps k ->
  ~ own d pt um k /\ forall p x, own d pt um p -> in_page p x -> ~ in_page k x.
Proof.
  intros Hs Hf. split.
  - intros [a Ha]. eapply (proj2 Hf a), holds_split. by left.
  - intros p x [a Ha] Hx. eapply (fresh_apart end_ m d pt um ps k p a); [done|done|apply holds_split; by left|done].
Qed.

Lemma child_memory m d pt um k ps sz :
  space_ok end_ m d pt um (k :: ps) -> 0 <= sz <= KERNBASE -> (forall va, 0 <= va < sz -> va mod PGSIZE = 0 -> is_Some (um !! va)) ->
  exists m1 r m3 ps3, kalloc [] m = Ret k [] m1 /\ k <> 0 /\ copyuvm end_ data_ d sz [] (stacked k m1) = Ret r [] m3 /\
    (r = 0 /\ (exists m4, kfree end_ k [] m3 = Ret tt [] m4 /\ space_ok end_ m4 d pt um (k :: ps3) /\ kept m m4 d pt um) /\
       (forall p, p ∈ k :: ps3 <-> p ∈ k :: ps) /\ Z.of_nat (length (k :: ps)) <= 1026 + page_count 0 sz \/
     r <> 0 /\ space_ok end_ m3 d pt um ps3 /\ kept m m3 d pt um /\ twin m3 d pt um sz r k (k :: ps) ps3).
Proof.
  intros Hs Hsz Hall. destruct (stacked_run m d pt um k ps Hs) as (m1 & R1 & Hk & Hs1 & Hf & Hout & Hl).
  destruct (copyuvm_run end_ data_ (stacked k m1) d pt um ps sz) as (r & m3 & ps3 & R & Hs3 & Hkeep & Hrest & Hcase); try done.
  destruct (own_fresh _ _ _ _ _ _ Hs1 Hf) as [Hno Hap].
  assert (k ∉ ps) as Hnk by (intros Hin; apply (proj2 Hf Free); by constructor).
  assert (kept m m3 d pt um) as Hkept. { intros p x Ho Hx. rewrite (Hkeep p x Ho Hx). apply Hout. by apply (Hap p). }
  exists m1, r, m3, ps3. split_and!; try done. destruct Hcase as [(-> & Hps & Hlen)|(Hr & pt2 & um2 & top & Htop & Hfam & Hcp & Hker & Hps)].
  - left. split; [done|]. assert (fresh end_ d pt um ps3 k) as Hf3.
    { split; [apply Hf|]. intros a [Ha|[Hp _]]%holds_split; [apply Hno; by exists a|by apply Hnk, Hps]. }
    destruct (kfree_space end_ m3 d pt um ps3 k [] Hs3 Hf3) as (m4 & R4 & Hs4 & _ & Hout4); [not_held|]. split_and!.
    + exists m4. split_and!; [done|done|]. intros p x Ho Hx. rewrite Hout4 by (by apply (Hap p)). by apply (Hkept p).
    + intros p. rewrite !elem_of_cons, Hps. done.
    + cbn [length]. lia.
  - right. split_and!; [done|done|done|]. exists pt2, um2, top.
    assert (~ pages r pt2 um2 ps3 [] k) as Hnp by (rewrite Hps; done).
    split_and!; try done; try lia.
    + intros Ho. apply Hnp, pages_own. by left.
    + intros Ho. apply Hnp, pages_own. right. by left.
    + rewrite <- Hl. apply load32_ext. intros x Hx. apply Hrest. intros p Hp Hin.
      assert (in_page k x) as Hkx by (unfold in_page, KSTACKSIZE, PGSIZE in *; lia).
      eapply (fresh_apart end_ _ d pt um ps k p Free x Hs1 Hf); [by constructor|done|done].
    + intros p. rewrite elem_of_cons, <- Hps, !pages_own, list_elem_of_singleton. pose proof (not_elem_of_nil p). tauto.
Qed.
End memory.

(** ** The name *)

Lemma chars_safestrcpy_app k t rest i : chars (S k) (bytes_ptr (safestrcpy_loop k t i ++ rest)) 0 = chars k t i.
Proof.
  revert i. induction k as [|k IH]; intros i; [done|].
  remember (S k) as k1 eqn:Hk. cbn [safestrcpy_loop chars]. subst k1. cbn [safestrcpy_loop].
  assert (forall l, bytes_ptr (t i :: l) 0 = t i) as E by done. rewrite <- app_comm_cons, E. cbn [chars].
  case_test; [done|]. f_equal. rewrite <- (IH (i + 1)). apply (chars_cons (S k) _ _ 0). lia.
Qed.

Lemma name_copied (a b : list Z) : chars 16 (bytes_ptr (splice 0 (safestrcpy (bytes_ptr a) 16) b)) 0 = chars 15 (bytes_ptr a) 0.
Proof. unfold splice, safestrcpy. cbn [take app Nat.add]. apply (chars_safestrcpy_app 15). Qed.

(** ** fork *)

Section fork_.
Context (end_ data_ forkret_ trapret_ : Z) (Hend : KERNBASE < end_).
Context (Hdata : KERNLINK < data_ < KERNBASE + PHYSTOP) (Halign : data_ mod PGSIZE = 0).

(** Process [p] in slot [c] runs, and its parts are in order. *)
Record forkable (s : kst) (c : nat) (p : proc) (pt um : gmap Z Z) (ps : list Z) : Prop := {
  fk_cur : cpu_proc (ptab s) = Some c;
  fk_proc : procs (ptab s) !! c = Some p;
  fk_running : state p = RUNNING;
  fk_space : space_ok end_ (k_mem s) (pgdir p) pt um ps;
  fk_sz : 0 <= sz p <= KERNBASE;
  fk_mapped : forall va, 0 <= va < sz p -> va mod PGSIZE = 0 -> is_Some (um !! va);
  fk_ofile : length (ofile p) = NOFILE;
  fk_open : forall f, Some f ∈ ofile p -> 1 <= f_ref (get_f f s);
  fk_cwd : is_Some (cwd p);
  fk_unused : forall q, q ∈ procs (ptab s) -> state q = UNUSED -> ofile q = replicate NOFILE None }.

(** [q] is the child [p] of slot [c] gets, with process number [n]. *)
Record child_of (c : nat) (p : proc) (n : Z) (q : proc) : Prop := {
  ch_state : state q = RUNNABLE;
  ch_pid : pid q = n;
  ch_parent : parent q = Some c;
  ch_sz : sz q = sz p;
  ch_tf : tf q = set_tf_eax 0 (tf p);
  ch_ctx : ctx q = mkCtx 0 0 0 0 forkret_;
  ch_ofile : ofile q = ofile p;
  ch_cwd : cwd q = cwd p;
  ch_name : chars 16 (bytes_ptr (name q)) 0 = chars 15 (bytes_ptr (name p)) 0;
  ch_tickets : tickets q = 10 }.

(** One reference more to the inode [w]. *)
Definition more_iref (w : option nat) (ic : list inode) : list inode :=
  match w with Some i => alter (fun ip => set_i_ref (i_ref ip + 1) ip) i ic | None => ic end.

(** The part of [fork] after [copyuvm] has succeeded. *)
Lemma fork_fill s t n i q m ft ic c p d :
  cpu_proc t = Some c -> procs t !! c = Some p -> i <> c -> (i < length (procs t))%nat -> is_Some (cwd p) ->
  ofile q = replicate (length (ofile p)) None -> (forall f, Some f ∈ ofile p -> 1 <= f_ref (default file0 (ft !! f))) ->
  ctx q = mkCtx 0 0 0 0 forkret_ -> tickets q = 10 -> pgdir q = d ->
  exists q', child_of c p (pid q) q' /\ pgdir q' = d /\ kstack q' = kstack q /\
  ('(c, p) ← curproc;
   modproc i (set_sz (sz p));;
   modproc i (set_parent (Some c));;
   modproc i (set_tf (tf p));;
   modproc i (fun q => set_tf (set_tf_eax 0 (tf q)) q);;
   dup_files (ofile p) 0 i;;
   cw ← (match cwd p with Some w => idup w | None => panic "trap" end);
   modproc i (set_cwd (Some cw));;
   modproc i (fun q => set_name (splice 0 (safestrcpy (bytes_ptr (name p)) 16) (name q)) q);;
   q ← getproc i;
   acquire LPtable;;
   modproc i (set_state RUNNABLE);;
   release LPtable;;
   mret (pid q)) [] (with_ s (slot_at t n i q) m ft ic) =
  Ret (pid q) [] (with_ s (slot_at t n i q') m (more_refs (ofile p) ft) (more_iref (cwd p) ic)).
Proof.
  intros Hc Hp Hne Hi [w Hw] Hq Hf Hctx Htick Hd. eexists. split_and!; [..|].
  4: { rewrite bind_unfold, (curproc_slot _ _ _ _ _ _ _ _ _ c p) by done. do 4 (rewrite bind_unfold, modproc_slot by done).
       rewrite bind_unfold, (dup_files_run _ _ _ _ _ _ _ _ _ []) by done. rewrite Hw, bind_unfold. unfold idup at 1.
       repeat kstep_base. unfold mod_ip. repeat kstep_base.
       change (upd_ip ?w ?f (with_ ?s ?t ?m ?ft ?ic)) with (with_ s t m ft (alter f w ic)).
       rewrite modproc_slot by done. rewrite bind_unfold, modproc_slot by done. rewrite bind_unfold, getproc_slot by done.
       do 2 kstep_base. rewrite bind_unfold, modproc_slot by done. repeat kstep_base. reflexivity. }
  - split; try done. apply name_copied.
  - done.
  - done.
Qed.

(** A slot that was free and still is. *)
Definition still_free (t t' : pstate) : Prop :=
  t' = t \/ exists i q q', procs t !! i = Some q /\ state q = UNUSED /\ state q' = UNUSED /\ t' = slot_at t (s32 (nextpid t + 1)) i q'.

Lemma fork_run s c p pt um ps :
  forkable s c p pt um ps ->
  exists r t' m' ps' ft ic, fork end_ data_ forkret_ trapret_ [] s = Ret r [] (with_ s t' m' ft ic) /\
    space_ok end_ m' (pgdir p) pt um ps' /\ kept (k_mem s) m' (pgdir p) pt um /\
    (r = -1 /\ ft = k_ftable s /\ ic = k_icache s /\ (forall x, x ∈ ps' <-> x ∈ ps) /\ still_free (ptab s) t' /\
       ((forall q, q ∈ procs (ptab s) -> state q <> UNUSED) \/ Z.of_nat (length ps) <= 1026 + page_count 0 (sz p)) \/
     r = nextpid (ptab s) /\ ft = more_refs (ofile p) (k_ftable s) /\ ic = more_iref (cwd p) (k_icache s) /\
       exists i q q', procs (ptab s) !! i = Some q /\ state q = UNUSED /\ t' = slot_at (ptab s) (s32 (nextpid (ptab s) + 1)) i q' /\
         child_of c p r q' /\ twin end_ data_ trapret_ m' (pgdir p) pt um (sz p) (pgdir q') (kstack q') ps ps').
Proof.
  intros F. pose proof F as [Hcur Hp Hrun Hs Hsz Hall Hof Hopen Hcwd Hun].
  assert (curproc [] s = Ret (c, p) [] s) as Rc by (apply curproc_run; done).
  unfold fork. rewrite bind_unfold, Rc. pose proof (allocproc_run forkret_ trapret_ s (ptab s) (k_mem s) (k_ftable s) (k_icache s)) as A.
  rewrite with_id in A. destruct (list_find _ _) as [[i q]|] eqn:E.
  - apply list_find_Some in E as (Hq & Hst & _). assert (i <> c) as Hne by (intros ->; congruence).
    pose proof (lookup_lt_Some _ _ _ Hq) as Hi. destruct ps as [|k ps].
    + destruct (kalloc_space end_ (k_mem s) (pgdir p) pt um [] [] Hs) as (m1 & R1 & Hs1 & Hp1 & _); [not_held|]. cbn [hd tail] in *.
      rewrite bind_unfold, (A 0 m1 R1). cbn [Z.eqb]. rewrite mret_run.
      exists (-1), (slot_at (ptab s) (s32 (nextpid (ptab s) + 1)) i (set_state UNUSED (embryo (nextpid (ptab s)) 0 q))), m1, [], (k_ftable s), (k_icache s).
      split_and!; [done|done|intros a x _ _; by rewrite Hp1|]. left. split_and!; try done.
      * right. by exists i, q, (set_state UNUSED (embryo (nextpid (ptab s)) 0 q)).
      * right. pose proof (Z.div_pos (sz p - 0 + PGSIZE - 1) PGSIZE). unfold page_count, PGSIZE in *. cbn [length]. lia.
    + destruct (child_memory end_ data_ trapret_ Hend Hdata Halign (k_mem s) (pgdir p) pt um k ps (sz p) Hs Hsz Hall)
        as (m1 & r & m3 & ps3 & R1 & Hk & R2 & Hcase).
      rewrite bind_unfold, (A k m1 R1), (proj2 (Z.eqb_neq _ _)) by done. fold (stacked trapret_ k m1).
      rewrite bind_unfold, (with_lift _ _ _ _ _ _ r m3) by done. rewrite bind_unfold, modproc_slot by done.
      destruct Hcase as [(-> & (m4 & R4 & Hs4 & Hkept) & Hps & Hlen)|(Hr & Hs3 & Hkept & Htwin)].
      * cbn [Z.eqb]. rewrite bind_unfold, getproc_slot by done. rewrite bind_unfold, (with_lift _ _ _ _ _ _ tt m4) by done.
        do 2 (rewrite bind_unfold, modproc_slot by done). rewrite mret_run.
        do 6 eexists. split_and!; [reflexivity|exact Hs4|exact Hkept|]. left. split_and!; try done; [|by right]. right. exists i, q. eexists. split; [exact Hq|]. split; [exact Hst|]. split; [|reflexivity]. reflexivity.
      * rewrite (proj2 (Z.eqb_neq _ _)) by done.
        destruct (fork_fill s (ptab s) (s32 (nextpid (ptab s) + 1)) i (set_pgdir r (set_ctx (mkCtx 0 0 0 0 forkret_) (embryo (nextpid (ptab s)) k q))) m3
          (k_ftable s) (k_icache s) c p r) as (q' & Hch & Hd & Hks & R5); try done.
        { cbn. rewrite Hof. apply Hun; [by eapply list_elem_of_lookup_2|done]. }
        rewrite R5. do 6 eexists. split_and!; [reflexivity|exact Hs3|exact Hkept|]. right. split_and!; try done.
        exists i, q, q'. split_and!; try done. rewrite Hd, Hks. exact Htwin.
  - rewrite bind_unfold, A, mret_run. apply list_find_None in E.
    exists (-1), (ptab s), (k_mem s), ps, (k_ftable s), (k_icache s). rewrite with_id. split_and!; [done|done|by intros ? ? ? ?|].
    left. split_and!; try done; [by left|]. left. intros q Hq. by apply (proj1 (Forall_forall _ _) E).
Qed.
End fork_.

(** C6: [fork] makes a second process like the first.  When there is a free slot
    and enough memory, the caller gets the new process number and the child
    is runnable: it resumes from the caller's registers but with 0 in [eax];
    its address space has the same pages, flags and contents as the caller's,
    in other physical pages; it has the same open files, each with one
    reference more per descriptor, the same working directory and name, and a
    kernel stack of its own that returns into [trapret].  Otherwise [fork]
    returns -1, every page it took is free again, the slot is free, and files
    and inodes have their old counts.  The caller's memory does not change,
    and no other slot of the table does. *)
Theorem fork_copies end_ data_ forkret_ trapret_ s c p pt um ps :
  KERNBASE < end_ -> KERNLINK < data_ < KERNBASE + PHYSTOP -> data_ mod PGSIZE = 0 ->
  forkable end_ s c p pt um ps ->
  exists r t' m' ps' ft ic, fork end_ data_ forkret_ trapret_ [] s = Ret r [] (with_ s t' m' ft ic) /\
    space_ok end_ m' (pgdir p) pt um ps' /\ kept (k_mem s) m' (pgdir p) pt um /\
    (r = -1 /\ ft = k_ftable s /\ ic = k_icache s /\ (forall x, x ∈ ps' <-> x ∈ ps) /\ still_free (ptab s) t' /\
       ((forall q, q ∈ procs (ptab s) -> state q <> UNUSED) \/ Z.of_nat (length ps) <= 1026 + page_count 0 (sz p)) \/
     r = nextpid (ptab s) /\ ft = more_refs (ofile p) (k_ftable s) /\ ic = more_iref (cwd p) (k_icache s) /\
       exists i q q', procs (ptab s) !! i = Some q /\ state q = UNUSED /\ t' = slot_at (ptab s) (s32 (nextpid (ptab s) + 1)) i q' /\
         child_of forkret_ c p r q' /\ twin end_ data_ trapret_ m' (pgdir p) pt um (sz p) (pgdir q') (kstack q') ps ps').
Proof. intros Hend Hdata Hal. by apply fork_run. Qed.

(** ** An example: a process with two descriptors for one file, and 1100 free
    pages *)

(** A free list threaded through the pages [ps]. *)
Fixpoint thread (ps : list Z) : mem :=
  match ps with
  | [] => fun _ => 0
  | p :: ps => store32 (thread ps) p (hd 0 ps)
  end.

Lemma thread_out ps x : (forall p, p ∈ ps -> ~ in_page p x) -> thread ps x = 0.
Proof.
  induction ps as [|p ps IH]; intros H; [done|]. cbn [thread].
  replace p with (p + 4 * 0) by lia. rewrite store_word_out by (lia || (apply H; by left)). apply IH. intros q Hq. apply H. by right.
Qed.

Lemma thread_ok ps : mem_ok (thread ps).
Proof. induction ps; cbn [thread]; [by intros a; cbn|by apply store32_ok]. Qed.

Lemma threaded_thread end_ ps : Forall (page_ok end_) ps -> NoDup ps -> threaded end_ (thread ps) (hd 0 ps) ps.
Proof.
  induction ps as [|p ps IH]; intros Hp Hn; [done|]. apply Forall_cons in Hp as [Hp Hps]. apply NoDup_cons in Hn as [Hnp Hn].
  cbn [threaded thread hd]. split_and!; [done..|]. rewrite load32_same.
  assert (0 <= hd 0 ps < 2 ^ 32) as Hb.
  { destruct ps as [|q ps]; cbn; [lia|]. apply Forall_cons in Hps as [(_ & _ & Hq) _]. unfold KERNBASE, PHYSTOP in Hq. lia. }
  rewrite u32_id by lia. eapply threaded_frame; [|by apply IH]. intros q x Hq Hx. replace p with (p + 4 * 0) by lia.
  apply store_word_out; [lia|]. replace (p + 4 * 0) with p by lia. eapply (apart end_ q p); [|done| |done].
  - by apply (proj1 (Forall_forall _ _) Hps).
  - intros ->. done.
Qed.

Definition fork_pages : list Z := (fun i => 0x80400000 + PGSIZE * i) <$> seqZ 0 1100.
Definition fork_parent : proc :=
  set_state RUNNING (set_pgdir vm_dir (set_cwd (Some 0%nat) (set_ofile (Some 0%nat :: Some 0%nat :: replicate 14 None) proc0))).
Definition fork_table : pstate := set_cpu_proc (Some 0%nat) (set_procs [fork_parent; proc0] pstate0).
Definition fork_state : kst :=
  set_k_mem (mkKmstate (thread fork_pages) 1 (hd 0 fork_pages))
    (started (fun _ => []) (mkSb 0 0 0 0 0 0 0) 0 fork_table [set_i_ref 1 inode0] [mkFile FD_INODE 2 1 0 0 0 0]).

Lemma fork_pages_ok : Forall (page_ok vm_end) fork_pages /\ NoDup fork_pages /\ vm_dir ∉ fork_pages.
Proof.
  split_and!.
  - apply Forall_forall. intros p (i & -> & Hi)%list_elem_of_fmap. apply elem_of_seqZ in Hi.
    unfold page_ok, vm_end, KERNBASE, PHYSTOP, PGSIZE. replace (0x80400000 + 4096 * i) with ((0x80400 + i) * 4096) by lia.
    rewrite Z.mod_mul by lia. lia.
  - apply NoDup_fmap; [|apply NoDup_seqZ]. intros i j. unfold PGSIZE. lia.
  - intros (i & E & Hi)%list_elem_of_fmap. apply elem_of_seqZ in Hi. unfold vm_dir, PGSIZE in E. lia.
Qed.

Lemma fork_state_ok : forkable vm_end fork_state 0 fork_parent ∅ ∅ fork_pages.
Proof.
  destruct fork_pages_ok as (H1 & H2 & H3). assert (page_ok vm_end vm_dir) as Hd by (apply vm_page_ok; by left).
  split; [reflexivity..| |split; cbn; [lia|unfold KERNBASE; lia]| |reflexivity| | |].
  - apply empty_space; [split; [exact (thread_ok fork_pages)|exact (threaded_thread vm_end fork_pages H1 H2)|exact H2]|exact Hd|exact H3|].
    intros x Hx. change (thread fork_pages x = 0). apply thread_out. intros p Hp. apply (apart vm_end vm_dir p); [done|by apply (proj1 (Forall_forall _ _) H1)|congruence|done].
  - intros va Hva. cbn in Hva. lia.
  - intros f Hf. cbn in Hf. rewrite !elem_of_cons in Hf. destruct Hf as [[= ->]|[[= ->]|Hf]]; [cbn; lia|cbn; lia|].
    repeat (destruct Hf as [Hf|Hf]; [discriminate Hf|]). by apply not_elem_of_nil in Hf.
  - by eexists.
  - intros q Hq. change (procs (ptab fork_state)) with [fork_parent; proc0] in Hq. apply elem_of_cons in Hq as [->|Hq]; [done|].
    by apply list_elem_of_singleton in Hq as ->.
Qed.

Lemma fork_copies_witness :
  exists s' m', fork vm_end (KERNBASE + 0x108000) 0x80103000 0x80105000 [] fork_state = Ret 1 [] s' /\ k_mem s' = m' /\
    f_ref (get_f 0 s') = 4 /\ i_ref (get_ip 0 s') = 2.
Proof.
  destruct (fork_copies vm_end (KERNBASE + 0x108000) 0x80103000 0x80105000 fork_state 0 fork_parent ∅ ∅ fork_pages)
    as (r & t' & m' & ps' & ft & ic & R & _ & _ & [(_ & _ & _ & _ & _ & [Hn|Hlen])|(-> & -> & -> & _)]).
  - unfold vm_end, KERNBASE. lia.
  - unfold KERNLINK, EXTMEM, KERNBASE, PHYSTOP. lia.
  - reflexivity.
  - apply fork_state_ok.
  - exfalso. apply (Hn proc0); [|done]. right. left.
  - exfalso. change (page_count 0 (sz fork_parent)) with 0 in Hlen. unfold fork_pages in Hlen. rewrite length_fmap, length_seqZ in Hlen. lia.
  - exists (with_ fork_state t' m' (more_refs (ofile fork_parent) (k_ftable fork_state)) (more_iref (cwd fork_parent) (k_icache fork_state))), m'.
    split; [exact R|]. split; [reflexivity|]. split; reflexivity.
Defined.
