(* ===== verification/Main.v ===== *)
(** * Starting the machine (src/main.c, kvmalloc of src/vm.c, ideinit of src/memide.c)

    [main] calls the initialisation of every component in turn; here they run
    on one state, which has the kernel's variables and memory, the variables
    of mp.c, the interrupt controllers and the descriptor tables of this CPU.
    The model ends where [mpmain] calls [scheduler]. *)

From Stdlib Require Import ZArith Lia String.
From stdpp Require Import prelude numbers strings option gmap list.
From S2P Require Import Prelude Kernel Mem Mp Gates Kalloc Spinlock Sched Mailbox Sleeplock Pipe Bio Log Vm Vmspace Vmops Vmkern Vmcopy Console Apic Kst Inode Device Line Fs File Proc Forkthm.

(** ** The machine

    [m_started] are the fields [started] of [cpus]; [m_cpu] and [m_tab] are the
    flags and the tables of the CPU that runs. *)
Record machine (D : Type) : Type := mkMachine {
  m_k : kst;
  m_cpus : list Z;
  m_ncpu : Z;
  m_ioapicid : Z;
  m_lapic : Z;
  m_imcr_sel : Z;
  m_imcr : Z;
  m_started : list Z;
  m_chip : D;
  m_cpu : cpu;
  m_tab : tables }.
Arguments mkMachine {D}.
Arguments m_k {D}.
Arguments m_cpus {D}.
Arguments m_ncpu {D}.
Arguments m_ioapicid {D}.
Arguments m_lapic {D}.
Arguments m_imcr_sel {D}.
Arguments m_imcr {D}.
Arguments m_started {D}.
Arguments m_chip {D}.
Arguments m_cpu {D}.
Arguments m_tab {D}.

Section state.
Context {D : Type}.
Implicit Types s : machine D.

Definition set_m_k v s := mkMachine v (m_cpus s) (m_ncpu s) (m_ioapicid s) (m_lapic s) (m_imcr_sel s) (m_imcr s) (m_started s) (m_chip s) (m_cpu s) (m_tab s).
Definition set_m_started v s := mkMachine (m_k s) (m_cpus s) (m_ncpu s) (m_ioapicid s) (m_lapic s) (m_imcr_sel s) (m_imcr s) v (m_chip s) (m_cpu s) (m_tab s).
Definition set_m_chip (v : D) s := mkMachine (m_k s) (m_cpus s) (m_ncpu s) (m_ioapicid s) (m_lapic s) (m_imcr_sel s) (m_imcr s) (m_started s) v (m_cpu s) (m_tab s).
Definition set_m_cpu v s := mkMachine (m_k s) (m_cpus s) (m_ncpu s) (m_ioapicid s) (m_lapic s) (m_imcr_sel s) (m_imcr s) (m_started s) (m_chip s) v (m_tab s).
Definition set_m_tab v s := mkMachine (m_k s) (m_cpus s) (m_ncpu s) (m_ioapicid s) (m_lapic s) (m_imcr_sel s) (m_imcr s) (m_started s) (m_chip s) (m_cpu s) v.

(** Memory, and the variables of mp.c with it. *)
Definition m_mem s : mem := phys (k_mem (m_k s)).
Definition set_m_mem (m : mem) s := set_m_k (set_k_mem (set_phys m (k_mem (m_k s))) (m_k s)) s.
Definition m_vars s : mpst := mkMpst (m_mem s) (m_cpus s) (m_ncpu s) (m_ioapicid s) (m_lapic s) (m_imcr_sel s) (m_imcr s).
Definition set_m_vars (v : mpst) s :=
  mkMachine (set_k_mem (set_phys (mp_mem v) (k_mem (m_k s))) (m_k s)) (cpus v) (ncpu v) (ioapicid v) (lapic v) (imcr_sel v) (imcr v)
    (m_started s) (m_chip s) (m_cpu s) (m_tab s).

#[export, refine] Instance Has_m_k : Has kst (machine D) := {| get_part := m_k; put_part := set_m_k |}.
Proof. all: by intros; destruct s. Defined.
#[export, refine] Instance Has_m_cpu : Has cpu (machine D) := {| get_part := m_cpu; put_part := set_m_cpu |}.
Proof. all: by intros; destruct s. Defined.
#[export, refine] Instance Has_m_tab : Has tables (machine D) := {| get_part := m_tab; put_part := set_m_tab |}.
Proof. all: by intros; destruct s. Defined.
#[export, refine] Instance Has_m_vars : Has mpst (machine D) := {| get_part := m_vars; put_part := set_m_vars |}.
Proof. all: by intros; destruct s as [[? [] ? ? ? ? ? ? ? ?] ? ? ? ? ? ? ? ? ? ?]; try destruct t. Defined.
#[export, refine] Instance Has_m_hw : Has (hw D) (machine D) :=
  {| get_part := fun s => mkHw (m_chip s) (m_vars s) (k_cons (m_k s));
     put_part := fun w s => set_m_chip (chip w) (set_m_vars (mpv w) (set_m_k (set_k_cons (con w) (m_k s)) s)) |}.
Proof. all: by intros; destruct s as [[? [] ? ? ? ? ? ? ? ?] ? ? ? ? ? ? ? ? ? ?]; try destruct t as [? [] ?]. Defined.
End state.

(** The file system image linked into the kernel is the disk. *)
Definition ideinit (fs_img : Z -> block) (fs_size : Z) (s : bst) : bst :=
  mkBst (bufs s) (bnext s) (bprev s) fs_img (fs_size / BSIZE) (writes s) (btable s).

(** [kvmalloc] *)
Definition kvmalloc (end_ data_ : Z) : K kst unit :=
  d ← lift (setupkvm end_ data_);
  modp (set_kpgdir d);;
  switchkvm.

Definition PTE_PS : Z := 0x080.
Definition PDXSHIFT : Z := 22.

(** The boot page table: an array of zeros but for two entries. *)
Definition entrypgdir : list Z :=
  let e := Z.lor (Z.lor (Z.lor 0 PTE_P) PTE_W) PTE_PS in
  <[Z.to_nat (Z.shiftr KERNBASE PDXSHIFT) := e]> (<[0%nat := e]> (replicate (Z.to_nat NPDENTRIES) 0)).

Section main.
Context {D : Type} `{!Ports D, !Chips D}.
(** The symbols of the linker and the addresses of variables and of code. *)
Context (end_ data_ forkret_ trapret_ mpenter_ entrypgdir_ idt_ : Z) (gdt_ : nat -> Z) (vectors : Z -> Z).
(** The images linked into the kernel: their places and sizes, and the blocks
    of the file system. *)
Context (init_start init_size other_start other_size : Z) (fs_img : Z -> block) (fs_size : Z).
(** What the other processors do between two reads of [started], and how many
    reads there may be. *)
Context (others : machine D -> machine D) (patience : nat).

(** [mycpu] and [cpuid]: the index in [cpus]. *)
Definition thiscpu : K (machine D) nat :=
  e ← lift readeflags;
  if negb (Z.land e Spinlock.FL_IF =? 0) then panic "mycpu called with interrupts enabled\n"
  else
    id ← lift lapicid;
    n ← gets m_ncpu;
    ids ← gets m_cpus;
    match find_cpu (take (Z.to_nat n) ids) id 0 with
    | Some i => mret i
    | None => panic "unknown apicid\n"
    end.

Definition seginit_ : K (machine D) unit := c ← thiscpu; lift (seginit (gdt_ c)).

Definition consoleinit_ : K (machine D) unit :=
  lift consoleinit;;
  lift (ioapicenable IRQ_KBD 0).

(** [mpmain] up to the call of [scheduler] *)
Definition mpmain : K (machine D) unit :=
  c1 ← thiscpu;
  c2 ← thiscpu;
  lift (cprintf ("cpu%d: starting %d" ++ nl) [KInt (Z.of_nat c1); KInt (Z.of_nat c2)] : K kst unit);;
  lift (idtinit idt_);;
  c ← thiscpu;
  modify (fun s => set_m_started (<[c := 1]> (m_started s)) s).

(** [mpenter], on another processor *)
Definition mpenter : K (machine D) unit :=
  lift (switchkvm : K kst unit);;
  seginit_;;
  lift lapicinit;;
  mpmain.

Definition store_word (a v : Z) : K (machine D) unit := modify (fun s => set_m_mem (store32 (m_mem s) a v) s).

(** [while(c->started == 0);] *)
Fixpoint wait_started (fuel : nat) (c : nat) : K (machine D) unit :=
  match fuel with
  | O => spin
  | S fuel =>
      st ← gets m_started;
      if nth c st 0 =? 0 then modify others;; wait_started fuel c else mret ()
  end.

(** The loop of [startothers]: [n] processors from [c] on. *)
Fixpoint startothers_loop (n : nat) (c : nat) : K (machine D) unit :=
  match n with
  | O => mret ()
  | S n =>
      me ← thiscpu;
      (if Nat.eqb c me then mret ()
       else
         let code := P2V 0x7000 in
         stack ← lift (lift kalloc : K kst Z);
         store_word (code - 4) (u32 (stack + KSTACKSIZE));;
         store_word (code - 8) mpenter_;;
         store_word (code - 12) (V2P entrypgdir_);;
         ids ← gets m_cpus;
         lift (lapicstartap (nth c ids 0) (V2P code));;
         wait_started patience c);;
      startothers_loop n (S c)
  end.
Definition startothers : K (machine D) unit :=
  modify (fun s => set_m_mem (memmove (m_mem s) (P2V 0x7000) other_start other_size) s);;
  n ← gets m_ncpu;
  startothers_loop (Z.to_nat n) 0.

(** The buffer cache and the disk. *)
Definition bcache (f : bst -> bst) : K (machine D) unit := lift (lift (lift (modify f) : K lst unit) : K kst unit).

(** [pinit] and [fileinit] only initialise a lock. *)
Definition main : K (machine D) unit :=
  lift (lift (kinit1 end_ end_ (P2V (4 * 1024 * 1024))) : K kst unit);;
  lift (kvmalloc end_ data_);;
  lift (mpinit (Z.to_nat 8192));;
  lift lapicinit;;
  seginit_;;
  lift picinit;;
  lift ioapicinit;;
  consoleinit_;;
  lift uartinit;;
  lift (tvinit vectors);;
  bcache binit;;
  bcache (ideinit fs_img fs_size);;
  lift (lift (modify mailboxinit) : K kst unit);;
  startothers;;
  lift (lift (kinit2 end_ (P2V (4 * 1024 * 1024)) (P2V PHYSTOP)) : K kst unit);;
  lift (userinit end_ data_ forkret_ trapret_ init_start init_size);;
  mpmain.
End main.
