(* ===== verification/Mainmem.v ===== *)
(** * The memory of the starting machine

    What [main] of src/main.c does with physical memory: the pages below 4
    megabytes are freed first, the kernel's page table and the stacks of the
    other processors are taken from them, then the rest is freed, and the first
    process gets its stack, its page table and the page with initcode. *)

From Stdlib Require Import ZArith Lia String.
From stdpp Require Import prelude numbers strings option gmap list.
From S2P Require Import Prelude Kernel Mem Kalloc Vm Vmspace Vmops Vmkern Vmcopy Sched Proc Forkthm.

(** A list that has every whole page of a range has as many elements. *)
Lemma whole_pages_count a b n ps :
  0 <= a < 2 ^ 32 - PGSIZE -> (forall q, whole_page a b q -> q ∈ ps) -> a + PGSIZE * (Z.of_nat n + 1) <= b -> (n <= length ps)%nat.
Proof.
  intros Ha Hall Hn. destruct (PGROUNDUP_bounds a Ha) as [Hal Hb].
  replace n with (length ((fun i => PGROUNDUP a + PGSIZE * i) <$> seqZ 0 (Z.of_nat n))) by (rewrite length_fmap, length_seqZ; lia).
  apply submseteq_length, NoDup_submseteq.
  - apply NoDup_fmap_2; [|apply NoDup_seqZ]. intros i j. unfold PGSIZE. lia.
  - intros q (i & -> & Hi%elem_of_seqZ)%list_elem_of_fmap. apply Hall. unfold whole_page, PGSIZE in *. split; [|lia].
    rewrite Z.add_mod, Hal, Z.mul_comm, Z.mod_mul by lia. done.
Qed.

Section memory.
Context (end_ data_ : Z) (Hend : KERNBASE < end_).
Context (Hdata : KERNLINK < data_ < KERNBASE + PHYSTOP) (Halign : data_ mod PGSIZE = 0).
Local Abbreviation space_ok := (space_ok end_).

(** Writing below the kernel's end changes no page. *)
Lemma space_low s d pt um ps m' :
  space_ok s d pt um ps -> mem_ok m' -> (forall x, end_ <= x -> m' x = phys s x) -> space_ok (set_phys m' s) d pt um ps.
Proof.
  intros Hs Hm Hout. pose proof Hs as [H1 H2 H3 H4 H5 H6].
  assert (forall p a x, holds d pt um ps p a -> in_page p x -> m' x = phys s x) as Hsame.
  { intros p a x Hp Hx. apply Hout. destruct (H5 _ _ Hp) as (_ & ? & _). unfold in_page in Hx. lia. }
  split; try done.
  - apply kmem_frame; [done|done|]. intros p x Hp. apply (Hsame p Free). by constructor.
  - eapply tables_frame; [done|..].
    + intros x. apply (Hsame d Dir). constructor.
    + intros i t x Hi. apply (Hsame t (Table i)). by constructor.
Qed.

(** Writing in a user page. *)
Lemma space_user s d pt um ps va w m' :
  space_ok s d pt um ps -> um !! va = Some w -> va < KERNBASE -> mem_ok m' -> (forall x, ~ in_page (upage w) x -> m' x = phys s x) ->
  space_ok (set_phys m' s) d pt um ps.
Proof.
  intros Hs Hw Hva Hm Hout. pose proof Hs as [H1 H2 H3 H4 H5 H6].
  assert (holds d pt um ps (upage w) (User va)) as Hu by (by econstructor).
  assert (forall p a x, holds d pt um ps p a -> a <> User va -> in_page p x -> m' x = phys s x) as Hsame.
  { intros p a x Hp Ha Hx. apply Hout. eapply (holds_apart end_ s d pt um ps p a); try done. }
  split; try done.
  - apply kmem_frame; [done|done|]. intros p x Hp. apply (Hsame p Free); [by constructor|done].
  - eapply tables_frame; [done|..].
    + intros x. apply (Hsame d Dir); [constructor|done].
    + intros i t x Hi. apply (Hsame t (Table i)); [by constructor|done].
Qed.

(** ** The first pages, and the kernel's page table *)

Lemma early_memory m0 :
  end_ + 522 * PGSIZE <= MID -> mem_ok (phys m0) -> freelist m0 = 0 ->
  exists m1 d m2 pt um ps, kinit1 end_ end_ MID [] m0 = Ret tt [] m1 /\ setupkvm end_ data_ [] m1 = Ret d [] m2 /\ d <> 0 /\
    use_lock m2 = 0 /\ space_ok m2 d pt um ps /\ (forall va, va < KERNBASE -> um !! va = None) /\ kernel_mapped data_ um /\
    (forall q, pages d pt um ps [] q <-> whole_page end_ MID q) /\ (8 <= length ps)%nat /\
    (forall x, x < end_ -> phys m2 x = phys m0 x).
Proof.
  intros Hroom Hm Hf. unfold kinit1. rewrite bind_unfold, modify_run.
  destruct (freerange_run end_ end_ MID [] (set_use_lock 0 m0) []) as (m1 & ps1 & R1 & K1 & U1 & P1 & F1).
  { lia. } { unfold PGSIZE in *. lia. } { unfold MID, KERNBASE, PHYSTOP. lia. } { split; [done|by simpl|constructor]. } { set_solver. } { set_solver. }
  assert (forall q, q ∈ ps1 <-> whole_page end_ MID q) as P1' by (intros q; rewrite P1; pose proof (not_elem_of_nil q); tauto).
  destruct (setupkvm_run end_ Hend data_ Hdata Halign m1 ps1 [] K1) as (d & m2 & ps & R2 & U2 & F2 & Hcase); [not_held|].
  assert (521 <= length ps1)%nat as Hlen.
  { apply (whole_pages_count end_ MID); [unfold MID, KERNBASE, PGSIZE in *; lia|intros q; apply P1'|unfold PGSIZE in *; lia]. }
  destruct Hcase as [(-> & _ & Hl & _)|(Hd & pt & um & Hl & Hs & Hko & Hp & Hlow & Hker)]; [lia|].
  exists m1, d, m2, pt, um, ps. rewrite R1. split_and!; try done.
  - by rewrite U2, U1.
  - intros q. by rewrite Hp, P1'.
  - pose proof (kernel_count _ _ _ _ _ _ Hs Hko). lia.
  - intros x Hx. rewrite F2; [by apply F1; left|]. intros p Hpp%P1' Hin. unfold whole_page, in_page in *. lia.
Qed.

(** ** Pages handed out *)

(** The whole pages below [hi] are those of the address space [d], the free ones
    [ps], and the pages [hs] in use by others. *)
Record dealt (m : kmstate) (d : Z) (pt um : gmap Z Z) (ps hs : list Z) (hi : Z) : Prop := {
  de_space : space_ok m d pt um ps;
  de_nodup : NoDup hs;
  de_fresh : forall q, q ∈ hs -> fresh end_ d pt um ps q;
  de_pages : forall q, pages d pt um ps hs q <-> whole_page end_ hi q }.

Lemma fresh_tail d pt um p ps q : fresh end_ d pt um (p :: ps) q -> fresh end_ d pt um ps q /\ q <> p.
Proof.
  intros [Hq Hn]. split; [split; [done|]|].
  - intros a [Ha|[Hp ->]]%holds_split; [eapply (Hn a), holds_split; by left|]. apply (Hn Free). constructor. by right.
  - intros ->. apply (Hn Free). constructor. by left.
Qed.

Lemma take_page m d pt um p ps hs hi :
  dealt m d pt um (p :: ps) hs hi ->
  exists m1, kalloc [] m = Ret p [] m1 /\ p <> 0 /\ phys m1 = phys m /\ use_lock m1 = use_lock m /\ dealt m1 d pt um ps (p :: hs) hi.
Proof.
  intros [H1 H2 H3 H4]. destruct (kalloc_space end_ m d pt um (p :: ps) [] H1) as (m1 & R & Hs & Hp & Hu & Hne & Hf); [not_held|]. cbn [hd tail] in *.
  exists m1. split_and!; try done. split; [done| | |].
  - constructor; [|done]. intros Hin. by destruct (fresh_tail _ _ _ _ _ _ (H3 p Hin)).
  - intros q [->|Hq]%elem_of_cons; [done|]. by apply (fresh_tail _ _ _ p), H3.
  - intros q. by rewrite <- pages_take, H4.
Qed.

Lemma dealt_low m d pt um ps hs hi m' :
  dealt m d pt um ps hs hi -> mem_ok m' -> (forall x, end_ <= x -> m' x = phys m x) -> dealt (set_phys m' m) d pt um ps hs hi.
Proof. intros [H1 H2 H3 H4] Hm Hout. split; try done. by apply space_low. Qed.

(** ** The rest of memory *)

Lemma in_whole_page lo hi x : lo mod PGSIZE = 0 -> hi mod PGSIZE = 0 -> lo <= x < hi -> exists p, whole_page lo hi p /\ in_page p x.
Proof.
  unfold whole_page, in_page, PGSIZE. intros Hlo Hhi Hx. exists (x - x mod 4096).
  pose proof (Z.div_mod x 4096 ltac:(lia)). pose proof (Z.mod_pos_bound x 4096 ltac:(lia)).
  pose proof (Z.div_mod lo 4096 ltac:(lia)). pose proof (Z.div_mod hi 4096 ltac:(lia)).
  split; [|lia]. split_and!; [|lia..]. rewrite Zminus_mod_idemp_r, Z.sub_diag. done.
Qed.

Lemma rest_freed m d pt um ps hs :
  end_ <= MID -> dealt m d pt um ps hs MID ->
  exists m1 ps1, kinit2 end_ MID TOP [] m = Ret tt [] m1 /\ use_lock m1 = 1 /\ dealt m1 d pt um ps1 hs TOP /\ (600 <= length ps1)%nat /\
    (forall x, x < end_ -> phys m1 x = phys m x).
Proof.
  intros Hmid [H1 H2 H3 H4]. unfold kinit2. rewrite bind_unfold.
  assert (forall p, pages d pt um ps hs p -> p + PGSIZE <= MID) as Hbelow by (intros p Hp; apply H4 in Hp as (_ & _ & ?); done).
  destruct (freerange_run end_ MID TOP [] m ps) as (m1 & ps1 & R & K1 & U1 & P1 & F1).
  { done. } { unfold MID, TOP, KERNBASE, PHYSTOP. lia. } { unfold TOP. lia. } { apply H1. } { not_held. }
  { intros q Hq (_ & ? & ?). assert (q + PGSIZE <= MID) by (apply Hbelow, pages_own; auto). unfold PGSIZE in *. lia. }
  rewrite R, modify_run. set (P := fun q => q ∈ ps \/ whole_page MID TOP q).
  assert (forall p, P p -> page_ok end_ p) as HP.
  { intros p [Hp|(Hal & ? & ?)]; [eapply so_page; [exact H1|by constructor]|]. unfold page_ok, TOP, MID, KERNBASE, PGSIZE in *. split_and!; lia. }
  assert (forall p, own d pt um p \/ p ∈ hs -> ~ P p) as Hdis.
  { intros p Hp [Hq|(_ & ? & ?)].
    - destruct Hp as [[a Ha]|Hp]; [|by apply (proj2 (H3 p Hp) Free); constructor].
      assert (a = Free) as -> by (eapply so_excl; [exact H1|apply holds_split; by left|by constructor]). inversion Ha as [| | |q' Hq']; subst. by apply not_elem_of_nil in Hq'.
    - assert (p + PGSIZE <= MID) by (apply Hbelow, pages_own; tauto). unfold PGSIZE in *. lia. }
  destruct (space_beside end_ m (set_use_lock 1 m1) d pt um ps ps1 P H1) as [Hs _].
  { destruct K1 as [? ? ?]. by split. }
  { intros x Hx. cbn [phys set_use_lock]. apply F1. destruct (decide (x < MID)); [by left|]. destruct (decide (TOP <= x)); [by right|]. exfalso.
    destruct (in_whole_page MID TOP x) as (p & Hw & Hin); [done|done|lia|]. apply (Hx p); [by right|done]. }
  { intros p Hp. apply Hdis. by left. } { done. } { intros p Hp. by apply P1 in Hp. }
  exists (set_use_lock 1 m1), ps1. split_and!; [done|done| | |].
  - split; [done|done| |].
    + intros q Hq. split; [apply (H3 q Hq)|]. intros a [Ha|[Hp _]]%holds_split; [apply (proj2 (H3 q Hq) a), holds_split; by left|].
      apply (Hdis q); [by right|]. by apply P1.
    + intros q. rewrite pages_own, P1. specialize (H4 q). rewrite pages_own in H4.
      assert (whole_page end_ TOP q <-> whole_page end_ MID q \/ whole_page MID TOP q) as ->; [|tauto].
      unfold whole_page, TOP, MID, PGSIZE, KERNBASE, PHYSTOP in *. split; [|lia]. intros (Hq & ? & ?). pose proof (Z.div_mod q 4096 ltac:(lia)). lia.
  - apply (whole_pages_count MID TOP); [unfold MID, KERNBASE, PGSIZE; lia|intros q Hq; apply P1; by right|unfold MID, TOP, KERNBASE, PHYSTOP, PGSIZE; lia].
  - intros x Hx. apply F1. left. lia.
Qed.

(** ** The first process *)

(** The address space [r] of the first process: the kernel's part, and one page
    at 0 that holds the [n] bytes [init] and zeros. *)
Record first_space (m : kmstate) (r : Z) (um : gmap Z Z) (w : Z) (init : Z -> Z) (n : Z) : Prop := {
  fs_page : um !! 0 = Some w;
  fs_flags : PTE_FLAGS w = Z.lor (Z.lor PTE_W PTE_U) PTE_P;
  fs_only : forall va, va < KERNBASE -> va <> 0 -> um !! va = None;
  fs_kernel : kernel_mapped data_ um;
  fs_bytes : forall i, 0 <= i < PGSIZE -> phys m (upage w + i) = if decide (i < n) then init i else 0 }.

(** [inituvm] on a new address space [r] beside that of [d]. *)
Lemma inituvm_run m d pt um r pt2 um2 ps init n :
  family end_ m d pt um r pt2 um2 ps -> (2 <= length ps)%nat -> (forall va, va < KERNBASE -> um2 !! va = None) -> kernel_mapped data_ um2 ->
  0 <= n < PGSIZE -> (forall p x, pages r pt2 um2 ps [] p -> init <= x < init + n -> ~ in_page p x) ->
  exists m' pt' um' ps' w, inituvm r init n [] m = Ret tt [] m' /\ use_lock m' = use_lock m /\ family end_ m' d pt um r pt' um' ps' /\
    first_space m' r um' w (fun i => phys m (init + i)) n /\
    (forall q, pages r pt' um' ps' [] q <-> pages r pt2 um2 ps [] q) /\
    (forall x, (forall p, pages r pt2 um2 ps [] p -> ~ in_page p x) -> phys m' x = phys m x).
Proof.
  intros Hfam Hlen Hlow Hker Hn Hinit. destruct ps as [|p [|p' ps]]; cbn [length] in Hlen; try lia.
  pose proof (fa_child _ _ _ _ _ _ _ _ _ Hfam) as Hc.
  destruct (zeroed_page end_ m r pt2 um2 p (p' :: ps) [] Hc) as (s1 & s2 & R1 & Hp & R2 & Hs2 & Hf2 & Hout2 & Hz2 & Hev2); [not_held|].
  destruct (family_step end_ m s2 d pt um r pt2 um2 (p :: p' :: ps) pt2 um2 (p' :: ps) [] [p] um2 Hfam) as [Hfam2 _]; [set_solver|done|done|].
  destruct (kalloc_space end_ m d pt um (p :: p' :: ps) [] (fa_parent _ _ _ _ _ _ _ _ _ Hfam)) as (_ & _ & _ & _ & _ & _ & Hfd); [not_held|].
  destruct (map_user_page end_ s2 r pt2 um2 (p' :: ps) [] 0 p (Z.lor PTE_W PTE_U) []) as (r' & s3 & pt3 & um3 & ps3 & R3 & Hs3 & Hsub & Hsame & _ & Hcase); try done.
  { not_held. } { intros q ->%list_elem_of_singleton. done. } { not_held. } { by apply Hlow. }
  destruct Hcase as [(-> & -> & Hup & Hfl & Hev3 & _)|(_ & _ & ? & _)]; [|done].
  set (w := V2P p + Z.lor (Z.lor PTE_W PTE_U) PTE_P) in *.
  destruct (family_step end_ s2 s3 d pt um r pt2 um2 (p' :: ps) pt3 (<[0 := w]> um2) ps3 [p] [] um2 Hfam2) as [Hfam3 _]; [by intros q ->%list_elem_of_singleton|done|done|].
  pose proof (evolves_trans _ _ _ _ _ _ _ Hev2 Hev3) as Hev.
  assert (forall x, in_page p x -> phys s3 x = 0) as Hz3 by (intros x Hx; rewrite (Hsame p) by (done || by left); by apply Hz2).
  assert (mem_ok (phys s3)) as Hm3 by apply Hs3.
  assert (forall x, memmove (phys s3) p init n x = if decide (p <= x < p + n) then phys s3 (init + (x - p)) else phys s3 x) as Hmv by (intros x; apply memmove_at; [done|lia]).
  assert (forall x, ~ in_page p x -> memmove (phys s3) p init n x = phys s3 x) as Hout by (intros x Hx; rewrite Hmv, decide_False; [done|]; unfold in_page in Hx; lia).
  assert (<[0 := w]> um2 !! 0 = Some w) as Hw by apply lookup_insert_eq.
  assert (own r pt3 (<[0 := w]> um2) p) as Hop by (rewrite <- Hup; eapply user_own; [exact Hw|done]).
  exists (set_phys (memmove (phys s3) p init n) s3), pt3, (<[0 := w]> um2), ps3, w. split_and!.
  - unfold inituvm. rewrite (proj2 (Z.leb_gt _ _)) by lia. rewrite bind_unfold, R1, bind_unfold, R2, bind_unfold, R3. by rewrite modify_run.
  - cbn [use_lock set_phys]. apply Hev.
  - destruct Hfam3 as [F1 F2 F3]. split; [| |done].
    + apply (space_hand end_ s3 d pt um ps3 p); try done; [|apply memmove_ok; [done|lia]]. split; [apply Hfd|].
      intros a [Ha|[Hin ->]]%holds_split; [by apply (F3 p); [exists a|]|]. assert (User 0 = Free); [|done].
      eapply (so_excl _ _ _ _ _ _ F2 p); [|by constructor]. rewrite <- Hup. econstructor; [exact Hw|done].
    + apply (space_user s3 r pt3 _ ps3 0 w); try done; [apply memmove_ok; [done|lia]|]. by rewrite Hup.
  - split; [done|done| | |].
    + intros va Hva Hne. rewrite lookup_insert_ne by done. by apply Hlow.
    + eapply Forall_impl; [exact Hker|]. intros [[[virt st] en] perm] Hmp i Hi. eapply lookup_weaken; [by apply Hmp|].
      apply insert_subseteq. by apply Hlow.
    + intros i Hi. cbn [phys set_phys]. rewrite Hup, Hmv. destruct (decide (i < n)).
      * rewrite decide_True by lia. replace (init + (p + i - p)) with (init + i) by lia. rewrite (ev_out _ _ _ _ _ Hev); [done|].
        intros q Hq. apply (Hinit q); [done|lia].
      * rewrite decide_False by lia. apply Hz3. unfold in_page. lia.
  - apply Hev.
  - intros x Hx. cbn [phys set_phys]. rewrite Hout; [by apply (ev_out _ _ _ _ _ Hev)|]. apply Hx. left. exists Free. constructor. by left.
Qed.

(** What [userinit] does with memory, and how the pages are spread after it. *)
Record spread (m : kmstate) (d : Z) (pt um : gmap Z Z) (r : Z) (pt2 um2 : gmap Z Z) (ps hs : list Z) : Prop := {
  sp_family : family end_ m d pt um r pt2 um2 ps;
  sp_nodup : NoDup hs;
  sp_hands : forall q, q ∈ hs -> fresh end_ d pt um ps q /\ fresh end_ r pt2 um2 ps q;
  sp_all : forall q, whole_page end_ TOP q <-> own d pt um q \/ own r pt2 um2 q \/ q ∈ ps \/ q ∈ hs }.

Lemma first_process trapret_ m d pt um k ps hs init n :
  dealt m d pt um (k :: ps) hs TOP -> (600 <= length (k :: ps))%nat -> 0 <= n < PGSIZE -> init + n <= end_ ->
  exists m1 r m2 m' pt2 um2 ps' w, kalloc [] m = Ret k [] m1 /\ k <> 0 /\
    setupkvm end_ data_ [] (stacked trapret_ k m1) = Ret r [] m2 /\ r <> 0 /\ inituvm r init n [] m2 = Ret tt [] m' /\ use_lock m' = use_lock m /\
    spread m' d pt um r pt2 um2 ps' (k :: hs) /\ first_space m' r um2 w (fun i => phys m (init + i)) n /\
    load32 (phys m') (k + KSTACKSIZE - 80) = u32 trapret_ /\ (forall x, x < end_ -> phys m' x = phys m x).
Proof.
  intros Hd Hlen Hn Hinit. destruct (take_page m d pt um k ps hs TOP Hd) as (m1 & R1 & Hk & Hp1 & Hu1 & [E1 E2 E3 E4]).
  destruct (stacked_run end_ trapret_ m d pt um k ps (de_space _ _ _ _ _ _ _ Hd)) as (m1' & R1' & _ & Hs1 & Hf1 & Hout1 & Hl1).
  rewrite R1 in R1'. injection R1' as <-. set (s1 := stacked trapret_ k m1) in *.
  destruct (setupkvm_run end_ Hend data_ Hdata Halign s1 ps [] (so_km _ _ _ _ _ _ Hs1)) as (r & m2 & ps2 & R2 & U2 & F2 & Hcase); [not_held|].
  cbn [length] in Hlen. destruct Hcase as [(_ & _ & Hl & _)|(Hr & pt2 & um2 & Hl & Hs2 & Hko & Hps2 & Hlow & Hker)]; [lia|].
  pose proof (kernel_count _ _ _ _ _ _ Hs2 Hko) as Hcnt.
  assert (forall p, p ∈ ps -> page_ok end_ p) as Hpok by (intros p Hp; eapply so_page; [exact Hs1|by constructor]).
  assert (forall p, own d pt um p \/ p ∈ k :: hs -> p ∉ ps) as Hnin.
  { intros p [[a Ha]|Hp] Hq; [|by apply (proj2 (E3 p Hp) Free); constructor].
    assert (a = Free) as -> by (eapply so_excl; [exact Hs1|apply holds_split; by left|by constructor]). inversion Ha as [| | |q' Hq']; subst. by apply not_elem_of_nil in Hq'. }
  destruct (space_beside end_ s1 m2 d pt um ps ps2 (.∈ ps)) as [Hsp Hsame]; try done.
  { apply Hs2. } { intros p Hp. apply Hnin. by left. } { intros p Hp. apply Hps2, pages_own. auto. }
  assert (family end_ m2 d pt um r pt2 um2 ps2) as Hfam.
  { split; [done|done|]. intros p Ho Ho'. apply (Hnin p); [by left|]. apply Hps2, pages_own. auto. }
  destruct (inituvm_run m2 d pt um r pt2 um2 ps2 init n Hfam) as (m' & pt3 & um3 & ps3 & w & R3 & U3 & Hfam3 & Hfs & Hps3 & F3); try done.
  { lia. } { intros p x Hp%Hps2 Hx Hin. destruct (Hpok p Hp) as (_ & ? & _). unfold in_page in Hin. lia. }
  assert (forall x, (forall p, p ∈ ps -> ~ in_page p x) -> phys m' x = phys s1 x) as Hframe.
  { intros x Hx. rewrite F3; [by apply F2|]. intros p Hp. by apply Hx, Hps2. }
  assert (forall x, x < end_ -> phys m2 x = phys m x /\ phys m' x = phys m x) as Hbelow.
  { intros x Hx. assert (forall p, page_ok end_ p -> ~ in_page p x) as Ho by (intros p (_ & ? & _) Hin; unfold in_page in Hin; lia).
    rewrite Hframe, F2 by auto. split; apply Hout1, Ho, Hf1. }
  exists m1, r, m2, m', pt3, um3, ps3, w. split_and!; try done.
  - by rewrite U3, U2.
  - assert (forall q, own r pt3 um3 q \/ q ∈ ps3 <-> q ∈ ps) as Hq.
    { intros q. rewrite <- Hps2, <- Hps3, pages_own. pose proof (not_elem_of_nil q). tauto. }
    split; [done|done| |].
    + intros q Hqk. pose proof (Hnin q (or_intror Hqk)) as Hno. split; (split; [by apply E3|]); intros a [Ha|[Hin _]]%holds_split.
      * apply (proj2 (E3 q Hqk) a), holds_split. by left.
      * apply Hno, Hq. by right.
      * apply Hno, Hq. left. by exists a.
      * apply Hno, Hq. by right.
    + intros q. rewrite <- E4, pages_own, <- Hq. tauto.
  - destruct Hfs as [? ? ? ? Hb]. split; try done. intros i Hi. rewrite Hb by done. destruct (decide (i < n)); [|done]. apply Hbelow. lia.
  - rewrite <- Hl1. apply load32_ext. intros x Hx. apply Hframe. intros p Hp Hin.
    assert (in_page k x) as Hkx by (unfold in_page, KSTACKSIZE, PGSIZE in *; lia).
    apply (apart end_ k p x); [by apply Hf1|by apply Hpok| |done|done]. intros ->. apply (Hnin p); [right; by left|done].
  - intros x Hx. by apply Hbelow.
Qed.
End memory.
