(* ===== verification/Mainthm.v ===== *)
(** * The machine after [main]

    The calls of src/main.c put together: what each component has been given
    when the boot processor enters [scheduler]. *)

From Stdlib Require Import ZArith Lia String.
From stdpp Require Import prelude numbers strings option gmap list.
From S2P Require Import Prelude Kernel Mem Mp Gates Kalloc Spinlock Sched Mailbox Sleeplock Pipe Bio Log Vm Vmspace Vmops Vmkern Vmcopy Console Apic Kst Inode Device Line Fs File Proc Forkthm Main Mainmem.

(** ** Steps *)

Section steps.
Context {D : Type} `{!Ports D, !Chips D}.

(** The machine [s] with another kernel state, [started] flags, chips and tables. *)
Definition as_ (s : machine D) (k : kst) (st : list Z) (ch : D) (t : tables) : machine D :=
  mkMachine k (m_cpus s) (m_ncpu s) (m_ioapicid s) (m_lapic s) (m_imcr_sel s) (m_imcr s) st ch (m_cpu s) t.

Context (s : machine D) (st : list Z).

Lemma lift_k {A} (c : K kst A) a k k' ch t h h' : c h k = Ret a h' k' -> (lift c : K (machine D) A) h (as_ s k st ch t) = Ret a h' (as_ s k' st ch t).
Proof. intros R. unfold lift. cbn [get_part Has_m_k m_k as_]. by rewrite R. Qed.

Lemma lift_first {A} (c : K kst A) a k' h h' : c h (m_k s) = Ret a h' k' -> (lift c : K (machine D) A) h s = Ret a h' (as_ s k' (m_started s) (m_chip s) (m_tab s)).
Proof. intros R. unfold lift. cbn [get_part Has_m_k]. by rewrite R. Qed.

Lemma lift_mem {A} (c : K kmstate A) a k m ch t h h' : c h (k_mem k) = Ret a h' m -> (lift (lift c : K kst A) : K (machine D) A) h (as_ s k st ch t) = Ret a h' (as_ s (set_k_mem m k) st ch t).
Proof. intros R. apply lift_k. unfold lift. cbn [get_part Has_k_mem]. by rewrite R. Qed.

Lemma lift_tab {A} (c : K tables A) a k ch t t' h h' : c h t = Ret a h' t' -> (lift c : K (machine D) A) h (as_ s k st ch t) = Ret a h' (as_ s k st ch t').
Proof. intros R. unfold lift. cbn [get_part Has_m_tab m_tab as_]. by rewrite R. Qed.

(** The part of the machine the drivers of Apic see. *)
Definition hw_of (k : kst) (ch : D) : hw D :=
  mkHw ch (mkMpst (phys (k_mem k)) (m_cpus s) (m_ncpu s) (m_ioapicid s) (m_lapic s) (m_imcr_sel s) (m_imcr s)) (k_cons k).

Lemma lift_hw {A} (c : K (hw D) A) a k ch ch' m' con' t h h' :
  c h (hw_of k ch) = Ret a h' (mkHw ch' (set_mp_mem m' (mpv (hw_of k ch))) con') ->
  (lift c : K (machine D) A) h (as_ s k st ch t) = Ret a h' (as_ s (set_k_cons con' (set_k_mem (set_phys m' (k_mem k)) k)) st ch' t).
Proof. intros R. unfold lift. change (get_part (as_ s k st ch t)) with (hw_of k ch). by rewrite R. Qed.

Lemma lift_chip {A} (c : K (hw D) A) a k ch ch' t h h' :
  c h (hw_of k ch) = Ret a h' (set_chip ch' (hw_of k ch)) -> (lift c : K (machine D) A) h (as_ s k st ch t) = Ret a h' (as_ s k st ch' t).
Proof.
  intros R. rewrite (lift_hw c a k ch ch' (phys (k_mem k)) (k_cons k) t h h'); [|exact R]. by destruct k as [? [] ? ? ? ? ? ? ? ?].
Qed.

(** This CPU is number [me]: its local APIC is mapped, it is in the table, and
    interrupts are off. *)
Record boots (me : nat) : Prop := {
  bo_lapic : m_lapic s <> 0;
  bo_me : find_cpu (take (Z.to_nat (m_ncpu s)) (m_cpus s)) (@cpu_id D _ _) 0 = Some me;
  bo_cli : Z.land (Spinlock.eflags (m_cpu s)) Spinlock.FL_IF = 0 }.

Lemma thiscpu_run me k ch t h : boots me -> exists ch', thiscpu h (as_ s k st ch t) = Ret me h (as_ s k st ch' t) /\ quiet ch ch'.
Proof.
  intros [H1 H2 H3]. unfold thiscpu. rewrite bind_unfold. change ((lift readeflags : K (machine D) Z) h (as_ s k st ch t)) with (Ret (Spinlock.eflags (m_cpu s)) h (as_ s k st ch t)).
  cbv beta iota. rewrite H3. cbn [Z.eqb negb]. rewrite bind_unfold. destruct (lapicid_run h (hw_of k ch) H1) as (ch' & R & Q). cbn [chip hw_of] in Q.
  rewrite (lift_chip _ _ _ _ _ _ _ _ R). repeat kstep_base. exists ch'. split; [|done]. cbn [m_ncpu m_cpus as_]. by rewrite H2.
Qed.

Lemma store_word_run a v k ch t h : store_word a v h (as_ s k st ch t) = Ret tt h (as_ s (set_k_mem (set_phys (store32 (phys (k_mem k)) a v) (k_mem k)) k) st ch t).
Proof. done. Qed.
End steps.

(** ** startothers *)

(** The messages that start the processor with local APIC [a] at 0x7000. *)
Definition startup (a : Z) : list (Z * Z) :=
  (Z.shiftl a 24,.) <$> [Z.lor (Z.lor INIT LEVEL) ASSERT; Z.lor INIT LEVEL; Z.lor STARTUP 7; Z.lor STARTUP 7].

(** Those for the processors [ids], numbered from [c] on, but [me]. *)
Fixpoint startups (me c : nat) (ids : list Z) : list (Z * Z) :=
  match ids with
  | [] => []
  | a :: ids => (if Nat.eqb c me then [] else startup a) ++ startups me (S c) ids
  end.

(** What the other processors do while this one waits: they may print, and a
    processor that has got the startup message sets its flag in time. *)
Record rises {D : Type} `{!Ports D, !Chips D} (others : machine D -> machine D) (patience : nat) : Prop := {
  ri_keep : forall s, screen_ok (k_cons (m_k s)) -> exists st kc, others s = set_m_started st (set_m_k (set_k_cons kc (m_k s)) s) /\
    length st = length (m_started s) /\ out (k_cons (m_k s)) kc /\ screen_ok kc;
  ri_up : forall s c a, m_cpus s !! c = Some a -> (c < length (m_started s))%nat -> (Z.shiftl a 24, Z.lor STARTUP 7) ∈ messages (m_chip s) ->
    exists n, (n < patience)%nat /\ nth c (m_started (Nat.iter n others s)) 0 <> 0 }.

(** The words that the loop of [startothers] writes. *)
Definition low_area (x : Z) : Prop := P2V 0x467 <= x < P2V 0x467 + 4 \/ P2V 0x7000 - 12 <= x < P2V 0x7000.

Section starting.
Context {D : Type} `{!Ports D, !Chips D}.
Context (others : machine D -> machine D) (patience : nat) (Hothers : rises others patience).
Context (end_ mpenter_ entrypgdir_ : Z) (Hend : KERNBASE + 0x110000 <= end_).
Context (s : machine D) (me : nat) (Hboots : boots s me) (t : tables).

Lemma wait_started_run c n : forall fuel k st ch h, (n < fuel)%nat -> nth c (m_started (Nat.iter n others (as_ s k st ch t))) 0 <> 0 -> screen_ok (k_cons k) ->
  exists st' kc, wait_started others fuel c h (as_ s k st ch t) = Ret tt h (as_ s (set_k_cons kc k) st' ch t) /\
    length st' = length st /\ out (k_cons k) kc /\ screen_ok kc.
Proof.
  induction n as [|n IH]; intros fuel k st ch h Hf Hup Hk; (destruct fuel as [|fuel]; [lia|]); cbn [wait_started]; repeat kstep_base; cbn [m_started as_].
  - cbn [Nat.iter nat_rect m_started as_] in Hup. rewrite (proj2 (Z.eqb_neq _ _) Hup). exists st, (k_cons k). split_and!; try done. by rewrite cons_same.
  - destruct (nth c st 0 =? 0); [|exists st, (k_cons k); split_and!; try done; by rewrite cons_same]. repeat kstep_base.
    destruct (ri_keep _ _ Hothers (as_ s k st ch t) Hk) as (st1 & k1 & E & L1 & O1 & S1). rewrite Nat.iter_succ_r in Hup. rewrite E in *.
    destruct (IH fuel (set_k_cons k1 k) st1 ch h) as (st2 & k2 & R & L2 & O2 & S2); [lia|exact Hup|done|].
    exists st2, k2. split_and!; [exact R|by rewrite L2, L1| |done]. etrans; [exact O1|exact O2].
Qed.

(** One round of the loop for another processor. *)
Lemma start_one c a k st ch d pt um p ps hs :
  m_cpus s !! c = Some a -> (c < length st)%nat -> 0 <= a < 256 -> dealt end_ (k_mem k) d pt um (p :: ps) hs MID -> screen_ok (k_cons k) ->
  exists k' st' ch', (stack ← lift (lift kalloc : K kst Z);
      store_word (P2V 0x7000 - 4) (u32 (stack + KSTACKSIZE));;
      store_word (P2V 0x7000 - 8) mpenter_;;
      store_word (P2V 0x7000 - 12) (V2P entrypgdir_);;
      ids ← gets m_cpus;
      lift (lapicstartap (nth c ids 0) (V2P (P2V 0x7000)));;
      wait_started others patience c) [] (as_ s k st ch t) = Ret tt [] (as_ s k' st' ch' t) /\
    (exists m kc, k' = set_k_cons kc (set_k_mem m k) /\ dealt end_ m d pt um ps (p :: hs) MID /\ use_lock m = use_lock (k_mem k) /\
       (forall x, ~ low_area x -> phys m x = phys (k_mem k) x) /\ out (k_cons k) kc /\ screen_ok kc) /\
    length st' = length st /\ messages ch' = messages ch ++ startup a /\ iregs ch' = iregs ch /\ (forall i, i <> ICRHI -> lregs ch' i = lregs ch i).
Proof.
  intros Ha Hc Hab Hd Hk. destruct (take_page _ _ _ _ _ _ _ _ _ Hd) as (m1 & R1 & _ & P1 & U1 & Hd1).
  rewrite bind_unfold, (lift_mem _ _ _ _ _ m1 _ _ _ _ R1).
  do 3 (rewrite bind_unfold, store_word_run; cbv beta iota). set (k4 := set_k_mem _ _). cbn [k_mem set_k_mem set_phys phys use_lock freelist] in k4.
  rewrite bind_unfold, gets_run. cbn [m_cpus as_]. rewrite (nth_lookup_Some _ _ _ _ Ha).
  change (V2P (P2V 0x7000)) with 0x7000. rewrite bind_unfold.
  destruct (lapicstartap_sends a 0x7000 [] (hw_of s k4 ch) Hab ltac:(lia)) as (ch' & m' & R2 & F2 & _ & M2 & I2 & G2 & Hm2). cbn [chip mp_mem mpv hw_of] in *.
  rewrite (lift_hw _ _ _ _ _ _ ch' m' (k_cons k4) _ _ _ R2). set (k5 := set_k_cons _ _).
  change (Z.shiftr 0x7000 12) with 7 in M2. fold (startup a) in M2.
  destruct (ri_up _ _ Hothers (as_ s k5 st ch' t) c a Ha Hc) as (n & Hn & Hup); [change (m_chip _) with ch'; rewrite M2; apply elem_of_app; right; apply list_elem_of_In; right; right; by left|].
  destruct (wait_started_run c n patience k5 st ch' [] Hn Hup Hk) as (st' & kc & R3 & L3 & O3 & S3).
  exists (set_k_cons kc k5), st', ch'. rewrite R3. split; [done|]. split; [|done].
  assert (forall x, ~ low_area x -> m' x = phys m1 x) as Hlow.
  { intros x Hx. unfold low_area in Hx. change (P2V 0x7000) with (KERNBASE + 0x7000) in *. change (P2V 0x467) with (KERNBASE + 0x467) in *.
    rewrite F2 by (unfold KERNBASE in *; lia). unfold k4. cbn [k_mem set_k_mem phys set_phys]. unfold store32. rewrite !store_bytes_out; [done|rewrite le32_length; unfold KERNBASE in *; lia..]. }
  exists (set_phys m' m1), kc. split_and!; [done| |done| |done|done].
  - apply dealt_low; [done| |].
    + apply Hm2. unfold k4. cbn [k_mem set_k_mem phys set_phys]. do 3 apply store32_ok. rewrite P1. apply (so_km _ _ _ _ _ _ (de_space _ _ _ _ _ _ _ _ Hd)).
    + intros x Hx. apply Hlow. unfold low_area. change (P2V 0x7000) with (KERNBASE + 0x7000). change (P2V 0x467) with (KERNBASE + 0x467). lia.
  - intros x Hx. cbn [phys set_phys]. rewrite <- P1. by apply Hlow.
Qed.

(** The state after some processors have been started, with the stacks [stk]. *)
Record aps_started (k : kst) (st : list Z) (ch : D) (d : Z) (pt um : gmap Z Z) (hs : list Z) (msgs : list (Z * Z)) (k' : kst) (st' : list Z) (ch' : D) (ps' stk : list Z) : Prop := {
  sd_kernel : exists m kc, k' = set_k_cons kc (set_k_mem m k) /\ dealt end_ m d pt um ps' (stk ++ hs) MID /\ use_lock m = use_lock (k_mem k) /\
    (forall x, ~ low_area x -> phys m x = phys (k_mem k) x) /\ out (k_cons k) kc /\ screen_ok kc;
  sd_flags : length st' = length st;
  sd_messages : messages ch' = messages ch ++ msgs;
  sd_stacks : (4 * length stk = length msgs)%nat;
  sd_iregs : iregs ch' = iregs ch;
  sd_lregs : forall i, i <> ICRHI -> lregs ch' i = lregs ch i }.

Lemma aps_quiet k st ch ch1 d pt um hs msgs k' st' ch' ps' stk :
  quiet ch ch1 -> aps_started k st ch1 d pt um hs msgs k' st' ch' ps' stk -> aps_started k st ch d pt um hs msgs k' st' ch' ps' stk.
Proof. intros [Q1 Q2 Q3] [H1 H2 H3 H4 H5 H6]. split; try done; [by rewrite <- Q2|by rewrite <- Q3|intros i Hi; by rewrite <- Q1, H6]. Qed.

Lemma startothers_loop_run l : forall c k st ch d pt um ps hs,
  (forall i a, l !! i = Some a -> m_cpus s !! (c + i)%nat = Some a /\ 0 <= a < 256) -> (c + length l <= length st)%nat ->
  dealt end_ (k_mem k) d pt um ps hs MID -> (length l <= length ps)%nat -> screen_ok (k_cons k) ->
  exists k' st' ch' ps' stk, startothers_loop mpenter_ entrypgdir_ others patience (length l) c [] (as_ s k st ch t) = Ret tt [] (as_ s k' st' ch' t) /\
    aps_started k st ch d pt um hs (startups me c l) k' st' ch' ps' stk.
Proof.
  induction l as [|a l IH]; intros c k st ch d pt um ps hs Hl Hc Hd Hn Hk; cbn [length startothers_loop startups]; cbn [length] in Hc.
  { exists k, st, ch, ps, []. split; [done|]. split; try done; [|by rewrite app_nil_r]. exists (k_mem k), (k_cons k). split_and!; try done. by destruct k. }
  assert (forall i b, l !! i = Some b -> m_cpus s !! (S c + i)%nat = Some b /\ 0 <= b < 256) as Hl'.
  { intros i b Hb. rewrite Nat.add_succ_l, <- Nat.add_succ_r. by apply (Hl (S i)). }
  rewrite bind_unfold. destruct (thiscpu_run s st me k ch t [] Hboots) as (ch1 & -> & Q1). destruct (Nat.eqb c me).
  - rewrite bind_unfold, mret_run. destruct (IH (S c) k st ch1 d pt um ps hs Hl' ltac:(lia) Hd ltac:(cbn in Hn; lia) Hk) as (k' & st' & ch' & ps' & stk & R & H).
    exists k', st', ch', ps', stk. split; [exact R|]. by eapply aps_quiet.
  - destruct ps as [|p ps]; [cbn in Hn; lia|]. destruct (Hl 0%nat a eq_refl) as [Ha Hab]. rewrite Nat.add_0_r in Ha.
    destruct (start_one c a k st ch1 d pt um p ps hs Ha ltac:(lia) Hab Hd Hk) as (k2 & st2 & ch2 & R2 & (m2 & kc2 & -> & Hd2 & U2 & F2 & O2 & S2) & L2 & M2 & I2 & G2).
    cbv zeta. rewrite bind_unfold, R2.
    destruct (IH (S c) (set_k_cons kc2 (set_k_mem m2 k)) st2 ch2 d pt um ps (p :: hs) Hl' ltac:(lia) Hd2 ltac:(cbn in Hn; lia) S2)
      as (k' & st' & ch' & ps' & stk & R & [(m3 & kc3 & -> & Hd3 & U3 & F3 & O3 & S3) L3 M3 C3 I3 G3]).
    exists (set_k_cons kc3 (set_k_mem m3 (set_k_cons kc2 (set_k_mem m2 k)))), st', ch', ps', (stk ++ [p]). split; [exact R|]. apply (aps_quiet _ _ _ _ _ _ _ _ _ _ _ _ _ _ Q1). split.
    + exists m3, kc3. rewrite <- app_assoc. split_and!; try done; [by rewrite U3|intros x Hx; by rewrite F3, F2|]. etrans; [exact O2|exact O3].
    + congruence.
    + by rewrite M3, M2, <- app_assoc.
    + rewrite length_app, (length_app (startup a)). cbn [length startup fmap list_fmap]. lia.
    + congruence.
    + intros i Hi. by rewrite G3, G2.
Qed.

Lemma startothers_run other_start other_size k st ch d pt um ps hs :
  let ids := take (Z.to_nat (m_ncpu s)) (m_cpus s) in
  let m1 := set_phys (memmove (phys (k_mem k)) (P2V 0x7000) other_start other_size) (k_mem k) in
  length ids = Z.to_nat (m_ncpu s) -> (length ids <= length st)%nat -> Forall (fun a => 0 <= a < 256) ids ->
  dealt end_ (k_mem k) d pt um ps hs MID -> (length ids <= length ps)%nat -> screen_ok (k_cons k) -> 0 <= other_size <= 0x1000 ->
  exists k' st' ch' ps' stk, startothers mpenter_ entrypgdir_ other_start other_size others patience [] (as_ s k st ch t) = Ret tt [] (as_ s k' st' ch' t) /\
    aps_started (set_k_mem m1 k) st ch d pt um hs (startups me 0 ids) k' st' ch' ps' stk.
Proof.
  intros ids m1 Hlen Hst Hids Hd Hn Hk Hsz. unfold startothers. rewrite bind_unfold, modify_run. rewrite bind_unfold, gets_run.
  change (set_m_mem _ _) with (as_ s (set_k_mem m1 k) st ch t). cbn [m_ncpu as_]. rewrite <- Hlen.
  assert (mem_ok (phys (k_mem k))) as Hm by apply (so_km _ _ _ _ _ _ (de_space _ _ _ _ _ _ _ _ Hd)).
  apply (startothers_loop_run ids 0 (set_k_mem m1 k) st ch d pt um ps hs); try done.
  - intros i a Hi. split; [|by eapply (proj1 (Forall_lookup _ _) Hids)]. by apply lookup_take_Some in Hi as [? _].
  - apply dealt_low; [done|apply memmove_ok; [done|lia]|]. intros x Hx. rewrite memmove_at by (done || lia). change (P2V 0x7000) with (KERNBASE + 0x7000). rewrite decide_False; [done|lia].
Qed.
End starting.

(** ** The devices *)

(** The local APIC as [lapicinit] leaves it. *)
Definition lapic_on {D : Type} `{!Ports D, !Chips D} (d : D) : Prop :=
  lregs d SVR = Z.lor ENABLE 63 /\ lregs d TDCR = X1 /\ lregs d TIMER = Z.lor PERIODIC 32 /\ lregs d TICR = 10000000 /\
  lregs d LINT0 = MASKED /\ lregs d LINT1 = MASKED /\ lregs d ERROR = 51 /\ lregs d TPR = 0.

(** The console after its initialisation, with or without a serial port. *)
Definition console_on (c c' : console) : Prop :=
  c' = set_locking 1 c \/ c' = set_serial (serial c ++ str "xv6..." ++ [10]) (set_uart 1 (set_locking 1 c)).

(** The kernel's variables after [consoleinit], [uartinit], [binit], [ideinit] and
    [mailboxinit]. *)
Definition kernel_on (fs_img : Z -> block) (fs_size : Z) (c : console) (k : kst) : kst :=
  set_k_mail ((fun mb => mkMailbox (msg mb) 0 0) <$> k_mail k)
    (set_k_lst (mkLst (llog (k_lst k)) (ideinit fs_img fs_size (binit (lbio (k_lst k)))))
      (set_k_cons c (set_k_devsw (<[Z.to_nat CONSOLE := Some ConsoleDriver]> (k_devsw k)) k))).

(** The I/O APIC delivers the interrupts of the keyboard and of the serial port,
    if there is one, to CPU 0, and no other. *)
Definition interrupts_on {D : Type} `{!Ports D, !Chips D} (last : Z) (c : console) (d : D) : Prop :=
  entry_routed d IRQ_KBD 0 /\ (uart c <> 0 -> entry_routed d IRQ_COM1 0) /\
  forall i, 0 <= i <= last -> i <> IRQ_KBD -> i <> IRQ_COM1 \/ uart c = 0 -> entry_masked d i.

Section devices.
Context {D : Type} `{!Ports D, !Chips D} (s : machine D) (me : nat) (Hboots : boots s me).
Context (gdt_ : nat -> Z) (vectors : Z -> Z) (fs_img : Z -> block) (fs_size : Z).

Lemma bcache_run f k st ch t h : bcache f h (as_ s k st ch t) = Ret tt h (as_ s (set_k_lst (mkLst (llog (k_lst k)) (f (lbio (k_lst k)))) k) st ch t).
Proof. done. Qed.

Lemma mailboxinit_run k st ch t h :
  (lift (lift (modify mailboxinit) : K kst unit) : K (machine D) unit) h (as_ s k st ch t) =
  Ret tt h (as_ s (set_k_mail ((fun mb => mkMailbox (msg mb) 0 0) <$> k_mail k) k) st ch t).
Proof. apply lift_k. unfold lift. rewrite modify_run. cbn -[put_part]. by destruct k as [[? []] ? ? ? ? ? ? ? ? ?]. Qed.

(** From [lapicinit] to [seginit]. *)
Lemma apic_run {A} (rest : K (machine D) A) k st ch t h : length (gdt t) = NSEGS ->
  exists ch' t', (lift lapicinit;; seginit_ gdt_;; rest) h (as_ s k st ch t) = rest h (as_ s k st ch' t') /\
    seginit (gdt_ me) h t = Ret tt h t' /\ idt t' = idt t /\ lapic_on ch' /\ messages ch' = messages ch ++ [(0, Z.lor (Z.lor BCAST INIT) LEVEL)] /\ iregs ch' = iregs ch.
Proof.
  intros Hg. rewrite bind_unfold. destruct (lapicinit_configures h (hw_of s k ch) (bo_lapic _ _ Hboots)) as (ch1 & R1 & C1 & C2 & C3 & C4 & C5 & C6 & C7 & C8 & M1 & I1).
  cbn [chip hw_of] in *. rewrite (lift_chip _ _ _ _ _ _ _ _ _ _ R1). unfold seginit_. rewrite bind_unfold, bind_unfold.
  destruct (thiscpu_run s st me k ch1 t h Hboots) as (ch2 & -> & [Q1 Q2 Q3]). destruct (seginit_run (gdt_ me) h t Hg) as (t' & R3 & E3 & _).
  rewrite (lift_tab _ _ _ _ _ _ _ _ _ _ R3). exists ch2, t'. split; [done|]. split; [done|]. split; [by rewrite E3|]. unfold lapic_on. rewrite Q1, Q2, Q3. by split_and!.
Qed.

(** From [picinit] to [uartinit]. *)
Lemma irq_run {A} (rest : K (machine D) A) k st ch t h : Z.shiftr (iregs ch REG_ID) 24 = m_ioapicid s ->
  exists ch' c, (lift picinit;; lift ioapicinit;; consoleinit_;; lift uartinit;; rest) h (as_ s k st ch t) =
      rest h (as_ s (set_k_cons c (set_k_devsw (<[Z.to_nat CONSOLE := Some ConsoleDriver]> (k_devsw k)) k)) st ch' t) /\
    console_on (k_cons k) c /\ (uart (k_cons k) = 0 -> interrupts_on (last_entry ch) c ch') /\ lregs ch' = lregs ch /\ messages ch' = messages ch.
Proof.
  intros Hid. rewrite bind_unfold. destruct (picinit_run h (hw_of s k ch)) as (ch1 & R1 & [Q1 Q2 Q3]). cbn [chip hw_of] in *. rewrite (lift_chip _ _ _ _ _ _ _ _ _ _ R1).
  rewrite bind_unfold. destruct (ioapicinit_run h (hw_of s k ch1)) as (ch2 & R2 & M2 & L2 & N2); [cbn; by rewrite Q3|]. cbn [chip hw_of] in *. rewrite (lift_chip _ _ _ _ _ _ _ _ _ _ R2).
  unfold consoleinit_. rewrite bind_unfold, bind_unfold. set (k3 := set_k_cons (set_locking 1 (k_cons k)) (set_k_devsw (<[Z.to_nat CONSOLE := Some ConsoleDriver]> (k_devsw k)) k)).
  rewrite (lift_k _ _ consoleinit tt k k3 _ _ _ h) by done.
  destruct (ioapicenable_run IRQ_KBD 0 h (hw_of s k3 ch2)) as (ch3 & R3 & E3 & F3 & L3 & N3); [done|done|]. cbn [chip hw_of] in *. rewrite (lift_chip _ _ _ _ _ _ _ _ _ _ R3). rewrite bind_unfold.
  destruct (uartinit_run h (hw_of s k3 ch3)) as (ch4 & c & R4 & L4 & N4 & Hc). cbn [chip con hw_of] in *.
  rewrite (lift_hw s st _ _ k3 ch3 ch4 (phys (k_mem k3)) c t h h) by exact R4.
  exists ch4, c. split_and!; [by destruct k as [? [] ? ? ? ? ? ? ? ?]| | |congruence|congruence].
  - destruct Hc as [[-> _]|[-> _]]; [by left|by right].
  - intros Hu. replace (last_entry ch1) with (last_entry ch) in M2 by (unfold last_entry; by rewrite Q3).
    assert (forall i, 0 <= i <= last_entry ch -> i <> IRQ_KBD -> entry_masked ch3 i) as M3 by (intros i Hi Hk; by apply F3, M2).
    unfold interrupts_on. destruct Hc as [[-> Hi]|(-> & E4 & F4)].
    + unfold entry_masked, entry_routed, entry_is in *. rewrite Hi. split; [done|]. split; [by intros []|]. intros i Hr Hk _. by apply M3.
    + split_and!; [by apply F4|done|]. intros i Hi Hk [Hne|?]; [|done]. by apply F4, M3.
Qed.

Lemma devices_run {A} (rest : K (machine D) A) k st ch t h : Z.shiftr (iregs ch REG_ID) 24 = m_ioapicid s -> length (gdt t) = NSEGS -> length (idt t) = 256%nat ->
  exists ch' t' c, (lift lapicinit;; seginit_ gdt_;; lift picinit;; lift ioapicinit;; consoleinit_;; lift uartinit;; lift (tvinit vectors);;
      bcache binit;; bcache (ideinit fs_img fs_size);; lift (lift (modify mailboxinit) : K kst unit);; rest) h (as_ s k st ch t) =
      rest h (as_ s (kernel_on fs_img fs_size c k) st ch' t') /\
    (seginit (gdt_ me);; tvinit vectors) h t = Ret tt h t' /\ console_on (k_cons k) c /\ lapic_on ch' /\
    messages ch' = messages ch ++ [(0, Z.lor (Z.lor BCAST INIT) LEVEL)] /\ (uart (k_cons k) = 0 -> interrupts_on (last_entry ch) c ch').
Proof.
  intros Hid Hg Hi. destruct (apic_run (lift picinit;; lift ioapicinit;; consoleinit_;; lift uartinit;; lift (tvinit vectors);;
      bcache binit;; bcache (ideinit fs_img fs_size);; lift (lift (modify mailboxinit) : K kst unit);; rest) k st ch t h Hg) as (ch1 & t1 & -> & G1 & I1 & C1 & M1 & E1).
  destruct (irq_run (lift (tvinit vectors);; bcache binit;; bcache (ideinit fs_img fs_size);; lift (lift (modify mailboxinit) : K kst unit);; rest) k st ch1 t1 h)
    as (ch2 & c & -> & Hc & Hint & L2 & M2); [by rewrite E1|].
  destruct (tvinit_loop_run vectors 256 0 h t1) as (t2 & R2 & _); [rewrite I1, Hi; lia|].
  assert (exists t3, tvinit vectors h t1 = Ret tt h t3) as [t3 R3] by (unfold tvinit; rewrite bind_unfold, R2; eexists; reflexivity).
  rewrite bind_unfold, (lift_tab _ _ _ _ _ _ _ _ _ _ R3). do 2 rewrite bind_unfold, bcache_run. rewrite bind_unfold, mailboxinit_run.
  exists ch2, t3, c. split; [done|]. split; [by rewrite bind_unfold, G1|]. split; [done|]. unfold lapic_on in *. rewrite L2, M2. split; [done|]. split; [done|].
  intros Hu. replace (last_entry ch) with (last_entry ch1) by (unfold last_entry; by rewrite E1). by apply Hint.
Qed.
End devices.

(** ** The kernel's variables *)

Section kernel.
Context (end_ data_ forkret_ trapret_ : Z).
Implicit Types k : kst.

Lemma kvmalloc_run k t m ft ic d m' : setupkvm end_ data_ [] m = Ret d [] m' ->
  kvmalloc end_ data_ [] (with_ k t m ft ic) = Ret tt [] (with_ k (set_cr3 (V2P d) (set_kpgdir d t)) m' ft ic).
Proof.
  intros R. unfold kvmalloc. rewrite bind_unfold, (with_lift _ _ _ _ _ _ d m' []) by done.
  rewrite bind_unfold. unfold modp. rewrite modify_run, with_table, with_put. unfold switchkvm. rewrite bind_unfold, getp_with.
  unfold modp. rewrite modify_run, with_table, with_put. done.
Qed.

(** The root directory's inode, not read yet. *)
Definition root_inode : inode := set_i_valid 0 (set_i_ref 1 (set_i_id ROOTDEV ROOTINO inode0)).

Lemma namei_root k t m ft h : LIcache ∉ h ->
  namei [SLASH] h (with_ k t m ft (replicate NINODE inode0)) = Ret (Some 0%nat) h (with_ k t m ft (<[0%nat := root_inode]> (replicate NINODE inode0))).
Proof.
  intros Hh. unfold namei, namex. rewrite bind_unfold, bind_unfold. rewrite bool_decide_eq_true_2 by done.
  unfold iget. rewrite bind_unfold, acquire_free by done. rewrite bind_unfold, gets_run.
  change (k_icache (with_ k t m ft (replicate NINODE inode0))) with (replicate NINODE inode0).
  change (iget_scan (replicate NINODE inode0) 0 ROOTDEV ROOTINO None) with (@None nat, Some 0%nat). unfold mod_ip. repeat kstep_base.
  change (namex_loop (length [SLASH]) 0%nat [SLASH] false (replicate (Z.to_nat DIRSIZ) 0)) with (mret (Some 0%nat, replicate (Z.to_nat DIRSIZ) 0) : K kst _). repeat kstep_base.
  done.
Qed.

(** The first process. *)
Definition init_proc (kst_ r : Z) : proc :=
  set_state RUNNABLE (set_cwd (Some 0%nat) (set_name (splice 0 (safestrcpy (bytes_ptr (str "initcode")) 16) (name proc0))
    (set_tf user_tf (set_sz PGSIZE (set_pgdir r (set_ctx (mkCtx 0 0 0 0 forkret_) (embryo 1 kst_ proc0))))))).

Lemma userinit_run k t m ft q1 m1 r m2 m' init n :
  procs t = replicate NPROC proc0 -> nextpid t = 1 -> kalloc [] m = Ret q1 [] m1 -> q1 <> 0 ->
  setupkvm end_ data_ [] (stacked trapret_ q1 m1) = Ret r [] m2 -> r <> 0 -> inituvm r init n [] m2 = Ret tt [] m' ->
  userinit end_ data_ forkret_ trapret_ init n [] (with_ k t m ft (replicate NINODE inode0)) =
  Ret tt [] (with_ k (slot_at (set_initproc (Some 0%nat) t) 2 0 (init_proc q1 r)) m' ft (<[0%nat := root_inode]> (replicate NINODE inode0))).
Proof.
  intros Hp Hn R1 Hq R2 Hr R3. unfold userinit. rewrite bind_unfold.
  pose proof (allocproc_run forkret_ trapret_ k t m ft (replicate NINODE inode0)) as A. rewrite Hp in A.
  change (list_find (fun p => state p = UNUSED) (replicate NPROC proc0)) with (Some (0%nat, proc0)) in A. rewrite (A q1 m1 R1), (proj2 (Z.eqb_neq _ _) Hq). fold (stacked trapret_ q1 m1).
  rewrite Hn. change (s32 (1 + 1)) with 2. rewrite bind_unfold. unfold modp at 1. rewrite modify_run, with_table, with_put.
  set (t1 := set_initproc (Some 0%nat) t). change (set_initproc (Some 0%nat) (slot_at t 2 0 ?q)) with (slot_at t1 2 0 q).
  assert (0 < length (procs t1))%nat as Hl by (change (procs t1) with (procs t); rewrite Hp, length_replicate; unfold NPROC; lia).
  rewrite bind_unfold, (with_lift _ _ _ _ _ _ r m2) by done. rewrite bind_unfold, modproc_slot by done. rewrite (proj2 (Z.eqb_neq _ _) Hr).
  rewrite bind_unfold, (with_lift _ _ _ _ _ _ tt m') by done. do 3 (rewrite bind_unfold, modproc_slot by done).
  rewrite bind_unfold, namei_root by not_held. rewrite bind_unfold, modproc_slot by done. rewrite bind_unfold, acquire_free by not_held.
  rewrite bind_unfold, modproc_slot by done. by rewrite release_top by not_held.
Qed.
End kernel.

(** ** What the machine starts from *)

Section boot.
Context {D : Type} `{!Ports D, !Chips D}.
Context (end_ data_ forkret_ trapret_ mpenter_ entrypgdir_ idt_ : Z) (gdt_ : nat -> Z) (vectors : Z -> Z).
Context (init_start init_size other_start other_size : Z) (fs_img : Z -> block) (fs_size : Z).
Context (others : machine D -> machine D) (patience : nat).

(** The kernel as the linker and the boot loader leave it: its data follow its
    code, both images are inside it, and it leaves 522 pages below 4 megabytes. *)
Record linked : Prop := {
  li_end : KERNBASE + 0x110000 <= end_;
  li_room : end_ + 522 * PGSIZE <= MID;
  li_data : KERNLINK < data_ < end_;
  li_align : data_ mod PGSIZE = 0;
  li_init : KERNLINK <= init_start /\ 0 <= init_size < PGSIZE /\ init_start + init_size <= end_;
  li_other : KERNLINK <= other_start /\ 0 <= other_size <= 0x1000 /\ other_start + other_size <= end_ }.

(** The variables are zero, a screen is there, and interrupts are off. *)
Record powered (s : machine D) : Prop := {
  po_mem : mem_ok (m_mem s);
  po_free : freelist (k_mem (m_k s)) = 0;
  po_procs : ptab (m_k s) = pstate0;
  po_icache : k_icache (m_k s) = replicate NINODE inode0;
  po_screen : screen_ok (k_cons (m_k s));
  po_uart : uart (k_cons (m_k s)) = 0;
  po_cpus : m_cpus s = replicate 8 0;
  po_ncpu : m_ncpu s = 0;
  po_started : m_started s = replicate 8 0;
  po_cli : Z.land (Spinlock.eflags (m_cpu s)) Spinlock.FL_IF = 0;
  po_gdt : length (gdt (m_tab s)) = NSEGS;
  po_idt : length (idt (m_tab s)) = 256%nat }.

(** The entries of the firmware's table give the variables [v] of mp.c; the
    table lies below the end of the kernel, this processor is number [me] of
    it, and the I/O APIC is the one it names. *)
Record firmware (s : machine D) (ver lap : Z) (es : list mpentry) (v : mpst) (me : nat) : Prop := {
  fw_vars : v = foldl add_entry (set_lapic lap (m_vars s)) es;
  fw_ebda : 0 < ebda (m_mem s) < 2 ^ 16;
  fw_mp : mpsearch (m_mem s) <> 0;
  fw_addr : load32 (m_mem s) (mpsearch (m_mem s) + 4) <> 0;
  fw_table : let conf := P2V (load32 (m_mem s) (mpsearch (m_mem s) + 4)) in let body := concat (entry_bytes <$> es) in
    good_table (m_mem s) conf ver lap body /\ conf + 44 + Z.of_nat (length body) <= end_;
  fw_known : Forall entry_ok es;
  fw_ids : Forall (fun e => match e with Mp.Proc a _ => 0 <= a < 256 | _ => True end) es;
  fw_lapic : lap <> 0;
  fw_me : find_cpu (take (Z.to_nat (ncpu v)) (cpus v)) (@cpu_id D _ _) 0 = Some me;
  fw_ioapic : Z.shiftr (iregs (m_chip s) REG_ID) 24 = ioapicid v }.

(** The machine with the variables [v] of mp.c. *)
Definition found (s : machine D) (v : mpst) (sel im : Z) : machine D :=
  mkMachine (m_k s) (cpus v) (ncpu v) (ioapicid v) (lapic v) sel im (m_started s) (m_chip s) (m_cpu s) (m_tab s).

Lemma add_entry_frame m v e : add_entry (set_mp_mem m v) e = set_mp_mem m (add_entry v e).
Proof. destruct e; cbn; [|done..]. by destruct (ncpu v <? NCPU). Qed.

Lemma add_entries_frame m es : forall v, foldl add_entry (set_mp_mem m v) es = set_mp_mem m (foldl add_entry v es).
Proof. induction es as [|e es IH]; intros v; [done|]. cbn. by rewrite add_entry_frame, IH. Qed.

Lemma add_entries_ok es : forall v, Forall (fun e => match e with Mp.Proc a _ => 0 <= a < 256 | _ => True end) es ->
  length (cpus v) = 8%nat -> 0 <= ncpu v <= 8 -> Forall (fun a => 0 <= a < 256) (cpus v) ->
  let v' := foldl add_entry v es in length (cpus v') = 8%nat /\ 0 <= ncpu v' <= 8 /\ Forall (fun a => 0 <= a < 256) (cpus v') /\ lapic v' = lapic v.
Proof.
  induction es as [|e es IH]; intros v He Hl Hn Hb; [done|]. apply Forall_cons in He as [He Hes]. cbn zeta. cbn [foldl].
  assert (length (cpus (add_entry v e)) = 8%nat /\ 0 <= ncpu (add_entry v e) <= 8 /\ Forall (fun a => 0 <= a < 256) (cpus (add_entry v e)) /\ lapic (add_entry v e) = lapic v) as (H1 & H2 & H3 & H4).
  { destruct e as [a r| |]; cbn; [|done..]. destruct (Z.ltb_spec (ncpu v) NCPU); cbn; [|done]. unfold NCPU in *.
    split_and!; [by rewrite length_insert|lia|lia|by apply Forall_insert|done]. }
  rewrite <- H4. by apply IH.
Qed.

(** [mpinit] on a memory that is the same below the end of the kernel. *)
Lemma mpinit_found s ver lap es v me k st ch t :
  firmware s ver lap es v me -> linked -> (forall x, x < end_ -> phys (k_mem k) x = m_mem s x) ->
  exists sel im, (lift (mpinit (Z.to_nat 8192)) : K (machine D) unit) [] (as_ s k st ch t) = Ret tt [] (as_ (found s v sel im) k st ch t).
Proof.
  intros [-> F1 F2 F3 [F4 F5] F6 _ _ _ _] [L1 _ _ _ _ _] Hm. set (v0 := set_mp_mem (phys (k_mem k)) (m_vars s)).
  unfold lift. change (get_part (as_ s k st ch t)) with v0.
  destruct (mpsearch_frame (m_mem s) (phys (k_mem k))) as [E1 B1]; [intros x Hx; apply Hm; lia|done|]. specialize (B1 F2).
  assert (load32 (phys (k_mem k)) (mpsearch (m_mem s) + 4) = load32 (m_mem s) (mpsearch (m_mem s) + 4)) as E2 by (apply load32_ext; intros x Hx; apply Hm; lia).
  assert (forall w, mp_mem w = phys (k_mem k) -> exists sel im, put_part w (as_ s k st ch t) = as_ (found s w sel im) k st ch t) as Hput.
  { intros w Hw. exists (imcr_sel w), (imcr w). destruct w. cbn in Hw. subst. by destruct k as [? [] ? ? ? ? ? ? ? ?]. }
  assert (mpsearch (mp_mem v0) <> 0) as G1 by (change (mp_mem v0) with (phys (k_mem k)); by rewrite E1).
  assert (load32 (mp_mem v0) (mpsearch (mp_mem v0) + 4) <> 0) as G2 by (change (mp_mem v0) with (phys (k_mem k)); by rewrite E1, E2).
  assert (good_table (mp_mem v0) (P2V (load32 (mp_mem v0) (mpsearch (mp_mem v0) + 4))) ver lap (concat (entry_bytes <$> es) ++ [])) as G3.
  { change (mp_mem v0) with (phys (k_mem k)). rewrite E1, E2, app_nil_r. eapply good_table_frame; [exact F4|]. intros x Hx. apply Hm. lia. }
  rewrite (mpinit_run v0 ver lap es [] G1 G2 G3 F6 (Z.to_nat 8192) [] eq_refl (Nat.le_refl _)).
  change (set_lapic lap v0) with (set_mp_mem (phys (k_mem k)) (set_lapic lap (m_vars s))). rewrite add_entries_frame. set (v1 := foldl _ _ es).
  case_match.
  - destruct (Hput (set_mp_mem (phys (k_mem k)) v1)) as (sel & im & ->); [done|]. by exists sel, im.
  - destruct (Hput (set_imcr (Z.lor (imcr v1) 1) (set_imcr_sel 0x70 (set_mp_mem (phys (k_mem k)) v1)))) as (sel & im & E); [done|]. exists sel, im. f_equal. exact E.
Qed.

Lemma early_run {A} (rest : K (machine D) A) s ver lap es v me :
  linked -> powered s -> firmware s ver lap es v me ->
  exists m d pt um ps sel im, (lift (lift (kinit1 end_ end_ (P2V (4 * 1024 * 1024))) : K kst unit);; lift (kvmalloc end_ data_);; lift (mpinit (Z.to_nat 8192));; rest) [] s =
      rest [] (as_ (found s v sel im) (with_ (m_k s) (set_cr3 (V2P d) (set_kpgdir d pstate0)) m (k_ftable (m_k s)) (k_icache (m_k s))) (m_started s) (m_chip s) (m_tab s)) /\
    dealt end_ m d pt um ps [] MID /\ (forall va, va < KERNBASE -> um !! va = None) /\ kernel_mapped data_ um /\ (8 <= length ps)%nat /\
    (forall x, x < end_ -> phys m x = m_mem s x).
Proof.
  intros L P F. pose proof L as [L1 L2 L3 L4 _ _]. pose proof P as [P1 P2 P3 _ _ _ _ _ _ _ _ _].
  assert (KERNBASE < end_ /\ KERNLINK < data_ < KERNBASE + PHYSTOP) as [Hend Hdata] by (split; [lia|]; change (KERNBASE + PHYSTOP) with (MID + 0xDC00000); unfold PGSIZE in L2; lia).
  destruct (early_memory end_ data_ Hend Hdata L4 (k_mem (m_k s)) L2 P1 P2)
    as (m1 & d & m & pt & um & ps & R1 & R2 & _ & _ & Hs & Hlow & Hker & Hp & Hlen & Hm).
  set (k1 := with_ (m_k s) (ptab (m_k s)) m1 (k_ftable (m_k s)) (k_icache (m_k s))).
  assert ((lift (kinit1 end_ end_ MID) : K kst unit) [] (m_k s) = Ret tt [] k1) as R1' by (rewrite <- (with_id (m_k s)) at 1; by apply with_lift).
  change (P2V (4 * 1024 * 1024)) with MID. rewrite bind_unfold, (lift_first s _ tt k1 [] [] R1').
  rewrite bind_unfold, (lift_k _ _ _ tt k1 (with_ (m_k s) (set_cr3 (V2P d) (set_kpgdir d (ptab (m_k s)))) m (k_ftable (m_k s)) (k_icache (m_k s))) _ _ [] []) by (by apply kvmalloc_run).
  rewrite P3. set (k2 := with_ _ _ m _ _). destruct (mpinit_found s ver lap es v me k2 (m_started s) (m_chip s) (m_tab s) F L Hm) as (sel & im & R3).
  exists m, d, pt, um, ps, sel, im. rewrite bind_unfold, R3. split_and!; try done. split; [done|constructor|by intros q ?%not_elem_of_nil|done].
Qed.

(** [mpmain] *)
Lemma mpmain_run s me k st ch t : boots s me -> screen_ok (k_cons k) ->
  exists kc ch' t', mpmain idt_ [] (as_ s k st ch t) = Ret tt [] (as_ s (set_k_cons kc k) (<[me := 1]> st) ch' t') /\
    idtinit idt_ [] t = Ret tt [] t' /\ quiet ch ch' /\ out (k_cons k) kc /\ screen_ok kc.
Proof.
  intros Hb Hk. unfold mpmain. rewrite bind_unfold. destruct (thiscpu_run s st me k ch t [] Hb) as (ch1 & -> & Q1).
  rewrite bind_unfold. destruct (thiscpu_run s st me k ch1 t [] Hb) as (ch2 & -> & Q2).
  assert (prints [] (cprintf ("cpu%d: starting %d" ++ nl) [KInt (Z.of_nat me); KInt (Z.of_nat me)])) as Hpr by (apply prints_cprintf; [not_held|..];
    change (str ("cpu%d: starting %d" ++ nl)) with [99; 112; 117; 37; 100; 58; 32; 115; 116; 97; 114; 116; 105; 110; 103; 32; 37; 100; 10]; cbn [cprintf_loop Z.eqb Pos.eqb negb orb]; auto 60 with prints).
  destruct (Hpr k Hk) as (kc & R & O & S). rewrite bind_unfold, (lift_k _ _ _ _ _ _ _ _ _ _ R).
  rewrite bind_unfold. rewrite (lift_tab s st (idtinit idt_) tt _ _ t _ [] [] eq_refl).
  rewrite bind_unfold. destruct (thiscpu_run s st me (set_k_cons kc k) ch2 (set_idtr (pseudo idt_ (256 * sizeof_gatedesc)) t) [] Hb) as (ch3 & -> & Q3).
  rewrite modify_run. eexists kc, ch3, _. split; [reflexivity|]. split; [done|]. split; [|done]. eapply quiet_trans; [exact Q1|]. eapply quiet_trans; [exact Q2|exact Q3].
Qed.

(** ** What it ends with *)

(** The machine [s'] when [main], started in [s], calls [scheduler].  [v] are the
    variables of mp.c and [me] is this processor; [d] is the kernel's page
    directory with the tables [pt] and the entries [um]; [r], [pt2] and [um2]
    are those of the first process, [w] the entry of its page and [q] its kernel
    stack; [ps] are the free pages and [stk] the stacks of the other processors. *)
Record booted (s s' : machine D) (v : mpst) (me : nat) (d : Z) (pt um : gmap Z Z) (r : Z) (pt2 um2 : gmap Z Z) (w : Z) (ps : list Z) (q : Z) (stk : list Z) : Prop := {
  bt_vars : m_cpus s' = cpus v /\ m_ncpu s' = ncpu v /\ m_ioapicid s' = ioapicid v /\ m_lapic s' = lapic v;
  bt_messages : let sent := startups me 0 (take (Z.to_nat (ncpu v)) (cpus v)) in
    messages (m_chip s') = messages (m_chip s) ++ (0, Z.lor (Z.lor BCAST INIT) LEVEL) :: sent /\ (4 * length stk = length sent)%nat;
  bt_code : forall i, 0 <= i < other_size -> m_mem s' (P2V 0x7000 + i) = m_mem s (other_start + i);
  bt_up : nth me (m_started s') 0 = 1;
  bt_lapic : lapic_on (m_chip s');
  bt_irq : interrupts_on (last_entry (m_chip s)) (k_cons (m_k s')) (m_chip s');
  bt_tables : (seginit (gdt_ me);; tvinit vectors;; idtinit idt_) [] (m_tab s) = Ret tt [] (m_tab s');
  bt_pages : spread end_ (k_mem (m_k s')) d pt um r pt2 um2 ps (q :: stk);
  bt_lock : use_lock (k_mem (m_k s')) = 1;
  bt_kernel : kernel_mapped data_ um /\ forall va, va < KERNBASE -> um !! va = None;
  bt_procs : ptab (m_k s') = slot_at (set_initproc (Some 0%nat) (set_cr3 (V2P d) (set_kpgdir d pstate0))) 2 0 (init_proc forkret_ q r);
  bt_init : first_space data_ (k_mem (m_k s')) r um2 w (fun i => m_mem s (init_start + i)) init_size;
  bt_ret : load32 (m_mem s') (q + KSTACKSIZE - 80) = u32 trapret_;
  bt_root : k_icache (m_k s') = <[0%nat := root_inode]> (replicate NINODE inode0);
  bt_disk : let b := lbio (k_lst (m_k s')) in let b0 := binit (lbio (k_lst (m_k s))) in
    bufs b = bufs b0 /\ bnext b = bnext b0 /\ bprev b = bprev b0 /\ disk b = fs_img /\ disksize b = fs_size / BSIZE;
  bt_mail : k_mail (m_k s') = (fun mb => mkMailbox (msg mb) 0 0) <$> k_mail (m_k s);
  bt_console : screen_ok (k_cons (m_k s')) /\ locking (k_cons (m_k s')) = 1 /\ k_devsw (m_k s') = <[Z.to_nat CONSOLE := Some ConsoleDriver]> (k_devsw (m_k s)) }.

Lemma binit_table b : btable (binit b) = btable b.
Proof.
  unfold binit. assert (forall n i x, btable (binit_loop n i x) = btable x) as E; [|by rewrite E].
  induction n as [|n IH]; intros i x; [done|]. cbn [binit_loop]. by rewrite IH.
Qed.

Lemma table_of ml l b k : ptab (set_k_mail ml (set_k_lst (mkLst l (ideinit fs_img fs_size b)) k)) = btable b.
Proof. done. Qed.

Lemma kernel_on_table c k : ptab (kernel_on fs_img fs_size c k) = ptab k.
Proof. unfold kernel_on. by rewrite table_of, binit_table. Qed.

Lemma find_cpu_bound ids a : forall i j, find_cpu ids a i = Some j -> (i <= j < i + length ids)%nat.
Proof.
  induction ids as [|x ids IH]; intros i j; [done|]. cbn. destruct (x =? a); [intros [= ->]; lia|]. intros H%IH. lia.
Qed.

(** This processor after [mpinit]. *)
Lemma found_boots s ver lap es v me sel im : powered s -> firmware s ver lap es v me ->
  boots (found s v sel im) me /\ length (cpus v) = 8%nat /\ 0 <= ncpu v <= 8 /\ Forall (fun a => 0 <= a < 256) (cpus v) /\ (me < 8)%nat.
Proof.
  intros P F. destruct (add_entries_ok es (set_lapic lap (m_vars s)) (fw_ids _ _ _ _ _ _ F)) as (H1 & H2 & H3 & H4).
  { cbn. by rewrite (po_cpus _ P). } { cbn. rewrite (po_ncpu _ P). lia. } { cbn. rewrite (po_cpus _ P). repeat constructor; lia. }
  rewrite <- (fw_vars _ _ _ _ _ _ F) in *. split_and!; try done; try lia.
  - split; [cbn; rewrite H4; apply (fw_lapic _ _ _ _ _ _ F)|exact (fw_me _ _ _ _ _ _ F)|exact (po_cli _ P)].
  - pose proof (find_cpu_bound _ _ _ _ (fw_me _ _ _ _ _ _ F)) as Hb. rewrite length_take in Hb. lia.
Qed.

(** From [kinit2] to [userinit]. *)
Lemma late_run {A} (rest : K (machine D) A) s k st ch t d pt um ps stk :
  linked -> procs (ptab k) = replicate NPROC proc0 -> nextpid (ptab k) = 1 -> k_icache k = replicate NINODE inode0 -> dealt end_ (k_mem k) d pt um ps stk MID ->
  exists m1 m' r pt2 um2 ps' q w, (lift (lift (kinit2 end_ (P2V (4 * 1024 * 1024)) (P2V PHYSTOP)) : K kst unit);;
      lift (userinit end_ data_ forkret_ trapret_ init_start init_size);; rest) [] (as_ s k st ch t) =
      rest [] (as_ s (with_ (set_k_mem m1 k) (slot_at (set_initproc (Some 0%nat) (ptab k)) 2 0 (init_proc forkret_ q r)) m' (k_ftable k) (<[0%nat := root_inode]> (replicate NINODE inode0))) st ch t) /\
    use_lock m' = 1 /\ spread end_ m' d pt um r pt2 um2 ps' (q :: stk) /\ first_space data_ m' r um2 w (fun i => phys (k_mem k) (init_start + i)) init_size /\
    load32 (phys m') (q + KSTACKSIZE - 80) = u32 trapret_ /\ (forall x, x < end_ -> phys m' x = phys (k_mem k) x).
Proof.
  intros [L1 L2 L3 L4 (L5 & L6 & L7) _] Hp Hn Hi Hd.
  assert (KERNBASE < end_ /\ KERNLINK < data_ < KERNBASE + PHYSTOP) as [Hend Hdata] by (split; [lia|]; change (KERNBASE + PHYSTOP) with (MID + 0xDC00000); unfold PGSIZE in L2; lia).
  change (P2V (4 * 1024 * 1024)) with MID. change (P2V PHYSTOP) with TOP.
  destruct (rest_freed end_ data_ Hdata (k_mem k) d pt um ps stk) as (m1 & ps1 & R1 & U1 & Hd1 & Hl1 & F1); [unfold PGSIZE in L2; lia|done|].
  rewrite bind_unfold, (lift_mem _ _ _ _ _ m1 _ _ _ _ R1). destruct ps1 as [|q ps1]; [cbn in Hl1; lia|].
  destruct (first_process end_ data_ Hend Hdata L4 trapret_ m1 d pt um q ps1 stk init_start init_size Hd1 Hl1 L6 L7)
    as (m2 & r & m3 & m' & pt2 & um2 & ps' & w & R2 & Hq & R3 & Hr & R4 & U4 & Hsp & Hfs & Hret & F4).
  exists m1, m', r, pt2, um2, ps', q, w. rewrite bind_unfold. set (k5 := set_k_mem m1 k).
  assert (userinit end_ data_ forkret_ trapret_ init_start init_size [] k5 =
    Ret tt [] (with_ k5 (slot_at (set_initproc (Some 0%nat) (ptab k)) 2 0 (init_proc forkret_ q r)) m' (k_ftable k) (<[0%nat := root_inode]> (replicate NINODE inode0)))) as R5.
  { rewrite <- (with_id k5) at 1. change (ptab k5) with (ptab k). change (k_mem k5) with m1. change (k_icache k5) with (k_icache k). change (k_ftable k5) with (k_ftable k).
    rewrite Hi. by apply userinit_run with (m1 := m2) (m2 := m3). }
  rewrite (lift_k _ _ _ _ _ _ _ _ _ _ R5). split_and!; try done; [by rewrite U4| |intros x Hx; by rewrite F4, F1].
  destruct Hfs as [? ? ? ? Hb]. split; try done. intros i Hr'. rewrite Hb by done. destruct (decide (i < init_size)); [|done]. apply F1. lia.
Qed.

(** Everything but the pages: what the later steps leave of the devices. *)
Lemma interrupts_frame (last : Z) (c c' : console) (d d' : D) : uart c' = uart c -> iregs d' = iregs d -> interrupts_on last c d -> interrupts_on last c' d'.
Proof. intros Hu Hi. unfold interrupts_on, entry_masked, entry_routed, entry_is. by rewrite Hu, Hi. Qed.

Lemma lapic_frame (d d' : D) : (forall i, i <> ICRHI -> lregs d' i = lregs d i) -> lapic_on d -> lapic_on d'.
Proof. intros H. unfold lapic_on. by rewrite !H. Qed.

Lemma console_on_facts c c' : console_on c c' -> screen_ok c -> screen_ok c' /\ locking c' = 1.
Proof. intros [-> | ->] [H1 H2 H3]; (split; [by split|done]). Qed.

Lemma table_frame c m m1 k : ptab (set_k_cons c (set_k_mem m (set_k_mem m1 k))) = ptab k.
Proof. done. Qed.

(** [binit] does not look at the process table. *)
Definition set_btable (t : pstate) (b : bst) : bst := put_part t b.

Lemma binit_with t b : binit (set_btable t b) = set_btable t (binit b).
Proof.
  unfold binit. assert (forall n i x, binit_loop n i (set_btable t x) = set_btable t (binit_loop n i x)) as E; [|by rewrite <- E].
  induction n as [|n IH]; intros i x; [done|]. cbn [binit_loop]. by rewrite <- IH.
Qed.

Lemma bio_with k t m ft ic : lbio (k_lst (with_ k t m ft ic)) = set_btable t (lbio (k_lst k)).
Proof. done. Qed.

Lemma bio_on c k : lbio (k_lst (kernel_on fs_img fs_size c k)) = ideinit fs_img fs_size (binit (lbio (k_lst k))).
Proof. unfold kernel_on. generalize (binit (lbio (k_lst k))). by intros. Qed.

(** What the words and the code at 0x7000 leave of the kernel's image. *)
Lemma low_kept (m0 m m3 m6 : mem) :
  mem_ok m -> (forall x, x < end_ -> m x = m0 x) -> (forall x, ~ low_area x -> m3 x = memmove m (P2V 0x7000) other_start other_size x) -> (forall x, x < end_ -> m6 x = m3 x) ->
  KERNBASE + 0x110000 <= end_ /\ KERNLINK <= other_start /\ 0 <= other_size <= 0x1000 /\ other_start + other_size <= end_ ->
  (forall x, KERNLINK <= x < end_ -> m6 x = m0 x) /\ (forall i, 0 <= i < other_size -> m6 (P2V 0x7000 + i) = m0 (other_start + i)).
Proof.
  intros Hm H0 H3 H6 (L1 & L2 & L3 & L4). unfold low_area in H3. change (P2V 0x467) with (KERNBASE + 0x467) in H3. change (P2V 0x7000) with (KERNBASE + 0x7000) in *.
  change KERNLINK with (KERNBASE + 0x100000) in *. split.
  - intros x Hx. rewrite H6, H3, memmove_at, decide_False by (done || lia). apply H0. lia.
  - intros i Hi. rewrite H6, H3, memmove_at, decide_True by (done || lia). rewrite H0 by lia. f_equal. lia.
Qed.

(** C9: the kernel boots.  On a machine with a good table of processors, when the
    kernel leaves enough memory below 4 megabytes and the other processors
    answer their startup messages, [main] panics nowhere, waits for nothing for
    ever, and calls [scheduler] with no lock held.  Then every page between the
    kernel and [PHYSTOP] is free, or belongs to the kernel's page table or to the
    first process, or is the stack of one processor, and to one of them only;
    the page register has the kernel's page table, which maps the kernel; the
    process table has one process, runnable, with initcode at address 0 and a
    stack that returns into user mode.  The other processors of the table have
    got their messages, and the code they start with is in place.  Interrupts of
    the keyboard and the serial port are routed to CPU 0 and no others, the
    descriptor tables are loaded, and buffer cache, disk, mailboxes and console
    are initialised. *)
Theorem main_boots s ver lap es v me :
  linked -> powered s -> firmware s ver lap es v me -> rises others patience ->
  exists s' d pt um r pt2 um2 w ps q stk,
    main end_ data_ forkret_ trapret_ mpenter_ entrypgdir_ idt_ gdt_ vectors init_start init_size other_start other_size fs_img fs_size others patience [] s = Ret tt [] s' /\
    booted s s' v me d pt um r pt2 um2 w ps q stk.
Proof.
  intros L P F O. pose proof L as [L1 L2 _ _ (L5 & L6 & L7) (L8 & L9 & L10)].
  unfold main. match goal with |- context [(_;; _;; _;; ?rest) [] s] => destruct (early_run rest s ver lap es v me L P F) as (m & d & pt & um & ps & sel & im & -> & Hd & Hlow & Hker & Hlen & Hm) end.
  destruct (found_boots s ver lap es v me sel im P F) as (Hb & C1 & C2 & C3 & C4). set (s1 := found s v sel im) in *. set (k1 := with_ _ _ m _ _).
  match goal with |- context [(_;; _;; _;; _;; _;; _;; _;; _;; _;; _;; ?rest) [] _] =>
    destruct (devices_run s1 me Hb gdt_ vectors fs_img fs_size rest k1 (m_started s) (m_chip s) (m_tab s) [] (fw_ioapic _ _ _ _ _ _ F) (po_gdt _ P) (po_idt _ P))
      as (ch2 & t2 & c & -> & T2 & Hc & A2 & M2 & I2) end.
  specialize (I2 (po_uart _ P)). destruct (console_on_facts _ _ Hc (po_screen _ P)) as [Hsc Hlk]. set (k2 := kernel_on fs_img fs_size c k1).
  assert (length (take (Z.to_nat (ncpu v)) (cpus v)) = Z.to_nat (ncpu v)) as Hids by (rewrite length_take; lia).
  destruct (startothers_run others patience O end_ mpenter_ entrypgdir_ L1 s1 me Hb t2 other_start other_size k2 (m_started s) ch2 d pt um ps [])
    as (k3 & st3 & ch3 & ps3 & stk & R3 & [(m3 & kc3 & E3 & Hd3 & U3 & F3 & O3 & S3) N3 M3 K3 I3 G3]); [done|cbn; rewrite (po_started _ P), length_replicate; lia|by apply Forall_take|done|cbn; lia|done|done|].
  rewrite bind_unfold, R3. rewrite app_nil_r in Hd3.
  assert (ptab k3 = set_cr3 (V2P d) (set_kpgdir d pstate0)) as T3 by (rewrite E3, table_frame; unfold k2; rewrite kernel_on_table; apply with_table).
  assert (k_icache k3 = replicate NINODE inode0) as J3 by (rewrite E3; exact (po_icache _ P)). 
  assert (k_mem k3 = m3) as Q3 by (by rewrite E3).
  match goal with |- context [(_;; _;; ?rest) [] _] =>
    destruct (late_run rest s1 k3 st3 ch3 t2 d pt um ps3 stk L) as (m5 & m6 & r & pt2 & um2 & ps' & q & w & -> & U6 & Hsp & Hfs & Hret & F6); [by rewrite T3|by rewrite T3|done|by rewrite Q3|] end.
  rewrite T3. set (k6 := with_ (set_k_mem m5 k3) _ m6 _ _).
  destruct (mpmain_run s1 me k6 st3 ch3 t2 Hb) as (kc & ch7 & t7 & -> & T7 & [X1 X2 X3] & O7 & S7); [change (k_cons k6) with (k_cons k3); by rewrite E3|].
  eexists _, d, pt, um, r, pt2, um2, w, ps', q, stk. split; [reflexivity|].
  destruct (low_kept (m_mem s) (phys m) (phys m3) (phys m6)) as [Hmem Hcode]; [apply Hd|done|done|intros x; rewrite <- Q3; apply F6|lia|].
  split; cbn [m_cpus m_ncpu m_ioapicid m_lapic m_k m_started m_chip m_tab as_ m_mem k_mem k_cons set_k_cons].
  - by split_and!.
  - cbv zeta. rewrite X2, M3, M2, <- app_assoc. done.
  - exact Hcode.
  - rewrite nth_lookup, list_lookup_insert_eq; [done|]. rewrite N3, (po_started _ P), length_replicate. done.
  - eapply lapic_frame; [|exact A2]. intros i Hi. by rewrite X1, G3.
  - apply (interrupts_frame _ c _ ch2); [|by rewrite X3, I3|exact I2]. rewrite (ou_uart _ _ O7). change (k_cons k6) with (k_cons k3). rewrite E3. cbn [k_cons set_k_cons]. by rewrite (ou_uart _ _ O3).
  - rewrite bind_unfold in T2. rewrite bind_unfold. destruct (seginit (gdt_ me) [] (m_tab s)) as [? h1 t1| | |]; try done. by rewrite bind_unfold, T2.
  - done.
  - done.
  - done.
  - change (ptab (set_k_cons kc k6)) with (ptab k6). unfold k6. apply with_table.
  - destruct Hfs as [B1 B2 B3 B4 B5]. split; try done. intros i Hi. rewrite B5 by done. destruct (decide (i < init_size)); [|done].
    rewrite <- F6 by lia. apply Hmem; lia.
  - done.
  - done.
  - cbv zeta. change (k_lst (set_k_cons kc k6)) with (k_lst k6). unfold k6. rewrite bio_with. change (k_lst (set_k_mem m5 k3)) with (k_lst k3). rewrite E3.
    change (k_lst (set_k_cons kc3 (set_k_mem m3 (set_k_mem ?x k2)))) with (k_lst k2). unfold k2. rewrite bio_on. unfold k1. rewrite bio_with, binit_with.
    generalize (binit (lbio (k_lst (m_k s)))). by intros b0.
  - change (k_mail (set_k_cons kc k6)) with (k_mail k3). by rewrite E3.
  - split; [done|]. split; [|change (k_devsw (set_k_cons kc k6)) with (k_devsw k3); by rewrite E3].
    rewrite (ou_locking _ _ O7). change (k_cons k6) with (k_cons k3). rewrite E3. cbn [k_cons set_k_cons]. by rewrite (ou_locking _ _ O3).
Qed.
End boot.

(** ** An example: two processors, no serial port *)

(** Chips that do what is written to them; a message is delivered at the second
    read. *)
Record xdev : Type := mkX { x_l : Z -> Z; x_m : list (Z * Z); x_p : nat; x_s : Z; x_i : Z -> Z }.

Definition put_at (f : Z -> Z) (i v : Z) : Z -> Z := fun j => if j =? i then v else f j.

#[local] Instance xports : Ports xdev := {|
  Apic.inb := fun p d => (0xFF, d);
  Apic.outb := fun p v d => d;
  lapic_load := fun i d =>
    if i =? ICRLO then (match x_p d with O => 0 | S _ => DELIVS end, mkX (x_l d) (x_m d) (pred (x_p d)) (x_s d) (x_i d))
    else (if i =? ID then 0 else x_l d i, d);
  lapic_store := fun i v d =>
    if setting i then mkX (put_at (x_l d) i v) (x_m d) (x_p d) (x_s d) (x_i d)
    else if i =? ICRLO then mkX (x_l d) (x_m d ++ [(x_l d ICRHI, v)]) 1 (x_s d) (x_i d) else d;
  ioapic_select := fun r d => mkX (x_l d) (x_m d) (x_p d) r (x_i d);
  ioapic_load := fun d => (x_i d (x_s d), d);
  ioapic_store := fun v d => mkX (x_l d) (x_m d) (x_p d) (x_s d) (put_at (x_i d) (x_s d) v) |}.

#[local, refine] Instance xchips : Chips xdev :=
  {| cpu_id := 0; lregs := x_l; messages := x_m; pending := x_p; Apic.selected := x_s; iregs := x_i |}.
Proof.
  - intros i v d Hi. cbn. rewrite Hi. done.
  - done.
  - intros i v d [-> | ->]; done.
  - intros i d. cbn. destruct (i =? ICRLO); done.
  - intros d. cbn. destruct (x_p d); done.
  - done.
  - done.
  - done.
  - done.
  - done.
  - done.
Defined.

Definition ex_mem : mem := store_bytes mp_memory (P2V 0x40E) [0x00; 0xF0].

Definition ex_boot_kst : kst :=
  mkKst (mkLst log0 (mkBst (replicate NBUF buf0) (replicate (S NBUF) 0%nat) (replicate (S NBUF) 0%nat) (fun _ => []) 0 [] pstate0)) (mkKmstate ex_mem 0 0)
    (mkSb 0 0 0 0 0 0 0) (replicate NINODE inode0) (replicate NFILE file0) (fun _ => mkPipe (replicate 512 0) 0 0 0 0) (replicate 10 None)
    (mkConsole 0 0 (fun _ => 0) 0 0 0 [] [] [] 0 (replicate 128 0) 0 0 0) 0 (replicate 16 mailbox0).

Definition ex_machine : machine xdev :=
  mkMachine ex_boot_kst (replicate 8 0) 0 0 0 0 0 (replicate 8 0)
    (mkX (fun _ => 0) [] 0 0 (fun r => if r =? REG_ID then Z.shiftl 2 24 else if r =? REG_VER then Z.shiftl 23 16 else 0))
    (mkCpu 0 0 0) (mkTables (replicate 6 seg0) 0 0 0 (replicate 256 gate0) [] [] 0).

(** The other processor sets its flag at once. *)
Definition ex_others (s : machine xdev) : machine xdev := set_m_started ((fun _ => 1) <$> m_started s) s.

Lemma ex_rises : rises ex_others 2.
Proof.
  split.
  - intros s Hs. exists ((fun _ => 1) <$> m_started s), (k_cons (m_k s)). split_and!; [|by rewrite length_fmap|done|done].
    unfold ex_others. f_equal. destruct s as [k ? ? ? ? ? ? ? ? ? ?]. unfold set_m_k. cbn. by rewrite cons_same.
  - intros s c a _ Hc _. exists 1%nat. split; [lia|]. cbn [Nat.iter nat_rect ex_others m_started set_m_started].
    rewrite nth_lookup, list_lookup_fmap. destruct (lookup_lt_is_Some_2 _ _ Hc) as [x ->]. done.
Qed.

Lemma ex_powered : powered ex_machine.
Proof.
  split; try done.
  - repeat (apply store_bytes_ok; [|apply (bool_decide_unpack _); vm_compute; reflexivity]). done.
Qed.

Lemma ex_firmware : firmware 0x80120000 ex_machine 4 0xfee00000 mp_entries (foldl add_entry (set_lapic 0xfee00000 (m_vars ex_machine)) mp_entries) 0.
Proof.
  assert (mpsearch ex_mem = P2V 0xF0000) as Hs by (vm_compute; reflexivity).
  assert (load32 ex_mem (P2V 0xF0000 + 4) = 0x1000) as Hl by (vm_compute; reflexivity).
  split.
  - reflexivity.
  - change (m_mem ex_machine) with ex_mem. vm_compute. split; reflexivity.
  - change (m_mem ex_machine) with ex_mem. rewrite Hs. discriminate.
  - change (m_mem ex_machine) with ex_mem. rewrite Hs, Hl. discriminate.
  - change (m_mem ex_machine) with ex_mem. rewrite Hs, Hl. split; [|vm_compute; discriminate]. apply (good_table_frame mp_memory); [exact mp_memory_table|].
    intros x Hx. unfold ex_mem. apply store_bytes_out. change (P2V 0x40E) with (KERNBASE + 0x40E). change (P2V 0x1000) with (KERNBASE + 0x1000) in Hx. cbn [length]. lia.
  - repeat constructor.
  - repeat constructor; discriminate.
  - discriminate.
  - vm_compute. reflexivity.
  - vm_compute. reflexivity.
Qed.

Lemma main_boots_witness : exists s', main 0x80120000 0x80108000 0x80103000 0x80105000 0x80102000 0x8010A000 0x80115000 (fun _ => 0x80114000) (fun i => 0x80106000 + 10 * i)
    0x80109000 44 0x80109800 138 (fun _ => replicate 512 0) 512000 ex_others 2 [] ex_machine = Ret tt [] s' /\
  m_ncpu s' = 2 /\ messages (m_chip s') = (0, 0x88500) :: startup 1 /\ state <$> head (procs (ptab (m_k s'))) = Some RUNNABLE.
Proof.
  destruct (main_boots 0x80120000 0x80108000 0x80103000 0x80105000 0x80102000 0x8010A000 0x80115000 (fun _ => 0x80114000) (fun i => 0x80106000 + 10 * i)
    0x80109000 44 0x80109800 138 (fun _ => replicate 512 0) 512000 ex_others 2 ex_machine 4 0xfee00000 mp_entries
    (foldl add_entry (set_lapic 0xfee00000 (m_vars ex_machine)) mp_entries) 0)
    as (s' & d & pt & um & r & pt2 & um2 & w & ps & q & stk & R & B).
  - split; vm_compute; intuition discriminate.
  - exact ex_powered.
  - exact ex_firmware.
  - exact ex_rises.
  - exists s'. split; [exact R|]. destruct B as [(_ & Hn & _) [Hm _] _ _ _ _ _ _ _ _ Hp _ _ _ _ _ _].
    split; [rewrite Hn; reflexivity|]. split; [rewrite Hm; reflexivity|]. rewrite Hp. reflexivity.
Defined.
