(* ===== verification/Sysarg.v ===== *)
(** * System call arguments (src/syscall.c, first half)

    The kernel reads and writes user memory through the page directory in
    [%cr3]: [translate] is what the MMU does with an address.  A reference to
    an address that is not mapped is a page fault in the kernel, on which
    [trap] panics. *)

From Stdlib Require Import ZArith Lia String.
From stdpp Require Import prelude numbers strings option gmap list.
From S2P Require Import Prelude Kernel Mem Kalloc Sched Bio Log Console Kst Vm.

(** ** User memory *)

Definition translate (m : mem) (dir va : Z) (write : bool) : option Z :=
  let pde := load32 m (dir + 4 * PDX va) in
  if negb (present pde) then None
  else
    let pte := load32 m (P2V (PTE_ADDR pde) + 4 * PTX va) in
    if negb (present pte) || (write && (Z.land pte PTE_W =? 0)) then None
    else Some (P2V (PTE_ADDR pte) + va mod PGSIZE).

Definition uaddr (va : Z) (write : bool) : K kst Z :=
  t ← getp;
  m ← gets (fun s => phys (k_mem s));
  match translate m (P2V (cr3 t)) (u32 va) write with
  | Some a => mret a
  | None => panic "trap"
  end.

Definition uload8 (va : Z) : K kst Z :=
  a ← uaddr va false;
  gets (fun s => load8 (phys (k_mem s)) a).

Fixpoint uload (n : nat) (va : Z) : K kst (list Z) :=
  match n with
  | O => mret []
  | S n => b ← uload8 va; l ← uload n (va + 1); mret (b :: l)
  end.

Fixpoint ustore (va : Z) (l : list Z) : K kst unit :=
  match l with
  | [] => mret ()
  | b :: l =>
      a ← uaddr va true;
      modify (fun s => set_k_mem (set_phys (store8 (phys (k_mem s)) a b) (k_mem s)) s);;
      ustore (va + 1) l
  end.

(** ** Fetching arguments; [None] is the return value -1 *)

Definition fetchint (addr : Z) : K kst (option Z) :=
  '(_, p) ← curproc;
  if (sz p <=? addr) || (sz p <? u32 (addr + 4)) then mret None
  else l ← uload 4 addr; mret (Some (s32 (of_le l))).

(** The loop of [fetchstr]: the characters before the zero, if it is found
    before [ep]. *)
Fixpoint fetchstr_loop (n : nat) (s : Z) (acc : list Z) : K kst (option (list Z)) :=
  match n with
  | O => mret None
  | S n =>
      c ← uload8 s;
      if c =? 0 then mret (Some acc) else fetchstr_loop n (s + 1) (acc ++ [c])
  end.
Definition fetchstr (addr : Z) : K kst (option (list Z)) :=
  '(_, p) ← curproc;
  if sz p <=? addr then mret None else fetchstr_loop (Z.to_nat (sz p - addr)) addr [].

Definition argint (n : Z) : K kst (option Z) :=
  '(_, p) ← curproc;
  fetchint (u32 (esp (tf p) + 4 + 4 * n)).

Definition argptr (n size : Z) : K kst (option Z) :=
  '(_, p) ← curproc;
  o ← argint n;
  mret (i ← o;
        let i := u32 i in
        if (size <? 0) || (sz p <=? i) || (sz p <? u32 (i + size)) then None else Some i).

Definition argstr (n : Z) : K kst (option (list Z)) :=
  o ← argint n;
  match o with
  | None => mret None
  | Some addr => fetchstr (u32 addr)
  end.
