(* ===== verification/Exec.v ===== *)
(** * Program loading (src/exec.c, src/elf.h, loaduvm of src/vm.c)

    The arguments are the strings the pointers of [argv] point to; they lie in
    the old user memory, which [exec] leaves alone until it commits, so
    [copyout] takes the bytes at its source here. *)

From Stdlib Require Import ZArith Lia String.
From stdpp Require Import prelude numbers strings option gmap list.
From S2P Require Import Prelude Kernel Mem Kalloc Sched Bio Log Console Kst Inode Device Fs File Vm Proc.

Definition MAXARG : Z := 32.
Definition ELF_MAGIC : Z := 0x464C457F.
Definition ELF_PROG_LOAD : Z := 1.

(** [struct elfhdr] and [struct proghdr] as the bytes read from the file. *)
Definition ELFHDR : Z := 52.
Definition eh_magic (d : list Z) : Z := get32 d 0.
Definition eh_entry (d : list Z) : Z := get32 d 24.
Definition eh_phoff (d : list Z) : Z := get32 d 28.
Definition eh_phnum (d : list Z) : Z := get16 d 44.
Definition PROGHDR : Z := 32.
Definition ph_type (d : list Z) : Z := get32 d 0.
Definition ph_off (d : list Z) : Z := get32 d 4.
Definition ph_vaddr (d : list Z) : Z := get32 d 8.
Definition ph_filesz (d : list Z) : Z := get32 d 16.
Definition ph_memsz (d : list Z) : Z := get32 d 20.

(** Storing bytes at an address the kernel maps. *)
Definition kstore (a : Z) (l : list Z) : K kst unit :=
  lift (modify (fun m => set_phys (store_bytes (phys m) a l) m)).

Section exec.
Context (end_ data_ null_word : Z).

Fixpoint loaduvm_loop (fuel : nat) (pgdir addr : Z) (ip : nat) (offset i sz : Z) : K kst Z :=
  if negb (i <? sz) then mret 0
  else
    match fuel with
    | O => spin
    | S fuel =>
        pte ← lift (walkpgdir pgdir (u32 (addr + i)) false);
        if pte =? 0 then panic "loaduvm: address should exist"
        else
          e ← lift (rd pte);
          let pa := PTE_ADDR e in
          let n := if sz - i <? PGSIZE then sz - i else PGSIZE in
          '(r, dst) ← readi ip (u32 (offset + i)) n;
          kstore (P2V pa) dst;;
          if negb (u32 r =? n) then mret (-1)
          else loaduvm_loop fuel pgdir addr ip offset (u32 (i + PGSIZE)) sz
    end.
Definition loaduvm (pgdir addr : Z) (ip : nat) (offset sz : Z) : K kst Z :=
  if negb (addr mod PGSIZE =? 0) then panic "loaduvm: addr must be page aligned"
  else loaduvm_loop (Z.to_nat (sz / PGSIZE + 1)) pgdir addr ip offset 0 sz.

(** [copyout] from the bytes at [p]. *)
Fixpoint copyout_from_loop (fuel : nat) (pgdir va : Z) (buf : list Z) : K kst Z :=
  match buf with
  | [] => mret 0
  | _ =>
      match fuel with
      | O => spin
      | S fuel =>
          let va0 := PGROUNDDOWN va in
          pa0 ← lift (uva2ka null_word pgdir va0);
          if pa0 =? 0 then mret (-1)
          else
            let n := Z.to_nat (Z.min (PGSIZE - (va - va0)) (Z.of_nat (length buf))) in
            kstore (pa0 + (va - va0)) (take n buf);;
            copyout_from_loop fuel pgdir (u32 (va0 + PGSIZE)) (drop n buf)
      end
  end.
Definition copyout_from (pgdir va : Z) (buf : list Z) : K kst Z :=
  copyout_from_loop (Z.to_nat (Z.of_nat (length buf) / PGSIZE + 2)) pgdir va buf.

(** The label [bad]; [ip] when it is still locked. *)
Definition exec_bad (pgdir : Z) (ip : option nat) : K kst Z :=
  when (negb (pgdir =? 0)) (lift (freevm end_ pgdir));;
  match ip with
  | Some ip => iunlockput ip;; kend_op
  | None => mret ()
  end;;
  mret (-1).

(** The loop over the program headers: the size of the image, or [None]. *)
Fixpoint load_segments (n : nat) (pgdir : Z) (ip : nat) (off sz : Z) : K kst (option Z) :=
  match n with
  | O => mret (Some sz)
  | S n =>
      '(r, ph) ← readi ip (u32 off) PROGHDR;
      if negb (r =? PROGHDR) then mret None
      else if negb (ph_type ph =? ELF_PROG_LOAD) then load_segments n pgdir ip (s32 (off + PROGHDR)) sz
      else if ph_memsz ph <? ph_filesz ph then mret None
      else if u32 (ph_vaddr ph + ph_memsz ph) <? ph_vaddr ph then mret None
      else
        sz ← lift (allocuvm end_ pgdir sz (u32 (ph_vaddr ph + ph_memsz ph)));
        if sz =? 0 then mret None
        else if negb (ph_vaddr ph mod PGSIZE =? 0) then mret None
        else
          r ← loaduvm pgdir (ph_vaddr ph) ip (ph_off ph) (ph_filesz ph);
          if r <? 0 then mret None
          else load_segments n pgdir ip (s32 (off + PROGHDR)) sz
  end.

(** The loop over the arguments: the stack pointer after it and the addresses
    of the strings. *)
Fixpoint push_args (argv : list (list Z)) (pgdir argc sp : Z) (uargs : list Z) : K kst (option (Z * list Z)) :=
  match argv with
  | [] => mret (Some (sp, uargs))
  | a :: argv =>
      if MAXARG <=? argc then mret None
      else
        let sp := Z.land (u32 (sp - (Z.of_nat (length a) + 1))) (Z.lnot 3) in
        r ← copyout_from pgdir sp (a ++ [0]);
        if r <? 0 then mret None
        else push_args argv pgdir (argc + 1) sp (uargs ++ [sp])
  end.

(** [ustack] *)
Definition ustack (argc sp : Z) (uargs : list Z) : list Z :=
  [0xffffffff; argc; u32 (sp - (argc + 1) * 4)] ++ uargs ++ [0].

(** The part of the path after the last slash. *)
Fixpoint last_elem (last s : list Z) : list Z :=
  match s with
  | [] => last
  | c :: s => if c =? SLASH then last_elem s s else last_elem last s
  end.

Definition exec (path : list Z) (argv : list (list Z)) : K kst Z :=
  '(c, _) ← curproc;
  kbegin_op;;
  o ← namei path;
  match o with
  | None =>
      kend_op;;
      cprintf ("exec: fail" ++ nl) [];;
      mret (-1)
  | Some ip =>
      ilock ip;;
      '(r, elf) ← readi ip 0 ELFHDR;
      if negb (r =? ELFHDR) then exec_bad 0 (Some ip)
      else if negb (eh_magic elf =? ELF_MAGIC) then exec_bad 0 (Some ip)
      else
        d ← lift (setupkvm end_ data_);
        if d =? 0 then exec_bad 0 (Some ip)
        else
          o ← load_segments (Z.to_nat (eh_phnum elf)) d ip (s32 (eh_phoff elf)) 0;
          match o with
          | None => exec_bad d (Some ip)
          | Some sz =>
              iunlockput ip;;
              kend_op;;
              let sz := PGROUNDUP sz in
              sz ← lift (allocuvm end_ d sz (u32 (sz + 2 * PGSIZE)));
              if sz =? 0 then exec_bad d None
              else
                lift (clearpteu d (u32 (sz - 2 * PGSIZE)));;
                o ← push_args argv d 0 sz [];
                match o with
                | None => exec_bad d None
                | Some (sp, uargs) =>
                    let argc := Z.of_nat (length uargs) in
                    let us := ustack argc sp uargs in
                    let sp := u32 (sp - (3 + argc + 1) * 4) in
                    r ← copyout_from d sp (concat (le32 <$> us));
                    if r <? 0 then exec_bad d None
                    else
                      modproc c (fun p => set_name (splice 0 (safestrcpy (bytes_ptr (last_elem path path)) 16) (name p)) p);;
                      p ← getproc c;
                      modproc c (set_pgdir d);;
                      modproc c (set_sz sz);;
                      modproc c (fun p => set_tf (set_tf_entry (eh_entry elf) sp (tf p)) p);;
                      switchuvm c;;
                      lift (freevm end_ (pgdir p));;
                      mret 0
                end
          end
  end.
End exec.
