(* ===== verification/Sysproc.v ===== *)
(** * System calls on processes (src/sysproc.c)

    A call of [sys_sleep] that sleeps goes on in [sys_sleep_wake]. *)

From Stdlib Require Import ZArith Lia String.
From stdpp Require Import prelude numbers strings option gmap list.
From S2P Require Import Prelude Kernel Mem Kalloc Sched Mailbox Bio Log Console Kst Inode Fs File Vm Proc Sysarg.

Section sysproc.
Context (end_ data_ forkret_ trapret_ : Z).

Definition sys_fork : K kst Z := fork end_ data_ forkret_ trapret_.
Definition sys_exit : K kst Z := exit end_;; mret 0.
Definition sys_wait : K kst Z := wait end_.

Definition sys_kill : K kst Z :=
  o ← argint 0;
  match o with
  | None => mret (-1)
  | Some n => kill n
  end.

Definition sys_getpid : K kst Z := '(_, p) ← curproc; mret (pid p).

Definition sys_sbrk : K kst Z :=
  o ← argint 0;
  match o with
  | None => mret (-1)
  | Some n =>
      '(_, p) ← curproc;
      r ← growproc end_ n;
      mret (if r <? 0 then -1 else s32 (sz p))
  end.

(** The loop of [sys_sleep] with [tickslock] held; [n] is compared as unsigned. *)
Definition sys_sleep_loop (ticks0 n : Z) : K kst Z :=
  ticks ← gets k_ticks;
  if u32 (ticks - ticks0) <? u32 n then
    '(_, p) ← curproc;
    if negb (killed p =? 0) then release LTicks;; mret (-1)
    else sleep ChTicks LTicks
  else release LTicks;; mret 0.
Definition sys_sleep : K kst Z :=
  o ← argint 0;
  match o with
  | None => mret (-1)
  | Some n =>
      acquire LTicks;;
      ticks0 ← gets k_ticks;
      sys_sleep_loop ticks0 n
  end.
Definition sys_sleep_wake (ticks0 n : Z) : K kst Z :=
  sleep_return LTicks;;
  sys_sleep_loop ticks0 n.

Definition sys_uptime : K kst Z :=
  acquire LTicks;;
  xticks ← gets k_ticks;
  release LTicks;;
  mret (s32 xticks).

Definition sys_settickets : K kst Z :=
  o ← argint 0;
  match o with
  | None => mret (-1)
  | Some pid =>
      o ← argint 1;
      match o with
      | None => mret (-1)
      | Some n => settickets pid n
      end
  end.

(** [sys_yield] up to the switch; then it returns 0. *)
Definition sys_yield : K kst Z := yield.

Definition sys_getrunticks : K kst Z := '(_, p) ← curproc; mret (runticks p).

(** The arguments of [sys_ksend] and [sys_krecv]. *)
Definition mail_args : K kst (option (Z * Z * Z)) :=
  o ← argint 0;
  match o with
  | None => mret None
  | Some chan =>
      o ← argint 2;
      match o with
      | None => mret None
      | Some len =>
          o ← argptr 1 len;
          mret ((fun buf => (chan, buf, len)) <$> o)
      end
  end.

Definition sys_ksend : K kst Z :=
  o ← mail_args;
  match o with
  | None => mret (-1)
  | Some (chan, buf, len) =>
      l ← uload (Z.to_nat len) buf;
      lift (ksend chan l len)
  end.

Definition sys_krecv : K kst Z :=
  o ← mail_args;
  match o with
  | None => mret (-1)
  | Some (chan, buf, maxlen) =>
      '(r, l) ← lift (krecv chan maxlen);
      ustore buf l;;
      mret r
  end.
End sysproc.
