(* ===== verification/Sysfile.v ===== *)
(** * System calls on files (src/sysfile.c) *)

From Stdlib Require Import ZArith Lia String.
From stdpp Require Import prelude numbers strings option gmap list.
From S2P Require Import Prelude Kernel Mem Kalloc Sched Bio Log Console Kst Inode Device Fs File Vm Proc Exec Sysarg.

Definition O_RDONLY : Z := 0x000.
Definition O_WRONLY : Z := 0x001.
Definition O_RDWR : Z := 0x002.
Definition O_CREATE : Z := 0x200.

Section sysfile.
Context (end_ data_ null_word : Z).

(** The descriptor and the file. *)
Definition argfd (n : Z) : K kst (option (Z * nat)) :=
  o ← argint n;
  match o with
  | None => mret None
  | Some fd =>
      if (fd <? 0) || (Z.of_nat NOFILE <=? fd) then mret None
      else
        '(_, p) ← curproc;
        mret ((fun f => (fd, f)) <$> default None (ofile p !! Z.to_nat fd))
  end.

(** [None] when every descriptor is taken. *)
Definition fdalloc (f : nat) : K kst (option Z) :=
  '(i, p) ← curproc;
  match list_find (fun o => o = None) (ofile p) with
  | Some (fd, _) =>
      modproc i (fun p => set_ofile (<[fd := Some f]> (ofile p)) p);;
      mret (Some (Z.of_nat fd))
  | None => mret None
  end.

Definition sys_dup : K kst Z :=
  o ← argfd 0;
  match o with
  | None => mret (-1)
  | Some (_, f) =>
      o ← fdalloc f;
      match o with
      | None => mret (-1)
      | Some fd => filedup f;; mret fd
      end
  end.

(** The arguments of [sys_read] and [sys_write]: file, address, length. *)
Definition rw_args : K kst (option (nat * Z * Z)) :=
  o ← argfd 0;
  match o with
  | None => mret None
  | Some (_, f) =>
      o ← argint 2;
      match o with
      | None => mret None
      | Some n =>
          o ← argptr 1 n;
          mret ((fun p => (f, p, n)) <$> o)
      end
  end.

Definition sys_read : K kst Z :=
  o ← rw_args;
  match o with
  | None => mret (-1)
  | Some (f, p, n) =>
      '(r, dst) ← fileread f n;
      ustore p dst;;
      mret r
  end.

Definition sys_write : K kst Z :=
  o ← rw_args;
  match o with
  | None => mret (-1)
  | Some (f, p, n) =>
      src ← uload (Z.to_nat n) p;
      filewrite f src n
  end.

Definition sys_close : K kst Z :=
  o ← argfd 0;
  match o with
  | None => mret (-1)
  | Some (fd, f) =>
      '(i, _) ← curproc;
      modproc i (fun p => set_ofile (<[Z.to_nat fd := None]> (ofile p)) p);;
      fileclose end_ f;;
      mret 0
  end.

(** [struct stat] in memory: [type] at 0, [dev] at 4, [ino] at 8, [nlink] at
    12, [size] at 16; the padding is left alone. *)
Definition store_stat (a : Z) (st : stat) : K kst unit :=
  ustore a (le16 (st_type st));;
  ustore (a + 4) (le32 (st_dev st));;
  ustore (a + 8) (le32 (st_ino st));;
  ustore (a + 12) (le16 (st_nlink st));;
  ustore (a + 16) (le32 (st_size st)).

Definition sys_fstat : K kst Z :=
  o ← argfd 0;
  match o with
  | None => mret (-1)
  | Some (_, f) =>
      o ← argptr 1 20;
      match o with
      | None => mret (-1)
      | Some a =>
          '(r, st) ← filestat f;
          match st with
          | Some st => store_stat a st
          | None => mret ()
          end;;
          mret r
      end
  end.

Definition name0 : list Z := replicate (Z.to_nat DIRSIZ) 0.

Definition sys_link : K kst Z :=
  o ← argstr 0;
  match o with
  | None => mret (-1)
  | Some old =>
      o ← argstr 1;
      match o with
      | None => mret (-1)
      | Some new =>
          kbegin_op;;
          o ← namei old;
          match o with
          | None => kend_op;; mret (-1)
          | Some i =>
              ilock i;;
              ip ← ip_ i;
              if i_type ip =? T_DIR then iunlockput i;; kend_op;; mret (-1)
              else
                mod_ip i (fun ip => set_i_nlink (s16 (i_nlink ip + 1)) ip);;
                iupdate i;;
                iunlock i;;
                let bad : K kst Z :=
                  ilock i;;
                  mod_ip i (fun ip => set_i_nlink (s16 (i_nlink ip - 1)) ip);;
                  iupdate i;;
                  iunlockput i;;
                  kend_op;;
                  mret (-1) in
                '(o, name) ← nameiparent new name0;
                match o with
                | None => bad
                | Some d =>
                    ilock d;;
                    dp ← ip_ d;
                    ip ← ip_ i;
                    r ← (if negb (i_dev dp =? i_dev ip) then mret (-1) else dirlink d name (i_inum ip));
                    if r <? 0 then iunlockput d;; bad
                    else
                      iunlockput d;;
                      iput i;;
                      kend_op;;
                      mret 0
                end
          end
      end
  end.

(** The loop of [isdirempty]. *)
Fixpoint isdirempty_loop (fuel : nat) (dp : nat) (off : Z) : K kst bool :=
  ip ← ip_ dp;
  if off <? i_size ip then
    match fuel with
    | O => spin
    | S fuel =>
        '(r, de) ← readi dp off DIRENT;
        if negb (r =? DIRENT) then panic "isdirempty: readi"
        else if negb (de_inum de =? 0) then mret false
        else isdirempty_loop fuel dp (off + DIRENT)
    end
  else mret true.
Definition isdirempty (dp : nat) : K kst bool :=
  ip ← ip_ dp;
  isdirempty_loop (Z.to_nat (i_size ip / DIRENT + 1)) dp (2 * DIRENT).

Definition sys_unlink : K kst Z :=
  o ← argstr 0;
  match o with
  | None => mret (-1)
  | Some path =>
      kbegin_op;;
      '(o, name) ← nameiparent path name0;
      match o with
      | None => kend_op;; mret (-1)
      | Some d =>
          ilock d;;
          let bad : K kst Z := iunlockput d;; kend_op;; mret (-1) in
          if (namecmp name (str ".") =? 0) || (namecmp name (str "..") =? 0) then bad
          else
            o ← dirlookup d name;
            match o with
            | None => bad
            | Some (i, off) =>
                ilock i;;
                ip ← ip_ i;
                if i_nlink ip <? 1 then panic "unlink: nlink < 1"
                else
                  full ← (if i_type ip =? T_DIR then e ← isdirempty i; mret (negb e) else mret false);
                  if (full : bool) then iunlockput i;; bad
                  else
                    r ← writei d (replicate (Z.to_nat DIRENT) 0) off DIRENT;
                    if negb (r =? DIRENT) then panic "unlink: writei"
                    else
                      ip ← ip_ i;
                      (if i_type ip =? T_DIR then
                         mod_ip d (fun dp => set_i_nlink (s16 (i_nlink dp - 1)) dp);;
                         iupdate d
                       else mret ());;
                      iunlockput d;;
                      mod_ip i (fun ip => set_i_nlink (s16 (i_nlink ip - 1)) ip);;
                      iupdate i;;
                      iunlockput i;;
                      kend_op;;
                      mret 0
            end
      end
  end.

Definition create (path : list Z) (type major minor : Z) : K kst (option nat) :=
  '(o, name) ← nameiparent path name0;
  match o with
  | None => mret None
  | Some d =>
      ilock d;;
      o ← dirlookup d name;
      match o with
      | Some (i, _) =>
          iunlockput d;;
          ilock i;;
          ip ← ip_ i;
          if (type =? T_FILE) && (i_type ip =? T_FILE) then mret (Some i)
          else iunlockput i;; mret None
      | None =>
          dp ← ip_ d;
          i ← ialloc (i_dev dp) type;
          ilock i;;
          mod_ip i (set_i_majmin (s16 major) (s16 minor));;
          mod_ip i (set_i_nlink 1);;
          iupdate i;;
          ip ← ip_ i;
          (if type =? T_DIR then
             mod_ip d (fun dp => set_i_nlink (s16 (i_nlink dp + 1)) dp);;
             iupdate d;;
             r ← dirlink i (str ".") (i_inum ip);
             r ← (if r <? 0 then mret r else dp ← ip_ d; dirlink i (str "..") (i_inum dp));
             if r <? 0 then panic "create dots" else mret ()
           else mret ());;
          r ← dirlink d name (i_inum ip);
          if r <? 0 then panic "create: dirlink"
          else iunlockput d;; mret (Some i)
      end
  end.

(** The end of [sys_open], with the inode locked. *)
Definition open_file (i : nat) (omode : Z) : K kst Z :=
  let fail : K kst Z := iunlockput i;; kend_op;; mret (-1) in
  o ← filealloc;
  match o with
  | None => fail
  | Some f =>
      o ← fdalloc f;
      match o with
      | None => fileclose end_ f;; fail
      | Some fd =>
          iunlock i;;
          kend_op;;
          mod_f f (set_f_type FD_INODE);;
          mod_f f (set_f_ip i);;
          mod_f f (set_f_off 0);;
          mod_f f (set_f_mode (Z.b2z (Z.land omode O_WRONLY =? 0))
                     (Z.b2z (negb (Z.land omode O_WRONLY =? 0) || negb (Z.land omode O_RDWR =? 0))));;
          mret fd
      end
  end.

Definition sys_open : K kst Z :=
  o ← argstr 0;
  match o with
  | None => mret (-1)
  | Some path =>
      o ← argint 1;
      match o with
      | None => mret (-1)
      | Some omode =>
          kbegin_op;;
          if negb (Z.land omode O_CREATE =? 0) then
            o ← create path T_FILE 0 0;
            match o with
            | None => kend_op;; mret (-1)
            | Some i => open_file i omode
            end
          else
            o ← namei path;
            match o with
            | None => kend_op;; mret (-1)
            | Some i =>
                ilock i;;
                ip ← ip_ i;
                if (i_type ip =? T_DIR) && negb (omode =? O_RDONLY) then iunlockput i;; kend_op;; mret (-1)
                else open_file i omode
            end
      end
  end.

Definition sys_mkdir : K kst Z :=
  kbegin_op;;
  o ← argstr 0;
  r ← (match o with None => mret None | Some path => create path T_DIR 0 0 end);
  match r with
  | None => kend_op;; mret (-1)
  | Some i => iunlockput i;; kend_op;; mret 0
  end.

Definition sys_mknod : K kst Z :=
  kbegin_op;;
  o ← argstr 0;
  r ← (match o with
       | None => mret None
       | Some path =>
           o ← argint 1;
           match o with
           | None => mret None
           | Some major =>
               o ← argint 2;
               match o with
               | None => mret None
               | Some minor => create path T_DEV major minor
               end
           end
       end);
  match r with
  | None => kend_op;; mret (-1)
  | Some i => iunlockput i;; kend_op;; mret 0
  end.

Definition sys_chdir : K kst Z :=
  '(c, _) ← curproc;
  kbegin_op;;
  o ← argstr 0;
  r ← (match o with None => mret None | Some path => namei path end);
  match r with
  | None => kend_op;; mret (-1)
  | Some i =>
      ilock i;;
      ip ← ip_ i;
      if negb (i_type ip =? T_DIR) then iunlockput i;; kend_op;; mret (-1)
      else
        iunlock i;;
        p ← getproc c;
        match cwd p with
        | Some w => iput w
        | None => panic "trap"
        end;;
        kend_op;;
        modproc c (set_cwd (Some i));;
        mret 0
  end.

(** The loop of [sys_exec]; [argv] has room for [MAXARG] pointers. *)
Fixpoint exec_args (n : nat) (uargv : Z) (argv : list (list Z)) : K kst (option (list (list Z))) :=
  match n with
  | O => mret None
  | S n =>
      o ← fetchint uargv;
      match o with
      | None => mret None
      | Some uarg =>
          if uarg =? 0 then mret (Some argv)
          else
            o ← fetchstr (u32 uarg);
            match o with
            | None => mret None
            | Some a => exec_args n (u32 (uargv + 4)) (argv ++ [a])
            end
      end
  end.

Definition sys_exec : K kst Z :=
  o ← argstr 0;
  match o with
  | None => mret (-1)
  | Some path =>
      o ← argint 1;
      match o with
      | None => mret (-1)
      | Some uargv =>
          o ← exec_args (Z.to_nat MAXARG) (u32 uargv) [];
          match o with
          | None => mret (-1)
          | Some argv => exec end_ data_ null_word path argv
          end
      end
  end.

Definition sys_pipe : K kst Z :=
  o ← argptr 0 8;
  match o with
  | None => mret (-1)
  | Some a =>
      o ← pipealloc end_;
      match o with
      | None => mret (-1)
      | Some (rf, wf) =>
          let fail (fd0 : option Z) : K kst Z :=
            match fd0 with
            | Some fd =>
                '(i, _) ← curproc;
                modproc i (fun p => set_ofile (<[Z.to_nat fd := None]> (ofile p)) p)
            | None => mret ()
            end;;
            fileclose end_ rf;;
            fileclose end_ wf;;
            mret (-1) in
          o0 ← fdalloc rf;
          match o0 with
          | None => fail None
          | Some fd0 =>
              o1 ← fdalloc wf;
              match o1 with
              | None => fail o0
              | Some fd1 =>
                  ustore a (le32 fd0);;
                  ustore (a + 4) (le32 fd1);;
                  mret 0
              end
          end
      end
  end.
End sysfile.
