(* ===== verification/Trap.v ===== *)
(** * Traps and the dispatch of system calls (src/trap.c, second half of src/syscall.c)

    [trap] runs up to the point where the process gives up the CPU, if it
    does; after [yield] it goes on in [trap_resume].  Acknowledging an
    interrupt at the local APIC changes nothing here, and neither does the
    interrupt routine of the memory disk.  [cpu] is the number of this CPU and
    [cr2] the address of a page fault. *)

From Stdlib Require Import ZArith Lia String.
From stdpp Require Import prelude numbers strings option gmap list.
From S2P Require Import Gates Prelude Kernel Mem Kalloc Sched Bio Log Console Kbd Kst Inode Fs File Vm Proc Exec Sysarg Sysproc Sysfile.


Section trap.
Context (end_ data_ null_word forkret_ trapret_ : Z).

(** [syscalls]: [None] is a null entry, or a number outside the table. *)
Definition syscalls (num : Z) : option (K kst Z) :=
  match num with
  | 1 => Some (sys_fork end_ data_ forkret_ trapret_)
  | 2 => Some (sys_exit end_)
  | 3 => Some (sys_wait end_)
  | 4 => Some (sys_pipe end_)
  | 5 => Some sys_read
  | 6 => Some sys_kill
  | 7 => Some (sys_exec end_ data_ null_word)
  | 8 => Some sys_fstat
  | 9 => Some sys_chdir
  | 10 => Some sys_dup
  | 11 => Some sys_getpid
  | 12 => Some (sys_sbrk end_)
  | 13 => Some sys_sleep
  | 14 => Some sys_uptime
  | 15 => Some (sys_open end_)
  | 16 => Some sys_write
  | 17 => Some sys_mknod
  | 18 => Some sys_unlink
  | 19 => Some sys_link
  | 20 => Some sys_mkdir
  | 21 => Some (sys_close end_)
  | 22 => Some sys_settickets
  | 23 => Some sys_yield
  | 24 => Some sys_ksend
  | 25 => Some sys_krecv
  | 26 => Some sys_getrunticks
  | _ => None
  end.

Definition syscall : K kst unit :=
  '(c, p) ← curproc;
  let num := s32 (eax (tf p)) in
  match syscalls num with
  | Some f =>
      r ← f;
      modproc c (fun p => set_tf (set_tf_eax (u32 r) (tf p)) p)
  | None =>
      cprintf ("%d %s: unknown sys call %d" ++ nl) [KInt (pid p); KStr (text (name p)); KInt num];;
      modproc c (fun p => set_tf (set_tf_eax (u32 (-1)) (tf p)) p)
  end.

Context (cpu cr2 : Z).

(** [if(myproc() && myproc()->killed && (tf->cs&3) == DPL_USER) exit();] *)
Definition exit_if_killed (t : trapframe) : K kst unit :=
  o ← myproc;
  match o with
  | None => mret ()
  | Some c =>
      p ← getproc c;
      when (negb (killed p =? 0) && (Z.land (cs t) 3 =? DPL_USER)) (exit end_)
  end.

(** [trap] after [yield]. *)
Definition trap_resume (t : trapframe) : K kst unit := yield_return;; exit_if_killed t.

(** What follows the [switch] of [trap]. *)
Definition trap_end (t : trapframe) : K kst unit :=
  exit_if_killed t;;
  o ← myproc;
  match o with
  | None => mret ()
  | Some c =>
      p ← getproc c;
      if bool_decide (state p = RUNNING) && (trapno t =? T_IRQ0 + IRQ_TIMER) then
        modproc c (fun p => set_runticks (s32 (runticks p + 1)) p);;
        modproc c (set_preempted 1);;
        yield
      else mret ()
  end;;
  exit_if_killed t.

Definition trap_syscall (t : trapframe) : K kst unit :=
  '(c, p) ← curproc;
  when (negb (killed p =? 0)) (exit end_);;
  modproc c (set_tf t);;
  syscall;;
  '(_, p) ← curproc;
  when (negb (killed p =? 0)) (exit end_).

(** The [default] case: a fault. *)
Definition trap_fault (t : trapframe) : K kst unit :=
  o ← myproc;
  match o with
  | Some c =>
      if Z.land (cs t) 3 =? 0 then
        cprintf ("unexpected trap %d from cpu %d eip %x (cr2=0x%x)" ++ nl)
          [KInt (trapno t); KInt cpu; KInt (eip t); KInt cr2];;
        panic "trap"
      else
        p ← getproc c;
        cprintf ("pid %d %s: trap %d err %d on cpu %d eip 0x%x addr 0x%x--kill proc" ++ nl)
          [KInt (pid p); KStr (text (name p)); KInt (trapno t); KInt (err t); KInt cpu; KInt (eip t); KInt cr2];;
        modproc c (set_killed 1)
  | None =>
      cprintf ("unexpected trap %d from cpu %d eip %x (cr2=0x%x)" ++ nl)
        [KInt (trapno t); KInt cpu; KInt (eip t); KInt cr2];;
      panic "trap"
  end.

Definition trap (t : trapframe) : K kst unit :=
  if trapno t =? T_SYSCALL then trap_syscall t
  else
    (if trapno t =? T_IRQ0 + IRQ_TIMER then
       if cpu =? 0 then
         acquire LTicks;;
         modify (fun s => set_k_ticks (u32 (k_ticks s + 1)) s);;
         wakeup ChTicks;;
         release LTicks
       else mret ()
     else if (trapno t =? T_IRQ0 + IRQ_IDE) || (trapno t =? T_IRQ0 + IRQ_IDE + 1) then mret ()
     else if trapno t =? T_IRQ0 + IRQ_KBD then kbdintr (fun s => phys (k_mem s))
     else if trapno t =? T_IRQ0 + IRQ_COM1 then uartintr (fun s => phys (k_mem s))
     else if (trapno t =? T_IRQ0 + 7) || (trapno t =? T_IRQ0 + IRQ_SPURIOUS) then
       cprintf ("cpu%d: spurious interrupt at %x:%x" ++ nl) [KInt cpu; KInt (cs t); KInt (eip t)]
     else trap_fault t);;
    trap_end t.
End trap.
