(* ===== verification/Programs.v ===== *)
(** * User programs (cat, wc, echo, ln, rm, mkdir, kill, init, zombie and ls under src/, main of src/grep.c)

    Programs run in the monad of the file Ulib, against a script of the
    kernel's answers.  A loop that makes a system call in every round ends
    before the answers do, so [rounds] bounds it.  [printf] to a descriptor
    writes its output one character at a time. *)

From Stdlib Require Import ZArith Lia String.
From stdpp Require Import prelude numbers option strings list.
From S2P Require Import Prelude Ulib Printf Grep.

(** ** printf to a descriptor *)

Inductive uarg : Type := UInt (v : Z) | UStr (s : list Z).

(** Argument [i] as a word: a string's address is the number of the argument plus one. *)
Definition arg_word (args : list uarg) (i : nat) : Z :=
  match args !! i with
  | Some (UInt v) => v
  | Some (UStr _) => Z.of_nat i + 1
  | None => 0
  end.
Definition arg_str (args : list uarg) (a : Z) : list Z :=
  match args !! Z.to_nat (a - 1) with
  | Some (UStr s) => s ++ [0]
  | _ => [0]
  end.

(** [putc] of printf.c for each character. *)
Fixpoint putcs (fd : Z) (out : list Z) : U unit :=
  match out with
  | [] => mret ()
  | c :: out => _ ← call (Write fd [c]); putcs fd out
  end.

Definition fprintf (fd : Z) (fmt : list Z) (args : list uarg) : U unit :=
  match printf (arg_str args) (arg_word args) fmt with
  | Some out => putcs fd out
  | None => fun _ => Runs
  end.

(** What a call of [printf] writes. *)
Definition printed (fmt : list Z) (args : list uarg) : list Z := default [] (printf (arg_str args) (arg_word args) fmt).

(** A message that ends in a newline. *)
Definition line (s : string) : list Z := str s ++ [10].

(** ** cat *)

Fixpoint cat_loop (fuel : nat) (fd : Z) : U unit :=
  match fuel with
  | O => fun _ => Runs
  | S fuel =>
      '(n, buf) ← sys (Read fd 512);
      if 0 <? n then
        w ← call (Write 1 (take (Z.to_nat n) buf));
        if negb (w =? n) then fprintf 1 (line "cat: write error") [];; exit_
        else cat_loop fuel fd
      else if n <? 0 then fprintf 1 (line "cat: read error") [];; exit_
      else mret ()
  end.
Definition cat (fd : Z) : U unit := repeat (fun fuel => cat_loop fuel fd).

Fixpoint cat_files (files : list (list Z)) : U unit :=
  match files with
  | [] => exit_
  | f :: files =>
      fd ← call (Open f 0);
      if fd <? 0 then fprintf 1 (line "cat: cannot open %s") [UStr f];; exit_
      else
        cat fd;;
        _ ← call (Close fd);
        cat_files files
  end.
Definition cat_main (argv : list (list Z)) : U unit :=
  if (length argv <=? 1)%nat then cat 0;; exit_ else cat_files (drop 1 argv).

(** ** wc *)

(** The counters [l], [w], [c] and [inword]. *)
Record counts : Type := mkCounts { n_l : Z; n_w : Z; n_c : Z; inword : bool }.

Definition blanks : list Z := [32; 13; 9; 10; 11].

Fixpoint wc_bytes (buf : list Z) (k : counts) : counts :=
  match buf with
  | [] => k
  | b :: buf =>
      let l := if b =? 10 then s32 (n_l k + 1) else n_l k in
      let c := s32 (n_c k + 1) in
      wc_bytes buf
        (match strchr (blanks ++ [0]) b with
         | Some _ => mkCounts l (n_w k) c false
         | None => if negb (inword k) then mkCounts l (s32 (n_w k + 1)) c true else mkCounts l (n_w k) c true
         end)
  end.

Fixpoint wc_loop (fuel : nat) (fd : Z) (k : counts) : U counts :=
  match fuel with
  | O => fun _ => Runs
  | S fuel =>
      '(n, buf) ← sys (Read fd 512);
      if 0 <? n then wc_loop fuel fd (wc_bytes (take (Z.to_nat n) buf) k)
      else if n <? 0 then fprintf 1 (line "wc: read error") [];; exit_
      else mret k
  end.
Definition wc (fd : Z) (name : list Z) : U unit :=
  k ← repeat (fun fuel => wc_loop fuel fd (mkCounts 0 0 0 false));
  fprintf 1 (line "%d %d %d %s") [UInt (n_l k); UInt (n_w k); UInt (n_c k); UStr name].

Fixpoint wc_files (files : list (list Z)) : U unit :=
  match files with
  | [] => exit_
  | f :: files =>
      fd ← call (Open f 0);
      if fd <? 0 then fprintf 1 (line "wc: cannot open %s") [UStr f];; exit_
      else
        wc fd f;;
        _ ← call (Close fd);
        wc_files files
  end.
Definition wc_main (argv : list (list Z)) : U unit :=
  if (length argv <=? 1)%nat then wc 0 [];; exit_ else wc_files (drop 1 argv).

(** ** grep *)




(** ** echo, ln, rm, mkdir, kill *)

Fixpoint echo_loop (args : list (list Z)) : U unit :=
  match args with
  | [] => exit_
  | a :: args =>
      fprintf 1 (str "%s%s") [UStr a; UStr (if bool_decide (args = []) then [10] else [32])];;
      echo_loop args
  end.
Definition echo_main (argv : list (list Z)) : U unit := echo_loop (drop 1 argv).

Definition ln_main (argv : list (list Z)) : U unit :=
  match argv with
  | [_; old; new] =>
      r ← call (Link old new);
      (if r <? 0 then fprintf 2 (line "link %s %s: failed") [UStr old; UStr new] else mret ());;
      exit_
  | _ => fprintf 2 (line "Usage: ln old new") [];; exit_
  end.

(** The loops of rm and mkdir stop at the first failure. *)
Fixpoint each_file (op : list Z -> syscall) (msg : list Z) (files : list (list Z)) : U unit :=
  match files with
  | [] => mret ()
  | f :: files =>
      r ← call (op f);
      if r <? 0 then fprintf 2 msg [UStr f] else each_file op msg files
  end.

Definition rm_main (argv : list (list Z)) : U unit :=
  if (length argv <? 2)%nat then fprintf 2 (line "Usage: rm files...") [];; exit_
  else each_file Unlink (line "rm: %s failed to delete") (drop 1 argv);; exit_.

Definition mkdir_main (argv : list (list Z)) : U unit :=
  if (length argv <? 2)%nat then fprintf 2 (line "Usage: mkdir files...") [];; exit_
  else each_file Mkdir (line "mkdir: %s failed to create") (drop 1 argv);; exit_.

Fixpoint kill_loop (args : list (list Z)) : U unit :=
  match args with
  | [] => exit_
  | a :: args => _ ← call (Kill (atoi (a ++ [0]))); kill_loop args
  end.
Definition kill_main (argv : list (list Z)) : U unit :=
  if (length argv <? 2)%nat then fprintf 2 (line "usage: kill pid...") [];; exit_
  else kill_loop (drop 1 argv).

(** ** init, zombie *)

Definition O_RDWR : Z := 0x002.

(** The inner loop of init: orphans are reported until the shell has ended. *)
Fixpoint init_wait (fuel : nat) (pid : Z) : U unit :=
  match fuel with
  | O => fun _ => Runs
  | S fuel =>
      wpid ← call Wait;
      if (0 <=? wpid) && negb (wpid =? pid) then fprintf 1 (line "zombie!") [];; init_wait fuel pid
      else mret ()
  end.

Fixpoint init_loop (fuel : nat) : U unit :=
  match fuel with
  | O => fun _ => Runs
  | S fuel =>
      fprintf 1 (line "init: starting sh") [];;
      pid ← call Fork;
      if pid <? 0 then fprintf 1 (line "init: fork failed") [];; exit_
      else if pid =? 0 then
        _ ← call (Exec (str "sh") [str "sh"]);
        fprintf 1 (line "init: exec sh failed") [];;
        exit_
      else
        repeat (fun fuel => init_wait fuel pid);;
        init_loop fuel
  end.

Definition init_main : U unit :=
  fd ← call (Open (str "console") O_RDWR);
  (if fd <? 0 then
     _ ← call (Mknod (str "console") 1 1);
     _ ← call (Open (str "console") O_RDWR);
     mret ()
   else mret ());;
  _ ← call (Dup 0);
  _ ← call (Dup 0);
  repeat init_loop.

Definition zombie_main : U unit :=
  pid ← call Fork;
  (if 0 <? pid then _ ← call (Sleep 5); mret () else mret ());;
  exit_.

(** ** ls *)

Definition DIRSIZ : nat := 14.

(** The part of the path after the last slash. *)
Fixpoint after_slash (last s : list Z) : list Z :=
  match s with
  | [] => last
  | c :: s => if c =? 47 then after_slash s s else after_slash last s
  end.

(** [fmtname]: the name, padded with blanks in a static buffer of 15 bytes
    whose last byte is zero. *)
Definition fmtname (path : list Z) : list Z :=
  let p := after_slash path path in
  if (DIRSIZ <=? length p)%nat then p else p ++ replicate (DIRSIZ - length p) 32.

(** The fields of [struct stat] that ls prints, in the bytes the kernel stored. *)
Definition word_at (st : list Z) (o : nat) : Z := foldr (fun b v => b + 256 * v) 0 (take 4 (drop o st)).
Definition stat_type (st : list Z) : Z := s16 (foldr (fun b v => b + 256 * v) 0 (take 2 st)).
Definition stat_ino (st : list Z) : Z := word_at st 8.
Definition stat_size (st : list Z) : Z := word_at st 16.

Definition ls_line (path : list Z) (st : list Z) : U unit :=
  fprintf 1 (line "%s %d %d %d") [UStr (fmtname path); UInt (stat_type st); UInt (stat_ino st); UInt (stat_size st)].

(** The loop over the entries of a directory; [prefix] is the path and a slash. *)
Fixpoint ls_loop (fuel : nat) (fd : Z) (prefix : list Z) : U unit :=
  match fuel with
  | O => fun _ => Runs
  | S fuel =>
      '(n, de) ← sys (Read fd 16);
      if negb (n =? 16) then mret ()
      else if foldr (fun b v => b + 256 * v) 0 (take 2 de) =? 0 then ls_loop fuel fd prefix
      else
        let buf := prefix ++ cstr (take DIRSIZ (drop 2 de) ++ [0]) in
        '(r, st) ← stat buf;
        (if r <? 0 then fprintf 1 (line "ls: cannot stat %s") [UStr buf] else ls_line buf st);;
        ls_loop fuel fd prefix
  end.

Definition ls (path : list Z) : U unit :=
  fd ← call (Open path 0);
  if fd <? 0 then fprintf 2 (line "ls: cannot open %s") [UStr path]
  else
    '(r, st) ← sys (Fstat fd);
    if r <? 0 then
      fprintf 2 (line "ls: cannot stat %s") [UStr path];;
      _ ← call (Close fd);
      mret ()
    else
      (if stat_type st =? 2 then ls_line path st
       else if stat_type st =? 1 then
         if (512 <? length path + 1 + DIRSIZ + 1)%nat then fprintf 1 (line "ls: path too long") []
         else repeat (fun fuel => ls_loop fuel fd (path ++ [47]))
       else mret ());;
      _ ← call (Close fd);
      mret ().

Fixpoint ls_each (paths : list (list Z)) : U unit :=
  match paths with
  | [] => exit_
  | p :: paths => ls p;; ls_each paths
  end.
Definition ls_main (argv : list (list Z)) : U unit :=
  if (length argv <? 2)%nat then ls (str ".");; exit_ else ls_each (drop 1 argv).

(** ** What programs write *)

(** The bytes written to a descriptor. *)
Definition output (fd : Z) (cs : list syscall) : list Z :=
  concat ((fun c => match c with Write f d => if f =? fd then d else [] | _ => [] end) <$> cs).

Lemma output_app fd cs1 cs2 : output fd (cs1 ++ cs2) = output fd cs1 ++ output fd cs2.
Proof. unfold output. by rewrite fmap_app, concat_app. Qed.

(** The answers to the reads of a file that arrives in [chunks]. *)
Definition reads (chunks : list (list Z)) : list (Z * list Z) := (fun d => (Z.of_nat (length d), d)) <$> chunks.
Definition chunk_ok (d : list Z) : Prop := d <> [] /\ (length d <= 512)%nat.

(** The answers to reads and writes of a copy that goes well. *)
Definition copies (chunks : list (list Z)) : list (Z * list Z) :=
  concat ((fun d => [(Z.of_nat (length d), d); (Z.of_nat (length d), [])]) <$> chunks).

Lemma cat_loop_copies chunks fuel fd rest cs :
  Forall chunk_ok chunks -> (length chunks < fuel)%nat ->
  exists cs', cat_loop fuel fd (mkWorld (copies chunks ++ (0, []) :: rest) cs) = Done () (mkWorld rest (cs ++ cs')) /\
    output 1 cs' = concat chunks.
Proof.
  intros Hok. revert fuel cs. induction Hok as [|d chunks [Hne _] Hok IH]; intros fuel cs Hf; (destruct fuel as [|fuel]; [cbn in Hf; lia|]).
  - exists [Read fd 512]. done.
  - destruct (IH fuel (cs ++ [Read fd 512; Write 1 d]) ltac:(cbn in Hf; lia)) as (cs' & IH1 & IH2).
    exists ([Read fd 512; Write 1 d] ++ cs'). split.
    + cbn [cat_loop copies fmap list_fmap concat app]. do 2 ustep.
      rewrite (proj2 (Z.ltb_lt 0 _)) by (destruct d; [done|cbn; lia]).
      rewrite Nat2Z.id, firstn_all. do 2 ustep. rewrite Z.eqb_refl. cbn [negb].
      rewrite <- !app_assoc in *. exact IH1.
    + rewrite output_app, IH2. cbn. by rewrite app_nil_r.
Qed.

(** [cat] copies its input: whatever pieces the reads return, if every write
    takes what it is given then [cat] ends at the end of the file and has
    written exactly the bytes it has read, in order. *)
Theorem cat_copies chunks fd rest :
  Forall chunk_ok chunks ->
  exists cs, cat fd (mkWorld (copies chunks ++ (0, []) :: rest) []) = Done () (mkWorld rest cs) /\ output 1 cs = concat chunks.
Proof.
  intros Hok. unfold cat, repeat, rounds. cbn [answers].
  apply (cat_loop_copies chunks _ fd rest []); [done|]. rewrite length_app. cbn [length].
  assert (length chunks <= length (copies chunks))%nat; [|lia].
  clear. unfold copies. induction chunks as [|d chunks IH]; cbn; lia.
Qed.

Lemma cat_copies_witness :
  exists cs, cat 3 (mkWorld (copies [str "hello "; str "world"] ++ (0, []) :: []) []) = Done () (mkWorld [] cs) /\
    output 1 cs = str "hello world".
Proof. apply (cat_copies [str "hello "; str "world"] 3 []). repeat constructor; (discriminate || (cbn; lia)). Defined.

(** ** What grep prints *)







(** ** What wc counts *)

(** The pieces between blanks, and the ones that are not empty. *)
Definition is_blank (b : Z) : bool := bool_decide (b ∈ blanks).
Fixpoint pieces (l : list Z) : list (list Z) :=
  match l with
  | [] => [[]]
  | b :: l => if is_blank b then [] :: pieces l
              else match pieces l with p :: ps => (b :: p) :: ps | [] => [[b]] end
  end.
Definition words (l : list Z) : list (list Z) := filter (fun p => p <> []) (pieces l).

(** The words that start in [l], when a word is in progress before it or not. *)
Fixpoint starts (l : list Z) (inword : bool) : nat :=
  match l with
  | [] => 0
  | b :: l => if is_blank b then starts l false else ((if inword then 0 else 1) + starts l true)%nat
  end.

Lemma pieces_cons l : exists p ps, pieces l = p :: ps.
Proof. destruct l as [|b l]; cbn; [eauto|]. destruct (is_blank b); [eauto|]. destruct (pieces l); eauto. Qed.

Lemma starts_words l :
  starts l false = length (words l) /\ starts l true = length (filter (fun p => p <> []) (tail (pieces l))).
Proof.
  unfold words. induction l as [|b l [IH1 IH2]]; cbn [starts pieces tail].
  - split; [|done]. by rewrite filter_cons_False by naive_solver.
  - destruct (is_blank b) eqn:E; [rewrite IH1; split; [by rewrite filter_cons_False by naive_solver|done]|].
    destruct (pieces_cons l) as (p & ps & Hp). rewrite Hp in *. cbn [tail] in *. rewrite IH2. split; [|done].
    by rewrite filter_cons_True by done.
Qed.

Lemma strchr_blank b : strchr (blanks ++ [0]) b = None <-> is_blank b = false.
Proof. unfold is_blank. rewrite bool_decide_eq_false. apply strchr_elem. unfold blanks. set_solver. Qed.

(** The newlines. *)
Definition newlines (l : list Z) : nat := length (filter (fun b => b = 10) l).

Lemma wc_bytes_spec l k :
  0 <= n_l k -> 0 <= n_w k -> 0 <= n_c k ->
  n_l k + Z.of_nat (length l) < 2 ^ 31 -> n_w k + Z.of_nat (length l) < 2 ^ 31 -> n_c k + Z.of_nat (length l) < 2 ^ 31 ->
  let k' := wc_bytes l k in
  n_l k' = n_l k + Z.of_nat (newlines l) /\ n_w k' = n_w k + Z.of_nat (starts l (inword k)) /\
  n_c k' = n_c k + Z.of_nat (length l).
Proof.
  revert k. induction l as [|b l IH]; intros k H1 H2 H3 H4 H5 H6; cbn [wc_bytes].
  { cbn. split_and!; lia. }
  set (k1 := match strchr (blanks ++ [0]) b with Some _ => _ | None => _ end).
  assert (n_l k1 = n_l k + Z.of_nat (newlines [b]) /\ n_w k1 = n_w k + Z.of_nat (starts [b] (inword k)) /\
    n_c k1 = n_c k + 1 /\ inword k1 = negb (is_blank b)) as (E1 & E2 & E3 & E4).
  { assert (n_l k + Z.of_nat (newlines [b]) = if b =? 10 then s32 (n_l k + 1) else n_l k) as ->.
    { unfold newlines. destruct (Z.eqb_spec b 10); [rewrite filter_cons_True by done|rewrite filter_cons_False by done]; cbn [length] in *;
        [rewrite s32_id by lia; cbn; lia|cbn; lia]. }
    subst k1. cbn [length] in *. rewrite (s32_id (n_c k + 1)) by lia. cbn [starts].
    destruct (strchr (blanks ++ [0]) b) eqn:E.
    - destruct (is_blank b) eqn:Eb; [|by apply strchr_blank in Eb; congruence]. split_and!; [done|cbn; lia|done|reflexivity].
    - apply strchr_blank in E. rewrite E. destruct (inword k); cbn [negb]; split_and!; try done; cbn; [lia|]. rewrite s32_id by lia. lia. }
  assert (newlines (b :: l) = newlines [b] + newlines l)%nat as Hn.
  { unfold newlines. rewrite <- length_app, <- filter_app. done. }
  assert (starts (b :: l) (inword k) = starts [b] (inword k) + starts l (negb (is_blank b)))%nat as Hs.
  { cbn. destruct (is_blank b); cbn; lia. }
  assert (newlines [b] <= 1)%nat by (unfold newlines; destruct (decide (b = 10)); [rewrite filter_cons_True by done|rewrite filter_cons_False by done]; cbn; lia).
  assert (starts [b] (inword k) <= 1)%nat by (cbn; destruct (is_blank b), (inword k); lia).
  cbn [length] in *. destruct (IH k1) as (I1 & I2 & I3); [lia..|]. rewrite E4 in I2. cbv zeta. rewrite I1, I2, I3, Hn, Hs. split_and!; lia.
Qed.

Lemma putcs_run fd out rest cs :
  putcs fd out (mkWorld (((fun _ => (1, [])) <$> out) ++ rest) cs) =
  Done () (mkWorld rest (cs ++ ((fun c => Write fd [c]) <$> out))).
Proof.
  revert cs. induction out as [|c out IH]; intros cs; cbn; [by rewrite app_nil_r|].
  do 2 ustep. rewrite IH. by rewrite <- app_assoc.
Qed.

Lemma output_putcs fd out : output fd ((fun c => Write fd [c]) <$> out) = out.
Proof. unfold output. induction out as [|c out IH]; cbn; [done|]. rewrite Z.eqb_refl. cbn. by rewrite IH. Qed.

Lemma fprintf_printed fd fmt args : fprintf fd fmt args = putcs fd (printed fmt args).
Proof. unfold fprintf, printed, printf. by destruct (printf_loop_total (arg_str args) (arg_word args) fmt false 0 []) as [out ->]. Qed.

(** A program that only writes [out] to the standard output. *)
Definition prints (p : U unit) (out : list Z) : Prop := forall rest cs,
  p (mkWorld (((fun _ => (1, [])) <$> out) ++ rest) cs) = Done () (mkWorld rest (cs ++ ((fun c => Write 1 [c]) <$> out))).

Lemma prints_fprintf fmt args : prints (fprintf 1 fmt args) (printed fmt args).
Proof. intros rest cs. rewrite fprintf_printed. apply putcs_run. Qed.

Lemma prints_nothing : prints (mret ()) [].
Proof. intros rest cs. cbn. by rewrite app_nil_r. Qed.

Lemma prints_then p q o o' : prints p o -> prints q o' -> prints (p;; q) (o ++ o').
Proof. intros Hp Hq rest cs. rewrite !fmap_app, <- app_assoc, ubind, Hp. by rewrite Hq, <- app_assoc. Qed.

Lemma wc_loop_counts chunks fuel fd rest cs k :
  Forall chunk_ok chunks -> (length chunks < fuel)%nat ->
  exists cs', wc_loop fuel fd k (mkWorld (reads chunks ++ (0, []) :: rest) cs) = Done (wc_bytes (concat chunks) k) (mkWorld rest (cs ++ cs')) /\
    output 1 cs' = [].
Proof.
  intros Hok. revert fuel cs k. induction Hok as [|d chunks [Hne _] Hok IH]; intros fuel cs k Hf; (destruct fuel as [|fuel]; [cbn in Hf; lia|]).
  - by exists [Read fd 512].
  - destruct (IH fuel (cs ++ [Read fd 512]) (wc_bytes d k) ltac:(cbn in Hf; lia)) as (cs' & IH1 & IH2).
    exists (Read fd 512 :: cs'). split; [|done]. cbn [wc_loop reads fmap list_fmap app]. do 2 ustep.
    rewrite (proj2 (Z.ltb_lt 0 _)) by (destruct d; [done|cbn; lia]). rewrite Nat2Z.id, firstn_all.
    unfold reads in IH1. rewrite IH1. rewrite <- app_assoc. f_equal. clear. cbn.
    generalize (concat chunks). intros l. revert k. induction d as [|b d IHd]; intros k; cbn; [done|]. apply IHd.
Qed.

(** The line [wc] prints. *)
Definition wc_text (l : list Z) (name : list Z) : list Z :=
  let args := [UInt (Z.of_nat (newlines l)); UInt (Z.of_nat (length (words l))); UInt (Z.of_nat (length l)); UStr name] in
  expand (arg_str args) (arg_word args) [Dec; Lit 32; Dec; Lit 32; Dec; Lit 32; Str; Lit 10] 0.

(** [wc] prints the numbers of newlines, of words (maximal runs of
    characters that are not blanks) and of bytes of its input, whatever pieces
    the reads return. *)
Theorem wc_counts chunks fd name rest :
  Forall chunk_ok chunks -> Z.of_nat (length (concat chunks)) < 2 ^ 31 ->
  let out := wc_text (concat chunks) name in
  exists cs, wc fd name (mkWorld (reads chunks ++ (0, []) :: ((fun _ => (1, [])) <$> out) ++ rest) []) = Done () (mkWorld rest cs) /\
    output 1 cs = out.
Proof.
  intros Hok Hlen out. unfold wc. rewrite ubind. unfold repeat, rounds. cbn [answers].
  destruct (wc_loop_counts chunks (S (length (reads chunks ++ (0, []) :: ((fun _ => (1, [])) <$> out) ++ rest))) fd
    (((fun _ => (1, [])) <$> out) ++ rest) [] (mkCounts 0 0 0 false) Hok) as (cs & Hr & Ho); [unfold reads; len|]. rewrite Hr.
  destruct (wc_bytes_spec (concat chunks) (mkCounts 0 0 0 false)) as (E1 & E2 & E3); [cbn; lia..|].
  cbn [n_l n_w n_c inword] in *. rewrite E1, E2, E3, (proj1 (starts_words _)), !Z.add_0_l.
  exists (cs ++ ((fun c => Write 1 [c]) <$> out)). split; [|by rewrite output_app, Ho, output_putcs].
  unfold fprintf. change (line "%d %d %d %s") with (concat (render <$> [Dec; Lit 32; Dec; Lit 32; Dec; Lit 32; Str; Lit 10])).
  rewrite (printf_spec _ _ [Dec; Lit 32; Dec; Lit 32; Dec; Lit 32; Str; Lit 10]); [|repeat constructor; cbn; lia].
  unfold out, wc_text. cbv zeta. cbn [app]. apply putcs_run.
Qed.

Lemma wc_counts_witness :
  let chunks := [str "two wo"; str "rds" ++ [10]] in
  exists cs, wc 3 (str "f") (mkWorld (reads chunks ++ (0, []) :: ((fun _ => (1, [])) <$> wc_text (concat chunks) (str "f")) ++ []) []) =
      Done () (mkWorld [] cs) /\ output 1 cs = str "1 2 10 f" ++ [10].
Proof. apply (wc_counts [str "two wo"; str "rds" ++ [10]] 3 (str "f") []); [repeat constructor; (discriminate || (cbn; lia))|cbn; lia]. Defined.
