(* ===== verification/Twoprocs.v ===== *)
(** * A program and its child over the mailboxes

    A program as the tree of its system calls, and the runs of a process and
    the child it forks, in any interleaving.  A step is a system call that runs
    to its end; a call of [ksend] or [krecv] is the kernel's code of the file
    Mailbox, and one that would sleep has no step until the mailbox changes.
    Which calls of [fork] succeed, and the ids of the children, are given.
    The runs are confluent when no two processes send to, or receive from, the
    same mailbox: one complete run then tells the end of all of them. *)

From Stdlib Require Import ZArith Lia String.
From stdpp Require Import prelude numbers option strings list relations.
From S2P Require Import Prelude Kernel Sched Mailbox Ulib Printf Programs.

(** ** Programs *)

Inductive prog (A : Type) : Type :=
  | PRet (a : A)
  | PExit
  | PRuns
  | PCall (c : syscall) (k : Z * list Z -> prog A).
Arguments PRet {A} _.
Arguments PExit {A}.
Arguments PRuns {A}.
Arguments PCall {A} _ _.

#[export] Instance prog_ret : MRet prog := fun A a => PRet a.
#[export] Instance prog_bind : MBind prog := fun A B f =>
  fix bind p :=
  match p with
  | PRet a => f a
  | PExit => PExit
  | PRuns => PRuns
  | PCall c k => PCall c (fun r => bind (k r))
  end.

Definition psys (c : syscall) : prog (Z * list Z) := PCall c PRet.
Definition pcall (c : syscall) : prog Z := PCall c (fun r => PRet (fst r)).

(** [putc] for each character, as in [putcs] and [fprintf]. *)
Fixpoint pputcs (fd : Z) (out : list Z) : prog unit :=
  match out with
  | [] => mret ()
  | c :: out => _ ← pcall (Write fd [c]); pputcs fd out
  end.

Definition pprintf (fd : Z) (fmt : list Z) (args : list uarg) : prog unit :=
  match printf (arg_str args) (arg_word args) fmt with
  | Some out => pputcs fd out
  | None => PRuns
  end.

(** [for(i = 0; i < n; i++)], with the variables the body changes. *)
Fixpoint times {A} (n : nat) (i : Z) (body : Z -> A -> prog A) (a : A) : prog A :=
  match n with
  | O => mret a
  | S n => a ← body i a; times n (i + 1) body a
  end.

(** ** The kernel's side *)

(** A call of [ksend] or [krecv] that runs to its end: the answer and the
    mailboxes.  The process table matters only to who is woken. *)
Definition caller : pstate := set_cpu_proc (Some 0%nat) (set_procs (set_state RUNNING proc0 :: replicate 63 proc0) pstate0).

Definition finish (cl : Mailbox.call) (mbs : list mailbox) : option ((Z * list Z) * list mailbox) :=
  match start cl [] (mkMstate mbs caller) with
  | Ret r _ s => Some (r, mailboxes s)
  | _ => None
  end.

(** The state of a process, of the child it has, and of the mailboxes; what
    each has written, last byte first; the outcomes of the calls of [fork] to
    come, the id of the new process or nothing when there is no slot or no
    memory for it; and the id of the last child. *)
Record duo : Type := mkDuo {
  d_forks : list (option positive);
  d_pid : positive;
  d_parent : prog unit;
  d_child : option (prog unit);
  d_mail : list mailbox;
  d_pout : list Z;
  d_cout : list Z }.

Section duo.
(** The answers of the calls that concern the caller only; a child's [getpid] is its id. *)
Context (parent_loc child_loc : syscall -> Z * list Z).

Definition child_answer (pid : positive) (c : syscall) : Z * list Z :=
  match c with Getpid => (Zpos pid, []) | c => child_loc c end.

(** A call that the mailboxes and the other process have no part in. *)
Definition local_call (c : syscall) : bool := match c with Write _ _ | Sleep _ | Getpid => true | _ => false end.
Definition wrote (c : syscall) (out : list Z) : list Z := match c with Write _ d => rev d ++ out | _ => out end.
Definition mail_call (c : syscall) : option Mailbox.call :=
  match c with Ksend ch d n => Some (Send ch d n) | Krecv ch n => Some (Recv ch n) | _ => None end.

(** The next call of the parent. *)
Definition parent_step (s : duo) : option duo :=
  let '(mkDuo fk pid p ch mbs po co) := s in
  match p with
  | PCall Fork k =>
      match ch with
      | None =>
          match fk with
          | Some q :: fk => Some (mkDuo fk q (k (Zpos q, [])) (Some (k (0, []))) mbs po co)
          | _ => Some (mkDuo (tail fk) pid (k (-1, [])) None mbs po co)
          end
      | Some _ => None
      end
  | PCall Wait k =>
      match ch with
      | None => Some (mkDuo fk pid (k (-1, [])) None mbs po co)
      | Some PExit => Some (mkDuo fk pid (k (Zpos pid, [])) None mbs po co)
      | Some _ => None
      end
  | PCall c k =>
      if local_call c then Some (mkDuo fk pid (k (parent_loc c)) ch mbs (wrote c po) co)
      else
        cl ← mail_call c;
        '(r, mbs) ← finish cl mbs;
        Some (mkDuo fk pid (k r) ch mbs po co)
  | _ => None
  end.

(** The next call of the child. *)
Definition child_step (s : duo) : option duo :=
  let '(mkDuo fk pid p ch mbs po co) := s in
  match ch with
  | Some (PCall c k) =>
      if local_call c then Some (mkDuo fk pid p (Some (k (child_answer pid c))) mbs po (wrote c co))
      else
        cl ← mail_call c;
        '(r, mbs) ← finish cl mbs;
        Some (mkDuo fk pid p (Some (k r)) mbs po co)
  | _ => None
  end.

(** Either process makes its next call. *)
Inductive duo_step : duo -> duo -> Prop :=
  | duo_parent s s' : parent_step s = Some s' -> duo_step s s'
  | duo_child s s' : child_step s = Some s' -> duo_step s s'.

(** One schedule: the child runs when it can. *)
Definition duo_next (s : duo) : option duo :=
  match child_step s with Some s' => Some s' | None => parent_step s end.
Fixpoint duo_run (n : nat) (s : duo) : nat * duo :=
  match n with
  | O => (O, s)
  | S n => match duo_next s with
           | Some s' => let '(k, f) := duo_run n s' in (S k, f)
           | None => (O, s)
           end
  end.

(** ** Calls that do not interfere *)

(** The mailboxes a side sends to and receives from. *)
Definition within (sends recvs : list Z) (c : syscall) : Prop :=
  match c with
  | Ksend ch _ _ => ch ∈ sends \/ ch < 0 \/ 16 <= ch
  | Krecv ch _ => ch ∈ recvs \/ ch < 0 \/ 16 <= ch
  | _ => True
  end.

(** Every call the child may make; [Q] of what it returns. *)
Fixpoint child_ok {A} (sends recvs : list Z) (p : prog A) (Q : A -> Prop) : Prop :=
  match p with
  | PRet a => Q a
  | PCall c k => within sends recvs c /\ forall r, child_ok sends recvs (k r) Q
  | _ => True
  end.

(** Every call the parent may make, with children that keep to their side and do not return. *)
Fixpoint parent_ok {A} (sends recvs : list Z) (p : prog A) (Q : A -> Prop) : Prop :=
  match p with
  | PRet a => Q a
  | PCall c k =>
      within sends recvs c /\
      forall r, match c with
                | Fork => if fst r =? 0 then child_ok recvs sends (k r) (fun _ => False) else parent_ok sends recvs (k r) Q
                | _ => parent_ok sends recvs (k r) Q
                end
  | _ => True
  end.

(** What a valid call does to its mailbox. *)
Definition effect (cl : Mailbox.call) (mb : mailbox) : option ((Z * list Z) * mailbox) :=
  match cl with
  | Send _ buf len =>
      if full mb =? 0 then Some ((0, []), mkMailbox (overwrite (take (Z.to_nat len) buf) (msg mb)) len 1) else None
  | Recv _ n =>
      if full mb =? 0 then None
      else Some ((Z.min n (msglen mb), take (Z.to_nat (Z.min n (msglen mb))) (msg mb)), mkMailbox (msg mb) 0 0)
  end.

Lemma finish_loop cl mbs : let c := Z.to_nat (call_chan cl) in
  match loop cl [LMailbox c] (mkMstate mbs caller) with Ret r _ s => Some (r, mailboxes s) | _ => None end =
  ('(r, mb) ← effect cl (default mailbox0 (mbs !! c)); Some (r, <[c := mb]> mbs)).
Proof.
  destruct cl as [ch buf len|ch n]; cbn [loop call_chan effect]; [rewrite bind_unfold; unfold ksend_loop|unfold krecv_loop];
    rewrite bind_unfold; unfold get_mb; rewrite gets_run; cbv beta iota; cbn [mailboxes]; destruct (full _ =? 0); cbn [negb];
    try (rewrite (sleep_run _ _ _ 0%nat (set_state RUNNING proc0)) by done; done); unfold set_mb; ksteps.
  { done. }
  cbn. destruct (Z.ltb_spec n (msglen (default mailbox0 (mbs !! Z.to_nat ch)))); by rewrite ?Z.min_l, ?Z.min_r by lia.
Qed.

Lemma finish_cases cl :
  (forall mbs, finish cl mbs = Some ((-1, []), mbs)) \/
  (0 <= call_chan cl < 16 /\ forall mbs, let c := Z.to_nat (call_chan cl) in
     finish cl mbs = ('(r, mb) ← effect cl (default mailbox0 (mbs !! c)); Some (r, <[c := mb]> mbs))).
Proof.
  destruct cl as [ch buf len|ch n]; unfold finish; cbn [start call_chan]; unfold ksend, krecv, NUM_MAILBOXES, MAILBOX_MSGSIZE;
    (destruct (Z.ltb_spec ch 0); [by left|]); (destruct (Z.leb_spec 16 ch); [by left|]);
    [destruct (Z.leb_spec len 0); [by left|]; destruct (Z.ltb_spec 128 len); [by left|]|destruct (Z.leb_spec n 0); [by left|]];
    right; (split; [done|]); intros mbs.
  - rewrite <- (finish_loop (Send ch buf len)). cbn [orb]. by rewrite !bind_unfold, acquire_free by set_solver.
  - rewrite <- (finish_loop (Recv ch n)). cbn [orb]. by rewrite !bind_unfold, acquire_free by set_solver.
Qed.

(** Two calls do not interfere unless both send to, or both receive from, one mailbox. *)
Definition apart (cl1 cl2 : Mailbox.call) : Prop :=
  match cl1, cl2 with
  | Send c1 _ _, Send c2 _ _ | Recv c1 _, Recv c2 _ => c1 <> c2 \/ c1 < 0 \/ 16 <= c1
  | _, _ => True
  end.

Lemma finish_commute cl1 cl2 mbs r1 m1 r2 m2 : apart cl1 cl2 ->
  finish cl1 mbs = Some (r1, m1) -> finish cl2 mbs = Some (r2, m2) ->
  exists m, finish cl2 m1 = Some (r2, m) /\ finish cl1 m2 = Some (r1, m).
Proof.
  intros Ha F1 F2. destruct (finish_cases cl1) as [B1|[C1 E1]].
  { rewrite B1 in F1. simplify_eq. exists m2. by rewrite B1. }
  destruct (finish_cases cl2) as [B2|[C2 E2]].
  { rewrite B2 in F2. simplify_eq. exists m1. by rewrite B2. }
  cbv zeta in E1, E2. rewrite E1 in F1. rewrite E2 in F2.
  destruct (effect cl1 _) as [[q1 mb1]|] eqn:G1; [|done]. destruct (effect cl2 _) as [[q2 mb2]|] eqn:G2; [|done].
  cbn in F1, F2. simplify_eq.
  destruct (decide (Z.to_nat (call_chan cl1) = Z.to_nat (call_chan cl2))) as [E|E].
  { exfalso. rewrite E in G1. destruct cl1, cl2; cbn in *; (lia || by destruct (full _ =? 0)). }
  exists (<[Z.to_nat (call_chan cl2) := mb2]> (<[Z.to_nat (call_chan cl1) := mb1]> mbs)).
  rewrite E1, E2, !list_lookup_insert_ne, G1, G2 by done. split; [done|]. cbn. by rewrite list_insert_insert_ne.
Qed.

Definition duo_ok (sends recvs : list Z) (s : duo) : Prop :=
  parent_ok sends recvs (d_parent s) (fun _ => True) /\ from_option (fun p => child_ok recvs sends p (fun _ => False)) True (d_child s).

Lemma within_apart sends recvs c1 c2 cl1 cl2 : sends ## recvs -> within sends recvs c1 -> within recvs sends c2 ->
  mail_call c1 = Some cl1 -> mail_call c2 = Some cl2 -> apart cl1 cl2.
Proof. intros Hd W1 W2 M1 M2. destruct c1, c2; cbn in *; simplify_eq; cbn; try done; destruct (decide (chan = chan0)) as [->|]; set_solver. Qed.

(** A step of the parent by its kind: it forks, it waits, or it makes a call of its own. *)
Lemma parent_step_cases fk pid p ch mbs po co s' : parent_step (mkDuo fk pid p ch mbs po co) = Some s' ->
  (exists k q fk', p = PCall Fork k /\ ch = None /\ s' = mkDuo fk' q (k (Zpos q, [])) (Some (k (0, []))) mbs po co) \/
  (exists k fk', p = PCall Fork k /\ ch = None /\ s' = mkDuo fk' pid (k (-1, [])) None mbs po co) \/
  (exists k r, p = PCall Wait k /\ (ch = None \/ ch = Some PExit) /\ s' = mkDuo fk pid (k r) None mbs po co) \/
  (exists c k, p = PCall c k /\ c <> Fork /\ local_call c = true /\ s' = mkDuo fk pid (k (parent_loc c)) ch mbs (wrote c po) co) \/
  (exists c k cl r mbs', p = PCall c k /\ c <> Fork /\ mail_call c = Some cl /\ finish cl mbs = Some (r, mbs') /\ s' = mkDuo fk pid (k r) ch mbs' po co).
Proof.
  destruct p as [| | |c k]; try done. intros H.
  destruct c; cbn in H; try done; try (injection H as <-; do 3 right; left; by eexists _, _).
  - destruct ch; [done|]. destruct fk as [|[q|] fk]; injection H as <-; [right; left|left|right; left]; by repeat eexists.
  - destruct ch as [[]|]; try done; injection H as <-; do 2 right; left; eexists _, _; split_and!; eauto.
  - destruct (finish _ _) as [[r mbs']|] eqn:F; [|done]. injection H as <-. do 4 right. by eexists _, _, _, _, _.
  - destruct (finish _ _) as [[r mbs']|] eqn:F; [|done]. injection H as <-. do 4 right. by eexists _, _, _, _, _.
Qed.

Lemma child_step_cases fk pid p ch mbs po co s' : child_step (mkDuo fk pid p ch mbs po co) = Some s' ->
  (exists c k, ch = Some (PCall c k) /\ local_call c = true /\ s' = mkDuo fk pid p (Some (k (child_answer pid c))) mbs po (wrote c co)) \/
  (exists c k cl r mbs', ch = Some (PCall c k) /\ local_call c = false /\ mail_call c = Some cl /\ finish cl mbs = Some (r, mbs') /\
    s' = mkDuo fk pid p (Some (k r)) mbs' po co).
Proof.
  destruct ch as [[| | |c k]|]; try done. intros H.
  destruct c; cbn in H; try done; try (injection H as <-; left; by eexists _, _).
  all: destruct (finish _ _) as [[r mbs']|] eqn:F; [|done]; injection H as <-; right; by eexists _, _, _, _, _.
Qed.

Lemma parent_local fk pid c k ch mbs po co : local_call c = true ->
  parent_step (mkDuo fk pid (PCall c k) ch mbs po co) = Some (mkDuo fk pid (k (parent_loc c)) ch mbs (wrote c po) co).
Proof. by destruct c. Qed.

Lemma parent_mail fk pid c k cl r ch mbs mbs' po co : mail_call c = Some cl -> finish cl mbs = Some (r, mbs') ->
  parent_step (mkDuo fk pid (PCall c k) ch mbs po co) = Some (mkDuo fk pid (k r) ch mbs' po co).
Proof. intros M F. destruct c; try done; cbn in *; simplify_eq; by rewrite F. Qed.

Lemma child_local fk pid p c k mbs po co : local_call c = true ->
  child_step (mkDuo fk pid p (Some (PCall c k)) mbs po co) = Some (mkDuo fk pid p (Some (k (child_answer pid c))) mbs po (wrote c co)).
Proof. by destruct c. Qed.

Lemma child_mail fk pid p c k cl r mbs mbs' po co : mail_call c = Some cl -> finish cl mbs = Some (r, mbs') ->
  child_step (mkDuo fk pid p (Some (PCall c k)) mbs po co) = Some (mkDuo fk pid p (Some (k r)) mbs' po co).
Proof. intros M F. destruct c; try done; cbn in *; simplify_eq; by rewrite F. Qed.

(** A step of each process can be followed by the step of the other, to the same state. *)
Lemma duo_diamond sends recvs s s1 s2 : sends ## recvs -> duo_ok sends recvs s ->
  parent_step s = Some s1 -> child_step s = Some s2 ->
  exists t, child_step s1 = Some t /\ parent_step s2 = Some t.
Proof.
  intros Hd [Hp Hc] H1 H2. destruct s as [fk pid p ch mbs po co]. cbn in Hp, Hc.
  apply child_step_cases in H2 as [(c2 & k2 & -> & L2 & ->)|(c2 & k2 & cl2 & r2 & m2 & -> & L2 & M2 & F2 & ->)];
    apply parent_step_cases in H1 as [(k1 & q1 & fk1 & -> & ? & ->)|[(k1 & fk1 & -> & ? & ->)|[(k1 & r1 & -> & [?|?] & ->)|[(c1 & k1 & -> & _ & L1 & ->)|(c1 & k1 & cl1 & r1 & m1 & -> & _ & M1 & F1 & ->)]]]]; try done.
  - eexists. split; [by apply child_local|by apply parent_local].
  - eexists. split; [by apply child_local|by apply (parent_mail _ _ _ _ cl1)].
  - eexists. split; [by apply (child_mail _ _ _ _ _ cl2)|by apply parent_local].
  - destruct (finish_commute cl1 cl2 mbs r1 m1 r2 m2) as (m & G2 & G1); [|done..|].
    { apply (within_apart sends recvs c1 c2); naive_solver. }
    eexists. split; [by apply (child_mail _ _ _ _ _ cl2)|by apply (parent_mail _ _ _ _ cl1)].
Qed.

Lemma duo_step_ok sends recvs s s' : duo_ok sends recvs s -> duo_step s s' -> duo_ok sends recvs s'.
Proof.
  intros Hok Hs. revert Hok. destruct Hs as [[fk pid p ch mbs po co] t H|[fk pid p ch mbs po co] t H]; intros [Hp Hc]; cbn in Hp, Hc.
  - apply parent_step_cases in H as [(k & q & fk' & -> & -> & ->)|[(k & fk' & -> & -> & ->)|[(k & r & -> & _ & ->)|[(c & k & -> & Hf & _ & ->)|(c & k & cl & r & m & -> & Hf & _ & _ & ->)]]]];
      destruct Hp as [_ Hp]; cbn beta iota in Hp.
    + split; [exact (Hp (Zpos q, []))|exact (Hp (0, []))].
    + split; [exact (Hp (-1, []))|done].
    + split; [exact (Hp r)|done].
    + specialize (Hp (parent_loc c)). by destruct c.
    + specialize (Hp r). by destruct c.
  - apply child_step_cases in H as [(c & k & -> & _ & ->)|(c & k & cl & r & m & -> & _ & _ & _ & ->)]; (split; [done|apply Hc]).
Qed.

(** The steps of a run that reaches a state with no step lead there in any order. *)
Lemma duo_confluent sends recvs n : sends ## recvs -> forall s s' f, duo_ok sends recvs s -> nsteps duo_step n s f ->
  nf duo_step f -> duo_step s s' -> exists m, n = S m /\ nsteps duo_step m s' f.
Proof.
  intros Hd. induction n as [|n IH]; intros s s' f Hok Hn Hf Hs.
  { inversion Hn; subst. destruct (Hf (ex_intro _ s' Hs)). }
  exists n. split; [done|]. inversion Hn as [|? ? t ? Ht Hrest]; subst.
  assert (forall u, duo_step t u -> duo_step s' u -> nsteps duo_step n s' f) as Hjoin.
  { intros u Htu Hsu. destruct (IH t u f) as (m & -> & Hm); [by eapply duo_step_ok|done..|]. by eapply nsteps_l. }
  destruct Ht as [? t Ht|? t Ht], Hs as [? s' Hs|? s' Hs]; simplify_eq; try done.
  - destruct (duo_diamond sends recvs _ t s' Hd Hok Ht Hs) as (u & U1 & U2). apply (Hjoin u); [by apply duo_child|by apply duo_parent].
  - destruct (duo_diamond sends recvs _ s' t Hd Hok Hs Ht) as (u & U1 & U2). apply (Hjoin u); [by apply duo_parent|by apply duo_child].
Qed.

(** Every run is a part of one that ends in [f], and all of these have the same length. *)
Lemma duo_determined sends recvs N s f : sends ## recvs -> duo_ok sends recvs s -> nsteps duo_step N s f -> nf duo_step f ->
  forall n t, nsteps duo_step n s t -> exists m, (n + m = N)%nat /\ nsteps duo_step m t f.
Proof.
  intros Hd Hok HN Hf n t Hn. revert N Hok HN. induction Hn as [s|n s u t Hsu _ IH]; intros N Hok HN; [by exists N|].
  destruct (duo_confluent sends recvs N Hd s u f) as (m & -> & Hm); [done..|].
  destruct (IH m) as (k & E & Hk); [by eapply duo_step_ok|done|]. exists k. split; [lia|done].
Qed.

Lemma gone_nf s : d_parent s = PExit -> d_child s = None -> nf duo_step s.
Proof. intros Hp Hc [s' H]. destruct s. cbn in *. subst. by inversion H. Qed.

(** The run of one schedule. *)
Lemma duo_run_steps n : forall s k f, duo_run n s = (k, f) -> nsteps duo_step k s f.
Proof.
  induction n as [|n IH]; intros s k f H; cbn in H; [simplify_eq; constructor|].
  destruct (duo_next s) as [s'|] eqn:E; [|simplify_eq; constructor].
  destruct (duo_run n s') as [k' f'] eqn:R. simplify_eq. eapply nsteps_l; [|by apply IH].
  unfold duo_next in E. destruct (child_step s) eqn:C; simplify_eq; [by apply duo_child|by apply duo_parent].
Qed.

(** A process that sleeps in [krecv] beside an empty mailbox, without a child, stays there. *)
Lemma asleep_nf s c n k : d_parent s = PCall (Krecv c n) k -> finish (Recv c n) (d_mail s) = None -> d_child s = None -> nf duo_step s.
Proof. intros Hp Hn Hc [s' H]. destruct s. cbn in *. subst. inversion H; subst; cbn in *; [by rewrite Hn in *|done]. Qed.

(** When the run of one schedule ends, every run does, in the same state. *)
Lemma duo_all_runs sends recvs N fuel s f : sends ## recvs -> duo_ok sends recvs s ->
  duo_run fuel s = (N, f) -> nf duo_step f ->
  forall n t, nsteps duo_step n s t -> ((n < N)%nat /\ exists t', duo_step t t') \/ (n = N /\ t = f).
Proof.
  intros Hd Hok Hrun Hf n t Hn. apply duo_run_steps in Hrun.
  destruct (duo_determined sends recvs N s f Hd Hok Hrun Hf n t Hn) as (m & E & Hm).
  destruct Hm as [|m t u f Htu _]; [right; split; [lia|done]|left]. split; [lia|]. by exists u.
Qed.
End duo.

(** ** Calls of composed programs *)

Lemma child_ok_bind {A B} sends recvs (p : prog A) (f : A -> prog B) Q :
  child_ok sends recvs p (fun a => child_ok sends recvs (f a) Q) -> child_ok sends recvs (p ≫= f) Q.
Proof. induction p as [| | |c k IH]; cbn; try done. intros [Hw Hk]. split; [done|]. intros r. apply IH, Hk. Qed.

Lemma child_ok_mono {A} sends recvs (p : prog A) (Q R : A -> Prop) : (forall a, Q a -> R a) -> child_ok sends recvs p Q -> child_ok sends recvs p R.
Proof. intros HQ. induction p as [| | |c k IH]; cbn; try done; [apply HQ|]. intros [Hw Hk]. split; [done|]. intros r. apply IH, Hk. Qed.

Lemma parent_ok_bind {A B} sends recvs (p : prog A) (f : A -> prog B) Q :
  parent_ok sends recvs p (fun a => parent_ok sends recvs (f a) Q) -> parent_ok sends recvs (p ≫= f) Q.
Proof.
  induction p as [| | |c k IH]; cbn; try done. intros [Hw Hk]. split; [done|]. intros r. specialize (Hk r).
  destruct c; try by apply IH. destruct (fst r =? 0); [|by apply IH].
  apply child_ok_bind. by apply (child_ok_mono _ _ _ (fun _ => False)).
Qed.

Lemma parent_ok_pure {A} sends recvs (p : prog A) Q : parent_ok sends recvs p (fun _ => True) -> (forall a, Q a) -> parent_ok sends recvs p Q.
Proof.
  intros Hp HQ. induction p as [| | |c k IH]; cbn in *; try done. destruct Hp as [Hw Hk]. split; [done|]. intros r.
  specialize (Hk r). destruct c; try by apply IH. destruct (fst r =? 0); [done|by apply IH].
Qed.

Lemma child_ok_printf sends recvs fd fmt args Q : Q tt -> child_ok sends recvs (pprintf fd fmt args) Q.
Proof. intros HQ. unfold pprintf. destruct (printf _ _ _) as [out|]; [|done]. by induction out. Qed.

Lemma parent_ok_printf sends recvs fd fmt args Q : Q tt -> parent_ok sends recvs (pprintf fd fmt args) Q.
Proof. intros HQ. unfold pprintf. destruct (printf _ _ _) as [out|]; [|done]. by induction out. Qed.

Lemma child_ok_times {A} sends recvs n body : (forall i a, child_ok sends recvs (body i a) (fun _ => True)) ->
  forall i (a : A) (Q : A -> Prop), (forall a, Q a) -> child_ok sends recvs (times n i body a) Q.
Proof.
  intros Hb. induction n as [|n IH]; intros i a Q HQ; cbn [times]; [apply HQ|]. apply child_ok_bind.
  eapply child_ok_mono; [|apply Hb]. intros. by apply IH.
Qed.

Lemma parent_ok_times {A} sends recvs n body : (forall i a, parent_ok sends recvs (body i a) (fun _ => True)) ->
  forall i (a : A) (Q : A -> Prop), (forall a, Q a) -> parent_ok sends recvs (times n i body a) Q.
Proof.
  intros Hb. induction n as [|n IH]; intros i a Q HQ; cbn [times]; [apply HQ|]. apply parent_ok_bind.
  apply parent_ok_pure; [apply Hb|]. intros. by apply IH.
Qed.

Lemma parent_ok_fork {A} sends recvs (child parent : Z -> prog A) Q :
  child_ok recvs sends (child 0) (fun _ => False) -> (forall pid, parent_ok sends recvs (parent pid) Q) ->
  parent_ok sends recvs (pid ← pcall Fork; if pid =? 0 then child pid else parent pid) Q.
Proof. intros Hc Hp. split; [done|]. intros r. cbn. destruct (Z.eqb_spec (fst r) 0) as [->|]; [done|apply Hp]. Qed.

Lemma parent_ok_call sends recvs c (Q : Z -> Prop) : within sends recvs c -> c <> Fork -> (forall z, Q z) -> parent_ok sends recvs (pcall c) Q.
Proof. intros Hw Hf HQ. split; [done|]. intros r. destruct c; try done; apply HQ. Qed.

(** Calls within the sides: through the program, call by call. *)
Ltac side_step :=
  match goal with
  | |- parent_ok _ _ (pprintf _ _ _) _ => apply parent_ok_printf
  | |- child_ok _ _ (pprintf _ _ _) _ => apply child_ok_printf
  | |- parent_ok _ _ (times _ _ _ _) _ => apply parent_ok_times; [intros ? ?|intros ?]
  | |- child_ok _ _ (times _ _ _ _) _ => apply child_ok_times; [intros ? ?|intros ?]
  | |- parent_ok _ _ (pcall Fork ≫= _) _ => apply parent_ok_fork; [|intros ?]
  | |- parent_ok _ _ (_ ≫= _) _ => apply parent_ok_bind
  | |- child_ok _ _ (_ ≫= _) _ => apply child_ok_bind
  | |- parent_ok _ _ _ _ => progress cbn [parent_ok psys pcall within fst mret prog_ret]
  | |- child_ok _ _ _ _ => progress cbn [child_ok psys pcall within fst mret prog_ret]
  | |- _ /\ _ => split
  | |- forall r : Z * list Z, _ => intros [? ?]
  | |- context [if ?b then _ else _] => destruct b
  | |- True => exact I
  | |- _ \/ _ => first [left; set_solver | right; lia]
  end.
