(* ===== verification/Mailtest.v ===== *)
(** * The mailbox test program (src/testmailbox.c)

    The six tests and [main], as trees of calls, run over the kernel's
    mailboxes with the children they fork.  [buf] is an array of the stack
    frame, with any bytes in it before the first [krecv].  The program does not
    look at a -1 from [fork]: it then waits for a message that no one sends. *)

From Stdlib Require Import ZArith Lia String.
From stdpp Require Import prelude numbers option strings list relations.
From S2P Require Import Prelude Kernel Sched Mailbox Ulib Printf Programs Twoprocs.

Definition MSGSIZE : Z := 128.

(** A string constant, and one that starts and ends with a newline. *)
Definition cstring (s : string) : list Z := str s ++ [0].
Definition banner (s : string) : list Z := 10 :: line s.

(** [krecv(ch, buf, sizeof(buf))]: the result and [buf] after the call. *)
Definition recv (ch : Z) (buf : list Z) : prog (Z * list Z) :=
  '(n, bytes) ← psys (Krecv ch MSGSIZE);
  mret (n, overwrite bytes buf).

(** [buf] on entry to each test. *)
Section testmailbox.
Context (frame : Z -> list Z).

Definition test1 : prog unit :=
  pprintf 1 (banner "[TEST 1] Basic send/receive") [];;
  pid ← pcall Fork;
  if pid =? 0 then
    let msg := cstring "Hello from child!" in
    pcall (Ksend 0 msg (strlen msg + 1));;
    PExit
  else
    '(n, buf) ← recv 0 (frame 1);
    pcall Wait;;
    if (0 <? n) && (strcmp buf (cstring "Hello from child!") =? 0)
    then pprintf 1 (line "  PASSED: got '%s'") [UStr buf]
    else pprintf 1 (line "  FAILED: unexpected result n=%d") [UInt n].

Definition test2 : prog unit :=
  pprintf 1 (banner "[TEST 2] Blocking recv (parent waits for child)") [];;
  pid ← pcall Fork;
  if pid =? 0 then
    pcall (Sleep 10);;
    pcall (Ksend 1 (cstring "delayed msg") 12);;
    PExit
  else
    '(n, buf) ← recv 1 (frame 2);
    pcall Wait;;
    if (n =? 12) && (strcmp buf (cstring "delayed msg") =? 0)
    then pprintf 1 (line "  PASSED: received after blocking") []
    else pprintf 1 (line "  FAILED: n=%d buf='%s'") [UInt n; UStr buf].

(** One channel of test 3: [buf] cleared, a message received and compared. *)
Definition expect (ch : Z) (want fmt : string) (buf : list Z) (ok : bool) : prog (list Z * bool) :=
  let buf := memset buf 0 (Z.to_nat MSGSIZE) in
  '(_, buf) ← recv ch buf;
  if negb (strcmp buf (cstring want) =? 0)
  then pprintf 1 (line fmt) [UStr buf];; mret (buf, false)
  else mret (buf, ok).

Definition test3 : prog unit :=
  pprintf 1 (banner "[TEST 3] Multiple channels (0, 1, 2)") [];;
  pid ← pcall Fork;
  if pid =? 0 then
    pcall (Ksend 0 (cstring "chan0") 6);;
    pcall (Ksend 1 (cstring "chan1") 6);;
    pcall (Ksend 2 (cstring "chan2") 6);;
    PExit
  else
    '(buf, ok) ← expect 0 "chan0" "  FAILED ch0: '%s'" (frame 3) true;
    '(buf, ok) ← expect 1 "chan1" "  FAILED ch1: '%s'" buf ok;
    '(_, ok) ← expect 2 "chan2" "  FAILED ch2: '%s'" buf ok;
    pcall Wait;;
    if ok : bool then pprintf 1 (line "  PASSED: all 3 channels received correctly") [] else mret ().

Definition test4 : prog unit :=
  pprintf 1 (banner "[TEST 4] Ping-pong (5 rounds)") [];;
  pid ← pcall Fork;
  if pid =? 0 then
    times 5 0 (fun _ _ =>
      pcall (Krecv 3 MSGSIZE);;
      pcall (Ksend 4 (cstring "pong") 5);;
      mret ()) ();;
    PExit
  else
    times 5 0 (fun _ _ =>
      pcall (Ksend 3 (cstring "ping") 5);;
      pcall (Krecv 4 MSGSIZE);;
      mret ()) ();;
    pcall Wait;;
    pprintf 1 (line "  PASSED: 5 ping-pong rounds completed") [].

(** A call of test 5, which is to fail. *)
Definition refused (c : syscall) (complaint : string) (ok : bool) : prog bool :=
  r ← pcall c;
  if negb (r =? -1) then pprintf 1 (line complaint) [];; mret false else mret ok.

Definition test5 : prog unit :=
  pprintf 1 (banner "[TEST 5] Invalid arguments") [];;
  ok ← refused (Ksend (-1) (cstring "x") 1) "  FAILED: ksend(-1) should return -1" true;
  ok ← refused (Krecv (-1) MSGSIZE) "  FAILED: krecv(-1) should return -1" ok;
  ok ← refused (Ksend 16 (cstring "x") 1) "  FAILED: ksend(16) should return -1" ok;
  ok ← refused (Krecv 16 MSGSIZE) "  FAILED: krecv(16) should return -1" ok;
  if ok : bool then pprintf 1 (line "  PASSED: all bad args returned -1") [] else mret ().

(** The loop over [buf] of test 6. *)
Definition all_A (buf : list Z) : bool := forallb (fun b => b =? 65) (take (Z.to_nat MSGSIZE) buf).

Definition test6 : prog unit :=
  pprintf 1 (banner "[TEST 6] Max-size message (%d bytes)") [UInt MSGSIZE];;
  pid ← pcall Fork;
  if pid =? 0 then
    let msg := replicate (Z.to_nat MSGSIZE) 65 in
    pcall (Ksend 5 msg MSGSIZE);;
    PExit
  else
    '(n, buf) ← recv 5 (frame 6);
    pcall Wait;;
    let ok := (n =? MSGSIZE) && all_A buf in
    if ok then pprintf 1 (line "  PASSED: received %d bytes, all correct") [UInt n]
    else pprintf 1 (line "  FAILED: n=%d or data mismatch") [UInt n].

Definition testmailbox_main : prog unit :=
  pprintf 1 (banner "=== MAILBOX IPC TEST SUITE ===") [];;
  test1;; test2;; test3;; test4;; test5;; test6;;
  pprintf 1 (banner "=== ALL TESTS DONE ===") [];;
  PExit.

(** ** The test passes *)

(** The parent sends to mailbox 3 and receives from 0, 1, 2, 4 and 5; its
    children the other way round. *)
Definition parent_sends : list Z := [3].
Definition parent_recvs : list Z := [0; 1; 2; 4; 5].

Lemma sides_disjoint : parent_sends ## parent_recvs.
Proof. clear frame. set_solver. Qed.

Local Abbreviation sided p := (parent_ok parent_sends parent_recvs p (fun _ => True)).

Ltac sided := unfold recv, parent_sends, parent_recvs; repeat side_step.

Lemma then_sided {A B} (p : prog A) (q : prog B) : sided p -> sided q -> sided (p;; q).
Proof. intros Hp Hq. apply parent_ok_bind. by apply parent_ok_pure. Qed.

Lemma test1_sided : sided test1. Proof. unfold test1. sided. Qed.
Lemma test2_sided : sided test2. Proof. unfold test2. sided. Qed.
Lemma test4_sided : sided test4. Proof. unfold test4. sided. Qed.
Lemma test6_sided : sided test6. Proof. unfold test6. sided. Qed.

Lemma expect_sided ch want fmt buf ok Q : ch ∈ parent_recvs -> (forall x, Q x) ->
  parent_ok parent_sends parent_recvs (expect ch want fmt buf ok) Q.
Proof. intros Hch HQ. apply parent_ok_pure; [|done]. unfold expect, recv. repeat side_step. Qed.

Lemma refused_sided c complaint ok Q : within parent_sends parent_recvs c -> c <> Fork -> (forall x, Q x) ->
  parent_ok parent_sends parent_recvs (refused c complaint ok) Q.
Proof.
  intros Hch Hf HQ. apply parent_ok_pure; [|done]. unfold refused. side_step. apply parent_ok_call; [done..|]. intros ?. sided.
Qed.

Lemma test3_sided : sided test3.
Proof.
  unfold test3. do 3 side_step; [sided|].
  do 3 (side_step; apply expect_sided; [set_solver|]; intros [? ?]). sided.
Qed.

Lemma test5_sided : sided test5.
Proof.
  unfold test5. do 2 side_step. do 4 (side_step; apply refused_sided; [cbn; lia|done|]; intros ?). sided.
Qed.

Lemma testmailbox_sided : sided testmailbox_main.
Proof.
  unfold testmailbox_main. do 2 side_step.
  apply then_sided; [exact test1_sided|].
  apply then_sided; [exact test2_sided|].
  apply then_sided; [exact test3_sided|].
  apply then_sided; [exact test4_sided|].
  apply then_sided; [exact test5_sided|].
  apply then_sided; [exact test6_sided|].
  sided.
Qed.

(** The first [n] calls of [fork] succeed; the program makes five. *)
Fixpoint all_forked (n : nat) (forks : list (option positive)) : bool :=
  match n, forks with
  | O, _ => true
  | S n, Some _ :: forks => all_forked n forks
  | S _, _ => false
  end.
Definition served (forks : list (option positive)) : bool := all_forked 5 forks.

Definition duo_start (forks : list (option positive)) (pid : positive) : duo := mkDuo forks pid testmailbox_main None (mailboxes (kstate (initial pstate0))) [] [].

(** What the program prints when every test passes. *)
Definition passed : list Z :=
  banner "=== MAILBOX IPC TEST SUITE ===" ++
  banner "[TEST 1] Basic send/receive" ++ line "  PASSED: got 'Hello from child!'" ++
  banner "[TEST 2] Blocking recv (parent waits for child)" ++ line "  PASSED: received after blocking" ++
  banner "[TEST 3] Multiple channels (0, 1, 2)" ++ line "  PASSED: all 3 channels received correctly" ++
  banner "[TEST 4] Ping-pong (5 rounds)" ++ line "  PASSED: 5 ping-pong rounds completed" ++
  banner "[TEST 5] Invalid arguments" ++ line "  PASSED: all bad args returned -1" ++
  banner "[TEST 6] Max-size message (128 bytes)" ++ line "  PASSED: received 128 bytes, all correct" ++
  banner "=== ALL TESTS DONE ===".

(** Any process ids and any answers to [write] and [sleep]. *)
Context (pid : positive) (parent_loc child_loc : syscall -> Z * list Z).

Definition over (s : duo) : Prop :=
  d_parent s = PExit /\ d_child s = None /\ rev (d_pout s) = passed /\ d_cout s = [] /\ Forall (fun mb => full mb = 0) (d_mail s).

Definition overb (s : duo) : bool :=
  match d_parent s, d_child s with
  | PExit, None => bool_decide (rev (d_pout s) = passed) && bool_decide (d_cout s = []) && forallb (fun mb => full mb =? 0) (d_mail s)
  | _, _ => false
  end.

Lemma overb_over s : overb s = true -> over s.
Proof.
  unfold overb, over. destruct (d_parent s), (d_child s); try done. rewrite !andb_true_iff, !bool_decide_eq_true, forallb_forall.
  intros [[? ?] Hm]. split_and!; try done. apply Forall_forall. intros mb Hmb. by apply Z.eqb_eq, Hm, list_elem_of_In.
Qed.

(** The program waits in [krecv] on an empty mailbox, without a child that
    could send; it has printed a beginning of [passed]. *)
Definition hung (s : duo) : Prop :=
  (exists c k, d_parent s = PCall (Krecv c MSGSIZE) k /\ finish (Recv c MSGSIZE) (d_mail s) = None /\ full (default mailbox0 (d_mail s !! Z.to_nat c)) = 0) /\
  d_child s = None /\ rev (d_pout s) = take (length (d_pout s)) passed /\ d_cout s = [].

Definition hungb (s : duo) : bool :=
  match d_parent s, d_child s with
  | PCall (Krecv c n) _, None =>
      (n =? MSGSIZE) && match finish (Recv c MSGSIZE) (d_mail s) with None => true | Some _ => false end &&
      (full (default mailbox0 (d_mail s !! Z.to_nat c)) =? 0) &&
      bool_decide (rev (d_pout s) = take (length (d_pout s)) passed) && bool_decide (d_cout s = [])
  | _, _ => false
  end.

Lemma hungb_hung s : hungb s = true -> hung s.
Proof.
  unfold hungb, hung. destruct (d_parent s) as [| | |[] k], (d_child s); try done. rewrite !andb_true_iff, !bool_decide_eq_true, !Z.eqb_eq.
  intros [[[[-> Hf] ?] ?] ?]. split_and!; try done. exists chan, k. split_and!; [done| |done]. by destruct (finish _ _).
Qed.

Definition ends (forks : list (option positive)) (s : duo) : Prop := if served forks then over s else hung s.

Lemma ends_nf forks s : ends forks s -> nf (duo_step parent_loc child_loc) s.
Proof.
  unfold ends. destruct (served forks); [intros (Hp & Hc & _); by apply gone_nf|].
  intros ((c & k & Hp & Hn & _) & Hc & _). by apply (asleep_nf _ _ s c MSGSIZE k).
Qed.

Lemma testmailbox_run forks : exists N f, duo_run parent_loc child_loc 600 (duo_start forks pid) = (N, f) /\ (N <= 545)%nat /\ ends forks f.
Proof.
  assert ((let '(k, f) := duo_run parent_loc child_loc 600 (duo_start forks pid) in (k <=? 545)%nat && if served forks then overb f else hungb f) = true) as H.
  { do 5 (destruct forks as [|[?|] forks]; [vm_compute; reflexivity| |vm_compute; reflexivity]). vm_compute. reflexivity. }
  destruct (duo_run _ _ _ _) as [k f]. apply andb_true_iff in H as [Hk%Nat.leb_le Hf]. exists k, f. split; [done|]. split; [done|].
  unfold ends. destruct (served forks); [by apply overb_over|by apply hungb_hung].
Qed.

(** C13: the mailbox test program passes, however its processes are interleaved,
    if [fork] succeeds, and hangs if it does not.  From the kernel's empty
    mailboxes, with any answers to [write] and [sleep], any outcomes of [fork]
    and anything in the stack frames, there is a number [N] of calls, at most
    545: after fewer than [N] calls one of the processes can make its next
    call, and after [N] there is no more.  If the five calls of [fork] have
    succeeded, then the program and all its children have exited, it has
    printed that each of the six tests passed and nothing else, and every
    mailbox is empty.  Otherwise the program sleeps in [krecv] on an empty
    mailbox, without a child that would send to it, having reported nothing
    but tests that passed. *)
Theorem testmailbox_passes forks : exists N, (N <= 545)%nat /\
  forall n s, nsteps (duo_step parent_loc child_loc) n (duo_start forks pid) s ->
    ((n < N)%nat /\ exists s', duo_step parent_loc child_loc s s') \/ (n = N /\ if served forks then over s else hung s).
Proof.
  destruct (testmailbox_run forks) as (N & f & Hrun & HN & Hf). exists N. split; [exact HN|]. intros n s Hn.
  destruct (duo_all_runs parent_loc child_loc _ _ _ _ (duo_start forks pid) f sides_disjoint (conj testmailbox_sided I) Hrun (ends_nf forks f Hf) n s Hn) as [H|[En ->]];
    [left; exact H|right; exact (conj En Hf)].
Qed.
End testmailbox.

Definition ex_forks : list (option positive) := Some <$> [4; 5; 6; 7; 8]%positive.
Definition ex_loc (c : syscall) : Z * list Z := (1, []).

Lemma testmailbox_passes_witness : over (snd (duo_run ex_loc ex_loc 600 (duo_start (fun _ => []) ex_forks 3))).
Proof.
  destruct (testmailbox_passes (fun _ => []) 3 ex_loc ex_loc ex_forks) as (N & HN & H).
  pose proof (duo_run_steps ex_loc ex_loc 600 (duo_start (fun _ => []) ex_forks 3)) as Hs.
  destruct (H 545%nat (snd (duo_run ex_loc ex_loc 600 (duo_start (fun _ => []) ex_forks 3)))) as [[? _]|[_ Hover]]; [|lia|exact Hover].
  apply Hs. vm_compute. reflexivity.
Defined.
