(* ===== verification/Mailtest2.v ===== *)
(** * The verbose mailbox test program (src/testmailbox2.c)

    The six tests of src/testmailbox.c, with every call announced on the
    console by the process that makes it. *)

From Stdlib Require Import ZArith Lia String.
From stdpp Require Import prelude numbers option strings list relations.
From S2P Require Import Prelude Kernel Sched Mailbox Ulib Printf Programs Twoprocs Mailtest.

(** A message with a line feed, or two, after it. *)
Definition say (s : string) : prog unit := pprintf 1 (line s) [].
Definition say2 (s : string) : prog unit := pprintf 1 (line s ++ [10]) [].
Definition say0 (s : string) : prog unit := pprintf 1 (banner s) [].

(** A message that starts with the process id. *)
Definition note (s : string) (args : list uarg) : prog unit := p ← pcall Getpid; pprintf 1 (line s) (UInt p :: args).
Definition note2 (s : string) (args : list uarg) : prog unit := p ← pcall Getpid; pprintf 1 (line s ++ [10]) (UInt p :: args).

Definition rule : string := "========================================".

Section testmailbox2.
Context (frame : Z -> list Z).

Definition test1 : prog unit :=
  say0 rule;; say "[TEST 1] Basic send/receive";; say rule;;
  say "Goal: Child sends a message, parent receives it.";;
  say2 "Channel: 0";;
  pid ← pcall Fork;
  if pid =? 0 then
    note "[CHILD %d] Starting..." [];;
    let msg := cstring "Hello from child!" in
    note "[CHILD %d] Calling ksend(channel=0, msg='%s', len=%d)" [UStr msg; UInt (strlen msg + 1)];;
    ret ← pcall (Ksend 0 msg (strlen msg + 1));
    note "[CHILD %d] ksend() returned %d" [UInt ret];;
    note "[CHILD %d] Message sent successfully. Exiting." [];;
    PExit
  else
    note "[PARENT %d] Starting..." [];;
    note "[PARENT %d] Child PID is %d" [UInt pid];;
    note "[PARENT %d] Calling krecv(channel=0, buf, size=%d)" [UInt MSGSIZE];;
    '(n, buf) ← recv 0 (frame 1);
    note "[PARENT %d] krecv() returned %d bytes" [UInt n];;
    note "[PARENT %d] Received message: '%s'" [UStr buf];;
    note "[PARENT %d] Waiting for child to exit..." [];;
    pcall Wait;;
    if (0 <? n) && (strcmp buf (cstring "Hello from child!") =? 0)
    then say0 "✓ TEST 1 PASSED: Message received correctly!"
    else pprintf 1 (banner "✗ TEST 1 FAILED: Unexpected result n=%d") [UInt n].

Definition test2 : prog unit :=
  say0 rule;; say "[TEST 2] Blocking recv";; say rule;;
  say "Goal: Parent blocks on krecv() until child sends.";;
  say2 "Channel: 1";;
  pid ← pcall Fork;
  if pid =? 0 then
    note "[CHILD %d] Starting..." [];;
    note "[CHILD %d] Sleeping for 10 ticks to let parent block..." [];;
    pcall (Sleep 10);;
    note "[CHILD %d] Woke up! Now calling ksend(channel=1, msg='delayed msg')" [];;
    ret ← pcall (Ksend 1 (cstring "delayed msg") 12);
    note "[CHILD %d] ksend() returned %d" [UInt ret];;
    note "[CHILD %d] This should unblock the parent. Exiting." [];;
    PExit
  else
    note "[PARENT %d] Starting..." [];;
    note "[PARENT %d] Child PID is %d" [UInt pid];;
    note "[PARENT %d] Calling krecv(channel=1) BEFORE child sends..." [];;
    note "[PARENT %d] This will BLOCK until child sends a message." [];;
    '(n, buf) ← recv 1 (frame 2);
    note "[PARENT %d] UNBLOCKED! krecv() returned %d bytes" [UInt n];;
    note "[PARENT %d] Received message: '%s'" [UStr buf];;
    note "[PARENT %d] Waiting for child to exit..." [];;
    pcall Wait;;
    if (n =? 12) && (strcmp buf (cstring "delayed msg") =? 0)
    then say0 "✓ TEST 2 PASSED: Blocking recv worked correctly!"
    else pprintf 1 (banner "✗ TEST 2 FAILED: n=%d buf='%s'") [UInt n; UStr buf].

(** One channel of test 3. *)
Definition expect (ch : Z) (going want bad good : string) (buf : list Z) (ok : bool) : prog (list Z * bool) :=
  note going [];;
  let buf := memset buf 0 (Z.to_nat MSGSIZE) in
  '(n, buf) ← recv ch buf;
  note "[PARENT %d] Got %d bytes: '%s'" [UInt n; UStr buf];;
  if negb (strcmp buf (cstring want) =? 0)
  then note bad [UStr buf];; mret (buf, false)
  else note2 good [];; mret (buf, ok).

Definition test3 : prog unit :=
  say0 rule;; say "[TEST 3] Multiple channels";; say rule;;
  say "Goal: Send on channels 0, 1, 2 independently.";;
  say2 "Messages should not interfere with each other.";;
  pid ← pcall Fork;
  if pid =? 0 then
    note "[CHILD %d] Starting..." [];;
    note "[CHILD %d] Sending 'chan0' on channel 0..." [];;
    pcall (Ksend 0 (cstring "chan0") 6);;
    note "[CHILD %d] Sending 'chan1' on channel 1..." [];;
    pcall (Ksend 1 (cstring "chan1") 6);;
    note "[CHILD %d] Sending 'chan2' on channel 2..." [];;
    pcall (Ksend 2 (cstring "chan2") 6);;
    note "[CHILD %d] All 3 messages sent. Exiting." [];;
    PExit
  else
    note "[PARENT %d] Starting..." [];;
    note2 "[PARENT %d] Child PID is %d" [UInt pid];;
    '(buf, ok) ← expect 0 "[PARENT %d] Receiving from channel 0..." "chan0"
       "[PARENT %d] ✗ FAILED ch0: expected 'chan0', got '%s'" "[PARENT %d] ✓ Channel 0 correct" (frame 3) true;
    '(buf, ok) ← expect 1 "[PARENT %d] Receiving from channel 1..." "chan1"
       "[PARENT %d] ✗ FAILED ch1: expected 'chan1', got '%s'" "[PARENT %d] ✓ Channel 1 correct" buf ok;
    '(_, ok) ← expect 2 "[PARENT %d] Receiving from channel 2..." "chan2"
       "[PARENT %d] ✗ FAILED ch2: expected 'chan2', got '%s'" "[PARENT %d] ✓ Channel 2 correct" buf ok;
    note "[PARENT %d] Waiting for child to exit..." [];;
    pcall Wait;;
    if ok : bool then say0 "✓ TEST 3 PASSED: All 3 channels received correctly!"
    else say0 "✗ TEST 3 FAILED: One or more channels had errors".

Definition test4 : prog unit :=
  say0 rule;; say "[TEST 4] Ping-pong";; say rule;;
  say "Goal: Exchange 5 messages back and forth.";;
  say "Parent sends 'ping' on channel 3.";;
  say2 "Child replies 'pong' on channel 4.";;
  pid ← pcall Fork;
  if pid =? 0 then
    note "[CHILD %d] Starting ping-pong responder..." [];;
    times 5 0 (fun i buf =>
      note "[CHILD %d] Round %d: Waiting for 'ping' on channel 3..." [UInt (i + 1)];;
      '(_, buf) ← recv 3 buf;
      note "[CHILD %d] Round %d: Received '%s'" [UInt (i + 1); UStr buf];;
      note "[CHILD %d] Round %d: Sending 'pong' on channel 4..." [UInt (i + 1)];;
      pcall (Ksend 4 (cstring "pong") 5);;
      mret buf) (frame 4);;
    note "[CHILD %d] All 5 rounds complete. Exiting." [];;
    PExit
  else
    note "[PARENT %d] Starting ping-pong initiator..." [];;
    note2 "[PARENT %d] Child PID is %d" [UInt pid];;
    times 5 0 (fun i buf =>
      note "[PARENT %d] Round %d: Sending 'ping' on channel 3..." [UInt (i + 1)];;
      pcall (Ksend 3 (cstring "ping") 5);;
      note "[PARENT %d] Round %d: Waiting for 'pong' on channel 4..." [UInt (i + 1)];;
      '(_, buf) ← recv 4 buf;
      note2 "[PARENT %d] Round %d: Received '%s'" [UInt (i + 1); UStr buf];;
      mret buf) (frame 4);;
    note "[PARENT %d] Waiting for child to exit..." [];;
    pcall Wait;;
    say0 "✓ TEST 4 PASSED: 5 ping-pong rounds completed!".

(** A call of test 5, which is to fail. *)
Definition refused (going : string) (c : syscall) (ok : bool) : prog bool :=
  note going [];;
  r ← pcall c;
  note "[PROCESS %d] Returned: %d (expected -1)" [UInt r];;
  if negb (r =? -1) then note "[PROCESS %d] ✗ FAILED: should return -1" [];; mret false
  else note2 "[PROCESS %d] ✓ Correct" [];; mret ok.

Definition test5 : prog unit :=
  say0 rule;; say "[TEST 5] Invalid arguments";; say rule;;
  say "Goal: Verify that invalid channel IDs return -1.";;
  say2 "Valid channels: 0-15";;
  ok ← refused "[PROCESS %d] Testing ksend(-1, 'x', 1)..." (Ksend (-1) (cstring "x") 1) true;
  ok ← refused "[PROCESS %d] Testing krecv(-1, buf, size)..." (Krecv (-1) MSGSIZE) ok;
  ok ← refused "[PROCESS %d] Testing ksend(16, 'x', 1)..." (Ksend 16 (cstring "x") 1) ok;
  ok ← refused "[PROCESS %d] Testing krecv(16, buf, size)..." (Krecv 16 MSGSIZE) ok;
  if ok : bool then say "✓ TEST 5 PASSED: All invalid args returned -1!"
  else say "✗ TEST 5 FAILED: Some invalid args did not return -1".

Definition test6 : prog unit :=
  say0 rule;; say "[TEST 6] Max-size message";; say rule;;
  pprintf 1 (line "Goal: Send a full %d-byte message.") [UInt MSGSIZE];;
  say2 "Channel: 5";;
  pid ← pcall Fork;
  if pid =? 0 then
    note "[CHILD %d] Starting..." [];;
    note "[CHILD %d] Building %d-byte message (all 'A's)..." [UInt MSGSIZE];;
    let msg := replicate (Z.to_nat MSGSIZE) 65 in
    note "[CHILD %d] Calling ksend(channel=5, msg, len=%d)..." [UInt MSGSIZE];;
    ret ← pcall (Ksend 5 msg MSGSIZE);
    note "[CHILD %d] ksend() returned %d" [UInt ret];;
    note "[CHILD %d] Max-size message sent. Exiting." [];;
    PExit
  else
    note "[PARENT %d] Starting..." [];;
    note "[PARENT %d] Child PID is %d" [UInt pid];;
    note "[PARENT %d] Calling krecv(channel=5, buf, size=%d)..." [UInt MSGSIZE];;
    '(n, buf) ← recv 5 (frame 6);
    note "[PARENT %d] krecv() returned %d bytes" [UInt n];;
    note "[PARENT %d] Verifying all %d bytes are 'A'..." [UInt n];;
    note "[PARENT %d] Waiting for child to exit..." [];;
    pcall Wait;;
    let ok := (n =? MSGSIZE) && all_A buf in
    if ok then
      note "[PARENT %d] ✓ All %d bytes verified correct!" [UInt n];;
      say0 "✓ TEST 6 PASSED: Max-size message received correctly!"
    else
      note "[PARENT %d] ✗ Data mismatch detected" [];;
      pprintf 1 (banner "✗ TEST 6 FAILED: n=%d or data mismatch") [UInt n].

Definition testmailbox2_main : prog unit :=
  pprintf 1 [10] [];;
  say "╔════════════════════════════════════════╗";;
  say "║  MAILBOX IPC TEST SUITE (VERBOSE)     ║";;
  say "║  testmailbox2.c                        ║";;
  say "╚════════════════════════════════════════╝";;
  say0 "This test suite shows HOW mailbox operations work,";;
  say "with detailed step-by-step output for each test.";;
  test1;; test2;; test3;; test4;; test5;; test6;;
  pprintf 1 [10] [];;
  say "╔════════════════════════════════════════╗";;
  say "║  ALL TESTS COMPLETED                   ║";;
  say "╚════════════════════════════════════════╝";;
  pprintf 1 [10] [];;
  PExit.

(** ** The test passes *)

Local Abbreviation sided p := (parent_ok parent_sends parent_recvs p (fun _ => True)).

Ltac sided := unfold say, say0, say2, note, note2, recv, parent_sends, parent_recvs; repeat side_step.

Lemma test1_sided2 : sided test1. Proof. unfold test1. sided. Qed.
Lemma test2_sided2 : sided test2. Proof. unfold test2. sided. Qed.
Lemma test4_sided2 : sided test4. Proof. unfold test4. sided. Qed.
Lemma test6_sided2 : sided test6. Proof. unfold test6. sided. Qed.

Lemma expect_sided2 ch going want bad good buf ok Q : ch ∈ parent_recvs -> (forall x, Q x) ->
  parent_ok parent_sends parent_recvs (expect ch going want bad good buf ok) Q.
Proof. intros Hch HQ. apply parent_ok_pure; [|done]. unfold expect. sided. Qed.

Lemma refused_sided2 going c ok Q : within parent_sends parent_recvs c -> c <> Fork -> (forall x, Q x) ->
  parent_ok parent_sends parent_recvs (refused going c ok) Q.
Proof.
  intros Hch Hf HQ. apply parent_ok_pure; [|done]. unfold refused. apply then_sided; [sided|].
  side_step. apply parent_ok_call; [done..|]. intros ?. sided.
Qed.

Lemma test3_sided2 : sided test3.
Proof.
  unfold test3. do 5 (apply then_sided; [sided|]). apply parent_ok_fork; [sided|]. intros pid.
  do 2 (apply then_sided; [sided|]). do 3 (side_step; apply expect_sided2; [set_solver|]; intros [? ?]). sided.
Qed.

Lemma test5_sided2 : sided test5.
Proof.
  unfold test5. do 5 (apply then_sided; [sided|]).
  do 4 (side_step; apply refused_sided2; [cbn; lia|done|]; intros ?). sided.
Qed.

Lemma testmailbox2_sided : sided testmailbox2_main.
Proof.
  unfold testmailbox2_main. do 7 (apply then_sided; [sided|]).
  apply then_sided; [exact test1_sided2|]. apply then_sided; [exact test2_sided2|]. apply then_sided; [exact test3_sided2|].
  apply then_sided; [exact test4_sided2|]. apply then_sided; [exact test5_sided2|]. apply then_sided; [exact test6_sided2|].
  sided.
Qed.

(** The process and the children it forks, the way the shell starts it first: the
    process has id 3, and its children, all of which are created, 4 to 8. *)
Context (loc : syscall -> Z * list Z).
Definition loc3 (c : syscall) : Z * list Z := match c with Getpid => (3, []) | c => loc c end.
Definition duo_start2 : duo := mkDuo ex_forks 3 testmailbox2_main None (mailboxes (kstate (initial pstate0))) [] [].

Fixpoint starts_with (w l : list Z) : bool :=
  match w, l with
  | [], _ => true
  | x :: w, y :: l => (x =? y) && starts_with w l
  | _, [] => false
  end.
Fixpoint mentions (w l : list Z) : bool :=
  starts_with w l || match l with [] => false | _ :: l => mentions w l end.

Definition verdicts : list (list Z) :=
  str <$> ["TEST 1 PASSED"; "TEST 2 PASSED"; "TEST 3 PASSED"; "TEST 4 PASSED"; "TEST 5 PASSED"; "TEST 6 PASSED"; "ALL TESTS COMPLETED"]%string.

Definition over2 (s : duo) : Prop :=
  d_parent s = PExit /\ d_child s = None /\ Forall (fun mb => full mb = 0) (d_mail s) /\
  forallb (fun w => mentions w (rev (d_pout s))) verdicts = true /\ mentions (str "FAILED") (rev (d_pout s)) = false.

Definition over2b (s : duo) : bool :=
  match d_parent s, d_child s with
  | PExit, None =>
      forallb (fun mb => full mb =? 0) (d_mail s) && forallb (fun w => mentions w (rev (d_pout s))) verdicts && negb (mentions (str "FAILED") (rev (d_pout s)))
  | _, _ => false
  end.

Lemma over2b_over2 s : over2b s = true -> over2 s.
Proof.
  unfold over2b, over2. destruct (d_parent s), (d_child s); try done. rewrite !andb_true_iff, negb_true_iff, forallb_forall.
  intros [[Hm Hv] Hf]. split_and!; try done. apply Forall_forall. intros mb Hmb. by apply Z.eqb_eq, Hm, list_elem_of_In.
Qed.

Lemma testmailbox2_run : exists f, duo_run loc3 loc (Z.to_nat 7000) duo_start2 = (Z.to_nat 6305, f) /\ over2 f.
Proof.
  assert ((let '(k, f) := duo_run loc3 loc (Z.to_nat 7000) duo_start2 in (Z.of_nat k =? 6305) && over2b f) = true) as H by (vm_compute; reflexivity).
  destruct (duo_run _ _ _ _) as [k f]. apply andb_true_iff in H as [Hk%Z.eqb_eq Hf]. exists f.
  split; [f_equal; apply Nat2Z.inj; by rewrite Hk|by apply over2b_over2].
Qed.

(** The verbose test passes too when [fork] succeeds, however its processes are
    interleaved: no run gets stuck, and every complete one has 6305 calls, ends with the processes
    gone and the mailboxes empty, and has printed the six verdicts that a test
    passed and none that one failed. *)
Theorem testmailbox2_passes n s : nsteps (duo_step loc3 loc) n duo_start2 s ->
  ((n < Z.to_nat 6305)%nat /\ exists s', duo_step loc3 loc s s') \/ (n = Z.to_nat 6305 /\ over2 s).
Proof.
  intros Hn. destruct testmailbox2_run as (f & Hrun & Hf). pose proof Hf as (Hp & Hc & _).
  destruct (duo_all_runs loc3 loc _ _ _ _ duo_start2 f sides_disjoint (conj testmailbox2_sided I) Hrun (gone_nf _ _ f Hp Hc) n s Hn) as [H|[En ->]]; [left; exact H|right; exact (conj En Hf)].
Qed.
End testmailbox2.
