(* ===== verification/Sh.v ===== *)
(** * The shell (src/sh.c)

    The parser works on the buffer that holds the command line: a pointer into
    it is an index, and the pointer at the end is the index of the terminating
    zero.  A parsed command keeps pointers to the start and the end of its
    words until [nulterminate] has put zeros at the ends. *)

From Stdlib Require Import ZArith Lia String.
From stdpp Require Import prelude numbers option strings list.
From S2P Require Import Prelude Ulib Printf Grep Programs.

Definition MAXARGS : nat := 10.
Definition O_RDONLY : Z := 0x000.
Definition O_WRONLY : Z := 0x001.
Definition O_CREATE : Z := 0x200.

(** [struct cmd] and the structures it stands for. *)
Inductive cmd : Type :=
  | EXEC (argv : list (nat * nat))
  | REDIR (c : cmd) (file efile : nat) (mode fd : Z)
  | PIPE (left right : cmd)
  | LIST (left right : cmd)
  | BACK (c : cmd).

(** The functions that make commands; [malloc] is assumed to succeed, as the
    code does.  [set_argv] fills in the words of a new [EXEC]. *)
Definition execcmd : cmd := EXEC [].
Definition redircmd (subcmd : cmd) (file efile : nat) (mode fd : Z) : cmd := REDIR subcmd file efile mode fd.
Definition pipecmd (left right : cmd) : cmd := PIPE left right.
Definition listcmd (left right : cmd) : cmd := LIST left right.
Definition backcmd (subcmd : cmd) : cmd := BACK subcmd.
Definition set_argv (argv : list (nat * nat)) (c : cmd) : cmd := match c with EXEC _ => EXEC argv | c => c end.

(** The parser returns a result, or panics with what is printed then; [Deep]
    is a recursion deeper than the fuel. *)
Inductive parse (A : Type) : Type :=
  | Parsed (a : A)
  | Failed (msg : list Z)
  | Deep.
Arguments Parsed {A} _.
Arguments Failed {A} _.
Arguments Deep {A}.

#[export] Instance parse_ret : MRet parse := fun A a => Parsed a.
#[export] Instance parse_bind : MBind parse := fun A B f c =>
  match c with
  | Parsed a => f a
  | Failed m => Failed m
  | Deep => Deep
  end.

Definition fail_with {A} (m : string) : parse A := Failed (str m).

(** ** Tokens *)

Definition whitespace : list Z := [32; 9; 13; 10; 11].
Definition symbols : list Z := str "<|>&;()".

(** [strchr(set, c)] on a set without the zero. *)
Definition in_set (set : list Z) (c : Z) : bool :=
  match strchr (set ++ [0]) c with
  | Some _ => true
  | None => false
  end.

Section parser.
(** The command line; reading at its end gives the zero. *)
Context (buf : list Z).

Definition es : nat := length buf.
Definition char (s : nat) : Z := nth s buf 0.

Fixpoint skip (test : Z -> bool) (fuel s : nat) : nat :=
  match fuel with
  | O => s
  | S fuel => if (s <? es)%nat && test (char s) then skip test fuel (S s) else s
  end.
Definition skip_white (s : nat) : nat := skip (in_set whitespace) (es - s) s.
Definition skip_word (s : nat) : nat :=
  skip (fun c => negb (in_set whitespace c) && negb (in_set symbols c)) (es - s) s.

(** The token, the pointers to its start and its end, and the new [*ps]. *)
Definition gettoken (ps : nat) : Z * nat * nat * nat :=
  let q := skip_white ps in
  let c := char q in
  let '(ret, eq) :=
    if c =? 0 then (0, q)
    else if in_set (str "|();&<") c then (c, S q)
    else if c =? 62 then if char (S q) =? 62 then (43, S (S q)) else (62, S q)
    else (97, skip_word q) in
  (ret, q, eq, skip_white eq).

Definition peek (ps : nat) (toks : list Z) : bool * nat :=
  let s := skip_white ps in
  (negb (char s =? 0) && in_set toks (char s), s).

(** ** The grammar *)

(** [parseredirs]: the redirections in order, as functions on commands. *)
Fixpoint parseredirs (fuel : nat) (ps : nat) (wrap : cmd -> cmd) : parse ((cmd -> cmd) * nat) :=
  match fuel with
  | O => Deep
  | S fuel =>
      let '(more, ps) := peek ps (str "<>") in
      if negb more then mret (wrap, ps)
      else
        let '(tok, _, _, ps) := gettoken ps in
        let '(t, q, eq, ps) := gettoken ps in
        if negb (t =? 97) then fail_with "missing file for redirection"
        else if tok =? 60 then parseredirs fuel ps (fun c => redircmd (wrap c) q eq O_RDONLY 0)
        else if tok =? 62 then parseredirs fuel ps (fun c => redircmd (wrap c) q eq (Z.lor O_WRONLY O_CREATE) 1)
        else if tok =? 43 then parseredirs fuel ps (fun c => redircmd (wrap c) q eq (Z.lor O_WRONLY O_CREATE) 1)
        else parseredirs fuel ps wrap
  end.

(** The loop of [parseexec]: the words so far and the redirections around them. *)
Fixpoint parseexec_loop (fuel : nat) (ps : nat) (argv : list (nat * nat)) (wrap : cmd -> cmd) : parse (cmd * nat) :=
  match fuel with
  | O => Deep
  | S fuel =>
      let '(stop, ps) := peek ps (str "|)&;") in
      if stop then mret (wrap (set_argv argv execcmd), ps)
      else
        let '(tok, q, eq, ps) := gettoken ps in
        if tok =? 0 then mret (wrap (set_argv argv execcmd), ps)
        else if negb (tok =? 97) then fail_with "syntax"
        else
          let argv := argv ++ [(q, eq)] in
          if (MAXARGS <=? length argv)%nat then fail_with "too many args"
          else
            '(wrap, ps) ← parseredirs (S es) ps wrap;
            parseexec_loop fuel ps argv wrap
  end.

(** The loop of [parseline] over ampersands. *)
Fixpoint parse_amps (fuel : nat) (ps : nat) (c : cmd) : parse (cmd * nat) :=
  match fuel with
  | O => Deep
  | S fuel =>
      let '(amp, ps) := peek ps (str "&") in
      if negb amp then mret (c, ps)
      else
        let '(_, _, _, ps) := gettoken ps in
        parse_amps fuel ps (backcmd c)
  end.

(** The recursive procedures; [fuel] bounds their depth. *)
Fixpoint parseline (fuel : nat) (ps : nat) : parse (cmd * nat) :=
  match fuel with
  | O => Deep
  | S fuel =>
      '(c, ps) ← parsepipe fuel ps;
      '(c, ps) ← parse_amps (S es) ps c;
      let '(semi, ps) := peek ps (str ";") in
      if negb semi then mret (c, ps)
      else
        let '(_, _, _, ps) := gettoken ps in
        '(r, ps) ← parseline fuel ps;
        mret (listcmd c r, ps)
  end
with parsepipe (fuel : nat) (ps : nat) : parse (cmd * nat) :=
  match fuel with
  | O => Deep
  | S fuel =>
      '(c, ps) ← parseexec fuel ps;
      let '(bar, ps) := peek ps (str "|") in
      if negb bar then mret (c, ps)
      else
        let '(_, _, _, ps) := gettoken ps in
        '(r, ps) ← parsepipe fuel ps;
        mret (pipecmd c r, ps)
  end
with parseexec (fuel : nat) (ps : nat) : parse (cmd * nat) :=
  match fuel with
  | O => Deep
  | S fuel =>
      let '(open_, ps) := peek ps (str "(") in
      if open_ then parseblock fuel ps
      else
        '(wrap, ps) ← parseredirs (S es) ps (fun c => c);
        parseexec_loop (S es) ps [] wrap
  end
with parseblock (fuel : nat) (ps : nat) : parse (cmd * nat) :=
  match fuel with
  | O => Deep
  | S fuel =>
      let '(open_, ps) := peek ps (str "(") in
      if negb open_ then fail_with "parseblock"
      else
        let '(_, _, _, ps) := gettoken ps in
        '(c, ps) ← parseline fuel ps;
        let '(close_, ps) := peek ps (str ")") in
        if negb close_ then fail_with "syntax - missing )"
        else
          let '(_, _, _, ps) := gettoken ps in
          '(wrap, ps) ← parseredirs (S es) ps (fun c => c);
          mret (wrap c, ps)
  end.
End parser.

(** [nulterminate] on the buffer with its terminating zero. *)
Fixpoint nulterminate (c : cmd) (buf : list Z) : list Z :=
  match c with
  | EXEC argv => fold_left (fun b qe => <[snd qe := 0]> b) argv buf
  | REDIR c _ efile _ _ => <[efile := 0]> (nulterminate c buf)
  | PIPE l r => nulterminate r (nulterminate l buf)
  | LIST l r => nulterminate r (nulterminate l buf)
  | BACK c => nulterminate c buf
  end.

(** A bound on the depth of the recursion: every call but the first three takes
    a character. *)
Definition depth (buf : list Z) : nat := 4 * (length buf + 2).

(** [parsecmd]: the command and the buffer after [nulterminate]. *)
Definition parsecmd (buf : list Z) : parse (cmd * list Z) :=
  '(c, ps) ← parseline buf (depth buf) 0;
  let '(_, ps) := peek buf ps [] in
  if negb (Nat.eqb ps (length buf)) then Failed (str "leftovers: " ++ drop ps buf ++ [10] ++ str "syntax")
  else mret (c, nulterminate c (buf ++ [0])).

(** ** Running commands *)

(** The string a pointer points to. *)
Definition at_ptr (buf : list Z) (q : nat) : list Z := cstr (drop q buf).

Definition sh_panic {A} (m : list Z) : U A := fprintf 2 (line "%s") [UStr m];; exit_.

Definition fork1 : U Z :=
  pid ← call Fork;
  if pid =? -1 then sh_panic (str "fork") else mret pid.

(** The two descriptors of a pipe, from the bytes the kernel stored. *)
Definition fd_at (l : list Z) (i : nat) : Z := word_at l (4 * i).

Fixpoint runcmd (buf : list Z) (c : cmd) : U unit :=
  match c with
  | EXEC argv =>
      match argv with
      | [] => exit_
      | (q, _) :: _ =>
          _ ← call (Exec (at_ptr buf q) ((fun qe => at_ptr buf (fst qe)) <$> argv));
          fprintf 2 (line "exec %s failed") [UStr (at_ptr buf q)];;
          exit_
      end
  | REDIR c file _ mode fd =>
      _ ← call (Close fd);
      r ← call (Open (at_ptr buf file) mode);
      if r <? 0 then fprintf 2 (line "open %s failed") [UStr (at_ptr buf file)];; exit_
      else runcmd buf c
  | LIST l r =>
      pid ← fork1;
      if pid =? 0 then runcmd buf l
      else
        _ ← call Wait;
        runcmd buf r
  | PIPE l r =>
      '(res, p) ← sys Pipe;
      if res <? 0 then sh_panic (str "pipe")
      else
        pid ← fork1;
        if pid =? 0 then
          _ ← call (Close 1);
          _ ← call (Dup (fd_at p 1));
          _ ← call (Close (fd_at p 0));
          _ ← call (Close (fd_at p 1));
          runcmd buf l
        else
          pid ← fork1;
          if pid =? 0 then
            _ ← call (Close 0);
            _ ← call (Dup (fd_at p 0));
            _ ← call (Close (fd_at p 0));
            _ ← call (Close (fd_at p 1));
            runcmd buf r
          else
            _ ← call (Close (fd_at p 0));
            _ ← call (Close (fd_at p 1));
            _ ← call Wait;
            _ ← call Wait;
            exit_
  | BACK c =>
      pid ← fork1;
      if pid =? 0 then runcmd buf c else exit_
  end.

(** ** The main loop *)

(** [getcmd]: the line read, or [None] at the end of the input. *)
Definition getcmd (nbuf : Z) : U (option (list Z)) :=
  fprintf 2 (str "$ ") [];;
  l ← gets nbuf;
  mret (if nth 0 l 0 =? 0 then None else Some (cstr l)).

(** Running a line in the child. *)
Definition run_line (l : list Z) : U unit :=
  match parsecmd l with
  | Parsed (c, buf) => runcmd buf c
  | Failed m => sh_panic m
  | Deep => fun _ => Runs
  end.

Fixpoint sh_loop (fuel : nat) : U unit :=
  match fuel with
  | O => fun _ => Runs
  | S fuel =>
      o ← getcmd 100;
      match o with
      | None => exit_
      | Some l =>
          if bool_decide (take 3 l = str "cd ") then
            let dir := drop 3 (take (length l - 1) l) in
            r ← call (Chdir dir);
            (if r <? 0 then fprintf 2 (line "cannot cd %s") [UStr dir] else mret ());;
            sh_loop fuel
          else
            pid ← fork1;
            if pid =? 0 then run_line l
            else
              _ ← call Wait;
              sh_loop fuel
      end
  end.

(** Three open descriptors, then the loop. *)
Fixpoint open_console (fuel : nat) : U unit :=
  match fuel with
  | O => fun _ => Runs
  | S fuel =>
      fd ← call (Open (str "console") O_RDWR);
      if fd <? 0 then mret ()
      else if 3 <=? fd then _ ← call (Close fd); mret ()
      else open_console fuel
  end.
Definition sh_main : U unit :=
  repeat open_console;;
  repeat sh_loop.
