(* ===== verification/Shparse.v ===== *)
(** * The shell's parser

    The parser ends on every line, and every command has a line that the
    parser reads back as that command. *)

From Stdlib Require Import ZArith Lia String.
From stdpp Require Import prelude numbers option strings list.
From S2P Require Import Prelude Ulib Printf Grep Programs Sh.

(** ** Sets of characters *)

Lemma in_set_elem set c : 0 ∉ set -> in_set set c = bool_decide (c ∈ set).
Proof.
  intros H0. unfold in_set. pose proof (strchr_elem set c H0) as H. destruct (strchr _ _).
  - symmetry. apply bool_decide_eq_true_2. destruct (decide (c ∈ set)); [done|]. by apply H in n0.
  - symmetry. by apply bool_decide_eq_false_2, H.
Qed.

Lemma symbols_split c :
  in_set (str "|();&<") c = false -> c <> 62 -> in_set symbols c = false.
Proof.
  rewrite !in_set_elem by (vm_compute; set_solver). rewrite !bool_decide_eq_false. unfold symbols, str. cbn. set_solver.
Qed.

(** ** Termination *)

Section ends.
Context (buf : list Z).
#[local] Abbreviation es := (es buf).
#[local] Abbreviation char := (char buf).

Lemma char_end s : char s <> 0 -> (s < es)%nat.
Proof.
  intros Hc. destruct (decide (s < es)%nat); [done|]. destruct Hc. unfold Sh.char, Sh.es in *. apply nth_overflow. lia.
Qed.

Lemma skip_range test fuel s : (s <= es)%nat -> (s <= skip buf test fuel s <= es)%nat.
Proof.
  revert s. induction fuel as [|fuel IH]; intros s Hs; cbn [skip]; [lia|].
  destruct (Nat.ltb_spec s es); cbn [andb]; [|lia]. destruct (test (char s)); [|lia].
  specialize (IH (S s)). lia.
Qed.

Lemma skip_stop test fuel s :
  (es - s <= fuel)%nat -> (s <= es)%nat ->
  let s' := skip buf test fuel s in s' = es \/ test (char s') = false.
Proof.
  revert s. induction fuel as [|fuel IH]; intros s Hf Hs; cbn [skip]; [left; lia|].
  destruct (Nat.ltb_spec s es); cbn [andb]; [|left; lia]. destruct (test (char s)) eqn:E; [|by right].
  apply IH; lia.
Qed.

Lemma skip_white_range s : (s <= es)%nat -> (s <= skip_white buf s <= es)%nat.
Proof. apply skip_range. Qed.


(** What [gettoken] and [peek] return. *)
Lemma gettoken_range ps :
  (ps <= es)%nat ->
  let '(t, q, eq, ps') := gettoken buf ps in
  (ps <= q <= eq)%nat /\ (eq <= ps' <= es)%nat /\ (t <> 0 -> (q < eq)%nat).
Proof.
  intros Hps. unfold gettoken. pose proof (skip_white_range ps Hps) as Hq. set (q := skip_white buf ps) in *.
  assert (exists t eq, (if char q =? 0 then (0, q)
    else if in_set (str "|();&<") (char q) then (char q, S q)
    else if char q =? 62 then if char (S q) =? 62 then (43, S (S q)) else (62, S q)
    else (97, skip_word buf q)) = (t, eq) /\ (q <= eq <= es)%nat /\ (t <> 0 -> (q < eq)%nat)) as (t & eq & -> & H1 & H2).
  { destruct (Z.eqb_spec (char q) 0) as [|Hc]; [by eexists _, _; split_and!; [done|lia..]|].
    pose proof (char_end q Hc).
    destruct (in_set (str "|();&<") (char q)) eqn:E1; [eexists _, _; split_and!; [done|lia..]|].
    destruct (Z.eqb_spec (char q) 62).
    - destruct (Z.eqb_spec (char (S q)) 62) as [E2|]; [|eexists _, _; split_and!; [done|lia..]].
      pose proof (char_end (S q) ltac:(by rewrite E2)). eexists _, _; split_and!; [done|lia..].
    - eexists _, _; split; [done|]. unfold skip_word. destruct (es - q)%nat as [|f] eqn:Ef; [lia|]. cbn [skip].
      rewrite (proj2 (Nat.ltb_lt _ _)) by lia. rewrite symbols_split by done.
      destruct (skip_stop (in_set whitespace) (es - ps) ps) as [|Hw]; [lia..| |].
      { unfold skip_white in q. lia. }
      fold (skip_white buf ps) in Hw. fold q in Hw. rewrite Hw. cbn [negb andb].
      pose proof (skip_range (fun c => negb (in_set whitespace c) && negb (in_set symbols c)) f (S q)). lia. }
  pose proof (skip_white_range eq). split_and!; [lia..|done].
Qed.

Lemma peek_range ps toks :
  (ps <= es)%nat -> let '(b, ps') := peek buf ps toks in (ps <= ps' <= es)%nat /\ (b = true -> char ps' <> 0 /\ (ps' < es)%nat).
Proof.
  intros Hps. unfold peek. pose proof (skip_white_range ps Hps). split; [done|].
  destruct (Z.eqb_spec (char (skip_white buf ps)) 0); [done|]. intros _. split; [done|]. by apply char_end.
Qed.

Lemma skip_white_stays ps : (ps <= es)%nat -> skip_white buf (skip_white buf ps) = skip_white buf ps.
Proof.
  intros Hps. pose proof (skip_white_range ps Hps) as Hr.
  destruct (skip_stop (in_set whitespace) (es - ps) ps) as [E|E]; [lia..| |]; fold (skip_white buf ps) in E.
  - unfold skip_white at 1. rewrite E, Nat.sub_diag. done.
  - unfold skip_white at 1. destruct (es - skip_white buf ps)%nat; [done|]. cbn [skip]. by rewrite E, andb_false_r.
Qed.

(** The token that [peek] has seen is not empty. *)
Lemma peek_token ps toks ps1 :
  (ps <= es)%nat -> peek buf ps toks = (true, ps1) ->
  let '(t, q, eq, ps') := gettoken buf ps1 in (ps <= ps1)%nat /\ (ps1 < ps' <= es)%nat.
Proof.
  intros Hps Hp. pose proof (peek_range ps toks Hps) as H. rewrite Hp in H. destruct H as [H1 H2].
  destruct (H2 eq_refl) as [Hc Hlt]. pose proof (gettoken_range ps1 ltac:(lia)) as Hg.
  assert (skip_white buf ps1 = ps1) as Hw.
  { unfold peek in Hp. injection Hp as _ <-. by apply skip_white_stays. }
  destruct (gettoken buf ps1) as [[[t q] eq] ps'] eqn:Eg. destruct Hg as (Hg1 & Hg2 & Hg3).
  assert (t <> 0).
  { unfold gettoken in Eg. rewrite Hw in Eg. rewrite (proj2 (Z.eqb_neq _ 0) Hc) in Eg.
    destruct (in_set _ _) in Eg; [congruence|].
    destruct (Z.eqb (char ps1) 62) in Eg; [destruct (Z.eqb (char (S ps1)) 62) in Eg|]; injection Eg as <- _ _ _; done. }
  specialize (Hg3 ltac:(done)). lia.
Qed.

(** A procedure started at [ps] returns or fails. *)
Definition ends_at {A} (ps : nat) (r : parse (A * nat)) : Prop :=
  match r with
  | Parsed (_, ps') => (ps <= ps' <= es)%nat
  | Failed _ => True
  | Deep => False
  end.

Lemma ends_bind {A B} ps (r : parse (A * nat)) (f : A * nat -> parse (B * nat)) :
  ends_at ps r -> (forall a ps', (ps <= ps' <= es)%nat -> ends_at ps (f (a, ps'))) -> ends_at ps (r ≫= f).
Proof. destruct r as [[a ps']| |]; cbn; auto. Qed.

Lemma ends_from {A} ps ps' (r : parse (A * nat)) : (ps <= ps')%nat -> ends_at ps' r -> ends_at ps r.
Proof. destruct r as [[a ps'']| |]; cbn; auto. lia. Qed.

Lemma parseredirs_ends fuel ps wrap :
  (ps <= es)%nat -> (es - ps < fuel)%nat -> ends_at ps (parseredirs buf fuel ps wrap).
Proof.
  revert ps wrap. induction fuel as [|fuel IH]; intros ps wrap Hps Hf; [lia|]. cbn [parseredirs].
  pose proof (peek_range ps (str "<>") Hps) as Hp. destruct (peek buf ps (str "<>")) as [[] ps1] eqn:E; cbn [negb]; [|by apply Hp].
  pose proof (peek_token _ _ _ Hps E) as Ht. destruct (gettoken buf ps1) as [[[tok q] eq] ps2].
  pose proof (gettoken_range ps2 ltac:(lia)) as Ht2. destruct (gettoken buf ps2) as [[[t q2] eq2] ps3].
  destruct (t =? 97); [cbn [negb]|done].
  destruct (tok =? 60); [|destruct (tok =? 62); [|destruct (tok =? 43)]]; (eapply ends_from; [|apply IH; lia]; lia).
Qed.

Lemma parseexec_loop_ends fuel ps argv wrap :
  (ps <= es)%nat -> (es - ps < fuel)%nat -> ends_at ps (parseexec_loop buf fuel ps argv wrap).
Proof.
  revert ps argv wrap. induction fuel as [|fuel IH]; intros ps argv wrap Hps Hf; [lia|]. cbn [parseexec_loop].
  pose proof (peek_range ps (str "|)&;") Hps) as Hp. destruct (peek buf ps (str "|)&;")) as [[] ps1]; [by apply Hp|].
  pose proof (gettoken_range ps1 ltac:(lia)) as Ht. destruct (gettoken buf ps1) as [[[tok q] eq] ps2].
  destruct (Z.eqb_spec tok 0); [cbn; lia|]. destruct (tok =? 97); [cbn [negb]|done].
  destruct (_ <=? _)%nat; [done|]. apply (ends_from ps ps2); [lia|].
  apply ends_bind; [apply parseredirs_ends; lia|]. intros w ps3 H3. apply (ends_from ps2 ps3); [lia|]. apply IH; lia.
Qed.

Lemma parse_amps_ends fuel ps c : (ps <= es)%nat -> (es - ps < fuel)%nat -> ends_at ps (parse_amps buf fuel ps c).
Proof.
  revert ps c. induction fuel as [|fuel IH]; intros ps c Hps Hf; [lia|]. cbn [parse_amps].
  pose proof (peek_range ps (str "&") Hps) as Hp. destruct (peek buf ps (str "&")) as [[] ps1] eqn:E; cbn [negb]; [|by apply Hp].
  pose proof (peek_token _ _ _ Hps E) as Ht. destruct (gettoken buf ps1) as [[[tok q] eq] ps2].
  apply (ends_from ps ps2); [lia|]. apply IH; lia.
Qed.

(** The recursive procedures: every fourth call takes a character. *)
Lemma parse_ends fuel :
  (forall ps, (ps <= es)%nat -> (4 * (es - ps) + 4 <= fuel)%nat -> ends_at ps (parseline buf fuel ps)) /\
  (forall ps, (ps <= es)%nat -> (4 * (es - ps) + 3 <= fuel)%nat -> ends_at ps (parsepipe buf fuel ps)) /\
  (forall ps, (ps <= es)%nat -> (4 * (es - ps) + 2 <= fuel)%nat -> ends_at ps (parseexec buf fuel ps)) /\
  (forall ps, (ps <= es)%nat -> (4 * (es - ps) + 1 <= fuel)%nat -> ends_at ps (parseblock buf fuel ps)).
Proof.
  induction fuel as [|fuel (IH1 & IH2 & IH3 & IH4)]; [split_and!; intros; lia|].
  split_and!; intros ps Hps Hf; cbn [parseline parsepipe parseexec parseblock].
  - apply ends_bind; [apply IH2; lia|]. intros c ps1 H1. apply (ends_from ps ps1); [lia|].
    apply ends_bind; [apply parse_amps_ends; lia|]. intros c' ps2 H2.
    pose proof (peek_range ps2 (str ";") ltac:(lia)) as Hp. destruct (peek buf ps2 (str ";")) as [[] ps3] eqn:E; cbn [negb]; [|cbn; lia].
    pose proof (peek_token ps2 _ _ ltac:(lia) E) as Ht. destruct (gettoken buf ps3) as [[[tok q] eq] ps4].
    apply (ends_from ps1 ps4); [lia|]. apply ends_bind; [apply IH1; lia|]. intros r ps5 H5. cbn. lia.
  - apply ends_bind; [apply IH3; lia|]. intros c ps1 H1.
    pose proof (peek_range ps1 (str "|") ltac:(lia)) as Hp. destruct (peek buf ps1 (str "|")) as [[] ps3] eqn:E; cbn [negb]; [|cbn; lia].
    pose proof (peek_token ps1 _ _ ltac:(lia) E) as Ht. destruct (gettoken buf ps3) as [[[tok q] eq] ps4].
    apply (ends_from ps ps4); [lia|]. apply ends_bind; [apply IH2; lia|]. intros r ps5 H5. cbn. lia.
  - pose proof (peek_range ps (str "(") Hps) as Hp. destruct (peek buf ps (str "(")) as [[] ps1].
    + apply (ends_from ps ps1); [lia|]. apply IH4; lia.
    + apply (ends_from ps ps1); [lia|]. apply ends_bind; [apply parseredirs_ends; lia|]. intros w ps2 H2.
      apply (ends_from ps1 ps2); [lia|]. apply parseexec_loop_ends; lia.
  - pose proof (peek_range ps (str "(") Hps) as Hp. destruct (peek buf ps (str "(")) as [[] ps1] eqn:E; cbn [negb]; [|done].
    pose proof (peek_token ps _ _ Hps E) as Ht. destruct (gettoken buf ps1) as [[[tok q] eq] ps2].
    apply (ends_from ps ps2); [lia|]. apply ends_bind; [apply IH1; lia|]. intros c ps3 H3.
    pose proof (peek_range ps3 (str ")") ltac:(lia)) as Hp3. destruct (peek buf ps3 (str ")")) as [[] ps4] eqn:E3; cbn [negb]; [|done].
    pose proof (peek_token ps3 _ _ ltac:(lia) E3) as Ht3. destruct (gettoken buf ps4) as [[[tok3 q3] eq3] ps5].
    apply (ends_from ps2 ps5); [lia|]. apply ends_bind; [apply parseredirs_ends; lia|]. intros w ps6 H6. cbn. lia.
Qed.
End ends.

(** C34: the parser ends on every command line: its recursion is no deeper than
    four calls for each character, so it returns a command or reports a syntax
    error. *)
Theorem sh_parser_ends buf : parsecmd buf <> Deep.
Proof.
  unfold parsecmd. pose proof (proj1 (parse_ends buf (depth buf)) 0%nat ltac:(lia) ltac:(unfold depth, es; lia)) as H.
  destruct (parseline buf (depth buf) 0) as [[c ps]| |]; cbn; [|done..].
  by destruct (Nat.eqb _ _).
Qed.

(** ** Reading back a command *)

(** Commands with their words as strings; [In], [Out] and [Append] are the
    three redirections. *)
Inductive redir : Type := In | Out | Append.
Inductive acmd : Type :=
  | AExec (argv : list (list Z))
  | ARedir (c : acmd) (k : redir) (file : list Z)
  | APipe (left right : acmd)
  | AList (left right : acmd)
  | ABack (c : acmd).

Definition word_char (c : Z) : Prop := c <> 0 /\ (c ∉ whitespace) /\ (c ∉ symbols).
Definition word_ok (w : list Z) : Prop := w <> [] /\ Forall word_char w.
Fixpoint acmd_ok (c : acmd) : Prop :=
  match c with
  | AExec argv => Forall word_ok argv /\ (length argv < MAXARGS)%nat
  | ARedir c _ file => acmd_ok c /\ word_ok file
  | APipe l r => acmd_ok l /\ acmd_ok r
  | AList l r => acmd_ok l /\ acmd_ok r
  | ABack c => acmd_ok c
  end.

(** A text of the command, in which every part is in parentheses. *)
Definition show_redir (k : redir) : list Z :=
  match k with In => [60] | Out => [62] | Append => [62; 62] end.
Fixpoint show (c : acmd) : list Z :=
  match c with
  | AExec argv => concat ((fun w => w ++ [32]) <$> argv)
  | ARedir c k file => [40] ++ show c ++ [41] ++ show_redir k ++ file ++ [32]
  | APipe l r => [40] ++ show l ++ [41] ++ [124] ++ [40] ++ show r ++ [41]
  | AList l r => [40] ++ show l ++ [41] ++ [59] ++ [40] ++ show r ++ [41]
  | ABack c => [40] ++ show c ++ [41] ++ [38]
  end.

Definition redir_mode (k : redir) : Z := match k with In => O_RDONLY | _ => Z.lor O_WRONLY O_CREATE end.
Definition redir_fd (k : redir) : Z := match k with In => 0 | _ => 1 end.

(** [stands_for buf p c]: the command [p] with pointers into [buf] is [c]. *)
Inductive stands_for (span : nat -> nat -> list Z -> Prop) : cmd -> acmd -> Prop :=
  | SF_exec argv ws : Forall2 (fun qe w => span (fst qe) (snd qe) w) argv ws -> stands_for span (EXEC argv) (AExec ws)
  | SF_redir p c q eq k w : stands_for span p c -> span q eq w ->
      stands_for span (REDIR p q eq (redir_mode k) (redir_fd k)) (ARedir c k w)
  | SF_pipe p1 p2 l r : stands_for span p1 l -> stands_for span p2 r -> stands_for span (PIPE p1 p2) (APipe l r)
  | SF_list p1 p2 l r : stands_for span p1 l -> stands_for span p2 r -> stands_for span (LIST p1 p2) (AList l r)
  | SF_back p c : stands_for span p c -> stands_for span (BACK p) (ABack c).

(** A word in the buffer, up to a character that is not part of a word. *)
Definition span_of (buf : list Z) (q eq : nat) (w : list Z) : Prop :=
  exists pre post, buf = pre ++ w ++ post /\ q = length pre /\ eq = length (pre ++ w) /\ word_ok w /\
    match post with [] => True | c :: _ => ~ word_char c end.

(** ** Tokens at known places *)

Definition white (c : Z) : Prop := c ∈ whitespace.

(** The first character of the rest is not white space. *)
Definition dark (post : list Z) : Prop := match post with [] => True | c :: _ => c ∉ whitespace end.

Section tokens.
Context (buf : list Z).

Lemma char_at pre c post : buf = pre ++ c :: post -> char buf (length pre) = c.
Proof. intros ->. unfold char. by rewrite app_nth2, Nat.sub_diag by lia. Qed.

Lemma char_past pre post : buf = pre ++ post -> char buf (length pre) = nth 0 post 0.
Proof. intros ->. unfold char. by rewrite app_nth2, Nat.sub_diag by lia. Qed.

Lemma skip_over test pre w post fuel :
  buf = pre ++ w ++ post -> Forall (fun c => test c = true) w ->
  match post with [] => True | c :: _ => test c = false end -> (length w <= fuel)%nat ->
  skip buf test fuel (length pre) = length (pre ++ w).
Proof.
  revert pre fuel. induction w as [|c w IH]; intros pre fuel Hb Hw Hp Hf.
  - rewrite app_nil_r. destruct fuel; [done|]. cbn [skip]. destruct post as [|c post].
    + rewrite (proj2 (Nat.ltb_ge _ _)); [done|]. unfold es. rewrite Hb. len.
    + by rewrite (char_at pre c post), Hp, andb_false_r.
  - destruct fuel; [cbn in Hf; lia|]. cbn [skip]. apply Forall_cons in Hw as [Hc Hw].
    rewrite (char_at pre c (w ++ post)) by done. rewrite Hc.
    rewrite (proj2 (Nat.ltb_lt _ _)) by (unfold es; rewrite Hb; len). cbn [andb].
    replace (S (length pre)) with (length (pre ++ [c])) by len. replace (pre ++ c :: w) with ((pre ++ [c]) ++ w) by (by rewrite <- app_assoc).
    apply IH; [by rewrite <- app_assoc|done|done|cbn in Hf; lia].
Qed.

Lemma white_in_set c : in_set whitespace c = bool_decide (white c).
Proof. apply in_set_elem. unfold whitespace. set_solver. Qed.

Lemma skip_white_over pre w post :
  buf = pre ++ w ++ post -> Forall white w -> dark post -> skip_white buf (length pre) = length (pre ++ w).
Proof.
  intros Hb Hw Hp. apply (skip_over _ _ _ post); [done| | |].
  - eapply Forall_impl; [exact Hw|]. intros c Hc. rewrite white_in_set. by apply bool_decide_eq_true_2.
  - destruct post; [done|]. rewrite white_in_set. by apply bool_decide_eq_false_2.
  - unfold es. rewrite Hb. len.
Qed.

Lemma skip_white_none pre post : buf = pre ++ post -> dark post -> skip_white buf (length pre) = length pre.
Proof. intros Hb Hp. rewrite (skip_white_over pre [] post); [by rewrite app_nil_r|done|constructor|done]. Qed.

Lemma gettoken_sym pre c post :
  buf = pre ++ c :: post -> c ∈ str "|();&<" ->
  gettoken buf (length pre) = (c, length pre, length (pre ++ [c]), skip_white buf (length (pre ++ [c]))).
Proof.
  intros Hb Hc. unfold gettoken. rewrite (skip_white_none pre (c :: post)).
  2: done.
  2: { cbn. unfold whitespace. revert Hc. unfold str. cbn. set_solver. }
  rewrite (char_at pre c post) by done. rewrite (proj2 (Z.eqb_neq c 0)) by (revert Hc; unfold str; cbn; set_solver).
  rewrite in_set_elem by (vm_compute; set_solver). rewrite bool_decide_eq_true_2 by done. by replace (S (length pre)) with (length (pre ++ [c])) by len.
Qed.

Lemma gettoken_gt pre post :
  buf = pre ++ 62 :: post -> nth 0 post 0 <> 62 ->
  gettoken buf (length pre) = (62, length pre, length (pre ++ [62]), skip_white buf (length (pre ++ [62]))).
Proof.
  intros Hb Hc. unfold gettoken. rewrite (skip_white_none pre (62 :: post)); [|done|cbn; unfold whitespace; set_solver].
  rewrite (char_at pre 62 post) by done. change (62 =? 0) with false. change (in_set (str "|();&<") 62) with false. change (62 =? 62) with true. cbv iota.
  replace (S (length pre)) with (length (pre ++ [62])) by len. rewrite (char_past (pre ++ [62]) post) by (by rewrite <- app_assoc).
  by rewrite (proj2 (Z.eqb_neq _ 62)).
Qed.

Lemma gettoken_gtgt pre post :
  buf = pre ++ 62 :: 62 :: post ->
  gettoken buf (length pre) = (43, length pre, length (pre ++ [62; 62]), skip_white buf (length (pre ++ [62; 62]))).
Proof.
  intros Hb. unfold gettoken. rewrite (skip_white_none pre (62 :: 62 :: post)); [|done|cbn; unfold whitespace; set_solver].
  rewrite (char_at pre 62 (62 :: post)) by done. change (62 =? 0) with false. change (in_set (str "|();&<") 62) with false. change (62 =? 62) with true. cbv iota.
  replace (S (length pre)) with (length (pre ++ [62])) by len. rewrite (char_at (pre ++ [62]) 62 post) by (by rewrite <- app_assoc).
  change (62 =? 62) with true. cbv iota. by replace (S (length (pre ++ [62]))) with (length (pre ++ [62; 62])) by len.
Qed.

Lemma gettoken_word pre w post :
  buf = pre ++ w ++ post -> word_ok w -> match post with [] => True | c :: _ => ~ word_char c /\ c <> 0 end ->
  gettoken buf (length pre) = (97, length pre, length (pre ++ w), skip_white buf (length (pre ++ w))).
Proof.
  intros Hb [Hne Hw] Hp. destruct w as [|c w]; [done|]. pose proof Hw as [(H0 & Hc1 & Hc2) _]%Forall_cons.
  unfold gettoken. rewrite (skip_white_none pre (c :: w ++ post)); [|done|done].
  rewrite (char_at pre c (w ++ post)) by done. rewrite (proj2 (Z.eqb_neq c 0)) by done.
  rewrite in_set_elem by (vm_compute; set_solver). rewrite bool_decide_eq_false_2.
  2: { revert Hc2. unfold symbols, str. cbn. set_solver. }
  rewrite (proj2 (Z.eqb_neq c 62)) by (revert Hc2; unfold symbols, str; cbn; set_solver).
  unfold skip_word. rewrite (skip_over _ pre (c :: w) post); [done|done| | |unfold es; rewrite Hb; len].
  - eapply Forall_impl; [exact Hw|]. intros x (_ & Hx1 & Hx2). rewrite white_in_set, bool_decide_eq_false_2 by done.
    rewrite in_set_elem by (vm_compute; set_solver). by rewrite bool_decide_eq_false_2.
  - destruct post as [|x post]; [done|]. destruct Hp as [Hp Hx]. rewrite white_in_set, in_set_elem by (vm_compute; set_solver).
    destruct (bool_decide (white x)) eqn:E1; [done|]. destruct (bool_decide (x ∈ symbols)) eqn:E2; [done|].
    apply bool_decide_eq_false in E1, E2. by destruct Hp.
Qed.

Lemma peek_at pre post toks :
  buf = pre ++ post -> dark post -> 0 ∉ toks ->
  peek buf (length pre) toks = (bool_decide (nth 0 post 0 <> 0 /\ nth 0 post 0 ∈ toks), length pre).
Proof.
  intros Hb Hd H0. unfold peek. rewrite (skip_white_none pre post) by done. rewrite (char_past pre post) by done.
  rewrite in_set_elem by done. f_equal. destruct (Z.eqb_spec (nth 0 post 0) 0); cbn [negb andb].
  - rewrite bool_decide_eq_false_2; tauto.
  - apply bool_decide_ext. tauto.
Qed.
End tokens.

(** ** Parsing what [show] prints *)

(** What may follow a command: the end, or a closing parenthesis. *)
Definition closing (post : list Z) : Prop := post = [] \/ exists r, post = 41 :: r.

Lemma closing_dark post : closing post -> dark post.
Proof. intros [->|[r ->]]; cbn; [done|]. unfold whitespace. set_solver. Qed.

Lemma show_dark c post : acmd_ok c -> dark (show c ++ 41 :: post).
Proof.
  destruct c as [[|w argv]| | | |]; cbn; try (intros; unfold whitespace; set_solver).
  intros [[[Hne Hw] _]%Forall_cons _]. destruct w as [|x w]; [done|]. cbn. by apply Forall_cons in Hw as [(_ & ? & _) _].
Qed.

Section shown.
Context (buf : list Z).

Lemma peek_char pre c post toks :
  buf = pre ++ c :: post -> c ∉ whitespace -> c <> 0 -> 0 ∉ toks -> peek buf (length pre) toks = (bool_decide (c ∈ toks), length pre).
Proof.
  intros Hb Hw Hc H0. rewrite (peek_at buf pre (c :: post)) by done. cbn [nth]. f_equal. apply bool_decide_ext. tauto.
Qed.

Lemma peek_closing pre post toks :
  buf = pre ++ post -> closing post -> 0 ∉ toks -> 41 ∉ toks -> peek buf (length pre) toks = (false, length pre).
Proof.
  intros Hb Hc H0 H1. rewrite (peek_at buf pre post) by (done || by apply closing_dark). f_equal.
  apply bool_decide_eq_false_2. destruct Hc as [->|[r ->]]; cbn; tauto.
Qed.

(** The rest does not start a redirection. *)
Lemma redirs_none pre post n wrap :
  buf = pre ++ post -> dark post -> nth 0 post 0 <> 60 -> nth 0 post 0 <> 62 ->
  parseredirs buf (S n) (length pre) wrap = Parsed (wrap, length pre).
Proof.
  intros Hb Hd H1 H2. cbn [parseredirs]. rewrite (peek_at buf pre post) by (done || (vm_compute; set_solver)).
  rewrite bool_decide_eq_false_2; [done|]. intros [_ H]. revert H. unfold str. cbn. set_solver.
Qed.

Lemma word_span pre w post :
  buf = pre ++ w ++ post -> word_ok w -> match post with [] => True | c :: _ => ~ word_char c end ->
  span_of buf (length pre) (length (pre ++ w)) w.
Proof. intros Hb Hw Hp. by exists pre, post. Qed.

Lemma not_word_blank : ~ word_char 32.
Proof. intros (_ & H & _). apply H. unfold whitespace. set_solver. Qed.

Lemma word_dark w post : word_ok w -> dark (w ++ post) /\ (nth 0 (w ++ post) 0 ∉ symbols) /\ nth 0 (w ++ post) 0 <> 0.
Proof. intros [Hne Hw]. destruct w as [|x w]; [done|]. cbn. by apply Forall_cons in Hw as [(? & ? & ?) _]. Qed.

(** A word and the blank after it. *)
Lemma gettoken_shown pre w post :
  buf = pre ++ w ++ 32 :: post -> word_ok w -> dark post ->
  gettoken buf (length pre) = (97, length pre, length (pre ++ w), length (pre ++ w ++ [32])).
Proof.
  intros Hb Hw Hd. rewrite (gettoken_word buf pre w (32 :: post)); [|done|done|split; [apply not_word_blank|done]].
  f_equal. rewrite (skip_white_over buf (pre ++ w) [32] post); [by rewrite <- app_assoc|by rewrite Hb, <- app_assoc| |done].
  repeat constructor.
Qed.

Lemma redirs_one pre k f post n wrap :
  buf = pre ++ show_redir k ++ f ++ 32 :: post -> word_ok f -> closing post -> (1 <= n)%nat ->
  exists q eq, parseredirs buf (S n) (length pre) wrap =
      Parsed (fun c => REDIR (wrap c) q eq (redir_mode k) (redir_fd k), length (pre ++ show_redir k ++ f ++ [32])) /\
    span_of buf q eq f.
Proof.
  intros Hb Hf Hc Hn. set (pre' := pre ++ show_redir k).
  assert (buf = pre' ++ f ++ 32 :: post) as Hb' by (subst pre'; by rewrite <- app_assoc).
  destruct (word_dark f (32 :: post) Hf) as (Hd & Hsym & _).
  exists (length pre'), (length (pre' ++ f)). split; [|exact (word_span pre' f (32 :: post) Hb' Hf not_word_blank)].
  assert (exists tok, gettoken buf (length pre) = (tok, length pre, length pre', length pre') /\
    (tok = match k with In => 60 | Out => 62 | Append => 43 end)) as (tok & Ht & Htok).
  { assert (skip_white buf (length pre') = length pre') as Hs by (by eapply skip_white_none).
    destruct k; cbn [show_redir] in *; eexists; (split; [|done]); subst pre'.
    - rewrite (gettoken_sym buf pre 60 (f ++ 32 :: post)) by (done || (vm_compute; set_solver)). by rewrite Hs.
    - rewrite (gettoken_gt buf pre (f ++ 32 :: post)); [by rewrite Hs|done|]. intros E. apply Hsym. rewrite E. vm_compute. set_solver.
    - rewrite (gettoken_gtgt buf pre (f ++ 32 :: post)) by done. by rewrite Hs. }
  replace (pre ++ show_redir k ++ f ++ [32]) with (pre' ++ f ++ [32]) by (subst pre'; by rewrite <- app_assoc).
  cbn [parseredirs]. assert (peek buf (length pre) (str "<>") = (true, length pre)) as ->.
  { destruct k; [rewrite (peek_char pre 60 (f ++ 32 :: post))|rewrite (peek_char pre 62 (f ++ 32 :: post))
      |rewrite (peek_char pre 62 (62 :: f ++ 32 :: post))]; try done; try (unfold whitespace; set_solver); try (vm_compute; set_solver). }
  cbn [negb]. rewrite Ht. rewrite (gettoken_shown pre' f post) by (done || by apply closing_dark). change (97 =? 97) with true. cbn [negb].
  assert (forall wr, parseredirs buf n (length (pre' ++ f ++ [32])) wr = Parsed (wr, length (pre' ++ f ++ [32]))) as Hr.
  { intros wr. destruct n as [|n]; [lia|]. apply (redirs_none _ post); [by rewrite Hb', <- !app_assoc|by apply closing_dark|..]; destruct Hc as [->|[r ->]]; done. }
  subst tok. destruct k; cbn [Z.eqb Pos.eqb]; rewrite Hr; done.
Qed.

(** The words of a simple command. *)
Lemma exec_words ws fuel pre post argv :
  buf = pre ++ show (AExec ws) ++ post -> closing post -> Forall word_ok ws ->
  (length argv + length ws < MAXARGS)%nat -> (length ws < fuel)%nat ->
  exists argv', parseexec_loop buf fuel (length pre) argv (fun c => c) =
      Parsed (EXEC (argv ++ argv'), length (pre ++ show (AExec ws))) /\
    Forall2 (fun qe w => span_of buf (fst qe) (snd qe) w) argv' ws.
Proof.
  revert fuel pre argv. induction ws as [|w ws IH]; intros fuel pre argv Hb Hc Hws Hlen Hf; (destruct fuel as [|fuel]; [cbn in Hf; lia|]).
  - cbn [show fmap list_fmap concat app] in *. rewrite !app_nil_r. exists []. split; [|constructor]. cbn [parseexec_loop]. rewrite app_nil_r.
    destruct Hc as [->|[r ->]].
    + rewrite app_nil_r in Hb. rewrite (peek_at buf pre []) by (rewrite ?app_nil_r; done || (vm_compute; set_solver)). cbn [nth].
      rewrite bool_decide_eq_false_2 by tauto. unfold gettoken.
      rewrite (skip_white_none buf pre []) by (rewrite ?app_nil_r; done). rewrite (char_past buf pre []) by (by rewrite app_nil_r). cbn.
      by rewrite (skip_white_none buf pre []) by (rewrite ?app_nil_r; done).
    + rewrite (peek_char pre 41 r) by (done || (vm_compute; set_solver)). by rewrite bool_decide_eq_true_2 by (vm_compute; set_solver).
  - apply Forall_cons in Hws as [Hw Hws]. cbn [show fmap list_fmap concat] in *. rewrite <- !app_assoc in Hb. cbn [app] in Hb.
    destruct (word_dark w (32 :: concat ((fun w => w ++ [32]) <$> ws) ++ post) Hw) as (Hd & Hsym & H0).
    assert (dark (concat ((fun w => w ++ [32]) <$> ws) ++ post)) as Hd2.
    { destruct ws as [|w2 ws]; cbn; [by apply closing_dark|]. apply Forall_cons in Hws as [Hw2 _]. rewrite <- !app_assoc. by apply word_dark. }
    destruct (IH fuel (pre ++ w ++ [32]) (argv ++ [(length pre, length (pre ++ w))])) as (argv' & IH1 & IH2);
      [by rewrite Hb, <- !app_assoc|done|done|len|cbn in Hf; lia|].
    exists ((length pre, length (pre ++ w)) :: argv'). split.
    2: { constructor; [|done]. cbn. by eapply word_span; [exact Hb|done|apply not_word_blank]. }
    cbn [parseexec_loop]. rewrite (peek_at buf pre (w ++ 32 :: concat ((fun w => w ++ [32]) <$> ws) ++ post)) by (done || (vm_compute; set_solver)).
    rewrite bool_decide_eq_false_2 by (intros [_ H]; apply Hsym; revert H; vm_compute; set_solver).
    rewrite (gettoken_shown pre w (concat ((fun w => w ++ [32]) <$> ws) ++ post)) by done. cbn [Z.eqb Pos.eqb negb].
    rewrite (proj2 (Nat.leb_gt _ _)) by len.
    rewrite (redirs_none (pre ++ w ++ [32]) (concat ((fun w => w ++ [32]) <$> ws) ++ post)); [|by rewrite Hb, <- !app_assoc|done|..].
    + cbn [mbind parse_bind]. rewrite IH1. do 2 f_equal; [f_equal; by rewrite <- app_assoc|]. by rewrite <- !app_assoc.
    + destruct ws as [|w2 ws]; cbn; [by destruct Hc as [->|[r ->]]|]. apply Forall_cons in Hws as [Hw2 _]. rewrite <- !app_assoc.
      destruct (word_dark w2 ([32] ++ concat ((fun w => w ++ [32]) <$> ws) ++ post) Hw2) as (_ & Hs2 & _). intros E. apply Hs2. rewrite E. vm_compute. set_solver.
    + destruct ws as [|w2 ws]; cbn; [by destruct Hc as [->|[r ->]]|]. apply Forall_cons in Hws as [Hw2 _]. rewrite <- !app_assoc.
      destruct (word_dark w2 ([32] ++ concat ((fun w => w ++ [32]) <$> ws) ++ post) Hw2) as (_ & Hs2 & _). intros E. apply Hs2. rewrite E. vm_compute. set_solver.
Qed.

(** Nothing follows but the end of the command. *)
Lemma parsepipe_done fuel ps p pre post :
  parseexec buf fuel ps = Parsed (p, length pre) -> buf = pre ++ post -> dark post -> nth 0 post 0 <> 124 ->
  parsepipe buf (S fuel) ps = Parsed (p, length pre).
Proof.
  intros He Hb Hd Hc. cbn [parsepipe]. rewrite He. cbn [mbind parse_bind]. rewrite (peek_at buf pre post) by (done || (vm_compute; set_solver)).
  rewrite bool_decide_eq_false_2; [done|]. intros [_ H]. apply Hc. revert H. vm_compute. set_solver.
Qed.

Lemma parseline_done fuel ps p pre post :
  parsepipe buf fuel ps = Parsed (p, length pre) -> buf = pre ++ post -> closing post ->
  parseline buf (S fuel) ps = Parsed (p, length pre).
Proof.
  intros He Hb Hc. cbn [parseline]. rewrite He. cbn [mbind parse_bind parse_amps].
  rewrite (peek_closing pre post (str "&")) by (done || (vm_compute; set_solver)). cbn [negb].
  change (mret (p, length pre)) with (Parsed (p, length pre)). cbn [mbind parse_bind].
  by rewrite (peek_closing pre post (str ";")) by (done || (vm_compute; set_solver)).
Qed.

(** A command in parentheses, with the redirections after it. *)
Lemma block_parse c p wrap ps fuel pre post :
  buf = pre ++ [40] ++ show c ++ [41] ++ post -> acmd_ok c -> dark post ->
  parseline buf fuel (length (pre ++ [40])) = Parsed (p, length (pre ++ [40] ++ show c)) ->
  parseredirs buf (S (es buf)) (length (pre ++ [40] ++ show c ++ [41])) (fun c => c) = Parsed (wrap, ps) ->
  parseexec buf (S (S fuel)) (length pre) = Parsed (wrap p, ps).
Proof.
  intros Hb Hok Hd Hl Hr. cbn [parseexec]. rewrite (peek_char pre 40 (show c ++ [41] ++ post)) by (done || (vm_compute; set_solver)).
  rewrite bool_decide_eq_true_2 by (vm_compute; set_solver). cbn [parseblock].
  rewrite (peek_char pre 40 (show c ++ [41] ++ post)) by (done || (vm_compute; set_solver)).
  rewrite bool_decide_eq_true_2 by (vm_compute; set_solver). cbn [negb].
  rewrite (gettoken_sym buf pre 40 (show c ++ [41] ++ post)) by (done || (vm_compute; set_solver)).
  rewrite (skip_white_none buf (pre ++ [40]) (show c ++ [41] ++ post)); [|by rewrite Hb, <- app_assoc|by apply show_dark].
  rewrite Hl. cbn [mbind parse_bind].
  assert (buf = (pre ++ [40] ++ show c) ++ 41 :: post) as Hb2 by (by rewrite Hb, <- !app_assoc).
  rewrite (peek_char _ 41 post _ Hb2) by (done || (vm_compute; set_solver)). rewrite bool_decide_eq_true_2 by (vm_compute; set_solver). cbn [negb].
  rewrite (gettoken_sym buf _ 41 post Hb2) by (vm_compute; set_solver).
  rewrite (skip_white_none buf _ post); [|by rewrite Hb2, <- !app_assoc|done].
  replace ((pre ++ [40] ++ show c) ++ [41]) with (pre ++ [40] ++ show c ++ [41]) by (by rewrite <- !app_assoc). by rewrite Hr.
Qed.

(** The same without redirections. *)
Lemma block_plain c p fuel pre post :
  buf = pre ++ [40] ++ show c ++ [41] ++ post -> acmd_ok c -> dark post -> nth 0 post 0 <> 60 -> nth 0 post 0 <> 62 ->
  parseline buf fuel (length (pre ++ [40])) = Parsed (p, length (pre ++ [40] ++ show c)) ->
  parseexec buf (S (S fuel)) (length pre) = Parsed (p, length (pre ++ [40] ++ show c ++ [41])).
Proof.
  intros Hb Hok Hd H1 H2 Hl. apply (block_parse c p (fun c => c) _ fuel pre post); try done.
  apply (redirs_none _ post); [|done..]. by rewrite Hb, <- !app_assoc.
Qed.

Definition shown (c : acmd) : Prop := forall fuel pre post,
  buf = pre ++ show c ++ post -> closing post -> (4 * (es buf - length pre) + 4 <= fuel)%nat ->
  exists p, parseline buf fuel (length pre) = Parsed (p, length (pre ++ show c)) /\ stands_for (span_of buf) p c.

(** A part in parentheses, from [parseexec]. *)
Lemma shown_block c fuel pre post :
  shown c -> acmd_ok c -> buf = pre ++ [40] ++ show c ++ [41] ++ post -> dark post -> nth 0 post 0 <> 60 -> nth 0 post 0 <> 62 ->
  (4 * (es buf - length pre) + 2 <= fuel)%nat ->
  exists p, parseexec buf fuel (length pre) = Parsed (p, length (pre ++ [40] ++ show c ++ [41])) /\ stands_for (span_of buf) p c.
Proof.
  intros IH Hok Hb Hd H1 H2 Hf. assert (length pre < es buf)%nat by (unfold es; rewrite Hb; len).
  destruct fuel as [|[|fuel]]; [lia..|].
  destruct (IH fuel (pre ++ [40]) ([41] ++ post)) as (p & Hp & Hs); [by rewrite Hb, <- app_assoc|right; by eexists|len|].
  rewrite <- app_assoc in Hp. exists p. split; [|done]. by eapply block_plain.
Qed.

Lemma shown_exec ws : acmd_ok (AExec ws) -> shown (AExec ws).
Proof.
  intros [Hws Hlen] fuel pre post Hb Hc Hf. destruct fuel as [|[|[|fuel]]]; [lia..|].
  assert (length ws <= es buf)%nat as Hl.
  { unfold es. rewrite Hb, !length_app. cbn [show]. clear. induction ws as [|w ws IH]; cbn; [lia|]. len. }
  destruct (exec_words ws (S (es buf)) pre post [] Hb Hc Hws ltac:(done) ltac:(lia)) as (argv & Hp & Hs).
  exists (EXEC argv). split; [|by constructor].
  assert (dark (show (AExec ws) ++ post) /\ (nth 0 (show (AExec ws) ++ post) 0 ∉ ([40; 60; 62] : list Z))) as [Hd Hn].
  { cbn [show]. destruct ws as [|w ws]; cbn.
    - split; [by apply closing_dark|]. destruct Hc as [->|[r ->]]; cbn; set_solver.
    - apply Forall_cons in Hws as [Hw _]. rewrite <- !app_assoc. destruct (word_dark w ([32] ++ concat ((fun w => w ++ [32]) <$> ws) ++ post) Hw) as (? & Hs' & _).
      split; [done|]. intros HH. apply Hs'. revert HH. generalize (nth 0 (w ++ [32] ++ concat ((fun w => w ++ [32]) <$> ws) ++ post) 0).
      intros x. unfold symbols, str. cbn. set_solver. }
  eapply parseline_done; [|by rewrite <- app_assoc|done]. eapply parsepipe_done; [|by rewrite <- app_assoc|by apply closing_dark|destruct Hc as [->|[r ->]]; done].
  cbn [parseexec]. rewrite (peek_at buf pre (show (AExec ws) ++ post)) by (done || (vm_compute; set_solver)).
  rewrite bool_decide_eq_false_2 by (intros [_ HH]; apply Hn; revert HH; unfold str; cbn [list_ascii_of_string fmap list_fmap]; set_solver).
  rewrite (redirs_none pre (show (AExec ws) ++ post)) by (done || (intros E; apply Hn; rewrite E; set_solver)). exact Hp.
Qed.

Lemma shown_redir c k f : shown c -> acmd_ok (ARedir c k f) -> shown (ARedir c k f).
Proof.
  intros IH [Hok Hw] fuel pre post Hb Hc Hf. cbn [show] in *. rewrite <- !app_assoc in Hb.
  assert (length pre < es buf)%nat by (unfold es; rewrite Hb; len). destruct fuel as [|[|[|[|fuel]]]]; [lia..|].
  destruct (IH fuel (pre ++ [40]) ([41] ++ show_redir k ++ f ++ [32] ++ post)) as (p & Hp & Hs);
    [by rewrite Hb, <- app_assoc|right; by eexists|len|]. rewrite <- app_assoc in Hp.
  destruct (redirs_one (pre ++ [40] ++ show c ++ [41]) k f post (es buf) (fun c => c)) as (q & eq & Hr & Hq);
    [by rewrite Hb, <- !app_assoc|done|done|lia|].
  exists (REDIR p q eq (redir_mode k) (redir_fd k)). split; [|by constructor].
  rewrite <- !app_assoc in Hr.
  assert (buf = (pre ++ [40] ++ show c ++ [41] ++ show_redir k ++ f ++ [32]) ++ post) as Hb' by (by rewrite Hb, <- !app_assoc).
  eapply parseline_done; [|exact Hb'|done]. eapply parsepipe_done; [|exact Hb'|by apply closing_dark|destruct Hc as [->|[? ->]]; done].
  eapply (block_parse c p (fun c => REDIR c q eq (redir_mode k) (redir_fd k))); [exact Hb|done| |exact Hp|exact Hr].
  destruct k; cbn; unfold whitespace; set_solver.
Qed.

(** A part in parentheses followed by an operator: the operator's token. *)
Lemma operator pre x post :
  buf = pre ++ x :: post -> x ∈ str "|;&" -> dark post ->
  (forall toks, 0 ∉ toks -> peek buf (length pre) toks = (bool_decide (x ∈ toks), length pre)) /\
  gettoken buf (length pre) = (x, length pre, length (pre ++ [x]), length (pre ++ [x])).
Proof.
  intros Hb Hx Hd. split.
  - intros toks H0. apply (peek_char pre x post); [done| | |done]; revert Hx; unfold whitespace, str; cbn; set_solver.
  - rewrite (gettoken_sym buf pre x post) by (done || (revert Hx; unfold str; cbn; set_solver)).
    by rewrite (skip_white_none buf _ post) by (done || by rewrite Hb, <- app_assoc).
Qed.

Lemma op_dark x post : x ∈ str "|;&" -> dark (x :: post) /\ x <> 60 /\ x <> 62.
Proof. intros Hx. revert Hx. unfold dark, whitespace, str. cbn. set_solver. Qed.

(** Two parts around an operator; the second from [parseexec]. *)
Lemma two_parts l r x f1 f2 pre post :
  shown l -> shown r -> acmd_ok l -> acmd_ok r -> x ∈ str "|;&" -> closing post ->
  buf = pre ++ [40] ++ show l ++ [41] ++ [x] ++ [40] ++ show r ++ [41] ++ post ->
  (4 * (es buf - length pre) + 2 <= f1)%nat -> (4 * (es buf - length pre) <= f2)%nat ->
  exists p1 p2, let mid := pre ++ [40] ++ show l ++ [41] in let stop := mid ++ [x] ++ [40] ++ show r ++ [41] in
    parseexec buf f1 (length pre) = Parsed (p1, length mid) /\
    parseexec buf f2 (length (mid ++ [x])) = Parsed (p2, length stop) /\
    stands_for (span_of buf) p1 l /\ stands_for (span_of buf) p2 r /\ buf = mid ++ x :: [40] ++ show r ++ [41] ++ post.
Proof.
  intros Hl Hr Okl Okr Hx Hc Hb Hf1 Hf2. destruct (op_dark x ([40] ++ show r ++ [41] ++ post) Hx) as (Hd & ? & ?).
  destruct (shown_block l f1 pre ([x] ++ [40] ++ show r ++ [41] ++ post)) as (p1 & Hp1 & Hs1); [done|done|done|done|done|done|lia|].
  set (mid := pre ++ [40] ++ show l ++ [41]) in *.
  assert (length pre + 2 <= length mid)%nat by (subst mid; len).
  assert (buf = (mid ++ [x]) ++ [40] ++ show r ++ [41] ++ post) as Hb2 by (subst mid; by rewrite Hb, <- !app_assoc).
  assert (length (mid ++ [x]) < es buf)%nat by (unfold es; rewrite Hb2; len).
  destruct (shown_block r f2 (mid ++ [x]) post Hr Okr Hb2) as (p2 & Hp2 & Hs2);
    [by apply closing_dark|destruct Hc as [->|[? ->]]; done|destruct Hc as [->|[? ->]]; done|len|].
  exists p1, p2. cbv zeta. rewrite <- !app_assoc in Hp2. cbn [app] in *. split_and!; try done. by rewrite Hb2, <- app_assoc.
Qed.

(** One step of the two procedures that look for an operator. *)
Lemma parsepipe_bar fuel ps p mid post p2 stop :
  parseexec buf fuel ps = Parsed (p, length mid) -> buf = mid ++ 124 :: post -> dark post ->
  parsepipe buf fuel (length (mid ++ [124])) = Parsed (p2, stop) -> parsepipe buf (S fuel) ps = Parsed (PIPE p p2, stop).
Proof.
  intros H1 Hb Hd H2. destruct (operator mid 124 post Hb) as [Hp Ht]; [vm_compute; set_solver|done|]. cbn [parsepipe]. rewrite H1. cbn [mbind parse_bind].
  rewrite Hp by (vm_compute; set_solver). rewrite bool_decide_eq_true_2 by (vm_compute; set_solver). cbn [negb]. rewrite Ht. by rewrite H2.
Qed.

Lemma parseline_semi fuel ps p mid post p2 stop :
  parsepipe buf fuel ps = Parsed (p, length mid) -> buf = mid ++ 59 :: post -> dark post ->
  parseline buf fuel (length (mid ++ [59])) = Parsed (p2, stop) -> parseline buf (S fuel) ps = Parsed (LIST p p2, stop).
Proof.
  intros H1 Hb Hd H2. destruct (operator mid 59 post Hb) as [Hp Ht]; [vm_compute; set_solver|done|]. cbn [parseline]. rewrite H1. cbn [mbind parse_bind parse_amps].
  rewrite (Hp (str "&")) by (vm_compute; set_solver). rewrite bool_decide_eq_false_2 by (vm_compute; set_solver). cbn [negb].
  change (mret (p, length mid)) with (Parsed (p, length mid)). cbn [mbind parse_bind].
  rewrite (Hp (str ";")) by (vm_compute; set_solver). rewrite bool_decide_eq_true_2 by (vm_compute; set_solver). cbn [negb]. rewrite Ht. by rewrite H2.
Qed.

Lemma parseline_amp fuel ps p mid post :
  parsepipe buf fuel ps = Parsed (p, length mid) -> buf = mid ++ 38 :: post -> closing post ->
  parseline buf (S fuel) ps = Parsed (BACK p, length (mid ++ [38])).
Proof.
  intros H1 Hb Hc. destruct (operator mid 38 post Hb) as [Hp Ht]; [vm_compute; set_solver|by apply closing_dark|].
  assert (1 <= es buf)%nat as [n Hn]%Nat.le_exists_sub by (unfold es; rewrite Hb; len). destruct Hn as [Hn _]. rewrite Nat.add_1_r in Hn.
  assert (buf = (mid ++ [38]) ++ post) as Hb' by (by rewrite Hb, <- app_assoc).
  cbn [parseline]. rewrite H1. cbn [mbind parse_bind]. rewrite Hn. cbn [parse_amps].
  rewrite (Hp (str "&")) by (vm_compute; set_solver). rewrite bool_decide_eq_true_2 by (vm_compute; set_solver). cbn [negb]. rewrite Ht.
  rewrite (peek_closing _ _ (str "&") Hb' Hc) by (vm_compute; set_solver). cbn [negb].
  change (mret (backcmd p, length (mid ++ [38]))) with (Parsed (BACK p, length (mid ++ [38]))). cbn [mbind parse_bind].
  by rewrite (peek_closing _ _ (str ";") Hb' Hc) by (vm_compute; set_solver).
Qed.

Lemma closing_not post x : closing post -> x <> 41 -> x <> 0 -> nth 0 post 0 <> x.
Proof. intros [->|[r ->]] ??; cbn; lia. Qed.

Lemma show_parse c : acmd_ok c -> shown c.
Proof.
  induction c as [ws|c IH k f|l IHl r IHr|l IHl r IHr|c IH]; intros Hok.
  - by apply shown_exec.
  - apply shown_redir; [|done]. by apply IH, Hok.
  - destruct Hok as [Hl Hr]. intros fuel pre post Hb Hc Hf. cbn [show] in *. rewrite <- !app_assoc in Hb. destruct fuel as [|[|[|fuel]]]; [lia..|].
    destruct (two_parts l r 124 (S fuel) fuel pre post (IHl Hl) (IHr Hr) Hl Hr ltac:(vm_compute; set_solver) Hc Hb) as (p1 & p2 & H1 & H2 & S1 & S2 & Hm); [lia..|].
    exists (PIPE p1 p2). split; [|by constructor]. rewrite <- !app_assoc in H2.
    eapply parseline_done; [|by rewrite <- !app_assoc|done]. eapply parsepipe_bar; [exact H1|exact Hm|cbn; unfold whitespace; set_solver|].
    rewrite <- !app_assoc. eapply parsepipe_done; [exact H2|by rewrite <- !app_assoc|by apply closing_dark|by apply closing_not].
  - destruct Hok as [Hl Hr]. intros fuel pre post Hb Hc Hf. cbn [show] in *. rewrite <- !app_assoc in Hb. destruct fuel as [|[|[|fuel]]]; [lia..|].
    destruct (two_parts l r 59 (S fuel) fuel pre post (IHl Hl) (IHr Hr) Hl Hr ltac:(vm_compute; set_solver) Hc Hb) as (p1 & p2 & H1 & H2 & S1 & S2 & Hm); [lia..|].
    exists (LIST p1 p2). split; [|by constructor]. rewrite <- !app_assoc in H2.
    eapply parseline_semi; [eapply parsepipe_done; [exact H1|exact Hm|cbn; unfold whitespace; set_solver|done]|exact Hm|cbn; unfold whitespace; set_solver|].
    rewrite <- !app_assoc. eapply parseline_done; [|by rewrite <- !app_assoc|done].
    eapply parsepipe_done; [exact H2|by rewrite <- !app_assoc|by apply closing_dark|by apply closing_not].
  - cbn [acmd_ok] in Hok. intros fuel pre post Hb Hc Hf. cbn [show] in *. rewrite <- !app_assoc in Hb. destruct fuel as [|[|fuel]]; [lia..|].
    destruct (shown_block c fuel pre ([38] ++ post) (IH Hok) Hok Hb) as (p & Hp & Hs); [cbn; unfold whitespace; set_solver|done|done|lia|].
    exists (BACK p). split; [|by constructor]. replace (pre ++ [40] ++ show c ++ [41] ++ [38]) with ((pre ++ [40] ++ show c ++ [41]) ++ [38]) by (by rewrite <- !app_assoc).
    eapply parseline_amp; [|by rewrite Hb, <- !app_assoc|done]. eapply parsepipe_done; [exact Hp|by rewrite Hb, <- !app_assoc|cbn; unfold whitespace; set_solver|done].
Qed.
End shown.

(** ** nulterminate *)

Lemma stands_for_impl (S1 S2 : nat -> nat -> list Z -> Prop) p c :
  (forall q eq w, S1 q eq w -> S2 q eq w) -> stands_for S1 p c -> stands_for S2 p c.
Proof.
  intros H. induction 1 as [argv ws Hf| | | |]; constructor; auto. eapply Forall2_impl; [exact Hf|]. intros [q eq] w. apply H.
Qed.

Section terminate.
Context (buf : list Z).

(** [b] is the buffer with zeros in places that are not part of a word. *)
Definition ended (b : list Z) : Prop :=
  length b = S (length buf) /\ forall i x, buf !! i = Some x -> word_char x -> b !! i = Some x.

Definition keeps_zeros (b b' : list Z) : Prop := forall i, b !! i = Some 0 -> b' !! i = Some 0.

Lemma span_end q eq w : span_of buf q eq w -> (eq <= length buf)%nat /\ forall x, buf !! eq = Some x -> ~ word_char x.
Proof.
  intros (pre & post & Hb & -> & -> & _ & Hp). rewrite Hb, !length_app. split; [lia|].
  intros x. rewrite app_assoc, lookup_app_r, length_app, Nat.sub_diag by len. destruct post; [done|]. by intros [= ->].
Qed.

Lemma end_word b q eq w : span_of buf q eq w -> ended b -> ended (<[eq := 0]> b) /\ keeps_zeros b (<[eq := 0]> b) /\ <[eq := 0]> b !! eq = Some 0.
Proof.
  intros Hs [Hl Hw]. destruct (span_end _ _ _ Hs) as [Hle Hne].
  assert (forall i, <[eq := 0]> b !! i = if decide (i = eq) then Some 0 else b !! i) as Hi.
  { intros i. case_decide; [subst; apply list_lookup_insert_eq; lia|by apply list_lookup_insert_ne]. }
  split_and!.
  - split; [by rewrite length_insert|]. intros i x Hx Hc. rewrite Hi. case_decide; [subst; by destruct (Hne x)|by apply Hw].
  - intros i. rewrite Hi. by case_decide.
  - rewrite Hi. by rewrite decide_True.
Qed.

(** The word at [q] ends at [eq] in [b]. *)
Definition ended_span (b : list Z) (q eq : nat) (w : list Z) : Prop := span_of buf q eq w /\ b !! eq = Some 0.

Lemma nulterminate_exec argv ws b :
  Forall2 (fun qe w => span_of buf (fst qe) (snd qe) w) argv ws -> ended b ->
  let b' := fold_left (fun b qe => <[snd qe := 0]> b) argv b in
  ended b' /\ keeps_zeros b b' /\ Forall2 (fun qe w => ended_span b' (fst qe) (snd qe) w) argv ws.
Proof.
  intros Hf. revert b. induction Hf as [|[q eq] w argv ws Hs Hf IH]; intros b Hb; cbn; [split_and!; [done|by intros i|constructor]|].
  destruct (end_word b q eq w Hs Hb) as (H1 & H2 & H3). destruct (IH _ H1) as (I1 & I2 & I3). split_and!; [done|intros i Hi; by apply I2, H2|].
  constructor; [|done]. split; [done|]. by apply I2.
Qed.

Lemma nulterminate_spans p c b :
  stands_for (span_of buf) p c -> ended b ->
  let b' := nulterminate p b in ended b' /\ keeps_zeros b b' /\ stands_for (ended_span b') p c.
Proof.
  intros Hs. revert b.
  assert (forall b b' q eq w, keeps_zeros b b' -> ended_span b q eq w -> ended_span b' q eq w) as Hk
    by (intros b b' q eq w H [H1 H2]; split; auto).
  induction Hs as [argv ws Hf|p c q eq k w Hs IH Hw|p1 p2 l r H1 IH1 H2 IH2|p1 p2 l r H1 IH1 H2 IH2|p c Hs IH]; intros b Hb; cbn.
  - destruct (nulterminate_exec argv ws b Hf Hb) as (? & ? & ?). split_and!; [done..|by constructor].
  - destruct (IH b Hb) as (I1 & I2 & I3). destruct (end_word _ q eq w Hw I1) as (J1 & J2 & J3).
    split_and!; [done|intros i Hi; by apply J2, I2|]. constructor; [|by split]. eapply stands_for_impl; [|exact I3]. intros ???. by apply Hk.
  - destruct (IH1 b Hb) as (I1 & I2 & I3). destruct (IH2 _ I1) as (J1 & J2 & J3).
    split_and!; [done|intros i Hi; by apply J2, I2|]. constructor; [|done]. eapply stands_for_impl; [|exact I3]. intros ???. by apply Hk.
  - destruct (IH1 b Hb) as (I1 & I2 & I3). destruct (IH2 _ I1) as (J1 & J2 & J3).
    split_and!; [done|intros i Hi; by apply J2, I2|]. constructor; [|done]. eapply stands_for_impl; [|exact I3]. intros ???. by apply Hk.
  - destruct (IH b Hb) as (I1 & I2 & I3). split_and!; [done..|by constructor].
Qed.

Lemma ended_string b q eq w : ended b -> ended_span b q eq w -> at_ptr b q = w.
Proof.
  intros [Hl Hk] [(pre & post & Hb & -> & -> & [_ Hw] & _) H0]. unfold at_ptr.
  assert (drop (length pre) b = w ++ drop (length (pre ++ w)) b) as ->.
  { rewrite length_app, <- drop_drop. rewrite <- (take_drop (length w) (drop (length pre) b)) at 1. f_equal.
    apply list_eq. intros i. destruct (decide (i < length w)%nat) as [Hi|Hi].
    - rewrite lookup_take_lt, lookup_drop by done. destruct (lookup_lt_is_Some_2 w i Hi) as [x Hx]. rewrite Hx. apply Hk.
      + rewrite Hb, lookup_app_r, lookup_app_l by lia. by replace (length pre + i - length pre)%nat with i by lia.
      + by eapply Forall_lookup_1.
    - rewrite lookup_take_ge by lia. symmetry. apply lookup_ge_None_2. lia. }
  rewrite (drop_S _ _ _ H0). apply cstr_app. intros Hin. rewrite List.Forall_forall in Hw. by destruct (Hw 0 (proj1 (list_elem_of_In _ _) Hin)).
Qed.
End terminate.

(** The command [p] with pointers into [buf] is [c]. *)
Definition reads_as (buf : list Z) : cmd -> acmd -> Prop := stands_for (fun q _ w => at_ptr buf q = w).

(** C18: every command has a text that the shell reads back as that command:
    for every tree of simple commands, redirections, pipes, lists and background
    commands, [parsecmd] on the text [show] prints succeeds, and after
    [nulterminate] the pointers of the result point to the words of the tree,
    in its shape.  Both output redirections have the same mode. *)
Theorem sh_reads_back c :
  acmd_ok c -> exists p buf, parsecmd (show c) = Parsed (p, buf) /\ reads_as buf p c.
Proof.
  intros Hok. destruct (show_parse (show c) c Hok (depth (show c)) [] []) as (p & Hp & Hs); [by rewrite app_nil_r|by left|unfold depth, es; cbn; lia|].
  exists p, (nulterminate p (show c ++ [0])). split.
  - unfold parsecmd. cbn [length app] in Hp. rewrite Hp. cbn [mbind parse_bind].
    rewrite (peek_closing (show c) (show c) [] []) by (rewrite ?app_nil_r; (done || (by left) || apply not_elem_of_nil)). by rewrite Nat.eqb_refl.
  - destruct (nulterminate_spans (show c) p c (show c ++ [0]) Hs) as (He & _ & Hs').
    { split; [len|]. intros i x Hx _. apply lookup_app_l_Some. done. }
    eapply stands_for_impl; [|exact Hs']. intros q eq w. by apply ended_string.
Qed.

Definition sh_example : acmd :=
  AList (ARedir (AExec [str "cat"; str "a.txt"]) Out (str "b")) (ABack (APipe (AExec [str "ls"]) (AExec [str "wc"; str "-l"]))).

Lemma sh_reads_back_witness :
  exists p buf, parsecmd (show sh_example) = Parsed (p, buf) /\ reads_as buf p sh_example.
Proof.
  apply (sh_reads_back sh_example).
  cbn. repeat split; try lia; try discriminate; repeat constructor; try discriminate; cbn; unfold whitespace, symbols, str; cbn; set_solver.
Defined.
