(* ===== verification/Schedtest.v ===== *)
(** * The scheduler's test program (src/schedtest.c), forktest and stressfs

    [schedtest] forks processes with different numbers of tickets and kinds of
    work, and prints the share of the CPU each of them had.  A child sends what
    it measured to the program through a pipe, as the bytes of a [struct result].

    The programs run in the monad of the file Ulib: the answer to [fork] says
    whether the script is that of the program or of a child. *)

From Stdlib Require Import ZArith Lia String.
From stdpp Require Import prelude numbers option strings list.
From S2P Require Import Prelude Mem Mailbox Ulib Printf Programs Sh.

Definition NEXP_PROCS : nat := 8.

Record result : Type := mkResult {
  r_pid : Z;
  r_tickets : Z;
  r_ticks : Z;
  r_kind : Z }.

(** The bytes of a [struct result]. *)
Definition result_bytes (r : result) : list Z := le32 (r_pid r) ++ le32 (r_tickets r) ++ le32 (r_ticks r) ++ le32 (r_kind r).
Definition result_of (l : list Z) : result :=
  mkResult (s32 (get32 l 0)) (s32 (get32 l 4)) (s32 (get32 l 8)) (s32 (get32 l 12)).

(** ** print_stats *)

(** One round of the first loop: total, maximum and minimum of the ticks. *)
Definition stats_round (s : Z * Z * Z) (r : result) : Z * Z * Z :=
  let '(total, mx, mn) := s in
  (s32 (total + r_ticks r),
   if mx <? r_ticks r then r_ticks r else mx,
   if r_ticks r <? mn then r_ticks r else mn).
Definition stats (res : list result) : Z * Z * Z := foldl stats_round (0, 0, 999999) res.

Definition kind_name (k : Z) : list Z :=
  if k =? 1 then str "io(sleep)" else if k =? 2 then str "yield" else str "cpu(busy)".

Definition share_of (total : Z) (r : result) : Z :=
  if 0 <? total then s32 (r_ticks r * 100) ÷ total else 0.

Fixpoint print_rows (total : Z) (res : list result) : U unit :=
  match res with
  | [] => mret ()
  | r :: res =>
      fprintf 1 (line "  pid=%d  tickets=%d  ticks=%d  share=%d%%  type=%s")
        [UInt (r_pid r); UInt (r_tickets r); UInt (r_ticks r); UInt (share_of total r); UStr (kind_name (r_kind r))];;
      print_rows total res
  end.

Definition print_stats (title : list Z) (res : list result) : U unit :=
  let '(total, mx, mn) := stats res in
  fprintf 1 (10 :: line ">> %s") [UStr title];;
  fprintf 1 [10] [];;
  print_rows total res;;
  fprintf 1 [10] [];;
  fprintf 1 (line "  total=%d  max=%d  min=%d") [UInt total; UInt mx; UInt mn];;
  fprintf 1 [10] [].

(** ** The children *)

(** [collect]: each pipe is read into its place of [res], and a child waited for. *)
Fixpoint collect (pipes : list (list Z)) (res : list (list Z)) : U (list (list Z)) :=
  match pipes, res with
  | p :: pipes, old :: res =>
      r ← sys (Read (fd_at p 0) 16);
      _ ← call (Close (fd_at p 0));
      _ ← call Wait;
      rest ← collect pipes res;
      mret (overwrite (snd r) old :: rest)
  | _, _ => mret []
  end.

(** What every child does after its work: it reports the ticks it has run. *)
Definition report (mypid tickets kind : Z) (pipefd : list Z) : U unit :=
  cpu_time ← call Getrunticks;
  _ ← call (Write (fd_at pipefd 1) (result_bytes (mkResult mypid tickets cpu_time kind)));
  _ ← call (Close (fd_at pipefd 1));
  exit_.

(** [while(uptime() - start < 800)]; the work between the calls changes nothing. *)
Fixpoint burn (fuel : nat) (start : Z) : U unit :=
  match fuel with
  | O => fun _ => Runs
  | S fuel =>
      t ← call Uptime;
      if s32 (t - start) <? 800 then burn fuel start else mret ()
  end.

Fixpoint call_times (n : nat) (c : syscall) : U unit :=
  match n with
  | O => mret ()
  | S n => _ ← call c; call_times n c
  end.

(** The spawn functions differ in the work of the child. *)
Definition spawn (work : U unit) (kind tickets : Z) (pipefd : list Z) : U unit :=
  pid ← call Fork;
  (if pid =? 0 then
     _ ← call (Close (fd_at pipefd 0));
     mypid ← call Getpid;
     _ ← call (Settickets mypid tickets);
     work;;
     report mypid tickets kind pipefd
   else mret ());;
  _ ← call (Close (fd_at pipefd 1));
  mret ().

Definition spawn_cpu (tickets : Z) (pipefd : list Z) : U unit :=
  spawn (start ← call Uptime; repeat (fun fuel => burn fuel start)) 0 tickets pipefd.
Definition spawn_io (tickets : Z) (pipefd : list Z) : U unit := spawn (call_times 100 (Sleep 5)) 1 tickets pipefd.
Definition spawn_yield (tickets : Z) (pipefd : list Z) : U unit := spawn (call_times 2500 Yield) 2 tickets pipefd.

(** ** The experiments *)

Section experiments.
(** The contents of [pipes[i]] and [res[i]] before they are assigned. *)
Context (pipes0 res0 : nat -> list Z).

(** [for(i = from; i < from + n; i++) { pipe(pipes[i]); sp(tickets, pipes[i]); }] *)
Fixpoint launch (n from : nat) (sp : Z -> list Z -> U unit) (tickets : Z) : U (list (list Z)) :=
  match n with
  | O => mret []
  | S n =>
      r ← sys Pipe;
      let p := overwrite (snd r) (pipes0 from) in
      sp tickets p;;
      rest ← launch n (S from) sp tickets;
      mret (p :: rest)
  end.

(** The end of an experiment. *)
Definition finish_ (ticks : Z) (title : string) (pipes : list (list Z)) : U unit :=
  _ ← call (Sleep ticks);
  res ← collect pipes (res0 <$> seq 0 NEXP_PROCS);
  print_stats (str title) (result_of <$> res).

Definition experiment1 : U unit :=
  fprintf 1 (10 :: line "[ EXP 1 ] 8 cpu processes, 10 tickets each -> expect equal share") [];;
  pipes ← launch NEXP_PROCS 0 spawn_cpu 10;
  finish_ 850 "EXPERIMENT 1: Equal Tickets (Fairness)" pipes.

Definition experiment2 : U unit :=
  fprintf 1 (10 :: line "[ EXP 2 ] 1 process=80 tickets, 7 processes=10 tickets -> expect pid[0] dominates") [];;
  p ← launch 1 0 spawn_cpu 80;
  pipes ← launch (NEXP_PROCS - 1) 1 spawn_cpu 10;
  finish_ 850 "EXPERIMENT 2: Weighted Tickets (Priority)" (p ++ pipes).

Definition experiment3 : U unit :=
  fprintf 1 (10 :: line "[ EXP 3 ] 3 cpu + 3 io + 2 yield, all 10 tickets -> io/yield use fewer ticks") [];;
  p ← launch 3 0 spawn_cpu 10;
  q ← launch 3 3 spawn_io 10;
  r ← launch 2 6 spawn_yield 10;
  finish_ 600 "EXPERIMENT 3: CPU vs IO vs Yield" (p ++ q ++ r).

Definition experiment4 : U unit :=
  fprintf 1 (10 :: line "[ EXP 4 ] 1 process=1 ticket, 7 processes=100 tickets -> check starvation") [];;
  p ← launch 1 0 spawn_cpu 1;
  pipes ← launch (NEXP_PROCS - 1) 1 spawn_cpu 100;
  finish_ 850 "EXPERIMENT 4: Starvation Test" (p ++ pipes).

Definition schedtest_main : U unit :=
  fprintf 1 (10 :: line "*** LOTTERY SCHEDULER TEST SUITE ***") [];;
  fprintf 1 (line "4 experiments, 8 processes each") [];;
  experiment1;; experiment2;; experiment3;; experiment4;;
  fprintf 1 (line "*** all tests finished ***") [];;
  exit_.
End experiments.

(** ** forktest *)

(** The [printf] of forktest.c. *)
Definition puts (fd : Z) (s : list Z) : U unit := _ ← call (Write fd (cstr s)); mret ().

(** The loop over [fork]: the number of children. *)
Fixpoint fork_loop (k : nat) (n : Z) : U Z :=
  match k with
  | O => mret n
  | S k =>
      pid ← call Fork;
      if pid <? 0 then mret n
      else if pid =? 0 then exit_
      else fork_loop k (n + 1)
  end.

Fixpoint wait_children (n : nat) : U unit :=
  match n with
  | O => mret ()
  | S n =>
      pid ← call Wait;
      if pid <? 0 then puts 1 (line "wait stopped early");; exit_
      else wait_children n
  end.

Definition forktest : U unit :=
  puts 1 (line "fork test");;
  n ← fork_loop 1000 0;
  (if n =? 1000 then puts 1 (line "fork claimed to work N times!");; exit_ else mret ());;
  wait_children (Z.to_nat n);;
  pid ← call Wait;
  if negb (pid =? -1) then puts 1 (line "wait got too many");; exit_
  else puts 1 (line "fork test OK").

Definition forktest_main : U unit := forktest;; exit_.

(** ** stressfs *)

(** [for(i = 0; i < 4; i++) if(fork() > 0) break;] *)
Fixpoint fork_chain (k : nat) (i : Z) : U Z :=
  match k with
  | O => mret i
  | S k =>
      pid ← call Fork;
      if 0 <? pid then mret i else fork_chain k (i + 1)
  end.

Definition stressfs_main : U unit :=
  fprintf 1 (line "stressfs starting") [];;
  let data := replicate 512 97 in
  i ← fork_chain 4 0;
  fprintf 1 (line "write %d") [UInt i];;
  let path := str "stressfs" ++ [s8 (48 + i)] in
  fd ← call (Open path (Z.lor O_CREATE O_RDWR));
  call_times 20 (Write fd data);;
  _ ← call (Close fd);
  fprintf 1 (line "read") [];;
  fd ← call (Open path O_RDONLY);
  call_times 20 (Read fd 512);;
  _ ← call (Close fd);
  _ ← call Wait;
  exit_.

(** ** What the programs print *)

(** The table of an experiment. *)
Definition row_text (total : Z) (r : result) : list Z :=
  printed (line "  pid=%d  tickets=%d  ticks=%d  share=%d%%  type=%s")
    [UInt (r_pid r); UInt (r_tickets r); UInt (r_ticks r); UInt (share_of total r); UStr (kind_name (r_kind r))].
Definition stats_text (title : list Z) (res : list result) : list Z :=
  let '(total, mx, mn) := stats res in
  printed (10 :: line ">> %s") [UStr title] ++ printed [10] [] ++ concat (row_text total <$> res) ++ printed [10] [] ++
  printed (line "  total=%d  max=%d  min=%d") [UInt total; UInt mx; UInt mn] ++ printed [10] [].

Lemma print_rows_prints total res : prints (print_rows total res) (concat (row_text total <$> res)).
Proof. induction res as [|r res IH]; [apply prints_nothing|]. cbn [print_rows fmap list_fmap concat]. by apply prints_then; [apply prints_fprintf|]. Qed.

Lemma print_stats_prints title res : prints (print_stats title res) (stats_text title res).
Proof.
  unfold print_stats, stats_text. destruct (stats res) as [[total mx] mn].
  repeat apply prints_then; try apply prints_fprintf. apply print_rows_prints.
Qed.

(** A result whose fields are integers of 32 bits. *)
Definition int32 (z : Z) : Prop := -2147483648 <= z < 2147483648.
Definition result_ok (r : result) : Prop := int32 (r_pid r) /\ int32 (r_tickets r) /\ int32 (r_ticks r) /\ int32 (r_kind r).

Lemma result_roundtrip r old : result_ok r -> length old = 16%nat -> result_of (overwrite (result_bytes r) old) = r.
Proof.
  intros (H1 & H2 & H3 & H4) Hl. destruct r as [p t k d]. unfold overwrite, result_bytes, result_of. cbn in H1, H2, H3, H4.
  f_equal; (etransitivity; [apply f_equal, of_le32|]); rewrite s32_u32; by apply s32_id.
Qed.

(** What [collect] is answered when the pipes hold [rs]. *)
Definition collected (rs : list result) : list (Z * list Z) :=
  concat ((fun r => [(16, result_bytes r); (0, []); (1, [])]) <$> rs).

Lemma collect_reads rs : Forall result_ok rs -> forall pipes old rest cs,
  length pipes = length rs -> length old = length rs -> Forall (fun l => length l = 16%nat) old ->
  exists res cs', collect pipes old (mkWorld (collected rs ++ rest) cs) = Done res (mkWorld rest (cs ++ cs')) /\
    result_of <$> res = rs /\ output 1 cs' = [].
Proof.
  induction 1 as [|r rs Hr Hrs IH]; intros [|p pipes] [|o old] rest cs Hp Ho Hold; try done.
  { exists [], []. by rewrite app_nil_r. }
  inversion Hold as [|? ? Hl Hold']; subst. cbn in Hp, Ho.
  cbn [collect collected fmap list_fmap concat app]. do 6 ustep. rewrite ubind.
  destruct (IH pipes old rest (((cs ++ [Read (fd_at p 0) 16]) ++ [Close (fd_at p 0)]) ++ [Wait])) as (res & cs' & Hc & Hres & Ho'); [lia|lia|done|].
  change (foldr app [] _) with (collected rs). unfold collected in Hc. rewrite Hc.
  eexists _, ([Read (fd_at p 0) 16; Close (fd_at p 0); Wait] ++ cs'). rewrite <- !app_assoc. split_and!; [done| |by rewrite output_app].
  cbn [fmap list_fmap snd]. by rewrite result_roundtrip, Hres.
Qed.

(** ** The numbers of the table *)

Definition total_ticks (res : list result) : Z := foldr (fun r s => r_ticks r + s) 0 res.

Lemma total_ticks_nonneg res : Forall (fun r => 0 <= r_ticks r) res -> 0 <= total_ticks res.
Proof. induction 1; cbn; [done|]. fold (total_ticks l). lia. Qed.

Lemma stats_from res : forall t mx mn, Forall (fun r => 0 <= r_ticks r) res -> 0 <= t -> t + total_ticks res < 2147483648 ->
  exists mx' mn', foldl stats_round (t, mx, mn) res = (t + total_ticks res, mx', mn') /\
    Forall (fun r => mn' <= r_ticks r <= mx') res /\ mx <= mx' /\ mn' <= mn /\
    (mx' = mx \/ mx' ∈ r_ticks <$> res) /\ (mn' = mn \/ mn' ∈ r_ticks <$> res).
Proof.
  induction res as [|r res IH]; intros t mx mn Hres Ht Hsum.
  { exists mx, mn. cbn. rewrite Z.add_0_r. split_and!; auto; lia. }
  inversion Hres as [|? ? Hr Hres']; subst. pose proof (total_ticks_nonneg _ Hres').
  cbn [foldl]. unfold stats_round at 2. cbn [total_ticks foldr] in *. fold (total_ticks res) in *. rewrite s32_id by lia.
  destruct (IH (t + r_ticks r) (if mx <? r_ticks r then r_ticks r else mx) (if r_ticks r <? mn then r_ticks r else mn)) as
    (mx' & mn' & -> & Hall & H1 & H2 & H3 & H4); [done|lia..|].
  exists mx', mn'. split; [f_equal; f_equal; lia|]. cbn [fmap list_fmap]. rewrite !elem_of_cons.
  destruct (Z.ltb_spec mx (r_ticks r)), (Z.ltb_spec (r_ticks r) mn); (split_and!; [constructor; [lia|done]|lia|lia|tauto|tauto]).
Qed.

(** [print_stats] computes the sum, the largest and the smallest of the ticks,
    when the sum fits an [int] and no child ran for 999999 ticks or more. *)
Theorem stats_spec res : Forall (fun r => 0 <= r_ticks r < 999999) res -> res <> [] -> total_ticks res < 2147483648 ->
  exists mx mn, stats res = (total_ticks res, mx, mn) /\ Forall (fun r => mn <= r_ticks r <= mx) res /\
    (mx = 0 \/ mx ∈ r_ticks <$> res) /\ mn ∈ r_ticks <$> res.
Proof.
  intros Hres Hne Hsum. destruct (stats_from res 0 0 999999) as (mx & mn & E & Hall & _ & _ & Hmx & Hmn); [|lia|lia|].
  { eapply Forall_impl; [exact Hres|]. cbn. lia. }
  exists mx, mn. unfold stats. rewrite E, Z.add_0_l. split_and!; try done. destruct Hmn as [->|?]; [|done].
  destruct res as [|r res]; [done|]. inversion Hall; inversion Hres; subst. lia.
Qed.

Lemma share_floor total r : 0 <= r_ticks r -> r_ticks r * 100 < 2147483648 -> 0 < total -> share_of total r = r_ticks r * 100 / total.
Proof.
  intros. unfold share_of. rewrite (proj2 (Z.ltb_lt 0 total)), s32_id by lia. apply Z.quot_div_nonneg; lia.
Qed.

(** The shares of an experiment are percentages: each is between 0 and 100, they
    add up to at most 100, and rounding down loses less than one per child. *)
Theorem shares_sum res : Forall (fun r => 0 <= r_ticks r) res -> 0 < total_ticks res -> total_ticks res * 100 < 2147483648 ->
  let shares := share_of (total_ticks res) <$> res in
  Forall (fun x => 0 <= x <= 100) shares /\ 100 - Z.of_nat (length res) < foldr Z.add 0 shares /\ foldr Z.add 0 shares <= 100.
Proof.
  intros Hres Ht Hsum shares. set (T := total_ticks res) in *.
  assert (forall l, Forall (fun r => 0 <= r_ticks r) l -> total_ticks l <= T ->
    Forall (fun x => 0 <= x <= 100) (share_of T <$> l) /\
    T * foldr Z.add 0 (share_of T <$> l) <= 100 * total_ticks l <= T * foldr Z.add 0 (share_of T <$> l) + Z.of_nat (length l) * (T - 1)) as H.
  { induction 1 as [|r l Hr Hl IH]; intros HT; [split; [done|cbn; lia]|].
    cbn [total_ticks foldr fmap list_fmap length] in *. fold (total_ticks l) in *. pose proof (total_ticks_nonneg _ Hl).
    destruct IH as [IH1 IH2]; [lia|]. rewrite share_floor by lia.
    pose proof (Z.div_mod (r_ticks r * 100) T ltac:(lia)). pose proof (Z.mod_pos_bound (r_ticks r * 100) T Ht).
    split; [constructor; [|done]|nia]. split; [apply Z.div_pos; lia|apply Z.div_le_upper_bound; nia]. }
  destruct (H res Hres ltac:(done)) as [H1 H2]. fold T in H2. unfold shares.
  assert (1 <= Z.of_nat (length res)) by (destruct res; [by subst T|cbn; lia]). split_and!; [done|nia|nia].
Qed.

(** ** Runs *)

(** An experiment ends with the table of what its children sent. *)
Theorem experiment_reports (res0 : nat -> list Z) ticks title pipes rs :
  length pipes = NEXP_PROCS -> length rs = NEXP_PROCS -> Forall result_ok rs -> (forall i, length (res0 i) = 16%nat) ->
  let out := stats_text (str title) rs in
  exists cs, finish_ res0 ticks title pipes (mkWorld ((0, []) :: collected rs ++ ((fun _ => (1, [])) <$> out)) []) = Done () (mkWorld [] cs) /\
    output 1 cs = out.
Proof.
  intros Hp Hrs Hok Hres out. unfold finish_. do 2 ustep. rewrite ubind.
  destruct (collect_reads rs Hok pipes (res0 <$> seq 0 NEXP_PROCS) ((fun _ => (1, [])) <$> out) ([] ++ [Sleep ticks])) as (res & cs & -> & Hr & Ho).
  { by rewrite Hp, Hrs. }
  { by rewrite length_fmap, length_seq. }
  { apply Forall_fmap, Forall_true. intros i. apply Hres. }
  rewrite Hr. pose proof (print_stats_prints (str title) rs [] (([] ++ [Sleep ticks]) ++ cs)) as H. rewrite app_nil_r in H.
  unfold out. rewrite H. eexists. split; [done|]. by rewrite !output_app, Ho, output_putcs.
Qed.

(** The times [burn] sees before it stops. *)
Lemma burn_run start ts t fuel rest cs : Forall (fun t => s32 (t - start) < 800) ts -> 800 <= s32 (t - start) -> (length ts < fuel)%nat ->
  burn fuel start (mkWorld (((fun t => (t, [])) <$> ts) ++ (t, []) :: rest) cs) = Done () (mkWorld rest (cs ++ replicate (S (length ts)) Uptime)).
Proof.
  intros Hts Ht. revert fuel cs. induction Hts as [|u ts Hu Hts IH]; intros [|fuel] cs Hf; cbn in Hf; try lia; cbn [burn fmap list_fmap app].
  - do 2 ustep. by rewrite (proj2 (Z.ltb_ge _ _)) by lia.
  - do 2 ustep. rewrite (proj2 (Z.ltb_lt _ _)) by lia. rewrite IH by lia. by rewrite <- app_assoc.
Qed.

(** A CPU-bound child sets its tickets, works until 800 ticks have passed, and
    sends its id, its tickets and the ticks it has run, once. *)
Theorem spawn_cpu_child tickets pipefd mypid start ts t cpu_time : 
  Forall (fun t => s32 (t - start) < 800) ts -> 800 <= s32 (t - start) ->
  spawn_cpu tickets pipefd (mkWorld ((0, []) :: (0, []) :: (mypid, []) :: (0, []) :: (start, []) ::
    ((fun t => (t, [])) <$> ts) ++ (t, []) :: (cpu_time, []) :: (16, []) :: [(0, [])]) []) =
  Exited (mkWorld [] ([Fork; Close (fd_at pipefd 0); Getpid; Settickets mypid tickets; Uptime] ++ replicate (S (length ts)) Uptime ++
    [Getrunticks; Write (fd_at pipefd 1) (result_bytes (mkResult mypid tickets cpu_time 0)); Close (fd_at pipefd 1); Exit])).
Proof.
  intros Hts Ht. unfold spawn_cpu, spawn. do 3 ustep. change (0 =? 0) with true. cbv iota. do 9 ustep.
  unfold repeat, rounds. cbn [answers].
  rewrite (burn_run start ts t) by (done || (rewrite length_app, length_fmap; cbn; lia)).
  unfold report. do 6 ustep. cbn [exit_ answers calls]. by rewrite <- !app_assoc.
Qed.

Lemma fork_loop_run k n pids rest cs : Forall (fun p => 0 < p) pids -> (length pids < k)%nat ->
  fork_loop k n (mkWorld (((fun p => (p, [])) <$> pids) ++ (-1, []) :: rest) cs) =
  Done (n + Z.of_nat (length pids)) (mkWorld rest (cs ++ replicate (S (length pids)) Fork)).
Proof.
  intros Hp. revert k n cs. induction Hp as [|p pids Hp Hpids IH]; intros [|k] n cs Hk; cbn in Hk; try lia; cbn [fork_loop fmap list_fmap app].
  - do 2 ustep. change (-1 <? 0) with true. cbv iota. ustep. by rewrite Z.add_0_r.
  - do 2 ustep. rewrite (proj2 (Z.ltb_ge p 0)), (proj2 (Z.eqb_neq p 0)), IH by lia. rewrite <- app_assoc. f_equal. cbn [length]. lia.
Qed.

Lemma wait_children_run pids rest cs : Forall (fun p => 0 < p) pids ->
  wait_children (length pids) (mkWorld (((fun p => (p, [])) <$> pids) ++ rest) cs) = Done () (mkWorld rest (cs ++ replicate (length pids) Wait)).
Proof.
  intros Hp. revert cs. induction Hp as [|p pids Hp Hpids IH]; intros cs; cbn [wait_children length fmap list_fmap app replicate]; [by rewrite app_nil_r|].
  do 2 ustep. rewrite (proj2 (Z.ltb_ge p 0)), IH by lia. by rewrite <- app_assoc.
Qed.

(** forktest says that fork works when the kernel forks some children, fewer
    than 1000, then refuses, and lets each of them be waited for once. *)
Theorem forktest_accepts pids waited : Forall (fun p => 0 < p) pids -> Forall (fun p => 0 < p) waited ->
  length waited = length pids -> (length pids < 1000)%nat ->
  forktest_main (mkWorld ((10, []) :: ((fun p => (p, [])) <$> pids) ++ (-1, []) :: ((fun p => (p, [])) <$> waited) ++ [(-1, []); (13, [])]) []) =
  Exited (mkWorld [] (Write 1 (line "fork test") :: replicate (S (length pids)) Fork ++ replicate (S (length pids)) Wait ++
    [Write 1 (line "fork test OK"); Exit])).
Proof.
  intros Hp Hw Hl Hn. unfold forktest_main, forktest, puts. rewrite ubind. do 4 ustep. rewrite ubind.
  rewrite fork_loop_run, Z.add_0_l by done. rewrite (proj2 (Z.eqb_neq (Z.of_nat (length pids)) 1000)) by lia.
  do 2 ustep. rewrite Nat2Z.id, <- Hl, ubind, wait_children_run by done. do 2 ustep. change (negb (-1 =? -1)) with false. cbv iota. do 3 ustep.
  unfold exit_. cbn [answers calls]. rewrite Hl, (replicate_S_end (length pids) Wait). cbn [app]. rewrite <- !app_assoc. done.
Qed.

Lemma call_times_run n c rest cs : call_times n c (mkWorld (replicate n (512, []) ++ rest) cs) = Done () (mkWorld rest (cs ++ replicate n c)).
Proof.
  revert cs. induction n as [|n IH]; intros cs; cbn [call_times replicate app]; [by rewrite app_nil_r|].
  do 2 ustep. by rewrite IH, <- app_assoc.
Qed.

Lemma fork_chain_run k i n rest cs p : 0 < p -> (n < k)%nat ->
  fork_chain k i (mkWorld (replicate n (0, []) ++ (p, []) :: rest) cs) = Done (i + Z.of_nat n) (mkWorld rest (cs ++ replicate (S n) Fork)).
Proof.
  intros Hp. revert k i cs. induction n as [|n IH]; intros [|k] i cs Hk; try lia; cbn [fork_chain replicate app].
  - do 2 ustep. rewrite (proj2 (Z.ltb_lt 0 p)) by done. by rewrite Z.add_0_r.
  - do 2 ustep. change (0 <? 0) with false. cbv iota. rewrite IH by lia. rewrite <- app_assoc. f_equal. lia.
Qed.

(** Process [n] of stressfs, of the four that fork the next one, writes 20 blocks
    of its own file and reads them back, and waits for the next process. *)
Theorem stressfs_process n p fd fd' : (n < 4)%nat -> 0 < p ->
  let path := str "stressfs" ++ [48 + Z.of_nat n] in
  let acks := fun s : list Z => (fun _ => (1, [])) <$> s : list (Z * list Z) in
  let writes := fun s => (fun c => Write 1 [c]) <$> s in
  let said := printed (line "write %d") [UInt (Z.of_nat n)] in
  stressfs_main (mkWorld (acks (line "stressfs starting") ++ replicate n (0, []) ++ (p, []) :: acks said ++ (fd, []) ::
    replicate 20 (512, []) ++ (0, []) :: acks (line "read") ++ (fd', []) :: replicate 20 (512, []) ++ [(0, []); (p, [])]) []) =
  Exited (mkWorld [] (writes (line "stressfs starting") ++ replicate (S n) Fork ++ writes said ++
    [Open path (Z.lor O_CREATE O_RDWR)] ++ replicate 20 (Write fd (replicate 512 97)) ++ [Close fd] ++ writes (line "read") ++
    [Open path O_RDONLY] ++ replicate 20 (Read fd' 512) ++ [Close fd'; Wait; Exit])).
Proof.
  intros Hn Hp path acks writes said. unfold stressfs_main.
  change (line "stressfs starting") with (printed (line "stressfs starting") []) at 2. rewrite ubind, prints_fprintf.
  rewrite ubind, fork_chain_run, Z.add_0_l by done. rewrite ubind, prints_fprintf. do 2 ustep.
  rewrite ubind, call_times_run. do 2 ustep. rewrite ubind.
  change (line "read") with (printed (line "read") []) at 2. rewrite prints_fprintf. do 2 ustep.
  rewrite ubind, call_times_run. do 4 ustep. unfold exit_. cbn [answers calls].
  rewrite <- !app_assoc. assert (s8 (48 + Z.of_nat n) = 48 + Z.of_nat n) as -> by (destruct n as [|[|[|[|]]]]; (lia || done)).
  done.
Qed.
