(* ===== verification/Umalloc.v ===== *)
(** * The user-level allocator (src/umalloc.c)

    Memory is seen as headers: [h_ptr] and [h_size] give the two fields of the
    header at an address.  [base] is the address of the static header of that
    name, which lies below the heap.  [sbrk] is the kernel's: the break moves up
    while there is room below [limit], and a negative argument goes through
    [deallocuvm], which does nothing when the new size is not below the old one. *)

From Stdlib Require Import ZArith Lia String.
From stdpp Require Import prelude numbers option strings list.
From S2P Require Import Prelude.

Definition HEADER : Z := 8.

Record heap : Type := mkHeap {
  h_ptr : Z -> Z;
  h_size : Z -> Z;
  freep : Z;
  brk : Z }.

Definition fset (f : Z -> Z) (a v : Z) : Z -> Z := fun x => if x =? a then v else f x.
Definition put_ptr (a v : Z) (h : heap) : heap := mkHeap (fset (h_ptr h) a v) (h_size h) (freep h) (brk h).
Definition put_size (a v : Z) (h : heap) : heap := mkHeap (h_ptr h) (fset (h_size h) a v) (freep h) (brk h).
Definition put_freep (v : Z) (h : heap) : heap := mkHeap (h_ptr h) (h_size h) v (brk h).
Definition put_brk (v : Z) (h : heap) : heap := mkHeap (h_ptr h) (h_size h) (freep h) v.

(** [p + n] on a pointer to headers. *)
Definition hadd (p n : Z) : Z := u32 (p + HEADER * n).

Section malloc.
Context (base limit : Z).

(** The loop of [free]: the free block after which [bp] goes; [None] when it
    has not been found in [fuel] steps. *)
Fixpoint free_loop (fuel : nat) (h : heap) (bp p : Z) : option Z :=
  match fuel with
  | O => None
  | S fuel =>
      if (p <? bp) && (bp <? h_ptr h p) then Some p
      else if (h_ptr h p <=? p) && ((p <? bp) || (bp <? h_ptr h p)) then Some p
      else free_loop fuel h bp (h_ptr h p)
  end.

Definition free (fuel : nat) (ap : Z) (h : heap) : option heap :=
  let bp := u32 (ap - HEADER) in
  p ← free_loop fuel h bp (freep h);
  let h :=
    if hadd bp (h_size h bp) =? h_ptr h p then
      let h' := put_size bp (u32 (h_size h bp + h_size h (h_ptr h p))) h in
      put_ptr bp (h_ptr h' (h_ptr h' p)) h'
    else put_ptr bp (h_ptr h p) h in
  let h :=
    if hadd p (h_size h p) =? bp then
      let h' := put_size p (u32 (h_size h p + h_size h bp)) h in
      put_ptr p (h_ptr h' bp) h'
    else put_ptr p bp h in
  Some (put_freep p h).

(** [sbrk]: the old break, or -1. *)
Definition sbrk (n : Z) (h : heap) : Z * heap :=
  if 0 <? n then
    if limit <? brk h + n then (-1, h) else (brk h, put_brk (brk h + n) h)
  else if n <? 0 then
    let newsz := u32 (brk h + n) in
    if brk h <=? newsz then (brk h, h)
    else if newsz =? 0 then (-1, h)
    else (brk h, put_brk newsz h)
  else (brk h, h).

(** 0 when there is no more memory; the outer [None] is a loop that has not ended. *)
Definition morecore (fuel : nat) (nu : Z) (h : heap) : option (Z * heap) :=
  let nu := if nu <? 4096 then 4096 else nu in
  let '(p, h) := sbrk (s32 (nu * HEADER)) h in
  if p =? -1 then Some (0, h)
  else
    h ← free fuel (hadd p 1) (put_size p nu h);
    Some (freep h, h).

(** The loop of [malloc]; [n] bounds its rounds. *)
Fixpoint malloc_loop (n fuel : nat) (nunits prevp p : Z) (h : heap) : option (Z * heap) :=
  match n with
  | O => None
  | S n =>
      if nunits <=? h_size h p then
        let '(p, h) :=
          if h_size h p =? nunits then (p, put_ptr prevp (h_ptr h p) h)
          else
            let h := put_size p (u32 (h_size h p - nunits)) h in
            let p := hadd p (h_size h p) in
            (p, put_size p nunits h) in
        Some (hadd p 1, put_freep prevp h)
      else if p =? freep h then
        '(p, h) ← morecore fuel nunits h;
        if p =? 0 then Some (0, h)
        else malloc_loop n fuel nunits p (h_ptr h p) h
      else malloc_loop n fuel nunits p (h_ptr h p) h
  end.

Definition units (nbytes : Z) : Z := u32 (nbytes + HEADER - 1) / HEADER + 1.

Definition malloc (n fuel : nat) (nbytes : Z) (h : heap) : option (Z * heap) :=
  let '(prevp, h) :=
    if freep h =? 0 then (base, put_size base 0 (put_ptr base base (put_freep base h)))
    else (freep h, h) in
  malloc_loop n fuel (units nbytes) prevp (h_ptr h prevp) h.
End malloc.
